(* ===== verification/_CoqProject ===== *)
-Q . S2P
Prelude.v
Sha256.v
Lsn.v
Wal.v
Storage.v
Keys.v
Host.v
Time.v
Json.v
JsonSpec.v
Manifest.v
ManifestSpec.v
Info.v
InfoSpec.v
Retention.v
RetentionSpec.v
Worlds.v
Archive.v
Prune.v
FileSystem.v
Posix.v
PosixSpec.v
PageChecksum.v
Filter.v
Incremental.v
Verify.v
VerifySpec.v
Restore.v
RestoreSpec.v
Multi.v
Config.v
Creds.v
Mint.v
ObjectStore.v
Cloud.v
S3.v
MintSpec.v
Lock.v
Bracket.v
BracketSpec.v
Resume.v
ResumeSpec.v
Backup.v
BackupSpec.v
PublishSpec.v
MultiBackup.v
MultiTee.v
Fleet.v
MultiBackupSpec.v
Rpc.v
RpcSpec.v
Session.v
Tunnel.v
PgSql.v
PgSqlSpec.v
Parallel.v
ParallelSpec.v
Worker.v
WorkerSpec.v
WorkerBackup.v
WorkerBackupSpec.v
WorkerRunSpec.v
WorkerOutcome.v
WorkerRestore.v
Check.v
Azure.v
Gcs.v
Sftp.v
SftpSpec.v
Cli.v
CliSpec.v
Open.v
BackupCmd.v
RestoreCmd.v
Cluster.v
CmdSpec.v
Printing.v
Serve.v
Main.v
MainSpec.v
