(* ===== verification/Prelude.v ===== *)
(** * A verification of pgSafe

    pgSafe backs up PostgreSQL clusters into one or several storages, archives their WAL, verifies,
    prunes and restores. This library models its Go code (the paths below are under [src/]) as
    executable definitions and proves what the parts promise each other and their users.

    ** How the parts work together

    A command ([cmd/pgsafe]) resolves its configuration, takes the lock of the server, opens the
    storages and runs one part below; its outcome is the exit status. A backup ([internal/backup])
    asks PostgreSQL for its identity and checks the archive, then fills the storage in one of three
    ways: it streams [pg_basebackup] entry by entry through a filter chain (hash, compress, encrypt,
    hash), possibly into several storages behind a tee; it reads the files over libpq between
    [pg_backup_start] and [pg_backup_stop]; or it drives a worker on the PostgreSQL host over an RPC
    connection, which writes to the storage with scoped credentials, through a tunnel, or by handing
    the bytes back. Each of them waits for the WAL of its bracket and makes the backup visible by
    renaming its manifest into place. WAL gets into the storage by [archive-push]. Verification and
    restore (here or on a worker) read the manifest and decode every file; retention decides which
    chains of backups are kept and prune deletes the others. All of them use the storage through one
    interface, [storage.Backend], which five drivers implement.

    ** Conventions

    Code that touches the world is a function [M W A := W -> result A * W] over an abstract world
    [W]; [bind], [try], [wrapping] and [forM] stand for sequencing, [if err != nil], [%w] and
    loops. The interfaces are classes of operations with classes of laws: [Backend] with
    [BackendLaws] and [FlatLaws] (Storage), [Host], [Disk] and [Clock] (Host), [Pg] (Bracket),
    [BaseBackup] (Backup), [FilterLibs] (Filter), [Sessions], [Summaries] and [Catalog] (PgSql),
    [Minting] and [Dialing] (Mint), [Transport] (WorkerBackup), [Clients] (Open),
    [Pools] (BackupCmd), [Shell] (Cli), [Exec] (Session), [Bodies] (Rpc), [Stdio] (Serve), [Output] (Main). Any operation may fail at any time unless
    a law says otherwise. The theorems of the clients hold for every world with these laws; [mem],
    [world] and the fleet of Fleet.v are concrete ones, with scripts of failures and of WAL that
    arrives, on which the definitions run and the theorems are instantiated. Go integers are [Z] with
    [u32], [u64], [i64] where they can wrap; bytes are [string]; a map is a [gmap] (iteration order
    is a parameter where the code ranges over one); goroutines are a permutation of their work
    (verify, restore, the parallel drivers) or interleaved steps (Multi, Lock, Session, Tunnel, Rpc).

    ** The files

    Prelude: the monad, Go's strings, numbers, [path] functions and errors. Sha256: [crypto/sha256].
    Time: [time.Time], calendars and formats. Json, JsonSpec: [encoding/json] (encoder, decoder by
    struct tags) and its round trip. Keys: lemmas on the keys callers build.
    - Lsn, Wal: [internal/manifest/manifest.go] (LSN) and the segment arithmetic of
      [internal/backup/wallag.go] and [internal/retention/prune.go].
    - Storage, Host, Worlds: [internal/storage/storage.go] and the interfaces above.
    - FileSystem, Posix, PosixSpec: [internal/storage/posix]: the driver over a file system whose
      directory entries and data reach the disk only by fsync, which may fail at any call and
      crash at any point; confinement, crash atomicity and durability. PublishSpec: how a backup is
      published (the end of [backup.go]) on that driver.
    - ObjectStore, Cloud, S3, Azure, Gcs, Sftp, SftpSpec: [internal/storage/s3], [azure], [gcs],
      [sftp]: the drivers over the calls of their SDKs, each an instance of the storage interface.
    - Manifest, ManifestSpec, Incremental: [internal/manifest]: builder, sidecar, checkpoint, the
      incremental file format, and their round trips.
    - Filter, PageChecksum: [internal/filter]: the chain and the page validator.
    - Archive: [internal/wal/archive]: push, find, get.
    - Info, InfoSpec, Retention, RetentionSpec, Prune: [internal/info], [internal/retention].
    - Verify, VerifySpec: [internal/verify]. Restore, RestoreSpec: [internal/restore].
    - Bracket, BracketSpec, Resume, ResumeSpec, Backup, BackupSpec: [internal/backup]: WAL wait,
      probe, standby, identity; checkpoints and resuming; the simple driver end to end.
    - Multi: [internal/storage/multi], the tee. MultiBackup, MultiTee, Fleet, MultiBackupSpec: the
      simple driver with several storages behind it, under any schedule of the goroutines.
    - PgSql, PgSqlSpec, Parallel, ParallelSpec: [internal/pg/bracket], [walsummary], [readbinary]
      and [remoteparallel.go].
    - Rpc, RpcSpec: [internal/transport/rpc]. Session: [internal/transport/session.go], [local],
      [ssh]. Tunnel: [sftptunnel]. Creds, Mint, MintSpec: [internal/transport/creds], with
      the policy of the token against the keys the S3 driver writes.
    - Worker, WorkerSpec: [internal/worker]. WorkerBackup, WorkerBackupSpec, WorkerRunSpec,
      WorkerOutcome: [pgsafe_worker.go] and [proxy.go]. WorkerRestore: [pgsafe_worker.go] of
      [internal/restore].
    - Lock: [internal/lock]. Config: [internal/config]. Check: [internal/check]. Cluster:
      [internal/pg/cluster.go], [identity], [basebackup].
    - Cli, CliSpec: configuration, shell words and the commands that change the storage. Open: how
      the drivers and their clients are opened and closed. BackupCmd: [internal/pg/conn], the
      choice of the driver, [pgsafe backup]. RestoreCmd: [restore], [info], [verify], [check].
      CmdSpec: what backup and restore promise from the command line. Printing:
      [internal/info/format.go] with its [text/tabwriter], and the table of [verify]. Serve: the worker command
      of [worker.go] and the loop of [internal/transport/rpc/server.go] around the worker. Main: the tree of
      commands from the arguments to the exit status. MainSpec: the work of every command, and that status 0
      means it was done.

    ** What is proved

    - End to end: a restore of a successful full backup that took up no unfinished one gives back the bytes
      [pg_basebackup] streamed (BackupSpec.backup_restore_roundtrip), also from the two command lines with
      [--no-resume] (CmdSpec.backup_command_roundtrip); a restore of a parallel backup and of one through a
      worker without a resume plan has every listed file (ParallelSpec.parallel_restore_roundtrip,
      WorkerOutcome.worker_restore_roundtrip). For the same runs, whatever fails, a manifest appears only with
      its whole backup: in the simple driver, in each of several storages, over libpq and through a
      worker (the theorems named [.._atomic]). The parallel and worker theorems are about data directories
      that list no file under one of the backup's own names ([plain_listings]); a cluster restored by pgSafe
      has a backup_manifest, and there they are false (ParallelSpec.listed_manifest_left_behind), as they are for runs
      that resume (BackupSpec.resumed_backup_keeps_old_bytes).
    - Storage: confinement and no overwriting, durability in directories that are durable, the rename as a whole
      (PosixSpec), crash atomicity of publishing a backup (PublishSpec); the other drivers
      keep the contract of the interface (S3.s3_implements, its like in Azure and Gcs,
      SftpSpec.sftp_implements); opening leaks no connection (Open); every live storage of a tee holds
      the whole stream and the tee never deadlocks (Multi).
    - WAL: a push never changes what is archived; a bracket that was acquired with the archive as its source is
      archived in full and the wait for it ends (Archive, BracketSpec).
    - Retention: chains are kept or expired as a whole, every rule keeps what it promises of its own buckets
      (which are calendar days on a clock in UTC only), prune never touches a kept backup, its WAL under the names
      of [archive-push], or that of 16 MiB under bare names (RetentionSpec, Prune).
    - Formats: manifests, sidecars, LSNs, incremental files, credentials, frames of the RPC and
      filtered files read back (VerifySpec, ManifestSpec, Lsn, Incremental, Creds, RpcSpec, Filter); a
      passed verification means every file decodes to its digest.
    - Workers: a worker opens only what it was told to, its token is narrowed to the objects of the storage (for a
      prefix without a slash at its end, MintSpec), a call is answered as long as calls of both encodings do not
      overlap, the bracket is closed whatever fails, and a restore through a worker is one
      by [Restore.Run] (WorkerSpec, MintSpec, RpcSpec, WorkerOutcome, WorkerRestore). A session is
      closed in bounded time whatever the worker does; the tunnel serves the holder of its key only,
      and nobody once it is closed (Session, Tunnel).
    - Processes: locks exclude, a wait with a timeout is bounded; resuming never costs a finished
      backup a file; chains of incrementals are rebuilt in order; a valid configuration is fit for use
      (Open.valid_config_usable); a check shows what its probes look at, which is less than their texts say
      (Check.check_sound); every command ends with one of the documented statuses, and with 0 exactly when all
      of its work was done (MainSpec.main_status).
    - Lemmas that name a defect show it on a concrete run, e.g.
      BackupSpec.resumed_incremental_loses_files or Prune.Prune_passes_archived_segments.

    ** Hypotheses that recur

    [copyable], [FlatLaws]: the keys and stores for which [Commit] of the cloud drivers is a rename.
    A run that does not take up an older one: [--no-resume], or nothing to resume is found.
    [plain_listings]: no listed file has one of the backup's own names. [rooted]: the directories above a file
    are durable. [phased]: calls of the two encodings do not overlap. [utf8_texts]: what JSON carries.
    [same_chain]: backup and restore have the same keys and codec. [seg_size_ok]: a WAL segment size
    PostgreSQL has. [directories_utf8]: names that JSON can carry. [SharedStorage]: the storage the
    worker opens is that of the caller. [ClientLaws.the_storage]: an opened driver is the storage of
    the world. The storages of a fleet are apart: a call on one leaves the others alone.

    ** Bounds and fuel

    [wait_fuel] and [probe_fuel] count the rounds a timeout allows, as every round sleeps at
    least the first delay: WaitForWAL_returns shows the fuel is never used up. The depth of a
    chain is 64 as in the code. [rootOf_go] gets one step per record and rootOf_complete shows
    that is enough. [run_tee] has as fuel the measure of the tee, which every step lowers (MultiTee). The
    recursive queries of PgSql stop at twelve levels, as the SQL does. Page validation and segment
    enumeration recurse on the length of their input. The loops of [encoding/json] recurse on the text.
    The loop of Serve has one round per byte of its input and one more, which Serve_ends shows is enough.

    ** What is not modelled

    The compressors, [age], PostgreSQL, [pg_basebackup] and [pg_combinebackup], the cloud SDKs, the SSH
    and SFTP protocols, [pgx], [os/exec], [encoding/gob] and the YAML decoder are parameters with their
    documented behaviour as laws. A copy that fails part of the way leaves what was written before (streamFileTo, restoreOneFile); which part of
    a decoded file that is, is a parameter. The server of the RPC reads and writes its pending request without
    a common lock; here the two take turns, and a call of the worker runs as a whole when it returns. Contexts are only modelled where a wait ends by them, and in
    Session and Lock. Log lines, progress and the messages of commands other than the listing and
    the table of [verify] are left out, as is flag parsing by cobra. The test helpers ([sshtest], [pgtest], [cloudtest], [locktest], [backuptest],
    [rpcmock] and the fault registry) are not part of the program. *)

(** ** Go integers, strings, paths and errors *)

From stdpp Require Export base gmap strings list pretty sorting.
From Stdlib Require Export ZArith Lia Ascii.
From Stdlib Require Import String.
From stdpp Require Import list.

#[global] Open Scope string_scope.
#[global] Open Scope list_scope.
#[global] Open Scope Z_scope.

Declare Scope go_scope.
Delimit Scope go_scope with go.
#[global] Open Scope go_scope.

#[global] Arguments String.append !_ _ / : simpl nomatch.

(** Lemmas of the library that rewrite or close the common side conditions. *)
Create HintDb go.
Create Rewrite HintDb go.
#[export] Hint Extern 1 (_ < _) => lia : go.
#[export] Hint Extern 1 (_ <= _) => lia : go.

(** ** Lists *)

Lemma elem_of_bfilter {A} (f : A -> bool) x (l : list A) :
  x ∈ base.filter f l <-> x ∈ l /\ f x = true.
Proof. rewrite list_elem_of_filter, Is_true_true. tauto. Qed.

Lemma NoDup_fmap_bfilter {A B} (g : A -> B) (f : A -> bool) (l : list A) :
  NoDup (g <$> l) -> NoDup (g <$> base.filter f l).
Proof.
  induction l as [|x l IH]; [done|]. rewrite fmap_cons, NoDup_cons. intros [Hni Hnd].
  rewrite filter_cons. case_decide; [|by apply IH]. rewrite fmap_cons, NoDup_cons.
  split; [|by apply IH]. contradict Hni. apply list_elem_of_fmap in Hni as (y & -> & Hy).
  apply elem_of_bfilter in Hy as [Hy _]. by apply list_elem_of_fmap_2.
Qed.

Lemma exists_pair_cons {A B} (x : A) (y : B) l (P : A -> B -> Prop) :
  (exists a b, (a, b) ∈ (x, y) :: l /\ P a b) <-> P x y \/ (exists a b, (a, b) ∈ l /\ P a b).
Proof.
  split.
  - intros (a & b & [[= -> ->]|Hin]%elem_of_cons & HP); eauto.
  - intros [HP|(a & b & Hin & HP)]; [exists x, y|exists a, b]; rewrite elem_of_cons; auto.
Qed.

Lemma exists_key_cons {A B} (k x : A) (y : B) l (P : B -> Prop) :
  (exists b, (k, b) ∈ (x, y) :: l /\ P b) <-> (k = x /\ P y) \/ (exists b, (k, b) ∈ l /\ P b).
Proof.
  split.
  - intros (b & [[= -> ->]|Hin]%elem_of_cons & HP); eauto.
  - intros [[-> HP]|(b & Hin & HP)]; [exists y|exists b]; rewrite elem_of_cons; auto.
Qed.

Lemma exists_pair_nil {A B} (P : A -> B -> Prop) :
  (exists a b, (a, b) ∈ ([] : list (A * B)) /\ P a b) <-> False.
Proof. split; [|done]. intros (a & b & Hin & _). by apply not_elem_of_nil in Hin. Qed.

(** ** Machine integers

    Unsigned integers are [Z]; [u32] and [u64] are the conversions of Go, which
    keep the low bits. *)

Definition u8 (z : Z) : Z := z mod 2 ^ 8.
Definition u16 (z : Z) : Z := z mod 2 ^ 16.
Definition u32 (z : Z) : Z := z mod 2 ^ 32.
Definition u64 (z : Z) : Z := z mod 2 ^ 64.

(** [int64], and [int] on the platforms the program builds for. *)
Definition i64 (z : Z) : Z := (z + 2 ^ 63) mod 2 ^ 64 - 2 ^ 63.

Definition is_i64 (z : Z) : Prop := - 2 ^ 63 <= z < 2 ^ 63.

Definition is_u32 (z : Z) : Prop := 0 <= z < 2 ^ 32.
Definition is_u64 (z : Z) : Prop := 0 <= z < 2 ^ 64.

Lemma u32_range z : is_u32 (u32 z).
Proof. unfold is_u32, u32. apply Z.mod_pos_bound. lia. Qed.

Lemma u64_range z : is_u64 (u64 z).
Proof. unfold is_u64, u64. apply Z.mod_pos_bound. lia. Qed.

Lemma u32_id z : is_u32 z -> u32 z = z.
Proof. unfold is_u32, u32. apply Z.mod_small. Qed.

Lemma u64_id z : is_u64 z -> u64 z = z.
Proof. unfold is_u64, u64. apply Z.mod_small. Qed.

Lemma i64_range z : is_i64 (i64 z).
Proof. unfold is_i64, i64. pose proof (Z.mod_pos_bound (z + 2 ^ 63) (2 ^ 64)). lia. Qed.

Lemma i64_id z : is_i64 z -> i64 z = z.
Proof. unfold is_i64, i64. intros. rewrite Z.mod_small; lia. Qed.

(** ** Byte strings

    A Go [string] or [[]byte] is a [string] of bytes. *)

Abbreviation byte := ascii (only parsing).

Abbreviation slen := String.length (only parsing).

Definition byte_val (c : ascii) : Z := Z.of_N (N_of_ascii c).

Definition byte_of (z : Z) : ascii := ascii_of_N (Z.to_N (u8 z)).

Lemma byte_val_range c : 0 <= byte_val c < 256.
Proof.
  unfold byte_val. pose proof (N_ascii_bounded c). lia.
Qed.

Lemma byte_of_val c : byte_of (byte_val c) = c.
Proof.
  unfold byte_of, u8. pose proof (byte_val_range c).
  rewrite Z.mod_small by lia. unfold byte_val. rewrite N2Z.id.
  apply ascii_N_embedding.
Qed.

Lemma byte_val_of z : 0 <= z < 256 -> byte_val (byte_of z) = z.
Proof.
  intros H. unfold byte_val, byte_of, u8. rewrite Z.mod_small by lia.
  rewrite N_ascii_embedding by lia. lia.
Qed.

Lemma byte_val_inj c d : byte_val c = byte_val d -> c = d.
Proof. intros H. rewrite <- (byte_of_val c), <- (byte_of_val d). by rewrite H. Qed.

Fixpoint stake (n : nat) (s : string) : string :=
  match n, s with
  | S n', String c s' => String c (stake n' s')
  | _, _ => ""
  end.

Fixpoint sdrop (n : nat) (s : string) : string :=
  match n, s with
  | S n', String _ s' => sdrop n' s'
  | _, _ => s
  end.

(** [s[i]] when it is in range. *)
Definition sget (s : string) (i : nat) : option ascii := String.get i s.

(** The bytes of a string satisfy a predicate. *)
Fixpoint sall (p : ascii -> bool) (s : string) : bool :=
  match s with
  | "" => true
  | String c s' => p c && sall p s'
  end.

Lemma sapp_nil_r s : s +:+ "" = s.
Proof. induction s; simpl; congruence. Qed.

Lemma sapp_assoc (a b c : string) : (a +:+ b) +:+ c = a +:+ b +:+ c.
Proof. induction a; simpl; congruence. Qed.

Lemma slen_app a b : slen (a +:+ b) = (slen a + slen b)%nat.
Proof. induction a; simpl; congruence. Qed.

Lemma stake_app a b : stake (slen a) (a +:+ b) = a.
Proof. induction a; simpl; [by destruct b|congruence]. Qed.

Lemma sdrop_app a b : sdrop (slen a) (a +:+ b) = b.
Proof. induction a; simpl; [by destruct b|done]. Qed.

Lemma stake_drop n s : stake n s +:+ sdrop n s = s.
Proof. revert s. induction n as [|n IH]; intros [|c s]; simpl; [done..|]. by rewrite IH. Qed.

Lemma slen_drop n s : slen (sdrop n s) = (slen s - n)%nat.
Proof. revert s. induction n; intros [|c s]; simpl; auto. Qed.

Lemma slen_take n s : slen (stake n s) = Nat.min n (slen s).
Proof. revert s. induction n; intros [|c s]; simpl; auto. Qed.

Lemma sdrop_sdrop n m s : sdrop n (sdrop m s) = sdrop (m + n) s.
Proof. revert s. induction m as [|m IH]; intros s; [done|]. destruct s; [by destruct n|]. apply IH. Qed.

Lemma stake_app_le n a b : (n <= slen a)%nat -> stake n (a +:+ b) = stake n a.
Proof.
  revert a. induction n as [|n IH]; intros [|c a] H; simpl in *; try (done || lia).
  by rewrite IH by lia.
Qed.

Lemma sdrop_app_le n a b : (n <= slen a)%nat -> sdrop n (a +:+ b) = sdrop n a +:+ b.
Proof.
  revert a. induction n as [|n IH]; intros [|c a] H; simpl in *; try (done || lia).
  apply IH. lia.
Qed.

(** [bytes.Repeat] of one byte *)
Definition repeat_byte (n : nat) (c : ascii) : string := Nat.iter n (String c) "".

Lemma slen_repeat n c : slen (repeat_byte n c) = n.
Proof. unfold repeat_byte. induction n as [|n IH]; [done|]. simpl. by rewrite IH. Qed.

Lemma sall_app p a b : sall p (a +:+ b) = sall p a && sall p b.
Proof. induction a; simpl; [done|]. rewrite IHa. by rewrite andb_assoc. Qed.

Lemma sall_impl (p q : ascii -> bool) s :
  (forall c, p c = true -> q c = true) -> sall p s = true -> sall q s = true.
Proof.
  intros Hpq. induction s as [|c s IH]; simpl; [done|].
  rewrite !andb_true_iff. naive_solver.
Qed.

Lemma sapp_inj_len a b c d :
  slen a = slen c -> a +:+ b = c +:+ d -> a = c /\ b = d.
Proof.
  revert c. induction a as [|x a IH]; intros [|y c]; simpl; try done.
  intros Hl Heq. simplify_eq. destruct (IH c) as [-> ->]; auto.
Qed.

#[export] Hint Rewrite sapp_nil_r sapp_assoc slen_app sall_app : go.

(** [strings.HasPrefix], [strings.HasSuffix], [strings.Index], [strings.Contains] *)

Definition HasPrefix (s p : string) : bool := String.prefix p s.

#[global] Arguments HasPrefix : simpl never.

Definition HasSuffix (s p : string) : bool :=
  (slen p <=? slen s)%nat && String.eqb (sdrop (slen s - slen p) s) p.

Fixpoint Index (s sub : string) : option nat :=
  if HasPrefix s sub then Some 0%nat
  else match s with
       | "" => None
       | String _ s' => S <$> Index s' sub
       end.

Definition Contains (s sub : string) : bool :=
  match Index s sub with Some _ => true | None => false end.

Lemma prefix_cons c p d s :
  String.prefix (String c p) (String d s) =
  if ascii_dec c d then String.prefix p s else false.
Proof. done. Qed.

Lemma HasPrefix_spec s p : HasPrefix s p = true <-> exists t, s = p +:+ t.
Proof.
  unfold HasPrefix. revert s. induction p as [|c p IH]; intros s.
  - split; [exists s; done|]. by destruct s.
  - destruct s as [|d s]; [split; [done|by intros [t ?]]|]. rewrite prefix_cons.
    destruct (ascii_dec c d) as [->|Hne]; simpl.
    + rewrite IH. split; intros [t Ht]; exists t; simplify_eq; congruence.
    + split; [done|]. intros [t ?]; simplify_eq.
Qed.

Lemma HasPrefix_nil s : HasPrefix s "" = true.
Proof. by destruct s. Qed.

Lemma HasPrefix_cons c p d s :
  HasPrefix (String d s) (String c p) = (Ascii.eqb c d && HasPrefix s p).
Proof.
  unfold HasPrefix. rewrite prefix_cons.
  destruct (ascii_dec c d) as [->|Hne]; simpl.
  - by rewrite Ascii.eqb_refl.
  - apply Ascii.eqb_neq in Hne. by rewrite Hne.
Qed.

Lemma HasPrefix_app p t : HasPrefix (p +:+ t) p = true.
Proof. apply HasPrefix_spec; eauto. Qed.

Lemma HasSuffix_spec s p : HasSuffix s p = true <-> exists t, s = t +:+ p.
Proof.
  unfold HasSuffix. rewrite andb_true_iff, Nat.leb_le, String.eqb_eq. split.
  - intros [Hl Hd]. exists (stake (slen s - slen p) s).
    rewrite <- Hd at 2. by rewrite stake_drop.
  - intros [t ->]. rewrite slen_app. split; [lia|].
    replace (slen t + slen p - slen p)%nat with (slen t) by lia. apply sdrop_app.
Qed.

Lemma HasSuffix_app t p : HasSuffix (t +:+ p) p = true.
Proof. apply HasSuffix_spec; eauto. Qed.

Lemma bool_eq_iff (a b : bool) : (a = true <-> b = true) -> a = b.
Proof. destruct a, b; naive_solver. Qed.

Lemma Index_Some s sub n :
  Index s sub = Some n -> exists a b, s = a +:+ sub +:+ b /\ slen a = n.
Proof.
  revert n. induction s as [|c s IH]; intros n; simpl.
  - destruct (HasPrefix "" sub) eqn:E; [|done]. intros [= <-].
    apply HasPrefix_spec in E as [t Ht]. exists "", t. done.
  - destruct (HasPrefix (String c s) sub) eqn:E.
    + intros [= <-]. apply HasPrefix_spec in E as [t Ht]. exists "", t. done.
    + intros (m & ? & ->)%fmap_Some_1. destruct (IH m) as (a & b & -> & <-); [done|].
      by exists (String c a), b.
Qed.

(** [strings.Split] and [strings.Cut] on a one-byte separator. *)

Fixpoint Split (s : string) (sep : ascii) : list string :=
  match s with
  | "" => [""]
  | String c s' =>
      match Split s' sep with
      | [] => []
      | h :: t => if Ascii.eqb c sep then "" :: h :: t else String c h :: t
      end
  end.

Fixpoint Cut (s : string) (sep : ascii) : option (string * string) :=
  match s with
  | "" => None
  | String c s' =>
      if Ascii.eqb c sep then Some ("", s')
      else match Cut s' sep with
           | Some (a, b) => Some (String c a, b)
           | None => None
           end
  end.

Definition no_byte (sep : ascii) (s : string) : bool :=
  sall (fun c => negb (Ascii.eqb c sep)) s.

Lemma Cut_app a b sep : no_byte sep a = true -> Cut (a +:+ String sep b) sep = Some (a, b).
Proof.
  unfold no_byte. induction a as [|c a IH]; simpl.
  - intros _. by rewrite Ascii.eqb_refl.
  - rewrite andb_true_iff, negb_true_iff. intros [-> H]. by rewrite IH.
Qed.

Lemma Cut_Some s sep a b : Cut s sep = Some (a, b) -> s = a +:+ String sep b /\ no_byte sep a = true.
Proof.
  unfold no_byte. revert a b. induction s as [|c s IH]; intros a b; simpl; [done|].
  destruct (Ascii.eqb c sep) eqn:E.
  - intros [= <- <-]. apply Ascii.eqb_eq in E as ->. done.
  - destruct (Cut s sep) as [[x y]|] eqn:E2; [|done]. intros [= <- <-].
    destruct (IH x y) as [-> Hn]; [done|]. simpl. by rewrite E, Hn.
Qed.

Fixpoint Join (l : list string) (sep : string) : string :=
  match l with
  | [] => ""
  | [x] => x
  | x :: l' => x +:+ sep +:+ Join l' sep
  end.

Lemma Join_cons2 x y l sep : Join (x :: y :: l) sep = x +:+ sep +:+ Join (y :: l) sep.
Proof. done. Qed.

Lemma Join_cons x l : Join (x :: l) "" = x +:+ Join l "".
Proof. destruct l; [|done]. cbn [Join]. by rewrite sapp_nil_r. Qed.


(** [strings.LastIndex(s, c)] *)
Fixpoint LastIndexByte (s : string) (c : ascii) : option nat :=
  match s with
  | "" => None
  | String d s' =>
      match LastIndexByte s' c with
      | Some i => Some (S i)
      | None => if Ascii.eqb d c then Some 0%nat else None
      end
  end.

(** [strings.TrimRight(s, "/")] *)
Fixpoint TrimRightSlash (s : string) : string :=
  match s with
  | "" => ""
  | String c s' =>
      match TrimRightSlash s' with
      | "" => if Ascii.eqb c "/" then "" else String c ""
      | r => String c r
      end
  end.

(** ** Little-endian integers *)

(** The integer in the first [k] bytes. *)
Fixpoint le_uint (k : nat) (s : string) : Z :=
  match k, s with
  | S k', String c s' => byte_val c + 256 * le_uint k' s'
  | _, _ => 0
  end.

(** [binary.LittleEndian.PutUint<8k>] *)
Fixpoint put_le (k : nat) (v : Z) : string :=
  match k with
  | O => ""
  | S k' => String (byte_of v) (put_le k' (v / 256))
  end.

Lemma le_uint_put k v s : 0 <= v < 256 ^ Z.of_nat k -> le_uint k (put_le k v +:+ s) = v.
Proof.
  revert v. induction k as [|k IH]; intros v Hv.
  - simpl in *. lia.
  - rewrite Nat2Z.inj_succ, Z.pow_succ_r in Hv by lia. simpl.
    rewrite IH by (split; [apply Z.div_pos; lia|apply Z.div_lt_upper_bound; lia]).
    unfold byte_of, byte_val, u8. pose proof (Z.mod_pos_bound v 256). pose proof (Z.div_mod v 256).
    change (2 ^ 8) with 256. rewrite N_ascii_embedding by lia. lia.
Qed.

Lemma slen_put_le k v : slen (put_le k v) = k.
Proof. revert v. induction k; intros v; simpl; auto. Qed.

Lemma le_uint_range k s : 0 <= le_uint k s < 256 ^ Z.of_nat k.
Proof.
  revert s. induction k as [|k IH]; intros s; [destruct s; simpl; lia|].
  rewrite Nat2Z.inj_succ, Z.pow_succ_r by lia. destruct s as [|c s]; cbn [le_uint].
  - pose proof (Z.pow_pos_nonneg 256 (Z.of_nat k)). lia.
  - pose proof (byte_val_range c). specialize (IH s). lia.
Qed.

(** ** Formatting and scanning of numbers

    [%X], [%08X] and [%x] of [fmt]; [Sscanf] with the verbs [%x] and [%X]. *)

Definition hexU (d : Z) : ascii := byte_of (if d <? 10 then 48 + d else 55 + d).
Definition hexL (d : Z) : ascii := byte_of (if d <? 10 then 48 + d else 87 + d).

Fixpoint hex_fixed (dg : Z -> ascii) (k : nat) (n : Z) : string :=
  match k with
  | O => ""
  | S k' => hex_fixed dg k' (n / 16) +:+ String (dg (n mod 16)) ""
  end.

Definition hexlen (n : Z) : nat := if n =? 0 then 1%nat else Z.to_nat (Z.log2 n / 4 + 1).

(** [fmt.Sprintf("%X", n)] and [fmt.Sprintf("%0<w>X", n)] *)
Definition FormatX (n : Z) : string := hex_fixed hexU (hexlen n) n.
Definition Format0X (w : nat) (n : Z) : string := hex_fixed hexU (Nat.max w (hexlen n)) n.
Definition Format0x (w : nat) (n : Z) : string := hex_fixed hexL (Nat.max w (hexlen n)) n.

(** [fmt.Sprintf("%d", n)] *)
Definition FormatD (n : Z) : string := pretty n.

(** Decimal digits, and the number a text of them is. *)
Definition is_digit (c : ascii) : bool := (48 <=? byte_val c) && (byte_val c <=? 57).

(** [strconv.ParseInt(literal, 10, 64)] without its range check. *)
Fixpoint dec_acc (acc : Z) (s : string) : option Z :=
  match s with
  | "" => Some acc
  | String c s' => if is_digit c then dec_acc (acc * 10 + (byte_val c - 48)) s' else None
  end.

Definition ParseDec (s : string) : option Z :=
  match s with
  | "" => None
  | String c s' =>
      if Ascii.eqb c "-" then if String.eqb s' "" then None else Z.opp <$> dec_acc 0 s' else dec_acc 0 s
  end.

Lemma pretty_N_char_digit d : (d < 10)%N ->
  is_digit (pretty_N_char d) = true /\ byte_val (pretty_N_char d) - 48 = Z.of_N d.
Proof.
  intros Hd. assert (H : d = 0%N \/ d = 1%N \/ d = 2%N \/ d = 3%N \/ d = 4%N \/ d = 5%N \/ d = 6%N \/ d = 7%N \/ d = 8%N \/ d = 9%N)
    by lia.
  by repeat destruct H as [->|H]; subst.
Qed.

Lemma dec_acc_app a s t : dec_acc a (s +:+ t) = match dec_acc a s with Some b => dec_acc b t | None => None end.
Proof. revert a. induction s as [|c s IH]; intros a; [done|]. cbn. destruct (is_digit c); [apply IH|done]. Qed.

Lemma pretty_N_go_spec x : (0 < x)%N -> exists c d,
  (forall s, pretty_N_go x s = String c (d +:+ s)) /\ sall is_digit (String c d) = true /\ c <> "0"%char /\
  dec_acc 0 (String c d) = Some (Z.of_N x).
Proof.
  induction x as [x IH] using (well_founded_induction N.lt_wf_0). intros Hx.
  destruct (pretty_N_char_digit (x `mod` 10)) as [Hd Hv]; [by apply N.mod_lt|].
  destruct (decide (x `div` 10 = 0)%N) as [Hz|Hz].
  - exists (pretty_N_char (x `mod` 10)), "". apply N.div_small_iff in Hz; [|done].
    rewrite (N.mod_small x 10) in * by done. split_and!.
    + intros s. rewrite pretty_N_go_step, N.div_small, pretty_N_go_0 by lia. by rewrite N.mod_small.
    + cbn [sall]. by rewrite Hd.
    + intros E. rewrite E in Hv. change (byte_val "0" - 48) with 0 in Hv. lia.
    + cbn [dec_acc]. rewrite Hd. f_equal. lia.
  - assert (Hlt : (x `div` 10 < x)%N) by (apply N.div_lt; lia).
    destruct (IH _ Hlt) as (c & d & Hs & Hdig & Hc & Hval); [by apply N.neq_0_lt_0|].
    exists c, (d +:+ String (pretty_N_char (x `mod` 10)) ""). split_and!; [|..|done|].
    + intros s. rewrite pretty_N_go_step, Hs by done. by rewrite sapp_assoc.
    + change (String c (d +:+ ?y)) with (String c d +:+ y). rewrite sall_app, Hdig. cbn [sall]. by rewrite Hd.
    + change (String c (d +:+ ?y)) with (String c d +:+ y). rewrite dec_acc_app, Hval. cbn [dec_acc]. rewrite Hd.
      f_equal. rewrite Hv. pose proof (N.div_mod x 10 ltac:(done)). lia.
Qed.

(** [%d] prints digits without a leading zero, and they are read back. *)
Lemma FormatD_digits n : 0 <= n -> exists c d, FormatD n = String c d /\ sall is_digit (String c d) = true /\
  (c = "0"%char -> d = "") /\ dec_acc 0 (String c d) = Some n.
Proof.
  intros Hn. unfold FormatD. destruct n as [|p|p]; [|..|lia].
  - by exists "0"%char, "".
  - destruct (pretty_N_go_spec (N.pos p)) as (c & d & Hs & Hd & Hc & Hv); [done|]. exists c, d.
    split_and!; [|done..]. change (pretty (Z.pos p)) with (pretty (N.pos p)). unfold pretty, pretty_N.
    rewrite decide_False by done. by rewrite Hs, sapp_nil_r.
Qed.

Lemma FormatD_neg n : n < 0 -> FormatD n = String "-" (FormatD (- n)).
Proof. intros Hn. destruct n as [|p|p]; [lia|lia|]. done. Qed.

Lemma is_digit_hexdigit c : is_digit c = true -> byte_val c <> 45.
Proof. unfold is_digit. lia. Qed.

Lemma ParseDec_FormatD n : ParseDec (FormatD n) = Some n.
Proof.
  destruct (Z.lt_ge_cases n 0) as [Hn|Hn].
  - rewrite FormatD_neg by done. destruct (FormatD_digits (- n)) as (c & d & -> & Hd & _ & Hv); [lia|].
    cbn [ParseDec]. rewrite Ascii.eqb_refl. change (String.eqb (String c d) "") with false. rewrite Hv. cbn. f_equal. lia.
  - destruct (FormatD_digits n Hn) as (c & d & -> & Hd & _ & Hv). unfold ParseDec.
    cbn [sall] in Hd. apply andb_true_iff in Hd as [Hc _]. apply is_digit_hexdigit in Hc.
    destruct (Ascii.eqb_spec c "-") as [->|_]; done.
Qed.

Definition hexval (c : ascii) : option Z :=
  let v := byte_val c in
  if (48 <=? v) && (v <=? 57) then Some (v - 48)
  else if (65 <=? v) && (v <=? 70) then Some (v - 55)
  else if (97 <=? v) && (v <=? 102) then Some (v - 87)
  else None.

Definition is_hexdigit (c : ascii) : bool :=
  match hexval c with Some _ => true | None => false end.

(** The value of the longest prefix of hexadecimal digits. *)
Fixpoint hex_acc (acc : Z) (s : string) : Z :=
  match s with
  | "" => acc
  | String c s' => match hexval c with Some d => hex_acc (acc * 16 + d) s' | None => acc end
  end.

(** Blanks [Sscanf] skips before a number (the ASCII ones; a newline is an error). *)
Definition is_blank (c : ascii) : bool :=
  let v := byte_val c in (v =? 9) || (v =? 11) || (v =? 12) || (v =? 13) || (v =? 32).

Fixpoint skip_blanks (s : string) : string :=
  match s with
  | String c s' => if is_blank c then skip_blanks s' else s
  | "" => ""
  end.

(** [fmt.Sscanf(s, "%x", &v)] where [v] is an unsigned integer of [bits] bits.
    The digits are scanned greedily and what follows them is ignored. *)
Definition Sscanf_hex (bits : Z) (s : string) : option Z :=
  match skip_blanks s with
  | "" => None
  | String c s' =>
      if is_hexdigit c then
        let v := hex_acc 0 (String c s') in
        if v <? 2 ^ bits then Some v else None
      else None
  end.

Lemma hexval_digit dg d :
  dg = hexU \/ dg = hexL -> 0 <= d < 16 -> hexval (dg d) = Some d.
Proof.
  intros Hdg Hd.
  assert (H : d = 0 \/ d = 1 \/ d = 2 \/ d = 3 \/ d = 4 \/ d = 5 \/ d = 6 \/ d = 7 \/
              d = 8 \/ d = 9 \/ d = 10 \/ d = 11 \/ d = 12 \/ d = 13 \/ d = 14 \/ d = 15) by lia.
  destruct Hdg as [-> | ->]; by destruct_or! H; subst d.
Qed.

Lemma slen_hex_fixed dg k n : slen (hex_fixed dg k n) = k.
Proof. revert n. induction k as [|k IH]; intros n; simpl; [done|]. rewrite slen_app, IH. simpl. lia. Qed.

Lemma hex_fixed_hex dg k n :
  dg = hexU \/ dg = hexL -> sall is_hexdigit (hex_fixed dg k n) = true.
Proof.
  intros Hdg. revert n. induction k as [|k IH]; intros n; simpl; [done|].
  rewrite sall_app, IH. simpl. unfold is_hexdigit.
  rewrite hexval_digit; auto using Z.mod_pos_bound with lia.
Qed.

Lemma hex_acc_app a s t :
  sall is_hexdigit s = true -> hex_acc a (s +:+ t) = hex_acc (hex_acc a s) t.
Proof.
  revert a. induction s as [|c s IH]; intros a; simpl; [done|].
  unfold is_hexdigit at 1. destruct (hexval c); simpl; auto. done.
Qed.

Lemma hex_acc_fixed dg k n a :
  dg = hexU \/ dg = hexL -> 0 <= n < 16 ^ Z.of_nat k ->
  hex_acc a (hex_fixed dg k n) = a * 16 ^ Z.of_nat k + n.
Proof.
  intros Hdg. revert n. induction k as [|k IH]; intros n Hn.
  - simpl in *. lia.
  - cbn [hex_fixed]. rewrite Nat2Z.inj_succ, Z.pow_succ_r in * by lia.
    rewrite hex_acc_app by by apply hex_fixed_hex.
    rewrite IH by (split; [apply Z.div_pos; lia | apply Z.div_lt_upper_bound; lia]).
    simpl. rewrite hexval_digit; [|done|apply Z.mod_pos_bound; lia].
    pose proof (Z.div_mod n 16). lia.
Qed.

Lemma pow16 k : 16 ^ Z.of_nat k = 2 ^ (4 * Z.of_nat k).
Proof. rewrite Z.pow_mul_r by lia. done. Qed.

Lemma hexlen_bound n : 0 <= n -> n < 16 ^ Z.of_nat (hexlen n).
Proof.
  intros Hn. unfold hexlen. destruct (Z.eqb_spec n 0) as [->|Hne]; [done|].
  pose proof (Z.log2_nonneg n). pose proof (Z.div_pos (Z.log2 n) 4).
  rewrite pow16, Z2Nat.id by lia.
  destruct (Z.log2_spec n) as [_ Hlt]; [lia|].
  eapply Z.lt_le_trans; [exact Hlt|]. apply Z.pow_le_mono_r; [lia|].
  pose proof (Z.div_mod (Z.log2 n) 4). pose proof (Z.mod_pos_bound (Z.log2 n) 4). lia.
Qed.

Lemma hexlen_pos n : (1 <= hexlen n)%nat.
Proof.
  unfold hexlen. destruct (Z.eqb_spec n 0); [done|].
  pose proof (Z.div_pos (Z.log2 n) 4). pose proof (Z.log2_nonneg n). lia.
Qed.

Lemma hexlen_le n (k : nat) : (1 <= k)%nat -> 0 <= n < 16 ^ Z.of_nat k -> (hexlen n <= k)%nat.
Proof.
  intros Hk [Hn0 Hn]. unfold hexlen. destruct (Z.eqb_spec n 0); [done|].
  rewrite pow16 in Hn. apply Z.log2_lt_pow2 in Hn; [|lia].
  pose proof (Z.div_lt_upper_bound (Z.log2 n) 4 (Z.of_nat k)). lia.
Qed.

Lemma Format0X_fixed w n :
  (1 <= w)%nat -> 0 <= n < 16 ^ Z.of_nat w -> Format0X w n = hex_fixed hexU w n.
Proof.
  intros Hw Hn. unfold Format0X. pose proof (hexlen_le n w Hw Hn).
  by rewrite Nat.max_l by lia.
Qed.

Lemma skip_blanks_hex s : sall is_hexdigit s = true -> skip_blanks s = s.
Proof.
  destruct s as [|c s]; simpl; [done|]. intros H. apply andb_true_iff in H as [H _].
  assert (is_blank c = false) as ->; [|done].
  unfold is_hexdigit, hexval in H. unfold is_blank.
  repeat case_match; try done; rewrite ?andb_true_iff, ?andb_false_iff in *; lia.
Qed.

Lemma Sscanf_hex_digits bits s :
  s <> "" -> sall is_hexdigit s = true -> hex_acc 0 s < 2 ^ bits ->
  Sscanf_hex bits s = Some (hex_acc 0 s).
Proof.
  intros Hne Hs Hv. unfold Sscanf_hex. rewrite skip_blanks_hex by done.
  destruct s as [|c s]; [done|]. cbn [sall] in Hs. apply andb_true_iff in Hs as [-> _].
  destruct (Z.ltb_spec (hex_acc 0 (String c s)) (2 ^ bits)); [done|lia].
Qed.

Lemma hex_fixed_nonempty dg k n : (1 <= k)%nat -> hex_fixed dg k n <> "".
Proof.
  intros Hk Heq. pose proof (slen_hex_fixed dg k n) as Hl. rewrite Heq in Hl. simpl in Hl. lia.
Qed.

Lemma Sscanf_hex_fixed bits dg k n :
  dg = hexU \/ dg = hexL -> (1 <= k)%nat -> 0 <= n < 16 ^ Z.of_nat k -> n < 2 ^ bits ->
  Sscanf_hex bits (hex_fixed dg k n) = Some n.
Proof.
  intros Hdg Hk Hn Hb.
  assert (Hacc : hex_acc 0 (hex_fixed dg k n) = n) by (rewrite hex_acc_fixed by done; lia).
  rewrite Sscanf_hex_digits; auto using hex_fixed_nonempty, hex_fixed_hex; [by rewrite Hacc|lia].
Qed.

(** Same-width hexadecimal numerals compare as the numbers do. *)

Lemma compare_refl s : String.compare s s = Eq.
Proof.
  pose proof (String.compare_antisym s s) as H.
  destruct (String.compare s s); simpl in H; congruence.
Qed.

Lemma compare_app a b c d :
  slen a = slen c ->
  String.compare (a +:+ b) (c +:+ d) =
  match String.compare a c with Eq => String.compare b d | o => o end.
Proof.
  revert c. induction a as [|x a IH]; intros [|y c]; simpl; try done.
  intros [= Hl]. destruct (Ascii.compare x y); auto.
Qed.

Lemma compare_hexU_digit a b :
  0 <= a < 16 -> 0 <= b < 16 ->
  String.compare (String (hexU a) "") (String (hexU b) "") = (a ?= b).
Proof.
  intros Ha Hb. simpl. unfold Ascii.compare, hexU.
  assert (Hn : forall z, 0 <= z < 16 ->
    N_of_ascii (byte_of (if z <? 10 then 48 + z else 55 + z)) =
    Z.to_N (if z <? 10 then 48 + z else 55 + z)).
  { intros z Hz. unfold byte_of, u8. rewrite Z.mod_small by (case_match; lia).
    apply N_ascii_embedding. case_match; lia. }
  rewrite !Hn by done.
  destruct (Z.ltb_spec a 10), (Z.ltb_spec b 10);
    match goal with |- context [N.compare ?x ?y] => destruct (N.compare_spec x y) end;
    destruct (Z.compare_spec a b); lia || done.
Qed.

Lemma compare_hex_fixed k a b :
  0 <= a < 16 ^ Z.of_nat k -> 0 <= b < 16 ^ Z.of_nat k ->
  String.compare (hex_fixed hexU k a) (hex_fixed hexU k b) = (a ?= b).
Proof.
  revert a b. induction k as [|k IH]; intros a b Ha Hb.
  - simpl in *. assert (a = 0) as -> by lia. by assert (b = 0) as -> by lia.
  - rewrite Nat2Z.inj_succ, Z.pow_succ_r in * by lia. cbn [hex_fixed].
    assert (Hdiv : forall z, 0 <= z < 16 * 16 ^ Z.of_nat k -> 0 <= z / 16 < 16 ^ Z.of_nat k).
    { intros z Hz. split; [apply Z.div_pos; lia | apply Z.div_lt_upper_bound; lia]. }
    rewrite compare_app by by rewrite !slen_hex_fixed.
    rewrite IH, compare_hexU_digit by auto using Z.mod_pos_bound with lia.
    pose proof (Z.div_mod a 16). pose proof (Z.div_mod b 16).
    pose proof (Z.mod_pos_bound a 16). pose proof (Z.mod_pos_bound b 16).
    destruct (Z.compare_spec (a / 16) (b / 16)), (Z.compare_spec a b);
      try lia; destruct (Z.compare_spec (a mod 16) (b mod 16)); lia || done.
Qed.

Lemma compare_Format0X w a b :
  (1 <= w)%nat -> 0 <= a < 16 ^ Z.of_nat w -> 0 <= b < 16 ^ Z.of_nat w ->
  String.compare (Format0X w a) (Format0X w b) = (a ?= b).
Proof. intros Hw Ha Hb. rewrite !Format0X_fixed by done. by apply compare_hex_fixed. Qed.

(** The quotation mark and the line feed. *)
Definition dq : ascii := "034".
Definition nl : string := String "010" "".
Definition quoted (s : string) : string := String dq (s +:+ String dq "").

(** [strings.TrimSpace] of ASCII text. *)
Definition is_space (c : ascii) : bool :=
  let v := byte_val c in (v =? 32) || ((9 <=? v) && (v <=? 13)).

Fixpoint trim_right (s : string) : string :=
  match s with
  | "" => ""
  | String c s' => match trim_right s' with
                   | "" => if is_space c then "" else String c ""
                   | r => String c r
                   end
  end.

Fixpoint trim_left (s : string) : string :=
  match s with String c s' => if is_space c then trim_left s' else s | "" => "" end.

Definition TrimSpace (s : string) : string := trim_left (trim_right s).

Fixpoint token (s : string) : string :=
  match s with String c s' => if is_space c then "" else String c (token s') | "" => "" end.

(** [sort.Strings] and its reverse. *)
Definition sort_strings (l : list string) : list string := merge_sort String.le l.
Definition sort_strings_desc (l : list string) : list string := rev (sort_strings l).

Lemma sort_strings_perm l : sort_strings l ≡ₚ l.
Proof. apply merge_sort_Permutation. Qed.

Lemma sort_strings_sorted l : StronglySorted String.le (sort_strings l).
Proof. apply (StronglySorted_merge_sort String.le). Qed.

Lemma elem_of_sort_strings x l : x ∈ sort_strings l <-> x ∈ l.
Proof. by rewrite sort_strings_perm. Qed.

Lemma String_compare_le_trans a b c :
  String.compare a b <> Gt -> String.compare b c <> Gt -> String.compare a c <> Gt.
Proof.
  assert (Hle : forall x y, String.compare x y <> Gt <-> String.le x y).
  { intros x y. unfold String.le, String.leb. destruct (String.compare x y); simpl; naive_solver. }
  rewrite !Hle. intros. by transitivity b.
Qed.

(** ** Slash-separated paths ([path.Clean], [path.Join], [path.Base], [path.Dir]);
    on the platforms the program builds for, [path/filepath] agrees with [path]. *)

Fixpoint clean_go (rooted : bool) (acc : list string) (segs : list string) : list string :=
  match segs with
  | [] => rev acc
  | s :: r =>
      if String.eqb s "" || String.eqb s "." then clean_go rooted acc r
      else if String.eqb s ".." then
        match acc with
        | top :: acc' =>
            if String.eqb top ".." then clean_go rooted (".." :: acc) r
            else clean_go rooted acc' r
        | [] => clean_go rooted (if rooted then [] else [".."]) r
        end
      else clean_go rooted (s :: acc) r
  end.

Definition Clean (p : string) : string :=
  let rooted := HasPrefix p "/" in
  let body := Join (clean_go rooted [] (Split p "/")) "/" in
  if rooted then "/" +:+ body else if String.eqb body "" then "." else body.

Definition path_Join (elems : list string) : string :=
  match base.filter (fun e => negb (String.eqb e "")) elems with
  | [] => ""
  | l => Clean (Join l "/")
  end.

Definition path_Base (p : string) : string :=
  if String.eqb p "" then "."
  else let b := List.last (Split (TrimRightSlash p) "/") "" in
       if String.eqb b "" then "/" else b.

Definition path_Dir (p : string) : string :=
  match removelast (Split p "/") with
  | [] => "."
  | l => Clean (Join l "/" +:+ "/")
  end.

(** A path component that [Clean] keeps. *)
Definition plain_seg (s : string) : bool :=
  negb (String.eqb s "") && negb (String.eqb s ".") && negb (String.eqb s "..") &&
  no_byte "/" s.

(** A relative path made of plain components. *)
Definition plain_path (p : string) : bool := forallb plain_seg (Split p "/").

Lemma Split_cons_not_nil s c : exists h t, Split s c = h :: t.
Proof.
  induction s as [|d s (h & t & IH)]; simpl; [by eexists _, _|].
  rewrite IH. case_match; by eexists _, _.
Qed.

Lemma Split_no_byte s c : no_byte c s = true -> Split s c = [s].
Proof.
  unfold no_byte. induction s as [|d s IH]; simpl; [done|].
  rewrite andb_true_iff, negb_true_iff. intros [-> H]. by rewrite IH.
Qed.

Lemma Split_app a c b : no_byte c a = true -> Split (a +:+ String c b) c = a :: Split b c.
Proof.
  unfold no_byte. induction a as [|d a IH]; simpl.
  - intros _. rewrite Ascii.eqb_refl. by destruct (Split_cons_not_nil b c) as (h & t & ->).
  - rewrite andb_true_iff, negb_true_iff. intros [-> H]. by rewrite IH.
Qed.

Lemma Split_app_any a c b : Split (a +:+ String c b) c = Split a c ++ Split b c.
Proof.
  induction a as [|d a IH]; simpl.
  - rewrite Ascii.eqb_refl. by destruct (Split_cons_not_nil b c) as (h & t & ->).
  - rewrite IH. destruct (Split_cons_not_nil a c) as (h & t & ->). simpl. by case_match.
Qed.

Lemma Join_Split s c : Join (Split s c) (String c "") = s.
Proof.
  induction s as [|d s IH]; simpl; [done|].
  destruct (Split_cons_not_nil s c) as (h & t & E). rewrite E in *.
  destruct (Ascii.eqb d c) eqn:Edc.
  - apply Ascii.eqb_eq in Edc as ->. simpl in *. by rewrite IH.
  - destruct t; simpl in *; by rewrite <- IH.
Qed.

Lemma plain_seg_clean rooted acc segs :
  forallb plain_seg segs = true -> clean_go rooted acc segs = rev acc ++ segs.
Proof.
  revert acc. induction segs as [|s segs IH]; intros acc H; simpl in *.
  - by rewrite app_nil_r.
  - apply andb_true_iff in H as [Hs H]. unfold plain_seg in Hs.
    rewrite !andb_true_iff, !negb_true_iff in Hs. destruct Hs as [[[-> ->] ->] _]. simpl.
    rewrite IH by done. simpl. by rewrite <- app_assoc.
Qed.

Lemma Split_Join l c : l <> [] -> forallb (no_byte c) l = true -> Split (Join l (String c "")) c = l.
Proof.
  induction l as [|x l IH]; [done|]. intros _. cbn [forallb]. rewrite andb_true_iff. intros [Hx Hl].
  destruct l as [|y l]; [by apply Split_no_byte|].
  change (Join (x :: y :: l) (String c "")) with (x +:+ String c (Join (y :: l) (String c ""))).
  rewrite Split_app by done. by rewrite IH.
Qed.

Lemma Split_segs_no_byte s c : forallb (no_byte c) (Split s c) = true.
Proof.
  induction s as [|d s IH]; [done|]. cbn [Split]. destruct (Split s c) as [|h t]; [done|].
  cbn [forallb] in IH. apply andb_true_iff in IH as [Hh Ht].
  destruct (Ascii.eqb d c) eqn:E; cbn [forallb]; rewrite Ht; unfold no_byte in *; simpl; by rewrite ?E, Hh.
Qed.

(** The components a rooted path is cleaned to. *)
Lemma clean_go_rooted_plain acc segs :
  forallb plain_seg acc = true -> forallb (no_byte "/") segs = true ->
  forallb plain_seg (clean_go true acc segs) = true.
Proof.
  revert acc. induction segs as [|s segs IH]; intros acc Ha; cbn [clean_go forallb].
  - intros _. rewrite forallb_forall in *. intros x Hx. by apply Ha, in_rev.
  - rewrite andb_true_iff. intros [Hs Hsegs].
    destruct (String.eqb s "") eqn:E1; [by apply IH|]. destruct (String.eqb s ".") eqn:E2; [by apply IH|].
    cbn [orb]. destruct (String.eqb s "..") eqn:E3.
    + destruct acc as [|top acc]; [by apply IH|]. pose proof Ha as Ha'. cbn [forallb] in Ha'.
      apply andb_true_iff in Ha' as [Ht Ha']. destruct (String.eqb_spec top ".."); [by subst|by apply IH].
    + apply IH; [|done]. cbn [forallb]. rewrite Ha, andb_true_r. unfold plain_seg. by rewrite E1, E2, E3, Hs.
Qed.

Lemma plain_path_not_rooted p : plain_path p = true -> HasPrefix p "/" = false.
Proof.
  unfold plain_path. intros H. apply not_true_iff_false. intros [t ->]%HasPrefix_spec.
  change ("/" +:+ t) with ("" +:+ String "/" t) in H. rewrite Split_app in H; done.
Qed.

Lemma plain_path_nonempty p : plain_path p = true -> p <> "".
Proof. by intros H ->. Qed.

Lemma Clean_plain p : plain_path p = true -> Clean p = p.
Proof.
  intros H. unfold Clean. rewrite plain_path_not_rooted by done.
  rewrite plain_seg_clean by done. simpl. rewrite Join_Split.
  destruct (String.eqb_spec p ""); [|done]. by subst.
Qed.

Lemma plain_path_app a b :
  plain_path a = true -> plain_path b = true -> plain_path (a +:+ "/" +:+ b) = true.
Proof.
  unfold plain_path. intros Ha Hb. change ("/" +:+ b) with (String "/" b).
  by rewrite Split_app_any, forallb_app, Ha, Hb.
Qed.

Lemma path_Join_plain a b :
  plain_path a = true -> plain_path b = true -> path_Join [a; b] = a +:+ "/" +:+ b.
Proof.
  intros Ha Hb. unfold path_Join.
  pose proof (plain_path_nonempty a Ha). pose proof (plain_path_nonempty b Hb).
  rewrite !filter_cons, filter_nil.
  destruct (String.eqb_spec a ""), (String.eqb_spec b ""); try done. simpl.
  by rewrite Clean_plain by by apply plain_path_app.
Qed.

Lemma plain_seg_path s : plain_seg s = true -> plain_path s = true.
Proof.
  intros H. unfold plain_path. rewrite Split_no_byte; [by simpl; rewrite H|].
  unfold plain_seg in H. rewrite !andb_true_iff in H. tauto.
Qed.

Lemma no_byte_app c a b : no_byte c (a +:+ b) = no_byte c a && no_byte c b.
Proof. apply sall_app. Qed.

Lemma Contains_byte s sub c : no_byte c s = true -> no_byte c sub = false -> Contains s sub = false.
Proof.
  intros Hs Hsub. unfold Contains. destruct (Index s sub) as [n|] eqn:E; [|done].
  apply Index_Some in E as (a & b & -> & _). rewrite !no_byte_app in Hs.
  rewrite !andb_true_iff in Hs. destruct Hs as (_ & Hs & _). congruence.
Qed.

Lemma hex_no_byte c s : is_hexdigit c = false -> sall is_hexdigit s = true -> no_byte c s = true.
Proof.
  intros Hc. apply sall_impl. intros d Hd. apply negb_true_iff, Ascii.eqb_neq. intros ->. congruence.
Qed.

Lemma Format0X_hex w n : sall is_hexdigit (Format0X w n) = true.
Proof. apply hex_fixed_hex; auto. Qed.

Lemma hex_plain s : s <> "" -> sall is_hexdigit s = true -> plain_seg s = true.
Proof.
  intros Hne Hs. unfold plain_seg. rewrite (hex_no_byte "/" s) by done.
  destruct (String.eqb_spec s ""), (String.eqb_spec s "."), (String.eqb_spec s ".."); subst; done.
Qed.

Lemma Format0X_nonempty w n : Format0X w n <> "".
Proof. apply hex_fixed_nonempty. pose proof (hexlen_pos n). lia. Qed.

(** The last component of a path. *)
Lemma TrimRightSlash_app a b :
  b <> "" -> no_byte "/" b = true -> TrimRightSlash (a +:+ b) = a +:+ b.
Proof.
  intros Hne Hb. assert (Htb : TrimRightSlash b = b).
  { clear a. unfold no_byte in Hb. induction b as [|c b IH]; [done|]. cbn [sall] in Hb.
    apply andb_true_iff in Hb as [Hc Hb]. apply negb_true_iff in Hc. cbn [TrimRightSlash].
    destruct b as [|d b]; [by cbn; rewrite Hc|]. by rewrite IH. }
  induction a as [|c a IH]; [done|].
  change (String c a +:+ b) with (String c (a +:+ b)). cbn [TrimRightSlash]. rewrite IH.
  destruct (a +:+ b) eqn:E; [|done]. destruct a; [subst; done|done].
Qed.

Lemma path_Base_app a b :
  b <> "" -> no_byte "/" b = true -> path_Base (a +:+ "/" +:+ b) = b.
Proof.
  intros Hne Hb. unfold path_Base.
  destruct (String.eqb_spec (a +:+ "/" +:+ b) "") as [E|_]; [by destruct a|].
  rewrite <- (sapp_assoc a "/" b), TrimRightSlash_app, sapp_assoc by done.
  change ("/" +:+ b) with (String "/" b).
  rewrite Split_app_any, (Split_no_byte b), List.last_last by done.
  by destruct (String.eqb_spec b "").
Qed.

Lemma last_slash p : no_byte "/" p = true \/ exists a b, p = a +:+ String "/" b /\ no_byte "/" b = true.
Proof.
  induction p as [|c p [IH|(a & b & -> & Hb)]]; [by left| |right; by exists (String c a), b].
  destruct (Ascii.eqb c "/") eqn:E.
  - apply Ascii.eqb_eq in E as ->. right. by exists "", p.
  - left. unfold no_byte in *. simpl. by rewrite E.
Qed.

Lemma path_Dir_split a b : no_byte "/" b = true -> path_Dir (a +:+ String "/" b) = Clean (a +:+ "/").
Proof.
  intros Hb. unfold path_Dir. rewrite Split_app_any, (Split_no_byte b) by done.
  rewrite removelast_last. destruct (Split_cons_not_nil a "/") as (h & tl & E).
  rewrite E, <- E. by rewrite Join_Split.
Qed.

Lemma path_Dir_suffix p s : HasPrefix p "/" = true -> no_byte "/" s = true -> path_Dir (p +:+ s) = path_Dir p.
Proof.
  intros Hp Hs. destruct (last_slash p) as [Hn|(a & b & -> & Hb)].
  - apply HasPrefix_spec in Hp as [u ->]. done.
  - rewrite sapp_assoc. change (String "/" b +:+ s) with (String "/" (b +:+ s)).
    rewrite !path_Dir_split; [done..|]. by rewrite no_byte_app, Hb, Hs.
Qed.

Lemma Clean_rooted p : HasPrefix p "/" = true -> HasPrefix (Clean p) "/" = true.
Proof. intros Hp. unfold Clean. rewrite Hp. apply HasPrefix_app. Qed.

(** ** Errors

    [errors.Is] looks for the sentinel that [%w] carries through every wrapping;
    the message keeps the constant part of the format. *)

Inductive sentinel :=
  | OsErrNotExist | OsErrExist
  | IoEOF | IoErrUnexpectedEOF
  | CtxErr
  | ErrSegmentMismatch
  | ErrLockTimeout
  | ErrEmptyPolicy
  | ErrWALWait | ErrArchiveUnreachable | ErrStandbyDisconnected | ErrPGProtocol | ErrStorage
  | ErrClusterIdentityMismatch
  | ErrChecksumMismatch.

#[export] Instance sentinel_eq_dec : EqDecision sentinel.
Proof. solve_decision. Defined.

Record error := Err { err_is : option sentinel; err_msg : string }.

Definition errors_New (msg : string) : error := Err None msg.
Definition errors_Sentinel (s : sentinel) (msg : string) : error := Err (Some s) msg.

(** [fmt.Errorf("<msg>: %w", e)] *)
Definition Errorf_w (msg : string) (e : error) : error := Err (err_is e) (msg +:+ ": " +:+ err_msg e).

Definition errors_Is (e : error) (s : sentinel) : bool := bool_decide (err_is e = Some s).

Lemma errors_Is_wrap msg e s : errors_Is (Errorf_w msg e) s = errors_Is e s.
Proof. done. Qed.

Inductive result (A : Type) :=
  | Ok (a : A)
  | Fail (e : error).
Arguments Ok {A} _.
Arguments Fail {A} _.

Definition isOk {A} (r : result A) : bool := match r with Ok _ => true | Fail _ => false end.

Definition map_error {A} (f : error -> error) (r : result A) : result A :=
  match r with Ok a => Ok a | Fail e => Fail (f e) end.

Definition map_result {A B} (f : A -> B) (r : result A) : result B :=
  match r with Ok a => Ok (f a) | Fail e => Fail e end.

(** ** The state and error monad of the stateful parts *)

Definition M (W A : Type) : Type := W -> result A * W.

Definition ret {W A} (a : A) : M W A := fun w => (Ok a, w).
Definition throw {W A} (e : error) : M W A := fun w => (Fail e, w).

Definition bind {W A B} (m : M W A) (k : A -> M W B) : M W B := fun w =>
  match m w with
  | (Ok a, w') => k a w'
  | (Fail e, w') => (Fail e, w')
  end.

(** The call with its error as a value, for the code that inspects it. *)
Definition try {W A} (m : M W A) : M W (result A) := fun w =>
  let '(r, w') := m w in (Ok r, w').

(** [if err := m(); err != nil { return fmt.Errorf("<msg>: %w", err) }] *)
Definition wrapping {W A} (msg : string) (m : M W A) : M W A := fun w =>
  let '(r, w') := m w in (map_error (Errorf_w msg) r, w').

Definition read {W A} (f : W -> A) : M W A := fun w => (Ok (f w), w).
Definition update {W} (f : W -> W) : M W unit := fun w => (Ok tt, f w).
Definition of_result {W A} (r : result A) : M W A := fun w => (r, w).

Notation "x <- c ;; k" := (bind c (fun x => k))
  (at level 100, c at next level, right associativity) : go_scope.
Notation "c ;;; k" := (bind c (fun _ => k)) (at level 100, right associativity) : go_scope.

(** [for _, x := range l { body }] with an accumulator, stopping at the first error. *)
Fixpoint forM {W A B} (l : list A) (acc : B) (body : B -> A -> M W B) : M W B :=
  match l with
  | [] => ret acc
  | x :: l' => acc' <- body acc x ;; forM l' acc' body
  end.

Lemma bind_ret_l {W A B} (a : A) (k : A -> M W B) : bind (ret a) k = k a.
Proof. done. Qed.

Lemma run_bind_Ok {W A B} (m : M W A) (k : A -> M W B) w a w' :
  m w = (Ok a, w') -> bind m k w = k a w'.
Proof. unfold bind. by intros ->. Qed.

Lemma run_bind_Fail {W A B} (m : M W A) (k : A -> M W B) w e w' :
  m w = (Fail e, w') -> bind m k w = (Fail e, w').
Proof. unfold bind. by intros ->. Qed.

Lemma bind_inv_Ok {W A B} (m : M W A) (k : A -> M W B) w b w'' :
  bind m k w = (Ok b, w'') -> exists a w', m w = (Ok a, w') /\ k a w' = (Ok b, w'').
Proof. unfold bind. destruct (m w) as [[a|e] w']; [eauto|done]. Qed.

Lemma wrapping_inv_Ok {W A} msg (m : M W A) w a w' : wrapping msg m w = (Ok a, w') -> m w = (Ok a, w').
Proof. unfold wrapping. destruct (m w) as [[x|e] w1]; [|done]. cbn. by intros [= -> ->]. Qed.

(** A run is its result and the world it leaves. *)
Lemma run_eq {W A} (m : M W A) w r : fst (m w) = r -> m w = (r, snd (m w)).
Proof. intros <-. by destruct (m w). Qed.

(** A command relates the state it starts from to the one it leaves, whether it
    succeeds or fails. *)
Definition preserves {W A} (R : relation W) (m : M W A) : Prop :=
  forall w, R w (snd (m w)).

Section preserves.
Context {W : Type} (R : relation W) `{!PreOrder R}.

Lemma preserves_ret {A} (a : A) : preserves R (ret a).
Proof. intros w. simpl. reflexivity. Qed.

Lemma preserves_throw {A} e : preserves R (throw (A:=A) e).
Proof. intros w. simpl. reflexivity. Qed.

Lemma preserves_of_result {A} (r : result A) : preserves R (of_result r).
Proof. intros w. simpl. reflexivity. Qed.

Lemma preserves_read {A} (f : W -> A) : preserves R (read f).
Proof. intros w. simpl. reflexivity. Qed.

Lemma preserves_update f : (forall w, R w (f w)) -> preserves R (update f).
Proof. intros H w. apply H. Qed.

Lemma preserves_bind {A B} (m : M W A) (k : A -> M W B) :
  preserves R m -> (forall a, preserves R (k a)) -> preserves R (bind m k).
Proof.
  intros Hm Hk w. specialize (Hm w). unfold bind.
  destruct (m w) as [[a|e] w'] eqn:E; [|done]. simpl in *. etrans; [exact Hm|apply Hk].
Qed.

Lemma preserves_try {A} (m : M W A) : preserves R m -> preserves R (try m).
Proof. intros Hm w. specialize (Hm w). unfold try. by destruct (m w). Qed.

Lemma preserves_wrapping {A} msg (m : M W A) : preserves R m -> preserves R (wrapping msg m).
Proof. intros Hm w. specialize (Hm w). unfold wrapping. by destruct (m w). Qed.

Lemma preserves_forM {A B} (l : list A) (acc : B) body :
  (forall acc x, x ∈ l -> preserves R (body acc x)) -> preserves R (forM l acc body).
Proof.
  revert acc. induction l as [|x l IH]; intros acc H; simpl; [apply preserves_ret|].
  apply preserves_bind; [apply H; set_solver|]. intros acc'. apply IH. set_solver.
Qed.
End preserves.

#[export] Hint Resolve preserves_ret preserves_throw preserves_of_result preserves_read
  preserves_update preserves_bind preserves_try preserves_wrapping preserves_forM : go.

(** Unfolds the combinators, without touching the program's definitions. *)
Ltac munfold := unfold bind, try, wrapping, ret, throw, read, update, of_result.

(** Reduces the administrative redexes left by running a command. *)
Ltac mred := cbn beta iota zeta delta [fst snd map_error negb andb orb isOk] in *.

(** Finds an element of a list written out. *)
Ltac in_list := repeat first [apply list_elem_of_here | apply list_elem_of_further].
