(* ===== verification/Sha256.v ===== *)
(** * SHA-256 and hexadecimal encoding

    [crypto/sha256] and [encoding/hex], which the program uses for every digest,
    as executable definitions on byte strings. *)

From S2P Require Import Prelude.

(** The first [n] primes from [p] on, by trial division. *)
Definition is_prime (p : Z) : bool :=
  forallb (fun d => negb (p mod d =? 0)) (seqZ 2 (Z.sqrt p - 1)).

Definition first_primes (n : nat) : list Z :=
  take n (base.filter (fun p => Is_true (is_prime p)) (seqZ 2 400)).

(** The integer cube root, bit by bit from the top. *)
Fixpoint cbrt_go (bits : nat) (r x : Z) : Z :=
  match bits with
  | O => r
  | S b =>
      let r' := r + 2 ^ Z.of_nat b in
      cbrt_go b (if r' * r' * r' <=? x then r' else r) x
  end.

(** The round constants: 32 bits of the fractional part of the cube roots of the
    first 64 primes. *)
Definition sha_k : list Z :=
  Eval vm_compute in (fun p => u32 (cbrt_go 40 0 (Z.shiftl p 96))) <$> first_primes 64.

Record sha_state := ShaState { sa : Z; sb : Z; sc : Z; sd : Z; se : Z; sf : Z; sg : Z; sh : Z }.

(** The initial state: the same of the square roots of the first eight primes. *)
Definition sha_init : sha_state :=
  Eval vm_compute in
  match (fun p => u32 (Z.sqrt (Z.shiftl p 64))) <$> first_primes 8 with
  | [a; b; c; d; e; f; g; h] => ShaState a b c d e f g h
  | _ => ShaState 0 0 0 0 0 0 0 0
  end.

Definition rotr (x : Z) (n : Z) : Z := Z.lor (Z.shiftr x n) (u32 (Z.shiftl x (32 - n))).
Definition add32 (x y : Z) : Z := u32 (x + y).
Definition not32 (x : Z) : Z := Z.lxor x 0xffffffff.

Definition sha_round (s : sha_state) (kw : Z * Z) : sha_state :=
  let '(k, w) := kw in
  let s1 := Z.lxor (Z.lxor (rotr (se s) 6) (rotr (se s) 11)) (rotr (se s) 25) in
  let ch := Z.lxor (Z.land (se s) (sf s)) (Z.land (not32 (se s)) (sg s)) in
  let t1 := u32 (sh s + s1 + ch + k + w) in
  let s0 := Z.lxor (Z.lxor (rotr (sa s) 2) (rotr (sa s) 13)) (rotr (sa s) 22) in
  let maj := Z.lxor (Z.lxor (Z.land (sa s) (sb s)) (Z.land (sa s) (sc s))) (Z.land (sb s) (sc s)) in
  let t2 := u32 (s0 + maj) in
  ShaState (add32 t1 t2) (sa s) (sb s) (sc s) (add32 (sd s) t1) (se s) (sf s) (sg s).

(** The message schedule; [w] holds the last sixteen words, oldest first. *)
Fixpoint sha_schedule (n : nat) (w : list Z) : list Z :=
  match n with
  | O => w
  | S n' =>
      let len := length w in
      let at_ i := nth (len - i) w 0 in
      let g0 x := Z.lxor (Z.lxor (rotr x 7) (rotr x 18)) (Z.shiftr x 3) in
      let g1 x := Z.lxor (Z.lxor (rotr x 17) (rotr x 19)) (Z.shiftr x 10) in
      sha_schedule n' (w ++ [u32 (g1 (at_ 2%nat) + at_ 7%nat + g0 (at_ 15%nat) + at_ 16%nat)])
  end.

Definition sha_compress (s : sha_state) (block : list Z) : sha_state :=
  let r := fold_left sha_round (zip sha_k (sha_schedule 48 block)) s in
  ShaState (add32 (sa s) (sa r)) (add32 (sb s) (sb r)) (add32 (sc s) (sc r)) (add32 (sd s) (sd r))
           (add32 (se s) (se r)) (add32 (sf s) (sf r)) (add32 (sg s) (sg r)) (add32 (sh s) (sh r)).

Fixpoint bytes_of_string (s : string) : list Z :=
  match s with "" => [] | String c s' => byte_val c :: bytes_of_string s' end.

Fixpoint string_of_bytes (l : list Z) : string :=
  match l with [] => "" | b :: l' => String (byte_of b) (string_of_bytes l') end.

Fixpoint be_words (l : list Z) : list Z :=
  match l with
  | a :: b :: c :: d :: l' => (a * 2 ^ 24 + b * 2 ^ 16 + c * 2 ^ 8 + d) :: be_words l'
  | _ => []
  end.

Definition be32 (z : Z) : list Z :=
  [Z.shiftr z 24 mod 256; Z.shiftr z 16 mod 256; Z.shiftr z 8 mod 256; z mod 256].

Definition sha_pad (msg : list Z) : list Z :=
  let n := Z.of_nat (length msg) in
  let zeros := Z.to_nat ((55 - n) mod 64) in
  let bits := 8 * n in
  msg ++ [0x80] ++ replicate zeros 0 ++ be32 (u32 (Z.shiftr bits 32)) ++ be32 (u32 bits).

Fixpoint sha_blocks (fuel : nat) (w : list Z) (s : sha_state) : sha_state :=
  match fuel, w with
  | S fuel', _ :: _ => sha_blocks fuel' (drop 16 w) (sha_compress s (take 16 w))
  | _, _ => s
  end.

(** [sha256.Sum256]: the 32 bytes of the digest. *)
Definition Sum256 (msg : string) : string :=
  let w := be_words (sha_pad (bytes_of_string msg)) in
  let s := sha_blocks (length w) w sha_init in
  string_of_bytes (concat (be32 <$> [sa s; sb s; sc s; sd s; se s; sf s; sg s; sh s])).

(** [hex.EncodeToString] *)
Fixpoint EncodeToString (s : string) : string :=
  match s with
  | "" => ""
  | String c s' => String (hexL (byte_val c / 16)) (String (hexL (byte_val c mod 16)) (EncodeToString s'))
  end.

Example Sum256_abc :
  EncodeToString (Sum256 "abc") = "ba7816bf8f01cfea414140de5dae2223b00361a396177a9cb410ff61f20015ad".
Proof. vm_compute. reflexivity. Qed.

Example Sum256_empty :
  EncodeToString (Sum256 "") = "e3b0c44298fc1c149afbf4c8996fb92427ae41e4649b934ca495991b7852b855".
Proof. vm_compute. reflexivity. Qed.

Lemma slen_string_of_bytes l : slen (string_of_bytes l) = length l.
Proof. induction l; simpl; congruence. Qed.

Lemma slen_Sum256 msg : slen (Sum256 msg) = 32%nat.
Proof. unfold Sum256. by rewrite slen_string_of_bytes. Qed.

Lemma slen_EncodeToString s : slen (EncodeToString s) = (2 * slen s)%nat.
Proof. induction s as [|c s IH]; simpl; [done|]. rewrite IH. lia. Qed.

Lemma EncodeToString_hex s : sall is_hexdigit (EncodeToString s) = true.
Proof.
  induction s as [|c s IH]; simpl; [done|]. pose proof (byte_val_range c).
  unfold is_hexdigit at 1 2. rewrite !hexval_digit, IH; auto using Z.mod_pos_bound with lia.
  split; [apply Z.div_pos; lia | apply Z.div_lt_upper_bound; lia].
Qed.

Lemma EncodeToString_inj a b : EncodeToString a = EncodeToString b -> a = b.
Proof.
  revert b. induction a as [|c a IH]; intros [|d b]; simpl; try done.
  intros [= H1 H2 H3]. apply (f_equal hexval) in H1, H2.
  pose proof (byte_val_range c). pose proof (byte_val_range d).
  assert (Hd : forall z, 0 <= z < 256 -> 0 <= z / 16 < 16).
  { intros z Hz. split; [apply Z.div_pos; lia | apply Z.div_lt_upper_bound; lia]. }
  rewrite !hexval_digit in H1, H2 by (auto using Z.mod_pos_bound with lia).
  simplify_eq. f_equal; [|by apply IH]. apply byte_val_inj.
  rewrite (Z.div_mod (byte_val c) 16), (Z.div_mod (byte_val d) 16) by lia. congruence.
Qed.

#[export] Hint Resolve EncodeToString_hex slen_Sum256 : go.
