(* ===== verification/Lsn.v ===== *)
(** * Log sequence numbers

    [manifest.LSN] with its printer and parser ([internal/manifest/manifest.go]). *)

From S2P Require Import Prelude.

(** [type LSN uint64] *)
Abbreviation LSN := Z (only parsing).

(** [LSN.String]: the two halves in upper-case hexadecimal. *)
Definition LSN_String (l : LSN) : string :=
  let hi := u32 (Z.shiftr l 32) in
  let lo := u32 (Z.land l 0xFFFFFFFF) in
  FormatX hi +:+ "/" +:+ FormatX lo.

(** [ParseLSN] *)
Definition ParseLSN (s : string) : result LSN :=
  let invalid := errors_New "manifest: invalid LSN" in
  match Cut s "/" with
  | None => Fail invalid
  | Some (p0, p1) =>
      if String.eqb p0 "" || String.eqb p1 "" then Fail invalid
      else if Contains p1 "/" then Fail invalid
      else match Sscanf_hex 64 p0 with
           | None => Fail invalid
           | Some hi =>
               match Sscanf_hex 64 p1 with
               | None => Fail invalid
               | Some lo =>
                   if (0xFFFFFFFF <? hi) || (0xFFFFFFFF <? lo)
                   then Fail (errors_New "manifest: LSN component out of range")
                   else Ok (Z.lor (Z.shiftl hi 32) lo)
               end
           end
  end.

(** ** Halves of a 64-bit value *)

Lemma lsn_halves hi lo : is_u32 lo -> Z.lor (Z.shiftl hi 32) lo = hi * 2 ^ 32 + lo.
Proof.
  intros Hlo. unfold is_u32 in *. rewrite Z.shiftl_mul_pow2 by lia.
  rewrite <- Z.add_lor_land.
  assert (Z.land (hi * 2 ^ 32) lo = 0) as ->; [|lia].
  apply Z.bits_inj'. intros n Hn. rewrite Z.land_spec, Z.bits_0.
  destruct (Z.lt_ge_cases n 32).
  - rewrite Z.mul_pow2_bits_low by lia. done.
  - replace lo with (lo mod 2 ^ 32) by (apply Z.mod_small; lia).
    rewrite Z.mod_pow2_bits_high by lia. apply andb_false_r.
Qed.

Lemma lsn_hi l : is_u64 l -> u32 (Z.shiftr l 32) = l / 2 ^ 32 /\ is_u32 (l / 2 ^ 32).
Proof.
  intros Hl. unfold is_u64 in Hl. rewrite Z.shiftr_div_pow2 by lia.
  assert (H : is_u32 (l / 2 ^ 32)).
  { split; [apply Z.div_pos; lia|apply Z.div_lt_upper_bound; lia]. }
  by rewrite u32_id.
Qed.

Lemma lsn_lo l : u32 (Z.land l 0xFFFFFFFF) = l mod 2 ^ 32.
Proof.
  change 0xFFFFFFFF with (Z.ones 32). rewrite Z.land_ones by lia.
  unfold u32. by rewrite Z.mod_mod by lia.
Qed.

Lemma FormatX_hex n : sall is_hexdigit (FormatX n) = true.
Proof. apply hex_fixed_hex; auto. Qed.

Lemma hex_no_slash s : sall is_hexdigit s = true -> no_byte "/" s = true.
Proof.
  apply sall_impl. intros c Hc. apply negb_true_iff, Ascii.eqb_neq. by intros ->.
Qed.

Lemma Contains_no_byte s c : no_byte c s = true -> Contains s (String c "") = false.
Proof.
  unfold Contains, no_byte. induction s as [|d s IH]; simpl; [done|].
  rewrite andb_true_iff, negb_true_iff. intros [Hd Hs]. rewrite HasPrefix_cons.
  rewrite Ascii.eqb_sym, Hd. simpl. specialize (IH Hs). by destruct (Index s _).
Qed.

Lemma FormatX_scan n : is_u32 n -> Sscanf_hex 64 (FormatX n) = Some n.
Proof.
  unfold is_u32. intros Hn. apply Sscanf_hex_fixed; auto using hexlen_pos with lia.
  split; [lia|apply hexlen_bound; lia].
Qed.

Lemma FormatX_nonempty n : FormatX n <> "".
Proof. apply hex_fixed_nonempty, hexlen_pos. Qed.

(** parsing the canonical text of any 64-bit LSN gives that LSN back. *)
Theorem ParseLSN_String (l : LSN) : is_u64 l -> ParseLSN (LSN_String l) = Ok l.
Proof.
  intros Hl. unfold ParseLSN, LSN_String. destruct (lsn_hi l Hl) as [-> Hhi]. rewrite lsn_lo.
  assert (Hlo : is_u32 (l mod 2 ^ 32)) by (apply Z.mod_pos_bound; lia).
  change ("/" +:+ FormatX (l mod 2 ^ 32)) with (String "/" (FormatX (l mod 2 ^ 32))).
  rewrite Cut_app by auto using hex_no_slash, FormatX_hex.
  pose proof (FormatX_nonempty (l / 2 ^ 32)). pose proof (FormatX_nonempty (l mod 2 ^ 32)).
  destruct (String.eqb_spec (FormatX (l / 2 ^ 32)) ""), (String.eqb_spec (FormatX (l mod 2 ^ 32)) ""); try done.
  simpl orb. cbv iota. rewrite Contains_no_byte by auto using hex_no_slash, FormatX_hex.
  rewrite !FormatX_scan by done. unfold is_u32 in *.
  destruct (Z.ltb_spec 0xFFFFFFFF (l / 2 ^ 32)), (Z.ltb_spec 0xFFFFFFFF (l mod 2 ^ 32)); try lia.
  simpl. rewrite lsn_halves by done. pose proof (Z.div_mod l (2 ^ 32)). f_equal; lia.
Qed.

Lemma ParseLSN_String_witness : is_u64 0x16B374D848 /\ ParseLSN (LSN_String 0x16B374D848) = Ok 0x16B374D848.
Proof. split; [unfold is_u64; lia|]. apply (ParseLSN_String 0x16B374D848). unfold is_u64; lia. Defined.

Lemma hex_acc_nonneg a s : 0 <= a -> 0 <= hex_acc a s.
Proof.
  revert a. induction s as [|c s IH]; intros a Ha; simpl; [done|].
  destruct (hexval c) as [d|] eqn:E; [|done]. apply IH. unfold hexval in E.
  repeat case_match; simplify_eq; rewrite ?andb_true_iff in *; lia.
Qed.

Lemma Sscanf_hex_range bits s v : Sscanf_hex bits s = Some v -> 0 <= v < 2 ^ bits.
Proof.
  unfold Sscanf_hex. destruct (skip_blanks s) as [|c s']; [done|]. destruct (is_hexdigit c); [|done].
  destruct (Z.ltb_spec (hex_acc 0 (String c s')) (2 ^ bits)); [|done]. intros [= <-].
  split; [by apply (hex_acc_nonneg 0 (String c s'))|done].
Qed.

Lemma ParseLSN_is_u64 s l : ParseLSN s = Ok l -> is_u64 l.
Proof.
  unfold ParseLSN. destruct (Cut s "/") as [[p0 p1]|]; [|done].
  destruct (_ || _); [done|]. destruct (Contains p1 "/"); [done|].
  destruct (Sscanf_hex 64 p0) as [hi|] eqn:Ehi; [|done].
  destruct (Sscanf_hex 64 p1) as [lo|] eqn:Elo; [|done].
  destruct (Z.ltb_spec 0xFFFFFFFF hi); [done|]. destruct (Z.ltb_spec 0xFFFFFFFF lo); [done|].
  intros [= <-]. apply Sscanf_hex_range in Ehi, Elo.
  rewrite lsn_halves by (unfold is_u32; lia). unfold is_u64. lia.
Qed.

(** Whatever text is parsed, an accepted LSN is the 64-bit value of two 32-bit halves. *)
Theorem ParseLSN_range (s : string) (l : LSN) :
  ParseLSN s = Ok l ->
  is_u64 l /\ exists p0 p1, s = p0 +:+ "/" +:+ p1 /\
    Sscanf_hex 64 p0 = Some (l / 2 ^ 32) /\ Sscanf_hex 64 p1 = Some (l mod 2 ^ 32).
Proof.
  unfold ParseLSN. destruct (Cut s "/") as [[p0 p1]|] eqn:Ecut; [|done].
  destruct (_ || _); [done|]. destruct (Contains p1 "/"); [done|].
  destruct (Sscanf_hex 64 p0) as [hi|] eqn:Ehi; [|done].
  destruct (Sscanf_hex 64 p1) as [lo|] eqn:Elo; [|done].
  destruct (Z.ltb_spec 0xFFFFFFFF hi); [done|]. destruct (Z.ltb_spec 0xFFFFFFFF lo); [done|].
  intros [= <-]. apply Sscanf_hex_range in Ehi as Hhi, Elo as Hlo.
  assert (is_u32 lo) by (unfold is_u32; lia). rewrite lsn_halves by done.
  assert (Hd : (hi * 2 ^ 32 + lo) / 2 ^ 32 = hi).
  { rewrite Z.div_add_l, Z.div_small by (unfold is_u32 in *; lia). lia. }
  assert (Hm : (hi * 2 ^ 32 + lo) mod 2 ^ 32 = lo).
  { rewrite Z.add_comm, Z.mod_add, Z.mod_small by (unfold is_u32 in *; lia). done. }
  split; [unfold is_u64, is_u32 in *; lia|]. exists p0, p1. rewrite Hd, Hm.
  apply Cut_Some in Ecut as [-> _]. done.
Qed.

Lemma ParseLSN_range_witness :
  ParseLSN "1/0A" = Ok 0x10000000A /\
  (is_u64 0x10000000A /\ exists p0 p1, "1/0A" = p0 +:+ "/" +:+ p1 /\
    Sscanf_hex 64 p0 = Some (0x10000000A / 2 ^ 32) /\ Sscanf_hex 64 p1 = Some (0x10000000A mod 2 ^ 32)).
Proof.
  assert (H : ParseLSN "1/0A" = Ok 0x10000000A) by (vm_compute; reflexivity).
  split; [exact H|]. apply (ParseLSN_range "1/0A"). exact H.
Defined.
