(* ===== verification/Wal.v ===== *)
(** * WAL segment arithmetic

    Segment names and the bracket of a backup ([internal/backup/wallag.go]), and
    the cutoff name retention prunes against ([internal/retention/prune.go]). *)

From S2P Require Import Prelude Lsn.

(** [segmentsPerXLogID]; the division panics when [segmentBytes] is zero, and its
    callers rule that out. *)
Definition segmentsPerXLogID (segmentBytes : Z) : Z := 0x100000000 / segmentBytes.

(** [fmt.Sprintf("%08X%08X%08X", tli, major, minor)] *)
Definition XLogFileName (tli major minor : Z) : string :=
  Format0X 8 tli +:+ Format0X 8 major +:+ Format0X 8 minor.

(** [WALSegmentName] *)
Definition WALSegmentName (timeline : Z) (lsn : LSN) (segmentBytes : Z) : string :=
  if segmentBytes <=? 0 then ""
  else
    let segsPerID := segmentsPerXLogID segmentBytes in
    let segNo := lsn / segmentBytes in
    let major := u32 (segNo / segsPerID) in
    let minor := u32 (segNo mod segsPerID) in
    XLogFileName timeline major minor.

(** [for n := first; n <= last; n++] with the count of its iterations. *)
Fixpoint walSegments_go (fuel : nat) (timeline segsPerID n last : Z) : list string :=
  match fuel with
  | O => []
  | S fuel' =>
      if n <=? last then
        let major := u32 (n / segsPerID) in
        let minor := u32 (n mod segsPerID) in
        XLogFileName timeline major minor
          :: walSegments_go fuel' timeline segsPerID (u64 (n + 1)) last
      else []
  end.

(** [WALSegmentsBetween] *)
Definition WALSegmentsBetween (timeline : Z) (start stop : LSN) (segmentBytes : Z) : list string :=
  if (segmentBytes <=? 0) || (stop <? start) then []
  else
    let segsPerID := segmentsPerXLogID segmentBytes in
    let first := start / segmentBytes in
    let last := stop / segmentBytes in
    let last :=
      if (stop mod segmentBytes =? 0) && (start <? stop) && (0 <? last)
      then last - 1 else last in
    walSegments_go (Z.to_nat (last - first + 1)) timeline segsPerID first last.

(** [retention.DefaultWALSegmentSize] *)
Definition DefaultWALSegmentSize : Z := 16 * 1024 * 1024.

(** [retention.walSegmentNameForTimeline] *)
Definition walSegmentNameForTimeline (tli : Z) (lsn : LSN) : string :=
  let segNo := lsn / DefaultWALSegmentSize in
  let hi := u32 (Z.shiftr segNo 32) in
  let lo := u32 (Z.land segNo 0xFFFFFFFF) in
  XLogFileName tli hi lo.

(** The segment sizes PostgreSQL accepts divide 4 GiB and exceed one byte. *)
Definition seg_size_ok (s : Z) : Prop := 1 < s <= 2 ^ 32 /\ (s | 2 ^ 32).

(** ** Names compare as segment numbers *)

Lemma slen_XLogFileName a b c :
  is_u32 a -> is_u32 b -> is_u32 c -> slen (XLogFileName a b c) = 24%nat.
Proof.
  unfold is_u32. intros Ha Hb Hc. unfold XLogFileName.
  rewrite !Format0X_fixed by lia. by rewrite !slen_app, !slen_hex_fixed.
Qed.

Lemma compare_XLogFileName t a b c d :
  is_u32 t -> is_u32 a -> is_u32 b -> is_u32 c -> is_u32 d ->
  String.compare (XLogFileName t a b) (XLogFileName t c d) =
  match a ?= c with Eq => b ?= d | o => o end.
Proof.
  unfold is_u32. intros Ht Ha Hb Hc Hd. unfold XLogFileName.
  rewrite !Format0X_fixed by lia.
  rewrite compare_app by by rewrite !slen_hex_fixed.
  rewrite compare_refl, compare_app by by rewrite !slen_hex_fixed.
  by rewrite !compare_hex_fixed by lia.
Qed.

Section segments.
Context (s : Z) (Hs : seg_size_ok s).

Lemma segs_pos : 1 <= segmentsPerXLogID s < 2 ^ 32 /\ segmentsPerXLogID s * s = 2 ^ 32.
Proof.
  destruct Hs as [Hr [k Hk]]. unfold segmentsPerXLogID. change 0x100000000 with (2 ^ 32).
  rewrite Hk, Z.div_mul by lia. nia.
Qed.

Lemma major_minor n :
  0 <= n -> n * s < 2 ^ 64 ->
  is_u32 (n / segmentsPerXLogID s) /\ is_u32 (n mod segmentsPerXLogID s).
Proof.
  destruct segs_pos as [Hp Hm]. intros Hn Hb. unfold is_u32. split.
  - split; [apply Z.div_pos; lia|]. apply Z.div_lt_upper_bound; [lia|]. nia.
  - pose proof (Z.mod_pos_bound n (segmentsPerXLogID s)). lia.
Qed.

Lemma compare_segment_names t n m :
  is_u32 t -> 0 <= n -> n * s < 2 ^ 64 -> 0 <= m -> m * s < 2 ^ 64 ->
  String.compare
    (XLogFileName t (n / segmentsPerXLogID s) (n mod segmentsPerXLogID s))
    (XLogFileName t (m / segmentsPerXLogID s) (m mod segmentsPerXLogID s)) = (n ?= m).
Proof.
  intros Ht Hn Hnb Hm Hmb. destruct (major_minor n), (major_minor m); try done.
  rewrite compare_XLogFileName by done. destruct segs_pos as [Hp _].
  pose proof (Z.div_mod n (segmentsPerXLogID s)). pose proof (Z.div_mod m (segmentsPerXLogID s)).
  pose proof (Z.mod_pos_bound n (segmentsPerXLogID s)).
  pose proof (Z.mod_pos_bound m (segmentsPerXLogID s)).
  destruct (Z.compare_spec (n / segmentsPerXLogID s) (m / segmentsPerXLogID s));
    [destruct (Z.compare_spec (n mod segmentsPerXLogID s) (m mod segmentsPerXLogID s))|..];
    destruct (Z.compare_spec n m); try done; nia.
Qed.

Lemma WALSegmentName_eq t lsn :
  is_u64 lsn ->
  WALSegmentName t lsn s =
  XLogFileName t (lsn / s / segmentsPerXLogID s) ((lsn / s) mod segmentsPerXLogID s)
  /\ 0 <= lsn / s /\ lsn / s * s < 2 ^ 64.
Proof.
  intros Hl. assert (Hb : 0 <= lsn / s /\ lsn / s * s < 2 ^ 64).
  { unfold is_u64, seg_size_ok in *. split; [apply Z.div_pos; lia|].
    pose proof (Z.div_mod lsn s). pose proof (Z.mod_pos_bound lsn s). nia. }
  split; [|done]. unfold WALSegmentName.
  destruct (Z.leb_spec s 0); [unfold seg_size_ok in Hs; lia|].
  destruct (major_minor (lsn / s)); [lia..|]. by rewrite !u32_id.
Qed.
End segments.

(** On one timeline the byte order of segment names is the order of segment
    numbers, so the string comparisons retention and PostgreSQL make are chronological. *)
Theorem WALSegmentName_order (s t : Z) (a b : LSN) :
  seg_size_ok s -> is_u32 t -> is_u64 a -> is_u64 b ->
  String.compare (WALSegmentName t a s) (WALSegmentName t b s) = (a / s ?= b / s).
Proof.
  intros Hs Ht Ha Hb.
  destruct (WALSegmentName_eq s Hs t a Ha) as (-> & ? & ?).
  destruct (WALSegmentName_eq s Hs t b Hb) as (-> & ? & ?).
  by apply compare_segment_names.
Qed.

Lemma seg_size_16M : seg_size_ok DefaultWALSegmentSize.
Proof. split; [unfold DefaultWALSegmentSize; lia|]. by exists 256. Qed.

Lemma WALSegmentName_order_witness :
  String.compare (WALSegmentName 1 0x1FF000000 DefaultWALSegmentSize)
                 (WALSegmentName 1 0x200000000 DefaultWALSegmentSize) = Lt.
Proof.
  rewrite (WALSegmentName_order DefaultWALSegmentSize 1 0x1FF000000 0x200000000);
    [vm_compute; reflexivity | apply seg_size_16M | unfold is_u32; lia | unfold is_u64; lia | unfold is_u64; lia].
Defined.

Lemma elem_of_walSegments_go fuel t k n last x :
  0 <= n -> last < 2 ^ 64 - 1 -> last - n < Z.of_nat fuel ->
  x ∈ walSegments_go fuel t k n last <->
  exists m, n <= m <= last /\ x = XLogFileName t (u32 (m / k)) (u32 (m mod k)).
Proof.
  revert n. induction fuel as [|fuel IH]; intros n Hn Hl Hf; simpl.
  - split; [by intros ?%elem_of_nil|]. intros (m & ? & _). lia.
  - destruct (Z.leb_spec n last).
    + rewrite u64_id by (unfold is_u64; lia). rewrite elem_of_cons, IH by lia. split.
      * intros [-> | (m & ? & ->)]; eexists; (split; [|done]); lia.
      * intros (m & ? & ->). destruct (decide (m = n)) as [->|]; [by left|].
        right. exists m. split; [lia|done].
    + split; [by intros ?%elem_of_nil|]. intros (m & ? & _). lia.
Qed.

(** The segment of [stop - 1], or of [start] when the bracket is empty. *)
Lemma bracket_last s start stop :
  1 < s -> 0 <= start <= stop ->
  (if (stop mod s =? 0) && (start <? stop) && (0 <? stop / s) then stop / s - 1 else stop / s) =
  (if start <? stop then (stop - 1) / s else start / s).
Proof.
  intros Hs Hb. pose proof (Z.div_mod stop s). pose proof (Z.mod_pos_bound stop s).
  destruct (Z.ltb_spec start stop); rewrite ?andb_true_r, ?andb_false_r.
  - destruct (Z.eqb_spec (stop mod s) 0); simpl.
    + assert (0 < stop / s) by nia. destruct (Z.ltb_spec 0 (stop / s)); [|lia].
      apply (Z.div_unique_pos _ _ _ (s - 1)); lia.
    + apply (Z.div_unique_pos _ _ _ (stop mod s - 1)); lia.
  - simpl. f_equal. lia.
Qed.

Lemma div_between a b c s : 0 < s -> a <= b <= c -> a / s <= b / s <= c / s.
Proof. intros Hs Hb. split; apply Z.div_le_mono; lia. Qed.

Lemma elem_of_WALSegmentsBetween (s t : Z) (start stop : LSN) (name : string) :
  seg_size_ok s -> is_u64 start -> is_u64 stop -> start <= stop ->
  name ∈ WALSegmentsBetween t start stop s <->
  exists lsn, start <= lsn /\ (lsn < stop \/ lsn = start) /\ name = WALSegmentName t lsn s.
Proof.
  intros Hs Hstart Hstop Hle. unfold is_u64 in *.
  destruct (segs_pos s Hs) as [Hk _]. assert (Hs1 : 1 < s) by (unfold seg_size_ok in Hs; lia).
  unfold WALSegmentsBetween.
  destruct (Z.leb_spec s 0); [lia|]. destruct (Z.ltb_spec stop start); [lia|]. simpl.
  rewrite bracket_last by lia.
  set (last := if start <? stop then (stop - 1) / s else start / s).
  assert (Hlast : start / s <= last /\ last < 2 ^ 64 - 1).
  { unfold last. destruct (Z.ltb_spec start stop).
    - split; [apply Z.div_le_mono; lia|]. apply Z.div_lt_upper_bound; nia.
    - split; [lia|]. apply Z.div_lt_upper_bound; nia. }
  rewrite elem_of_walSegments_go by (try apply Z.div_pos; lia). split.
  - intros (m & Hm & ->). exists (Z.max start (m * s)).
    assert (Hdiv : Z.max start (m * s) / s = m).
    { destruct (Z.max_spec start (m * s)) as [[? ->]|[? ->]]; [by rewrite Z.div_mul by lia|].
      assert (m <= start / s) by (apply Z.div_le_lower_bound; lia). lia. }
    split_and!; [lia| |unfold WALSegmentName; rewrite Hdiv; by destruct (Z.leb_spec s 0); [lia|]].
    unfold last in Hm. destruct (Z.ltb_spec start stop).
    + left. assert (m * s <= stop - 1); [|lia].
      pose proof (Z.mul_div_le (stop - 1) s). nia.
    + right. pose proof (Z.mul_div_le start s). nia.
  - intros (lsn & Hge & Hlt & ->). exists (lsn / s). split.
    + unfold last. destruct (Z.ltb_spec start stop).
      * apply div_between; lia.
      * replace lsn with start by lia. lia.
    + unfold WALSegmentName. by destruct (Z.leb_spec s 0); [lia|].
Qed.

(** Every segment is named once. *)
Lemma walSegments_go_NoDup s fuel t n last : seg_size_ok s -> is_u32 t -> 0 <= n -> last * s < 2 ^ 64 -> last - n < Z.of_nat fuel ->
  NoDup (walSegments_go fuel t (segmentsPerXLogID s) n last).
Proof.
  intros Hs Ht. assert (Hs1 : 1 < s) by (unfold seg_size_ok in Hs; lia). revert n. induction fuel as [|fuel IH]; intros n Hn Hl Hf; cbn [walSegments_go]; [constructor|].
  destruct (Z.leb_spec n last); [|constructor]. assert (Hmax : last < 2 ^ 64 - 1) by nia. rewrite u64_id by (unfold is_u64; lia).
  constructor; [|apply IH; lia]. intros (m & Hm & E)%elem_of_walSegments_go; [|lia..].
  destruct (major_minor s Hs n) as [Ha Hb]; [lia|nia|]. destruct (major_minor s Hs m) as [Hc Hd]; [lia|nia|]. rewrite !u32_id in E by done.
  pose proof (compare_segment_names s Hs t n m Ht Hn ltac:(nia) ltac:(lia) ltac:(nia)) as Hcmp. rewrite E, compare_refl in Hcmp.
  symmetry in Hcmp. apply Z.compare_eq in Hcmp. lia.
Qed.

Lemma WALSegmentsBetween_NoDup s t (start stop : LSN) : seg_size_ok s -> is_u32 t -> is_u64 start -> is_u64 stop ->
  NoDup (WALSegmentsBetween t start stop s).
Proof.
  intros Hs Ht Ha Hb. assert (Hs1 : 1 < s) by (unfold seg_size_ok in Hs; lia). unfold WALSegmentsBetween, is_u64 in *.
  destruct (Z.leb_spec s 0); [constructor|]. destruct (Z.ltb_spec stop start); [constructor|]. cbn [orb]. rewrite bracket_last by lia.
  assert (H1 : 0 <= start / s) by (apply Z.div_pos; lia).
  assert (H2 : (if start <? stop then (stop - 1) / s else start / s) * s < 2 ^ 64).
  { destruct (Z.ltb_spec start stop); [pose proof (Z.mul_div_le (stop - 1) s)|pose proof (Z.mul_div_le start s)]; nia. }
  set (last := if start <? stop then _ else _) in *. apply walSegments_go_NoDup; try done. lia.
Qed.

(** The WAL a backup waits for is exactly the segments holding a position of
    the bracket [start, stop): none is missing and none is superfluous, the stop
    position on a segment boundary included. *)
Theorem WALSegmentsBetween_exact (s t : Z) (start stop : LSN) (name : string) :
  seg_size_ok s -> is_u64 start -> is_u64 stop -> start <= stop ->
  name ∈ WALSegmentsBetween t start stop s <->
  exists lsn, start <= lsn /\ (lsn < stop \/ lsn = start) /\ name = WALSegmentName t lsn s.
Proof. apply elem_of_WALSegmentsBetween. Qed.

Lemma WALSegmentsBetween_exact_witness :
  "000000010000000100000000" ∈ WALSegmentsBetween 1 0xFF000028 0x101000000 DefaultWALSegmentSize.
Proof.
  apply (WALSegmentsBetween_exact DefaultWALSegmentSize 1 0xFF000028 0x101000000);
    [apply seg_size_16M | unfold is_u64; lia | unfold is_u64; lia | lia |].
  exists 0x100000000. split; [lia|]. split; [left; lia|]. vm_compute. reflexivity.
Defined.

(** The cutoff name of retention never exceeds the name of the segment holding the LSN. *)
Lemma walSegmentNameForTimeline_le t lsn :
  is_u32 t -> is_u64 lsn ->
  String.compare (walSegmentNameForTimeline t lsn) (WALSegmentName t lsn DefaultWALSegmentSize) <> Gt.
Proof.
  intros Ht Hl. destruct (WALSegmentName_eq _ seg_size_16M t lsn Hl) as (-> & Hn & Hb).
  unfold walSegmentNameForTimeline.
  set (n := lsn / DefaultWALSegmentSize) in *.
  destruct (major_minor _ seg_size_16M n); [lia..|].
  assert (Hn64 : is_u64 n) by (unfold is_u64; unfold DefaultWALSegmentSize in Hb; lia).
  destruct (lsn_hi n Hn64) as [-> Hhi]. rewrite lsn_lo.
  assert (Hlo : is_u32 (n mod 2 ^ 32)) by (apply Z.mod_pos_bound; lia).
  rewrite compare_XLogFileName by done.
  change (segmentsPerXLogID DefaultWALSegmentSize) with 256 in *.
  pose proof (Z.div_mod n 256). pose proof (Z.div_mod n (2 ^ 32)).
  pose proof (Z.mod_pos_bound n 256). pose proof (Z.mod_pos_bound n (2 ^ 32)).
  destruct (Z.compare_spec (n / 2 ^ 32) (n / 256)); [|done|lia].
  destruct (Z.compare_spec (n mod 2 ^ 32) (n mod 256)); [done..|lia].
Qed.

(** Below 4 GiB of WAL the cutoff is exact; beyond, it is the name of an older segment. *)
Lemma walSegmentNameForTimeline_exact t lsn :
  is_u32 t -> 0 <= lsn < 2 ^ 32 ->
  walSegmentNameForTimeline t lsn = WALSegmentName t lsn DefaultWALSegmentSize.
Proof.
  intros Ht Hl. assert (Hl64 : is_u64 lsn) by (unfold is_u64; lia).
  destruct (WALSegmentName_eq _ seg_size_16M t lsn Hl64) as (-> & Hn & Hb).
  unfold walSegmentNameForTimeline. set (n := lsn / DefaultWALSegmentSize) in *.
  assert (n < 256) by (apply Z.div_lt_upper_bound; unfold DefaultWALSegmentSize; lia).
  assert (Hn64 : is_u64 n) by (unfold is_u64; lia).
  destruct (lsn_hi n Hn64) as [-> _]. rewrite lsn_lo.
  change (segmentsPerXLogID DefaultWALSegmentSize) with 256.
  by rewrite !Z.div_small, !Z.mod_small by lia.
Qed.

(** Past 4 GiB the cutoff of retention is not the name of the segment that
    holds the LSN: the segment number is split at 32 bits where PostgreSQL splits
    it at 256 segments, so WAL that no kept backup needs is retained. *)
Theorem walSegmentNameForTimeline_lags :
  walSegmentNameForTimeline 1 0x200000000 = "000000010000000000000200" /\
  WALSegmentName 1 0x200000000 DefaultWALSegmentSize = "000000010000000200000000" /\
  String.compare (WALSegmentName 1 0x1FF000000 DefaultWALSegmentSize)
    (walSegmentNameForTimeline 1 0x200000000) = Gt.
Proof. vm_compute. done. Qed.
