(* ===== verification/Storage.v ===== *)
(** * The storage interface

    [storage.Backend] ([internal/storage/storage.go]) as a class of operations, the
    contract its comments state as a class of laws, and an in-memory instance with
    injected failures on which the theorems of the clients are run. *)

From S2P Require Import Prelude.

(** [storage.FileInfo] *)
Record FileInfo := { fi_Path : string; fi_Size : Z; fi_ModTime : Z }.

(** [storage.Backend] over worlds of type [W]. A writer is a handle into the world;
    [be_Get] stands for [Get] followed by reading its stream to the end. *)
Class Backend (W : Type) := {
  be_Writer : Type;
  be_Put : string -> M W be_Writer;
  be_Write : be_Writer -> string -> M W unit;
  be_Close : be_Writer -> M W unit;
  be_Commit : string -> string -> M W unit;
  be_Get : string -> M W string;
  be_Stat : string -> M W FileInfo;
  be_List : string -> M W (list FileInfo);
  be_Delete : string -> M W unit;
}.

(** Name of the temporary files a driver may keep beside a file being written. *)
Definition tmp_marker : string := ".pgsafe-tmp".

(** The keys callers use: local slash-separated paths that are not driver temporaries. *)
Definition valid_key (p : string) : bool := plain_path p && negb (Contains p tmp_marker).

Lemma valid_key_plain p : valid_key p = true -> plain_path p = true.
Proof. unfold valid_key. by intros [? _]%andb_true_iff. Qed.

(** What a copy on the storage can name: object stores decode the name of the source as a URL. *)
Definition copyable (p : string) : bool := no_byte "%" p && no_byte "+" p.

Lemma copyable_app a b : copyable (a +:+ b) = copyable a && copyable b.
Proof.
  unfold copyable. rewrite !no_byte_app. by destruct (no_byte "%" a), (no_byte "%" b), (no_byte "+" a), (no_byte "+" b).
Qed.

(** What [List(prefix)] may return, and what it has to. A prefix is a directory, and the drivers
    differ on a file of that name and on prefixes that are not plain. A walk from the root may leave
    out [wal/], which callers list on its own. *)
Definition inside (prefix p : string) : bool :=
  String.eqb prefix "" || String.eqb p prefix || HasPrefix p (prefix +:+ "/").

Definition listed_in (prefix p : string) : Prop := plain_path prefix = true -> inside prefix p = true.

Definition under (prefix p : string) : bool :=
  if String.eqb prefix "" then negb (HasPrefix p "wal/" || String.eqb p "wal")
  else HasPrefix p (prefix +:+ "/").

(** The contract. [view] is the set of files a reader sees; [pending] is the key
    and the bytes of a writer that is still open. *)
Class BackendLaws (W : Type) `{Backend W} := {
  view : W -> gmap string string;
  pending : W -> be_Writer -> option (string * string);

  put_spec p w : valid_key p = true ->
    view (snd (be_Put p w)) = view w /\
    forall h w', be_Put p w = (Ok h, w') -> pending w' h = Some (p, "");
  write_spec h b w p c : pending w h = Some (p, c) ->
    view (snd (be_Write h b w)) = view w /\
    exists c', pending (snd (be_Write h b w)) h = Some (p, c') /\
    forall w', be_Write h b w = (Ok tt, w') -> c' = c +:+ b;
  close_spec h w p c : pending w h = Some (p, c) ->
    (forall q, q <> p -> view (snd (be_Close h w)) !! q = view w !! q) /\
    forall w', be_Close h w = (Ok tt, w') -> view w' = <[p := c]> (view w);

  commit_spec tmp final w : valid_key tmp = true -> valid_key final = true -> copyable tmp = true -> tmp <> final ->
    is_Some (view w !! tmp) ->
    (forall q, q <> tmp -> q <> final -> view (snd (be_Commit tmp final w)) !! q = view w !! q) /\
    (forall w', be_Commit tmp final w = (Ok tt, w') ->
       view w !! final = None /\
       exists c, view w !! tmp = Some c /\ view w' = <[final := c]> (delete tmp (view w))) /\
    (forall e w', be_Commit tmp final w = (Fail e, w') ->
       (view w' !! final = view w !! final /\ view w' !! tmp = view w !! tmp) \/
       (view w !! final = None /\ view w' !! final = view w !! tmp)) /\
    (forall e w', be_Commit tmp final w = (Fail e, w') ->
       errors_Is e OsErrExist = true -> view w' = view w);

  get_spec p w : valid_key p = true ->
    view (snd (be_Get p w)) = view w /\
    (forall c w', be_Get p w = (Ok c, w') -> view w !! p = Some c) /\
    (forall e w', be_Get p w = (Fail e, w') -> errors_Is e OsErrNotExist = true -> view w !! p = None);
  stat_spec p w : valid_key p = true ->
    view (snd (be_Stat p w)) = view w /\
    (forall fi w', be_Stat p w = (Ok fi, w') ->
       fi_Path fi = p /\ forall c, view w !! p = Some c -> fi_Size fi = Z.of_nat (slen c)) /\
    (forall e w', be_Stat p w = (Fail e, w') -> errors_Is e OsErrNotExist = true -> view w !! p = None);
  list_spec prefix w :
    view (snd (be_List prefix w)) = view w /\
    forall l w', be_List prefix w = (Ok l, w') ->
      NoDup (fi_Path <$> l) /\
      forall fi, fi ∈ l -> valid_key (fi_Path fi) = true /\
        exists c, view w !! fi_Path fi = Some c /\ listed_in prefix (fi_Path fi) /\
                  fi_Size fi = Z.of_nat (slen c);
  list_complete prefix w l w' p :
    be_List prefix w = (Ok l, w') -> is_Some (view w !! p) -> valid_key p = true -> under prefix p = true ->
    p ∈ (fi_Path <$> l);
  list_absent prefix w e w' p :
    be_List prefix w = (Fail e, w') -> errors_Is e OsErrNotExist = true ->
    under prefix p = true -> view w !! p = None;
  delete_spec p w : valid_key p = true ->
    (forall q, q <> p -> view (snd (be_Delete p w)) !! q = view w !! q) /\
    (forall w', be_Delete p w = (Ok tt, w') -> view w' = delete p (view w)) /\
    (forall e w', be_Delete p w = (Fail e, w') -> view w' = view w \/ view w' = delete p (view w)) /\
    (forall e w', be_Delete p w = (Fail e, w') -> errors_Is e OsErrNotExist = true -> view w !! p = None);
}.

(** A storage without directories: where [Stat] finds something, or [Commit] something in its way, there
    is a file. On a file system it may also be a directory. *)
Class FlatLaws (W : Type) `{BackendLaws W} : Prop := {
  stat_file p w fi w' : valid_key p = true -> be_Stat p w = (Ok fi, w') -> is_Some (view w !! p);
  commit_file tmp final w e w' : valid_key tmp = true -> valid_key final = true -> copyable tmp = true -> tmp <> final ->
    be_Commit tmp final w = (Fail e, w') -> errors_Is e OsErrExist = true -> is_Some (view w !! final);
}.

(** ** Frames: what a command may change *)

(** The two worlds show the same files outside the keys of [K]. *)
Definition same_outside `{BackendLaws W} (K : string -> Prop) : relation W :=
  fun w w' => forall q, ~ K q -> view w' !! q = view w !! q.

Definition same_view `{BackendLaws W} : relation W := fun w w' => view w' = view w.

#[export] Instance same_outside_preorder `{BackendLaws W} K : PreOrder (same_outside K).
Proof.
  split; [by intros w q|]. intros w1 w2 w3 H12 H23 q Hq. rewrite H23, H12; done.
Qed.

#[export] Instance same_view_preorder `{BackendLaws W} : PreOrder same_view.
Proof. unfold same_view. split; [by intros w|]. intros w1 w2 w3 H12 H23. by rewrite H23. Qed.

Section frames.
Context `{BackendLaws W}.

Lemma same_view_outside K w w' : same_view w w' -> same_outside K w w'.
Proof. intros Hv q _. by rewrite Hv. Qed.

Lemma same_outside_mono (K K' : string -> Prop) w w' :
  (forall q, K q -> K' q) -> same_outside K w w' -> same_outside K' w w'.
Proof. intros HK Hw q Hq. apply Hw. naive_solver. Qed.

Lemma preserves_view_outside K {A} (m : M W A) : preserves same_view m -> preserves (same_outside K) m.
Proof. intros Hm w. apply same_view_outside, Hm. Qed.

Lemma get_view p : valid_key p = true -> preserves same_view (be_Get p).
Proof. intros Hp w. by apply get_spec. Qed.

Lemma stat_view p : valid_key p = true -> preserves same_view (be_Stat p).
Proof. intros Hp w. by apply stat_spec. Qed.

Lemma list_view p : preserves same_view (be_List p).
Proof. intros w. apply list_spec. Qed.

Lemma put_view p : valid_key p = true -> preserves same_view (be_Put p).
Proof. intros Hp w. by apply put_spec. Qed.

Lemma delete_outside p : valid_key p = true -> preserves (same_outside (fun q => q = p)) (be_Delete p).
Proof. intros Hp w q Hq. by apply delete_spec. Qed.

Lemma commit_outside t f w : valid_key t = true -> valid_key f = true -> copyable t = true -> t <> f -> is_Some (view w !! t) ->
  same_outside (fun q => q = t \/ q = f) w (snd (be_Commit t f w)).
Proof. intros Ht Hf Hc Hne Hs q Hq. apply (commit_spec t f w); tauto. Qed.
End frames.

#[export] Hint Resolve get_view stat_view list_view put_view delete_outside
  preserves_view_outside : go.

(** ** Writing a whole file: [writeStorageFileAtomic] of [internal/backup/backup.go] *)

Definition writeStorageFileAtomic `{Backend W} (relPath data : string) : M W unit :=
  wc <- be_Put relPath ;;
  r <- try (be_Write wc data) ;;
  match r with
  | Fail e => try (be_Close wc) ;;; throw e
  | Ok _ => be_Close wc
  end.

(** [io.Copy] from a source that gives these buffers and ends with this error, if it is not the end of the file. *)
Definition copy_reads `{Backend W} (wc : be_Writer) (reads : list string * option error) : M W unit :=
  forM (fst reads) tt (fun _ p => be_Write wc p) ;;;
  match snd reads with Some err => throw err | None => ret tt end.

Section write_file.
Context `{BackendLaws W}.

Lemma copy_reads_spec h reads w p c : pending w h = Some (p, c) ->
  view (snd (copy_reads h reads w)) = view w /\
  exists c', pending (snd (copy_reads h reads w)) h = Some (p, c') /\
  forall w', copy_reads h reads w = (Ok tt, w') -> snd reads = None /\ c' = c +:+ Join (fst reads) "".
Proof.
  destruct reads as [chunks err]. unfold copy_reads, bind. cbn [fst snd]. revert w c.
  induction chunks as [|x chunks IH]; intros w c Hp; cbn [forM].
  - destruct err; cbn; (split; [done|]); exists c; (split; [done|]); [done|]. intros w' _. by rewrite sapp_nil_r.
  - unfold bind. destruct (write_spec h x w p c Hp) as [Hv (c1 & Hp1 & Hok)]. destruct (be_Write h x w) as [[[]|e] w1]; cbn [snd] in *; [|split; [done|]; exists c1; by split].
    destruct (IH w1 c1 Hp1) as [Hv2 (c2 & Hp2 & Hok2)]. split; [by rewrite Hv2|]. exists c2. split; [done|]. intros w' Hw'.
    destruct (Hok2 w' Hw') as [-> ->]. by rewrite (Hok w1 eq_refl), Join_cons, sapp_assoc.
Qed.

Lemma writeStorageFileAtomic_outside p d :
  valid_key p = true -> preserves (same_outside (fun q => q = p)) (writeStorageFileAtomic p d).
Proof.
  intros Hp w q Hq. unfold writeStorageFileAtomic, bind, try, throw.
  destruct (put_spec p w Hp) as [Hv Hpend].
  destruct (be_Put p w) as [[h|e] w1] eqn:E1; simpl in *; [|by rewrite Hv].
  specialize (Hpend h w1 eq_refl). destruct (write_spec h d w1 p "" Hpend) as [Hv2 (c' & Hp2 & _)].
  destruct (be_Write h d w1) as [r w2] eqn:E2; simpl in *.
  destruct (close_spec h w2 p c' Hp2) as [Hc _].
  destruct r as [[]|e]; [by rewrite Hc, Hv2, Hv|].
  destruct (be_Close h w2) as [r3 w3] eqn:E3; simpl in *. by rewrite Hc, Hv2, Hv.
Qed.

Lemma writeStorageFileAtomic_Ok p d w w' :
  valid_key p = true -> writeStorageFileAtomic p d w = (Ok tt, w') ->
  view w' = <[p := d]> (view w).
Proof.
  intros Hp. unfold writeStorageFileAtomic, bind, try, throw.
  destruct (put_spec p w Hp) as [Hv Hpend].
  destruct (be_Put p w) as [[h|e] w1] eqn:E1; simpl in *; [|done].
  specialize (Hpend h w1 eq_refl). destruct (write_spec h d w1 p "" Hpend) as [Hv2 (c' & Hp2 & Hok)].
  destruct (be_Write h d w1) as [[[]|e] w2] eqn:E2; simpl in *.
  - intros Hc. rewrite (Hok w2 eq_refl) in Hp2. simpl in Hp2.
    destruct (close_spec h w2 p d Hp2) as [_ Hcl]. by rewrite (Hcl w' Hc), Hv2, Hv.
  - by destruct (be_Close h w2).
Qed.
End write_file.

(** ** The in-memory instance

    The world is the map of files, the open writers, and a script of failures:
    the n-th call fails when the n-th entry is [true]. *)

Record mem := Mem {
  mem_files : gmap string string;
  mem_writers : gmap nat (string * string);
  mem_next : nat;
  mem_script : list bool;
}.

Definition mem_init (files : gmap string string) (script : list bool) : mem :=
  Mem files ∅ 0 script.

Definition mem_fault : error := errors_New "injected failure".

(** Runs an operation, or fails when the script says so. *)
Definition mem_op {A} (f : mem -> result A * mem) : M mem A := fun w =>
  match mem_script w with
  | true :: t => (Fail mem_fault, Mem (mem_files w) (mem_writers w) (mem_next w) t)
  | _ :: t => f (Mem (mem_files w) (mem_writers w) (mem_next w) t)
  | [] => f w
  end.

Definition mem_set_files (fs : gmap string string) (w : mem) : mem :=
  Mem fs (mem_writers w) (mem_next w) (mem_script w).

Definition mem_info (p c : string) : FileInfo :=
  {| fi_Path := p; fi_Size := Z.of_nat (slen c); fi_ModTime := 0 |}.

#[export] Instance mem_backend : Backend mem := {
  be_Writer := nat;
  be_Put p := mem_op (fun w =>
    (Ok (mem_next w), Mem (mem_files w) (<[mem_next w := (p, "")]> (mem_writers w))
                          (S (mem_next w)) (mem_script w)));
  be_Write h b := mem_op (fun w =>
    match mem_writers w !! h with
    | Some (p, c) =>
        (Ok tt, Mem (mem_files w) (<[h := (p, c +:+ b)]> (mem_writers w)) (mem_next w) (mem_script w))
    | None => (Fail (errors_New "mem: write on a closed writer"), w)
    end);
  be_Close h := mem_op (fun w =>
    match mem_writers w !! h with
    | Some (p, c) =>
        (Ok tt, Mem (<[p := c]> (mem_files w)) (delete h (mem_writers w)) (mem_next w) (mem_script w))
    | None => (Ok tt, w)
    end);
  be_Commit tmp final := mem_op (fun w =>
    match mem_files w !! final, mem_files w !! tmp with
    | Some _, _ => (Fail (errors_Sentinel OsErrExist "mem: Commit refuses to overwrite"), w)
    | None, None => (Fail (errors_Sentinel OsErrNotExist "mem: Commit"), w)
    | None, Some c => (Ok tt, mem_set_files (<[final := c]> (delete tmp (mem_files w))) w)
    end);
  be_Get p := mem_op (fun w =>
    match mem_files w !! p with
    | Some c => (Ok c, w)
    | None => (Fail (errors_Sentinel OsErrNotExist "mem: Get"), w)
    end);
  be_Stat p := mem_op (fun w =>
    match mem_files w !! p with
    | Some c => (Ok (mem_info p c), w)
    | None => (Fail (errors_Sentinel OsErrNotExist "mem: Stat"), w)
    end);
  be_List prefix := mem_op (fun w =>
    (Ok (base.filter (fun fi => valid_key (fi_Path fi) && under prefix (fi_Path fi))
           ((fun '(p, c) => mem_info p c) <$> map_to_list (mem_files w))), w));
  be_Delete p := mem_op (fun w =>
    match mem_files w !! p with
    | Some _ => (Ok tt, mem_set_files (delete p (mem_files w)) w)
    | None => (Fail (errors_Sentinel OsErrNotExist "mem: Delete"), w)
    end);
}.

Lemma mem_op_cases {A} (f : mem -> result A * mem) w :
  (exists t, mem_op f w = (Fail mem_fault, Mem (mem_files w) (mem_writers w) (mem_next w) t)) \/
  (exists t, mem_op f w = f (Mem (mem_files w) (mem_writers w) (mem_next w) t)).
Proof.
  unfold mem_op. destruct w as [fs ws n [|[] t]]; simpl; [right|left|right]; eexists; done.
Qed.

Lemma under_inside prefix p : under prefix p = true -> inside prefix p = true.
Proof. unfold under, inside. destruct (String.eqb prefix ""); [done|]. simpl. intros ->. apply orb_true_r. Qed.

Ltac mem_cases f w :=
  destruct (mem_op_cases f w) as [[? ->]|[? ->]]; simpl;
  [unfold mem_fault, errors_New, errors_Is; simpl; naive_solver|].

Section mem_list.
Context (fs : gmap string string) (prefix : string).

Let listing := base.filter (fun fi => valid_key (fi_Path fi) && under prefix (fi_Path fi))
  ((fun '(p, c) => mem_info p c) <$> map_to_list fs).

Lemma mem_listing_paths l :
  fi_Path <$> ((fun '(p, c) => mem_info p c) <$> (l : list (string * string))) = l.*1.
Proof. induction l as [|[p c] l IH]; [done|]. rewrite !fmap_cons, IH. done. Qed.

Lemma mem_listing_spec fi : fi ∈ listing <->
  valid_key (fi_Path fi) = true /\ under prefix (fi_Path fi) = true /\
  exists c, fs !! fi_Path fi = Some c /\ fi = mem_info (fi_Path fi) c.
Proof.
  unfold listing. rewrite list_elem_of_filter, list_elem_of_fmap, Is_true_true, andb_true_iff. split.
  - intros [[? ?] ([p c] & -> & Hin)]. apply elem_of_map_to_list in Hin. naive_solver.
  - intros (? & ? & c & Hc & Heq). split; [done|]. exists (fi_Path fi, c).
    rewrite elem_of_map_to_list. done.
Qed.

Lemma mem_listing_nodup : NoDup (fi_Path <$> listing).
Proof.
  unfold listing. assert (Hnd : NoDup (fi_Path <$> ((fun '(p, c) => mem_info p c) <$> map_to_list fs))).
  { rewrite mem_listing_paths. apply NoDup_fst_map_to_list. }
  by apply NoDup_fmap_bfilter.
Qed.
End mem_list.

#[export] Program Instance mem_laws : BackendLaws mem := {
  view := mem_files;
  pending w h := mem_writers w !! h;
}.
Next Obligation.
  intros p w _. simpl. match goal with |- context [mem_op ?f] => mem_cases f w end.
  split; [done|]. intros h w' [= <- <-]. simpl. apply lookup_insert_eq.
Qed.
Next Obligation.
  intros h b w p c Hp. simpl in *.
  match goal with |- context [mem_op ?f] => mem_cases f w end. rewrite Hp. simpl. split; [done|].
  exists (c +:+ b). rewrite lookup_insert_eq. done.
Qed.
Next Obligation.
  intros h w p c Hp. simpl in *.
  match goal with |- context [mem_op ?f] => mem_cases f w end. rewrite Hp. simpl. split.
  - intros q Hq. by rewrite lookup_insert_ne by done.
  - by intros w' [= <-].
Qed.
Next Obligation.
  intros tmp final w _ _ _ Hne _. simpl.
  match goal with |- context [mem_op ?f] => mem_cases f w end.
  destruct (mem_files w !! final) as [cf|] eqn:Ef; simpl;
    [unfold errors_Is; simpl; rewrite ?Ef; naive_solver|].
  destruct (mem_files w !! tmp) as [ct|] eqn:Et; simpl;
    [|unfold errors_Is, errors_Sentinel; simpl; naive_solver].
  split_and!; try done.
  - intros q Hq1 Hq2. by rewrite lookup_insert_ne, lookup_delete_ne by done.
  - intros w' [= <-]. simpl. naive_solver.
Qed.
Next Obligation.
  intros p w _. simpl. match goal with |- context [mem_op ?f] => mem_cases f w end.
  destruct (mem_files w !! p) eqn:E; simpl; naive_solver.
Qed.
Next Obligation.
  intros p w _. simpl. match goal with |- context [mem_op ?f] => mem_cases f w end.
  destruct (mem_files w !! p) eqn:E; simpl; [|naive_solver].
  split_and!; try done. intros fi w' [= <- <-]. split; [done|]. by intros c' [= <-].
Qed.
Next Obligation.
  intros prefix w. simpl. match goal with |- context [mem_op ?f] => mem_cases f w end.
  split; [done|]. intros l w' [= <- <-]. split; [apply mem_listing_nodup|].
  intros fi Hfi. apply mem_listing_spec in Hfi as (Hv & Hu & c & Hc & ->). simpl in *.
  split; [done|]. exists c. split_and!; [done|by intros _; apply under_inside|done].
Qed.
Next Obligation.
  intros prefix w l w' p. simpl.
  match goal with |- context [mem_op ?f] => mem_cases f w end.
  intros [= <- <-] [c Hc] Hv Hu. apply list_elem_of_fmap. exists (mem_info p c).
  split; [done|]. apply mem_listing_spec. simpl. eauto.
Qed.
Next Obligation.
  intros prefix w e w' p. simpl.
  match goal with |- context [mem_op ?f] => mem_cases f w end. done.
Qed.
Next Obligation.
  intros p w _. simpl. match goal with |- context [mem_op ?f] => mem_cases f w end.
  destruct (mem_files w !! p) eqn:E; simpl.
  - split_and!; try done; [|by intros w' [= <-]]. intros q Hq. by rewrite lookup_delete_ne by done.
  - naive_solver.
Qed.

#[export] Instance mem_flat : FlatLaws mem.
Proof.
  split.
  - intros p w fi w' _. cbn [be_Stat mem_backend]. match goal with |- context [mem_op ?f w] => destruct (mem_op_cases f w) as [[? ->]|[? ->]] end; [done|].
    simpl. destruct (mem_files w !! p) eqn:E; [by eexists|done].
  - intros t p w e w' _ _ _ _. cbn [be_Commit mem_backend]. match goal with |- context [mem_op ?f w] => destruct (mem_op_cases f w) as [[? ->]|[? ->]] end;
      [by intros [= <- _]|]. simpl. destruct (mem_files w !! p) eqn:E; [by eexists|]. destruct (mem_files w !! t); [done|]. by intros [= <- _].
Qed.
