(* ===== verification/Keys.v ===== *)
(** * Keys of the storage

    Lemmas on the keys callers build: two keys joined, and the file beside another. *)

From S2P Require Import Prelude Storage.

Lemma HasPrefix_before a c b sub : no_byte c sub = true -> HasPrefix (a +:+ String c b) sub = HasPrefix a sub.
Proof.
  revert a. induction sub as [|d sub IH]; intros a Hs; [by rewrite !HasPrefix_nil|].
  unfold no_byte in Hs. cbn [sall] in Hs. apply andb_true_iff in Hs as [Hd Hs]. destruct a as [|e a].
  - cbn [String.append]. rewrite HasPrefix_cons. apply negb_true_iff in Hd. by rewrite Hd.
  - change (String e a +:+ String c b) with (String e (a +:+ String c b)). rewrite !HasPrefix_cons. by rewrite IH.
Qed.

Lemma Contains_cons d s sub : Contains (String d s) sub = HasPrefix (String d s) sub || Contains s sub.
Proof. unfold Contains. cbn [Index]. destruct (HasPrefix (String d s) sub); [done|]. by destruct (Index s sub). Qed.

(** A text without the separator is on one side of it. *)
Lemma Contains_sep a c b sub : sub <> "" -> no_byte c sub = true ->
  Contains (a +:+ String c b) sub = Contains a sub || Contains b sub.
Proof.
  intros Hne Hs. assert (Hempty : Contains "" sub = false) by by destruct sub.
  induction a as [|d a IH].
  - cbn [String.append]. rewrite Contains_cons, Hempty.
    pose proof (HasPrefix_before "" c b sub Hs) as Hp. cbn [String.append] in Hp. rewrite Hp. by destruct sub.
  - change (String d a +:+ String c b) with (String d (a +:+ String c b)). rewrite !Contains_cons, IH.
    change (String d (a +:+ String c b)) with (String d a +:+ String c b). rewrite HasPrefix_before by done. by destruct (HasPrefix _ _).
Qed.

Lemma valid_key_slash a b : plain_path a = true -> plain_path b = true ->
  valid_key (a +:+ "/" +:+ b) = negb (Contains a tmp_marker) && negb (Contains b tmp_marker).
Proof.
  intros Ha Hb. unfold valid_key. rewrite plain_path_app by done. change ("/" +:+ b) with (String "/" b).
  rewrite Contains_sep by done. by rewrite negb_orb.
Qed.

Lemma valid_key_join a b : valid_key a = true -> valid_key b = true ->
  path_Join [a; b] = a +:+ "/" +:+ b /\ valid_key (path_Join [a; b]) = true.
Proof.
  intros Ha Hb. apply andb_true_iff in Ha as [Ha Hta], Hb as [Hb Htb]. rewrite path_Join_plain by done.
  split; [done|]. by rewrite valid_key_slash, Hta, Htb.
Qed.

(** ** The directory of a key *)

Lemma plain_path_split a b : plain_path (a +:+ "/" +:+ b) = true -> plain_path a = true /\ plain_path b = true.
Proof.
  unfold plain_path. change ("/" +:+ b) with (String "/" b). rewrite Split_app_any, forallb_app. by intros ?%andb_true_iff.
Qed.

Lemma clean_go_trailing acc segs : forallb plain_seg segs = true -> clean_go false acc (segs ++ [""]) = rev acc ++ segs.
Proof.
  revert acc. induction segs as [|s segs IH]; intros acc H; cbn [app clean_go].
  - cbn. by rewrite app_nil_r.
  - cbn [forallb] in H. apply andb_true_iff in H as [Hs H]. unfold plain_seg in Hs.
    rewrite !andb_true_iff, !negb_true_iff in Hs. destruct Hs as [[[-> ->] ->] _]. cbn [orb].
    rewrite IH by done. cbn [rev]. by rewrite <- app_assoc.
Qed.

Lemma path_Dir_plain a b : plain_path a = true -> no_byte "/" b = true -> path_Dir (a +:+ "/" +:+ b) = a.
Proof.
  intros Ha Hb. change ("/" +:+ b) with (String "/" b). rewrite path_Dir_split by done. unfold Clean.
  assert (Hp : HasPrefix (a +:+ "/") "/" = false).
  { destruct a as [|c a]; [done|]. pose proof (plain_path_not_rooted _ Ha) as Hp. revert Hp.
    change (String c a +:+ "/") with (String c (a +:+ "/")). by rewrite !HasPrefix_cons, !HasPrefix_nil. }
  rewrite Hp, Split_app_any, (Split_no_byte "") by done. unfold plain_path in Ha. rewrite clean_go_trailing by done.
  cbn [rev app]. rewrite Join_Split.
  destruct (String.eqb_spec a ""); [by subst|done].
Qed.

(** The file [name] beside a stored file. *)
Lemma sibling_key p name : valid_key p = true -> valid_key name = true -> no_byte "/" name = true ->
  valid_key (path_Join [path_Dir p; name]) = true /\
  ((path_Dir p = "." /\ no_byte "/" p = true /\ path_Join [path_Dir p; name] = name) \/
   (valid_key (path_Dir p) = true /\ p = path_Dir p +:+ "/" +:+ path_Base p /\ path_Join [path_Dir p; name] = path_Dir p +:+ "/" +:+ name)).
Proof.
  intros Hp Hn Hns. destruct (last_slash p) as [Hno|(a & b & -> & Hb)].
  - assert (Hd : path_Dir p = ".") by (unfold path_Dir; by rewrite Split_no_byte).
    assert (Hj : path_Join ["."; name] = name).
    { apply andb_true_iff in Hn as [Hn _]. pose proof (plain_path_nonempty name Hn) as Hne. unfold path_Join.
      rewrite !filter_cons, filter_nil. apply String.eqb_neq in Hne. rewrite Hne. change (Clean ("." +:+ "/" +:+ name) = name).
      unfold Clean. change (HasPrefix ("." +:+ "/" +:+ name) "/") with false.
      assert (Hs : Split ("." +:+ "/" +:+ name) "/" = ["."; name]).
      { change ("." +:+ "/" +:+ name) with ("." +:+ String "/" name). rewrite Split_app by done. by rewrite Split_no_byte. }
      rewrite Hs. unfold plain_path in Hn. rewrite Split_no_byte in Hn by done. cbn [forallb] in Hn.
      rewrite andb_true_r in Hn. change (clean_go false [] ["."; name]) with (clean_go false [] [name]).
      rewrite plain_seg_clean by (cbn; by rewrite Hn). cbn. by rewrite Hne. }
    rewrite Hd, Hj. split; [done|]. by left.
  - change (String "/" b) with ("/" +:+ b) in *. pose proof Hp as Hp'. apply andb_true_iff in Hp' as [Hpl _].
    apply plain_path_split in Hpl as [Ha Hbp]. rewrite path_Dir_plain by done.
    rewrite valid_key_slash in Hp by done. apply andb_true_iff in Hp as [Hta _].
    assert (Hva : valid_key a = true) by (unfold valid_key; by rewrite Ha, Hta).
    destruct (valid_key_join a name Hva Hn) as [Hj Hv]. split; [done|]. right. split; [done|]. split; [|done].
    rewrite path_Base_app; [done|by apply plain_path_nonempty|done].
Qed.

(** The first component of a path is determined. *)
Lemma prefix_dir_inj a b q : no_byte "/" a = true -> no_byte "/" b = true ->
  HasPrefix q (a +:+ "/") = true -> HasPrefix q (b +:+ "/") = true -> a = b.
Proof.
  intros Ha Hb [u ->]%HasPrefix_spec [v E]%HasPrefix_spec. rewrite !sapp_assoc in E.
  revert b Hb E. induction a as [|c a IH]; intros [|d b] Hb E; cbn in E; [done|..].
  - injection E as <- _. cbn in Hb. done.
  - injection E as -> _. cbn in Ha. done.
  - injection E as -> E. unfold no_byte in Ha, Hb. cbn in Ha, Hb. apply andb_true_iff in Ha as [_ Ha], Hb as [_ Hb].
    f_equal. by apply IH.
Qed.


(** A directory of a key is one. *)
Lemma valid_key_dir a b : valid_key (a +:+ String "/" b) = true -> valid_key a = true.
Proof.
  unfold valid_key. change (String "/" b) with ("/" +:+ b). intros [Hp Ht]%andb_true_iff. apply plain_path_split in Hp as [-> _].
  change ("/" +:+ b) with (String "/" b) in Ht. rewrite Contains_sep, negb_orb in Ht by done. by apply andb_true_iff in Ht as [-> _].
Qed.

(** An absolute directory written plainly. *)
Definition clean_target (t : string) : Prop := exists p, plain_path p = true /\ t = "/" +:+ p.

Lemma target_Join t p : clean_target t -> plain_path p = true -> path_Join [t; p] = t +:+ "/" +:+ p.
Proof.
  intros (a & Ha & ->) Hp. unfold path_Join. pose proof (plain_path_nonempty p Hp) as Hne.
  rewrite !filter_cons, filter_nil. apply String.eqb_neq in Hne. rewrite Hne. cbn [negb].
  change (String.eqb ("/" +:+ a) "") with false. cbn [negb]. cbv iota.
  replace (if decide true then _ else _) with ["/" +:+ a; p] by done.
  change (Join ["/" +:+ a; p] "/") with (("/" +:+ a) +:+ "/" +:+ p). rewrite sapp_assoc.
  unfold Clean. rewrite HasPrefix_app.
  assert (Hs : Split ("/" +:+ a +:+ "/" +:+ p) "/" = "" :: Split (a +:+ "/" +:+ p) "/").
  { apply (Split_app "" "/"). done. }
  rewrite Hs. cbn [clean_go String.eqb orb]. rewrite plain_seg_clean by by apply plain_path_app. cbn [rev app].
  by rewrite Join_Split.
Qed.

Lemma target_Join_inj t p q : clean_target t -> plain_path p = true -> plain_path q = true ->
  path_Join [t; p] = path_Join [t; q] -> p = q.
Proof.
  intros Ht Hp Hq. rewrite !target_Join by done. intros E. apply sapp_inj_len in E as [_ E]; [|done].
  by apply (sapp_inj_len "/" p "/" q) in E as [_ E].
Qed.
