(* ===== verification/Host.v ===== *)
(** * The host a command runs on

    Local files, the random source and the clock, as classes of operations with the
    laws the clients rely on. *)

From S2P Require Import Prelude Storage.

(** ** Local files and the random source *)

Class Host (W : Type) := {
  os_ReadFile : string -> M W string;              (* os.Open and io.Copy from it *)
  os_OpenFile : string -> M W (list string * option error);  (* os.Open: the buffers io.Copy will read, and the error that ends them *)
  os_WriteFile : string -> string -> M W unit;     (* MkdirAll, os.Create, io.Copy, Close *)
  rand_Read : nat -> M W string;                   (* crypto/rand *)
}.

Class HostLaws (W : Type) `{BackendLaws W, Host W} := {
  host_files : W -> gmap string string;
  read_file_spec p w :
    view (snd (os_ReadFile p w)) = view w /\ host_files (snd (os_ReadFile p w)) = host_files w /\
    forall c w', os_ReadFile p w = (Ok c, w') -> host_files w !! p = Some c;
  open_file_spec p w :
    view (snd (os_OpenFile p w)) = view w /\ host_files (snd (os_OpenFile p w)) = host_files w /\
    forall chunks w', os_OpenFile p w = (Ok (chunks, None), w') -> host_files w !! p = Some (Join chunks "");
  write_file_spec p c w :
    view (snd (os_WriteFile p c w)) = view w /\
    (forall q, q <> p -> host_files (snd (os_WriteFile p c w)) !! q = host_files w !! q) /\
    forall w', os_WriteFile p c w = (Ok tt, w') -> host_files w' = <[p := c]> (host_files w);
  rand_spec n w :
    view (snd (rand_Read n w)) = view w /\ host_files (snd (rand_Read n w)) = host_files w /\
    forall b w', rand_Read n w = (Ok b, w') -> slen b = n;
  (** Looking into the storage does not touch the files of the host. *)
  stat_host p w : host_files (snd (be_Stat p w)) = host_files w;
  list_host p w : host_files (snd (be_List p w)) = host_files w;
}.

(** ** The clock a polling loop sees *)

Class Clock (W : Type) := {
  time_Now : W -> Z;                 (* time.Now, in nanoseconds *)
  time_Sleep : Z -> M W unit;        (* select { <-ctx.Done(); <-time.After(d) } *)
}.

Class ClockLaws (W : Type) `{Backend W, Clock W} := {
  sleep_advances d w w' : 0 <= d -> time_Sleep d w = (Ok tt, w') -> time_Now w + d <= time_Now w';
  list_clock p w : time_Now w <= time_Now (snd (be_List p w));
}.

Definition Millisecond : Z := 1000 * 1000.
Definition Second : Z := 1000 * Millisecond.
Definition Minute : Z := 60 * Second.
Definition Hour : Z := 60 * Minute.


(** ** Directories, links and other programs *)

Class Disk (W : Type) := {
  os_Stat : string -> M W unit;
  os_MkdirAll : string -> M W unit;
  os_CreateExcl : string -> M W unit;              (* OpenFile with O_CREATE and O_EXCL *)
  os_Remove : string -> M W unit;
  os_RemoveAll : string -> M W unit;
  os_Symlink : string -> string -> M W unit;
  os_MkdirTemp : string -> string -> M W string;
  exec_LookPath : string -> M W unit;
  (** [pg_combinebackup] on the given backups, into the given directory. *)
  pg_combinebackup : list string -> string -> M W unit;
}.

(** What a restore relies on: making directories leaves the files alone, and none of these
    calls writes to the storage. *)
Class DiskLaws (W : Type) `{HostLaws W, Disk W} := {
  read_absent p w e w' : os_ReadFile p w = (Fail e, w') -> errors_Is e OsErrNotExist = true ->
    host_files w !! p = None;
  stat_spec_host p w :
    view (snd (os_Stat p w)) = view w /\ host_files (snd (os_Stat p w)) = host_files w;
  stat_absent p w e w' : os_Stat p w = (Fail e, w') -> errors_Is e OsErrNotExist = true ->
    host_files w !! p = None;
  mkdir_spec p w :
    view (snd (os_MkdirAll p w)) = view w /\ host_files (snd (os_MkdirAll p w)) = host_files w;
  get_host p w : host_files (snd (be_Get p w)) = host_files w;
}.
