(* ===== verification/Time.v ===== *)
(** * Time

    [time.Time] in a zone of constant offset, with the calendar functions and the
    two layouts the program formats and parses. *)

From S2P Require Import Prelude Host.

(** Nanoseconds since 0001-01-01T00:00:00Z, Go's zero time, and the offset in
    seconds of the location the value is read in. *)
Record time := Time { t_ns : Z; t_off : Z }.

#[export] Instance time_eq_dec : EqDecision time.
Proof. solve_decision. Defined.

Definition zero_time : time := Time 0 0.
Definition Day : Z := 24 * Hour.

Definition IsZero (t : time) : bool := t_ns t =? 0.
Definition After (t u : time) : bool := t_ns u <? t_ns t.
Definition Before (t u : time) : bool := t_ns t <? t_ns u.
Definition Equal (t u : time) : bool := t_ns t =? t_ns u.
Definition Add (t : time) (d : Z) : time := Time (t_ns t + d) (t_off t).
Definition UTC (t : time) : time := Time (t_ns t) 0.

(** [Time.Sub] saturates at the range of [time.Duration]. *)
Definition maxDuration : Z := 2 ^ 63 - 1.
Definition Sub (t u : time) : Z := Z.max (- 2 ^ 63) (Z.min maxDuration (t_ns t - t_ns u)).

(** ** The civil calendar

    Days are counted from 0001-01-01; [era] is a cycle of 400 years that starts on
    March 1st, so the leap day ends the year. *)

Definition local_ns (t : time) : Z := t_ns t + t_off t * Second.
Definition local_day (t : time) : Z := local_ns t / Day.

Definition year_of_era (doe : Z) : Z :=
  (doe - doe / 1460 + doe / 36524 - doe / 146096) / 365.

Definition day_of_year (doe : Z) : Z :=
  let yoe := year_of_era doe in doe - (365 * yoe + yoe / 4 - yoe / 100).

Definition civil (day : Z) : Z * Z * Z :=
  let z := day + 306 in
  let era := z / 146097 in
  let doe := z mod 146097 in
  let yoe := year_of_era doe in
  let doy := day_of_year doe in
  let mp := (5 * doy + 2) / 153 in
  let d := doy - (153 * mp + 2) / 5 + 1 in
  let m := if mp <? 10 then mp + 3 else mp - 9 in
  let y := yoe + era * 400 + (if m <=? 2 then 1 else 0) in
  (y, m, d).

Definition days_from_civil (y m d : Z) : Z :=
  let y' := if m <=? 2 then y - 1 else y in
  let era := y' / 400 in
  let yoe := y' mod 400 in
  let mp := if 2 <? m then m - 3 else m + 9 in
  let doy := (153 * mp + 2) / 5 + d - 1 in
  era * 146097 + yoe * 365 + yoe / 4 - yoe / 100 + doy - 306.

Definition Year (t : time) : Z := let '(y, _, _) := civil (local_day t) in y.
Definition Month (t : time) : Z := let '(_, m, _) := civil (local_day t) in m.
Definition DayOfMonth (t : time) : Z := let '(_, _, d) := civil (local_day t) in d.

(** Sunday is 0; 0001-01-01 was a Monday. *)
Definition Weekday (t : time) : Z := (local_day t + 1) mod 7.

(** [time.Date] at midnight; the day may be out of the month, as in Go. *)
Definition DateMidnight (y m d off : Z) : time :=
  Time (days_from_civil y m d * Day - off * Second) off.

(** [t.AddDate(0, 0, days)] *)
Definition AddDays (t : time) (days : Z) : time := Add t (days * Day).

Section era.
Local Ltac Zify.zify_post_hook ::= Z.div_mod_to_equations.

Lemma year_of_era_bounds doe : 0 <= doe < 146097 -> 0 <= year_of_era doe < 400.
Proof. unfold year_of_era. lia. Qed.

Lemma day_of_year_bounds doe : 0 <= doe < 146097 -> 0 <= day_of_year doe < 366.
Proof.
  intros Hd. pose proof (year_of_era_bounds doe Hd) as Hy. unfold day_of_year.
  assert (H365 : 365 * year_of_era doe <= doe - doe / 1460 + doe / 36524 - doe / 146096
                 < 365 * year_of_era doe + 365) by (unfold year_of_era; lia).
  set (yoe := year_of_era doe) in *. clearbody yoe. cbv zeta.
  assert (doe / 146096 = 0 \/ doe = 146096) as [E|E] by lia.
  - rewrite E in *.
    assert (Hc : doe / 36524 = 0 \/ doe / 36524 = 1 \/ doe / 36524 = 2 \/ doe / 36524 = 3) by lia.
    assert (Hq : yoe / 100 = 0 \/ yoe / 100 = 1 \/ yoe / 100 = 2 \/ yoe / 100 = 3) by lia.
    destruct Hc as [Hc|[Hc|[Hc|Hc]]], Hq as [Hq|[Hq|[Hq|Hq]]]; rewrite Hc, Hq in *; lia.
  - subst. assert (yoe = 399) by lia. subst. done.
Qed.
End era.

Lemma era_day_bounds doe : 0 <= doe < 146097 ->
  0 <= year_of_era doe < 400 /\ 0 <= day_of_year doe < 366.
Proof. auto using year_of_era_bounds, day_of_year_bounds. Qed.

(** The calendar is the inverse of the day count. *)
Lemma days_from_civil_civil day :
  let '(y, m, d) := civil day in days_from_civil y m d = day.
Proof.
  unfold civil. set (z := day + 306).
  pose proof (Z.mod_pos_bound z 146097) as Hb. pose proof (Z.div_mod z 146097) as Hz.
  destruct (era_day_bounds (z mod 146097)) as [Hy Hd]; [lia|].
  unfold day_of_year in *. set (doe := z mod 146097) in *. set (yoe := year_of_era doe) in *.
  set (doy := doe - (365 * yoe + yoe / 4 - yoe / 100)) in *.
  assert (Hmp : 0 <= (5 * doy + 2) / 153 <= 11).
  { split; [apply Z.div_pos; lia|]. apply Z.lt_succ_r, Z.div_lt_upper_bound; lia. }
  set (mp := (5 * doy + 2) / 153) in *. unfold days_from_civil.
  destruct (Z.ltb_spec mp 10).
  - destruct (Z.leb_spec (mp + 3) 2), (Z.ltb_spec 2 (mp + 3)); try lia.
    rewrite Z.add_0_r, Z.div_add, Z.mod_add, Z.div_small, Z.mod_small by lia.
    replace (mp + 3 - 3) with mp by lia. lia.
  - destruct (Z.leb_spec (mp - 9) 2), (Z.ltb_spec 2 (mp - 9)); try lia.
    replace (yoe + z / 146097 * 400 + 1 - 1) with (yoe + z / 146097 * 400) by lia.
    rewrite Z.div_add, Z.mod_add, Z.div_small, Z.mod_small by lia.
    replace (mp - 9 + 9) with mp by lia. lia.
Qed.

Lemma civil_month day : let '(_, m, _) := civil day in 1 <= m <= 12.
Proof.
  unfold civil. pose proof (Z.mod_pos_bound (day + 306) 146097).
  destruct (era_day_bounds ((day + 306) mod 146097)) as [_ Hd]; [lia|].
  set (doy := day_of_year _) in *.
  assert (0 <= (5 * doy + 2) / 153 <= 11).
  { split; [apply Z.div_pos; lia|]. apply Z.lt_succ_r, Z.div_lt_upper_bound; lia. }
  destruct (Z.ltb_spec ((5 * doy + 2) / 153) 10); lia.
Qed.

Example epoch_day : days_from_civil 1970 1 1 = 719162.
Proof. reflexivity. Qed.

Example leap_day : civil (days_from_civil 2024 2 29 + 1) = (2024, 3, 1).
Proof. reflexivity. Qed.

(** A civil date and time of day in UTC. *)
Definition Date (y m d hh mm ss : Z) : time :=
  Time (days_from_civil y m d * Day + hh * Hour + mm * Minute + ss * Second) 0.

(** ** Layouts *)

(** [%0<w>d] of a non-negative number. *)
Definition FormatPad (w : nat) (n : Z) : string :=
  let s := FormatD n in
  Nat.iter (w - slen s) (String "0") s.

Definition clock_of (t : time) : Z * Z * Z :=
  let s := (local_ns t mod Day) / Second in (s / 3600, s / 60 mod 60, s mod 60).

(** [t.Format("20060102T150405")] *)
Definition FormatCompact (t : time) : string :=
  let '(hh, mm, ss) := clock_of t in
  FormatPad 4 (Year t) +:+ FormatPad 2 (Month t) +:+ FormatPad 2 (DayOfMonth t) +:+ "T" +:+
  FormatPad 2 hh +:+ FormatPad 2 mm +:+ FormatPad 2 ss.

(** [t.Format("2006-01-02 15:04:05 GMT")] *)
Definition FormatGMT (t : time) : string :=
  let '(hh, mm, ss) := clock_of t in
  FormatPad 4 (Year t) +:+ "-" +:+ FormatPad 2 (Month t) +:+ "-" +:+ FormatPad 2 (DayOfMonth t) +:+
  " " +:+ FormatPad 2 hh +:+ ":" +:+ FormatPad 2 mm +:+ ":" +:+ FormatPad 2 ss +:+ " GMT".

(** [t.Format(time.RFC3339)] of a UTC time. *)
Definition FormatRFC3339 (t : time) : string :=
  let '(hh, mm, ss) := clock_of t in
  FormatPad 4 (Year t) +:+ "-" +:+ FormatPad 2 (Month t) +:+ "-" +:+ FormatPad 2 (DayOfMonth t) +:+
  "T" +:+ FormatPad 2 hh +:+ ":" +:+ FormatPad 2 mm +:+ ":" +:+ FormatPad 2 ss +:+ "Z".

Example FormatCompact_ex : FormatCompact (Date 2026 4 1 10 0 5) = "20260401T100005".
Proof. vm_compute. reflexivity. Qed.

Example FormatGMT_ex : FormatGMT (Date 2026 12 31 23 59 0) = "2026-12-31 23:59:00 GMT".
Proof. vm_compute. reflexivity. Qed.

(** ** Parsing

    [time.Parse("2006-01-02 15:04:05 GMT", s)]: two digits for every field but the
    year, which has four, and the hour, which may have one; a run of blanks of the
    text stands for a blank of the layout, and seconds may carry a fraction. *)

Definition digit_at (s : string) (i : nat) : option Z :=
  match sget s i with
  | Some c => if is_digit c then Some (byte_val c - 48) else None
  | None => None
  end.

(** [getnum] *)
Definition getnum (s : string) (fixed : bool) : option (Z * string) :=
  match digit_at s 0, digit_at s 1 with
  | Some a, Some b => Some (a * 10 + b, sdrop 2 s)
  | Some a, None => if fixed then None else Some (a, sdrop 1 s)
  | None, _ => None
  end.

Definition getyear (s : string) : option (Z * string) :=
  match digit_at s 0, digit_at s 1, digit_at s 2, digit_at s 3 with
  | Some a, Some b, Some c, Some d => Some (((a * 10 + b) * 10 + c) * 10 + d, sdrop 4 s)
  | _, _, _, _ => None
  end.

Fixpoint cutspace (s : string) : string :=
  match s with
  | String c s' => if Ascii.eqb c " " then cutspace s' else s
  | "" => ""
  end.

(** [skip], for a literal of one blank and for one of one other byte. *)
Definition skip_blank (s : string) : option string :=
  match s with
  | "" => Some ""
  | String c _ => if Ascii.eqb c " " then Some (cutspace s) else None
  end.

Definition skip_byte (c : ascii) (s : string) : option string :=
  match s with
  | String d s' => if Ascii.eqb c d then Some s' else None
  | "" => None
  end.

(** The fraction that may follow the seconds, in nanoseconds. *)
Fixpoint fraction (scale : Z) (s : string) : Z * string :=
  match s with
  | "" => (0, "")
  | String c s' =>
      if is_digit c then
        let '(ns, rest) := fraction (scale / 10) s' in ((byte_val c - 48) * scale + ns, rest)
      else (0, s)
  end.

Definition getfraction (s : string) : Z * string :=
  match s with
  | String c s' =>
      if (Ascii.eqb c "." || Ascii.eqb c ",") &&
         (match digit_at s' 0 with Some _ => true | None => false end)
      then fraction (10 ^ 8) s' else (0, s)
  | "" => (0, s)
  end.

Definition is_leap (y : Z) : bool :=
  (y mod 4 =? 0) && (negb (y mod 100 =? 0) || (y mod 400 =? 0)).

Definition days_in (m y : Z) : Z :=
  if m =? 2 then if is_leap y then 29 else 28
  else if (m =? 4) || (m =? 6) || (m =? 9) || (m =? 11) then 30 else 31.

Definition obind {A B} (o : option A) (k : A -> option B) : option B :=
  match o with Some a => k a | None => None end.

Notation "'let?' x := o 'in' k" := (obind o (fun x => k))
  (at level 10, x pattern, o at level 100, k at level 200) : go_scope.

Definition ParseGMT (s : string) : option time :=
  let? (y, s) := getyear s in let? s := skip_byte "-" s in
  let? (m, s) := getnum s true in let? s := skip_byte "-" s in
  let? (d, s) := getnum s true in let? s := skip_blank s in
  let? (hh, s) := getnum s false in let? s := skip_byte ":" s in
  let? (mm, s) := getnum s true in let? s := skip_byte ":" s in
  let? (ss, s) := getnum s true in
  let '(ns, s) := getfraction s in
  let? s := skip_blank s in
  if negb (String.eqb s "GMT") then None
  else if (1 <=? m) && (m <=? 12) && (1 <=? d) && (d <=? days_in m y) &&
          (hh <? 24) && (mm <? 60) && (ss <? 60)
  then Some (Add (Date y m d hh mm ss) ns)
  else None.

Example ParseGMT_ex : ParseGMT "2026-12-31 23:59:07 GMT" = Some (Date 2026 12 31 23 59 7).
Proof. vm_compute. reflexivity. Qed.

(** ** RFC 3339 with nanoseconds: [MarshalJSON] and [UnmarshalJSON] of [time.Time] *)

Fixpoint trim_zeros (s : string) : string :=
  match s with
  | "" => ""
  | String c s' =>
      match trim_zeros s' with
      | "" => if Ascii.eqb c "0" then "" else String c ""
      | r => String c r
      end
  end.

Definition FormatFraction (ns : Z) : string :=
  if ns =? 0 then "" else "." +:+ trim_zeros (FormatPad 9 ns).

Definition FormatZone (off : Z) : string :=
  if off =? 0 then "Z"
  else
    let zone := Z.quot off 60 in
    (if zone <? 0 then "-" else "+") +:+ FormatPad 2 (Z.abs zone / 60) +:+ ":" +:+ FormatPad 2 (Z.abs zone mod 60).

Definition FormatRFC3339Nano (t : time) : string :=
  let '(hh, mm, ss) := clock_of t in
  FormatPad 4 (Year t) +:+ "-" +:+ FormatPad 2 (Month t) +:+ "-" +:+ FormatPad 2 (DayOfMonth t) +:+
  "T" +:+ FormatPad 2 hh +:+ ":" +:+ FormatPad 2 mm +:+ ":" +:+ FormatPad 2 ss +:+
  FormatFraction (local_ns t mod Second) +:+ FormatZone (t_off t).

Definition MarshalTime (t : time) : option string :=
  if (0 <=? Year t) && (Year t <=? 9999) && (Z.abs (Z.quot (t_off t) 60) / 60 <? 24)
  then Some (FormatRFC3339Nano t) else None.

Definition parse_zone (s : string) : option Z :=
  match s with
  | String c s' =>
      if Ascii.eqb c "Z" then if String.eqb s' "" then Some 0 else None
      else if Ascii.eqb c "+" || Ascii.eqb c "-" then
        let? (h, s) := getnum s' true in let? s := skip_byte ":" s in
        let? (m, s) := getnum s true in
        if String.eqb s "" && (h <? 24) && (m <? 60)
        then Some ((if Ascii.eqb c "-" then -1 else 1) * (h * 3600 + m * 60)) else None
      else None
  | "" => None
  end.

Definition getfraction_dot (s : string) : Z * string :=
  match s with
  | String c _ => if Ascii.eqb c "." then getfraction s else (0, s)
  | "" => (0, s)
  end.

Definition ParseRFC3339 (s : string) : option time :=
  let? (y, s) := getyear s in let? s := skip_byte "-" s in
  let? (m, s) := getnum s true in let? s := skip_byte "-" s in
  let? (d, s) := getnum s true in let? s := skip_byte "T" s in
  let? (hh, s) := getnum s true in let? s := skip_byte ":" s in
  let? (mm, s) := getnum s true in let? s := skip_byte ":" s in
  let? (ss, s) := getnum s true in
  let '(ns, s) := getfraction_dot s in
  let? off := parse_zone s in
  if (1 <=? m) && (m <=? 12) && (1 <=? d) && (d <=? days_in m y) &&
     (hh <? 24) && (mm <? 60) && (ss <? 60)
  then Some (Time (t_ns (Date y m d hh mm ss) + ns - off * Second) off)
  else None.

Example RFC3339_ex :
  FormatRFC3339Nano (Time (t_ns (Date 2026 4 1 10 0 5) + 120000000) (-5400)) = "2026-04-01T08:30:05.12-01:30" /\
  ParseRFC3339 "2026-04-01T08:30:05.12-01:30" = Some (Time (t_ns (Date 2026 4 1 10 0 5) + 120000000) (-5400)).
Proof. vm_compute. done. Qed.
