(* ===== verification/Json.v ===== *)
(** * JSON

    [encoding/json] as the program uses it: the values of a text, the scanner with
    the string decoding of the library, [MarshalIndent], and the rules by which a
    value is stored into a struct. Texts nested deeper than the limit of the library
    (10000) are not told apart from the others. *)

From S2P Require Import Prelude.

(** ** Text *)

(** [for _, r := range s] decodes UTF-8: [rune_width] is the width of the rune at
    the head of the string, and zero when the bytes there are not one. *)
Definition byte_in (lo hi : Z) (s : string) (i : nat) : bool :=
  match sget s i with Some c => (lo <=? byte_val c) && (byte_val c <=? hi) | None => false end.

Definition rune_width (s : string) : nat :=
  if byte_in 0 0x7F s 0 then 1
  else if byte_in 0xC2 0xDF s 0 && byte_in 0x80 0xBF s 1 then 2
  else if (byte_in 0xE0 0xE0 s 0 && byte_in 0xA0 0xBF s 1 ||
           byte_in 0xE1 0xEC s 0 && byte_in 0x80 0xBF s 1 ||
           byte_in 0xED 0xED s 0 && byte_in 0x80 0x9F s 1 ||
           byte_in 0xEE 0xEF s 0 && byte_in 0x80 0xBF s 1) && byte_in 0x80 0xBF s 2 then 3
  else if (byte_in 0xF0 0xF0 s 0 && byte_in 0x90 0xBF s 1 ||
           byte_in 0xF1 0xF3 s 0 && byte_in 0x80 0xBF s 1 ||
           byte_in 0xF4 0xF4 s 0 && byte_in 0x80 0x8F s 1)
          && byte_in 0x80 0xBF s 2 && byte_in 0x80 0xBF s 3 then 4
  else 0.

(** [utf8.RuneError], which a byte that starts no rune is read as. *)
Definition RuneError : string := String "239" (String "191" (String "189" "")).

(** [utf8.AppendRune] *)
Definition utf8_encode (r : Z) : string :=
  let tail x := String (byte_of (0x80 + x mod 64)) in
  if r <? 0x80 then String (byte_of r) ""
  else if r <? 0x800 then String (byte_of (0xC0 + r / 64)) (tail r "")
  else if r <? 0x10000 then String (byte_of (0xE0 + r / 4096)) (tail (r / 64) (tail r ""))
  else String (byte_of (0xF0 + r / 262144)) (tail (r / 4096) (tail (r / 64) (tail r ""))).

(** ** Values *)

Unset Elimination Schemes.
Inductive json :=
  | Null
  | Bool (b : bool)
  | Num (literal : string)
  | Str (s : string)
  | Arr (elems : list json)
  | Obj (members : list (string * json)).
Set Elimination Schemes.

(** ** The scanner *)

Definition is_ws (c : ascii) : bool :=
  let v := byte_val c in (v =? 32) || (v =? 9) || (v =? 10) || (v =? 13).

Fixpoint skip_ws (s : string) : string :=
  match s with
  | String c s' => if is_ws c then skip_ws s' else s
  | "" => ""
  end.

Definition hex4 (a b c d : ascii) : option Z :=
  match hexval a, hexval b, hexval c, hexval d with
  | Some a, Some b, Some c, Some d => Some (((a * 16 + b) * 16 + c) * 16 + d)
  | _, _, _, _ => None
  end.

(** The pair of surrogates [r1] and [r2], as [utf16.DecodeRune]. *)
Definition surrogates (r1 r2 : Z) : option Z :=
  if (0xD800 <=? r1) && (r1 <? 0xDC00) && (0xDC00 <=? r2) && (r2 <? 0xE000)
  then Some ((r1 - 0xD800) * 1024 + (r2 - 0xDC00) + 0x10000) else None.

Definition emit (out : string) (r : option (string * string)) : option (string * string) :=
  match r with Some (s, rest) => Some (out +:+ s, rest) | None => None end.

Definition simple_escape (e : ascii) : option ascii :=
  let v := byte_val e in
  if v =? 34 then Some dq
  else if v =? 92 then Some "092"%char
  else if v =? 47 then Some "047"%char
  else if v =? 98 then Some "008"%char
  else if v =? 102 then Some "012"%char
  else if v =? 110 then Some "010"%char
  else if v =? 114 then Some "013"%char
  else if v =? 116 then Some "009"%char
  else None.

(** A string after its opening quote: what it denotes, and what follows the closing
    quote. [skip] counts the bytes left of the current rune. *)
Fixpoint scan_body (skip : nat) (s : string) : option (string * string) :=
  match s with
  | "" => None
  | String c t =>
      match skip with
      | S k => emit (String c "") (scan_body k t)
      | O =>
          if Ascii.eqb c dq then Some ("", t)
          else if byte_val c <? 32 then None
          else if Ascii.eqb c "\" then
            match t with
            | "" => None
            | String e t' =>
                match simple_escape e with
                | Some o => emit (String o "") (scan_body 0 t')
                | None =>
                    if Ascii.eqb e "u" then
                      match t' with
                      | String a1 (String a2 (String a3 (String a4 u))) =>
                          match hex4 a1 a2 a3 a4 with
                          | None => None
                          | Some r =>
                              if (r <? 0xD800) || (0xE000 <=? r) then emit (utf8_encode r) (scan_body 0 u)
                              else
                                match u with
                                | String x (String y (String b1 (String b2 (String b3 (String b4 u'))))) =>
                                    match hex4 b1 b2 b3 b4 with
                                    | Some r2 =>
                                        match surrogates r r2 with
                                        | Some v =>
                                            if Ascii.eqb x "\" && Ascii.eqb y "u"
                                            then emit (utf8_encode v) (scan_body 0 u')
                                            else emit RuneError (scan_body 0 u)
                                        | None => emit RuneError (scan_body 0 u)
                                        end
                                    | None => emit RuneError (scan_body 0 u)
                                    end
                                | _ => emit RuneError (scan_body 0 u)
                                end
                          end
                      | _ => None
                      end
                    else None
                end
            end
          else
            match rune_width s with
            | O => emit RuneError (scan_body 0 t)
            | S w => emit (String c "") (scan_body w t)
            end
      end
  end.

Fixpoint span_digits (s : string) : string * string :=
  match s with
  | String c s' => if is_digit c then let '(d, r) := span_digits s' in (String c d, r) else ("", s)
  | "" => ("", "")
  end.

(** The parts of a number: sign, integer, fraction, exponent. *)
Definition scan_integer (s : string) : option (string * string) :=
  match span_digits s with
  | ("", _) => None
  | (String c d, r) => if Ascii.eqb c "0" then Some ("0", d +:+ r) else Some (String c d, r)
  end.

Definition scan_fraction (s : string) : option (string * string) :=
  match s with
  | String c s' =>
      if Ascii.eqb c "." then
        match span_digits s' with ("", _) => None | (d, r) => Some (String "." d, r) end
      else Some ("", s)
  | "" => Some ("", "")
  end.

Definition scan_exponent (s : string) : option (string * string) :=
  match s with
  | String c s' =>
      if Ascii.eqb c "e" || Ascii.eqb c "E" then
        let '(sign, s'') :=
          match s' with
          | String x r => if Ascii.eqb x "+" || Ascii.eqb x "-" then (String x "", r) else ("", s')
          | "" => ("", "")
          end in
        match span_digits s'' with ("", _) => None | (d, r) => Some (String c (sign +:+ d), r) end
      else Some ("", s)
  | "" => Some ("", "")
  end.

Definition scan_number (s : string) : option (string * string) :=
  let '(sign, s) := match s with
                    | String c r => if Ascii.eqb c "-" then ("-", r) else ("", s)
                    | "" => ("", "")
                    end in
  match scan_integer s with
  | None => None
  | Some (i, s) =>
      match scan_fraction s with
      | None => None
      | Some (f, s) =>
          match scan_exponent s with
          | None => None
          | Some (e, s) => Some (sign +:+ i +:+ f +:+ e, s)
          end
      end
  end.

Definition scan_literal (s : string) : option (json * string) :=
  if HasPrefix s "null" then Some (Null, sdrop 4 s)
  else if HasPrefix s "true" then Some (Bool true, sdrop 4 s)
  else if HasPrefix s "false" then Some (Bool false, sdrop 5 s)
  else match scan_number s with Some (n, r) => Some (Num n, r) | None => None end.

(** A key with its colon. *)
Definition scan_key (s : string) : option (string * string) :=
  match skip_ws s with
  | String c t =>
      if Ascii.eqb c dq then
        match scan_body 0 t with
        | Some (k, r) =>
            match skip_ws r with
            | String c' r' => if Ascii.eqb c' ":" then Some (k, r') else None
            | "" => None
            end
        | None => None
        end
      else None
  | "" => None
  end.

(** Values, elements after [[], members after [{]; every step uses one unit of fuel. *)
Fixpoint parse_value (fuel : nat) (s : string) : option (json * string) :=
  match fuel with
  | O => None
  | S f =>
      match skip_ws s with
      | "" => None
      | String c t =>
          if Ascii.eqb c dq then
            match scan_body 0 t with Some (v, r) => Some (Str v, r) | None => None end
          else if Ascii.eqb c "[" then
            match skip_ws t with
            | String d r =>
                if Ascii.eqb d "]" then Some (Arr [], r)
                else match parse_elems f t with Some (l, r) => Some (Arr l, r) | None => None end
            | "" => None
            end
          else if Ascii.eqb c "{" then
            match skip_ws t with
            | String d r =>
                if Ascii.eqb d "}" then Some (Obj [], r)
                else match parse_members f t with Some (l, r) => Some (Obj l, r) | None => None end
            | "" => None
            end
          else scan_literal (String c t)
      end
  end
with parse_elems (fuel : nat) (s : string) : option (list json * string) :=
  match fuel with
  | O => None
  | S f =>
      match parse_value f s with
      | None => None
      | Some (v, r) =>
          match skip_ws r with
          | String c r' =>
              if Ascii.eqb c "]" then Some ([v], r')
              else if Ascii.eqb c "," then
                match parse_elems f r' with Some (l, r) => Some (v :: l, r) | None => None end
              else None
          | "" => None
          end
      end
  end
with parse_members (fuel : nat) (s : string) : option (list (string * json) * string) :=
  match fuel with
  | O => None
  | S f =>
      match scan_key s with
      | None => None
      | Some (k, s) =>
          match parse_value f s with
          | None => None
          | Some (v, r) =>
              match skip_ws r with
              | String c r' =>
                  if Ascii.eqb c "}" then Some ([(k, v)], r')
                  else if Ascii.eqb c "," then
                    match parse_members f r' with Some (l, r) => Some ((k, v) :: l, r) | None => None end
                  else None
              | "" => None
              end
          end
      end
  end.

(** Fuel for every value of a text: two units for each byte. *)
Definition parse_fuel (s : string) : nat := 2 * slen s + 1.

Definition parse_first (s : string) : option (json * string) := parse_value (parse_fuel s) s.

(** ** The encoder: [MarshalIndent(v, "", "  ")] *)

Definition hex_escape (v : Z) : string := "\u" +:+ Format0x 4 v.

Definition escape_byte (c : ascii) : string :=
  let v := byte_val c in
  if v =? 34 then String "\" (String dq "")
  else if v =? 92 then "\\"
  else if v =? 8 then "\b"
  else if v =? 12 then "\f"
  else if v =? 10 then "\n"
  else if v =? 13 then "\r"
  else if v =? 9 then "\t"
  else if (v <? 0x20) || (v =? 60) || (v =? 62) || (v =? 38) then hex_escape v
  else String c "".

(** U+2028 and U+2029 *)
Definition line_separator (s : string) : option Z :=
  if byte_in 0xE2 0xE2 s 0 && byte_in 0x80 0x80 s 1 then
    if byte_in 0xA8 0xA8 s 2 then Some 0x2028
    else if byte_in 0xA9 0xA9 s 2 then Some 0x2029 else None
  else None.

(** [appendString] with [escapeHTML]; [skip] bytes of the current rune are still to be
    copied, or dropped when [drop] is set. *)
Fixpoint encode_runes (drop : bool) (skip : nat) (s : string) : string :=
  match s with
  | "" => ""
  | String c t =>
      match skip with
      | S k => (if drop then "" else String c "") +:+ encode_runes drop k t
      | O =>
          match rune_width s with
          | O => "\ufffd" +:+ encode_runes false 0 t
          | S O => escape_byte c +:+ encode_runes false 0 t
          | S w =>
              match line_separator s with
              | Some v => hex_escape v +:+ encode_runes true w t
              | None => String c (encode_runes false w t)
              end
          end
      end
  end.

Definition encode_string (s : string) : string := quoted (encode_runes false 0 s).

Definition indent (depth : nat) : string := nl +:+ Nat.iter depth (String.append "  ") "".

(** The items of an array or an object, each on a line of its own. *)
Definition block (depth : nat) (l : list string) : string :=
  match l with
  | [] => ""
  | _ => indent (S depth) +:+ Join l ("," +:+ indent (S depth)) +:+ indent depth
  end.

Fixpoint MarshalIndent (depth : nat) (j : json) : string :=
  match j with
  | Null => "null"
  | Bool b => if b then "true" else "false"
  | Num n => n
  | Str s => encode_string s
  | Arr l => "[" +:+ block depth (map (fun v => MarshalIndent (S depth) v) l) +:+ "]"
  | Obj l =>
      "{" +:+ block depth (map (fun '(k, v) => encode_string k +:+ ": " +:+ MarshalIndent (S depth) v) l)
      +:+ "}"
  end.

(** [Marshal(v)]: the same without white space. *)
Fixpoint Marshal (j : json) : string :=
  match j with
  | Null => "null"
  | Bool b => if b then "true" else "false"
  | Num n => n
  | Str s => encode_string s
  | Arr l => "[" +:+ Join (map Marshal l) "," +:+ "]"
  | Obj l => "{" +:+ Join (map (fun '(k, v) => encode_string k +:+ ":" +:+ Marshal v) l) "," +:+ "}"
  end.

(** ** [[]byte]: a string in base 64 ([base64.StdEncoding]) *)

Definition b64_char (v : Z) : ascii :=
  byte_of (if v <? 26 then 65 + v else if v <? 52 then 97 + (v - 26) else if v <? 62 then 48 + (v - 52)
           else if v =? 62 then 43 else 47).

Definition b64_val (c : ascii) : option Z :=
  let v := byte_val c in
  if (65 <=? v) && (v <=? 90) then Some (v - 65)
  else if (97 <=? v) && (v <=? 122) then Some (v - 97 + 26)
  else if (48 <=? v) && (v <=? 57) then Some (v - 48 + 52)
  else if v =? 43 then Some 62 else if v =? 47 then Some 63 else None.

(** The four characters of 24 bits, from the highest. *)
Definition b64_quad (n : Z) : ascii * ascii * ascii * ascii :=
  (b64_char (n / 2 ^ 18), b64_char (n / 2 ^ 12 mod 64), b64_char (n / 2 ^ 6 mod 64), b64_char (n mod 64)).

Fixpoint b64_encode (s : string) : string :=
  match s with
  | String x (String y (String z s')) =>
      let '(a, b, c, d) := b64_quad (byte_val x * 2 ^ 16 + byte_val y * 2 ^ 8 + byte_val z) in
      String a (String b (String c (String d (b64_encode s'))))
  | String x (String y "") =>
      let '(a, b, c, _) := b64_quad (byte_val x * 2 ^ 16 + byte_val y * 2 ^ 8) in String a (String b (String c "="))
  | String x "" =>
      let '(a, b, _, _) := b64_quad (byte_val x * 2 ^ 16) in String a (String b "==")
  | "" => ""
  end.

(** The bytes of three or four digits; the last bits of an incomplete group are not looked at. *)
Fixpoint b64_groups (s : string) : option string :=
  match s with
  | "" => Some ""
  | String a (String b (String c (String d s'))) =>
      b64_val a ≫= fun va =>
      b64_val b ≫= fun vb =>
      if Ascii.eqb c "=" then
        if Ascii.eqb d "=" && String.eqb s' "" then Some (String (byte_of (va * 4 + vb / 16)) "") else None
      else
        b64_val c ≫= fun vc =>
        let b1 := byte_of (va * 4 + vb / 16) in
        let b2 := byte_of (vb * 16 + vc / 4) in
        if Ascii.eqb d "=" then if String.eqb s' "" then Some (String b1 (String b2 "")) else None
        else
          b64_val d ≫= fun vd =>
          b64_groups s' ≫= fun out =>
          Some (String b1 (String b2 (String (byte_of (vc * 64 + vd)) out)))
  | _ => None
  end.

Fixpoint drop_newlines (s : string) : string :=
  match s with
  | "" => ""
  | String c s' => if (byte_val c =? 10) || (byte_val c =? 13) then drop_newlines s' else String c (drop_newlines s')
  end.

Definition b64_decode (s : string) : option string := b64_groups (drop_newlines s).

(** ** Storing a value into a Go variable

    A decoder takes the present value of the variable, which [null] leaves alone;
    [None] is the error that the whole call ends with. *)

Definition decoder (A : Type) : Type := A -> json -> option A.

(** An integer type that holds [lo .. hi]. *)
Definition dec_int (lo hi : Z) : decoder Z := fun cur j =>
  match j with
  | Null => Some cur
  | Num n =>
      match ParseDec n with
      | Some z => if (lo <=? z) && (z <=? hi) then Some z else None
      | None => None
      end
  | _ => None
  end.

Definition dec_int64 : decoder Z := dec_int (- 2 ^ 63) (2 ^ 63 - 1).
(** [strconv.ParseUint] takes no sign, not even before a zero. *)
Definition dec_uint (bits : Z) : decoder Z := fun cur j =>
  match j with
  | Num (String c _) => if Ascii.eqb c "-" then None else dec_int 0 (2 ^ bits - 1) cur j
  | _ => dec_int 0 (2 ^ bits - 1) cur j
  end.

Definition dec_bool : decoder bool := fun cur j =>
  match j with Null => Some cur | Bool b => Some b | _ => None end.

Definition dec_string : decoder string := fun cur j =>
  match j with Null => Some cur | Str s => Some s | _ => None end.

(** A slice: its elements start from the zero value. *)
Definition dec_slice {A} (zero : A) (d : decoder A) : decoder (list A) := fun _ j =>
  match j with Null => Some [] | Arr l => mapM (d zero) l | _ => None end.

(** An array of [n] bytes: elements beyond the array are ignored, and what the text does
    not give is zero. *)
Definition dec_bytes (n : nat) : decoder string := fun cur j =>
  match j with
  | Null => Some cur
  | Arr l =>
      match mapM (fun v => dec_uint 8 0 v) (take n l) with
      | Some zs => Some (fold_right (fun z s => String (byte_of z) s) "" (zs ++ replicate (n - length zs) 0))
      | None => None
      end
  | _ => None
  end.

Definition dec_base64 : decoder string := fun cur j =>
  match j with Null => Some "" | Str s => b64_decode s | _ => None end.

(** A pointer to a struct: a new one where there is none yet. *)
Definition dec_ptr {A} (zero : A) (d : decoder A) : decoder (option A) := fun cur j =>
  match j with
  | Null => Some None
  | _ => match d (default zero cur) j with Some a => Some (Some a) | None => None end
  end.

(** [foldName]: names are compared without case; two runes outside ASCII fold into it. *)
Definition upper (c : ascii) : ascii :=
  let v := byte_val c in if (97 <=? v) && (v <=? 122) then byte_of (v - 32) else c.

Fixpoint fold_name (s : string) : string :=
  match s with
  | String a t =>
      match t with
      | String b u =>
          if (byte_val a =? 0xC5) && (byte_val b =? 0xBF) then String "S" (fold_name u)
          else
            match u with
            | String c v =>
                if (byte_val a =? 0xE2) && (byte_val b =? 0x84) && (byte_val c =? 0xAA)
                then String "K" (fold_name v) else String (upper a) (fold_name t)
            | "" => String (upper a) (fold_name t)
            end
      | "" => String (upper a) ""
      end
  | "" => ""
  end.

(** The fields of a struct: the name of each and what a value for it does. *)
Definition fields (A : Type) : Type := list (string * decoder A).

Fixpoint find_field {A} (fs : fields A) (key : string) : option (decoder A) :=
  match fs with
  | [] => None
  | (name, d) :: fs' => if String.eqb (fold_name name) (fold_name key) then Some d else find_field fs' key
  end.

(** The members in order; [strict] is [DisallowUnknownFields]. *)
Fixpoint dec_members {A} (strict : bool) (fs : fields A) (a : A) (ms : list (string * json)) : option A :=
  match ms with
  | [] => Some a
  | (k, v) :: ms' =>
      match find_field fs k with
      | Some d => match d a v with Some a' => dec_members strict fs a' ms' | None => None end
      | None => if strict then None else dec_members strict fs a ms'
      end
  end.

Definition dec_struct {A} (strict : bool) (fs : fields A) : decoder A := fun a j =>
  match j with Null => Some a | Obj ms => dec_members strict fs a ms | _ => None end.

(** A field reached by a getter and a setter. *)
Definition field {A B} (name : string) (get : A -> B) (set : B -> A -> A) (d : decoder B) : string * decoder A :=
  (name, fun a j => match d (get a) j with Some b => Some (set b a) | None => None end).

(** [json.Unmarshal]: one value and nothing after it. *)
Definition Unmarshal {A} (d : decoder A) (zero : A) (text : string) : result A :=
  match parse_first text with
  | Some (j, rest) =>
      match skip_ws rest, d zero j with
      | "", Some a => Ok a
      | _, _ => Fail (errors_New "json: cannot unmarshal")
      end
  | None => Fail (errors_New "json: invalid character")
  end.

(** [json.NewDecoder(text).Decode]: the first value; what follows it is not read. *)
Definition Decode {A} (d : decoder A) (zero : A) (text : string) : result A :=
  match parse_first text with
  | Some (j, _) =>
      match d zero j with
      | Some a => Ok a
      | None => Fail (errors_New "json: cannot unmarshal")
      end
  | None => Fail (errors_New "json: invalid character")
  end.

(** ** Examples *)

Example parse_ex :
  parse_first (String "{" (quoted "a" +:+ ": [1, -2.5e3 ,true,null ], " +:+ quoted "b\u00e9\n" +:+ ":{}}")) =
  Some (Obj [("a", Arr [Num "1"; Num "-2.5e3"; Bool true; Null]);
             (String "b" (String "195" (String "169" nl)), Obj [])], "").
Proof. vm_compute. reflexivity. Qed.

Example MarshalIndent_ex :
  MarshalIndent 0 (Obj [("v", Num "3"); ("l", Arr [Str "a<b"]); ("e", Arr [])]) =
  "{" +:+ nl +:+ "  " +:+ quoted "v" +:+ ": 3," +:+ nl +:+
  "  " +:+ quoted "l" +:+ ": [" +:+ nl +:+ "    " +:+ quoted "a\u003cb" +:+ nl +:+ "  ]," +:+ nl +:+
  "  " +:+ quoted "e" +:+ ": []" +:+ nl +:+ "}".
Proof. vm_compute. reflexivity. Qed.
