(* ===== verification/JsonSpec.v ===== *)
(** * What is encoded is decoded

    The scanner of [Json] reads back every string the two encoders of the program
    write, every number that [FormatD] prints and every text of the JSON grammar;
    [MarshalIndent] writes such texts. *)

From S2P Require Import Prelude Json.

(** ** Runes *)

(** What a string becomes when it is read rune by rune: the bytes that are no UTF-8 are
    replaced. *)
Fixpoint sanitize (skip : nat) (s : string) : string :=
  match s with
  | "" => ""
  | String c t =>
      match skip with
      | S k => String c (sanitize k t)
      | O =>
          match rune_width s with
          | O => RuneError +:+ sanitize 0 t
          | S w => String c (sanitize w t)
          end
      end
  end.

Definition valid_utf8 (s : string) : bool := String.eqb (sanitize 0 s) s.

Lemma byte_in_len lo hi s i : byte_in lo hi s i = true -> (i < slen s)%nat.
Proof.
  unfold byte_in, sget. revert i. induction s as [|c s IH]; intros i; [done|].
  destruct i as [|i]; simpl; [lia|]. intros H. apply IH in H. lia.
Qed.

Lemma sget_stake n s x i : (i < n)%nat -> (n <= slen s)%nat -> sget (stake n s +:+ x) i = sget s i.
Proof.
  unfold sget. revert s i. induction n as [|n IH]; intros [|c s] i Hi Hn; simpl in *; try lia.
  destruct i as [|i]; [done|]. apply IH; lia.
Qed.

Lemma byte_in_stake lo hi n s x i :
  (i < n)%nat -> (n <= slen s)%nat -> byte_in lo hi (stake n s +:+ x) i = byte_in lo hi s i.
Proof. intros Hi Hn. unfold byte_in. by rewrite sget_stake. Qed.

(** The width of a rune is decided by its own bytes. *)
Lemma rune_width_stake s w x : rune_width s = S w ->
  (S w <= slen s)%nat /\ rune_width (stake (S w) s +:+ x) = S w.
Proof.
  unfold rune_width.
  destruct (byte_in 0 0x7F s 0) eqn:E1.
  { intros [= <-]. pose proof (byte_in_len _ _ _ _ E1). split; [lia|]. by rewrite byte_in_stake, E1 by lia. }
  destruct (byte_in 0xC2 0xDF s 0 && byte_in 0x80 0xBF s 1) eqn:E2.
  { intros [= <-]. apply andb_true_iff in E2 as E. destruct E as [_ E]. pose proof (byte_in_len _ _ _ _ E).
    split; [lia|]. by rewrite !byte_in_stake, E1, E2 by lia. }
  destruct (_ && byte_in 0x80 0xBF s 2) eqn:E3.
  { intros [= <-]. apply andb_true_iff in E3 as E. destruct E as [_ E]. pose proof (byte_in_len _ _ _ _ E).
    split; [lia|]. by rewrite !byte_in_stake, E1, E2, E3 by lia. }
  destruct (_ && byte_in 0x80 0xBF s 3) eqn:E4; [|done].
  intros [= <-]. apply andb_true_iff in E4 as E. destruct E as [_ E]. pose proof (byte_in_len _ _ _ _ E).
  split; [lia|]. by rewrite !byte_in_stake, E1, E2, E3, E4 by lia.
Qed.

(** A rune of several bytes starts with a byte that is no quote, escape or control. *)
Lemma rune_width_lead c t w : rune_width (String c t) = S (S w) -> 0xC2 <= byte_val c.
Proof.
  unfold rune_width, byte_in at 1 2 4 6 8 10 13 15 17. cbn [sget String.get].
  destruct (Z.leb_spec 0xC2 (byte_val c)) as [|Hlt]; [done|]. intros H.
  repeat match type of H with context [?a <=? byte_val c] =>
    lazymatch a with 0 => fail | _ => replace (a <=? byte_val c) with false in H by (symmetry; apply Z.leb_gt; lia) end end.
  simpl in H. by destruct ((0 <=? byte_val c) && (byte_val c <=? 127)).
Qed.

Lemma rune_width_one c t : rune_width (String c t) = 1%nat -> byte_val c < 128.
Proof.
  unfold rune_width at 1. destruct (byte_in 0 0x7F (String c t) 0) eqn:E.
  - intros _. unfold byte_in in E. cbn in E. lia.
  - destruct (_ && byte_in 0x80 0xBF (String c t) 1); [done|]. destruct (_ && _); [done|]. by destruct (_ && _).
Qed.

Lemma emit_emit a b r : emit a (emit b r) = emit (a +:+ b) r.
Proof. destruct r as [[s rest]|]; [|done]. cbn [emit]. by rewrite sapp_assoc. Qed.

(** Scanning the bytes that a rune has left. *)
Lemma scan_copy n s x : (n <= slen s)%nat -> scan_body n (stake n s +:+ x) = emit (stake n s) (scan_body 0 x).
Proof.
  revert s. induction n as [|n IH]; intros s Hn.
  - destruct s; simpl; by destruct (scan_body 0 x) as [[]|].
  - destruct s as [|c s]; [simpl in Hn; lia|]. simpl in Hn. cbn [stake String.append scan_body].
    change (String c (stake n s) +:+ x) with (String c (stake n s +:+ x)). cbn [scan_body].
    rewrite IH by lia. by rewrite emit_emit.
Qed.

Lemma scan_rune s w x : rune_width s = S (S w) ->
  scan_body 0 (stake (S (S w)) s +:+ x) = emit (stake (S (S w)) s) (scan_body 0 x).
Proof.
  intros Hw. destruct (rune_width_stake s (S w) x Hw) as [Hlen Hx]. destruct s as [|c s]; [done|].
  pose proof (rune_width_lead c s w Hw) as Hc. simpl in Hlen.
  change (stake (S (S w)) (String c s)) with (String c (stake (S w) s)) in *.
  change (String c (stake (S w) s) +:+ x) with (String c (stake (S w) s +:+ x)) in *.
  cbn [scan_body]. rewrite Hx.
  destruct (Ascii.eqb_spec c dq) as [->|_]; [exfalso; by vm_compute in Hc|].
  destruct (Z.ltb_spec (byte_val c) 32); [lia|].
  destruct (Ascii.eqb_spec c "\") as [->|_]; [exfalso; by vm_compute in Hc|].
  rewrite scan_copy by lia. by rewrite emit_emit.
Qed.

Lemma scan_RuneError x : scan_body 0 (RuneError +:+ x) = emit RuneError (scan_body 0 x).
Proof. exact (scan_rune RuneError 1 x eq_refl). Qed.

(** Every byte below 128 comes back from the escape the library writes for it. *)
Lemma scan_escape_byte c x : byte_val c < 128 ->
  scan_body 0 (escape_byte c +:+ x) = emit (String c "") (scan_body 0 x).
Proof.
  destruct c as [[] [] [] [] [] [] [] []]; intros Hc;
    first [exfalso; by vm_compute in Hc | reflexivity].
Qed.

Lemma scan_ufffd x : scan_body 0 ("\ufffd" +:+ x) = emit RuneError (scan_body 0 x).
Proof. reflexivity. Qed.

Lemma sanitize_copy n s : (n <= slen s)%nat -> sanitize n s = stake n s +:+ sanitize 0 (sdrop n s).
Proof.
  revert s. induction n as [|n IH]; intros [|c s] Hn; try done.
  simpl in Hn. cbn [sanitize stake sdrop String.append]. by rewrite IH by lia.
Qed.

Lemma sanitize_rune s w : rune_width s = S w -> sanitize 0 s = stake (S w) s +:+ sanitize 0 (sdrop (S w) s).
Proof.
  intros Hw. destruct (rune_width_stake s w "" Hw) as [Hlen _]. destruct s as [|c s]; [done|]. simpl in Hlen.
  cbn [sanitize]. rewrite Hw, sanitize_copy by lia. done.
Qed.

Lemma encode_copy drop n s : (n <= slen s)%nat ->
  encode_runes drop n s = (if drop then "" else stake n s) +:+ encode_runes false 0 (sdrop n s).
Proof.
  revert s. induction n as [|n IH]; intros [|c s] Hn; try (by destruct drop).
  simpl in Hn. cbn [encode_runes stake sdrop]. rewrite IH by lia. by destruct drop.
Qed.

Lemma scan_hex_escape_separator v x : v = 0x2028 \/ v = 0x2029 ->
  scan_body 0 (hex_escape v +:+ x) = emit (utf8_encode v) (scan_body 0 x).
Proof. by intros [-> | ->]. Qed.

Lemma byte_in_exact v s i : byte_in v v s i = true -> 0 <= v < 256 -> sget s i = Some (byte_of v).
Proof.
  unfold byte_in. destruct (sget s i) as [c|]; [|done]. intros H Hv. f_equal.
  rewrite andb_true_iff, !Z.leb_le in H. rewrite <- (byte_of_val c). f_equal. lia.
Qed.

Lemma line_separator_bytes s v : line_separator s = Some v ->
  (v = 0x2028 \/ v = 0x2029) /\ stake 3 s = utf8_encode v /\ rune_width s = 3%nat.
Proof.
  unfold line_separator. destruct (_ && _) eqn:E; [|done]. apply andb_true_iff in E as [E0 E1].
  apply byte_in_exact in E0; [|lia]. apply byte_in_exact in E1; [|lia].
  assert (H : forall z, byte_in z z s 2 = true -> 0 <= z < 256 ->
    stake 3 s = String (byte_of 0xE2) (String (byte_of 0x80) (String (byte_of z) "")) /\
    exists r, s = String (byte_of 0xE2) (String (byte_of 0x80) (String (byte_of z) r))).
  { intros z Hz Hr. apply byte_in_exact in Hz; [|done]. unfold sget in *.
    destruct s as [|a [|b [|c r]]]; simpl in *; try done. injection E0 as ->. injection E1 as ->. injection Hz as ->.
    split; [by destruct r|by exists r]. }
  destruct (byte_in 0xA8 0xA8 s 2) eqn:E2; [|destruct (byte_in 0xA9 0xA9 s 2) eqn:E3; [|done]]; intros [= <-].
  - destruct (H 0xA8 E2) as [-> [r ->]]; [lia|]. split_and!; [by left|reflexivity..].
  - destruct (H 0xA9 E3) as [-> [r ->]]; [lia|]. split_and!; [by right|reflexivity..].
Qed.

(** The library's strings are read back, up to the bytes that are no UTF-8. *)
Lemma scan_encode_runes s x :
  scan_body 0 (encode_runes false 0 s +:+ String dq x) = Some (sanitize 0 s, x).
Proof.
  induction s as [s IH] using (induction_ltof1 _ slen). unfold ltof in IH. destruct s as [|c t]; [done|].
  cbn [encode_runes]. destruct (rune_width (String c t)) as [|[|w]] eqn:Hw.
  - rewrite sapp_assoc, scan_ufffd, IH by (simpl; lia). cbn [emit sanitize]. by rewrite Hw.
  - rewrite sapp_assoc, scan_escape_byte, IH by (simpl; lia || by apply (rune_width_one c t)).
    cbn [emit]. by rewrite (sanitize_rune _ _ Hw).
  - destruct (rune_width_stake _ _ "" Hw) as [Hlen _]. simpl in Hlen.
    assert (Hrest : scan_body 0 (encode_runes false 0 (sdrop (S w) t) +:+ String dq x)
                    = Some (sanitize 0 (sdrop (S w) t), x)).
    { apply IH. rewrite slen_drop. simpl. lia. }
    rewrite (sanitize_rune _ _ Hw). destruct (line_separator (String c t)) as [v|] eqn:Hls.
    + apply line_separator_bytes in Hls as (Hv & Hst & Hw3). rewrite Hw in Hw3. injection Hw3 as ->.
      rewrite encode_copy, sapp_assoc, scan_hex_escape_separator by (lia || done). cbn [String.append].
      rewrite Hrest. cbn [emit]. by rewrite Hst.
    + rewrite encode_copy by lia.
      replace (String c (stake (S w) t +:+ encode_runes false 0 (sdrop (S w) t)) +:+ String dq x)
        with (stake (S (S w)) (String c t) +:+ encode_runes false 0 (sdrop (S w) t) +:+ String dq x)
        by (cbn [stake String.append]; by rewrite sapp_assoc).
      rewrite scan_rune by done. by rewrite Hrest.
Qed.

(** ** Numbers *)

(** What may follow a number in a text. *)
Definition delim (rest : string) : Prop :=
  match rest with
  | "" => True
  | String c _ => is_digit c = false /\ Ascii.eqb c "." = false /\ Ascii.eqb c "e" = false /\ Ascii.eqb c "E" = false
  end.

Definition number_ok (n : string) : Prop :=
  n <> "" /\ (forall c r, n = String c r -> is_digit c = true \/ c = "-"%char) /\
  forall rest, delim rest -> scan_number (n +:+ rest) = Some (n, rest).

Lemma span_digits_app d rest : sall is_digit d = true -> delim rest -> span_digits (d +:+ rest) = (d, rest).
Proof.
  induction d as [|c d IH]; intros Hd Hr.
  - destruct rest as [|c r]; [done|]. destruct Hr as [Hc _]. cbn. by rewrite Hc.
  - cbn [sall] in Hd. apply andb_true_iff in Hd as [Hc Hd]. cbn. by rewrite Hc, IH.
Qed.

Lemma scan_integer_app c d rest :
  sall is_digit (String c d) = true -> (c = "0"%char -> d = "") -> delim rest ->
  scan_integer (String c d +:+ rest) = Some (String c d, rest).
Proof.
  intros Hd Hz Hr. unfold scan_integer. rewrite span_digits_app by done.
  destruct (Ascii.eqb_spec c "0") as [->|]; [|done]. by rewrite Hz.
Qed.

Lemma scan_tail_delim rest : delim rest -> scan_fraction rest = Some ("", rest) /\ scan_exponent rest = Some ("", rest).
Proof. destruct rest as [|c r]; [done|]. intros (_ & H1 & H2 & H3). cbn. by rewrite H1, H2, H3. Qed.

Lemma FormatD_number n : number_ok (FormatD n).
Proof.
  assert (Hpos : forall n, 0 <= n -> forall sign rest, delim rest ->
    match scan_integer (FormatD n +:+ rest) with
    | None => None
    | Some (i, s) =>
        match scan_fraction s with
        | None => None
        | Some (f, s) =>
            match scan_exponent s with
            | None => None
            | Some (e, s) => Some (sign +:+ i +:+ f +:+ e, s)
            end
        end
    end = Some (sign +:+ FormatD n, rest)).
  { intros m Hm sign rest Hr. destruct (FormatD_digits m Hm) as (c & d & -> & Hd & Hz & _).
    rewrite scan_integer_app by done. destruct (scan_tail_delim rest Hr) as [-> ->]. by rewrite !sapp_nil_r. }
  destruct (Z.lt_ge_cases n 0) as [Hn|Hn].
  - rewrite FormatD_neg by done. split_and!; [done|intros c r [= <- <-]; by right|]. intros rest Hr.
    unfold scan_number. cbn [String.append]. rewrite Ascii.eqb_refl. apply (Hpos (- n)); [lia|done].
  - specialize (Hpos n Hn ""). destruct (FormatD_digits n Hn) as (c & d & E & Hd & Hz & _).
    rewrite E in *. cbn [sall] in Hd. apply andb_true_iff in Hd as [Hc _].
    split_and!; [done|intros c' r [= <- <-]; by left|]. intros rest Hr. unfold scan_number. cbn [String.append].
    destruct (Ascii.eqb_spec c "-") as [->|_]; [done|]. by apply Hpos.
Qed.

(** ** Texts of the grammar *)

Definition ws (s : string) : Prop := sall is_ws s = true.

(** [s] between quotes denotes [v]. *)
Definition body_of (s v : string) : Prop := forall x, scan_body 0 (s +:+ String dq x) = Some (v, x).

Inductive denotes : json -> string -> Prop :=
  | D_null : denotes Null "null"
  | D_true : denotes (Bool true) "true"
  | D_false : denotes (Bool false) "false"
  | D_num n : number_ok n -> denotes (Num n) n
  | D_str s v : body_of s v -> denotes (Str v) (quoted s)
  | D_arr_nil w : ws w -> denotes (Arr []) ("[" +:+ w +:+ "]")
  | D_arr l t : elems l t -> denotes (Arr l) ("[" +:+ t +:+ "]")
  | D_obj_nil w : ws w -> denotes (Obj []) ("{" +:+ w +:+ "}")
  | D_obj l t : members l t -> denotes (Obj l) ("{" +:+ t +:+ "}")
with elems : list json -> string -> Prop :=
  | E_one w v t w' : ws w -> denotes v t -> ws w' -> elems [v] (w +:+ t +:+ w')
  | E_cons w v t w' l u : ws w -> denotes v t -> ws w' -> elems l u -> elems (v :: l) (w +:+ t +:+ w' +:+ "," +:+ u)
with members : list (string * json) -> string -> Prop :=
  | M_one w k kv w1 w2 v t w' :
      ws w -> body_of k kv -> ws w1 -> ws w2 -> denotes v t -> ws w' ->
      members [(kv, v)] (w +:+ quoted k +:+ w1 +:+ ":" +:+ w2 +:+ t +:+ w')
  | M_cons w k kv w1 w2 v t w' l u :
      ws w -> body_of k kv -> ws w1 -> ws w2 -> denotes v t -> ws w' -> members l u ->
      members ((kv, v) :: l) (w +:+ quoted k +:+ w1 +:+ ":" +:+ w2 +:+ t +:+ w' +:+ "," +:+ u).

Scheme denotes_mut := Induction for denotes Sort Prop
with elems_mut := Induction for elems Sort Prop
with members_mut := Induction for members Sort Prop.
Combined Scheme denotes_elems_members from denotes_mut, elems_mut, members_mut.

Lemma skip_ws_app w s : ws w -> skip_ws (w +:+ s) = skip_ws s.
Proof.
  unfold ws. induction w as [|c w IH]; [done|]. cbn [sall]. intros [Hc Hw]%andb_true_iff. cbn. by rewrite Hc, IH.
Qed.

Lemma skip_ws_stop c s : is_ws c = false -> skip_ws (String c s) = String c s.
Proof. intros H. cbn. by rewrite H. Qed.

(** No value starts with a blank, a comma or a closing bracket. *)
Definition opens_value (t : string) : Prop :=
  exists c r, t = String c r /\ is_ws c = false /\ c <> "]"%char /\ c <> "}"%char /\ c <> ","%char.

Lemma denotes_opens v t : denotes v t -> opens_value t.
Proof.
  destruct 1 as [ | | |n [Hne [Hc _]]| | | | | ]; try (eexists _, _; split; [reflexivity|split_and!; [reflexivity|done..]]).
  destruct n as [|c r]; [done|]. exists c, r. split; [done|].
  destruct (Hc c r eq_refl) as [Hd| ->]; [|by split_and!]. unfold is_digit, is_ws in *.
  split_and!; [lia|intros ->; vm_compute in Hd; done..].
Qed.

Lemma ws_delim w c s : ws w -> is_digit c = false -> Ascii.eqb c "." = false -> Ascii.eqb c "e" = false ->
  Ascii.eqb c "E" = false -> delim (w +:+ String c s).
Proof.
  destruct w as [|d w]; [done|]. unfold ws. cbn [sall]. intros [Hd _]%andb_true_iff _ _ _ _. cbn.
  split_and!; [unfold is_ws, is_digit in *; lia|..];
    apply not_true_iff_false; intros ->%Ascii.eqb_eq; by vm_compute in Hd.
Qed.

Lemma elems_opens l t : elems l t -> exists w u, t = w +:+ u /\ ws w /\ opens_value u.
Proof.
  assert (H : forall a b, opens_value a -> opens_value (a +:+ b)).
  { intros a b (c & r & -> & Hc). by exists c, (r +:+ b). }
  destruct 1 as [w v t w' Hw Hd _|w v t w' l u Hw Hd _ _]; eexists w, _;
    (split; [reflexivity|split; [done|apply H; by eapply denotes_opens]]).
Qed.

Lemma members_opens l t : members l t -> exists w u, t = w +:+ String dq u /\ ws w.
Proof.
  destruct 1 as [w k kv w1 w2 v t w' Hw|w k kv w1 w2 v t w' l u Hw]; eexists w, _; (split; [reflexivity|done]).
Qed.

Lemma scan_literal_number n rest : number_ok n -> delim rest -> scan_literal (n +:+ rest) = Some (Num n, rest).
Proof.
  intros (Hne & Hc & Hs) Hr. unfold scan_literal.
  assert (Hp : forall c p, is_digit c = false -> c <> "-"%char -> HasPrefix (n +:+ rest) (String c p) = false).
  { intros c p H1 H2. destruct n as [|d r]; [done|]. change (String d r +:+ rest) with (String d (r +:+ rest)).
    rewrite HasPrefix_cons. destruct (Hc d r eq_refl) as [Hd| ->].
    - destruct (Ascii.eqb_spec c d) as [->|]; [congruence|done].
    - by destruct (Ascii.eqb_spec c "-") as [->|]. }
  rewrite !Hp by done. by rewrite Hs.
Qed.

Lemma scan_key_app w k kv w1 x : ws w -> body_of k kv -> ws w1 ->
  scan_key (w +:+ quoted k +:+ w1 +:+ ":" +:+ x) = Some (kv, x).
Proof.
  intros Hw Hk Hw1. unfold scan_key. rewrite skip_ws_app by done. unfold quoted. cbn [String.append].
  rewrite skip_ws_stop, Ascii.eqb_refl, sapp_assoc by done. cbn [String.append]. rewrite Hk, skip_ws_app by done.
  by rewrite skip_ws_stop.
Qed.

Definition parses (v : json) (t : string) : Prop := forall rest w f,
  delim rest -> ws w -> (2 * slen t + 1 <= f)%nat -> parse_value f (w +:+ t +:+ rest) = Some (v, rest).
Definition parses_elems (l : list json) (t : string) : Prop := forall rest f,
  (2 * slen t + 2 <= f)%nat -> parse_elems f (t +:+ "]" +:+ rest) = Some (l, rest).
Definition parses_members (l : list (string * json)) (t : string) : Prop := forall rest f,
  (2 * slen t + 2 <= f)%nat -> parse_members f (t +:+ "}" +:+ rest) = Some (l, rest).

Lemma parse_str s v : body_of s v -> parses (Str v) (quoted s).
Proof.
  intros Hb rest w [|f] _ Hw Hf; [lia|]. cbn [parse_value]. rewrite skip_ws_app by done. unfold quoted.
  cbn [String.append]. rewrite skip_ws_stop, Ascii.eqb_refl, sapp_assoc by done. cbn [String.append]. by rewrite Hb.
Qed.

Lemma parse_literal v t : opens_value t ->
  (forall c r, t = String c r -> c <> dq /\ c <> "["%char /\ c <> "{"%char) ->
  (forall rest, delim rest -> scan_literal (t +:+ rest) = Some (v, rest)) -> parses v t.
Proof.
  intros (c & r & -> & Hws & _) Hc Hs rest w [|f] Hr Hw Hf; [lia|]. cbn [parse_value]. rewrite skip_ws_app by done.
  change (String c r +:+ rest) with (String c (r +:+ rest)). rewrite skip_ws_stop by done.
  destruct (Hc c r eq_refl) as (H1 & H2 & H3). apply Ascii.eqb_neq in H1, H2, H3. rewrite H1, H2, H3. by apply Hs.
Qed.

Lemma parse_array l t : elems l t -> parses_elems l t -> parses (Arr l) ("[" +:+ t +:+ "]").
Proof.
  intros He IH rest w [|f] _ Hw Hf; [lia|]. rewrite slen_app, slen_app in Hf. simpl in Hf.
  cbn [parse_value]. rewrite skip_ws_app by done. cbn [String.append]. rewrite skip_ws_stop by done.
  change (Ascii.eqb "[" dq) with false. rewrite Ascii.eqb_refl, sapp_assoc. cbv beta iota.
  rewrite IH by lia. destruct (elems_opens l t He) as (w' & u & -> & Hw' & c & r & -> & Hc & Hn & _).
  rewrite sapp_assoc, skip_ws_app by done. cbn [String.append]. rewrite skip_ws_stop by done.
  apply Ascii.eqb_neq in Hn. by rewrite Hn.
Qed.

Lemma parse_object l t : members l t -> parses_members l t -> parses (Obj l) ("{" +:+ t +:+ "}").
Proof.
  intros He IH rest w [|f] _ Hw Hf; [lia|]. rewrite slen_app, slen_app in Hf. simpl in Hf.
  cbn [parse_value]. rewrite skip_ws_app by done. cbn [String.append]. rewrite skip_ws_stop by done.
  change (Ascii.eqb "{" dq) with false. change (Ascii.eqb "{" "[") with false. rewrite Ascii.eqb_refl, sapp_assoc.
  cbv beta iota. rewrite IH by lia. destruct (members_opens l t He) as (w' & u & -> & Hw').
  rewrite sapp_assoc, skip_ws_app by done. cbn [String.append]. by rewrite skip_ws_stop.
Qed.

Lemma parse_empty w0 (c d : ascii) v : ws w0 ->
  (forall f t r, skip_ws t = String d r -> parse_value (S f) (String c t) = Some (v, r)) ->
  is_ws c = false -> is_ws d = false -> parses v (String c "" +:+ w0 +:+ String d "").
Proof.
  intros Hw0 Hp Hc Hd rest w [|f] _ Hw Hf; [lia|].
  assert (E : parse_value (S f) (w +:+ (String c "" +:+ w0 +:+ String d "") +:+ rest) =
              parse_value (S f) (String c (w0 +:+ String d rest))).
  { cbn [parse_value]. rewrite skip_ws_app by done. cbn [String.append]. rewrite !skip_ws_stop by done.
    by rewrite sapp_assoc. }
  rewrite E. apply Hp. rewrite skip_ws_app by done. by rewrite skip_ws_stop.
Qed.

Lemma parse_elem w v t w' (c : ascii) x f : ws w -> parses v t -> ws w' -> c = "]"%char \/ c = "}"%char \/ c = ","%char ->
  (2 * slen t + 1 <= f)%nat ->
  parse_value f (w +:+ t +:+ w' +:+ String c x) = Some (v, w' +:+ String c x) /\
  skip_ws (w' +:+ String c x) = String c x.
Proof.
  intros Hw Hv Hw' Hc Hf. split.
  - apply Hv; [|done..]. by destruct Hc as [->|[->| ->]]; apply ws_delim.
  - rewrite skip_ws_app by done. by destruct Hc as [->|[->| ->]].
Qed.

(** Every text of the grammar is parsed to the value it denotes. *)
Lemma parse_grammar :
  (forall v t, denotes v t -> parses v t) /\
  (forall l t, elems l t -> parses_elems l t) /\
  (forall l t, members l t -> parses_members l t).
Proof.
  assert (Hlit : forall v (t : string), opens_value t -> (forall c r, t = String c r -> c <> dq /\ c <> "["%char /\ c <> "{"%char) ->
    (forall rest, scan_literal (t +:+ rest) = Some (v, rest)) -> parses v t) by (intros; by apply parse_literal).
  assert (Hkw : forall c r, is_ws c = false -> c <> "]"%char -> c <> "}"%char -> c <> ","%char -> opens_value (String c r)).
  { intros c r H1 H2 H3 H4. by exists c, r. }
  apply denotes_elems_members.
  - apply Hlit; [by apply Hkw|intros c r [= <- <-]; split_and!; by apply Ascii.eqb_neq|intros rest; unfold scan_literal; cbn [String.append]; by rewrite !HasPrefix_cons, ?HasPrefix_nil].
  - apply Hlit; [by apply Hkw|intros c r [= <- <-]; split_and!; by apply Ascii.eqb_neq|intros rest; unfold scan_literal; cbn [String.append]; by rewrite !HasPrefix_cons, ?HasPrefix_nil].
  - apply Hlit; [by apply Hkw|intros c r [= <- <-]; split_and!; by apply Ascii.eqb_neq|intros rest; unfold scan_literal; cbn [String.append]; by rewrite !HasPrefix_cons, ?HasPrefix_nil].
  - intros n Hn. apply parse_literal; [by eapply denotes_opens, D_num| |intros; by apply scan_literal_number].
    intros c r ->. destruct Hn as (_ & Hc & _). destruct (Hc c r eq_refl) as [Hd| ->]; [|split_and!; by apply Ascii.eqb_neq].
    split_and!; intros ->; vm_compute in Hd; done.
  - intros s v Hb. by apply parse_str.
  - intros w Hw. apply (parse_empty w "[" "]"); [done| |done..]. intros f t r E. cbn [parse_value].
    rewrite skip_ws_stop by done. change (Ascii.eqb "[" dq) with false. rewrite Ascii.eqb_refl. cbv beta iota. by rewrite E.
  - intros l t He IH. by apply parse_array.
  - intros w Hw. apply (parse_empty w "{" "}"); [done| |done..]. intros f t r E. cbn [parse_value].
    rewrite skip_ws_stop by done. change (Ascii.eqb "{" dq) with false. change (Ascii.eqb "{" "[") with false.
    rewrite Ascii.eqb_refl. cbv beta iota. by rewrite E.
  - intros l t He IH. by apply parse_object.
  - intros w v t w' Hw Hd IH Hw' rest [|f] Hf; [lia|]. rewrite !slen_app in Hf. cbn [parse_elems]. rewrite !sapp_assoc.
    cbn [String.append]. destruct (parse_elem w v t w' "]" rest f) as [-> E]; [done..|by left|lia|]. by rewrite E.
  - intros w v t w' l u Hw Hd IH Hw' He IHe rest [|f] Hf; [lia|]. rewrite !slen_app in Hf. simpl in Hf.
    cbn [parse_elems]. rewrite !sapp_assoc.
    cbn [String.append]. destruct (parse_elem w v t w' "," (u +:+ String "]" rest) f) as [E1 E2]; [done..|by right; right|lia|].
    rewrite E1, E2. cbv beta iota. change (Ascii.eqb "," "]") with false.
    rewrite Ascii.eqb_refl. change (String "]" rest) with ("]" +:+ rest). by rewrite IHe by lia.
  - intros w k kv w1 w2 v t w' Hw Hk Hw1 Hw2 Hd IH Hw' rest [|f] Hf; [lia|]. rewrite !slen_app in Hf.
    cbn [parse_members]. rewrite !sapp_assoc, (scan_key_app w k kv) by done.
    cbn [String.append]. destruct (parse_elem w2 v t w' "}" rest f) as [E1 E2]; [done..|by right; left|lia|].
    by rewrite E1, E2.
  - intros w k kv w1 w2 v t w' l u Hw Hk Hw1 Hw2 Hd IH Hw' Hm IHm rest [|f] Hf; [lia|].
    rewrite !slen_app in Hf. simpl in Hf. cbn [parse_members]. rewrite !sapp_assoc, (scan_key_app w k kv) by done.
    cbn [String.append]. destruct (parse_elem w2 v t w' "," (u +:+ String "}" rest) f) as [E1 E2]; [done..|by right; right|lia|].
    rewrite E1, E2. cbv beta iota. change (Ascii.eqb "," "}") with false.
    rewrite Ascii.eqb_refl. change (String "}" rest) with ("}" +:+ rest). by rewrite IHm by lia.
Qed.

Lemma parse_denotes v t rest : denotes v t -> delim rest -> parse_first (t +:+ rest) = Some (v, rest).
Proof.
  intros Hd Hr. apply (proj1 parse_grammar v t Hd rest ""); [done..|]. unfold parse_fuel. rewrite slen_app. lia.
Qed.

(** ** What [MarshalIndent] writes *)

(** Induction over values, with the hypothesis for every element and member. *)
Section json_induction.
Context (P : json -> Prop) (HNull : P Null) (HBool : forall b, P (Bool b)) (HNum : forall n, P (Num n))
  (HStr : forall s, P (Str s)) (HArr : forall l, Forall P l -> P (Arr l))
  (HObj : forall l, Forall (fun kv => P kv.2) l -> P (Obj l)).

Fixpoint json_induction (j : json) : P j :=
  match j with
  | Null => HNull
  | Bool b => HBool b
  | Num n => HNum n
  | Str s => HStr s
  | Arr l => HArr l (list_ind (Forall P) (Forall_nil_2 P) (fun v l' H => Forall_cons_2 P v l' (json_induction v) H) l)
  | Obj l =>
      HObj l ((fix go (l : list (string * json)) : Forall (fun kv => P kv.2) l :=
                 match l with
                 | [] => Forall_nil_2 _
                 | (k, v) :: l' => Forall_cons_2 _ (k, v) l' (json_induction v) (go l')
                 end) l)
  end.
End json_induction.

(** The strings are UTF-8 and the numbers are numbers. *)
Fixpoint clean (j : json) : Prop :=
  match j with
  | Num n => number_ok n
  | Str s => valid_utf8 s = true
  | Arr l => fold_right (fun v Q => clean v /\ Q) True l
  | Obj l => fold_right (fun '(k, v) Q => (valid_utf8 k = true /\ clean v) /\ Q) True l
  | _ => True
  end.

Lemma clean_arr l : clean (Arr l) <-> Forall clean l.
Proof. induction l as [|v l IH]; cbn; [done|]. rewrite Forall_cons. by rewrite <- IH. Qed.

Lemma clean_obj l : clean (Obj l) <-> Forall (fun '(k, v) => valid_utf8 k = true /\ clean v) l.
Proof. induction l as [|[k v] l IH]; cbn; [done|]. rewrite Forall_cons. by rewrite <- IH. Qed.

Lemma encode_body s : valid_utf8 s = true -> body_of (encode_runes false 0 s) s.
Proof. intros Hv%String.eqb_eq x. by rewrite scan_encode_runes, Hv. Qed.

Lemma ws_app a b : ws a -> ws b -> ws (a +:+ b).
Proof. unfold ws. rewrite sall_app. intros -> ->. done. Qed.

Lemma ws_indent d : ws (indent d).
Proof. apply ws_app; [done|]. induction d as [|d IH]; [done|]. cbn [Nat.iter]. by apply ws_app. Qed.

(** Elements and members laid out one after the other, [w] before each of them. *)
Lemma elems_block w w' (l : list (json * string)) :
  ws w -> ws w' -> l <> [] -> Forall (fun vt => denotes vt.1 vt.2) l ->
  elems (map fst l) (w +:+ Join (map snd l) ("," +:+ w) +:+ w').
Proof.
  intros Hw Hw' Hne Hl. induction Hl as [|[v t] l Hv Hl IH]; [done|]. cbn [fst snd] in Hv.
  destruct l as [|vt2 l]; [by apply E_one|]. cbn [map fst snd] in *. rewrite Join_cons2.
  pose proof (E_cons w v t "" _ _ Hw Hv eq_refl (IH ltac:(done))) as H.
  rewrite !sapp_assoc. rewrite ?sapp_assoc in H. exact H.
Qed.

Definition member_sep (sp : string) (body_text : string * string) : string := quoted body_text.1 +:+ ":" +:+ sp +:+ body_text.2.

Lemma members_sep sp w w' (l : list ((string * json) * (string * string))) :
  ws sp -> ws w -> ws w' -> l <> [] ->
  Forall (fun '((k, v), (b, t)) => body_of b k /\ denotes v t) l ->
  members (map fst l) (w +:+ Join (map (fun x => member_sep sp x.2) l) ("," +:+ w) +:+ w').
Proof.
  intros Hsp Hw Hw' Hne Hl. induction Hl as [|[[k v] [b t]] l [Hk Hv] Hl IH]; [done|].
  destruct l as [|kv2 l].
  - pose proof (M_one w b k "" sp v t w' Hw Hk eq_refl Hsp Hv Hw') as H. cbn [map Join].
    unfold member_sep. cbn [fst snd]. rewrite !sapp_assoc. rewrite ?sapp_assoc in H. exact H.
  - specialize (IH ltac:(done)). cbn [map fst] in *. rewrite Join_cons2.
    pose proof (M_cons w b k "" sp v t "" _ _ Hw Hk eq_refl Hsp Hv eq_refl IH) as H.
    unfold member_sep at 1. cbn [fst snd]. rewrite !sapp_assoc. rewrite ?sapp_assoc in H. exact H.
Qed.

Abbreviation member_text := (member_sep " ").

Lemma members_block w w' (l : list ((string * json) * (string * string))) :
  ws w -> ws w' -> l <> [] ->
  Forall (fun '((k, v), (b, t)) => body_of b k /\ denotes v t) l ->
  members (map fst l) (w +:+ Join (map (fun x => member_text x.2) l) ("," +:+ w) +:+ w').
Proof. intros. by apply members_sep. Qed.

Lemma MarshalIndent_denotes j : clean j -> forall depth, denotes j (MarshalIndent depth j).
Proof.
  induction j as [|[]|n|s|l IH|l IH] using json_induction; intros Hc depth; cbn [MarshalIndent].
  - constructor.
  - constructor.
  - constructor.
  - by apply D_num.
  - by apply D_str, encode_body.
  - apply clean_arr in Hc. destruct l as [|v l]; [by apply (D_arr_nil "")|]. apply D_arr.
    pose proof (elems_block (indent (S depth)) (indent depth) (map (fun v => (v, MarshalIndent (S depth) v)) (v :: l))
      (ws_indent _) (ws_indent _) ltac:(done)) as H. rewrite !map_map, map_id in H. apply H.
    apply Forall_map. rewrite !Forall_forall in *. naive_solver.
  - apply clean_obj in Hc. destruct l as [|v l]; [by apply (D_obj_nil "")|]. apply D_obj.
    pose proof (members_block (indent (S depth)) (indent depth)
      (map (fun kv => (kv, (encode_runes false 0 kv.1, MarshalIndent (S depth) kv.2))) (v :: l))
      (ws_indent _) (ws_indent _) ltac:(done)) as H. rewrite !map_map, map_id in H.
    replace (map (fun '(k, v0) => encode_string k +:+ ": " +:+ MarshalIndent (S depth) v0) (v :: l)) with
      (map (fun x => member_text (encode_runes false 0 x.1, MarshalIndent (S depth) x.2)) (v :: l))
      by (apply map_ext; by intros []).
    apply H, Forall_map. rewrite !Forall_forall in *. intros [k x] Hin. cbn.
    destruct (Hc _ Hin) as [Hk Hx]. split; [by apply encode_body|]. by apply (IH _ Hin).
Qed.

(** A value comes back from its text, from either entry point. *)
Lemma Decode_MarshalIndent {A} (d : decoder A) zero j a :
  clean j -> d zero j = Some a -> Decode d zero (MarshalIndent 0 j) = Ok a.
Proof.
  intros Hc Hd. unfold Decode. pose proof (parse_denotes j (MarshalIndent 0 j) "") as H.
  rewrite sapp_nil_r in H. rewrite H; [by rewrite Hd|by apply MarshalIndent_denotes|done].
Qed.

(** ** Without white space *)

Lemma Marshal_denotes j : clean j -> denotes j (Marshal j).
Proof.
  induction j as [|[]|n|s|l IH|l IH] using json_induction; intros Hc; cbn [Marshal].
  - constructor.
  - constructor.
  - constructor.
  - by apply D_num.
  - by apply D_str, encode_body.
  - apply clean_arr in Hc. destruct l as [|v l]; [by apply (D_arr_nil "")|]. apply D_arr.
    pose proof (elems_block "" "" (map (fun v => (v, Marshal v)) (v :: l)) eq_refl eq_refl ltac:(done)) as H.
    rewrite !map_map, map_id, sapp_nil_r in H. apply H, Forall_map. rewrite !Forall_forall in *. naive_solver.
  - apply clean_obj in Hc. destruct l as [|v l]; [by apply (D_obj_nil "")|]. apply D_obj.
    pose proof (members_sep "" "" "" (map (fun kv => (kv, (encode_runes false 0 kv.1, Marshal kv.2))) (v :: l))
      eq_refl eq_refl eq_refl ltac:(done)) as H. rewrite !map_map, map_id, sapp_nil_r in H.
    replace (map (fun '(k, v0) => encode_string k +:+ ":" +:+ Marshal v0) (v :: l)) with
      (map (fun x => member_sep "" (encode_runes false 0 x.1, Marshal x.2)) (v :: l))
      by (apply map_ext; by intros []).
    apply H, Forall_map. rewrite !Forall_forall in *. intros [k x] Hin. cbn.
    destruct (Hc _ Hin) as [Hk Hx]. split; [by apply encode_body|]. by apply (IH _ Hin).
Qed.

Lemma Unmarshal_Marshal {A} (d : decoder A) zero j a :
  clean j -> d zero j = Some a -> Unmarshal d zero (Marshal j) = Ok a.
Proof.
  intros Hc Hd. unfold Unmarshal. pose proof (parse_denotes j (Marshal j) "") as H.
  rewrite sapp_nil_r in H. rewrite H; [by rewrite Hd|by apply Marshal_denotes|done].
Qed.

(** ** Base 64 *)

Lemma b64_val_char v : 0 <= v < 64 -> b64_val (b64_char v) = Some v /\ Ascii.eqb (b64_char v) "=" = false /\
  (byte_val (b64_char v) =? 10) || (byte_val (b64_char v) =? 13) = false.
Proof.
  intros Hv. assert (Hall : forallb (fun n => let v := Z.of_nat n in
    match b64_val (b64_char v) with Some x => x =? v | None => false end && negb (Ascii.eqb (b64_char v) "=") &&
    negb ((byte_val (b64_char v) =? 10) || (byte_val (b64_char v) =? 13))) (seq 0 64) = true) by reflexivity.
  rewrite forallb_forall in Hall. specialize (Hall (Z.to_nat v)). rewrite in_seq, Z2Nat.id in Hall by lia.
  specialize (Hall ltac:(lia)). cbv zeta in Hall. rewrite !andb_true_iff, !negb_true_iff in Hall. destruct Hall as [[H1 H2] H3].
  split_and!; [|done|done]. destruct (b64_val (b64_char v)) as [x|]; [|done]. by apply Z.eqb_eq in H1 as ->.
Qed.

Lemma byte_of_eq z c : z = byte_val c -> byte_of z = c.
Proof. intros ->. apply byte_of_val. Qed.

Lemma byte_of_mod z c : z mod 256 = byte_val c -> byte_of z = c.
Proof. intros E. rewrite <- (byte_of_val c), <- E. unfold byte_of, u8. by rewrite Z.mod_mod by done. Qed.

(** Three characters make four and come back. *)
Lemma string_ind3 (P : string -> Prop) :
  P "" -> (forall x, P (String x "")) -> (forall x y, P (String x (String y ""))) ->
  (forall x y z s, P s -> P (String x (String y (String z s)))) -> forall s, P s.
Proof.
  intros H0 H1 H2 H3 s. induction s as [s IH] using (induction_ltof1 _ slen). unfold ltof in IH.
  destruct s as [|x [|y [|z s]]]; [done|done|done|]. apply H3, IH. cbn. lia.
Qed.

Lemma b64_groups_encode s : b64_groups (b64_encode s) = Some s.
Proof.
  induction s as [|x|x y|x y z s IH] using string_ind3; [done|..]; cbn [b64_encode b64_quad b64_groups].
  all: pose proof (byte_val_range x) as Hx; try pose proof (byte_val_range y) as Hy; try pose proof (byte_val_range z) as Hz.
  all: repeat match goal with |- context [b64_val (b64_char ?v)] =>
    let H := fresh in assert (H : 0 <= v < 64) by (Z.div_mod_to_equations; lia);
    destruct (b64_val_char v H) as (-> & Hne & _); clear H; cbv beta iota; rewrite ?Hne; clear Hne end.
  all: rewrite ?IH; cbn [mbind option_bind Ascii.eqb Bool.eqb andb String.eqb].
  all: repeat f_equal; apply byte_of_mod; Z.div_mod_to_equations; lia.
Qed.

Lemma drop_newlines_encode s : drop_newlines (b64_encode s) = b64_encode s.
Proof.
  induction s as [|x|x y|x y z s IH] using string_ind3; [done|..]; cbn [b64_encode b64_quad drop_newlines].
  all: pose proof (byte_val_range x) as Hx; try pose proof (byte_val_range y) as Hy; try pose proof (byte_val_range z) as Hz.
  all: repeat match goal with |- context [(byte_val (b64_char ?v) =? 10) || _] =>
    let H := fresh in assert (H : 0 <= v < 64) by (Z.div_mod_to_equations; lia);
    destruct (b64_val_char v H) as (_ & _ & ->); clear H; cbv beta iota end.
  all: by rewrite ?IH.
Qed.

Lemma b64_roundtrip s : b64_decode (b64_encode s) = Some s.
Proof. unfold b64_decode. by rewrite drop_newlines_encode, b64_groups_encode. Qed.
