(* ===== verification/Manifest.v ===== *)
(** * Manifests, sidecars and resume checkpoints

    [internal/manifest]: the PG-native manifest builder, the sidecar and the
    checkpoint records with their JSON codecs. *)

From S2P Require Import Prelude Sha256 Host Time Json Lsn.

(** A [[32]byte] is a string of 32 bytes. *)
Definition zero32 : string := string_of_bytes (replicate 32 0).

(** ** The builder *)

(** [ManifestVersion] *)
Definition ManifestVersion : Z := 2.

(** [BackupStartInfo] *)
Record BackupStartInfo := {
  bs_SystemIdentifier : Z;
  bs_Timeline : Z;
  bs_StartLSN : LSN;
  bs_StartTime : time;
}.

(** [BackupStopInfo] *)
Record BackupStopInfo := {
  be_StopLSN : LSN;
  be_StopTime : time;
}.

(** [fileRec] *)
Record fileRec := FileRec {
  f_path : string;
  f_size : Z;
  f_sha256 : string;
  f_modTime : time;
  f_incremental : bool;
  f_blockCount : Z;
  f_repoSize : Z;
  f_repoSHA256 : string;
}.

(** [Builder] *)
Record Builder := { b_start : BackupStartInfo; b_files : list fileRec }.

(** [NewBuilder] *)
Definition NewBuilder (start : BackupStartInfo) : Builder := {| b_start := start; b_files := [] |}.

(** [Builder.UpdateStartLSN] *)
Definition UpdateStartLSN (b : Builder) (lsn : LSN) (timeline : Z) : Builder :=
  let s := b_start b in
  {| b_start := {| bs_SystemIdentifier := bs_SystemIdentifier s; bs_Timeline := timeline;
                   bs_StartLSN := lsn; bs_StartTime := bs_StartTime s |};
     b_files := b_files b |}.

(** [Builder.AddFile] *)
Definition AddFile (b : Builder) (path : string) (size : Z) (sha256Sum : string) (modTime : time) : Builder :=
  {| b_start := b_start b;
     b_files := b_files b ++ [FileRec path size sha256Sum (UTC modTime) false 0 0 zero32] |}.

(** [Builder.AddIncrementalFile] *)
Definition AddIncrementalFile (b : Builder) (path : string) (size : Z) (sha256Sum : string)
    (blocks : list Z) (modTime : time) : Builder :=
  {| b_start := b_start b;
     b_files := b_files b ++
       [FileRec path size sha256Sum (UTC modTime) true (u32 (Z.of_nat (length blocks))) 0 zero32] |}.

(** [Builder.SetLatestRepoChecksum] *)
Definition SetLatestRepoChecksum (b : Builder) (repoSize : Z) (repoSHA : string) : Builder :=
  if (length (b_files b) =? 0)%nat then b
  else {| b_start := b_start b;
          b_files := alter (fun f => FileRec (f_path f) (f_size f) (f_sha256 f) (f_modTime f)
                              (f_incremental f) (f_blockCount f) repoSize repoSHA)
                       (length (b_files b) - 1)%nat (b_files b) |}.

(** ** JSON strings *)

(** The [switch] of [jsonString] on an ASCII rune. *)
Definition json_escape (c : ascii) : string :=
  let v := byte_val c in
  if v =? 34 then String "\" (String dq "")
  else if v =? 92 then "\\"
  else if v =? 10 then "\n"
  else if v =? 13 then "\r"
  else if v =? 9 then "\t"
  else if v <? 0x20 then "\u" +:+ Format0x 4 v
  else String c "".

(** The loop of [jsonString]; [skip] counts the bytes left of the current rune. *)
Fixpoint json_runes (skip : nat) (s : string) : string :=
  match s with
  | "" => ""
  | String c s' =>
      match skip with
      | S k => String c (json_runes k s')
      | O =>
          match rune_width s with
          | O => RuneError +:+ json_runes 0 s'
          | S O => json_escape c +:+ json_runes 0 s'
          | S w => String c (json_runes w s')
          end
      end
  end.

(** [jsonString] *)
Definition jsonString (s : string) : string := quoted (json_runes 0 s).

(** ** [Builder.Finalize] *)

Definition file_entry (f : fileRec) : string :=
  "{ " +:+ quoted "Path" +:+ ": " +:+ jsonString (f_path f) +:+
  ", " +:+ quoted "Size" +:+ ": " +:+ FormatD (f_size f) +:+
  ", " +:+ quoted "Last-Modified" +:+ ": " +:+ quoted (FormatGMT (UTC (f_modTime f))) +:+
  ", " +:+ quoted "Checksum-Algorithm" +:+ ": " +:+ quoted "SHA256" +:+
  ", " +:+ quoted "Checksum" +:+ ": " +:+ quoted (EncodeToString (f_sha256 f)) +:+
  (if f_incremental f then ", " +:+ quoted "Incremental" +:+ ": true" else "") +:+
  " }".

Fixpoint file_entries (first : bool) (fs : list fileRec) : string :=
  match fs with
  | [] => ""
  | f :: fs' => (if first then "" else ",") +:+ nl +:+ file_entry f +:+ file_entries false fs'
  end.

(** What [Finalize] has written when it computes the checksum. *)
Definition manifest_body (b : Builder) (stop : BackupStopInfo) : string :=
  "{ " +:+ quoted "PostgreSQL-Backup-Manifest-Version" +:+ ": " +:+ FormatD ManifestVersion +:+ "," +:+ nl +:+
  quoted "System-Identifier" +:+ ": " +:+ FormatD (bs_SystemIdentifier (b_start b)) +:+ "," +:+ nl +:+
  quoted "Files" +:+ ": [" +:+ file_entries true (b_files b) +:+
  (if (0 <? length (b_files b))%nat then nl else "") +:+ "]," +:+ nl +:+
  quoted "WAL-Ranges" +:+ ": [" +:+ nl +:+
  "{ " +:+ quoted "Timeline" +:+ ": " +:+ FormatD (bs_Timeline (b_start b)) +:+
  ", " +:+ quoted "Start-LSN" +:+ ": " +:+ quoted (LSN_String (bs_StartLSN (b_start b))) +:+
  ", " +:+ quoted "End-LSN" +:+ ": " +:+ quoted (LSN_String (be_StopLSN stop)) +:+ " }" +:+
  nl +:+ "]," +:+ nl.

Definition Finalize (b : Builder) (stop : BackupStopInfo) : string :=
  let body := manifest_body b stop in
  body +:+ quoted "Manifest-Checksum" +:+ ": " +:+ quoted (EncodeToString (Sum256 body)) +:+ "}" +:+ nl.

(** ** Sidecars *)

(** [SidecarVersion], [BackupTypeFull] and [BackupTypeIncremental] *)
Definition SidecarVersion : Z := 3.
Definition BackupTypeFull : string := "full".
Definition BackupTypeIncremental : string := "incremental".

(** [WALSegmentRecord] *)
Record WALSegmentRecord := { ws_Name : string; ws_Size : Z; ws_SHA256 : string }.

(** [Sidecar] *)
Record Sidecar := {
  sc_Version : Z;
  sc_Server : string;
  sc_EncryptionRecipients : list string;
  sc_Compression : string;
  sc_StorageLayoutVersion : Z;
  sc_WALSegments : list WALSegmentRecord;
  sc_SystemIdentifier : Z;
  sc_Directories : list string;
  sc_Type : string;
  sc_ParentBackupID : string;
  sc_Annotation : string;
  sc_LockHeld : bool;
}.

(** ** Resume checkpoints *)

(** [ResumeFileEntry] *)
Record ResumeFileEntry := {
  rf_Path : string;
  rf_Size : Z;
  rf_SHA256 : string;
  rf_ModTime : time;
  rf_RepoSize : Z;
  rf_RepoSHA256 : string;
}.

(** [ResumeCheckpoint] *)
Record ResumeCheckpoint := {
  cp_Version : Z;
  cp_PgsafeVersion : string;
  cp_BackupID : string;
  cp_BackupType : string;
  cp_ParentBackupID : string;
  cp_Compression : string;
  cp_EncryptionRecipients : list string;
  cp_SystemIdentifier : Z;
  cp_Timeline : Z;
  cp_StartLSN : LSN;
  cp_StartTime : time;
  cp_CheckpointedAt : time;
  cp_Files : list ResumeFileEntry;
}.

(** [ResumeCheckpointVersion] *)
Definition ResumeCheckpointVersion : Z := 1.

(** [Builder.AccumulatedFiles] *)
Definition AccumulatedFiles (b : Builder) : list ResumeFileEntry :=
  (fun f => {| rf_Path := f_path f; rf_Size := f_size f; rf_SHA256 := f_sha256 f;
               rf_ModTime := f_modTime f; rf_RepoSize := f_repoSize f;
               rf_RepoSHA256 := f_repoSHA256 f |}) <$> b_files b.

(** ** The JSON of sidecars and checkpoints

    A nil slice is [null]; the fields marked [omitempty] are left out when they are
    zero. *)

Definition int_json (z : Z) : json := Num (FormatD z).

Definition slice_json {A} (f : A -> json) (l : list A) : json :=
  match l with [] => Null | _ => Arr (map f l) end.

(** A [[32]byte] is an array of numbers. *)
Definition bytes_json (s : string) : json := Arr (map int_json (bytes_of_string s)).

Definition omitempty (empty : bool) (name : string) (j : json) : list (string * json) :=
  if empty then [] else [(name, j)].

Definition segment_json (s : WALSegmentRecord) : json :=
  Obj [("name", Str (ws_Name s)); ("size", int_json (ws_Size s)); ("sha256", bytes_json (ws_SHA256 s))].

Definition sidecar_json (s : Sidecar) : json :=
  Obj ([("version", int_json (sc_Version s));
        ("server", Str (sc_Server s));
        ("encryption_recipients", slice_json Str (sc_EncryptionRecipients s));
        ("compression", Str (sc_Compression s));
        ("storage_layout_version", int_json (sc_StorageLayoutVersion s));
        ("wal_segments", slice_json segment_json (sc_WALSegments s))] ++
       omitempty (sc_SystemIdentifier s =? 0) "system_identifier" (int_json (sc_SystemIdentifier s)) ++
       [("directories", slice_json Str (sc_Directories s))] ++
       omitempty (String.eqb (sc_Type s) "") "type" (Str (sc_Type s)) ++
       omitempty (String.eqb (sc_ParentBackupID s) "") "parent_backup_id" (Str (sc_ParentBackupID s)) ++
       omitempty (String.eqb (sc_Annotation s) "") "annotation" (Str (sc_Annotation s)) ++
       omitempty (negb (sc_LockHeld s)) "lock_held" (Bool (sc_LockHeld s))).

(** [MarshalSidecar] *)
Definition MarshalSidecar (s : Sidecar) : result string := Ok (MarshalIndent 0 (sidecar_json s)).

Definition zero_segment : WALSegmentRecord := {| ws_Name := ""; ws_Size := 0; ws_SHA256 := zero32 |}.

Definition segment_fields : fields WALSegmentRecord :=
  [field "name" ws_Name (fun x s => {| ws_Name := x; ws_Size := ws_Size s; ws_SHA256 := ws_SHA256 s |}) dec_string;
   field "size" ws_Size (fun x s => {| ws_Name := ws_Name s; ws_Size := x; ws_SHA256 := ws_SHA256 s |}) dec_int64;
   field "sha256" ws_SHA256 (fun x s => {| ws_Name := ws_Name s; ws_Size := ws_Size s; ws_SHA256 := x |})
     (dec_bytes 32)].

Definition zero_sidecar : Sidecar :=
  {| sc_Version := 0; sc_Server := ""; sc_EncryptionRecipients := []; sc_Compression := "";
     sc_StorageLayoutVersion := 0; sc_WALSegments := []; sc_SystemIdentifier := 0; sc_Directories := [];
     sc_Type := ""; sc_ParentBackupID := ""; sc_Annotation := ""; sc_LockHeld := false |}.

(** The struct tags of [Sidecar]. *)
Definition sidecar_fields : fields Sidecar :=
  [field "version" sc_Version
     (fun x s => Build_Sidecar x (sc_Server s) (sc_EncryptionRecipients s) (sc_Compression s) (sc_StorageLayoutVersion s) (sc_WALSegments s) (sc_SystemIdentifier s) (sc_Directories s) (sc_Type s) (sc_ParentBackupID s) (sc_Annotation s) (sc_LockHeld s))
     dec_int64;
   field "server" sc_Server
     (fun x s => Build_Sidecar (sc_Version s) x (sc_EncryptionRecipients s) (sc_Compression s) (sc_StorageLayoutVersion s) (sc_WALSegments s) (sc_SystemIdentifier s) (sc_Directories s) (sc_Type s) (sc_ParentBackupID s) (sc_Annotation s) (sc_LockHeld s))
     dec_string;
   field "encryption_recipients" sc_EncryptionRecipients
     (fun x s => Build_Sidecar (sc_Version s) (sc_Server s) x (sc_Compression s) (sc_StorageLayoutVersion s) (sc_WALSegments s) (sc_SystemIdentifier s) (sc_Directories s) (sc_Type s) (sc_ParentBackupID s) (sc_Annotation s) (sc_LockHeld s))
     (dec_slice "" dec_string);
   field "compression" sc_Compression
     (fun x s => Build_Sidecar (sc_Version s) (sc_Server s) (sc_EncryptionRecipients s) x (sc_StorageLayoutVersion s) (sc_WALSegments s) (sc_SystemIdentifier s) (sc_Directories s) (sc_Type s) (sc_ParentBackupID s) (sc_Annotation s) (sc_LockHeld s))
     dec_string;
   field "storage_layout_version" sc_StorageLayoutVersion
     (fun x s => Build_Sidecar (sc_Version s) (sc_Server s) (sc_EncryptionRecipients s) (sc_Compression s) x (sc_WALSegments s) (sc_SystemIdentifier s) (sc_Directories s) (sc_Type s) (sc_ParentBackupID s) (sc_Annotation s) (sc_LockHeld s))
     dec_int64;
   field "wal_segments" sc_WALSegments
     (fun x s => Build_Sidecar (sc_Version s) (sc_Server s) (sc_EncryptionRecipients s) (sc_Compression s) (sc_StorageLayoutVersion s) x (sc_SystemIdentifier s) (sc_Directories s) (sc_Type s) (sc_ParentBackupID s) (sc_Annotation s) (sc_LockHeld s))
     (dec_slice zero_segment (dec_struct true segment_fields));
   field "system_identifier" sc_SystemIdentifier
     (fun x s => Build_Sidecar (sc_Version s) (sc_Server s) (sc_EncryptionRecipients s) (sc_Compression s) (sc_StorageLayoutVersion s) (sc_WALSegments s) x (sc_Directories s) (sc_Type s) (sc_ParentBackupID s) (sc_Annotation s) (sc_LockHeld s))
     (dec_uint 64);
   field "directories" sc_Directories
     (fun x s => Build_Sidecar (sc_Version s) (sc_Server s) (sc_EncryptionRecipients s) (sc_Compression s) (sc_StorageLayoutVersion s) (sc_WALSegments s) (sc_SystemIdentifier s) x (sc_Type s) (sc_ParentBackupID s) (sc_Annotation s) (sc_LockHeld s))
     (dec_slice "" dec_string);
   field "type" sc_Type
     (fun x s => Build_Sidecar (sc_Version s) (sc_Server s) (sc_EncryptionRecipients s) (sc_Compression s) (sc_StorageLayoutVersion s) (sc_WALSegments s) (sc_SystemIdentifier s) (sc_Directories s) x (sc_ParentBackupID s) (sc_Annotation s) (sc_LockHeld s))
     dec_string;
   field "parent_backup_id" sc_ParentBackupID
     (fun x s => Build_Sidecar (sc_Version s) (sc_Server s) (sc_EncryptionRecipients s) (sc_Compression s) (sc_StorageLayoutVersion s) (sc_WALSegments s) (sc_SystemIdentifier s) (sc_Directories s) (sc_Type s) x (sc_Annotation s) (sc_LockHeld s))
     dec_string;
   field "annotation" sc_Annotation
     (fun x s => Build_Sidecar (sc_Version s) (sc_Server s) (sc_EncryptionRecipients s) (sc_Compression s) (sc_StorageLayoutVersion s) (sc_WALSegments s) (sc_SystemIdentifier s) (sc_Directories s) (sc_Type s) (sc_ParentBackupID s) x (sc_LockHeld s))
     dec_string;
   field "lock_held" sc_LockHeld
     (fun x s => Build_Sidecar (sc_Version s) (sc_Server s) (sc_EncryptionRecipients s) (sc_Compression s) (sc_StorageLayoutVersion s) (sc_WALSegments s) (sc_SystemIdentifier s) (sc_Directories s) (sc_Type s) (sc_ParentBackupID s) (sc_Annotation s) x)
     dec_bool].

(** [UnmarshalSidecar] *)
Definition UnmarshalSidecar (data : string) : result Sidecar :=
  map_error (Errorf_w "manifest: decode sidecar") (Decode (dec_struct true sidecar_fields) zero_sidecar data).

(** A [time.Time] is its RFC 3339 text; the times that have none are an error. *)
Definition time_json (t : time) : option json := Str <$> MarshalTime t.

Definition dec_time : decoder time := fun cur j =>
  match j with Null => Some cur | Str s => ParseRFC3339 s | _ => None end.

Definition entry_json (f : ResumeFileEntry) : option json :=
  let? mt := time_json (rf_ModTime f) in
  Some (Obj ([("path", Str (rf_Path f)); ("size", int_json (rf_Size f)); ("sha256", bytes_json (rf_SHA256 f));
              ("mod_time", mt)] ++
             omitempty (rf_RepoSize f =? 0) "repo_size" (int_json (rf_RepoSize f)) ++
             [("repo_sha256", bytes_json (rf_RepoSHA256 f))])).

Definition checkpoint_json (c : ResumeCheckpoint) : option json :=
  let? st := time_json (cp_StartTime c) in
  let? ct := time_json (cp_CheckpointedAt c) in
  let? fs := mapM entry_json (cp_Files c) in
  Some (Obj ([("version", int_json (cp_Version c)); ("pgsafe_version", Str (cp_PgsafeVersion c));
              ("backup_id", Str (cp_BackupID c)); ("backup_type", Str (cp_BackupType c))] ++
             omitempty (String.eqb (cp_ParentBackupID c) "") "parent_backup_id" (Str (cp_ParentBackupID c)) ++
             [("compression", Str (cp_Compression c));
              ("encryption_recipients", slice_json Str (cp_EncryptionRecipients c));
              ("system_identifier", int_json (cp_SystemIdentifier c));
              ("timeline", int_json (cp_Timeline c)); ("start_lsn", int_json (cp_StartLSN c));
              ("start_time", st); ("checkpointed_at", ct); ("files", slice_json id fs)])).

Definition zero_entry : ResumeFileEntry :=
  {| rf_Path := ""; rf_Size := 0; rf_SHA256 := zero32; rf_ModTime := zero_time; rf_RepoSize := 0;
     rf_RepoSHA256 := zero32 |}.

Definition entry_fields : fields ResumeFileEntry :=
  [field "path" rf_Path (fun x s => Build_ResumeFileEntry x (rf_Size s) (rf_SHA256 s) (rf_ModTime s) (rf_RepoSize s) (rf_RepoSHA256 s))
     dec_string;
   field "size" rf_Size (fun x s => Build_ResumeFileEntry (rf_Path s) x (rf_SHA256 s) (rf_ModTime s) (rf_RepoSize s) (rf_RepoSHA256 s))
     dec_int64;
   field "sha256" rf_SHA256 (fun x s => Build_ResumeFileEntry (rf_Path s) (rf_Size s) x (rf_ModTime s) (rf_RepoSize s) (rf_RepoSHA256 s))
     (dec_bytes 32);
   field "mod_time" rf_ModTime (fun x s => Build_ResumeFileEntry (rf_Path s) (rf_Size s) (rf_SHA256 s) x (rf_RepoSize s) (rf_RepoSHA256 s))
     dec_time;
   field "repo_size" rf_RepoSize (fun x s => Build_ResumeFileEntry (rf_Path s) (rf_Size s) (rf_SHA256 s) (rf_ModTime s) x (rf_RepoSHA256 s))
     dec_int64;
   field "repo_sha256" rf_RepoSHA256 (fun x s => Build_ResumeFileEntry (rf_Path s) (rf_Size s) (rf_SHA256 s) (rf_ModTime s) (rf_RepoSize s) x)
     (dec_bytes 32)].

Definition zero_checkpoint : ResumeCheckpoint :=
  {| cp_Version := 0; cp_PgsafeVersion := ""; cp_BackupID := ""; cp_BackupType := ""; cp_ParentBackupID := "";
     cp_Compression := ""; cp_EncryptionRecipients := []; cp_SystemIdentifier := 0; cp_Timeline := 0;
     cp_StartLSN := 0; cp_StartTime := zero_time; cp_CheckpointedAt := zero_time; cp_Files := [] |}.

(** The struct tags of [ResumeCheckpoint]. *)
Definition checkpoint_fields : fields ResumeCheckpoint :=
  [field "version" cp_Version
     (fun x s => Build_ResumeCheckpoint x (cp_PgsafeVersion s) (cp_BackupID s) (cp_BackupType s) (cp_ParentBackupID s) (cp_Compression s) (cp_EncryptionRecipients s) (cp_SystemIdentifier s) (cp_Timeline s) (cp_StartLSN s) (cp_StartTime s) (cp_CheckpointedAt s) (cp_Files s))
     dec_int64;
   field "pgsafe_version" cp_PgsafeVersion
     (fun x s => Build_ResumeCheckpoint (cp_Version s) x (cp_BackupID s) (cp_BackupType s) (cp_ParentBackupID s) (cp_Compression s) (cp_EncryptionRecipients s) (cp_SystemIdentifier s) (cp_Timeline s) (cp_StartLSN s) (cp_StartTime s) (cp_CheckpointedAt s) (cp_Files s))
     dec_string;
   field "backup_id" cp_BackupID
     (fun x s => Build_ResumeCheckpoint (cp_Version s) (cp_PgsafeVersion s) x (cp_BackupType s) (cp_ParentBackupID s) (cp_Compression s) (cp_EncryptionRecipients s) (cp_SystemIdentifier s) (cp_Timeline s) (cp_StartLSN s) (cp_StartTime s) (cp_CheckpointedAt s) (cp_Files s))
     dec_string;
   field "backup_type" cp_BackupType
     (fun x s => Build_ResumeCheckpoint (cp_Version s) (cp_PgsafeVersion s) (cp_BackupID s) x (cp_ParentBackupID s) (cp_Compression s) (cp_EncryptionRecipients s) (cp_SystemIdentifier s) (cp_Timeline s) (cp_StartLSN s) (cp_StartTime s) (cp_CheckpointedAt s) (cp_Files s))
     dec_string;
   field "parent_backup_id" cp_ParentBackupID
     (fun x s => Build_ResumeCheckpoint (cp_Version s) (cp_PgsafeVersion s) (cp_BackupID s) (cp_BackupType s) x (cp_Compression s) (cp_EncryptionRecipients s) (cp_SystemIdentifier s) (cp_Timeline s) (cp_StartLSN s) (cp_StartTime s) (cp_CheckpointedAt s) (cp_Files s))
     dec_string;
   field "compression" cp_Compression
     (fun x s => Build_ResumeCheckpoint (cp_Version s) (cp_PgsafeVersion s) (cp_BackupID s) (cp_BackupType s) (cp_ParentBackupID s) x (cp_EncryptionRecipients s) (cp_SystemIdentifier s) (cp_Timeline s) (cp_StartLSN s) (cp_StartTime s) (cp_CheckpointedAt s) (cp_Files s))
     dec_string;
   field "encryption_recipients" cp_EncryptionRecipients
     (fun x s => Build_ResumeCheckpoint (cp_Version s) (cp_PgsafeVersion s) (cp_BackupID s) (cp_BackupType s) (cp_ParentBackupID s) (cp_Compression s) x (cp_SystemIdentifier s) (cp_Timeline s) (cp_StartLSN s) (cp_StartTime s) (cp_CheckpointedAt s) (cp_Files s))
     (dec_slice "" dec_string);
   field "system_identifier" cp_SystemIdentifier
     (fun x s => Build_ResumeCheckpoint (cp_Version s) (cp_PgsafeVersion s) (cp_BackupID s) (cp_BackupType s) (cp_ParentBackupID s) (cp_Compression s) (cp_EncryptionRecipients s) x (cp_Timeline s) (cp_StartLSN s) (cp_StartTime s) (cp_CheckpointedAt s) (cp_Files s))
     (dec_uint 64);
   field "timeline" cp_Timeline
     (fun x s => Build_ResumeCheckpoint (cp_Version s) (cp_PgsafeVersion s) (cp_BackupID s) (cp_BackupType s) (cp_ParentBackupID s) (cp_Compression s) (cp_EncryptionRecipients s) (cp_SystemIdentifier s) x (cp_StartLSN s) (cp_StartTime s) (cp_CheckpointedAt s) (cp_Files s))
     (dec_uint 32);
   field "start_lsn" cp_StartLSN
     (fun x s => Build_ResumeCheckpoint (cp_Version s) (cp_PgsafeVersion s) (cp_BackupID s) (cp_BackupType s) (cp_ParentBackupID s) (cp_Compression s) (cp_EncryptionRecipients s) (cp_SystemIdentifier s) (cp_Timeline s) x (cp_StartTime s) (cp_CheckpointedAt s) (cp_Files s))
     (dec_uint 64);
   field "start_time" cp_StartTime
     (fun x s => Build_ResumeCheckpoint (cp_Version s) (cp_PgsafeVersion s) (cp_BackupID s) (cp_BackupType s) (cp_ParentBackupID s) (cp_Compression s) (cp_EncryptionRecipients s) (cp_SystemIdentifier s) (cp_Timeline s) (cp_StartLSN s) x (cp_CheckpointedAt s) (cp_Files s))
     dec_time;
   field "checkpointed_at" cp_CheckpointedAt
     (fun x s => Build_ResumeCheckpoint (cp_Version s) (cp_PgsafeVersion s) (cp_BackupID s) (cp_BackupType s) (cp_ParentBackupID s) (cp_Compression s) (cp_EncryptionRecipients s) (cp_SystemIdentifier s) (cp_Timeline s) (cp_StartLSN s) (cp_StartTime s) x (cp_Files s))
     dec_time;
   field "files" cp_Files
     (fun x s => Build_ResumeCheckpoint (cp_Version s) (cp_PgsafeVersion s) (cp_BackupID s) (cp_BackupType s) (cp_ParentBackupID s) (cp_Compression s) (cp_EncryptionRecipients s) (cp_SystemIdentifier s) (cp_Timeline s) (cp_StartLSN s) (cp_StartTime s) (cp_CheckpointedAt s) x)
     (dec_slice zero_entry (dec_struct true entry_fields))].

Definition set_cp_Version (v : Z) (c : ResumeCheckpoint) : ResumeCheckpoint :=
  {| cp_Version := v; cp_PgsafeVersion := cp_PgsafeVersion c; cp_BackupID := cp_BackupID c;
     cp_BackupType := cp_BackupType c; cp_ParentBackupID := cp_ParentBackupID c;
     cp_Compression := cp_Compression c; cp_EncryptionRecipients := cp_EncryptionRecipients c;
     cp_SystemIdentifier := cp_SystemIdentifier c; cp_Timeline := cp_Timeline c;
     cp_StartLSN := cp_StartLSN c; cp_StartTime := cp_StartTime c;
     cp_CheckpointedAt := cp_CheckpointedAt c; cp_Files := cp_Files c |}.

(** [MarshalResumeCheckpoint] *)
Definition MarshalResumeCheckpoint (c : ResumeCheckpoint) : result string :=
  let c := if cp_Version c =? 0 then set_cp_Version ResumeCheckpointVersion c else c in
  match checkpoint_json c with
  | Some j => Ok (MarshalIndent 0 j)
  | None => Fail (errors_New "json: error calling MarshalJSON for type time.Time")
  end.

(** [UnmarshalResumeCheckpoint] *)
Definition UnmarshalResumeCheckpoint (data : string) : result ResumeCheckpoint :=
  match Decode (dec_struct true checkpoint_fields) zero_checkpoint data with
  | Fail err => Fail (Errorf_w "manifest: decode resume checkpoint" err)
  | Ok c =>
      if negb (cp_Version c =? ResumeCheckpointVersion)
      then Fail (errors_New "manifest: resume checkpoint version")
      else Ok c
  end.
