(* ===== verification/ManifestSpec.v ===== *)
(** * What the manifest texts hold

    The hand-written manifest is a JSON text and every reader of the program gets
    back what the builder was given; a sidecar comes back from its text. *)

From S2P Require Import Prelude Sha256 Host Time Json JsonSpec Lsn Manifest.

(** ** Bodies of strings *)

Definition plain_char (c : ascii) : bool :=
  (32 <=? byte_val c) && (byte_val c <? 128) && negb (Ascii.eqb c dq) && negb (Ascii.eqb c "\").

Lemma scan_plain_char c x : plain_char c = true -> scan_body 0 (String c x) = emit (String c "") (scan_body 0 x).
Proof.
  unfold plain_char. rewrite !andb_true_iff, !negb_true_iff. intros [[[H1 H2] H3] H4]. cbn [scan_body].
  rewrite H3, H4. destruct (Z.ltb_spec (byte_val c) 32); [lia|].
  assert (Hw : rune_width (String c x) = 1%nat).
  { unfold rune_width, byte_in at 1. cbn [sget String.get].
    replace ((0 <=? byte_val c) && (byte_val c <=? 127)) with true by (symmetry; apply andb_true_iff; pose proof (byte_val_range c); lia).
    done. }
  by rewrite Hw.
Qed.

Lemma plain_body s : sall plain_char s = true -> body_of s s.
Proof.
  intros Hs x. induction s as [|c s IH]; [done|]. cbn [sall] in Hs. apply andb_true_iff in Hs as [Hc Hs].
  change (String c s +:+ String dq x) with (String c (s +:+ String dq x)). rewrite scan_plain_char, IH by done. done.
Qed.

Lemma scan_json_escape c x : byte_val c < 128 ->
  scan_body 0 (json_escape c +:+ x) = emit (String c "") (scan_body 0 x).
Proof.
  destruct c as [[] [] [] [] [] [] [] []]; intros Hc; first [exfalso; by vm_compute in Hc | reflexivity].
Qed.

Lemma json_runes_copy n s : (n <= slen s)%nat -> json_runes n s = stake n s +:+ json_runes 0 (sdrop n s).
Proof.
  revert s. induction n as [|n IH]; intros [|c s] Hn; try done.
  simpl in Hn. cbn [json_runes stake sdrop String.append]. by rewrite IH by lia.
Qed.

Lemma scan_json_runes s x : scan_body 0 (json_runes 0 s +:+ String dq x) = Some (sanitize 0 s, x).
Proof.
  induction s as [s IH] using (induction_ltof1 _ slen). unfold ltof in IH. destruct s as [|c t]; [done|].
  cbn [json_runes]. destruct (rune_width (String c t)) as [|[|w]] eqn:Hw.
  - rewrite sapp_assoc, scan_RuneError, IH by (simpl; lia). cbn [emit sanitize]. by rewrite Hw.
  - rewrite sapp_assoc, scan_json_escape, IH by (simpl; lia || by apply (rune_width_one c t)).
    cbn [emit]. by rewrite (sanitize_rune _ _ Hw).
  - destruct (rune_width_stake _ _ "" Hw) as [Hlen _]. simpl in Hlen.
    rewrite (sanitize_rune _ _ Hw), json_runes_copy by lia.
    replace (String c (stake (S w) t +:+ json_runes 0 (sdrop (S w) t)) +:+ String dq x)
      with (stake (S (S w)) (String c t) +:+ json_runes 0 (sdrop (S w) t) +:+ String dq x)
      by (cbn [stake String.append]; by rewrite sapp_assoc).
    rewrite scan_rune, IH by (done || rewrite slen_drop; simpl; lia). done.
Qed.

Lemma jsonString_denotes s : denotes (Str (sanitize 0 s)) (jsonString s).
Proof. apply D_str. intros x. apply scan_json_runes. Qed.

Lemma digits_plain s : sall is_digit s = true -> sall plain_char s = true.
Proof.
  apply sall_impl. intros c Hc. unfold plain_char, is_digit in *. rewrite !andb_true_iff, !negb_true_iff.
  split_and!; [lia|lia|apply Ascii.eqb_neq; by intros ->..].
Qed.

Lemma hexdigits_plain s : sall is_hexdigit s = true -> sall plain_char s = true.
Proof.
  apply sall_impl. intros c. destruct c as [[] [] [] [] [] [] [] []]; vm_compute; done.
Qed.

Lemma FormatD_plain n : sall plain_char (FormatD n) = true.
Proof.
  destruct (Z.lt_ge_cases n 0) as [Hn|Hn].
  - rewrite FormatD_neg by done. destruct (FormatD_digits (- n)) as (c & d & -> & Hd & _); [lia|].
    cbn [sall]. change (plain_char "-") with true. by apply (digits_plain (String c d)).
  - destruct (FormatD_digits n Hn) as (c & d & -> & Hd & _). by apply digits_plain.
Qed.

Lemma FormatPad_plain w n : sall plain_char (FormatPad w n) = true.
Proof.
  unfold FormatPad. induction (w - slen (FormatD n))%nat as [|k IH]; [apply FormatD_plain|].
  change (plain_char "0" && sall plain_char (Nat.iter k (String "0") (FormatD n)) = true). by rewrite IH.
Qed.

Lemma FormatGMT_plain t : sall plain_char (FormatGMT t) = true.
Proof.
  unfold FormatGMT. destruct (clock_of t) as [[hh mm] ss]. rewrite !sall_app, !FormatPad_plain. reflexivity.
Qed.

Lemma LSN_String_plain l : sall plain_char (LSN_String l) = true.
Proof.
  unfold LSN_String. cbv zeta. rewrite !sall_app. unfold FormatX.
  rewrite !(hexdigits_plain (hex_fixed _ _ _)) by (apply hex_fixed_hex; by left). done.
Qed.

(** ** The manifest is a JSON text *)

Lemma int_denotes z : denotes (int_json z) (FormatD z).
Proof. apply D_num, FormatD_number. Qed.

Lemma plain_denotes s : sall plain_char s = true -> denotes (Str s) (quoted s).
Proof. intros Hs. by apply D_str, plain_body. Qed.

(** One file of the manifest as a value. *)
Definition file_value (f : fileRec) : json :=
  Obj ([("Path", Str (sanitize 0 (f_path f))); ("Size", int_json (f_size f));
        ("Last-Modified", Str (FormatGMT (UTC (f_modTime f)))); ("Checksum-Algorithm", Str "SHA256");
        ("Checksum", Str (EncodeToString (f_sha256 f)))] ++
       if f_incremental f then [("Incremental", Bool true)] else []).

Definition range_value (b : Builder) (stop : BackupStopInfo) : json :=
  Obj [("Timeline", int_json (bs_Timeline (b_start b))); ("Start-LSN", Str (LSN_String (bs_StartLSN (b_start b))));
       ("End-LSN", Str (LSN_String (be_StopLSN stop)))].

Definition manifest_value (b : Builder) (stop : BackupStopInfo) : json :=
  Obj [("PostgreSQL-Backup-Manifest-Version", int_json ManifestVersion);
       ("System-Identifier", int_json (bs_SystemIdentifier (b_start b)));
       ("Files", Arr (map file_value (b_files b)));
       ("WAL-Ranges", Arr [range_value b stop]);
       ("Manifest-Checksum", Str (EncodeToString (Sum256 (manifest_body b stop))))].

Lemma hex_denotes s : denotes (Str (EncodeToString s)) (quoted (EncodeToString s)).
Proof. apply plain_denotes, hexdigits_plain, EncodeToString_hex. Qed.

(** Members whose keys need no escape: the key, its value, the text of the value. *)
Definition row : Type := string * json * string.

Lemma rows_denote w w' (l : list row) :
  ws w -> ws w' -> l <> [] -> Forall (fun '(k, v, t) => sall plain_char k = true /\ denotes v t) l ->
  denotes (Obj (map (fun '(k, v, _) => (k, v)) l))
    ("{" +:+ (w +:+ Join (map (fun '(k, _, t) => quoted k +:+ ": " +:+ t) l) ("," +:+ w) +:+ w') +:+ "}").
Proof.
  intros Hw Hw' Hne Hl. apply D_obj.
  pose proof (members_block w w' (map (fun '(k, v, t) => ((k, v), (k, t))) l) Hw Hw') as H. rewrite !map_map in H.
  replace (map (fun '(k, v, _) => (k, v)) l) with (map (fun x : row => fst (let '(k, v, t) := x in ((k, v), (k, t)))) l)
    by (apply map_ext; by intros [[] ?]).
  replace (map (fun '(k, _, t) => quoted k +:+ ": " +:+ t) l)
    with (map (fun x : row => member_text (snd (let '(k, v, t) := x in ((k, v), (k, t))))) l)
    by (apply map_ext; by intros [[] ?]).
  apply H; [by destruct l|]. apply Forall_map. eapply Forall_impl; [exact Hl|]. intros [[k v] u] [Hk Hv].
  split; [by apply plain_body|done].
Qed.

Definition file_rows (f : fileRec) : list row :=
  [("Path", Str (sanitize 0 (f_path f)), jsonString (f_path f)); ("Size", int_json (f_size f), FormatD (f_size f));
   ("Last-Modified", Str (FormatGMT (UTC (f_modTime f))), quoted (FormatGMT (UTC (f_modTime f))));
   ("Checksum-Algorithm", Str "SHA256", quoted "SHA256");
   ("Checksum", Str (EncodeToString (f_sha256 f)), quoted (EncodeToString (f_sha256 f)))] ++
  if f_incremental f then [("Incremental", Bool true, "true")] else [].

Lemma file_entry_denotes f : denotes (file_value f) (file_entry f).
Proof.
  pose proof (rows_denote " " " " (file_rows f) eq_refl eq_refl ltac:(done)) as H.
  replace (file_value f) with (Obj (map (fun '(k, v, _) => (k, v)) (file_rows f)))
    by (unfold file_value, file_rows; by destruct (f_incremental f)).
  replace (file_entry f) with ("{" +:+ (" " +:+ Join (map (fun '(k, _, t) => quoted k +:+ ": " +:+ t) (file_rows f))
    ("," +:+ " ") +:+ " ") +:+ "}").
  - apply H. unfold file_rows. repeat (apply Forall_cons; split; [split; [reflexivity|]|]).
    + apply jsonString_denotes.
    + apply int_denotes.
    + apply plain_denotes, FormatGMT_plain.
    + by apply plain_denotes.
    + apply hex_denotes.
    + destruct (f_incremental f); repeat constructor.
  - unfold file_rows, file_entry. destruct (f_incremental f); cbn [map app Join]; rewrite !sapp_assoc; reflexivity.
Qed.

Lemma file_entries_join first fs : fs <> [] ->
  file_entries first fs = (if first then "" else ",") +:+ nl +:+ Join (map file_entry fs) ("," +:+ nl).
Proof.
  revert first. induction fs as [|f fs IH]; intros first Hne; [done|]. cbn [file_entries].
  destruct fs as [|g fs]; [cbn [file_entries map Join]; by rewrite sapp_nil_r|].
  rewrite IH by done. cbn [map]. rewrite Join_cons2. by rewrite !sapp_assoc.
Qed.

Lemma files_denote fs :
  denotes (Arr (map file_value fs))
    ("[" +:+ (file_entries true fs +:+ (if (0 <? length fs)%nat then nl else "")) +:+ "]").
Proof.
  destruct fs as [|f fs]; [by apply (D_arr_nil "")|]. apply D_arr.
  pose proof (elems_block nl nl (map (fun f => (file_value f, file_entry f)) (f :: fs)) eq_refl eq_refl ltac:(done)) as H.
  rewrite !map_map in H. rewrite file_entries_join, sapp_assoc by done. change ("" +:+ ?x) with x. rewrite sapp_assoc.
  apply H. apply Forall_map, Forall_true. intros g. apply file_entry_denotes.
Qed.

Definition manifest_rows (b : Builder) (stop : BackupStopInfo) : list row :=
  [("PostgreSQL-Backup-Manifest-Version", int_json ManifestVersion, FormatD ManifestVersion);
   ("System-Identifier", int_json (bs_SystemIdentifier (b_start b)), FormatD (bs_SystemIdentifier (b_start b)));
   ("Files", Arr (map file_value (b_files b)),
    "[" +:+ (file_entries true (b_files b) +:+ (if (0 <? length (b_files b))%nat then nl else "")) +:+ "]");
   ("WAL-Ranges", Arr [range_value b stop],
    "[" +:+ (nl +:+ ("{" +:+ (" " +:+ (quoted "Timeline" +:+ ": " +:+ FormatD (bs_Timeline (b_start b)) +:+
       ("," +:+ " ") +:+ quoted "Start-LSN" +:+ ": " +:+ quoted (LSN_String (bs_StartLSN (b_start b))) +:+
       ("," +:+ " ") +:+ quoted "End-LSN" +:+ ": " +:+ quoted (LSN_String (be_StopLSN stop))) +:+ " ") +:+ "}") +:+ nl) +:+ "]");
   ("Manifest-Checksum", Str (EncodeToString (Sum256 (manifest_body b stop))),
    quoted (EncodeToString (Sum256 (manifest_body b stop))))].

Lemma range_denotes b stop : denotes (range_value b stop)
  ("{" +:+ (" " +:+ (quoted "Timeline" +:+ ": " +:+ FormatD (bs_Timeline (b_start b)) +:+
       ("," +:+ " ") +:+ quoted "Start-LSN" +:+ ": " +:+ quoted (LSN_String (bs_StartLSN (b_start b))) +:+
       ("," +:+ " ") +:+ quoted "End-LSN" +:+ ": " +:+ quoted (LSN_String (be_StopLSN stop))) +:+ " ") +:+ "}").
Proof.
  pose proof (rows_denote " " " "
    [("Timeline", int_json (bs_Timeline (b_start b)), FormatD (bs_Timeline (b_start b)));
     ("Start-LSN", Str (LSN_String (bs_StartLSN (b_start b))), quoted (LSN_String (bs_StartLSN (b_start b))));
     ("End-LSN", Str (LSN_String (be_StopLSN stop)), quoted (LSN_String (be_StopLSN stop)))] eq_refl eq_refl ltac:(done)) as H.
  cbn [map Join] in H. rewrite !sapp_assoc. rewrite !sapp_assoc in H. apply H.
  repeat (apply Forall_cons; split; [split; [reflexivity|]|]);
    [apply int_denotes|apply plain_denotes, LSN_String_plain..|constructor].
Qed.

(** The text of [Finalize] up to its last newline. *)
Lemma Finalize_denotes b stop : exists text, Finalize b stop = text +:+ nl /\ denotes (manifest_value b stop) text.
Proof.
  exists ("{" +:+ (" " +:+ quoted "PostgreSQL-Backup-Manifest-Version" +:+ ": " +:+ FormatD ManifestVersion +:+
    ("," +:+ nl) +:+ Join (map (fun '(k, _, t) => quoted k +:+ ": " +:+ t) (tail (manifest_rows b stop))) ("," +:+ nl)) +:+ "}").
  split.
  - unfold Finalize, manifest_rows. cbn [tail map Join]. set (sum := Sum256 _). unfold manifest_body.
    rewrite !sapp_assoc. clearbody sum. reflexivity.
  - apply D_obj.
    pose proof (members_block nl "" (map (fun '(k, v, t) => ((k, v), (k, t))) (tail (manifest_rows b stop))) eq_refl eq_refl ltac:(done)) as H.
    assert (Hrows : Forall (fun '(k, v, t) => sall plain_char k = true /\ denotes v t) (manifest_rows b stop)).
    { unfold manifest_rows. repeat (apply Forall_cons; split; [split; [reflexivity|]|]); [..|constructor].
      - apply int_denotes.
      - apply int_denotes.
      - apply files_denote.
      - apply D_arr, E_one; [done|apply range_denotes|done].
      - apply hex_denotes. }
    assert (Hrest : Forall (fun '((k, v), (b, t)) => body_of b k /\ denotes v t)
      (map (fun '(k, v, t) => ((k, v), (k, t))) (tail (manifest_rows b stop)))).
    { apply Forall_map. eapply Forall_impl; [exact (Forall_inv_tail Hrows)|]. intros [[k v] u] [Hk Hv].
      split; [by apply plain_body|done]. }
    pose proof (plain_body "PostgreSQL-Backup-Manifest-Version" eq_refl) as Hkey.
    pose proof (M_cons " " _ _ "" " " _ (FormatD ManifestVersion) "" _ _ eq_refl Hkey eq_refl eq_refl
      (int_denotes _) eq_refl (H Hrest)) as Hm.
    rewrite !map_map, sapp_nil_r in Hm. rewrite !sapp_assoc. rewrite ?sapp_assoc in Hm. exact Hm.
Qed.

Lemma parse_Finalize b stop : parse_first (Finalize b stop) = Some (manifest_value b stop, nl).
Proof. destruct (Finalize_denotes b stop) as (text & -> & Hd). by apply parse_denotes. Qed.

(** ** Structs from members *)

Ltac eval_fields :=
  repeat match goal with
  | |- context [String.eqb (fold_name ?a) (fold_name ?b)] =>
      let r := eval vm_compute in (String.eqb (fold_name a) (fold_name b)) in
      change (String.eqb (fold_name a) (fold_name b)) with r
  end; cbv beta iota.

(** Runs [dec_members] over members whose keys are known. *)
Ltac run_members := cbn [dec_members find_field field]; eval_fields.

Lemma dec_members_app {A} strict (fs : fields A) a l1 l2 :
  dec_members strict fs a (l1 ++ l2) =
  match dec_members strict fs a l1 with Some a' => dec_members strict fs a' l2 | None => None end.
Proof.
  revert a. induction l1 as [|[k v] l1 IH]; intros a; [done|]. cbn [app dec_members].
  destruct (find_field fs k) as [d|]; [by destruct (d a v)|]. destruct strict; [done|apply IH].
Qed.

Lemma dec_int_json lo hi cur z : lo <= z <= hi -> dec_int lo hi cur (int_json z) = Some z.
Proof.
  intros Hz. unfold dec_int, int_json. rewrite ParseDec_FormatD.
  destruct (Z.leb_spec lo z), (Z.leb_spec z hi); try lia. done.
Qed.

Lemma dec_int64_json cur z : is_i64 z -> dec_int64 cur (int_json z) = Some z.
Proof. unfold is_i64. intros Hz. apply dec_int_json. lia. Qed.

Lemma dec_uint_json bits cur z : 0 <= z < 2 ^ bits -> dec_uint bits cur (int_json z) = Some z.
Proof.
  intros Hz. transitivity (dec_int 0 (2 ^ bits - 1) cur (int_json z)); [|apply dec_int_json; lia].
  unfold dec_uint, int_json. destruct (FormatD_digits z) as (c & d & -> & Hd & _); [lia|].
  cbn [sall] in Hd. apply andb_true_iff in Hd as [Hc _]. apply is_digit_hexdigit in Hc.
  destruct (Ascii.eqb_spec c "-") as [->|_]; done.
Qed.

Lemma dec_slice_map {A B} (zero : A) (d : decoder A) (f : B -> json) (g : B -> A) cur l :
  (forall x, x ∈ l -> d zero (f x) = Some (g x)) -> dec_slice zero d cur (Arr (map f l)) = Some (map g l).
Proof.
  intros H. unfold dec_slice. induction l as [|x l IH]; [done|]. cbn [map mapM]. rewrite H by constructor.
  cbn. rewrite IH; [done|]. intros y Hy. apply H. by constructor.
Qed.

Lemma dec_slice_json {A} (zero : A) (d : decoder A) (f : A -> json) cur l :
  (forall x, x ∈ l -> d zero (f x) = Some x) -> dec_slice zero d cur (slice_json f l) = Some l.
Proof.
  intros H. destruct l as [|x l]; [done|]. unfold slice_json. rewrite (dec_slice_map zero d f id) by done. by rewrite map_id.
Qed.

Lemma dec_strings_json cur l : dec_slice "" dec_string cur (slice_json Str l) = Some l.
Proof. by apply dec_slice_json. Qed.

Lemma string_of_bytes_of s : string_of_bytes (bytes_of_string s) = s.
Proof. induction s as [|c s IH]; [done|]. cbn. by rewrite byte_of_val, IH. Qed.

Lemma length_bytes_of s : length (bytes_of_string s) = slen s.
Proof. induction s; [done|]. cbn. by f_equal. Qed.

Lemma bytes_of_range s : Forall (fun z => 0 <= z < 256) (bytes_of_string s).
Proof. induction s as [|c s IH]; constructor; [apply byte_val_range|done]. Qed.

Lemma dec_bytes_json n cur s : slen s = n -> dec_bytes n cur (bytes_json s) = Some s.
Proof.
  intros <-. unfold dec_bytes, bytes_json. rewrite take_ge by (rewrite length_map, length_bytes_of; done).
  assert (H : mapM (fun v => dec_uint 8 0 v) (map int_json (bytes_of_string s)) = Some (bytes_of_string s)).
  { rewrite <- (map_id (bytes_of_string s)) at 2. apply (dec_slice_map 0 (dec_uint 8) int_json id []).
    intros x Hx. apply dec_uint_json. pose proof (bytes_of_range s) as Hr. rewrite Forall_forall in Hr.
    apply (Hr x Hx). }
  rewrite H, length_bytes_of, Nat.sub_diag. cbn [replicate]. rewrite app_nil_r. f_equal. clear H.
  induction s as [|c s IH]; [done|]. cbn. by rewrite byte_of_val, IH.
Qed.

(** ** Sidecars *)

Definition valid_strings (l : list string) : Prop := Forall (fun s => valid_utf8 s = true) l.

Definition segment_ok (s : WALSegmentRecord) : Prop :=
  valid_utf8 (ws_Name s) = true /\ is_i64 (ws_Size s) /\ slen (ws_SHA256 s) = 32%nat.

(** Values the Go types hold, with strings that are text. *)
Record sidecar_ok (s : Sidecar) : Prop := {
  sok_strings : valid_strings ([sc_Server s; sc_Compression s; sc_Type s; sc_ParentBackupID s; sc_Annotation s] ++
                               sc_EncryptionRecipients s ++ sc_Directories s);
  sok_version : is_i64 (sc_Version s);
  sok_layout : is_i64 (sc_StorageLayoutVersion s);
  sok_system : is_u64 (sc_SystemIdentifier s);
  sok_segments : Forall segment_ok (sc_WALSegments s);
}.

Lemma dec_segment_json s : segment_ok s -> dec_struct true segment_fields zero_segment (segment_json s) = Some s.
Proof.
  intros (Hn & Hz & Hl). destruct s as [n z h]. cbn [ws_Name ws_Size ws_SHA256] in *. unfold segment_json, dec_struct.
  cbn [ws_Name ws_Size ws_SHA256]. unfold segment_fields. run_members. cbn [dec_string].
  rewrite dec_int64_json by done. cbn [ws_Name ws_Size ws_SHA256]. by rewrite dec_bytes_json.
Qed.

Lemma dec_segments_json cur l : Forall segment_ok l ->
  dec_slice zero_segment (dec_struct true segment_fields) cur (slice_json segment_json l) = Some l.
Proof. rewrite Forall_forall. intros H. apply dec_slice_json. intros x Hx. by apply dec_segment_json, H. Qed.

Lemma dec_members_step {A} strict (fs : fields A) a l1 l2 a' r :
  dec_members strict fs a l1 = Some a' -> dec_members strict fs a' l2 = r ->
  dec_members strict fs a (l1 ++ l2) = r.
Proof. intros E1 E2. by rewrite dec_members_app, E1. Qed.

Lemma dec_members_step1 {A} strict (fs : fields A) a kv l a' r :
  dec_members strict fs a [kv] = Some a' -> dec_members strict fs a' l = r ->
  dec_members strict fs a (kv :: l) = r.
Proof. intros E1 E2. by apply (dec_members_step strict fs a [kv] l a'). Qed.

Ltac run_fields :=
  unfold sidecar_fields, checkpoint_fields, entry_fields; run_members; cbn [dec_string dec_bool].

(** The next member, which leads to [a']. *)
Ltac step_member a' tac := apply (dec_members_step1 _ _ _ _ _ a'); [run_fields; tac; reflexivity|].

(** A field that may have been left out: either way the next value is [a']. *)
Ltac step_omitempty a' tac :=
  apply (dec_members_step _ _ _ _ _ a');
  [unfold omitempty; let H := fresh "Hempty" in
   match goal with |- dec_members _ _ _ (if ?b then _ else _) = _ => destruct b eqn:H end;
   [first [apply Z.eqb_eq in H | apply String.eqb_eq in H | apply negb_true_iff in H]; by rewrite H
   |run_fields; tac; reflexivity]|].

Lemma dec_sidecar_json s : sidecar_ok s -> dec_struct true sidecar_fields zero_sidecar (sidecar_json s) = Some s.
Proof.
  intros [_ Hv Hl Hsys Hseg]. destruct s as [v srv rec comp lay seg sys dirs ty par ann held].
  cbn [sc_Version sc_StorageLayoutVersion sc_SystemIdentifier sc_WALSegments] in *.
  unfold sidecar_json, dec_struct. cbn [sc_Version sc_Server sc_EncryptionRecipients sc_Compression
    sc_StorageLayoutVersion sc_WALSegments sc_SystemIdentifier sc_Directories sc_Type sc_ParentBackupID
    sc_Annotation sc_LockHeld]. unfold zero_sidecar.
  cbn [app].
  step_member (Build_Sidecar v "" [] "" 0 [] 0 [] "" "" "" false) ltac:(rewrite dec_int64_json by done).
  step_member (Build_Sidecar v srv [] "" 0 [] 0 [] "" "" "" false) idtac.
  step_member (Build_Sidecar v srv rec "" 0 [] 0 [] "" "" "" false) ltac:(rewrite dec_strings_json).
  step_member (Build_Sidecar v srv rec comp 0 [] 0 [] "" "" "" false) idtac.
  step_member (Build_Sidecar v srv rec comp lay [] 0 [] "" "" "" false) ltac:(rewrite dec_int64_json by done).
  step_member (Build_Sidecar v srv rec comp lay seg 0 [] "" "" "" false) ltac:(rewrite dec_segments_json by done).
  step_omitempty (Build_Sidecar v srv rec comp lay seg sys [] "" "" "" false) ltac:(rewrite dec_uint_json by done).
  step_member (Build_Sidecar v srv rec comp lay seg sys dirs "" "" "" false) ltac:(rewrite dec_strings_json).
  step_omitempty (Build_Sidecar v srv rec comp lay seg sys dirs ty "" "" false) idtac.
  step_omitempty (Build_Sidecar v srv rec comp lay seg sys dirs ty par "" false) idtac.
  step_omitempty (Build_Sidecar v srv rec comp lay seg sys dirs ty par ann false) idtac.
  destruct held; [|done]. cbn [negb omitempty]. unfold sidecar_fields. by run_members.
Qed.

(** The value of a sidecar has only text and numbers. *)
Lemma clean_int z : clean (int_json z).
Proof. apply FormatD_number. Qed.

Lemma clean_slice {A} (f : A -> json) l : Forall (fun x => clean (f x)) l -> clean (slice_json f l).
Proof. intros H. destruct l as [|x l]; [done|]. apply clean_arr, Forall_map, H. Qed.

Lemma clean_bytes s : clean (bytes_json s).
Proof. apply clean_arr, Forall_map, Forall_true, clean_int. Qed.

Lemma clean_omitempty b k v l :
  valid_utf8 k = true -> clean v -> Forall (fun '(k, v) => valid_utf8 k = true /\ clean v) l ->
  Forall (fun '(k, v) => valid_utf8 k = true /\ clean v) (omitempty b k v ++ l).
Proof. intros Hk Hv Hl. destruct b; [done|]. by constructor. Qed.

Lemma clean_strings l : valid_strings l -> clean (slice_json Str l).
Proof. intros H. by apply clean_slice. Qed.

Lemma clean_segment s : segment_ok s -> clean (segment_json s).
Proof.
  intros (Hn & _ & _). apply clean_obj.
  repeat (apply Forall_cons; split; [split; [reflexivity|]|]); [done|apply clean_int|apply clean_bytes|constructor].
Qed.

Lemma clean_sidecar s : sidecar_ok s -> clean (sidecar_json s).
Proof.
  intros [Hs _ _ _ Hseg]. unfold valid_strings in Hs. rewrite !Forall_app in Hs. destruct Hs as (Hs & Hrec & Hdirs).
  repeat match goal with H : Forall _ (_ :: _) |- _ => apply Forall_cons in H as [? H] end.
  apply clean_obj. unfold sidecar_json. cbn [app].
  repeat first [apply Forall_nil_2 | apply clean_omitempty | apply Forall_cons; split; [split; [reflexivity|]|]];
    try done; try apply clean_int; try by apply clean_strings.
  - apply clean_slice. eapply Forall_impl; [exact Hseg|]. apply clean_segment.
  - rewrite <- (app_nil_r (omitempty _ _ _)). by apply clean_omitempty.
Qed.

Lemma sidecar_text_parses s : sidecar_ok s -> UnmarshalSidecar (MarshalIndent 0 (sidecar_json s)) = Ok s.
Proof.
  intros Hok. unfold UnmarshalSidecar.
  by rewrite (Decode_MarshalIndent _ _ _ s) by (by apply clean_sidecar || by apply dec_sidecar_json).
Qed.

(** Plain characters are text. *)
Lemma plain_utf8 s : sall plain_char s = true -> valid_utf8 s = true.
Proof.
  intros Hs. apply String.eqb_eq. induction s as [|c s IH]; [done|]. cbn [sall] in Hs. apply andb_true_iff in Hs as [Hc Hs].
  cbn [sanitize]. assert (Hw : rune_width (String c s) = 1%nat).
  { unfold rune_width, byte_in at 1. cbn [sget String.get]. unfold plain_char in Hc. rewrite !andb_true_iff in Hc.
    pose proof (byte_val_range c). replace ((0 <=? byte_val c) && (byte_val c <=? 127)) with true by (symmetry; lia). done. }
  rewrite Hw, IH by done. done.
Qed.

(** A sidecar comes back from its text as it was, whatever optional fields it has, as long
    as its strings are UTF-8 and its numbers fit their Go types. *)
Theorem Sidecar_roundtrip s : sidecar_ok s ->
  exists text, MarshalSidecar s = Ok text /\ UnmarshalSidecar text = Ok s.
Proof.
  intros Hok. eexists. split; [reflexivity|]. by apply sidecar_text_parses.
Qed.

(** ** A small backup *)

Definition sample_info : BackupStartInfo :=
  {| bs_SystemIdentifier := 7; bs_Timeline := 1; bs_StartLSN := 0x2000028; bs_StartTime := Date 2026 4 1 10 0 0 |}.
Definition sample_stop : BackupStopInfo := {| be_StopLSN := 0x2000100; be_StopTime := Date 2026 4 1 10 1 0 |}.
Definition sample_digest : string := Sum256 "18".
Definition sample_builder : Builder :=
  AddFile (NewBuilder sample_info) "PG_VERSION" 2 sample_digest (Date 2026 4 1 9 0 0).
Definition sample_sidecar : Sidecar :=
  {| sc_Version := 3; sc_Server := "db"; sc_EncryptionRecipients := []; sc_Compression := "none";
     sc_StorageLayoutVersion := 1; sc_WALSegments := []; sc_SystemIdentifier := 7; sc_Directories := ["pg_notify"];
     sc_Type := "full"; sc_ParentBackupID := ""; sc_Annotation := "say " +:+ quoted "hi"; sc_LockHeld := false |}.

Lemma sample_sidecar_ok : sidecar_ok sample_sidecar.
Proof.
  split; try (unfold is_i64, is_u64; cbn; lia); [|constructor]. unfold valid_strings. cbn [sample_sidecar sc_Server
    sc_Compression sc_Type sc_ParentBackupID sc_Annotation sc_EncryptionRecipients sc_Directories app].
  repeat (apply Forall_cons; split; [reflexivity|]). constructor.
Qed.

Lemma Sidecar_roundtrip_witness :
  exists text, MarshalSidecar sample_sidecar = Ok text /\ UnmarshalSidecar text = Ok sample_sidecar.
Proof. exact (Sidecar_roundtrip sample_sidecar sample_sidecar_ok). Defined.
