(* ===== verification/Info.v ===== *)
(** * The listing of backups

    [internal/info/info.go] and [internal/info/format.go]: the records built from
    the sidecar and the manifest of every backup of a storage. *)

From S2P Require Import Prelude Lsn Storage Host Time Json Manifest.

(** [BackupRecord] *)
Record BackupRecord := {
  r_BackupID : string;
  r_Type : string;
  r_ParentBackupID : string;
  r_Server : string;
  r_Compression : string;
  r_Recipients : list string;
  r_Annotation : string;
  r_StartLSN : string;
  r_StopLSN : string;
  r_Timeline : Z;
  r_StartTime : time;
  r_StopTime : time;
  r_Files : Z;
  r_Bytes : Z;
}.

(** [Warning] *)
Record Warning := { wn_BackupID : string; wn_Err : error }.

(** [BackupRecord.Age]; [now] is what [time.Since] reads. *)
Definition Age (now : time) (r : BackupRecord) : Z :=
  if IsZero (r_StopTime r) then 0 else Sub now (r_StopTime r).

(** [manifestHeader] *)
Record manifestHeader := {
  h_Timeline : Z;
  h_StartLSN : string;
  h_StopLSN : string;
  h_StartTime : time;
  h_StopTime : time;
  h_FileCount : Z;
  h_Bytes : Z;
}.

(** [rawFile], [rawWALRange] and the struct [readManifestHeader] decodes into, with
    their tags. *)
Record rawFile := { rw_Path : string; rw_Size : Z; rw_LastModified : string }.
Record rawWALRange := { rr_Timeline : Z; rr_StartLSN : string; rr_EndLSN : string }.
Record rawManifest := { rm_Files : list rawFile; rm_WALRanges : list rawWALRange }.

Definition zero_rawFile : rawFile := Build_rawFile "" 0 "".
Definition zero_rawWALRange : rawWALRange := Build_rawWALRange 0 "" "".

Definition rawFile_fields : fields rawFile :=
  [field "Path" rw_Path (fun x f => Build_rawFile x (rw_Size f) (rw_LastModified f)) dec_string;
   field "Size" rw_Size (fun x f => Build_rawFile (rw_Path f) x (rw_LastModified f)) dec_int64;
   field "Last-Modified" rw_LastModified (fun x f => Build_rawFile (rw_Path f) (rw_Size f) x) dec_string].

Definition rawWALRange_fields : fields rawWALRange :=
  [field "Timeline" rr_Timeline (fun x r => Build_rawWALRange x (rr_StartLSN r) (rr_EndLSN r)) (dec_uint 32);
   field "Start-LSN" rr_StartLSN (fun x r => Build_rawWALRange (rr_Timeline r) x (rr_EndLSN r)) dec_string;
   field "End-LSN" rr_EndLSN (fun x r => Build_rawWALRange (rr_Timeline r) (rr_StartLSN r) x) dec_string].

Definition raw_fields : fields rawManifest :=
  [field "Files" rm_Files (fun x m => Build_rawManifest x (rm_WALRanges m))
     (dec_slice zero_rawFile (dec_struct false rawFile_fields));
   field "WAL-Ranges" rm_WALRanges (fun x m => Build_rawManifest (rm_Files m) x)
     (dec_slice zero_rawWALRange (dec_struct false rawWALRange_fields))].

(** The loop of [readManifestHeader] over the files: byte total, first and last
    modification time. *)
Fixpoint header_files (bytes : Z) (start stop : time) (fs : list rawFile) : Z * time * time :=
  match fs with
  | [] => (bytes, start, stop)
  | f :: fs' =>
      let bytes := i64 (bytes + rw_Size f) in
      match ParseGMT (rw_LastModified f) with
      | Some t =>
          let start := if IsZero start || Before t start then t else start in
          let stop := if After t stop then t else stop in
          header_files bytes start stop fs'
      | None => header_files bytes start stop fs'
      end
  end.

Definition header_of (raw : rawManifest) : manifestHeader :=
  let '(bytes, start, stop) := header_files 0 zero_time zero_time (rm_Files raw) in
  let '(tli, slsn, elsn) :=
    match rm_WALRanges raw with
    | [] => (0, "", "")
    | r :: _ => (rr_Timeline r, rr_StartLSN r, rr_EndLSN r)
    end in
  {| h_Timeline := tli; h_StartLSN := slsn; h_StopLSN := elsn; h_StartTime := start;
     h_StopTime := stop; h_FileCount := Z.of_nat (length (rm_Files raw)); h_Bytes := bytes |}.

(** What [loadOne] reads off the name: the type, and the parent of
    ["<parent>_<ts>I"]. *)
Definition type_of_id (id : string) : string * string :=
  if HasSuffix id "I" then
    (BackupTypeIncremental,
     match LastIndexByte (stake (slen id - 1) id) "_" with
     | Some (S i) => stake (S i) id
     | _ => ""
     end)
  else if HasSuffix id "F" then (BackupTypeFull, "")
  else ("", "").

(** The first component of the paths that have more than one, when it looks like
    the ID of a backup. *)
Definition backup_dir (p : string) : option string :=
  match Cut p "/" with
  | Some (first, _) =>
      if negb (HasSuffix first "F") && negb (HasSuffix first "I") then None else Some first
  | None => None
  end.

Section info.
Context {W : Type} `{Backend W}.

(** [readSidecar] *)
Definition readSidecar (backupID : string) : M W Sidecar :=
  body <- be_Get (path_Join [backupID; "Storage-Metadata.json"]) ;;
  of_result (UnmarshalSidecar body).

(** [readManifestHeader] *)
Definition readManifestHeader (backupID : string) : M W manifestHeader :=
  body <- be_Get (path_Join [backupID; "backup_manifest"]) ;;
  raw <- of_result (Unmarshal (dec_struct false raw_fields) (Build_rawManifest [] []) body) ;;
  ret (header_of raw).

(** [loadOne] *)
Definition loadOne (backupID : string) : M W BackupRecord :=
  let '(ty, parent) := type_of_id backupID in
  sc <- wrapping "read sidecar" (readSidecar backupID) ;;
  let ty := if String.eqb (sc_Type sc) "" then ty else sc_Type sc in
  let parent := if String.eqb (sc_ParentBackupID sc) "" then parent else sc_ParentBackupID sc in
  h <- try (readManifestHeader backupID) ;;
  let h := match h with
           | Ok h => h
           | Fail _ => {| h_Timeline := 0; h_StartLSN := ""; h_StopLSN := ""; h_StartTime := zero_time;
                          h_StopTime := zero_time; h_FileCount := 0; h_Bytes := 0 |}
           end in
  ret {| r_BackupID := backupID; r_Type := ty; r_ParentBackupID := parent;
         r_Server := sc_Server sc; r_Compression := sc_Compression sc;
         r_Recipients := sc_EncryptionRecipients sc; r_Annotation := sc_Annotation sc;
         r_StartLSN := h_StartLSN h; r_StopLSN := h_StopLSN h; r_Timeline := h_Timeline h;
         r_StartTime := h_StartTime h; r_StopTime := h_StopTime h;
         r_Files := h_FileCount h; r_Bytes := h_Bytes h |}.

(** [List]: the set of directories is sorted, so the order in which the map holds
    them does not show. *)
Definition List : M W (list BackupRecord * list Warning) :=
  all <- wrapping "info: List" (be_List "") ;;
  let ids := sort_strings (remove_dups (omap backup_dir (fi_Path <$> all))) in
  forM ids ([], []) (fun '(out, warnings) id =>
    rec <- try (loadOne id) ;;
    match rec with
    | Fail err => ret (out, warnings ++ [{| wn_BackupID := id; wn_Err := err |}])
    | Ok rec => ret (out ++ [rec], warnings)
    end).
End info.

(** ** Formatting *)

(** [%.1f] of [n / d]: one decimal, ties to even. The quotients are exact in
    [float64] up to the rounding of [n] itself, which is exact below 2^53. *)
Definition Format1f (n d : Z) : string :=
  let q := 10 * n / d in
  let r := (10 * n) mod d in
  let q := if (d <? 2 * r) || ((2 * r =? d) && Z.odd q) then q + 1 else q in
  FormatD (q / 10) +:+ "." +:+ FormatD (q mod 10).

(** [humanBytes] *)
Definition humanBytes (n : Z) : string :=
  let k := 1024 in
  if n <=? 0 then "-"
  else if n <? k then FormatD n +:+ " B"
  else if n <? k * k then Format1f n k +:+ " KiB"
  else if n <? k * k * k then Format1f n (k * k) +:+ " MiB"
  else if n <? k * k * k * k then Format1f n (k * k * k) +:+ " GiB"
  else if n <? k * k * k * k * k then Format1f n (k * k * k * k) +:+ " TiB"
  else Format1f n (k * k * k * k * k) +:+ " PiB".

(** [humanAge] *)
Definition humanAge (d : Z) : string :=
  if d <=? 0 then "-"
  else if d <? Minute then FormatD (d / Second) +:+ "s"
  else if d <? Hour then FormatD (d / Minute) +:+ "m"
  else if d <? 24 * Hour then FormatD (d / Hour) +:+ "h"
  else if d <? 365 * 24 * Hour then FormatD (d / Hour / 24) +:+ "d"
  else FormatD (d / Hour / (24 * 365)) +:+ "y".

Example humanBytes_ex : humanBytes 1536 = "1.5 KiB".
Proof. reflexivity. Qed.

Example type_of_id_ex :
  type_of_id "20260101T000000F_20260102T000000I" = ("incremental", "20260101T000000F").
Proof. reflexivity. Qed.
