(* ===== verification/InfoSpec.v ===== *)
(** * What a listing shows

    Every backup of the storage is in the listing as its sidecar says, or in a warning. *)

From S2P Require Import Prelude Storage Keys Host Time Json Manifest Info.

(** The storage holds the sidecar [sc] of the backup [id]. *)
Definition sidecar_at (v : gmap string string) (id : string) (sc : Sidecar) : Prop :=
  exists text, v !! path_Join [id; "Storage-Metadata.json"] = Some text /\ UnmarshalSidecar text = Ok sc.

(** The storage has a file of a backup [id]. *)
Definition backup_at (v : gmap string string) (id : string) : Prop :=
  exists p, is_Some (v !! p) /\ valid_key p = true /\ under "" p = true /\ backup_dir p = Some id.

(** The record says what the sidecar says. *)
Definition record_of (v : gmap string string) (r : BackupRecord) : Prop :=
  valid_key (r_BackupID r) = true /\
  exists sc, sidecar_at v (r_BackupID r) sc /\ r_Server r = sc_Server sc /\
    r_Type r = (if String.eqb (sc_Type sc) "" then fst (type_of_id (r_BackupID r)) else sc_Type sc) /\
    r_ParentBackupID r = (if String.eqb (sc_ParentBackupID sc) "" then snd (type_of_id (r_BackupID r)) else sc_ParentBackupID sc).

Section listing.
Context {W : Type} `{BackendLaws W}.

Lemma backup_dir_key p id : valid_key p = true -> backup_dir p = Some id -> valid_key id = true.
Proof.
  unfold backup_dir. destruct (Cut p "/") as [[a b]|] eqn:E; [|done]. apply Cut_Some in E as [-> _].
  intros Hk. destruct (_ && _); [done|]. intros [= <-]. by eapply valid_key_dir.
Qed.

Lemma get_inv p w c w' : valid_key p = true -> be_Get p w = (Ok c, w') -> view w !! p = Some c.
Proof. intros Hk Hg. destruct (get_spec p w Hk) as (_ & Hok & _). by apply (Hok c w'). Qed.

Lemma loadOne_spec id w r w' : valid_key id = true -> loadOne id w = (r, w') ->
  view w' = view w /\ forall rec, r = Ok rec -> r_BackupID rec = id /\ record_of (view w) rec.
Proof.
  intros Hid. destruct (valid_key_join id "Storage-Metadata.json" Hid eq_refl) as [_ Hk1].
  destruct (valid_key_join id "backup_manifest" Hid eq_refl) as [_ Hk2]. intros Hrun. split.
  - assert (Hp : preserves same_view (loadOne id)).
    { unfold loadOne, readSidecar, readManifestHeader. destruct (type_of_id id). auto 10 with go typeclass_instances. }
    specialize (Hp w). by rewrite Hrun in Hp.
  - intros rec ->. unfold loadOne in Hrun. destruct (type_of_id id) as [ty parent] eqn:Et.
    apply bind_inv_Ok in Hrun as (sc & w1 & Hsc%wrapping_inv_Ok & Hrun). apply bind_inv_Ok in Hrun as (h & w2 & _ & [= <- _]).
    split; [done|]. apply bind_inv_Ok in Hsc as (text & w0 & Hg & Hu). split; [done|]. exists sc. cbn [r_BackupID r_Server r_Type r_ParentBackupID]. rewrite Et.
    split_and!; [|done..]. exists text. split; [by eapply get_inv|]. unfold of_result in Hu. by injection Hu.
Qed.

Lemma loadAll_spec ids recs ws w out w' : Forall (fun id => valid_key id = true) ids ->
  forM ids (recs, ws) (fun '(out, warnings) id =>
    rec <- try (loadOne id) ;;
    match rec with
    | Fail err => ret (out, warnings ++ [{| wn_BackupID := id; wn_Err := err |}])
    | Ok rec => ret (out ++ [rec], warnings)
    end) w = (Ok out, w') ->
  view w' = view w /\ exists recs' ws', out = (recs ++ recs', ws ++ ws') /\ Forall (record_of (view w)) recs' /\
    (forall id, id ∈ ids -> id ∈ (r_BackupID <$> recs') \/ id ∈ (wn_BackupID <$> ws')).
Proof.
  intros Hids. revert recs ws w. induction Hids as [|id ids Hid Hids IH]; intros recs ws w; cbn [forM].
  - intros [= <- <-]. split; [done|]. exists [], []. rewrite !app_nil_r. split_and!; [done|constructor|]. intros id []%elem_of_nil.
  - unfold bind at 1 2, try. destruct (loadOne id w) as [r w1] eqn:E. destruct (loadOne_spec id w r w1 Hid E) as [Hv Hok].
    destruct r as [rec|err]; unfold ret at 1; intros Hrun; apply IH in Hrun as (Hv' & recs' & ws' & -> & Hr & Hall); (split; [congruence|]); rewrite Hv in Hr.
    + destruct (Hok rec eq_refl) as [Hrid Hrec]. exists (rec :: recs'), ws'. rewrite <- app_assoc. split_and!; [done|by constructor|].
      intros i [->|Hi]%elem_of_cons; [left; rewrite fmap_cons, Hrid; by constructor|]. destruct (Hall i Hi); [left; rewrite fmap_cons; by constructor|by right].
    + exists recs', ({| wn_BackupID := id; wn_Err := err |} :: ws'). rewrite <- app_assoc. split_and!; [done|done|].
      intros i [->|Hi]%elem_of_cons; [right; rewrite fmap_cons; by constructor|]. destruct (Hall i Hi); [by left|right; rewrite fmap_cons; by constructor].
Qed.

(** Every backup of the storage is listed, as its sidecar says, or warned about. *)
Lemma List_spec w r w' : Info.List w = (r, w') -> view w' = view w /\ forall recs ws, r = Ok (recs, ws) ->
  Forall (record_of (view w)) recs /\
  forall id, backup_at (view w) id -> id ∈ (r_BackupID <$> recs) \/ id ∈ (wn_BackupID <$> ws).
Proof.
  unfold Info.List. unfold bind at 1, wrapping at 1. pose proof (list_view "" w) as Hv. destruct (list_spec "" w) as [_ Hl].
  destruct (be_List "" w) as [[infos|err] w1] eqn:E; unfold same_view in Hv; cbn [snd map_error] in *; [|by intros [= <- <-]].
  destruct (Hl infos w1 eq_refl) as [_ Hin]. set (ids := sort_strings _). intros Hrun.
  assert (Hids : Forall (fun id => valid_key id = true) ids).
  { apply Forall_forall. intros id Hid. unfold ids in Hid. rewrite elem_of_sort_strings, elem_of_remove_dups in Hid.
    apply list_elem_of_omap in Hid as (p & Hp & Hd). apply list_elem_of_fmap in Hp as (fi & -> & Hfi). by eapply backup_dir_key; [apply Hin|]. }
  match type of Hrun with forM _ _ ?b _ = _ => destruct (forM ids ([], []) b w1) as [[[recs ws]|e] w2] eqn:Ef end.
  - apply loadAll_spec in Ef as (Hv2 & recs' & ws' & [= -> ->] & Hr & Hall); [|done]. injection Hrun as <- <-. split; [congruence|].
    intros recs ws [= <- <-]. rewrite <- Hv. split; [done|]. intros id (p & Hp & Hk & Hu & Hd). apply Hall. unfold ids.
    rewrite elem_of_sort_strings, elem_of_remove_dups. apply list_elem_of_omap. exists p. split; [|done].
    rewrite Hv in Hp. by eapply list_complete.
  - injection Hrun as <- <-. split; [|done].
    assert (Hp : preserves same_view (forM ids (([], []) : list BackupRecord * list Warning) (fun '(out, warnings) id =>
      rec <- try (loadOne id) ;;
      match rec with Fail err => ret (out, warnings ++ [{| wn_BackupID := id; wn_Err := err |}]) | Ok rec => ret (out ++ [rec], warnings) end))).
    { apply preserves_forM; [tc_solve|]. intros [o wn] id Hid. rewrite Forall_forall in Hids. apply preserves_bind; [tc_solve| |intros [?|?]; apply preserves_ret; tc_solve].
      intros w0. unfold try. destruct (loadOne id w0) as [r0 w0'] eqn:E0. by apply loadOne_spec in E0 as [? _]; [|apply Hids]. }
    specialize (Hp w1). rewrite Ef in Hp. unfold same_view in Hp. cbn [snd] in Hp. congruence.
Qed.
End listing.
