(* ===== verification/Retention.v ===== *)
(** * Retention

    [internal/retention/retention.go]: which backups a policy keeps, and the WAL
    position the kept ones still need. *)

From S2P Require Import Prelude Lsn Time Host Manifest Info.

(** [Policy] *)
Record Policy := {
  KeepFulls : Z;
  KeepFullAge : Z;
  KeepDaily : Z;
  KeepWeekly : Z;
  KeepMonthly : Z;
  Now : time;
}.

(** [Plan] *)
Record Plan := {
  ExpirableBackupIDs : list string;
  OldestNeededLSN : LSN;
  KeptBackupIDs : list string;
}.

(** [Policy.Validate] *)
Definition Validate (p : Policy) : result unit :=
  if (KeepFulls p =? 0) && (KeepFullAge p =? 0) && (KeepDaily p =? 0) &&
     (KeepWeekly p =? 0) && (KeepMonthly p =? 0)
  then Fail (errors_Sentinel ErrEmptyPolicy "retention: empty policy (specify at least one keep_* rule)")
  else Ok tt.

(** [chain] *)
Record chain := Chain { full : BackupRecord; incrementals : list BackupRecord }.

(** [chain.all] *)
Definition all (c : chain) : list BackupRecord := full c :: incrementals c.

Definition zero_record : BackupRecord :=
  {| r_BackupID := ""; r_Type := ""; r_ParentBackupID := ""; r_Server := ""; r_Compression := "";
     r_Recipients := []; r_Annotation := ""; r_StartLSN := ""; r_StopLSN := ""; r_Timeline := 0;
     r_StartTime := zero_time; r_StopTime := zero_time; r_Files := 0; r_Bytes := 0 |}.

(** What indexing a [map[string]chain] gives for an absent key. *)
Definition zero_chain : chain := Chain zero_record [].

(** [m[r.BackupID] = r] for every [r]: the last record of an ID stays. *)
Definition index_by_id (rs : list BackupRecord) : gmap string BackupRecord :=
  foldl (fun m r => <[r_BackupID r := r]> m) ∅ rs.

Definition is_full (r : BackupRecord) : bool := String.eqb (r_Type r) BackupTypeFull.
Definition is_incremental (r : BackupRecord) : bool := String.eqb (r_Type r) BackupTypeIncremental.

(** The loop of [rootOf]; [i] counts its iterations down. *)
Fixpoint rootOf_go (i : nat) (byID : gmap string BackupRecord) (cur : BackupRecord) : string :=
  match i with
  | O => ""
  | S i' =>
      if is_full cur then r_BackupID cur
      else match byID !! r_ParentBackupID cur with
           | None => ""
           | Some parent => rootOf_go i' byID parent
           end
  end.

(** [rootOf] *)
Definition rootOf (r : BackupRecord) (all : list BackupRecord) : string :=
  rootOf_go (length all + 1) (index_by_id all) r.

(** One round of the second loop of [groupChains]. *)
Definition add_incremental (all : list BackupRecord) (chains : gmap string chain) (r : BackupRecord)
  : gmap string chain :=
  if negb (is_incremental r) then chains
  else
    let root := rootOf r all in
    if String.eqb root "" then chains
    else
      let c := default zero_chain (chains !! root) in
      <[root := Chain (full c) (incrementals c ++ [r])]> chains.

(** [groupChains] *)
Definition groupChains (records : list BackupRecord) : gmap string chain :=
  let fulls := index_by_id (base.filter is_full records) in
  let chains := (fun f => Chain f []) <$> fulls in
  foldl (add_incremental records) chains records.

(** [byNewestFullStopTime] *)
Definition byNewestFullStopTime (chains : gmap string chain) (a b : string) : bool :=
  let fa := full (default zero_chain (chains !! a)) in
  let fb := full (default zero_chain (chains !! b)) in
  if negb (Equal (r_StopTime fa) (r_StopTime fb)) then After (r_StopTime fa) (r_StopTime fb)
  else String.ltb (r_BackupID fa) (r_BackupID fb).

Definition not_less (less : string -> string -> bool) : relation string :=
  fun a b => less b a = false.

#[export] Instance not_less_dec less : RelDecision (not_less less).
Proof. intros a b. unfold not_less. apply _. Defined.

(** [truncateToDay], [truncateToWeek] and [monthsBetween] *)
Definition truncateToDay (t : time) : time :=
  DateMidnight (Year t) (Month t) (DayOfMonth t) (t_off t).

Definition truncateToWeek (t : time) : time :=
  let d := truncateToDay t in
  let wd := Weekday d in
  AddDays d (- wd).

Definition monthsBetween (t now : time) : Z :=
  (Year now - Year t) * 12 + (Month now - Month t).

(** [dayBucket], [weekBucket] and [monthBucket]; [int(d.Hours() / n)] drops the
    fraction towards zero. *)
Definition dayBucket (now t : time) : Z :=
  let today := truncateToDay now in
  Z.quot (Sub today (truncateToDay t)) (24 * Hour).

Definition weekBucket (now t : time) : Z :=
  let thisWeek := truncateToWeek now in
  Z.quot (Sub thisWeek (truncateToWeek t)) (24 * 7 * Hour).

Definition monthBucket (now t : time) : Z := monthsBetween t now.

(** The newest entry of a bucket, the first of equal ones. *)
Definition newest (best : string * time) (entries : list (string * time)) : string * time :=
  foldl (fun best e => if After (snd e) (snd best) then e else best) best entries.

Section evaluate.

(** The order a [range] loop visits a map in: the [n]-th loop may use its own. *)
Context (range : nat -> forall A, gmap string A -> list (string * A)).

(** [orderedChainKeys] *)
Definition orderedChainKeys (chains : gmap string chain) (less : string -> string -> bool) : list string :=
  merge_sort (not_less less) (range 0 chain chains).*1.

(** [applyBucketRule]: the entries of each bucket in the order of the loop. *)
Definition applyBucketRule (site : nat) (chains : gmap string chain) (keep : gset string) (n : Z)
    (bucket : time -> Z) : gset string :=
  if n <=? 0 then keep
  else
    let byBucket : gmap Z (list (string * time)) :=
      foldl (fun m '(k, ch) =>
        let t := r_StopTime (full ch) in
        if IsZero t then m
        else
          let idx := bucket t in
          if (idx <? 0) || (n <=? idx) then m
          else <[idx := default [] (m !! idx) ++ [(k, t)]]> m)
        ∅ (range site chain chains) in
    map_fold (fun _ entries keep =>
      match entries with
      | [] => keep
      | e :: rest => {[fst (newest e rest)]} ∪ keep
      end) keep byBucket.

(** The rules of [Evaluate], in order. *)
Definition keep_fulls (policy : Policy) (chains : gmap string chain) : gset string :=
  if 0 <? KeepFulls policy then
    list_to_set (take (Z.to_nat (KeepFulls policy))
                   (orderedChainKeys chains (byNewestFullStopTime chains)))
  else ∅.

Definition keep_full_age (policy : Policy) (now : time) (chains : gmap string chain) (keep : gset string)
  : gset string :=
  if 0 <? KeepFullAge policy then
    let cutoff := Add now (- KeepFullAge policy) in
    foldl (fun keep '(k, ch) =>
      if negb (IsZero (r_StopTime (full ch))) && After (r_StopTime (full ch)) cutoff
      then {[k]} ∪ keep else keep) keep (range 1 chain chains)
  else keep.

Definition keep_rules (policy : Policy) (now : time) (chains : gmap string chain) : gset string :=
  let keep := keep_fulls policy chains in
  let keep := keep_full_age policy now chains keep in
  let keep := if 0 <? KeepDaily policy
              then applyBucketRule 2 chains keep (KeepDaily policy) (dayBucket now) else keep in
  let keep := if 0 <? KeepWeekly policy
              then applyBucketRule 3 chains keep (KeepWeekly policy) (weekBucket now) else keep in
  if 0 <? KeepMonthly policy
  then applyBucketRule 4 chains keep (KeepMonthly policy) (monthBucket now) else keep.

(** The last loop of [Evaluate]: expirable and kept IDs, the least start position
    so far, and whether there was one. *)
Definition plan_step (keep : gset string) (st : list string * list string * LSN * bool)
    (kc : string * chain) : list string * list string * LSN * bool :=
  let '(expirable, kept, minLSN, anyKept) := st in
  let '(k, ch) := kc in
  if decide (k ∈ keep) then
    let lsn := match ParseLSN (r_StartLSN (full ch)) with Ok l => l | Fail _ => 0 end in
    let '(minLSN, anyKept) :=
      if negb anyKept || (lsn <? minLSN) then (lsn, true) else (minLSN, anyKept) in
    (expirable, kept ++ (r_BackupID <$> all ch), minLSN, anyKept)
  else (expirable ++ (r_BackupID <$> all ch), kept, minLSN, anyKept).

(** [Evaluate]; [wall] is what [time.Now] reads. *)
Definition Evaluate (wall : time) (records : list BackupRecord) (policy : Policy) : result Plan :=
  match Validate policy with
  | Fail err => Fail err
  | Ok _ =>
      let now := if IsZero (Now policy) then wall else Now policy in
      let chains := groupChains records in
      let keep := keep_rules policy now chains in
      let '(expirable, kept, minLSN, _) :=
        foldl (plan_step keep) ([], [], 0, false) (range 5 chain chains) in
      Ok {| ExpirableBackupIDs := sort_strings expirable;
            KeptBackupIDs := sort_strings kept;
            OldestNeededLSN := minLSN |}
  end.
End evaluate.

(** ** Chains *)

Lemma index_by_id_spec rs k r :
  index_by_id rs !! k = Some r -> r ∈ rs /\ r_BackupID r = k.
Proof.
  unfold index_by_id. induction rs as [|x rs IH] using rev_ind; [done|].
  rewrite foldl_snoc, elem_of_app. destruct (decide (r_BackupID x = k)) as [<-|Hne].
  - rewrite lookup_insert_eq. intros [= ->]. split; [|done]. right. by apply list_elem_of_singleton.
  - rewrite lookup_insert_ne by done. naive_solver.
Qed.

Lemma index_by_id_dom rs r : r ∈ rs -> is_Some (index_by_id rs !! r_BackupID r).
Proof.
  unfold index_by_id. induction rs as [|x rs IH] using rev_ind; [by intros ?%not_elem_of_nil|].
  rewrite foldl_snoc, elem_of_app, list_elem_of_singleton.
  destruct (decide (r_BackupID x = r_BackupID r)) as [->|Hne].
  - rewrite lookup_insert_eq. eauto.
  - rewrite lookup_insert_ne by done. intros [Hr| ->]; [by apply IH|done].
Qed.

Lemma nodup_id_inj rs (r s : BackupRecord) :
  NoDup (r_BackupID <$> rs) -> r ∈ rs -> s ∈ rs -> r_BackupID r = r_BackupID s -> r = s.
Proof.
  induction rs as [|x rs IH]; [intros _ H; by apply not_elem_of_nil in H|].
  rewrite fmap_cons, NoDup_cons, !elem_of_cons. intros [Hx Hnd] [->|Hr] [->|Hs] Heq; auto.
  - destruct Hx. rewrite Heq. by apply list_elem_of_fmap_2.
  - destruct Hx. rewrite <- Heq. by apply list_elem_of_fmap_2.
Qed.

Lemma index_by_id_lookup rs r :
  NoDup (r_BackupID <$> rs) -> r ∈ rs -> index_by_id rs !! r_BackupID r = Some r.
Proof.
  intros Hnd Hr. destruct (index_by_id_dom rs r Hr) as [s Hs].
  destruct (index_by_id_spec _ _ _ Hs) as [Hin Hid]. by rewrite Hs, (nodup_id_inj rs r s Hnd Hr Hin (eq_sym Hid)).
Qed.

Lemma full_not_incremental r : is_full r = true -> is_incremental r = false.
Proof. unfold is_full, is_incremental. intros ->%String.eqb_eq. done. Qed.

(** The fulls of a listing, and the incrementals that descend from one. *)
Definition fulls (rs : list BackupRecord) : gmap string BackupRecord :=
  index_by_id (base.filter is_full rs).

Definition descends (all : list BackupRecord) (k : string) (r : BackupRecord) : bool :=
  is_incremental r && negb (String.eqb (rootOf r all) "") && String.eqb (rootOf r all) k.

Lemma rootOf_go_full i rs r :
  (is_full r = true -> r ∈ rs) -> rootOf_go i (index_by_id rs) r <> "" ->
  is_Some (fulls rs !! rootOf_go i (index_by_id rs) r).
Proof.
  revert r. induction i as [|i IH]; intros r Hr; simpl; [done|].
  destruct (is_full r) eqn:Hf.
  - intros _. apply (index_by_id_dom (base.filter is_full rs)). apply elem_of_bfilter. auto.
  - destruct (index_by_id rs !! r_ParentBackupID r) as [p|] eqn:Hp; [|done].
    apply index_by_id_spec in Hp as [Hin _]. apply IH. auto.
Qed.

Lemma rootOf_full rs r :
  is_incremental r = true -> rootOf r rs <> "" -> is_Some (fulls rs !! rootOf r rs).
Proof.
  intros Hi. apply rootOf_go_full. intros Hf. apply full_not_incremental in Hf. congruence.
Qed.

Lemma add_incrementals_lookup rs l k :
  foldl (add_incremental rs) ((fun f => Chain f []) <$> fulls rs) l !! k =
  (fun f => Chain f (base.filter (descends rs k) l)) <$> fulls rs !! k.
Proof.
  revert k. induction l as [|r l IH] using rev_ind; intros k; [simpl; by rewrite lookup_fmap|].
  rewrite foldl_snoc, filter_app, filter_cons, filter_nil. unfold add_incremental at 1.
  assert (Hno : descends rs k r = false ->
    (fun f => Chain f (base.filter (descends rs k) l)) <$> fulls rs !! k =
    (fun f => Chain f (base.filter (descends rs k) l ++
       (if decide (descends rs k r) then [r] else []))) <$> fulls rs !! k).
  { intros Hd. rewrite decide_False by (rewrite Hd; intros []). by rewrite app_nil_r. }
  destruct (is_incremental r) eqn:Hi; cbn [negb].
  2:{ rewrite IH. apply Hno. unfold descends. by rewrite Hi. }
  destruct (String.eqb_spec (rootOf r rs) "") as [He|He].
  { rewrite IH. apply Hno. unfold descends. by rewrite He, andb_false_r. }
  destruct (decide (rootOf r rs = k)) as [<-|Hk].
  - rewrite lookup_insert_eq, IH. destruct (rootOf_full rs r Hi He) as [f ->]. simpl.
    rewrite decide_True; [done|]. unfold descends. apply String.eqb_neq in He.
    by rewrite Hi, He, String.eqb_refl.
  - rewrite lookup_insert_ne, IH by done. apply Hno. unfold descends.
    apply String.eqb_neq in Hk. by rewrite Hk, andb_false_r.
Qed.

Lemma groupChains_lookup rs k :
  groupChains rs !! k = (fun f => Chain f (base.filter (descends rs k) rs)) <$> fulls rs !! k.
Proof. apply add_incrementals_lookup. Qed.

Lemma groupChains_Some rs k c :
  groupChains rs !! k = Some c ->
  exists f, f ∈ rs /\ is_full f = true /\ r_BackupID f = k /\ full c = f /\
            incrementals c = base.filter (descends rs k) rs.
Proof.
  rewrite groupChains_lookup. intros (f & Hf & ->)%fmap_Some_1.
  apply index_by_id_spec in Hf as [Hf Hid]. apply elem_of_bfilter in Hf as [Hin Hf].
  exists f. done.
Qed.

(** The chain a backup belongs to. *)
Definition in_chain (rs : list BackupRecord) (r : BackupRecord) (k : string) : Prop :=
  (is_full r = true /\ r_BackupID r = k) \/ descends rs k r = true.

Section chains.
Context (rs : list BackupRecord) (Hnd : NoDup (r_BackupID <$> rs)).

Lemma fulls_lookup f : f ∈ rs -> is_full f = true -> fulls rs !! r_BackupID f = Some f.
Proof.
  intros Hin Hf. apply index_by_id_lookup; [|by apply elem_of_bfilter].
  by apply NoDup_fmap_bfilter.
Qed.

Lemma groupChains_full f : f ∈ rs -> is_full f = true ->
  groupChains rs !! r_BackupID f = Some (Chain f (base.filter (descends rs (r_BackupID f)) rs)).
Proof. intros Hin Hf. by rewrite groupChains_lookup, fulls_lookup. Qed.

Lemma in_chain_all r k c :
  r ∈ rs -> groupChains rs !! k = Some c ->
  r_BackupID r ∈ (r_BackupID <$> all c) <-> in_chain rs r k.
Proof.
  intros Hr (f & Hf & Hfull & Hid & Hc & Hinc)%groupChains_Some. unfold all, in_chain.
  rewrite Hc, Hinc, list_elem_of_fmap. split.
  - intros (s & Heq & Hs). apply elem_of_cons in Hs as [->|Hs].
    + left. by rewrite (nodup_id_inj rs r f Hnd Hr Hf Heq).
    + apply elem_of_bfilter in Hs as [Hin Hd]. right. by rewrite (nodup_id_inj rs r s Hnd Hr Hin Heq).
  - intros [[Hfr Hk]|Hd].
    + exists f. split; [congruence|apply elem_of_cons; by left].
    + exists r. split; [done|]. apply elem_of_cons. right. by apply elem_of_bfilter.
Qed.

Lemma in_chain_exists r k : r ∈ rs -> in_chain rs r k -> is_Some (groupChains rs !! k).
Proof.
  intros Hr [[Hf <-]|Hd]; [rewrite groupChains_full by done; eauto|].
  unfold descends in Hd. rewrite !andb_true_iff, negb_true_iff, String.eqb_neq, String.eqb_eq in Hd.
  destruct Hd as [[Hi Hne] <-]. rewrite groupChains_lookup, fmap_is_Some. by apply rootOf_full.
Qed.

Lemma in_chain_unique r k k' : in_chain rs r k -> in_chain rs r k' -> k = k'.
Proof.
  unfold in_chain, descends. rewrite !andb_true_iff, !String.eqb_eq.
  intros [[Hf Hk]|[[Hi _] Hk]] [[Hf' Hk']|[[Hi' _] Hk']]; try congruence.
  - apply full_not_incremental in Hf. congruence.
  - apply full_not_incremental in Hf'. congruence.
Qed.

Lemma rootOf_go_mono i m r : rootOf_go i m r <> "" -> rootOf_go (S i) m r = rootOf_go i m r.
Proof.
  revert r. induction i as [|i IH]; intros r; [done|]. cbn [rootOf_go].
  destruct (is_full r); [done|]. destruct (m !! r_ParentBackupID r); [apply IH|done].
Qed.

(** The parent of a backup of a chain is in the listing, and in the same chain. *)
Lemma in_chain_parent r k :
  is_incremental r = true -> in_chain rs r k ->
  exists p, p ∈ rs /\ r_BackupID p = r_ParentBackupID r /\
            (is_full p = true \/ is_incremental p = true -> in_chain rs p k).
Proof.
  intros Hi [[Hf _]|Hd]; [apply full_not_incremental in Hf; congruence|].
  unfold descends in Hd. rewrite Hi, !andb_true_iff, negb_true_iff, String.eqb_neq, String.eqb_eq in Hd.
  destruct Hd as [[_ Hne] Hk]. unfold rootOf in Hne, Hk. rewrite Nat.add_1_r in Hne, Hk.
  cbn [rootOf_go] in Hne, Hk. destruct (is_full r) eqn:Hf.
  { apply full_not_incremental in Hf. congruence. }
  destruct (index_by_id rs !! r_ParentBackupID r) as [p|] eqn:Hp; [|done].
  destruct (index_by_id_spec _ _ _ Hp) as [Hin Hid]. exists p. split_and!; [done..|].
  assert (Hroot : rootOf p rs = k).
  { unfold rootOf. rewrite Nat.add_1_r, rootOf_go_mono by done. done. }
  intros [Hpf|Hpi].
  - left. split; [done|]. unfold rootOf in Hroot. rewrite Nat.add_1_r in Hroot. simpl in Hroot.
    by rewrite Hpf in Hroot.
  - right. unfold descends. rewrite Hpi, Hroot, String.eqb_refl. subst k.
    apply String.eqb_neq in Hne. by rewrite Hne.
Qed.
End chains.

(** ** The plan of a set of kept chains *)

Definition chain_lsn (c : chain) : LSN :=
  match ParseLSN (r_StartLSN (full c)) with Ok l => l | Fail _ => 0 end.

Lemma plan_fold_ids keep l st id :
  let '(e0, k0, _, _) := st in
  let '(e, k, _, _) := foldl (plan_step keep) st l in
  (id ∈ k <-> id ∈ k0 \/ (exists key c, (key, c) ∈ l /\ key ∈ keep /\ id ∈ (r_BackupID <$> all c))) /\
  (id ∈ e <-> id ∈ e0 \/ (exists key c, (key, c) ∈ l /\ (key ∉ keep) /\ id ∈ (r_BackupID <$> all c))).
Proof.
  revert st. induction l as [|[key c] l IH]; intros [[[e0 k0] m0] a0]; cbn [foldl]; cbn beta iota.
  - rewrite !exists_pair_nil. tauto.
  - unfold plan_step at 2. case_decide as Hk; [destruct (negb a0 || _)|];
      match goal with |- context [foldl _ ?s l] => specialize (IH s) end; cbn beta iota in IH;
      destruct (foldl (plan_step keep) _ l) as [[[e k] m] a]; destruct IH as [-> ->];
      rewrite !exists_pair_cons, elem_of_app; tauto.
Qed.

Lemma plan_fold_lsn keep l st :
  let '(_, _, m0, a0) := st in
  let '(_, _, m, a) := foldl (plan_step keep) st l in
  (a0 = true -> a = true /\ m <= m0) /\
  (forall key c, (key, c) ∈ l -> key ∈ keep -> a = true /\ m <= chain_lsn c) /\
  (a = true -> (a0 = true /\ m = m0) \/ exists key c, (key, c) ∈ l /\ key ∈ keep /\ m = chain_lsn c) /\
  (a = false -> m = m0).
Proof.
  revert st. induction l as [|[key c] l IH]; intros [[[e0 k0] m0] a0]; cbn [foldl]; cbn beta iota.
  - split_and!; [done| |by left|done]. intros ? ? ?%not_elem_of_nil. done.
  - unfold plan_step at 2. fold (chain_lsn c). case_decide as Hk.
    + destruct (negb a0 || (chain_lsn c <? m0)) eqn:E;
        match goal with |- context [foldl _ ?s l] => specialize (IH s) end; simpl in IH;
        destruct (foldl (plan_step keep) _ l) as [[[e k] m] a];
        destruct IH as (H1 & H2 & H3 & H4); setoid_rewrite elem_of_cons.
      * destruct H1 as [-> Hm]; [done|]. split_and!; [|naive_solver| |done].
        -- intros ->. simpl in E. apply Z.ltb_lt in E. lia.
        -- intros _. right. destruct H3 as [[_ ->]|(key' & c' & ? & ? & ?)]; [done|..]; eauto 10.
      * apply orb_false_iff in E as [->%negb_false_iff E%Z.ltb_ge].
        destruct H1 as [-> Hm]; [done|]. split_and!; [done| | |done].
        -- intros key' c' [[= -> ->]|Hin] Hkey; [split; [done|lia]|eauto].
        -- intros _. destruct H3 as [?|(key' & c' & ? & ? & ?)]; [done|by left|right; eauto 10].
    + match goal with |- context [foldl _ ?s l] => specialize (IH s) end; simpl in IH;
        destruct (foldl (plan_step keep) _ l) as [[[e k] m] a];
        destruct IH as (H1 & H2 & H3 & H4); setoid_rewrite elem_of_cons.
      split_and!; [done| | |done].
      * intros key' c' [[= -> ->]|Hin] Hkey; [done|eauto].
      * intros Ha. destruct (H3 Ha) as [?|(key' & c' & ? & ? & ?)]; [by left|right; eauto 10].
Qed.

Section plans.
Context (range : nat -> forall A, gmap string A -> list (string * A))
        (range_perm : forall n A (m : gmap string A), range n A m ≡ₚ map_to_list m).

Definition eval_now (wall : time) (p : Policy) : time := if IsZero (Now p) then wall else Now p.

Definition eval_keep (wall : time) (rs : list BackupRecord) (p : Policy) : gset string :=
  keep_rules range p (eval_now wall p) (groupChains rs).

Lemma elem_of_range n A (m : gmap string A) k a : (k, a) ∈ range n A m <-> m !! k = Some a.
Proof. by rewrite range_perm, elem_of_map_to_list. Qed.

Lemma Evaluate_ids wall rs p plan id :
  Evaluate range wall rs p = Ok plan ->
  (id ∈ KeptBackupIDs plan <->
   exists k c, groupChains rs !! k = Some c /\ k ∈ eval_keep wall rs p /\ id ∈ (r_BackupID <$> all c)) /\
  (id ∈ ExpirableBackupIDs plan <->
   exists k c, groupChains rs !! k = Some c /\ (k ∉ eval_keep wall rs p) /\ id ∈ (r_BackupID <$> all c)).
Proof.
  unfold Evaluate. destruct (Validate p) as [[]|]; [|done].
  pose proof (plan_fold_ids (eval_keep wall rs p) (range 5 chain (groupChains rs)) ([], [], 0, false) id) as H.
  change (keep_rules range p _ _) with (eval_keep wall rs p).
  destruct (foldl _ _ _) as [[[e k] m] a]. intros [= <-]. simpl. rewrite !elem_of_sort_strings.
  destruct H as [-> ->]. setoid_rewrite elem_of_range. rewrite !elem_of_nil. naive_solver.
Qed.

Lemma Evaluate_lsn wall rs p plan :
  Evaluate range wall rs p = Ok plan ->
  (forall k c, groupChains rs !! k = Some c -> k ∈ eval_keep wall rs p ->
     OldestNeededLSN plan <= chain_lsn c) /\
  ((exists k c, groupChains rs !! k = Some c /\ k ∈ eval_keep wall rs p /\
     OldestNeededLSN plan = chain_lsn c) \/
   (OldestNeededLSN plan = 0 /\ KeptBackupIDs plan = [])).
Proof.
  intros HE. pose proof (fun id => proj1 (Evaluate_ids wall rs p plan id HE)) as Hids. revert HE Hids.
  unfold Evaluate. destruct (Validate p) as [[]|]; [|done].
  pose proof (plan_fold_lsn (eval_keep wall rs p) (range 5 chain (groupChains rs)) ([], [], 0, false)) as H.
  change (keep_rules range p _ _) with (eval_keep wall rs p).
  destruct (foldl _ _ _) as [[[e k] m] a]. intros [= <-] Hids. simpl in *.
  setoid_rewrite elem_of_range in H. destruct H as (_ & H2 & H3 & H4). split.
  - intros key c Hc Hk. by destruct (H2 key c Hc Hk).
  - destruct a; [destruct H3 as [[]|]; [done..|by left]|]. right. split; [auto|].
    apply list.elem_of_nil_inv. intros id Hid. apply Hids in Hid as (key & c & Hc & Hk & _).
    by destruct (H2 key c Hc Hk).
Qed.

Section records.
Context (rs : list BackupRecord) (Hnd : NoDup (r_BackupID <$> rs)).

Lemma kept_chain wall p plan r :
  Evaluate range wall rs p = Ok plan -> r ∈ rs ->
  (r_BackupID r ∈ KeptBackupIDs plan <-> exists k, in_chain rs r k /\ k ∈ eval_keep wall rs p) /\
  (r_BackupID r ∈ ExpirableBackupIDs plan <-> exists k, in_chain rs r k /\ k ∉ eval_keep wall rs p).
Proof.
  intros HE Hr. destruct (Evaluate_ids wall rs p plan (r_BackupID r) HE) as [-> ->].
  split; split.
  - intros (k & c & Hc & Hk & Hid). exists k. split; [|done]. by eapply in_chain_all.
  - intros (k & Hin & Hk). destruct (in_chain_exists rs Hnd r k Hr Hin) as [c Hc].
    exists k, c. split_and!; [done..|]. by eapply in_chain_all.
  - intros (k & c & Hc & Hk & Hid). exists k. split; [|done]. by eapply in_chain_all.
  - intros (k & Hin & Hk). destruct (in_chain_exists rs Hnd r k Hr Hin) as [c Hc].
    exists k, c. split_and!; [done..|]. by eapply in_chain_all.
Qed.

Lemma kept_full wall p plan f :
  Evaluate range wall rs p = Ok plan -> f ∈ rs -> is_full f = true ->
  (r_BackupID f ∈ KeptBackupIDs plan <-> r_BackupID f ∈ eval_keep wall rs p).
Proof.
  intros HE Hf Hfull. destruct (kept_chain wall p plan f HE Hf) as [-> _]. split.
  - intros (k & Hin & Hk).
    by rewrite (in_chain_unique rs f (r_BackupID f) k) by (done || (by left)).
  - intros Hk. exists (r_BackupID f). split; [by left|done].
Qed.
End records.
End plans.
