(* ===== verification/RetentionSpec.v ===== *)
(** * What the retention rules keep

    The rules of [Evaluate] read declaratively, and the guarantees of the plan. *)

From S2P Require Import Prelude Lsn Time Host Manifest Info Retention.

(** ** The order of the fulls *)

(** [g] comes before [f] among the most recent chains. *)
Definition newer (g f : BackupRecord) : bool :=
  if negb (Equal (r_StopTime g) (r_StopTime f)) then After (r_StopTime g) (r_StopTime f)
  else String.ltb (r_BackupID g) (r_BackupID f).

Lemma ltb_false a b : String.ltb b a = false <-> String.le a b.
Proof.
  unfold String.le, String.ltb, String.leb. rewrite (String.compare_antisym b a).
  destruct (String.compare a b); simpl; naive_solver.
Qed.

Lemma newer_false g f :
  newer f g = false <->
  t_ns (r_StopTime f) < t_ns (r_StopTime g) \/
  (t_ns (r_StopTime f) = t_ns (r_StopTime g) /\ String.le (r_BackupID g) (r_BackupID f)).
Proof.
  unfold newer, Equal, After. destruct (Z.eqb_spec (t_ns (r_StopTime f)) (t_ns (r_StopTime g))); simpl.
  - rewrite ltb_false. intuition lia.
  - rewrite Z.ltb_ge. intuition lia.
Qed.

Lemma newer_total g f : newer f g = false \/ newer g f = false.
Proof.
  rewrite !newer_false. destruct (Z.lt_total (t_ns (r_StopTime f)) (t_ns (r_StopTime g))) as [|[Heq|]]; auto.
  rewrite Heq. destruct (total String.le (r_BackupID g) (r_BackupID f)); auto.
Qed.

Lemma newer_trans f g h : newer g f = false -> newer h g = false -> newer h f = false.
Proof.
  rewrite !newer_false. intros [?|[? ?]] [?|[? ?]]; [left; lia..|]. right.
  split; [lia|]. etrans; eassumption.
Qed.

(** Two different backups are ordered one way. *)
Lemma newer_trichotomy f g :
  r_BackupID f <> r_BackupID g -> newer f g = false -> newer g f = true.
Proof.
  intros Hne H. apply not_false_iff_true. intros H'. destruct Hne.
  apply newer_false in H, H'. destruct H as [?|[? H1]], H' as [?|[? H2]]; try lia.
  by apply (anti_symm String.le).
Qed.

Section orders.
Context (chains : gmap string chain).

Definition full_of (k : string) : BackupRecord := full (default zero_chain (chains !! k)).

Lemma byNewest_newer a b : byNewestFullStopTime chains a b = newer (full_of a) (full_of b).
Proof. done. Qed.

#[local] Instance byNewest_total : Total (not_less (byNewestFullStopTime chains)).
Proof. intros a b. unfold not_less. rewrite !byNewest_newer. apply newer_total. Qed.

#[local] Instance byNewest_trans : Transitive (not_less (byNewestFullStopTime chains)).
Proof. intros a b c. unfold not_less. rewrite !byNewest_newer. apply newer_trans. Qed.

Lemma ordered_sorted range :
  StronglySorted (not_less (byNewestFullStopTime chains))
    (orderedChainKeys range chains (byNewestFullStopTime chains)).
Proof. apply StronglySorted_merge_sort; apply _. Qed.
End orders.

(** ** The buckets *)

(** The entries of one bucket, in the order of the loop. *)
Definition bucket_entry (n : Z) (bucket : time -> Z) (idx : Z) (kc : string * chain)
  : option (string * time) :=
  let t := r_StopTime (full (snd kc)) in
  if IsZero t || (bucket t <? 0) || (n <=? bucket t) || negb (bucket t =? idx) then None
  else Some (fst kc, t).

Lemma newest_cons best e rest :
  newest best (e :: rest) = newest (if After (snd e) (snd best) then e else best) rest.
Proof. done. Qed.

Lemma newest_spec best rest :
  newest best rest ∈ best :: rest /\
  forall e, e ∈ best :: rest -> t_ns (snd e) <= t_ns (snd (newest best rest)).
Proof.
  revert best. induction rest as [|e rest IH]; intros best.
  - split; [by left|]. intros e ->%list_elem_of_singleton. done.
  - rewrite newest_cons. set (b := if After (snd e) (snd best) then e else best).
    assert (Hb : (b = best \/ b = e) /\ t_ns (snd best) <= t_ns (snd b) /\ t_ns (snd e) <= t_ns (snd b)).
    { unfold b, After. destruct (Z.ltb_spec (t_ns (snd best)) (t_ns (snd e))); split; auto with lia. }
    destruct Hb as (Hb & H1 & H2). destruct (IH b) as [Hin Hmax]. split.
    + rewrite !elem_of_cons in *. destruct Hb as [-> | ->]; tauto.
    + intros x Hx. pose proof (Hmax b (ltac:(by left))) as Hbm. rewrite !elem_of_cons in *.
      destruct Hx as [->|[->|Hx]]; [lia..|]. apply Hmax. rewrite elem_of_cons. by right.
Qed.

Section buckets.
Context (n : Z) (bucket : time -> Z).

Definition byBucket (l : list (string * chain)) : gmap Z (list (string * time)) :=
  foldl (fun m '(k, ch) =>
    let t := r_StopTime (full ch) in
    if IsZero t then m
    else
      let idx := bucket t in
      if (idx <? 0) || (n <=? idx) then m
      else <[idx := default [] (m !! idx) ++ [(k, t)]]> m) ∅ l.

Lemma byBucket_lookup l idx :
  default [] (byBucket l !! idx) = omap (bucket_entry n bucket idx) l /\
  byBucket l !! idx <> Some [].
Proof.
  unfold byBucket. induction l as [|[k ch] l [IH Hne]] using rev_ind; [done|].
  rewrite foldl_snoc, omap_app. cbn [omap list_omap]. set (m := foldl _ ∅ l) in *.
  unfold bucket_entry at 2. cbn [fst snd]. set (t := r_StopTime (full ch)).
  destruct (IsZero t); [by rewrite app_nil_r|].
  destruct (bucket t <? 0); [by rewrite app_nil_r|]. destruct (n <=? bucket t); [by rewrite app_nil_r|].
  cbn [orb]. destruct (Z.eqb_spec (bucket t) idx) as [<-|Hi]; cbn [negb].
  - rewrite lookup_insert_eq. cbn [default]. rewrite IH. split; [done|].
    intros [= Hnil]. by apply app_eq_nil in Hnil as [_ ?].
  - rewrite lookup_insert_ne, app_nil_r by done. done.
Qed.

Definition keep_newest (_ : Z) (entries : list (string * time)) (keep : gset string) : gset string :=
  match entries with
  | [] => keep
  | e :: rest => {[fst (newest e rest)]} ∪ keep
  end.

Lemma map_fold_keep (m : gmap Z (list (string * time))) keep k :
  k ∈ map_fold keep_newest keep m <->
  k ∈ keep \/ exists idx e rest, m !! idx = Some (e :: rest) /\ k = fst (newest e rest).
Proof.
  revert k. apply (map_fold_weak_ind (fun (r : gset string) (m : gmap Z (list (string * time))) => forall k, k ∈ r <->
    k ∈ keep \/ exists idx e rest, m !! idx = Some (e :: rest) /\ k = fst (newest e rest))).
  - intros k. split; [by left|]. intros [?|(idx & e & rest & Hl & _)]; [done|].
    by rewrite lookup_empty in Hl.
  - intros i x m' r Hi IH k.
    assert (Hlk : forall idx y, <[i:=x]> m' !! idx = Some y <-> (idx = i /\ x = y) \/ m' !! idx = Some y).
    { intros idx y. rewrite lookup_insert_Some. destruct (decide (i = idx)) as [<-|]; [|naive_solver].
      rewrite Hi. naive_solver. }
    setoid_rewrite Hlk. destruct x as [|e rest]; cbn [keep_newest].
    + rewrite IH. naive_solver.
    + rewrite elem_of_union, elem_of_singleton, IH. naive_solver.
Qed.
End buckets.

(** A chain whose full is one of the latest of its bucket, inside the window. *)
Definition bucket_newest (chains : gmap string chain) (n : Z) (bucket : time -> Z) (k : string) : Prop :=
  exists c, chains !! k = Some c /\ IsZero (r_StopTime (full c)) = false /\
    0 <= bucket (r_StopTime (full c)) < n /\
    forall k' c', chains !! k' = Some c' -> IsZero (r_StopTime (full c')) = false ->
      bucket (r_StopTime (full c')) = bucket (r_StopTime (full c)) ->
      t_ns (r_StopTime (full c')) <= t_ns (r_StopTime (full c)).

Section rules.
Context (range : nat -> forall A, gmap string A -> list (string * A))
        (range_perm : forall n A (m : gmap string A), range n A m ≡ₚ map_to_list m).

Lemma bucket_entries site chains n bucket idx k t :
  (k, t) ∈ omap (bucket_entry n bucket idx) (range site chain chains) <->
  exists c, chains !! k = Some c /\ t = r_StopTime (full c) /\ IsZero t = false /\
            0 <= bucket t < n /\ bucket t = idx.
Proof.
  rewrite list_elem_of_omap. split.
  - intros ([k' c] & Hin & He). apply elem_of_range in Hin; [|done]. unfold bucket_entry in He.
    cbn [fst snd] in He. destruct (_ || _) eqn:E; [done|]. simplify_eq. exists c.
    rewrite !orb_false_iff, negb_false_iff in E. destruct E as [[[? ?] ?] ?]. split_and!; auto; lia.
  - intros (c & Hc & -> & Hz & Hb & Hi). exists (k, c). rewrite elem_of_range by done. split; [done|].
    unfold bucket_entry. cbn [fst snd]. rewrite Hz, Hi, Z.eqb_refl.
    destruct (Z.ltb_spec idx 0); [lia|]. destruct (Z.leb_spec n idx); [lia|]. done.
Qed.

Lemma applyBucketRule_eq site chains keep n bucket :
  applyBucketRule range site chains keep n bucket =
  if n <=? 0 then keep
  else map_fold keep_newest keep (byBucket n bucket (range site chain chains)).
Proof. done. Qed.

Lemma byBucket_cons site chains n bucket idx e rest :
  byBucket n bucket (range site chain chains) !! idx = Some (e :: rest) ->
  let b := newest e rest in
  (exists c, chains !! fst b = Some c /\ snd b = r_StopTime (full c) /\ IsZero (snd b) = false /\
             0 <= bucket (snd b) < n /\ bucket (snd b) = idx) /\
  forall k c, chains !! k = Some c -> IsZero (r_StopTime (full c)) = false ->
    0 <= bucket (r_StopTime (full c)) < n -> bucket (r_StopTime (full c)) = idx ->
    t_ns (r_StopTime (full c)) <= t_ns (snd b).
Proof.
  intros Hl b. destruct (byBucket_lookup n bucket (range site chain chains) idx) as [He _].
  rewrite Hl in He. cbn in He. destruct (newest_spec e rest) as [Hin Hmax]. fold b in Hin, Hmax. split.
  - rewrite He in Hin. destruct b as [k t]. by apply bucket_entries in Hin.
  - intros k c Hc Hz Hb Hi. apply (Hmax (k, r_StopTime (full c))). rewrite He.
    apply bucket_entries. eauto 10.
Qed.

Lemma bucket_sound site chains keep n bucket k :
  k ∈ applyBucketRule range site chains keep n bucket ->
  k ∈ keep \/ bucket_newest chains n bucket k.
Proof.
  rewrite applyBucketRule_eq. destruct (n <=? 0); [by left|].
  rewrite map_fold_keep. intros [Hk|(idx & e & rest & Hl & ->)]; [by left|right].
  apply byBucket_cons in Hl as [(c & Hc & Ht & Hz & Hb & Hi) Hmax].
  exists c. rewrite <- Ht. split_and!; [done..|lia|lia|].
  intros k' c' Hc' Hz' Hi'. apply (Hmax k' c'); [done..| |]; rewrite Hi'; [lia|done].
Qed.

Lemma bucket_complete site chains keep n bucket k c :
  chains !! k = Some c -> IsZero (r_StopTime (full c)) = false -> 0 <= bucket (r_StopTime (full c)) < n ->
  exists k' c', chains !! k' = Some c' /\ k' ∈ applyBucketRule range site chains keep n bucket /\
    bucket (r_StopTime (full c')) = bucket (r_StopTime (full c)) /\
    t_ns (r_StopTime (full c)) <= t_ns (r_StopTime (full c')).
Proof.
  intros Hc Hz Hb. set (idx := bucket (r_StopTime (full c))) in *.
  destruct (byBucket_lookup n bucket (range site chain chains) idx) as [He Hne].
  assert (Hin : (k, r_StopTime (full c)) ∈ omap (bucket_entry n bucket idx) (range site chain chains)).
  { apply bucket_entries. exists c. done. }
  rewrite <- He in Hin.
  destruct (byBucket n bucket (range site chain chains) !! idx) as [[|e rest]|] eqn:Hl;
    cbn in Hin; [done| |by apply not_elem_of_nil in Hin].
  pose proof (byBucket_cons _ _ _ _ _ _ _ Hl) as [(c' & Hc' & Ht & Hz' & Hb' & Hi) Hmax].
  exists (fst (newest e rest)), c'. rewrite <- Ht. split_and!; [done| |done|by eapply Hmax].
  rewrite applyBucketRule_eq. destruct (Z.leb_spec n 0); [lia|].
  rewrite map_fold_keep. right. eauto.
Qed.

Lemma bucket_mono site chains keep n bucket : keep ⊆ applyBucketRule range site chains keep n bucket.
Proof.
  intros k Hk. rewrite applyBucketRule_eq. destruct (n <=? 0); [done|].
  rewrite map_fold_keep. by left.
Qed.

Lemma age_spec policy now chains keep k :
  k ∈ keep_full_age range policy now chains keep <->
  k ∈ keep \/ (0 < KeepFullAge policy /\ exists c, chains !! k = Some c /\
    IsZero (r_StopTime (full c)) = false /\ t_ns now - KeepFullAge policy < t_ns (r_StopTime (full c))).
Proof.
  unfold keep_full_age. destruct (Z.ltb_spec 0 (KeepFullAge policy)) as [Hp|Hp]; [|intuition lia].
  set (young c := negb (IsZero (r_StopTime (full c))) && After (r_StopTime (full c)) (Add now (- KeepFullAge policy))).
  assert (Hy : forall c, young c = true <-> IsZero (r_StopTime (full c)) = false /\
    t_ns now - KeepFullAge policy < t_ns (r_StopTime (full c))).
  { intros c. unfold young, After, Add. cbn. rewrite andb_true_iff, negb_true_iff, Z.ltb_lt. intuition lia. }
  trans (k ∈ keep \/ exists c, (k, c) ∈ range 1%nat chain chains /\ young c = true).
  - generalize (range 1%nat chain chains) as l. intros l. revert keep.
    induction l as [|[k' c'] l IH]; intros keep; cbn [foldl].
    + split; [by left|]. intros [?|(c & Hin & _)]; [done|]. by apply not_elem_of_nil in Hin.
    + rewrite IH. fold (young c'). rewrite exists_key_cons.
      destruct (young c'); rewrite ?elem_of_union, ?elem_of_singleton; intuition congruence.
  - setoid_rewrite elem_of_range; [|done]. setoid_rewrite Hy. naive_solver.
Qed.
End rules.

(** ** The most recent chains *)

Section recent.
Context (range : nat -> forall A, gmap string A -> list (string * A))
        (range_perm : forall n A (m : gmap string A), range n A m ≡ₚ map_to_list m)
        (rs : list BackupRecord) (Hnd : NoDup (r_BackupID <$> rs)).

Lemma full_of_record f : f ∈ rs -> is_full f = true -> full_of (groupChains rs) (r_BackupID f) = f.
Proof. intros Hf Hfull. unfold full_of. by rewrite groupChains_full. Qed.

Lemma elem_of_ordered less k :
  k ∈ orderedChainKeys range (groupChains rs) less <->
  exists f, f ∈ rs /\ is_full f = true /\ r_BackupID f = k.
Proof.
  unfold orderedChainKeys. rewrite merge_sort_Permutation, list_elem_of_fmap. split.
  - intros ([k' c] & -> & Hin). apply elem_of_range in Hin; [|done].
    apply groupChains_Some in Hin as (f & Hf & Hfull & Hid & _). eauto.
  - intros (f & Hf & Hfull & <-). eexists (_, _). rewrite elem_of_range by done. split; [done|].
    by apply groupChains_full.
Qed.

Lemma ordered_nodup less : NoDup (orderedChainKeys range (groupChains rs) less).
Proof.
  unfold orderedChainKeys. rewrite merge_sort_Permutation, range_perm. apply NoDup_fst_map_to_list.
Qed.

(** A full that [i] others precede is among the first [i + 1]. *)
Lemma rank_take f (i : nat) :
  f ∈ rs -> is_full f = true ->
  (length (base.filter (fun g => is_full g && newer g f) rs) < i)%nat ->
  r_BackupID f ∈ take i (orderedChainKeys range (groupChains rs) (byNewestFullStopTime (groupChains rs))).
Proof.
  intros Hf Hfull Hlen. set (l := orderedChainKeys _ _ _).
  destruct (decide (r_BackupID f ∈ take i l)) as [|Hni]; [done|exfalso].
  assert (Hl : r_BackupID f ∈ l) by (apply elem_of_ordered; eauto).
  assert (Hd : r_BackupID f ∈ drop i l).
  { rewrite <- (take_drop i l), elem_of_app in Hl. tauto. }
  assert (Hsub : take i l ⊆ r_BackupID <$> base.filter (fun g => is_full g && newer g f) rs).
  { intros k Hk. assert (Hkl : k ∈ l) by (rewrite <- (take_drop i l), elem_of_app; tauto).
    apply elem_of_ordered in Hkl as (g & Hg & Hgfull & <-).
    apply list_elem_of_fmap_2, elem_of_bfilter. split; [done|]. rewrite Hgfull. simpl.
    assert (Hs : not_less (byNewestFullStopTime (groupChains rs)) (r_BackupID g) (r_BackupID f)).
    { pose proof (ordered_sorted (groupChains rs) range) as Hs. fold l in Hs.
      rewrite <- (take_drop i l) in Hs. by apply (StronglySorted_app_1_elem_of _ _ _ _ _ Hs). }
    unfold not_less in Hs. rewrite byNewest_newer, !full_of_record in Hs by done.
    apply newer_trichotomy; [|done]. intros Heq. rewrite <- Heq in Hk. done. }
  apply NoDup_submseteq in Hsub; [|eapply sublist_NoDup; [apply ordered_nodup|apply sublist_take]].
  apply submseteq_length in Hsub. rewrite length_fmap, length_take in Hsub.
  assert (i < length l)%nat.
  { destruct (decide (i < length l)%nat); [done|]. rewrite drop_ge in Hd by lia. by apply not_elem_of_nil in Hd. }
  lia.
Qed.
End recent.

(** ** The guarantees of the plan *)

Section guarantees.
Context (range : nat -> forall A, gmap string A -> list (string * A))
        (range_perm : forall n A (m : gmap string A), range n A m ≡ₚ map_to_list m).

Lemma keep_rules_eq p now chains :
  keep_rules range p now chains =
  let k1 := keep_full_age range p now chains (keep_fulls range p chains) in
  let k2 := if 0 <? KeepDaily p then applyBucketRule range 2 chains k1 (KeepDaily p) (dayBucket now) else k1 in
  let k3 := if 0 <? KeepWeekly p then applyBucketRule range 3 chains k2 (KeepWeekly p) (weekBucket now) else k2 in
  if 0 <? KeepMonthly p then applyBucketRule range 4 chains k3 (KeepMonthly p) (monthBucket now) else k3.
Proof. done. Qed.

(** Whatever a rule keeps stays kept, and every kept chain comes from a rule. *)
Lemma keep_rules_cases p now chains k :
  k ∈ keep_rules range p now chains ->
  k ∈ keep_fulls range p chains \/
  (0 < KeepFullAge p /\ exists c, chains !! k = Some c /\
    IsZero (r_StopTime (full c)) = false /\ t_ns now - KeepFullAge p < t_ns (r_StopTime (full c))) \/
  bucket_newest chains (KeepDaily p) (dayBucket now) k \/
  bucket_newest chains (KeepWeekly p) (weekBucket now) k \/
  bucket_newest chains (KeepMonthly p) (monthBucket now) k.
Proof.
  rewrite keep_rules_eq. cbv zeta. set (k1 := keep_full_age _ _ _ _ _). set (k2 := if 0 <? KeepDaily p then _ else k1).
  set (k3 := if 0 <? KeepWeekly p then _ else k2). intros Hk.
  assert (k ∈ k3 \/ bucket_newest chains (KeepMonthly p) (monthBucket now) k) as [H3|?]; [|auto|tauto].
  { destruct (0 <? KeepMonthly p); [by eapply bucket_sound|by left]. }
  assert (k ∈ k2 \/ bucket_newest chains (KeepWeekly p) (weekBucket now) k) as [H2|?]; [|auto|tauto].
  { unfold k3 in H3. destruct (0 <? KeepWeekly p); [by eapply bucket_sound|by left]. }
  assert (k ∈ k1 \/ bucket_newest chains (KeepDaily p) (dayBucket now) k) as [H1|?]; [|auto|tauto].
  { unfold k2 in H2. destruct (0 <? KeepDaily p); [by eapply bucket_sound|by left]. }
  apply age_spec in H1; [tauto|done].
Qed.

Lemma keep_rules_mono p now chains :
  keep_full_age range p now chains (keep_fulls range p chains) ⊆ keep_rules range p now chains /\
  (0 < KeepDaily p -> exists keep,
     applyBucketRule range 2 chains keep (KeepDaily p) (dayBucket now) ⊆ keep_rules range p now chains) /\
  (0 < KeepWeekly p -> exists keep,
     applyBucketRule range 3 chains keep (KeepWeekly p) (weekBucket now) ⊆ keep_rules range p now chains) /\
  (0 < KeepMonthly p -> exists keep,
     applyBucketRule range 4 chains keep (KeepMonthly p) (monthBucket now) ⊆ keep_rules range p now chains).
Proof.
  rewrite keep_rules_eq. cbv zeta. set (k1 := keep_full_age _ _ _ _ _). set (k2 := if 0 <? KeepDaily p then _ else k1).
  set (k3 := if 0 <? KeepWeekly p then _ else k2). set (k4 := if 0 <? KeepMonthly p then _ else k3).
  assert (H12 : k1 ⊆ k2) by (unfold k2; case_match; [apply bucket_mono|done]).
  assert (H23 : k2 ⊆ k3) by (unfold k3; case_match; [apply bucket_mono|done]).
  assert (H34 : k3 ⊆ k4) by (unfold k4; case_match; [apply bucket_mono|done]).
  split_and!.
  - by do 2 (etrans; [eassumption|]).
  - intros Hp%Z.ltb_lt. exists k1. etrans; [|exact H34]. etrans; [|exact H23]. unfold k2. by rewrite Hp.
  - intros Hp%Z.ltb_lt. exists k2. etrans; [|exact H34]. unfold k3. by rewrite Hp.
  - intros Hp%Z.ltb_lt. exists k3. unfold k4. by rewrite Hp.
Qed.

Section plan.
Context (wall : time) (rs : list BackupRecord) (p : Policy) (plan : Plan)
        (Hnd : NoDup (r_BackupID <$> rs)) (HE : Evaluate range wall rs p = Ok plan).

Lemma full_kept_intro f k c :
  groupChains rs !! k = Some c -> full c = f -> k ∈ eval_keep range wall rs p ->
  f ∈ rs /\ is_full f = true /\ r_BackupID f ∈ KeptBackupIDs plan.
Proof.
  intros Hc <- Hk. apply groupChains_Some in Hc as (f & Hf & Hfull & Hid & -> & _).
  split_and!; [done..|]. rewrite (kept_full range range_perm rs Hnd wall p plan f) by done. by rewrite Hid.
Qed.

Lemma bucket_kept site n bucket keep f :
  applyBucketRule range site (groupChains rs) keep n bucket ⊆ eval_keep range wall rs p ->
  f ∈ rs -> is_full f = true -> IsZero (r_StopTime f) = false -> 0 <= bucket (r_StopTime f) < n ->
  exists g, g ∈ rs /\ is_full g = true /\ r_BackupID g ∈ KeptBackupIDs plan /\
    bucket (r_StopTime g) = bucket (r_StopTime f) /\ t_ns (r_StopTime f) <= t_ns (r_StopTime g).
Proof.
  intros Hsub Hf Hfull Hz Hb.
  destruct (bucket_complete range range_perm site (groupChains rs) keep n bucket (r_BackupID f)
    (Chain f (base.filter (descends rs (r_BackupID f)) rs)))
    as (k' & c' & Hc' & Hk' & Hi & Ht); [by apply groupChains_full|done..|].
  destruct (full_kept_intro (full c') k' c') as (? & ? & ?); [done..|by apply Hsub|]. eauto 10.
Qed.
End plan.
End guarantees.

(** C13: a backup and its parent share their fate, so a kept backup has its whole
    chain of parents kept down to a full, and no part of an expired chain stays. *)
Theorem Evaluate_chains_atomic range wall rs p plan r :
  (forall n A (m : gmap string A), range n A m ≡ₚ map_to_list m) ->
  NoDup (r_BackupID <$> rs) -> Forall (fun r => is_full r = true \/ is_incremental r = true) rs ->
  Evaluate range wall rs p = Ok plan -> r ∈ rs -> is_incremental r = true ->
  (r_BackupID r ∈ KeptBackupIDs plan -> exists q, q ∈ rs /\ r_BackupID q = r_ParentBackupID r /\
     r_BackupID q ∈ KeptBackupIDs plan /\ (r_BackupID q ∉ ExpirableBackupIDs plan)) /\
  (r_BackupID r ∈ ExpirableBackupIDs plan -> exists q, q ∈ rs /\ r_BackupID q = r_ParentBackupID r /\
     r_BackupID q ∈ ExpirableBackupIDs plan /\ (r_BackupID q ∉ KeptBackupIDs plan)).
Proof.
  intros Hrange Hnd Hty HE Hr Hi. rewrite Forall_forall in Hty.
  destruct (kept_chain range Hrange rs Hnd wall p plan r HE Hr) as [-> ->].
  split; intros (k & Hin & Hk);
    destruct (in_chain_parent rs r k Hi Hin) as (q & Hq & Hid & Hqk);
    specialize (Hqk (Hty q Hq)); exists q;
    destruct (kept_chain range Hrange rs Hnd wall p plan q HE Hq) as [-> ->];
    (split_and!; [done|done|by eauto|]);
    intros (k' & Hin' & Hk'); by rewrite (in_chain_unique rs q k k') in Hk.
Qed.

Lemma Evaluate_lists range wall rs p plan id :
  (forall n A (m : gmap string A), range n A m ≡ₚ map_to_list m) ->
  NoDup (r_BackupID <$> rs) -> Evaluate range wall rs p = Ok plan ->
  (id ∈ KeptBackupIDs plan \/ id ∈ ExpirableBackupIDs plan <->
   exists r, r ∈ rs /\ r_BackupID r = id /\
     (is_full r = true \/ (is_incremental r = true /\ rootOf r rs <> ""))) /\
  ~ (id ∈ KeptBackupIDs plan /\ id ∈ ExpirableBackupIDs plan).
Proof.
  intros Hrange Hnd HE. destruct (Evaluate_ids range Hrange wall rs p plan id HE) as [Hk He].
  assert (Hsrc : forall k c, groupChains rs !! k = Some c -> id ∈ (r_BackupID <$> all c) ->
    exists r, r ∈ rs /\ r_BackupID r = id /\ in_chain rs r k).
  { intros k c Hc Hid. apply list_elem_of_fmap in Hid as (r & -> & Hr).
    assert (Hin : r ∈ rs).
    { apply groupChains_Some in Hc as (f & Hf & _ & _ & Hfc & Hic). unfold all in Hr.
      rewrite Hfc, Hic, elem_of_cons, elem_of_bfilter in Hr. destruct Hr as [->|[? _]]; done. }
    exists r. split_and!; [done..|]. apply (in_chain_all rs Hnd r k c Hin Hc). by apply list_elem_of_fmap_2. }
  split; [split|].
  - intros H. assert (exists k c, groupChains rs !! k = Some c /\ id ∈ (r_BackupID <$> all c))
      as (k & c & Hc & Hid) by (rewrite Hk, He in H; naive_solver).
    destruct (Hsrc k c Hc Hid) as (r & Hr & Hrid & [[Hf _]|Hd]); exists r; split_and!; auto.
    unfold descends in Hd. rewrite !andb_true_iff, negb_true_iff, String.eqb_neq in Hd. tauto.
  - intros (r & Hr & <- & Hty).
    destruct (kept_chain range Hrange rs Hnd wall p plan r HE Hr) as [-> ->].
    assert (exists k, in_chain rs r k) as [k Hin].
    { destruct Hty as [Hf|[Hi Hne]]; [exists (r_BackupID r); by left|exists (rootOf r rs); right].
      unfold descends. apply String.eqb_neq in Hne. by rewrite Hi, Hne, String.eqb_refl. }
    destruct (decide (k ∈ eval_keep range wall rs p)); eauto.
  - rewrite Hk, He. intros [(k & c & Hc & Hin & Hid) (k' & c' & Hc' & Hin' & Hid')].
    destruct (Hsrc k c Hc Hid) as (r & Hr & Hrid & Hrk).
    destruct (Hsrc k' c' Hc' Hid') as (r' & Hr' & Hrid' & Hrk').
    assert (r = r') as <- by (apply (nodup_id_inj rs); congruence).
    by rewrite (in_chain_unique rs r k k') in Hin.
Qed.

(** every full, and every incremental whose chain of parents reaches a full, is in
    exactly one of the two lists of the plan; an orphaned incremental is in neither,
    and nothing else is listed. *)
Theorem Evaluate_partition range wall rs p plan id :
  (forall n A (m : gmap string A), range n A m ≡ₚ map_to_list m) ->
  NoDup (r_BackupID <$> rs) -> Evaluate range wall rs p = Ok plan ->
  (id ∈ KeptBackupIDs plan \/ id ∈ ExpirableBackupIDs plan <->
   exists r, r ∈ rs /\ r_BackupID r = id /\
     (is_full r = true \/ (is_incremental r = true /\ rootOf r rs <> ""))) /\
  ~ (id ∈ KeptBackupIDs plan /\ id ∈ ExpirableBackupIDs plan).
Proof. apply Evaluate_lists. Qed.

(** ** Buckets and the calendar *)

Definition same_month (t u : time) : Prop := Year t = Year u /\ Month t = Month u.
Definition same_day (t u : time) : Prop := same_month t u /\ DayOfMonth t = DayOfMonth u.

(** The number of the week of a time; weeks begin on Sunday. *)
Definition week_number (t : time) : Z := (local_day t + 1) / 7.

(** A time that is read on the same clock as [now] and is less than 146 years away from it. *)
Definition on_clock (now t : time) : Prop := t_off t = t_off now /\ Z.abs (t_ns now - t_ns t) <= 2 ^ 62.

Section calendar.
Local Ltac Zify.zify_post_hook ::= Z.div_mod_to_equations.

Lemma truncateToDay_midnight t : truncateToDay t = Time (local_day t * Day - t_off t * Second) (t_off t).
Proof.
  unfold truncateToDay, DateMidnight, Year, Month, DayOfMonth. pose proof (days_from_civil_civil (local_day t)) as H.
  destruct (civil (local_day t)) as [[y m] d]. by rewrite H.
Qed.

Lemma midnight_day d off : local_day (Time (d * Day - off * Second) off) = d.
Proof. unfold local_day, local_ns. cbn [t_ns t_off]. replace (d * Day - off * Second + off * Second) with (d * Day) by lia. by apply Z.div_mul. Qed.

Lemma day_distance now t : on_clock now t -> Z.abs (local_day now - local_day t) <= 53376.
Proof. intros [Ho Hn]. unfold local_day, local_ns. rewrite Ho. unfold Day, Hour, Minute, Second, Millisecond in *. lia. Qed.

Lemma same_day_local t u : local_day t = local_day u -> same_day t u.
Proof. unfold same_day, same_month, Year, Month, DayOfMonth. by intros ->. Qed.

(** On one clock the day bucket counts calendar days. *)
Lemma dayBucket_days now t : on_clock now t -> dayBucket now t = local_day now - local_day t.
Proof.
  intros Hc. pose proof (day_distance now t Hc) as Hd. destruct Hc as [Ho _]. unfold dayBucket, Sub, maxDuration. rewrite !truncateToDay_midnight. cbn [t_ns].
  rewrite Ho. replace (local_day now * Day - t_off now * Second - (local_day t * Day - t_off now * Second)) with ((local_day now - local_day t) * Day) by lia.
  rewrite Z.min_r, Z.max_r by (unfold Day, Hour, Minute, Second, Millisecond in *; lia). by apply Z.quot_mul.
Qed.

(** On one clock the week bucket counts weeks from Sunday to Saturday. *)
Lemma weekBucket_weeks now t : on_clock now t -> weekBucket now t = week_number now - week_number t.
Proof.
  intros Hc. pose proof (day_distance now t Hc) as Hd. destruct Hc as [Ho _]. unfold weekBucket, Sub, maxDuration, truncateToWeek, AddDays, Add, Weekday.
  rewrite !truncateToDay_midnight, !midnight_day. cbn [t_ns]. rewrite Ho.
  replace (local_day now * Day - t_off now * Second + - ((local_day now + 1) mod 7) * Day - (local_day t * Day - t_off now * Second + - ((local_day t + 1) mod 7) * Day))
    with ((week_number now - week_number t) * (24 * 7 * Hour)) by (unfold week_number, Day; lia).
  assert (Z.abs (week_number now - week_number t) <= 7626) by (unfold week_number; lia).
  rewrite Z.min_r, Z.max_r by (unfold Hour, Minute, Second, Millisecond in *; lia). by apply Z.quot_mul.
Qed.

Lemma Month_bounds t : 1 <= Month t <= 12.
Proof. unfold Month. pose proof (civil_month (local_day t)) as H. by destruct (civil (local_day t)) as [[y m] d]. Qed.

(** The month bucket counts months, each time on its own clock. *)
Lemma monthBucket_months now t u : monthBucket now t = monthBucket now u -> same_month t u.
Proof. unfold monthBucket, monthsBetween, same_month. pose proof (Month_bounds t). pose proof (Month_bounds u). lia. Qed.
End calendar.

(** C15: every rule of the policy keeps what it promises of its own buckets: the [KeepFulls] most recent fulls, every
    full younger than [KeepFullAge], and for every day, week and month bucket of its window that has a full, a full
    of that bucket at least as recent as any other. Month buckets are calendar months. Day and week buckets are
    calendar days, and weeks that begin on Sunday, where the times of the fulls are read on the clock of the
    evaluation, that is, on a host whose zone is UTC; elsewhere two days may share a bucket and only one of
    them is kept ([dayBucket_merges_days]). *)
Theorem Evaluate_keeps range wall rs p plan f :
  (forall n A (m : gmap string A), range n A m ≡ₚ map_to_list m) ->
  NoDup (r_BackupID <$> rs) -> Evaluate range wall rs p = Ok plan ->
  f ∈ rs -> is_full f = true ->
  let kept g := g ∈ rs /\ is_full g = true /\ r_BackupID g ∈ KeptBackupIDs plan in
  let now := eval_now wall p in
  let rule n bucket := IsZero (r_StopTime f) = false -> 0 <= bucket (r_StopTime f) < n ->
    exists g, kept g /\ bucket (r_StopTime g) = bucket (r_StopTime f) /\
              t_ns (r_StopTime f) <= t_ns (r_StopTime g) in
  (Z.of_nat (length (base.filter (fun g => is_full g && newer g f) rs)) < KeepFulls p -> kept f) /\
  (0 < KeepFullAge p -> IsZero (r_StopTime f) = false ->
   t_ns now - KeepFullAge p < t_ns (r_StopTime f) -> kept f) /\
  rule (KeepDaily p) (dayBucket now) /\ rule (KeepWeekly p) (weekBucket now) /\
  rule (KeepMonthly p) (monthBucket now) /\
  (IsZero (r_StopTime f) = false -> 0 <= monthBucket now (r_StopTime f) < KeepMonthly p ->
   exists g, kept g /\ same_month (r_StopTime g) (r_StopTime f) /\ t_ns (r_StopTime f) <= t_ns (r_StopTime g)) /\
  ((forall g, g ∈ rs -> is_full g = true -> on_clock now (r_StopTime g)) -> IsZero (r_StopTime f) = false ->
   (0 <= local_day now - local_day (r_StopTime f) < KeepDaily p ->
    exists g, kept g /\ same_day (r_StopTime g) (r_StopTime f) /\ t_ns (r_StopTime f) <= t_ns (r_StopTime g)) /\
   (0 <= week_number now - week_number (r_StopTime f) < KeepWeekly p ->
    exists g, kept g /\ week_number (r_StopTime g) = week_number (r_StopTime f) /\ t_ns (r_StopTime f) <= t_ns (r_StopTime g))).
Proof.
  intros Hrange Hnd HE Hf Hfull kept now rule.
  destruct (keep_rules_mono range p now (groupChains rs)) as (H1 & Hd & Hw & Hm).
  assert (Hk : r_BackupID f ∈ keep_full_age range p now (groupChains rs) (keep_fulls range p (groupChains rs)) ->
    kept f).
  { intros Hin. split_and!; [done..|].
    rewrite (kept_full range Hrange rs Hnd wall p plan f) by done. by apply H1. }
  assert (Hrule : forall site n bucket, (0 < n -> exists keep, applyBucketRule range site (groupChains rs) keep n bucket ⊆ eval_keep range wall rs p) -> rule n bucket).
  { intros site n bucket Hb Hz Hin. destruct Hb as [keep Hb]; [lia|].
    destruct (bucket_kept range Hrange wall rs p plan Hnd HE site n bucket keep f) as (g & ? & ? & ? & ? & ?); unfold kept; eauto 10. }
  assert (Hday : rule (KeepDaily p) (dayBucket now)) by by eapply Hrule.
  assert (Hweek : rule (KeepWeekly p) (weekBucket now)) by by eapply Hrule.
  assert (Hmonth : rule (KeepMonthly p) (monthBucket now)) by by eapply Hrule.
  split_and!; [| |done..| |].
  - intros Hrank. apply Hk, age_spec; [done|]. left. unfold keep_fulls.
    destruct (Z.ltb_spec 0 (KeepFulls p)); [|lia]. apply elem_of_list_to_set, rank_take; [done..|lia].
  - intros Ha Hz Ht. apply Hk, age_spec; [done|]. right. split; [done|].
    eexists. split; [by apply groupChains_full|]. done.
  - intros Hz Hb. destruct (Hmonth Hz Hb) as (g & Hg & E%monthBucket_months & Ht). by exists g.
  - intros Hclock Hz. pose proof (Hclock f Hf Hfull) as Hcf. rewrite <- (dayBucket_days _ _ Hcf), <- (weekBucket_weeks _ _ Hcf). split; intros Hb.
    + destruct (Hday Hz Hb) as (g & Hg & E & Ht). exists g. split_and!; [done| |done]. pose proof (Hclock g (proj1 Hg) (proj1 (proj2 Hg))) as Hcg.
      rewrite (dayBucket_days _ _ Hcf), (dayBucket_days _ _ Hcg) in E. apply same_day_local. lia.
    + destruct (Hweek Hz Hb) as (g & Hg & E & Ht). exists g. split_and!; [done| |done]. pose proof (Hclock g (proj1 Hg) (proj1 (proj2 Hg))) as Hcg.
      rewrite (weekBucket_weeks _ _ Hcf), (weekBucket_weeks _ _ Hcg) in E. lia.
Qed.

(** Nothing is kept without a reason: a kept full is among the [KeepFulls] first in
    the order, or younger than [KeepFullAge], or the latest of its day, week or month. *)
Theorem Evaluate_kept_has_rule range wall rs p plan f :
  (forall n A (m : gmap string A), range n A m ≡ₚ map_to_list m) ->
  NoDup (r_BackupID <$> rs) -> Evaluate range wall rs p = Ok plan ->
  f ∈ rs -> is_full f = true -> r_BackupID f ∈ KeptBackupIDs plan ->
  let now := eval_now wall p in
  let latest n bucket := IsZero (r_StopTime f) = false /\ 0 <= bucket (r_StopTime f) < n /\
    forall g, g ∈ rs -> is_full g = true -> IsZero (r_StopTime g) = false ->
      bucket (r_StopTime g) = bucket (r_StopTime f) -> t_ns (r_StopTime g) <= t_ns (r_StopTime f) in
  r_BackupID f ∈ keep_fulls range p (groupChains rs) \/
  (0 < KeepFullAge p /\ IsZero (r_StopTime f) = false /\
   t_ns now - KeepFullAge p < t_ns (r_StopTime f)) \/
  latest (KeepDaily p) (dayBucket now) \/ latest (KeepWeekly p) (weekBucket now) \/
  latest (KeepMonthly p) (monthBucket now).
Proof.
  intros Hrange Hnd HE Hf Hfull Hk now latest.
  rewrite (kept_full range Hrange rs Hnd wall p plan f) in Hk by done.
  assert (Hb : forall n bucket, bucket_newest (groupChains rs) n bucket (r_BackupID f) -> latest n bucket).
  { intros n bucket (c & Hc & Hz & Hb & Hmax). rewrite groupChains_full in Hc by done.
    injection Hc as <-. cbn [full] in *. split_and!; [done|lia..|].
    intros g Hg Hgf Hgz Hgb. apply (Hmax (r_BackupID g) (Chain g (base.filter (descends rs (r_BackupID g)) rs)));
      [by apply groupChains_full|done..]. }
  apply keep_rules_cases in Hk; [|done].
  destruct Hk as [?|[(Ha & c & Hc & Hz & Ht)|[?|[?|?]]]]; auto 10.
  rewrite groupChains_full in Hc by done. injection Hc as <-. auto 10.
Qed.

Lemma Evaluate_min_lsn range wall rs p plan :
  (forall n A (m : gmap string A), range n A m ≡ₚ map_to_list m) ->
  NoDup (r_BackupID <$> rs) -> Evaluate range wall rs p = Ok plan ->
  (forall f, f ∈ rs -> is_full f = true -> r_BackupID f ∈ KeptBackupIDs plan ->
     OldestNeededLSN plan <= match ParseLSN (r_StartLSN f) with Ok l => l | Fail _ => 0 end) /\
  ((exists f, f ∈ rs /\ is_full f = true /\ r_BackupID f ∈ KeptBackupIDs plan /\
     OldestNeededLSN plan = match ParseLSN (r_StartLSN f) with Ok l => l | Fail _ => 0 end) \/
   (OldestNeededLSN plan = 0 /\ KeptBackupIDs plan = [])).
Proof.
  intros Hrange Hnd HE. destruct (Evaluate_lsn range Hrange wall rs p plan HE) as [Hle Hat]. split.
  - intros f Hf Hfull Hk. rewrite (kept_full range Hrange rs Hnd wall p plan f) in Hk by done.
    by apply (Hle (r_BackupID f) (Chain f (base.filter (descends rs (r_BackupID f)) rs)));
      [apply groupChains_full|].
  - destruct Hat as [(k & c & Hc & Hk & Hl)|?]; [left|by right]. exists (full c).
    destruct (full_kept_intro range Hrange wall rs p plan Hnd HE (full c) k c) as (? & ? & ?); done.
Qed.

(** [OldestNeededLSN] is the least start position of the kept fulls, an unreadable one
    counting as zero, and it is zero exactly when WAL must not be pruned for lack of one. *)
Theorem Evaluate_oldest_lsn range wall rs p plan :
  (forall n A (m : gmap string A), range n A m ≡ₚ map_to_list m) ->
  NoDup (r_BackupID <$> rs) -> Evaluate range wall rs p = Ok plan ->
  (forall f, f ∈ rs -> is_full f = true -> r_BackupID f ∈ KeptBackupIDs plan ->
     OldestNeededLSN plan <= match ParseLSN (r_StartLSN f) with Ok l => l | Fail _ => 0 end) /\
  ((exists f, f ∈ rs /\ is_full f = true /\ r_BackupID f ∈ KeptBackupIDs plan /\
     OldestNeededLSN plan = match ParseLSN (r_StartLSN f) with Ok l => l | Fail _ => 0 end) \/
   (OldestNeededLSN plan = 0 /\ KeptBackupIDs plan = [])).
Proof. apply Evaluate_min_lsn. Qed.

(** ** The walk to the root *)

(** [r] reaches the full [f] through its parents in [i] steps. *)
Inductive reaches (m : gmap string BackupRecord) : nat -> BackupRecord -> BackupRecord -> Prop :=
  | reaches_full f : is_full f = true -> reaches m 0 f f
  | reaches_parent i r q f : is_full r = false -> m !! r_ParentBackupID r = Some q ->
      reaches m i q f -> reaches m (S i) r f.

Lemma reaches_root m i r f n : reaches m i r f -> (i < n)%nat -> rootOf_go n m r = r_BackupID f.
Proof.
  intros Hr. revert n. induction Hr as [f Hf|i r q f Hf Hq Hr IH]; intros [|n] Hn; try lia; simpl.
  - by rewrite Hf.
  - rewrite Hf, Hq. apply IH. lia.
Qed.

Lemma reaches_det m i j r f g : reaches m i r f -> reaches m j r g -> i = j /\ f = g.
Proof.
  intros Hr. revert j g. induction Hr as [f Hf|i r q f Hf Hq Hr IH]; intros j g Hg; inversion Hg; subst.
  - done.
  - congruence.
  - congruence.
  - simplify_eq. edestruct IH as [-> ->]; eauto.
Qed.

(** The records the walk passes, from the parent of its start. *)
Lemma reaches_trail m i r f :
  reaches m i r f -> exists l : list BackupRecord, length l = i /\
    (forall q, q ∈ l -> (exists k, m !! k = Some q) /\ exists j, (j < i)%nat /\ reaches m j q f) /\ NoDup l.
Proof.
  induction 1 as [f Hf|i r q f Hf Hq Hr (l & Hlen & Hl & Hnd)].
  - exists []. split_and!; [done| |constructor]. intros q Hq. by apply not_elem_of_nil in Hq.
  - exists (q :: l). split_and!; [simpl; lia| |].
    + intros q' Hq'. apply elem_of_cons in Hq' as [->|Hin].
      * split; [eauto|]. exists i. split; [lia|done].
      * destruct (Hl q' Hin) as (? & j & Hj & ?). split; [done|]. exists j. split; [lia|done].
    + constructor; [|done]. intros Hin. destruct (Hl q Hin) as (_ & j & Hj & Hrj).
      destruct (reaches_det _ _ _ _ _ _ Hr Hrj). lia.
Qed.

(** The bound on the walk to the root loses nothing: a backup whose parents lead to a
    full in any number of steps is assigned to that full. *)
Theorem rootOf_complete rs r i f :
  reaches (index_by_id rs) i r f -> rootOf r rs = r_BackupID f.
Proof.
  intros Hr. apply (reaches_root _ i); [done|].
  destruct (reaches_trail _ _ _ _ Hr) as (l & <- & Hl & Hnd).
  assert (Hsub : l ⊆+ rs).
  { apply NoDup_submseteq; [done|]. intros q Hq. destruct (Hl q Hq) as [[k Hk] _].
    by apply index_by_id_spec in Hk as [? _]. }
  apply submseteq_length in Hsub. lia.
Qed.

(** ** A concrete listing *)

Definition range_std (_ : nat) (A : Type) (m : gmap string A) : list (string * A) := map_to_list m.

Lemma range_std_perm n A (m : gmap string A) : range_std n A m ≡ₚ map_to_list m.
Proof. done. Qed.

Definition sample (id ty parent lsn : string) (stop : time) : BackupRecord :=
  {| r_BackupID := id; r_Type := ty; r_ParentBackupID := parent; r_Server := "db"; r_Compression := "";
     r_Recipients := []; r_Annotation := ""; r_StartLSN := lsn; r_StopLSN := ""; r_Timeline := 1;
     r_StartTime := stop; r_StopTime := stop; r_Files := 1; r_Bytes := 1 |}.

Definition old_full := sample "AF" "full" "" "0/2000000" (Date 2026 1 1 3 0 0).
Definition old_incr := sample "A_1I" "incremental" "AF" "0/3000000" (Date 2026 1 2 3 0 0).
Definition new_full := sample "BF" "full" "" "0/9000000" (Date 2026 2 1 3 0 0).
Definition new_incr := sample "B_1I" "incremental" "BF" "0/A000000" (Date 2026 2 2 3 0 0).
Definition new_incr2 := sample "B_2I" "incremental" "B_1I" "0/B000000" (Date 2026 2 3 3 0 0).
Definition orphan := sample "C_1I" "incremental" "CF" "0/C000000" (Date 2026 2 3 3 0 0).

Definition sample_records := [old_full; old_incr; new_full; new_incr; new_incr2; orphan].

Definition sample_policy : Policy :=
  {| KeepFulls := 1; KeepFullAge := 0; KeepDaily := 0; KeepWeekly := 0; KeepMonthly := 2;
     Now := Date 2026 3 1 0 0 0 |}.

Definition sample_plan : Plan :=
  {| ExpirableBackupIDs := ["AF"; "A_1I"]; KeptBackupIDs := ["BF"; "B_1I"; "B_2I"];
     OldestNeededLSN := 0x9000000 |}.

Lemma sample_nodup : NoDup (r_BackupID <$> sample_records).
Proof. apply (bool_decide_unpack _). vm_compute. exact I. Qed.

Lemma sample_evaluates :
  Evaluate range_std zero_time sample_records sample_policy = Ok sample_plan.
Proof. vm_compute. reflexivity. Qed.

Lemma sample_typed : Forall (fun r => is_full r = true \/ is_incremental r = true) sample_records.
Proof. repeat (apply Forall_cons_2; [vm_compute; auto|]). by apply Forall_nil. Qed.

Lemma Evaluate_chains_atomic_witness :
  exists q, q ∈ sample_records /\ r_BackupID q = "B_1I" /\
    r_BackupID q ∈ KeptBackupIDs sample_plan /\ (r_BackupID q ∉ ExpirableBackupIDs sample_plan).
Proof.
  apply (Evaluate_chains_atomic range_std zero_time sample_records sample_policy sample_plan new_incr2
    range_std_perm sample_nodup sample_typed sample_evaluates); [unfold sample_records; in_list|reflexivity|].
  cbn. in_list.
Defined.

Lemma Evaluate_partition_witness :
  ("B_1I" ∈ KeptBackupIDs sample_plan \/ "B_1I" ∈ ExpirableBackupIDs sample_plan) /\
  ~ ("C_1I" ∈ KeptBackupIDs sample_plan \/ "C_1I" ∈ ExpirableBackupIDs sample_plan).
Proof.
  split.
  - apply (Evaluate_partition range_std zero_time sample_records sample_policy sample_plan "B_1I"
      range_std_perm sample_nodup sample_evaluates).
    exists new_incr. split_and!; [unfold sample_records; in_list|reflexivity|].
    right. split; [reflexivity|]. by vm_compute.
  - intros H.
    apply (Evaluate_partition range_std zero_time sample_records sample_policy sample_plan "C_1I"
      range_std_perm sample_nodup sample_evaluates) in H as (r & Hr & Hid & Hty).
    apply (nodup_id_inj sample_records r orphan sample_nodup Hr) in Hid; [|unfold sample_records; in_list].
    subst r. destruct Hty as [H|[_ H]]; [by vm_compute in H|]. by apply H; vm_compute.
Defined.

Lemma Evaluate_keeps_witness : r_BackupID new_full ∈ KeptBackupIDs sample_plan.
Proof.
  destruct (Evaluate_keeps range_std zero_time sample_records sample_policy sample_plan new_full
    range_std_perm sample_nodup sample_evaluates) as [H _]; [unfold sample_records; in_list|reflexivity|].
  apply H. vm_compute. reflexivity.
Defined.

Lemma Evaluate_kept_has_rule_witness :
  "BF" ∈ keep_fulls range_std sample_policy (groupChains sample_records) \/
  IsZero (r_StopTime new_full) = false.
Proof.
  destruct (Evaluate_kept_has_rule range_std zero_time sample_records sample_policy sample_plan new_full
    range_std_perm sample_nodup sample_evaluates) as [H|[(_ & H & _)|[(H & _)|[(H & _)|(H & _)]]]];
    [unfold sample_records; in_list|reflexivity|cbn; in_list|by left|by right..].
Defined.

Lemma Evaluate_oldest_lsn_witness : OldestNeededLSN sample_plan <= 0x9000000.
Proof.
  apply (Evaluate_oldest_lsn range_std zero_time sample_records sample_policy sample_plan
    range_std_perm sample_nodup sample_evaluates) with (f := new_full);
    [unfold sample_records; in_list|reflexivity|cbn; in_list].
Defined.

Lemma rootOf_complete_witness : rootOf new_incr2 sample_records = "BF".
Proof.
  apply (rootOf_complete sample_records new_incr2 2 new_full).
  eapply reaches_parent; [reflexivity|vm_compute; reflexivity|].
  eapply reaches_parent; [reflexivity|vm_compute; reflexivity|]. by apply reaches_full.
Defined.

(** Backup times are read in UTC and [now] in the zone of the host, and the quotient
    drops its fraction: east of Greenwich two calendar days share bucket zero. *)
Lemma dayBucket_merges_days :
  let now := Time (t_ns (Date 2026 3 10 10 0 0)) 7200 in
  dayBucket now (Date 2026 3 10 5 0 0) = 0 /\ dayBucket now (Date 2026 3 9 5 0 0) = 0.
Proof. vm_compute. done. Qed.

(** A negative count passes [Validate] and keeps nothing. *)
Lemma negative_policy_keeps_nothing :
  Evaluate range_std zero_time sample_records
    {| KeepFulls := -1; KeepFullAge := 0; KeepDaily := 0; KeepWeekly := 0; KeepMonthly := 0;
       Now := Date 2026 3 1 0 0 0 |} =
  Ok {| ExpirableBackupIDs := ["AF"; "A_1I"; "BF"; "B_1I"; "B_2I"]; KeptBackupIDs := [];
        OldestNeededLSN := 0 |}.
Proof. vm_compute. done. Qed.
