(* ===== verification/Worlds.v ===== *)
(** * A concrete world

    The in-memory storage together with the files of the host, a random source, a
    clock and a script of what other processes archive while this one sleeps. It
    implements every interface the clients are proved against, so their theorems
    can be run. *)

From S2P Require Import Prelude Storage Host.

(** ** The world *)

Record world := World {
  w_mem : mem;
  w_host : gmap string string;
  w_rand : nat;
  w_clock : Z;
  w_arrivals : list (list (string * string));
}.

Definition set_mem (m : mem) (w : world) : world :=
  World m (w_host w) (w_rand w) (w_clock w) (w_arrivals w).

Definition lift_mem {A} (c : M mem A) : M world A := fun w =>
  let '(r, m) := c (w_mem w) in (r, set_mem m w).

(** What arrives is WAL. *)
Definition arrive (l : list (string * string)) (m : mem) : mem :=
  mem_set_files (list_to_map (base.filter (fun kv => HasPrefix kv.1 "wal/") l) ∪ mem_files m) m.

#[export] Instance world_backend : Backend world := {
  be_Writer := nat;
  be_Put p := lift_mem (be_Put p);
  be_Write h b := lift_mem (be_Write (W:=mem) h b);
  be_Close h := lift_mem (be_Close (W:=mem) h);
  be_Commit t f := lift_mem (be_Commit t f);
  be_Get p := lift_mem (be_Get p);
  be_Stat p := lift_mem (be_Stat p);
  be_List p := lift_mem (be_List p);
  be_Delete p := lift_mem (be_Delete p);
}.

#[export] Instance world_host : Host world := {
  os_ReadFile p := fun w =>
    match w_host w !! p with
    | Some c => (Ok c, w)
    | None => (Fail (errors_Sentinel OsErrNotExist "open"), w)
    end;
  os_OpenFile p := fun w =>
    match w_host w !! p with
    | Some c => (Ok ([c], None), w)
    | None => (Fail (errors_Sentinel OsErrNotExist "open"), w)
    end;
  os_WriteFile p c := fun w =>
    (Ok tt, World (w_mem w) (<[p := c]> (w_host w)) (w_rand w) (w_clock w) (w_arrivals w));
  rand_Read n := fun w =>
    (Ok (hex_fixed hexL n (Z.of_nat (w_rand w))),
     World (w_mem w) (w_host w) (S (w_rand w)) (w_clock w) (w_arrivals w));
}.

#[export] Instance world_clock : Clock world := {
  time_Now := w_clock;
  time_Sleep d := fun w =>
    let '(l, rest) := match w_arrivals w with [] => ([], []) | l :: t => (l, t) end in
    (Ok tt, World (arrive l (w_mem w)) (w_host w) (w_rand w) (w_clock w + d) rest);
}.

Lemma lift_mem_run {A} (c : M mem A) w :
  lift_mem c w = (fst (c (w_mem w)), set_mem (snd (c (w_mem w))) w).
Proof. unfold lift_mem. by destruct (c (w_mem w)). Qed.

Lemma lift_mem_eq {A} (c : M mem A) w r w' :
  lift_mem c w = (r, w') -> c (w_mem w) = (r, w_mem w').
Proof. unfold lift_mem. destruct (c (w_mem w)). by intros [= <- <-]. Qed.

Lemma snd_lift {A} (c : M mem A) w : w_mem (snd (lift_mem c w)) = snd (c (w_mem w)).
Proof. unfold lift_mem. by destruct (c (w_mem w)). Qed.

#[export] Program Instance world_laws : BackendLaws world := {
  view w := view (w_mem w);
  pending w h := pending (W:=mem) (w_mem w) h;
}.
Next Obligation.
  intros p w Hp. cbn [be_Put world_backend]. rewrite snd_lift.
  destruct (@put_spec mem mem_backend mem_laws p (w_mem w) Hp) as [Hv Hpend]. split; [done|].
  intros h w' ?%lift_mem_eq. eauto.
Qed.
Next Obligation.
  intros h b w p c Hp. cbn [be_Write world_backend]. rewrite snd_lift.
  destruct (@write_spec mem mem_backend mem_laws h b (w_mem w) p c Hp) as (Hv & c' & Hpend & Hok). split; [done|].
  exists c'. split; [done|]. intros w' ?%lift_mem_eq. eauto.
Qed.
Next Obligation.
  intros h w p c Hp. cbn [be_Close world_backend]. rewrite snd_lift.
  destruct (@close_spec mem mem_backend mem_laws h (w_mem w) p c Hp) as [Hout Hok]. split; [done|].
  intros w' ?%lift_mem_eq. eauto.
Qed.
Next Obligation.
  intros t f w Ht Hf Hc Hne Hs. cbn [be_Commit world_backend]. rewrite snd_lift.
  destruct (@commit_spec mem mem_backend mem_laws t f (w_mem w) Ht Hf Hc Hne Hs) as (? & ? & ? & ?).
  split_and!; [done|..]; intros *; intros ?%lift_mem_eq; eauto.
Qed.
Next Obligation.
  intros p w Hp. cbn [be_Get world_backend]. rewrite snd_lift.
  destruct (@get_spec mem mem_backend mem_laws p (w_mem w) Hp) as (? & ? & ?).
  split_and!; [done|..]; intros *; intros ?%lift_mem_eq; eauto.
Qed.
Next Obligation.
  intros p w Hp. cbn [be_Stat world_backend]. rewrite snd_lift.
  destruct (@stat_spec mem mem_backend mem_laws p (w_mem w) Hp) as (? & ? & ?).
  split_and!; [done|..]; intros *; intros ?%lift_mem_eq; eauto.
Qed.
Next Obligation.
  intros p w. cbn [be_List world_backend]. rewrite snd_lift.
  destruct (@list_spec mem mem_backend mem_laws p (w_mem w)) as (? & ?). split; [done|].
  intros l w' ?%lift_mem_eq. eauto.
Qed.
Next Obligation.
  intros prefix w l w' p ?%lift_mem_eq. eauto using list_complete.
Qed.
Next Obligation.
  intros prefix w e w' p ?%lift_mem_eq. eauto using list_absent.
Qed.
Next Obligation.
  intros p w Hp. cbn [be_Delete world_backend]. rewrite snd_lift.
  destruct (@delete_spec mem mem_backend mem_laws p (w_mem w) Hp) as (? & ? & ? & ?).
  split_and!; [done|..]; intros *; intros ?%lift_mem_eq; eauto.
Qed.

#[export] Program Instance world_host_laws : HostLaws world := { host_files := w_host }.
Next Obligation.
  intros p w. simpl. destruct (w_host w !! p) eqn:E; simpl; split_and!; try done.
  by intros c w' [= <- <-].
Qed.
Next Obligation.
  intros p w. simpl. destruct (w_host w !! p) as [c|] eqn:E; simpl; split_and!; try done.
  intros chunks w' [= <- <-]. cbn [Join]. done.
Qed.
Next Obligation.
  intros p c w. simpl. split_and!; [done| |by intros w' [= <-]]. intros q Hq. by rewrite lookup_insert_ne by done.
Qed.
Next Obligation.
  intros n w. simpl. split_and!; try done. intros b w' [= <- <-]. apply slen_hex_fixed.
Qed.
Next Obligation. intros p w. cbn [be_Stat world_backend]. by rewrite lift_mem_run. Qed.
Next Obligation. intros p w. cbn [be_List world_backend]. by rewrite lift_mem_run. Qed.

#[export] Program Instance world_clock_laws : ClockLaws world := {}.
Next Obligation. intros d w w' Hd. simpl. destruct (w_arrivals w); intros [= <-]; simpl; lia. Qed.
Next Obligation. intros p w. cbn [be_List world_backend]. rewrite lift_mem_run. simpl. lia. Qed.

Definition set_host (h : gmap string string) (w : world) : world :=
  World (w_mem w) h (w_rand w) (w_clock w) (w_arrivals w).

(** Directories need not be made, a link is kept as a file that names its target, and
    merging backups takes every file from the last backup that has it. *)
#[export] Instance world_disk : Disk world := {
  os_Stat p := fun w =>
    (match w_host w !! p with Some _ => Ok tt | None => Fail (errors_Sentinel OsErrNotExist "stat") end, w);
  os_MkdirAll p := fun w => (Ok tt, w);
  os_CreateExcl p := fun w =>
    match w_host w !! p with
    | Some _ => (Fail (errors_Sentinel OsErrExist "open"), w)
    | None => (Ok tt, set_host (<[p := ""]> (w_host w)) w)
    end;
  os_Remove p := fun w =>
    (match w_host w !! p with Some _ => Ok tt | None => Fail (errors_Sentinel OsErrNotExist "remove") end,
     set_host (delete p (w_host w)) w);
  os_RemoveAll p := fun w =>
    (Ok tt, set_host (base.filter (fun kv => inside p kv.1 = false) (w_host w)) w);
  os_Symlink new link := fun w => (Ok tt, set_host (<[link := "-> " +:+ new]> (w_host w)) w);
  os_MkdirTemp dir pat := fun w => (Ok (path_Join [dir; pat +:+ "0"]), w);
  exec_LookPath _ := fun w => (Ok tt, w);
  pg_combinebackup dirs target := fun w =>
    let under_dir d := omap (fun '(p, c) =>
      if HasPrefix p (d +:+ "/") then Some (target +:+ sdrop (slen d) p, c) else None) (map_to_list (w_host w)) in
    (Ok tt, set_host (list_to_map (rev (List.concat (map under_dir dirs))) ∪ w_host w) w);
}.

#[export] Program Instance world_disk_laws : DiskLaws world := {}.
Next Obligation. intros p w e w'. simpl. destruct (w_host w !! p) eqn:E; [done|]. done. Qed.
Next Obligation. done. Qed.
Next Obligation. intros p w e w'. simpl. destruct (w_host w !! p) eqn:E; [done|]. done. Qed.
Next Obligation. done. Qed.
Next Obligation. intros p w. cbn [be_Get world_backend]. by rewrite lift_mem_run. Qed.

(** A world with the given storage, host files and failure script. *)
Definition start_world (files host : gmap string string) (script : list bool)
    (arrivals : list (list (string * string))) : world :=
  World (mem_init files script) host 0 0 arrivals.

#[export] Instance world_flat : FlatLaws world.
Proof.
  split.
  - intros p w fi w' Hp Hs%lift_mem_eq. exact (@stat_file mem _ _ mem_flat p (w_mem w) fi _ Hp Hs).
  - intros t p w e w' Ht Hp Hc Hne Hs%lift_mem_eq. exact (@commit_file mem _ _ mem_flat t p (w_mem w) e _ Ht Hp Hc Hne Hs).
Qed.
