(* ===== verification/Archive.v ===== *)
(** * The WAL archive

    [internal/wal/archive/archive.go]: the names of archived segments and the
    Push / FindSegment / Get primitives over any storage. *)

From S2P Require Import Prelude Sha256 Storage Host Worlds.

(** ** Names *)

(** [SegmentDir] *)
Definition SegmentDir (timeline : Z) : string := "wal/" +:+ Format0X 8 timeline.

(** [SegmentKey] *)
Definition SegmentKey (timeline : Z) (segmentName srcHash : string) : string :=
  SegmentDir timeline +:+ "/" +:+ segmentName +:+ "-" +:+ EncodeToString srcHash.

(** [SegmentKeyPrefix] *)
Definition SegmentKeyPrefix (timeline : Z) (segmentName : string) : string :=
  SegmentDir timeline +:+ "/" +:+ segmentName +:+ "-".

(** [SegmentNameFromBasename] *)
Definition SegmentNameFromBasename (b : string) : option string :=
  if negb (slen b =? 24 + 1 + 64)%nat then None
  else match sget b 24 with
       | Some c => if Ascii.eqb c "-" then Some (stake 24 b) else None
       | None => None
       end.

(** [isHex] *)
Definition isHex (s : string) : bool := sall is_hexdigit s.

(** [IsSegmentName] *)
Definition IsSegmentName (s : string) : bool :=
  let s := path_Base s in
  if negb (slen s =? 24)%nat then false else isHex s.

Definition byte_at (s : string) (i : nat) (c : ascii) : bool :=
  match sget s i with Some d => Ascii.eqb d c | None => false end.

(** [IsArchivableFile] *)
Definition IsArchivableFile (name : string) : bool :=
  let name := path_Base name in
  if IsSegmentName name then true
  else if (slen name =? 24 + 1 + 8 + slen ".backup")%nat && byte_at name 24 "." && byte_at name 33 "."
          && HasSuffix name ".backup" && isHex (stake 24 name) && isHex (stake 8 (sdrop 25 name))
  then true
  else if (slen name =? 24 + slen ".partial")%nat && HasSuffix name ".partial" && isHex (stake 24 name)
  then true
  else if (slen name =? 8 + slen ".history")%nat && HasSuffix name ".history" && isHex (stake 8 name)
  then true
  else false.

(** [TimelineFromSegment] *)
Definition TimelineFromSegment (seg : string) : result Z :=
  let seg := path_Base seg in
  if negb (IsArchivableFile seg) then Fail (errors_New "wal/archive: not a PG archive file")
  else match Sscanf_hex 32 (stake 8 seg) with
       | Some tli => Ok tli
       | None => Fail (errors_New "wal/archive: parse timeline")
       end.

Section archive.
Context {W : Type} `{Backend W, Host W}.

(** [FindSegment]: the key holding the named segment, if there is one. *)
Definition FindSegment (timeline : Z) (segmentName : string) : M W (option string) :=
  let prefix := SegmentKeyPrefix timeline segmentName in
  r <- try (be_List (SegmentDir timeline)) ;;
  match r with
  | Fail err =>
      if errors_Is err OsErrNotExist then ret None
      else throw (Errorf_w "wal/archive: list" err)
  | Ok infos =>
      let matches := base.filter
        (fun p => HasPrefix p prefix && negb (HasSuffix p ".tmp")) (fi_Path <$> infos) in
      match matches with
      | [] => ret None
      | [m] => ret (Some m)
      | _ => throw (errors_Sentinel ErrSegmentMismatch "wal/archive: copies in storage")
      end
  end.

(** [hashFile] *)
Definition hashFile (path : string) : M W string :=
  body <- os_ReadFile path ;; ret (Sum256 body).

(** [streamFileTo] *)
Definition streamFileTo (sourcePath key : string) : M W unit :=
  src <- wrapping "wal/archive: open" (os_OpenFile sourcePath) ;;
  wc <- wrapping "wal/archive: Put" (be_Put key) ;;
  r <- try (copy_reads wc src) ;;
  match r with
  | Fail err => try (be_Close wc) ;;; throw (Errorf_w "wal/archive: copy" err)
  | Ok _ => wrapping "wal/archive: close" (be_Close wc)
  end.

(** The upload of [Push]: stage under a random name, then promote it. *)
Definition pushFresh (sourcePath key : string) : M W unit :=
  rnd <- wrapping "wal/archive: rand" (rand_Read 8) ;;
  let tmpKey := key +:+ "." +:+ EncodeToString rnd +:+ ".tmp" in
  r <- try (streamFileTo sourcePath tmpKey) ;;
  match r with
  | Fail err => try (be_Delete tmpKey) ;;; throw err
  | Ok _ =>
      commitErr <- try (be_Commit tmpKey key) ;;
      match commitErr with
      | Ok _ => ret tt
      | Fail err =>
          try (be_Delete tmpKey) ;;;
          if errors_Is err OsErrExist then ret tt
          else throw (Errorf_w "wal/archive: Commit" err)
      end
  end.

(** [Push] *)
Definition Push (timeline : Z) (sourcePath : string) : M W unit :=
  let segName := path_Base sourcePath in
  srcHash <- wrapping "wal/archive: hash source" (hashFile sourcePath) ;;
  let key := SegmentKey timeline segName srcHash in
  st <- try (be_Stat key) ;;
  match st with
  | Ok _ => ret tt
  | Fail statErr =>
      if negb (errors_Is statErr OsErrNotExist) then throw (Errorf_w "wal/archive: stat" statErr)
      else
        found <- FindSegment timeline segName ;;
        match found with
        | Some other =>
            if String.eqb other key then ret tt
            else throw (errors_Sentinel ErrSegmentMismatch "already in storage with different source SHA")
        | None => pushFresh sourcePath key
        end
  end.

(** [Get] *)
Definition Get (timeline : Z) (segmentName destPath : string) : M W unit :=
  found <- FindSegment timeline segmentName ;;
  match found with
  | None => throw (errors_Sentinel OsErrNotExist "wal/archive: Get")
  | Some key =>
      body <- wrapping "wal/archive: Get" (be_Get key) ;;
      wrapping "wal/archive: copy" (os_WriteFile destPath body)
  end.
End archive.

(** ** Names that the archive accepts *)

(** The bare names [Push] and [Get] are called with. *)
Definition seg_ok (seg : string) : bool := plain_seg seg && no_byte "g" seg && copyable seg.

Lemma SegmentDir_plain t : plain_path (SegmentDir t) = true /\ no_byte "g" (SegmentDir t) = true.
Proof.
  unfold SegmentDir. split.
  - apply (plain_path_app "wal"); [done|].
    apply plain_seg_path, hex_plain; auto using Format0X_nonempty, Format0X_hex.
  - by rewrite no_byte_app, (hex_no_byte "g" (Format0X 8 t)) by (done || apply Format0X_hex).
Qed.

Lemma plain_seg_ext s t :
  plain_seg s = true -> no_byte "/" t = true -> plain_seg (s +:+ "-" +:+ t) = true.
Proof.
  unfold plain_seg. rewrite !andb_true_iff. intros [[[H1 H2] H3] H4] Ht.
  rewrite !no_byte_app, H4, Ht, !negb_true_iff, !String.eqb_neq. split_and!; try done.
  all: destruct s as [|c1 [|c2 [|c3 s]]]; simpl; try done; intros Heq; simplify_eq; done.
Qed.

Section keys.
Context (t : Z) (seg : string) (Hseg : seg_ok seg = true).

Lemma valid_key_suffix suffix :
  no_byte "/" suffix = true -> no_byte "g" suffix = true ->
  valid_key (SegmentKeyPrefix t seg +:+ suffix) = true.
Proof.
  intros Hsl Hg. unfold seg_ok in Hseg. rewrite !andb_true_iff in Hseg. destruct Hseg as [[Hplain Hsegg] _].
  destruct (SegmentDir_plain t) as [Hd Hdg].
  unfold valid_key, SegmentKeyPrefix. rewrite !sapp_assoc. apply andb_true_iff. split.
  - apply plain_path_app; [done|]. by apply plain_seg_path, plain_seg_ext.
  - apply negb_true_iff, (Contains_byte _ _ "g"); [|done].
    by rewrite !no_byte_app, Hdg, Hsegg, Hg.
Qed.

Lemma SegmentKey_prefix h : SegmentKey t seg h = SegmentKeyPrefix t seg +:+ EncodeToString h.
Proof. unfold SegmentKey, SegmentKeyPrefix. by rewrite !sapp_assoc. Qed.

Lemma SegmentKey_valid h : valid_key (SegmentKey t seg h) = true.
Proof.
  rewrite SegmentKey_prefix.
  apply valid_key_suffix; apply hex_no_byte; done || apply EncodeToString_hex.
Qed.

Lemma tmpKey_valid h r :
  valid_key (SegmentKey t seg h +:+ "." +:+ EncodeToString r +:+ ".tmp") = true.
Proof.
  rewrite SegmentKey_prefix, sapp_assoc.
  apply valid_key_suffix; rewrite !no_byte_app;
    by rewrite (hex_no_byte _ (EncodeToString h)), (hex_no_byte _ (EncodeToString r))
      by (done || apply EncodeToString_hex).
Qed.

Lemma hex_copyable s : sall is_hexdigit s = true -> copyable s = true.
Proof. intros Hs. unfold copyable. by rewrite !(hex_no_byte _ s). Qed.

Lemma tmpKey_copyable h r : copyable (SegmentKey t seg h +:+ "." +:+ EncodeToString r +:+ ".tmp") = true.
Proof.
  rewrite SegmentKey_prefix, sapp_assoc. unfold SegmentKeyPrefix, SegmentDir. rewrite !copyable_app.
  rewrite (hex_copyable (EncodeToString h)), (hex_copyable (EncodeToString r)), (hex_copyable (Format0X 8 t)) by (apply EncodeToString_hex || apply Format0X_hex).
  unfold seg_ok in Hseg. rewrite !andb_true_iff in Hseg. by destruct Hseg as [_ ->].
Qed.

Lemma SegmentKey_under h : under (SegmentDir t) (SegmentKey t seg h) = true.
Proof.
  unfold under. destruct (String.eqb_spec (SegmentDir t) "") as [E|_]; [done|].
  unfold SegmentKey. rewrite <- (sapp_assoc (SegmentDir t)).
  apply HasPrefix_app.
Qed.

Lemma SegmentKey_not_tmp h : h <> "" -> HasSuffix (SegmentKey t seg h) ".tmp" = false.
Proof.
  intros Hh. apply not_true_iff_false. intros [u Hu]%HasSuffix_spec.
  assert (Hlast : exists v c, EncodeToString h = v +:+ String c "" /\ is_hexdigit c = true).
  { clear -Hh. induction h as [|d h IH]; [done|]. simpl.
    destruct h as [|d' h'] eqn:E.
    - exists (String (hexL (byte_val d / 16)) ""), (hexL (byte_val d mod 16)). split; [done|].
      unfold is_hexdigit. rewrite hexval_digit; auto using Z.mod_pos_bound with lia.
    - destruct IH as (v & c & -> & Hc); [done|].
      by exists (String (hexL (byte_val d / 16)) (String (hexL (byte_val d mod 16)) v)), c. }
  destruct Hlast as (v & c & Hv & Hc). rewrite SegmentKey_prefix, Hv, <- sapp_assoc in Hu.
  change ".tmp" with (".tm" +:+ "p") in Hu. rewrite <- sapp_assoc in Hu.
  apply (f_equal String.rev) in Hu. revert Hu.
  assert (Hrev : forall x d, exists y, String.rev (x +:+ String d "") = String d y).
  { clear. intros x d. unfold String.rev.
    assert (Hgo : forall z, exists y, String.rev_app (x +:+ String d "") z = String d y);
      [|apply Hgo].
    induction x as [|e x IH]; intros z; simpl; [by exists z|apply IH]. }
  destruct (Hrev (SegmentKeyPrefix t seg +:+ v) c) as [y ->].
  destruct (Hrev (u +:+ ".tm") "p"%char) as [z ->]. intros [= -> _]. done.
Qed.
End keys.

Section theorems.
Context {W : Type} `{HostLaws W}.

Lemma read_file_view p : preserves same_view (os_ReadFile p).
Proof. intros w. apply read_file_spec. Qed.

Lemma write_file_view p c : preserves same_view (os_WriteFile p c).
Proof. intros w. apply write_file_spec. Qed.

Lemma rand_view n : preserves same_view (rand_Read n).
Proof. intros w. apply rand_spec. Qed.

(** A stored variant of a segment, as [FindSegment] recognises one. *)
Definition variant (t : Z) (seg key : string) (w : W) : Prop :=
  is_Some (view w !! key) /\ valid_key key = true /\
  HasPrefix key (SegmentKeyPrefix t seg) = true /\ HasSuffix key ".tmp" = false.

Lemma prefix_under t seg k : HasPrefix k (SegmentKeyPrefix t seg) = true -> under (SegmentDir t) k = true.
Proof.
  intros [u ->]%HasPrefix_spec. unfold under.
  destruct (String.eqb_spec (SegmentDir t) "") as [E|_]; [done|].
  unfold SegmentKeyPrefix. rewrite !sapp_assoc, <- (sapp_assoc (SegmentDir t)).
  apply HasPrefix_app.
Qed.

Lemma FindSegment_view t seg : preserves same_view (FindSegment t seg).
Proof.
  unfold FindSegment. apply preserves_bind; [apply _|by apply preserves_try, list_view|].
  intros [infos|err]; repeat case_match; auto with go typeclass_instances.
Qed.

Lemma FindSegment_host t seg w : host_files (snd (FindSegment t seg w)) = host_files w.
Proof.
  unfold FindSegment, bind, try. pose proof (list_host (SegmentDir t) w) as Hh.
  destruct (be_List (SegmentDir t) w) as [[infos|err] w1]; simpl in *;
    unfold ret, throw; repeat case_match; done.
Qed.

Lemma FindSegment_inv t seg w o w' :
  FindSegment t seg w = (Ok o, w') ->
  match o with
  | Some k => variant t seg k w /\ forall k', variant t seg k' w -> k' = k
  | None => forall k', ~ variant t seg k' w
  end.
Proof.
  unfold FindSegment, bind, try.
  destruct (be_List (SegmentDir t) w) as [r w1] eqn:El.
  destruct r as [infos|err].
  - pose proof (proj2 (list_spec (SegmentDir t) w) infos w1 El) as [_ Hl].
    set (ms := base.filter _ _).
    assert (Hms : forall k, k ∈ ms <-> variant t seg k w).
    { intros k. unfold ms. rewrite list_elem_of_filter, Is_true_true, andb_true_iff, negb_true_iff. split.
      - intros [[Hp Hs] Hk]. apply list_elem_of_fmap in Hk as (fi & -> & Hfi).
        destruct (Hl fi Hfi) as (Hv & c & Hc & _). split_and!; eauto.
      - intros (Hin & Hv & Hp & Hs). split; [done|].
        eapply list_complete; eauto using prefix_under. }
    destruct ms as [|k [|k2 ms']] eqn:Ems; unfold ret, throw; intros [= <- <-].
    + intros k' Hk'. apply Hms in Hk'. by apply elem_of_nil in Hk'.
    + split; [apply Hms; by left|]. intros k' Hk'. apply Hms in Hk'. by apply list_elem_of_singleton in Hk'.
  - destruct (errors_Is err OsErrNotExist) eqn:Eis; unfold ret, throw; intros [= <- <-].
    intros k' (Hin & _ & Hp & _). destruct Hin as [c Hc].
    rewrite (list_absent _ _ _ _ _ El Eis (prefix_under _ _ _ Hp)) in Hc. done.
Qed.

Lemma streamFileTo_spec src key w r w' :
  valid_key key = true -> streamFileTo src key w = (r, w') ->
  same_outside (fun q => q = key) w w' /\
  (r = Ok tt -> exists body, host_files w !! src = Some body /\ view w' = <[key := body]> (view w)).
Proof.
  intros Hk. unfold streamFileTo, bind, wrapping, try, throw.
  destruct (open_file_spec src w) as (Hv & _ & Hbody).
  destruct (os_OpenFile src w) as [[reads|e] w1] eqn:E1; simpl in *;
    [|intros [= <- <-]; split; [intros q _; by rewrite Hv|done]].
  destruct (put_spec key w1 Hk) as [Hv2 Hpend].
  destruct (be_Put key w1) as [[h|e] w2] eqn:E2; simpl in *;
    [|intros [= <- <-]; split; [intros q _; by rewrite Hv2, Hv|done]].
  specialize (Hpend h w2 eq_refl).
  destruct (copy_reads_spec h reads w2 key "" Hpend) as [Hv3 (c' & Hp3 & Hok)].
  destruct (copy_reads h reads w2) as [wr w3] eqn:E3; simpl in *.
  destruct (close_spec h w3 key c' Hp3) as [Hc Hcok].
  destruct (be_Close h w3) as [cr w4] eqn:E4; simpl in *.
  assert (Hout : same_outside (fun q => q = key) w w4).
  { intros q Hq. by rewrite Hc, Hv3, Hv2, Hv. }
  destruct wr as [[]|e]; simpl; rewrite E4; simpl;
    [|by intros [= <- <-]; split].
  destruct cr as [[]|e]; simpl; intros [= <- <-]; (split; [done|]); [|done].
  intros _. destruct (Hok w3 eq_refl) as [Hend ->]. destruct reads as [chunks err]. cbn [fst snd] in *. subst err.
  exists (Join chunks ""). split; [by eapply Hbody|]. by rewrite (Hcok w4 eq_refl), Hv3, Hv2, Hv.
Qed.

(** The effect of the upload on every key that is not a staging key. *)
Lemma pushFresh_spec t seg h src w r w' :
  seg_ok seg = true -> h <> "" ->
  let key := SegmentKey t seg h in
  pushFresh src key w = (r, w') ->
  (forall q, HasSuffix q ".tmp" = false -> q <> key -> view w' !! q = view w !! q) /\
  (forall c, view w !! key = Some c -> view w' !! key = Some c) /\
  (r = Ok tt -> FlatLaws W -> is_Some (view w' !! key) /\
     (view w !! key = None -> view w' !! key = host_files w !! src)).
Proof.
  intros Hseg Hne key. unfold pushFresh. munfold.
  assert (Hk : valid_key key = true) by by apply SegmentKey_valid.
  assert (Hks : HasSuffix key ".tmp" = false) by by apply SegmentKey_not_tmp.
  assert (Ht : forall rnd, valid_key (key +:+ "." +:+ EncodeToString rnd +:+ ".tmp") = true)
    by (intros; by apply tmpKey_valid).
  assert (Hcp : forall rnd, copyable (key +:+ "." +:+ EncodeToString rnd +:+ ".tmp") = true) by (intros; by apply tmpKey_copyable).
  clearbody key. destruct (rand_spec 8 w) as (Hv0 & Hh0 & _).
  destruct (rand_Read 8 w) as [[rnd|e] w0]; mred;
    [|intros [= <- <-]; rewrite Hv0; by split_and!].
  specialize (Ht rnd). assert (Hts : HasSuffix (key +:+ "." +:+ EncodeToString rnd +:+ ".tmp") ".tmp" = true).
  { apply HasSuffix_spec. exists (key +:+ "." +:+ EncodeToString rnd). by rewrite !sapp_assoc. }
  pose proof (Hcp rnd) as Htc. revert Ht Hts Htc. generalize (key +:+ "." +:+ EncodeToString rnd +:+ ".tmp") as tmp. intros tmp Ht Hts Htc.
  assert (Htk : tmp <> key) by (intros E; rewrite E in Hts; congruence).
  assert (Hqt : forall q, HasSuffix q ".tmp" = false -> q <> tmp) by (intros q Hq ->; congruence).
  destruct (streamFileTo src tmp w0) as [r1 w1] eqn:E1.
  destruct (streamFileTo_spec src tmp w0 r1 w1 Ht E1) as [Hout Hok].
  rewrite Hh0 in Hok. unfold same_outside in Hout. rewrite Hv0 in *.
  destruct r1 as [[]|e]; mred.
  - destruct (Hok eq_refl) as (body & Hbody & Hv1).
    assert (Htmp : is_Some (view w1 !! tmp)) by (rewrite Hv1, lookup_insert_eq; by eexists).
    destruct (commit_spec tmp key w1 Ht Hk Htc Htk Htmp) as (Hcf & HcOk & HcFail & HcExist).
    destruct (be_Commit tmp key w1) as [[[]|e] w2] eqn:E2; mred.
    + intros [= <- <-]. destruct (HcOk w2 eq_refl) as (Hnone & c & Hc & Hv2).
      rewrite Hv1, lookup_insert_eq in Hc. simplify_eq. rewrite Hv1 in Hnone.
      rewrite lookup_insert_ne in Hnone by done. split_and!.
      * intros q Hq Hqk. rewrite Hcf by auto. by apply Hout, Hqt.
      * intros c' Hc'. congruence.
      * intros _ _. rewrite Hv2, lookup_insert_eq. split; [eauto|]. by intros _.
    + destruct (delete_spec tmp w2 Ht) as (Hdf & _).
      destruct (be_Delete tmp w2) as [r3 w3] eqn:E3; mred.
      assert (Hall : forall q, HasSuffix q ".tmp" = false -> q <> key -> view w3 !! q = view w !! q).
      { intros q Hq Hqk. rewrite Hdf, Hcf by auto. by apply Hout, Hqt. }
      assert (Hkey1 : view w1 !! key = view w !! key) by by apply Hout, Hqt.
      destruct (errors_Is e OsErrExist) eqn:Eis; mred; intros [= <- <-]; split_and!; try done.
      * intros c' Hc'. pose proof (HcExist e w2 eq_refl Eis) as Hv2.
        rewrite Hdf by by apply not_eq_sym. by rewrite Hv2, Hkey1.
      * intros _ Hflat. pose proof (HcExist e w2 eq_refl Eis) as Hv2.
        pose proof (commit_file tmp key w1 e w2 Ht Hk Htc Htk E2 Eis) as Hs.
        rewrite Hdf, Hv2 by by apply not_eq_sym. split; [done|].
        intros Hnone. rewrite Hkey1, Hnone in Hs. by destruct Hs.
      * intros c' Hc'. rewrite Hdf by by apply not_eq_sym.
        destruct (HcFail e w2 eq_refl) as [[-> _]|[Hn _]]; [by rewrite Hkey1|congruence].
  - destruct (delete_spec tmp w1 Ht) as (Hdf & _).
    destruct (be_Delete tmp w1) as [r3 w3] eqn:E3; mred.
    intros [= <- <-]. split_and!; [..|done].
    + intros q Hq Hqk. rewrite Hdf by auto. by apply Hout, Hqt.
    + intros c' Hc'. rewrite Hdf by auto. rewrite Hout; auto.
Qed.

(** A push either only looked, or went on to the upload from a storage without a variant. *)
Lemma Push_cases t src w r w' :
  let seg := path_Base src in
  seg_ok seg = true -> Push t src w = (r, w') ->
  (view w' = view w /\
    (r = Ok tt -> exists body, host_files w !! src = Some body /\
       (FlatLaws W -> is_Some (view w !! SegmentKey t seg (Sum256 body))))) \/
  (exists body w2, host_files w !! src = Some body /\
     view w2 = view w /\ host_files w2 = host_files w /\
     (forall k, ~ variant t seg k w) /\
     pushFresh src (SegmentKey t seg (Sum256 body)) w2 = (r, w')).
Proof.
  intros seg Hseg. unfold Push, hashFile. munfold. fold seg. clearbody seg.
  destruct (read_file_spec src w) as (Hv & Hh & Hbody).
  destruct (os_ReadFile src w) as [[body|e] w1]; mred;
    [|intros [= <- <-]; by left].
  specialize (Hbody body w1 eq_refl).
  assert (Hk : valid_key (SegmentKey t seg (Sum256 body)) = true) by by apply SegmentKey_valid.
  set (key := SegmentKey t seg (Sum256 body)) in *.
  destruct (stat_spec key w1 Hk) as (Hv2 & Hst & Hnst).
  pose proof (stat_host key w1) as Hh2.
  destruct (be_Stat key w1) as [[fi|e] w2] eqn:E2; mred.
  - intros [= <- <-]. left. split; [congruence|]. intros _. exists body. split; [done|].
    intros Hflat. rewrite <- Hv. eapply stat_file; [exact Hk|exact E2].
  - destruct (errors_Is e OsErrNotExist) eqn:Eis; mred; [|intros [= <- <-]; left; split; [congruence|done]].
    destruct (FindSegment t seg w2) as [[o|e2] w3] eqn:E3;
      pose proof (FindSegment_view t seg w2) as Hv3; pose proof (FindSegment_host t seg w2) as Hh3;
      unfold same_view in Hv3; rewrite E3 in Hv3, Hh3; mred;
      [|intros [= <- <-]; left; split; [congruence|done]].
    apply FindSegment_inv in E3.
    assert (Hvar : forall k, variant t seg k w2 <-> variant t seg k w).
    { intros k. unfold variant. by rewrite Hv2, Hv. }
    destruct o as [other|].
    + destruct E3 as [Hother _]. apply Hvar in Hother.
      destruct (String.eqb_spec other key) as [->|]; mred; intros [= <- <-]; left; (split; [congruence|]); [|done].
      intros _. exists body. split; [done|]. intros _. apply Hother.
    + intros Hpf. right. exists body, w3. split_and!; try congruence; [|done].
      intros k Hkv. apply (E3 k). by apply Hvar.
Qed.

(** A staging key of a push in flight. *)
Definition staging (q : string) : bool := HasSuffix q ".tmp".

Lemma Sum256_nonempty b : Sum256 b <> "".
Proof. intros E. pose proof (slen_Sum256 b) as Hl. by rewrite E in Hl. Qed.

(** C17: no push, whatever fails inside it, changes or removes a file that is
    already in the storage (the staging files of pushes aside). *)
Theorem Push_never_overwrites t src w r w' q c :
  seg_ok (path_Base src) = true -> Push t src w = (r, w') ->
  view w !! q = Some c -> staging q = false -> view w' !! q = Some c.
Proof.
  intros Hseg Hpush Hq Hst.
  destruct (Push_cases t src w r w' Hseg Hpush) as [[-> _]|(body & w2 & Hb & Hv & Hh & _ & Hpf)]; [done|].
  destruct (pushFresh_spec _ _ _ _ _ _ _ Hseg (Sum256_nonempty body) Hpf) as (Hother & Hkey & _).
  rewrite Hv in *. destruct (decide (q = SegmentKey t (path_Base src) (Sum256 body))) as [->|Hne].
  - by apply Hkey.
  - by rewrite Hother.
Qed.

Lemma Push_stores `{!FlatLaws W} t src w w' :
  seg_ok (path_Base src) = true -> Push t src w = (Ok tt, w') ->
  exists body c, host_files w !! src = Some body /\
    let key := SegmentKey t (path_Base src) (Sum256 body) in
    view w' !! key = Some c /\ c = default body (view w !! key).
Proof.
  intros Hseg Hpush.
  destruct (Push_cases t src w (Ok tt) w' Hseg Hpush) as [[Hv Hok]|(body & w2 & Hb & Hv & Hh & _ & Hpf)].
  - destruct (Hok eq_refl) as (body & Hb & Hin). destruct (Hin _) as [c Hc]. exists body, c. split; [done|]. cbv zeta. rewrite Hv.
    set (key := SegmentKey t (path_Base src) (Sum256 body)) in *. clearbody key. by split; [|rewrite Hc].
  - destruct (pushFresh_spec _ _ _ _ _ _ _ Hseg (Sum256_nonempty body) Hpf) as (_ & Hkept & Hok).
    destruct (Hok eq_refl _) as [[c Hc] Hnew]. exists body, c. split; [done|]. split; [done|].
    set (key := SegmentKey t (path_Base src) (Sum256 body)) in *. clearbody key. rewrite Hv, Hh, Hb, Hc in *.
    destruct (view w !! key) as [c0|] eqn:E; [specialize (Hkept c0 eq_refl)|specialize (Hnew eq_refl)]; cbn; congruence.
Qed.

(** C18: on a storage where what [Stat] finds is a file and a refused [Commit] found one ([FlatLaws]), a push that reports
    success has the segment under the key that carries the digest of the source: the very bytes of the source
    if the key was free, else what was stored under that digest before. Two drivers break the condition, and a
    push can succeed there without archiving: GCS takes other failures for a refused Commit ([Gcs.push_lost]),
    and the POSIX one finds directories. *)
Theorem Push_archives `{!FlatLaws W} t src w w' :
  seg_ok (path_Base src) = true -> Push t src w = (Ok tt, w') ->
  exists body c, host_files w !! src = Some body /\
    let key := SegmentKey t (path_Base src) (Sum256 body) in
    view w' !! key = Some c /\ c = default body (view w !! key).
Proof. apply Push_stores. Qed.

(** Pushing a segment whose bytes are already archived changes nothing, and
    pushing different bytes under the name of an archived segment is refused and
    changes nothing. *)
Theorem Push_existing_segment `{!FlatLaws W} t src w r w' body k :
  seg_ok (path_Base src) = true -> host_files w !! src = Some body ->
  variant t (path_Base src) k w -> Push t src w = (r, w') ->
  view w' = view w /\ (r = Ok tt -> is_Some (view w !! SegmentKey t (path_Base src) (Sum256 body))).
Proof.
  intros Hseg Hb Hk Hpush.
  destruct (Push_cases t src w r w' Hseg Hpush) as [[Hv Hok]|(body' & w2 & _ & _ & _ & Hn & _)].
  - split; [done|]. intros Hr. destruct (Hok Hr) as (body' & Hb' & Hin). specialize (Hin _). congruence.
  - exfalso. by apply (Hn k).
Qed.

Lemma SegmentKey_variant t seg h w c :
  seg_ok seg = true -> h <> "" -> view w !! SegmentKey t seg h = Some c ->
  variant t seg (SegmentKey t seg h) w.
Proof.
  intros Hseg Hh Hc. split_and!; eauto using SegmentKey_valid, SegmentKey_not_tmp.
  rewrite SegmentKey_prefix. apply HasPrefix_app.
Qed.

(** What archive-push stored, archive-get hands back: after a successful push of
    a new segment, a successful get of its name writes the bytes of the source. *)
Theorem Push_Get_roundtrip `{!FlatLaws W} t src w w1 w2 dest body :
  let seg := path_Base src in
  seg_ok seg = true -> host_files w !! src = Some body ->
  (forall k, ~ variant t seg k w) ->
  Push t src w = (Ok tt, w1) -> Get t seg dest w1 = (Ok tt, w2) ->
  host_files w2 !! dest = Some body.
Proof.
  intros seg Hseg Hb Hnone Hpush.
  destruct (Push_stores t src w w1 Hseg Hpush) as (body' & c & Hb' & Hin & Hnew). simplify_eq.
  fold seg in Hin. set (key := SegmentKey t seg (Sum256 body)) in *.
  assert (Hkey : view w1 !! key = Some body).
  { destruct (view w !! key) as [c|] eqn:E; [|done]. exfalso. apply (Hnone key).
    eapply SegmentKey_variant; eauto using Sum256_nonempty. }
  unfold Get. munfold. destruct (FindSegment t seg w1) as [[[k|]|e] w3] eqn:Ef; mred; [|done..].
  pose proof (FindSegment_view t seg w1) as Hv. unfold same_view in Hv. rewrite Ef in Hv. mred.
  apply FindSegment_inv in Ef as [_ Huniq].
  assert (key = k) as <-.
  { apply Huniq. eapply SegmentKey_variant; eauto using Sum256_nonempty. }
  assert (Hk : valid_key key = true) by by apply SegmentKey_valid. clearbody key.
  destruct (get_spec key w3 Hk) as (Hv4 & Hg & _).
  destruct (be_Get key w3) as [[c|e] w4]; mred; [|done].
  specialize (Hg c w4 eq_refl). rewrite Hv, Hkey in Hg. simplify_eq.
  destruct (write_file_spec dest c w4) as (_ & _ & Hw).
  destruct (os_WriteFile dest c w4) as [[[]|e] w5]; mred; [|done].
  intros [= <-]. rewrite (Hw w5 eq_refl). apply lookup_insert_eq.
Qed.
End theorems.

(** The names PostgreSQL hands over are names the theorems above cover. *)
Lemma SegmentNameFromBasename_key seg h :
  slen seg = 24%nat -> slen h = 32%nat ->
  SegmentNameFromBasename (seg +:+ "-" +:+ EncodeToString h) = Some seg.
Proof.
  intros Hs Hh. unfold SegmentNameFromBasename.
  assert (Hg : forall a c b, sget (a +:+ String c b) (slen a) = Some c).
  { clear. unfold sget. intros a c b. induction a; simpl; auto. }
  specialize (Hg seg "-"%char (EncodeToString h)).
  pose proof (stake_app seg ("-" +:+ EncodeToString h)) as Ht. rewrite Hs in Hg, Ht.
  rewrite !slen_app, slen_EncodeToString, Hs, Hh.
  change ("-" +:+ EncodeToString h) with (String "-" (EncodeToString h)) in *.
  by rewrite Hg, Ht.
Qed.

(** ** Runs *)

Definition seg1 : string := "000000010000000000000003".

(** A host that holds one finished segment, and an empty archive. *)
Definition push_world : world :=
  start_world ∅ {[ "/pg/pg_wal/000000010000000000000003" := "wal bytes" ]} [] [].

(** The same host after the push, with another content under the same name. *)
Definition pushed_world : world := snd (Push 1 "/pg/pg_wal/000000010000000000000003" push_world).

Definition conflict_world : world :=
  World (w_mem pushed_world) {[ "/pg/pg_wal/000000010000000000000003" := "other bytes" ]} 7 0 [].

Definition key1 : string := SegmentKey 1 seg1 (Sum256 "wal bytes").

Lemma push_runs : Push 1 "/pg/pg_wal/000000010000000000000003" push_world = (Ok tt, pushed_world).
Proof. unfold pushed_world. refine (run_eq (Push 1 "/pg/pg_wal/000000010000000000000003") push_world (Ok tt) _). vm_compute. reflexivity. Qed.

Lemma Push_archives_witness :
  view pushed_world !! key1 = Some "wal bytes".
Proof.
  destruct (Push_archives 1 "/pg/pg_wal/000000010000000000000003" push_world pushed_world)
    as (body & c & Hb & Hin & Hc); [first [exact push_runs|vm_compute; reflexivity]..|].
  assert (body = "wal bytes") as -> by (vm_compute in Hb; congruence).
  transitivity (Some c); [exact Hin|]. rewrite Hc. vm_compute. reflexivity.
Defined.

Lemma Push_never_overwrites_witness :
  view (snd (Push 1 "/pg/pg_wal/000000010000000000000003" conflict_world)) !! key1 = Some "wal bytes".
Proof.
  apply (Push_never_overwrites 1 "/pg/pg_wal/000000010000000000000003" conflict_world
           (fst (Push 1 "/pg/pg_wal/000000010000000000000003" conflict_world))
           (snd (Push 1 "/pg/pg_wal/000000010000000000000003" conflict_world)) key1 "wal bytes");
    first [apply surjective_pairing|vm_compute; reflexivity].
Defined.

Lemma Push_existing_segment_witness :
  exists e, fst (Push 1 "/pg/pg_wal/000000010000000000000003" conflict_world) = Fail e /\
    errors_Is e ErrSegmentMismatch = true /\
    view (snd (Push 1 "/pg/pg_wal/000000010000000000000003" conflict_world)) = view conflict_world.
Proof.
  eexists. split; [vm_compute; reflexivity|]. split; [vm_compute; reflexivity|].
  apply (Push_existing_segment 1 "/pg/pg_wal/000000010000000000000003" conflict_world
           (fst (Push 1 "/pg/pg_wal/000000010000000000000003" conflict_world))
           (snd (Push 1 "/pg/pg_wal/000000010000000000000003" conflict_world)) "other bytes" key1);
    [vm_compute; reflexivity..| |apply surjective_pairing].
  split_and!; [eexists; vm_compute; reflexivity|vm_compute; reflexivity..].
Defined.

Lemma Push_Get_roundtrip_witness :
  host_files (snd (Get 1 seg1 "/restore/pg_wal/RECOVERYXLOG" pushed_world))
    !! "/restore/pg_wal/RECOVERYXLOG" = Some "wal bytes".
Proof.
  apply (Push_Get_roundtrip 1 "/pg/pg_wal/000000010000000000000003" push_world pushed_world
           (snd (Get 1 seg1 "/restore/pg_wal/RECOVERYXLOG" pushed_world))
           "/restore/pg_wal/RECOVERYXLOG" "wal bytes"); try first [exact push_runs|refine (run_eq (Get 1 seg1 "/restore/pg_wal/RECOVERYXLOG") pushed_world (Ok tt) _); vm_compute; reflexivity|vm_compute; reflexivity].
  intros k [[c Hc] _]. vm_compute in Hc. discriminate.
Defined.
