(* ===== verification/Prune.v ===== *)
(** * Pruning

    [internal/retention/prune.go]: the deletion of the expirable backups and of the
    WAL before the oldest position needed. *)

From S2P Require Import Prelude Sha256 Lsn Wal Storage Host Time Manifest Info Retention RetentionSpec Worlds Archive.

(** [PruneResult] *)
Record PruneResult := {
  BackupsDeleted : list string;
  FilesDeleted : Z;
  WALSegmentsDeleted : list string;
}.

(** [parseTimelineFromPath] *)
Definition parseTimelineFromPath (p : string) : option Z :=
  let parts := Split p "/" in
  let fallback :=
    let base := path_Base p in
    if negb (slen base =? 24)%nat then None else Sscanf_hex 32 (stake 8 base) in
  if (3 <=? length parts)%nat && String.eqb (default "" (parts !! 0%nat)) "wal"
  then match Sscanf_hex 32 (default "" (parts !! (length parts - 2)%nat)) with
       | Some tli => Some tli
       | None => fallback
       end
  else fallback.

(** Whether the loop of [pruneWAL] deletes an entry; the cutoff of a timeline is the
    same each time it is asked for, so its cache does not show. *)
Definition walExpired (oldest : LSN) (p : string) : bool :=
  let base := path_Base p in
  if negb (slen base =? 24)%nat then false
  else match parseTimelineFromPath p with
       | None => false
       | Some tli => String.ltb base (walSegmentNameForTimeline tli oldest)
       end.

(** [err != nil] seen by a caller that returns what it has together with the error. *)
Definition Partial (A : Type) : Type := A * option error.

Section prune.
Context {W : Type} `{Backend W}.

(** The loop over the files of one backup: the count so far and the first error. *)
Fixpoint deleteFiles (dryRun : bool) (n : Z) (files : list FileInfo) : M W (Partial Z) :=
  match files with
  | [] => ret (n, None)
  | fi :: files' =>
      r <- (if negb dryRun then try (be_Delete (fi_Path fi)) else ret (Ok tt)) ;;
      match r with
      | Fail err => ret (n, Some (Errorf_w "prune: delete" err))
      | Ok _ => deleteFiles dryRun (n + 1) files'
      end
  end.

(** The loop over the expirable backups. *)
Fixpoint deleteBackups (dryRun : bool) (res : PruneResult) (ids : list string)
  : M W (Partial PruneResult) :=
  match ids with
  | [] => ret (res, None)
  | id :: ids' =>
      r <- try (be_List id) ;;
      match r with
      | Fail err => ret (res, Some (Errorf_w "prune: list" err))
      | Ok files =>
          d <- deleteFiles dryRun (FilesDeleted res) files ;;
          let '(n, e) := d in
          match e with
          | Some err =>
              ret ({| BackupsDeleted := BackupsDeleted res; FilesDeleted := n;
                      WALSegmentsDeleted := WALSegmentsDeleted res |}, Some err)
          | None =>
              deleteBackups dryRun
                {| BackupsDeleted := BackupsDeleted res ++ [id]; FilesDeleted := n;
                   WALSegmentsDeleted := WALSegmentsDeleted res |} ids'
          end
      end
  end.

(** The loop of [pruneWAL]. *)
Fixpoint deleteWAL (oldest : LSN) (dryRun : bool) (deleted : list string) (entries : list FileInfo)
  : M W (Partial (list string)) :=
  match entries with
  | [] => ret (deleted, None)
  | fi :: entries' =>
      if negb (walExpired oldest (fi_Path fi)) then deleteWAL oldest dryRun deleted entries'
      else
        r <- (if negb dryRun then try (be_Delete (fi_Path fi)) else ret (Ok tt)) ;;
        match r with
        | Fail err => ret (deleted, Some (Errorf_w "prune: delete wal" err))
        | Ok _ => deleteWAL oldest dryRun (deleted ++ [fi_Path fi]) entries'
        end
  end.

(** [pruneWAL] *)
Definition pruneWAL (oldest : LSN) (dryRun : bool) : M W (Partial (list string)) :=
  if oldest =? 0 then ret ([], None)
  else
    r <- try (be_List "wal") ;;
    match r with
    | Fail err => ret ([], Some (Errorf_w "prune: list wal" err))
    | Ok walEntries => deleteWAL oldest dryRun [] walEntries
    end.

(** [Prune] *)
Definition Prune (plan : Plan) (dryRun : bool) : M W (Partial PruneResult) :=
  d <- deleteBackups dryRun {| BackupsDeleted := []; FilesDeleted := 0; WALSegmentsDeleted := [] |}
         (ExpirableBackupIDs plan) ;;
  let '(res, e) := d in
  match e with
  | Some err => ret (res, Some err)
  | None =>
      wd <- pruneWAL (OldestNeededLSN plan) dryRun ;;
      let '(walDeleted, e) := wd in
      match e with
      | Some err => ret (res, Some err)
      | None => ret ({| BackupsDeleted := BackupsDeleted res; FilesDeleted := FilesDeleted res;
                        WALSegmentsDeleted := walDeleted |}, None)
      end
  end.
End prune.

(** ** What a prune may touch *)

(** The files of the expirable backups, and the WAL before the oldest position. *)
Definition prunable (plan : Plan) (q : string) : Prop :=
  (exists id, id ∈ ExpirableBackupIDs plan /\ listed_in id q) \/
  (OldestNeededLSN plan <> 0 /\ inside "wal" q = true /\ walExpired (OldestNeededLSN plan) q = true).

Section prune_proofs.
Context `{BackendLaws W}.

Lemma try_delete_outside (K : string -> Prop) dryRun p :
  valid_key p = true -> K p ->
  preserves (same_outside K) (if negb dryRun then try (be_Delete p) else ret (Ok tt)).
Proof.
  intros Hp HK. destruct dryRun; simpl; [apply preserves_ret, _|].
  apply preserves_try. intros w. eapply same_outside_mono, delete_outside, Hp. by intros q ->.
Qed.

Lemma deleteFiles_outside K dryRun n files :
  (forall fi, fi ∈ files -> valid_key (fi_Path fi) = true /\ K (fi_Path fi)) ->
  preserves (same_outside K) (deleteFiles dryRun n files).
Proof.
  revert n. induction files as [|fi files IH]; intros n Hf; cbn [deleteFiles]; [apply preserves_ret, _|].
  destruct (Hf fi) as [Hv HK]; [by left|].
  apply preserves_bind; [apply _|by apply try_delete_outside|]. intros [_|e]; [|apply preserves_ret, _].
  apply IH. intros fi' Hin. apply Hf. by right.
Qed.

Lemma deleteWAL_outside K oldest dryRun deleted files :
  (forall fi, fi ∈ files -> walExpired oldest (fi_Path fi) = true ->
     valid_key (fi_Path fi) = true /\ K (fi_Path fi)) ->
  preserves (same_outside K) (deleteWAL oldest dryRun deleted files).
Proof.
  revert deleted. induction files as [|fi files IH]; intros deleted Hf; cbn [deleteWAL];
    [apply preserves_ret, _|].
  assert (Hrest : forall fi', fi' ∈ files -> walExpired oldest (fi_Path fi') = true ->
    valid_key (fi_Path fi') = true /\ K (fi_Path fi')) by (intros; apply Hf; [by right|done]).
  destruct (walExpired oldest (fi_Path fi)) eqn:E; cbn [negb]; [|by apply IH].
  destruct (Hf fi) as [Hv HK]; [by left|done|].
  apply preserves_bind; [apply _|by apply try_delete_outside|]. intros [_|e]; [by apply IH|apply preserves_ret, _].
Qed.

(** A listing, followed by a command that stays within what was listed. *)
Lemma list_then_outside {A} (K : string -> Prop) prefix (k : result (list FileInfo) -> M W A) :
  (forall e, preserves (same_outside K) (k (Fail e))) ->
  (forall l, (forall fi, fi ∈ l -> valid_key (fi_Path fi) = true /\ listed_in prefix (fi_Path fi)) ->
     preserves (same_outside K) (k (Ok l))) ->
  preserves (same_outside K) (bind (try (be_List prefix)) k).
Proof.
  intros Hfail Hok w. unfold bind, try. destruct (list_spec prefix w) as [Hv Hl].
  destruct (be_List prefix w) as [r w1] eqn:E. simpl in Hv.
  etrans; [apply same_view_outside; exact Hv|].
  destruct r as [l|e]; [|apply Hfail]. apply Hok. intros fi Hfi.
  destruct (Hl l w1 eq_refl) as [_ Hspec]. destruct (Hspec fi Hfi) as (? & c & _ & ? & _). done.
Qed.

Lemma deleteBackups_outside (K : string -> Prop) dryRun res ids :
  (forall id q, id ∈ ids -> listed_in id q -> K q) ->
  preserves (same_outside K) (deleteBackups dryRun res ids).
Proof.
  revert res. induction ids as [|id ids IH]; intros res HK; cbn [deleteBackups]; [apply preserves_ret, _|].
  apply list_then_outside; [intros e; apply preserves_ret, _|]. intros l Hl.
  apply preserves_bind; [apply _| |].
  - apply deleteFiles_outside. intros fi Hfi. destruct (Hl fi Hfi). split; [done|].
    eapply HK; [by left|done].
  - intros [n [err|]]; [apply preserves_ret, _|]. apply IH. intros id' q Hid'. apply HK. by right.
Qed.

Lemma pruneWAL_outside (K : string -> Prop) oldest dryRun :
  (forall q, oldest <> 0 -> inside "wal" q = true -> walExpired oldest q = true -> K q) ->
  preserves (same_outside K) (pruneWAL oldest dryRun).
Proof.
  intros HK. unfold pruneWAL. destruct (Z.eqb_spec oldest 0); [apply preserves_ret, _|].
  apply list_then_outside; [intros e; apply preserves_ret, _|]. intros l Hl.
  apply deleteWAL_outside. intros fi Hfi Hexp. destruct (Hl fi Hfi) as [? Hin]. split; [done|]. apply HK; [done|by apply Hin|done].
Qed.

Lemma Prune_outside plan dryRun : preserves (same_outside (prunable plan)) (Prune plan dryRun).
Proof.
  unfold Prune. apply preserves_bind; [apply _| |].
  - apply deleteBackups_outside. intros id q Hid Hq. left. eauto.
  - intros [res [err|]]; [apply preserves_ret, _|]. apply preserves_bind; [apply _| |].
    + apply pruneWAL_outside. intros q ? ? ?. by right.
    + intros [wd [err|]]; apply preserves_ret, _.
Qed.

(** A dry run is the same walk with no deletion in it. *)
Lemma dry_view plan : preserves same_view (Prune plan true).
Proof.
  assert (Hfiles : forall n files, preserves same_view (deleteFiles true n files)).
  { intros n files. revert n. induction files as [|fi files IH]; intros n; cbn [deleteFiles];
      [apply preserves_ret, _|]. apply preserves_bind; [apply _|apply preserves_ret, _|].
    intros [_|e]; [apply IH|apply preserves_ret, _]. }
  assert (Hwal : forall oldest deleted files, preserves same_view (deleteWAL oldest true deleted files)).
  { intros oldest deleted files. revert deleted. induction files as [|fi files IH]; intros deleted; cbn [deleteWAL];
      [apply preserves_ret, _|]. case_match; [apply IH|]. apply preserves_bind; [apply _|apply preserves_ret, _|].
    intros [_|e]; [apply IH|apply preserves_ret, _]. }
  assert (Hback : forall res ids, preserves same_view (deleteBackups true res ids)).
  { intros res ids. revert res. induction ids as [|id ids IH]; intros res; cbn [deleteBackups];
      [apply preserves_ret, _|].
    apply preserves_bind; [apply _|apply preserves_try, list_view|]. intros [l|e]; [|apply preserves_ret, _].
    apply preserves_bind; [apply _|apply Hfiles|]. intros [n [err|]]; [apply preserves_ret, _|apply IH]. }
  unfold Prune. apply preserves_bind; [apply _|apply Hback|].
  intros [res [err|]]; [apply preserves_ret, _|]. apply preserves_bind; [apply _| |].
  - unfold pruneWAL. case_match; [apply preserves_ret, _|].
    apply preserves_bind; [apply _|apply preserves_try, list_view|]. intros [l|e]; [apply Hwal|apply preserves_ret, _].
  - intros [wd [err|]]; apply preserves_ret, _.
Qed.
End prune_proofs.

(** ** Where the files of a backup are *)

(** The IDs of backups: one path component, ending in F or I. *)
Definition backup_id_ok (id : string) : bool :=
  plain_seg id && (HasSuffix id "F" || HasSuffix id "I").

Lemma inside_seg a b f : plain_seg a = true -> plain_seg b = true -> inside a (b +:+ "/" +:+ f) = true -> a = b.
Proof.
  unfold plain_seg. rewrite !andb_true_iff, !negb_true_iff, !String.eqb_neq.
  intros [[[Hane _] _] Ha] [_ Hb]. unfold inside. rewrite !orb_true_iff, !String.eqb_eq.
  intros [[He|He]|[u Hu]%HasPrefix_spec]; [done|..].
  - subst a. rewrite !no_byte_app in Ha. simpl in Ha. by rewrite andb_false_r in Ha.
  - rewrite sapp_assoc in Hu. change ("/" +:+ f) with (String "/" f) in Hu.
    change ("/" +:+ u) with (String "/" u) in Hu.
    apply (f_equal (fun s => Cut s "/")) in Hu. rewrite !Cut_app in Hu by done. by injection Hu.
Qed.

Lemma backup_id_not_wal id : backup_id_ok id = true -> id <> "wal".
Proof. intros H E. by rewrite E in H. Qed.

(** The files of a kept backup are not prunable. *)
Lemma kept_not_prunable plan id f :
  Forall (fun i => plain_seg i = true) (ExpirableBackupIDs plan) -> backup_id_ok id = true ->
  (id ∉ ExpirableBackupIDs plan) -> ~ prunable plan (id +:+ "/" +:+ f).
Proof.
  intros Hexp Hid Hni. rewrite Forall_forall in Hexp.
  assert (Hp : plain_seg id = true) by (unfold backup_id_ok in Hid; rewrite andb_true_iff in Hid; tauto).
  intros [(i & Hi & Hin)|(_ & Hin & _)].
  - specialize (Hin (plain_seg_path i (Hexp i Hi))). apply inside_seg in Hin; [|by apply Hexp|done]. by subst.
  - apply inside_seg in Hin; [|done..]. by apply (backup_id_not_wal id).
Qed.

(** ** Segments in the archive *)

Lemma XLogFileName_hex a b c : sall is_hexdigit (XLogFileName a b c) = true.
Proof. unfold XLogFileName. by rewrite !sall_app, !Format0X_hex. Qed.

Lemma WALSegmentName_hex t lsn : sall is_hexdigit (WALSegmentName t lsn DefaultWALSegmentSize) = true.
Proof. apply XLogFileName_hex. Qed.

Lemma slen_WALSegmentName t lsn :
  is_u32 t -> slen (WALSegmentName t lsn DefaultWALSegmentSize) = 24%nat.
Proof. intros Ht. apply slen_XLogFileName; [done|apply u32_range..]. Qed.

Lemma Sscanf_Format0X t : is_u32 t -> Sscanf_hex 32 (Format0X 8 t) = Some t.
Proof.
  unfold is_u32. intros Ht. rewrite Format0X_fixed by lia. apply Sscanf_hex_fixed; [by left|lia..].
Qed.

Lemma parseTimeline_wal t s :
  is_u32 t -> no_byte "/" s = true ->
  parseTimelineFromPath ("wal/" +:+ Format0X 8 t +:+ "/" +:+ s) = Some t.
Proof.
  intros Ht Hs. unfold parseTimelineFromPath.
  assert (Hsplit : Split ("wal/" +:+ Format0X 8 t +:+ "/" +:+ s) "/" = ["wal"; Format0X 8 t; s]).
  { change ("wal/" +:+ Format0X 8 t +:+ "/" +:+ s)
      with ("wal" +:+ String "/" (Format0X 8 t +:+ String "/" s)).
    rewrite Split_app by done.
    rewrite Split_app by (apply hex_no_byte; [done|apply Format0X_hex]).
    by rewrite Split_no_byte. }
  rewrite Hsplit. generalize (Sscanf_Format0X t Ht). generalize (Format0X 8 t) as x. intros x Hx.
  cbn. cbn in Hx. by rewrite Hx.
Qed.

(** A segment stored under its bare name is expired only below the position. *)
Lemma walExpired_segment t lsn oldest :
  is_u32 t -> is_u64 lsn -> is_u64 oldest -> oldest <= lsn ->
  walExpired oldest ("wal/" +:+ Format0X 8 t +:+ "/" +:+ WALSegmentName t lsn DefaultWALSegmentSize) = false.
Proof.
  intros Ht Hl Ho Hle. unfold walExpired. rewrite <- (sapp_assoc "wal/").
  assert (Hhex := WALSegmentName_hex t lsn).
  assert (Hnb : no_byte "/" (WALSegmentName t lsn DefaultWALSegmentSize) = true) by by apply hex_no_byte.
  rewrite path_Base_app; [|intros E; pose proof (slen_WALSegmentName t lsn Ht) as H; by rewrite E in H|done].
  rewrite slen_WALSegmentName, sapp_assoc, parseTimeline_wal by done. cbn [Nat.eqb negb].
  unfold String.ltb. rewrite String.compare_antisym.
  assert (Hcmp : String.compare (walSegmentNameForTimeline t oldest)
                   (WALSegmentName t lsn DefaultWALSegmentSize) <> Gt).
  { apply String_compare_le_trans with (WALSegmentName t oldest DefaultWALSegmentSize).
    - by apply walSegmentNameForTimeline_le.
    - rewrite WALSegmentName_order by (done || apply seg_size_16M). rewrite Z.compare_gt_iff.
      pose proof (Z.div_le_mono oldest lsn DefaultWALSegmentSize). unfold DefaultWALSegmentSize in *. lia. }
  destruct (String.compare _ _); simpl; done.
Qed.

(** ** Everything expirable goes *)

Section shrink.
Context `{BackendLaws W}.

(** A command only removes files. *)
Definition shrinks : relation W := fun w w' => view w' ⊆ view w.

#[local] Instance shrinks_preorder : PreOrder shrinks.
Proof. unfold shrinks. split; [by intros w|]. intros w1 w2 w3 H12 H23. by etrans. Qed.

Lemma same_view_shrinks w w' : same_view w w' -> shrinks w w'.
Proof. unfold same_view, shrinks. by intros ->. Qed.

Lemma shrinks_absent w w' q : shrinks w w' -> view w !! q = None -> view w' !! q = None.
Proof. unfold shrinks. intros Hs Hn. by eapply lookup_weaken_None. Qed.

Lemma delete_shrinks p : valid_key p = true -> preserves shrinks (be_Delete p).
Proof.
  intros Hp w. destruct (delete_spec p w Hp) as (_ & Hok & Hfail & _). unfold shrinks.
  destruct (be_Delete p w) as [[[]|e] w']; simpl.
  - rewrite (Hok w' eq_refl). apply delete_subseteq.
  - destruct (Hfail e w' eq_refl) as [->| ->]; [done|apply delete_subseteq].
Qed.

Lemma deleteFiles_gone n files w m w' :
  (forall fi, fi ∈ files -> valid_key (fi_Path fi) = true) ->
  deleteFiles false n files w = (Ok (m, None), w') ->
  shrinks w w' /\ forall fi, fi ∈ files -> view w' !! fi_Path fi = None.
Proof.
  revert n w. induction files as [|fi files IH]; intros n w Hf; cbn [deleteFiles].
  - intros [= <- <-]. split; [reflexivity|]. intros fi Hin. by apply not_elem_of_nil in Hin.
  - cbn [negb]. unfold bind, try. assert (Hv : valid_key (fi_Path fi) = true) by (apply Hf; by left).
    destruct (delete_spec (fi_Path fi) w Hv) as (_ & Hok & _). pose proof (delete_shrinks _ Hv w) as Hs.
    destruct (be_Delete (fi_Path fi) w) as [[[]|e] w1]; [|done]. simpl in Hs. intros Hrest.
    apply IH in Hrest as [Hs2 Hgone]; [|intros; apply Hf; by right].
    split; [by etrans|]. intros fi' Hin. apply elem_of_cons in Hin as [->|Hin]; [|by apply Hgone].
    apply (shrinks_absent w1); [done|]. rewrite (Hok w1 eq_refl). apply lookup_delete_eq.
Qed.

Lemma deleteBackups_gone res ids w res' w' :
  deleteBackups false res ids w = (Ok (res', None), w') ->
  shrinks w w' /\ forall id q, id ∈ ids -> valid_key q = true -> under id q = true -> view w' !! q = None.
Proof.
  revert res w. induction ids as [|id ids IH]; intros res w; cbn [deleteBackups].
  - intros [= <- <-]. split; [reflexivity|]. intros id q Hin. by apply not_elem_of_nil in Hin.
  - unfold bind, try at 1. destruct (list_spec id w) as [Hv Hl].
    pose proof (list_complete id w) as Hc. destruct (be_List id w) as [[l|e] w1] eqn:El; [|done]. simpl in Hv.
    destruct (Hl l w1 eq_refl) as [_ Hspec]. specialize (Hc l w1).
    destruct (deleteFiles false (FilesDeleted res) l w1) as [[[n [err|]]|e] w2] eqn:Ed; [done| |done].
    apply deleteFiles_gone in Ed as [Hs1 Hgone]; [|intros fi Hfi; by apply Hspec]. intros Hrest.
    apply IH in Hrest as [Hs2 Hgone2]. split.
    { transitivity w1; [by apply same_view_shrinks|by transitivity w2]. }
    intros id' q Hin Hq Hu. apply elem_of_cons in Hin as [->|Hin]; [|by eapply Hgone2].
    apply (shrinks_absent w2); [done|]. destruct (view w1 !! q) eqn:E.
    + assert (Hlist : q ∈ (fi_Path <$> l)) by (apply Hc; [done|by rewrite <- Hv, E|done..]).
      apply list_elem_of_fmap in Hlist as (fi & -> & Hfi). by apply Hgone.
    + by apply (shrinks_absent w1).
Qed.

Lemma deleteWAL_shrinks oldest dryRun deleted files :
  (forall fi, fi ∈ files -> valid_key (fi_Path fi) = true) ->
  preserves shrinks (deleteWAL oldest dryRun deleted files).
Proof.
  revert deleted. induction files as [|fi files IH]; intros deleted Hf; cbn [deleteWAL]; [apply preserves_ret, _|].
  assert (Hrest : forall fi', fi' ∈ files -> valid_key (fi_Path fi') = true) by (intros; apply Hf; by right).
  case_match; [by apply IH|]. apply preserves_bind; [apply _| |].
  - destruct dryRun; simpl; [apply preserves_ret, _|]. apply preserves_try, delete_shrinks, Hf. by left.
  - intros [_|e]; [by apply IH|apply preserves_ret, _].
Qed.

Lemma pruneWAL_shrinks oldest dryRun : preserves shrinks (pruneWAL oldest dryRun).
Proof.
  unfold pruneWAL. case_match; [apply preserves_ret, _|]. intros w. unfold bind, try.
  destruct (list_spec "wal" w) as [Hv Hl]. destruct (be_List "wal" w) as [[l|e] w1]; simpl in Hv;
    (etrans; [apply same_view_shrinks; exact Hv|]); [|simpl; reflexivity].
  destruct (Hl l w1 eq_refl) as [_ Hspec]. apply deleteWAL_shrinks. intros fi Hfi. by apply Hspec.
Qed.

Lemma Prune_gone plan w res w' :
  Prune plan false w = (Ok (res, None), w') ->
  forall id q, id ∈ ExpirableBackupIDs plan -> valid_key q = true -> under id q = true -> view w' !! q = None.
Proof.
  unfold Prune, bind at 1. intros HP id q Hid Hq Hu.
  destruct (deleteBackups false _ _ w) as [[[res1 [err|]]|e] w1] eqn:Eb; [by simplify_eq/=| |by simplify_eq/=].
  apply deleteBackups_gone in Eb as [_ Hgone]. apply (shrinks_absent w1); [|by eapply Hgone].
  unfold bind in HP. pose proof (pruneWAL_shrinks (OldestNeededLSN plan) false w1) as Hs.
  destruct (pruneWAL _ false w1) as [[[wd [err|]]|e] w2]; unfold ret in HP; by simplify_eq/=.
Qed.
End shrink.

(** C14: a prune never changes a file outside the expirable backups and the expired WAL,
    whatever fails on the way: with the plan of [Evaluate] every file of every kept
    backup is as it was. *)
Theorem Prune_keeps_kept_backups {W : Type} `{BackendLaws W} range wall rs p plan dryRun id f w :
  (forall n A (m : gmap string A), range n A m ≡ₚ map_to_list m) ->
  NoDup (r_BackupID <$> rs) -> Forall (fun r => backup_id_ok (r_BackupID r) = true) rs ->
  Evaluate range wall rs p = Ok plan -> id ∈ KeptBackupIDs plan ->
  view (snd (Prune plan dryRun w)) !! (id +:+ "/" +:+ f) = view w !! (id +:+ "/" +:+ f).
Proof.
  intros Hrange Hnd Hids HE Hid. rewrite Forall_forall in Hids.
  apply (Prune_outside plan dryRun w). apply kept_not_prunable.
  - apply Forall_forall. intros i Hi.
    assert (exists r, r ∈ rs /\ r_BackupID r = i) as (r & Hr & <-).
    { destruct (Evaluate_lists range wall rs p plan i Hrange Hnd HE) as [Hp _].
      destruct Hp as [Hp _]. destruct (Hp (or_intror Hi)) as (r & ? & ? & _). eauto. }
    specialize (Hids r Hr). unfold backup_id_ok in Hids. rewrite andb_true_iff in Hids. tauto.
  - destruct (Evaluate_lists range wall rs p plan id Hrange Hnd HE) as [[Hp _] _].
    destruct (Hp (or_introl Hid)) as (r & Hr & <- & _). auto.
  - destruct (Evaluate_lists range wall rs p plan id Hrange Hnd HE) as [_ Hdis]. tauto.
Qed.

(** When a prune reports success, no file of an expirable backup is left. *)
Theorem Prune_deletes_expirable {W : Type} `{BackendLaws W} plan w res w' id q :
  Prune plan false w = (Ok (res, None), w') ->
  id ∈ ExpirableBackupIDs plan -> valid_key q = true -> HasPrefix q (id +:+ "/") = true -> id <> "" ->
  view w' !! q = None.
Proof.
  intros HP Hid Hq Hpre Hne. eapply Prune_gone; [done..|]. unfold under.
  by destruct (String.eqb_spec id "").
Qed.

(** A dry run leaves every file of the storage as it is. *)
Theorem Prune_dry_run {W : Type} `{BackendLaws W} plan w : view (snd (Prune plan true w)) = view w.
Proof. apply dry_view. Qed.

(** The keys under which [archive-push] stores segments carry the digest of their
    bytes after the name, so their last component is never 24 bytes long and pruning
    passes over every one of them. *)
Theorem Prune_passes_archived_segments oldest tli seg hash :
  no_byte "/" seg = true -> slen hash = 32%nat -> walExpired oldest (SegmentKey tli seg hash) = false.
Proof.
  intros Hseg Hhash. unfold walExpired, SegmentKey.
  assert (Hnb : no_byte "/" (seg +:+ "-" +:+ EncodeToString hash) = true).
  { by rewrite !no_byte_app, Hseg, (hex_no_byte "/" (EncodeToString hash)) by (done || apply EncodeToString_hex). }
  rewrite path_Base_app; [|by destruct seg|done].
  rewrite !slen_app, slen_EncodeToString, Hhash. destruct (slen seg); [done|]. simpl.
  destruct (Nat.eqb_spec (n + 65) 23); [lia|done].
Qed.

Lemma wal_key_not_prunable plan tli name :
  Forall (fun i => plain_seg i = true /\ i <> "wal") (ExpirableBackupIDs plan) ->
  walExpired (OldestNeededLSN plan) (SegmentDir tli +:+ "/" +:+ name) = false -> ~ prunable plan (SegmentDir tli +:+ "/" +:+ name).
Proof.
  intros Hids Hexp [(i & Hi & Hin)|(_ & _ & He)]; [|by rewrite He in Hexp].
  rewrite Forall_forall in Hids. destruct (Hids i Hi) as [Hp Hw]. specialize (Hin (plain_seg_path _ Hp)).
  unfold SegmentDir in Hin. rewrite !sapp_assoc in Hin. by apply (inside_seg i "wal") in Hin.
Qed.

(** Segments under their bare names that hold a needed position are not expired, as long as they are of 16 MiB. *)
Lemma needed_not_expired range wall rs p plan f start tli lsn :
  (forall n A (m : gmap string A), range n A m ≡ₚ map_to_list m) ->
  NoDup (r_BackupID <$> rs) -> Evaluate range wall rs p = Ok plan ->
  f ∈ rs -> is_full f = true -> r_BackupID f ∈ KeptBackupIDs plan ->
  ParseLSN (r_StartLSN f) = Ok start -> is_u32 tli -> is_u64 lsn -> start <= lsn ->
  walExpired (OldestNeededLSN plan) (SegmentDir tli +:+ "/" +:+ WALSegmentName tli lsn DefaultWALSegmentSize) = false.
Proof.
  intros Hrange Hnd HE Hf Hfull Hkept Hstart Ht Hl Hle.
  destruct (Evaluate_min_lsn range wall rs p plan Hrange Hnd HE) as [Hmin Hat]. specialize (Hmin f Hf Hfull Hkept). rewrite Hstart in Hmin.
  assert (Ho : is_u64 (OldestNeededLSN plan)).
  { destruct Hat as [(g & _ & _ & _ & ->)|[-> _]]; [|unfold is_u64; lia].
    destruct (ParseLSN (r_StartLSN g)) as [l|e] eqn:E; [|unfold is_u64; lia]. by apply ParseLSN_is_u64 in E. }
  unfold SegmentDir. rewrite sapp_assoc. apply walExpired_segment; [done..|lia].
Qed.

(** C16: no archived WAL that a kept full may need is pruned, whatever fails: a segment under the name [archive-push] gives
    it ([<segment>-<sha256>]) stays as it is, of any size and wherever it begins; a segment of 16 MiB under its bare
    name stays if it holds a position at or after the start of some kept full. (Of another size the bare names
    are compared with a cutoff for 16 MiB, [bare_64M_pruned].) *)
Theorem Prune_keeps_needed_wal {W : Type} `{BackendLaws W} range wall rs p plan dryRun f start tli lsn w :
  (forall n A (m : gmap string A), range n A m ≡ₚ map_to_list m) ->
  NoDup (r_BackupID <$> rs) -> Forall (fun r => backup_id_ok (r_BackupID r) = true) rs ->
  Evaluate range wall rs p = Ok plan ->
  f ∈ rs -> is_full f = true -> r_BackupID f ∈ KeptBackupIDs plan ->
  ParseLSN (r_StartLSN f) = Ok start -> is_u32 tli -> is_u64 lsn -> start <= lsn ->
  let same key := view (snd (Prune plan dryRun w)) !! key = view w !! key in
  (forall segSize digest, 0 < segSize -> slen digest = 32%nat -> same (SegmentKey tli (WALSegmentName tli lsn segSize) digest)) /\
  same (SegmentDir tli +:+ "/" +:+ WALSegmentName tli lsn DefaultWALSegmentSize).
Proof.
  intros Hrange Hnd Hids HE Hf Hfull Hkept Hstart Ht Hl Hle same. rewrite Forall_forall in Hids.
  assert (Hexp : Forall (fun i => plain_seg i = true /\ i <> "wal") (ExpirableBackupIDs plan)).
  { apply Forall_forall. intros i Hi. destruct (Evaluate_lists range wall rs p plan i Hrange Hnd HE) as [[Hp _] _].
    destruct (Hp (or_intror Hi)) as (r & Hr & <- & _). specialize (Hids r Hr). split; [|by apply backup_id_not_wal].
    unfold backup_id_ok in Hids. rewrite andb_true_iff in Hids. tauto. }
  split; [intros segSize digest Hs Hd|]; apply (Prune_outside plan dryRun w), wal_key_not_prunable; try done.
  - apply (Prune_passes_archived_segments _ tli _ digest); [|done]. unfold WALSegmentName.
    destruct (segSize <=? 0); [done|]. apply hex_no_byte; [done|apply XLogFileName_hex].
  - by eapply needed_not_expired.
Qed.

(** ** A concrete storage *)

Definition sample_files : gmap string string :=
  list_to_map [("AF/base/1", "old"); ("A_1I/base/1", "old incr"); ("BF/base/1", "new");
               ("wal/00000001/000000010000000000000008", "w8"); ("wal/00000001/000000010000000000000009", "w9")].

Definition sample_world : mem := mem_init sample_files [].

Definition sample_result : PruneResult :=
  {| BackupsDeleted := ["AF"; "A_1I"]; FilesDeleted := 2;
     WALSegmentsDeleted := ["wal/00000001/000000010000000000000008"] |}.

Definition pruned_files : gmap string string :=
  list_to_map [("BF/base/1", "new"); ("wal/00000001/000000010000000000000009", "w9")].

Lemma sample_ids_ok : Forall (fun r => backup_id_ok (r_BackupID r) = true) sample_records.
Proof. repeat (apply Forall_cons_2; [reflexivity|]). by apply Forall_nil. Qed.

Lemma sample_prune :
  Prune sample_plan false sample_world = (Ok (sample_result, None), mem_init pruned_files []).
Proof. vm_compute. reflexivity. Qed.

Lemma Prune_keeps_kept_backups_witness :
  view (snd (Prune sample_plan false (mem_init sample_files [false; false; true]))) !! "BF/base/1" = Some "new".
Proof.
  rewrite (Prune_keeps_kept_backups range_std zero_time sample_records sample_policy sample_plan false "BF" "base/1"
    (mem_init sample_files [false; false; true]) range_std_perm sample_nodup sample_ids_ok sample_evaluates).
  - vm_compute. reflexivity.
  - cbn. in_list.
Defined.

Lemma Prune_deletes_expirable_witness : view (mem_init pruned_files []) !! "AF/base/1" = None.
Proof.
  apply (Prune_deletes_expirable sample_plan sample_world sample_result (mem_init pruned_files []) "AF" "AF/base/1");
    [exact sample_prune|cbn; in_list|reflexivity|reflexivity|done].
Defined.

Lemma Prune_keeps_needed_wal_witness :
  view (snd (Prune sample_plan false sample_world)) !! "wal/00000001/000000010000000000000009" = Some "w9".
Proof.
  pose proof (Prune_keeps_needed_wal range_std zero_time sample_records sample_policy sample_plan false
    new_full 0x9000000 1 0x9000100 sample_world range_std_perm sample_nodup sample_ids_ok sample_evaluates
    ltac:(unfold sample_records; in_list) eq_refl ltac:(cbn; in_list) eq_refl ltac:(unfold is_u32; lia) ltac:(unfold is_u64; lia) ltac:(lia)) as [_ H].
  etransitivity; [apply H|vm_compute; reflexivity].
Defined.

(** Segments of 64 MiB under their bare names: the one that holds 0x9000000 comes before the cutoff for that position. *)
Lemma bare_64M_pruned :
  WALSegmentName 1 0x9000000 (64 * 1024 * 1024) = "000000010000000000000002" /\
  walExpired 0x9000000 ("wal/00000001/" +:+ WALSegmentName 1 0x9000000 (64 * 1024 * 1024)) = true.
Proof. by vm_compute. Qed.

Lemma Prune_passes_archived_segments_witness :
  walExpired (2 ^ 40) (SegmentKey 1 "000000010000000000000001" zero32) = false.
Proof. apply Prune_passes_archived_segments; reflexivity. Defined.
