(* ===== verification/FileSystem.v ===== *)
(** * A file system that can lose power

    What POSIX promises about directory entries and file contents across a crash.
    Every directory operation goes to a log; [fsync] of a directory makes its part of
    the log durable, [fsync] of a file makes its bytes durable. A crash keeps, for each
    directory on its own, some number of its operations no smaller than what was
    flushed, and replaces the bytes of a file that was not synced by anything. *)

From S2P Require Import Prelude.

(** ** Names *)

Inductive dirop :=
  | OpLink (p : string) (ino : nat)
  | OpRename (p q : string)
  | OpUnlink (p : string)
  | OpMkdir (p : string).

(** The directory whose [fsync] makes the operation durable. *)
Definition op_dir (op : dirop) : string :=
  match op with
  | OpLink p _ | OpUnlink p | OpMkdir p => path_Dir p
  | OpRename _ q => path_Dir q
  end.

Record namespace := NS { ns_files : gmap string nat; ns_dirs : gset string }.

Definition apply_op (ns : namespace) (op : dirop) : namespace :=
  match op with
  | OpLink p ino => NS (<[p := ino]> (ns_files ns)) (ns_dirs ns)
  | OpRename p q =>
      match ns_files ns !! p with
      | Some ino => NS (<[q := ino]> (delete p (ns_files ns))) (ns_dirs ns)
      | None => ns
      end
  | OpUnlink p => NS (delete p (ns_files ns)) (ns_dirs ns)
  | OpMkdir p => NS (ns_files ns) ({[p]} ∪ ns_dirs ns)
  end.

Definition replay (ns : namespace) (log : list dirop) : namespace := foldl apply_op ns log.

(** ** The file system *)

Record fs := FS {
  fs_base : namespace;              (* the disk when the log was empty *)
  fs_log : list dirop;
  fs_flushed : gmap string nat;     (* operations of a directory known to be durable *)
  fs_data : gmap nat string;        (* what a reader sees *)
  fs_stable : gmap nat string;      (* what is on disk for sure *)
  fs_next : nat;
}.

Definition now_ns (s : fs) : namespace := replay (fs_base s) (fs_log s).

Definition add_op (op : dirop) (s : fs) : fs :=
  FS (fs_base s) (fs_log s ++ [op]) (fs_flushed s) (fs_data s) (fs_stable s) (fs_next s).

Definition set_data (i : nat) (c : string) (s : fs) : fs :=
  FS (fs_base s) (fs_log s) (fs_flushed s) (<[i := c]> (fs_data s)) (delete i (fs_stable s)) (fs_next s).

Definition count_dir (d : string) (log : list dirop) : nat :=
  length (base.filter (fun op => String.eqb (op_dir op) d) log).

Definition flush_dir (d : string) (s : fs) : fs :=
  FS (fs_base s) (fs_log s) (<[d := count_dir d (fs_log s)]> (fs_flushed s)) (fs_data s) (fs_stable s) (fs_next s).

Definition flush_file (i : nat) (s : fs) : fs :=
  FS (fs_base s) (fs_log s) (fs_flushed s) (fs_data s)
     (partial_alter (fun _ => fs_data s !! i) i (fs_stable s)) (fs_next s).

(** What a reader finds at a path now. *)
Definition content (s : fs) (p : string) : option string :=
  match ns_files (now_ns s) !! p with Some i => fs_data s !! i | None => None end.

(** The directories above a path, from the top, the root excluded. *)
Definition ancestors (p : string) : list string :=
  let segs := Split p "/" in
  (fun k => Join (take k segs) "/") <$> seq 2 (length segs - 2).

Definition visible (ns : namespace) (p : string) : Prop :=
  Forall (fun d => d ∈ ns_dirs ns) (ancestors p).

#[export] Instance visible_dec ns p : Decision (visible ns p).
Proof. unfold visible. apply _. Defined.

(** ** Crashes *)

(** The operations that survive when [cnt d] of every directory [d] do. *)
Fixpoint persist (cnt : string -> nat) (log : list dirop) : list dirop :=
  match log with
  | [] => []
  | op :: log' =>
      match cnt (op_dir op) with
      | O => persist cnt log'
      | S k => op :: persist (fun d => if String.eqb d (op_dir op) then k else cnt d) log'
      end
  end.

Definition crash_ok (cnt : string -> nat) (s : fs) : Prop :=
  forall d, (default 0 (fs_flushed s !! d) <= cnt d)%nat.

Definition crash_ns (s : fs) (cnt : string -> nat) : namespace :=
  replay (fs_base s) (persist cnt (fs_log s)).

(** The bytes at a name, where [junk] stands for what was never synced. *)
Definition crash_bytes (s : fs) (cnt : string -> nat) (junk : nat -> string) (p : string) : option string :=
  (fun i => default (junk i) (fs_stable s !! i)) <$> ns_files (crash_ns s cnt) !! p.

(** What a reader finds at a path after the crash. *)
Definition crash_content (s : fs) (cnt : string -> nat) (junk : nat -> string) (p : string) : option string :=
  if decide (visible (crash_ns s cnt) p) then crash_bytes s cnt junk p else None.

Lemma persist_snoc cnt log op :
  persist cnt (log ++ [op]) =
  persist cnt log ++ (if (count_dir (op_dir op) log <? cnt (op_dir op))%nat then [op] else []).
Proof.
  revert cnt. induction log as [|x log IH]; intros cnt; cbn [app persist].
  - unfold count_dir. simpl. destruct (cnt (op_dir op)); done.
  - unfold count_dir. rewrite filter_cons. destruct (String.eqb_spec (op_dir x) (op_dir op)) as [E|E].
    + rewrite decide_True by done. rewrite E. destruct (cnt (op_dir op)) as [|k] eqn:Ec.
      * rewrite IH, Ec. done.
      * rewrite IH, String.eqb_refl. done.
    + rewrite decide_False by (by intros []). destruct (cnt (op_dir x)) as [|k]; [apply IH|].
      rewrite IH. destruct (String.eqb_spec (op_dir op) (op_dir x)); [congruence|]. done.
Qed.

Lemma replay_snoc ns log op : replay ns (log ++ [op]) = apply_op (replay ns log) op.
Proof. apply foldl_snoc. Qed.

Lemma crash_ns_add s op cnt :
  crash_ns (add_op op s) cnt =
  if (count_dir (op_dir op) (fs_log s) <? cnt (op_dir op))%nat
  then apply_op (crash_ns s cnt) op else crash_ns s cnt.
Proof.
  unfold crash_ns, add_op. cbn [fs_base fs_log]. rewrite persist_snoc.
  case_match; [apply replay_snoc|by rewrite app_nil_r].
Qed.

(** An operation that names neither end of which is [p]. *)
Definition off (p : string) (op : dirop) : Prop :=
  match op with
  | OpLink q _ | OpUnlink q => q <> p
  | OpRename q r => q <> p /\ r <> p
  | OpMkdir _ => True
  end.

Lemma apply_off p ns op : off p op -> ns_files (apply_op ns op) !! p = ns_files ns !! p.
Proof.
  destruct op as [q i|q r|q|q]; cbn [off apply_op]; intros H.
  - simpl. by rewrite lookup_insert_ne.
  - destruct H. case_match; simpl; [|done]. by rewrite lookup_insert_ne, lookup_delete_ne.
  - simpl. by rewrite lookup_delete_ne.
  - done.
Qed.

Lemma apply_dirs ns op : ns_dirs ns ⊆ ns_dirs (apply_op ns op).
Proof.
  destruct op as [q i|q r|q|q]; simpl; [done| |done|apply union_subseteq_r].
  by case_match.
Qed.

Lemma visible_mono ns ns' p : ns_dirs ns ⊆ ns_dirs ns' -> visible ns p -> visible ns' p.
Proof. intros Hs H. eapply Forall_impl; [exact H|]. intros d. apply Hs. Qed.

Lemma crash_ns_add_dirs s op cnt : ns_dirs (crash_ns s cnt) ⊆ ns_dirs (crash_ns (add_op op s) cnt).
Proof. rewrite crash_ns_add. case_match; [apply apply_dirs|done]. Qed.

Lemma crash_ns_add_off s op cnt p : off p op ->
  ns_files (crash_ns (add_op op s) cnt) !! p = ns_files (crash_ns s cnt) !! p.
Proof. intros Hoff. rewrite crash_ns_add. case_match; [by apply apply_off|done]. Qed.

(** ** What a path is sure to hold *)

(** Every crash leaves [o] at [p]. *)
Definition settled (s : fs) (p : string) (o : option string) : Prop :=
  forall cnt, crash_ok cnt s ->
    match ns_files (crash_ns s cnt) !! p with
    | None => o = None
    | Some i => exists c, o = Some c /\ fs_stable s !! i = Some c
    end /\ (o <> None -> visible (crash_ns s cnt) p).

(** No crash leaves the file [i] at [p]. *)
Definition apart (s : fs) (i : nat) (p : string) : Prop :=
  forall cnt, crash_ok cnt s -> ns_files (crash_ns s cnt) !! p <> Some i.

(** When the directory [d] is flushed the name [t] is the file [i]. *)
Definition linked (s : fs) (d t : string) (i : nat) : Prop :=
  forall cnt, crash_ok cnt s -> (count_dir d (fs_log s) <= cnt d)%nat ->
    ns_files (crash_ns s cnt) !! t = Some i.

Lemma settled_content s p o cnt junk :
  settled s p o -> crash_ok cnt s -> crash_content s cnt junk p = o.
Proof.
  intros Hs Hok. destruct (Hs cnt Hok) as [Hn Hv]. unfold crash_content, crash_bytes.
  destruct (ns_files (crash_ns s cnt) !! p) as [i|].
  - destruct Hn as (c & -> & Hc). rewrite decide_True by by apply Hv. simpl. by rewrite Hc.
  - subst. by case_decide.
Qed.

Lemma crash_ok_add op cnt s : crash_ok cnt (add_op op s) <-> crash_ok cnt s.
Proof. done. Qed.

Lemma settled_add s op p o : off p op -> settled s p o -> settled (add_op op s) p o.
Proof.
  intros Hoff Hs cnt Hok. destruct (Hs cnt Hok) as [Hn Hv]. split.
  - by rewrite crash_ns_add_off.
  - intros Ho. eapply visible_mono; [apply crash_ns_add_dirs|auto].
Qed.

Lemma apart_add s op i p : off p op -> apart s i p -> apart (add_op op s) i p.
Proof. intros Hoff Ha cnt Hok. rewrite crash_ns_add_off by done. by apply Ha. Qed.

Lemma settled_data s i c p o : apart s i p -> settled s p o -> settled (set_data i c s) p o.
Proof.
  intros Ha Hs cnt Hok. destruct (Hs cnt Hok) as [Hn Hv]. split; [|done].
  change (crash_ns (set_data i c s) cnt) with (crash_ns s cnt).
  destruct (ns_files (crash_ns s cnt) !! p) as [j|] eqn:Ej; [|done].
  destruct Hn as (c0 & Ho & Hc). exists c0. split; [done|]. cbn [set_data fs_stable].
  rewrite lookup_delete_ne; [done|]. intros ->. by apply (Ha cnt Hok).
Qed.

Lemma settled_flush_file s i p o : apart s i p -> settled s p o -> settled (flush_file i s) p o.
Proof.
  intros Ha Hs cnt Hok. destruct (Hs cnt Hok) as [Hn Hv]. split; [|done].
  change (crash_ns (flush_file i s) cnt) with (crash_ns s cnt).
  destruct (ns_files (crash_ns s cnt) !! p) as [j|] eqn:Ej; [|done].
  destruct Hn as (c0 & Ho & Hc). exists c0. split; [done|]. cbn [flush_file fs_stable].
  rewrite lookup_partial_alter_ne; [done|]. intros ->. by apply (Ha cnt Hok).
Qed.

(** Flushing a directory only rules crashes out, as long as it never goes back. *)
Definition flushed_ok (s : fs) : Prop :=
  forall d, (default 0 (fs_flushed s !! d) <= count_dir d (fs_log s))%nat.

Lemma crash_ok_flush d cnt s : flushed_ok s ->
  crash_ok cnt (flush_dir d s) <-> crash_ok cnt s /\ (count_dir d (fs_log s) <= cnt d)%nat.
Proof.
  intros Hf. unfold crash_ok. cbn [flush_dir fs_flushed]. split.
  - intros H. split.
    + intros d'. specialize (H d'). destruct (decide (d' = d)) as [->|].
      * rewrite lookup_insert_eq in H. simpl in H. specialize (Hf d). lia.
      * by rewrite lookup_insert_ne in H.
    + specialize (H d). by rewrite lookup_insert_eq in H.
  - intros [H Hd] d'. destruct (decide (d' = d)) as [->|].
    + by rewrite lookup_insert_eq.
    + by rewrite lookup_insert_ne.
Qed.

Lemma settled_flush d s p o : flushed_ok s -> settled s p o -> settled (flush_dir d s) p o.
Proof. intros Hf Hs cnt Hok. apply crash_ok_flush in Hok as [Hok _]; [|done]. exact (Hs cnt Hok). Qed.

Lemma apart_flush d s i p : flushed_ok s -> apart s i p -> apart (flush_dir d s) i p.
Proof. intros Hf Hs cnt Hok. apply crash_ok_flush in Hok as [Hok _]; [|done]. exact (Hs cnt Hok). Qed.

Lemma linked_flush d d' s t i : flushed_ok s -> linked s d t i -> linked (flush_dir d' s) d t i.
Proof. intros Hf Hs cnt Hok. apply crash_ok_flush in Hok as [Hok _]; [|done]. exact (Hs cnt Hok). Qed.

Lemma count_dir_snoc d log op :
  count_dir d (log ++ [op]) = (count_dir d log + if String.eqb (op_dir op) d then 1 else 0)%nat.
Proof.
  unfold count_dir. rewrite filter_app, length_app, filter_cons, filter_nil.
  destruct (String.eqb (op_dir op) d); [by rewrite decide_True by done|by rewrite decide_False by (intros [])].
Qed.

Lemma flushed_ok_add op s : flushed_ok s -> flushed_ok (add_op op s).
Proof.
  intros Hf d. specialize (Hf d). cbn [add_op fs_log fs_flushed]. rewrite count_dir_snoc. lia.
Qed.

Lemma flushed_ok_flush d s : flushed_ok s -> flushed_ok (flush_dir d s).
Proof.
  intros Hf d'. cbn [flush_dir fs_log fs_flushed]. destruct (decide (d' = d)) as [->|].
  - by rewrite lookup_insert_eq.
  - rewrite lookup_insert_ne by done. apply Hf.
Qed.

Lemma linked_new s t i : linked (add_op (OpLink t i) s) (path_Dir t) t i.
Proof.
  intros cnt Hok Hc. rewrite crash_ns_add. cbn [op_dir add_op fs_log] in *.
  rewrite count_dir_snoc in Hc. cbn [op_dir] in Hc. rewrite String.eqb_refl in Hc.
  destruct (Nat.ltb_spec (count_dir (path_Dir t) (fs_log s)) (cnt (path_Dir t))); [|lia].
  simpl. apply lookup_insert_eq.
Qed.

(** ** Replacing a file by a temporary

    The states a durable replacement of [p] by [c] goes through, where [t] is the
    temporary and [o] what [p] is sure to hold before. *)

Definition bump (s : fs) : fs :=
  FS (fs_base s) (fs_log s) (fs_flushed s) (fs_data s) (fs_stable s) (S (fs_next s)).

(** What is on disk for sure is what a reader sees. *)
Definition wf_fs (s : fs) : Prop := flushed_ok s /\ fs_stable s ⊆ fs_data s.

Lemma wf_add op s : wf_fs s -> wf_fs (add_op op s).
Proof. intros [Hf Hs]. split; [by apply flushed_ok_add|done]. Qed.

Lemma wf_flush d s : wf_fs s -> wf_fs (flush_dir d s).
Proof. intros [Hf Hs]. split; [by apply flushed_ok_flush|done]. Qed.

Lemma wf_set_data i c s : wf_fs s -> wf_fs (set_data i c s).
Proof.
  intros [Hf Hs]. split; [done|]. cbn [set_data fs_stable fs_data].
  apply map_subseteq_spec. intros j x [Hne Hj]%lookup_delete_Some.
  rewrite lookup_insert_ne by done. by eapply lookup_weaken.
Qed.

Lemma wf_flush_file i s : wf_fs s -> wf_fs (flush_file i s).
Proof.
  intros [Hf Hs]. split; [done|]. cbn [flush_file fs_stable fs_data].
  apply map_subseteq_spec. intros j x. destruct (decide (i = j)) as [<-|].
  - by rewrite lookup_partial_alter_eq.
  - rewrite lookup_partial_alter_ne by done. intros Hj. by eapply lookup_weaken.
Qed.

(** A crash that loses nothing is no crash. *)
Lemma persist_all cnt log : (forall d, (count_dir d log <= cnt d)%nat) -> persist cnt log = log.
Proof.
  revert cnt. induction log as [|op log IH]; intros cnt Hc; [done|]. cbn [persist].
  assert (Hcons : forall d, count_dir d (op :: log) =
    ((if String.eqb (op_dir op) d then 1 else 0) + count_dir d log)%nat).
  { intros d. unfold count_dir. rewrite filter_cons. destruct (String.eqb (op_dir op) d);
      [by rewrite decide_True|by rewrite decide_False by (intros [])]. }
  pose proof (Hc (op_dir op)) as H0. rewrite Hcons, String.eqb_refl in H0.
  destruct (cnt (op_dir op)) as [|k] eqn:Ek; [lia|]. f_equal. apply IH. intros d.
  specialize (Hc d). rewrite Hcons in Hc. destruct (String.eqb_spec d (op_dir op)) as [->|Hne].
  - lia.
  - destruct (String.eqb_spec (op_dir op) d); [congruence|]. lia.
Qed.

Lemma settled_now s p o : wf_fs s -> settled s p o -> content s p = o.
Proof.
  intros [Hf Hst] Hs. destruct (Hs (fun d => count_dir d (fs_log s)) Hf) as [Hn _].
  unfold crash_ns in Hn. rewrite persist_all in Hn by done. unfold content, now_ns.
  destruct (ns_files (replay (fs_base s) (fs_log s)) !! p) as [i|]; [|by subst].
  destruct Hn as (c & -> & Hc). by eapply lookup_weaken.
Qed.

(** No crash loses the directories above [p]. *)
Definition rooted (s : fs) (p : string) : Prop :=
  forall cnt, crash_ok cnt s -> visible (crash_ns s cnt) p.

Lemma rooted_add op s p : rooted s p -> rooted (add_op op s) p.
Proof. intros Hr cnt Hok. eapply visible_mono; [apply crash_ns_add_dirs|]. by apply Hr. Qed.

Lemma rooted_flush d s p : flushed_ok s -> rooted s p -> rooted (flush_dir d s) p.
Proof. intros Hf Hr cnt Hok. apply crash_ok_flush in Hok as [Hok _]; [|done]. exact (Hr cnt Hok). Qed.

Section replacing.
Context (p t : string) (o : option string) (durable : Prop).

Definition before (s : fs) : Prop :=
  wf_fs s /\ (durable -> rooted s p) /\ settled s p o /\
  match ns_files (now_ns s) !! t with
  | Some i => apart s i p /\ linked s (path_Dir t) t i
  | None => apart s (fs_next s) p
  end.

Definition writing (i : nat) (b : string) (s : fs) : Prop :=
  wf_fs s /\ (durable -> rooted s p) /\ settled s p o /\ apart s i p /\ linked s (path_Dir t) t i /\ fs_data s !! i = Some b.

Definition written (i : nat) (c : string) (s : fs) : Prop :=
  writing i c s /\ fs_stable s !! i = Some c.

Definition ready (i : nat) (c : string) (s : fs) : Prop :=
  written i c s /\ forall cnt, crash_ok cnt s -> ns_files (crash_ns s cnt) !! t = Some i.

(** A crash finds the old bytes or the new ones; the new ones, once the directory of [p]
    is flushed. *)
Definition replaced (c : string) (s : fs) : Prop :=
  wf_fs s /\ (durable -> rooted s p) /\ forall cnt, crash_ok cnt s ->
    (o <> None -> visible (crash_ns s cnt) p) /\
    let at_p := ns_files (crash_ns s cnt) !! p in
    (exists i, at_p = Some i /\ fs_stable s !! i = Some c) \/
    ((cnt (path_Dir p) < count_dir (path_Dir p) (fs_log s))%nat /\
     match at_p with None => o = None | Some i => exists c0, o = Some c0 /\ fs_stable s !! i = Some c0 end).

Definition old_or_new (c : string) (s : fs) : Prop :=
  forall cnt junk, crash_ok cnt s ->
    crash_content s cnt junk p = o \/ crash_content s cnt junk p = Some c.

Lemma settled_old_or_new c s : settled s p o -> old_or_new c s.
Proof. intros Hs cnt junk Hok. left. by apply settled_content. Qed.

Lemma replaced_old_or_new c s : replaced c s -> old_or_new c s.
Proof.
  intros (_ & _ & H) cnt junk Hok. destruct (H cnt Hok) as [Hv Hc]. unfold crash_content, crash_bytes.
  destruct Hc as [(i & -> & Hi)|[_ Hc]].
  - simpl. rewrite Hi. case_decide as Hd; [by right|left]. destruct o; [|done]. by destruct Hd; apply Hv.
  - destruct (ns_files (crash_ns s cnt) !! p) as [i|].
    + destruct Hc as (c0 & -> & Hi). simpl. rewrite Hi. rewrite decide_True by by apply Hv. by left.
    + subst. left. by case_decide.
Qed.

Lemma replaced_flushed c s :
  replaced c s -> replaced c (flush_dir (path_Dir p) s) /\
  (durable -> settled (flush_dir (path_Dir p) s) p (Some c)).
Proof.
  intros (Hf & Hd & H). split.
  - split_and!; [by apply wf_flush|intros; apply rooted_flush; [apply Hf|auto]|].
    intros cnt Hok. apply crash_ok_flush in Hok as [Hok _]; [|apply Hf]. exact (H cnt Hok).
  - intros Hdur cnt Hok. apply crash_ok_flush in Hok as [Hok Hcnt]; [|apply Hf].
    destruct (H cnt Hok) as [_ [(i & Hi & Hc)|[Hlt _]]]; [|lia].
    change (crash_ns (flush_dir (path_Dir p) s) cnt) with (crash_ns s cnt).
    split; [rewrite Hi; eauto|]. intros _. by apply Hd.
Qed.

Lemma before_mkdir d s : before s -> before (add_op (OpMkdir d) s).
Proof.
  intros (Hf & Hd & Hs & Ht). split_and!; [by apply wf_add|intros; apply rooted_add; auto|by apply settled_add|].
  unfold now_ns in *. cbn [add_op fs_base fs_log]. rewrite replay_snoc. cbn [apply_op ns_files].
  destruct (ns_files _ !! t) as [i|]; [|by apply apart_add].
  destruct Ht as [Ha Hl]. split; [by apply apart_add|]. intros cnt Hok Hc.
  rewrite crash_ns_add_off by done. apply Hl; [done|]. cbn [add_op fs_log] in Hc.
  rewrite count_dir_snoc in Hc. lia.
Qed.

Context (Htp : t <> p) (Hdir : path_Dir t = path_Dir p).

Lemma before_reopen i s :
  before s -> ns_files (now_ns s) !! t = Some i -> writing i "" (set_data i "" s).
Proof.
  intros (Hf & Hr & Hs & Ht) Hi. rewrite Hi in Ht. destruct Ht as [Ha Hl].
  split_and!; [by apply wf_set_data|done|by apply settled_data|done|done|]. apply lookup_insert_eq.
Qed.

Lemma before_create s :
  before s -> ns_files (now_ns s) !! t = None ->
  writing (fs_next s) "" (set_data (fs_next s) "" (bump (add_op (OpLink t (fs_next s)) s))).
Proof.
  intros (Hf & Hr & Hs & Ht) Hi. rewrite Hi in Ht.
  assert (Ha : apart (bump (add_op (OpLink t (fs_next s)) s)) (fs_next s) p) by by apply (apart_add s _ _ _).
  split_and!; [by apply wf_set_data, (wf_add _ s)|intros; by apply (rooted_add _ s), Hr| |exact Ha|apply linked_new|apply lookup_insert_eq].
  apply settled_data; [exact Ha|]. by apply (settled_add s _ _ _).
Qed.

Lemma writing_write i b b' s : writing i b s -> writing i b' (set_data i b' s).
Proof.
  intros (Hf & Hr & Hs & Ha & Hl & _). split_and!; [by apply wf_set_data|done|by apply settled_data|done|done|]. apply lookup_insert_eq.
Qed.

Lemma writing_sync i b s : writing i b s -> written i b (flush_file i s).
Proof.
  intros (Hf & Hr & Hs & Ha & Hl & Hd). split; [split_and!; [by apply wf_flush_file|done|by apply settled_flush_file|done..]|].
  cbn [flush_file fs_stable]. by rewrite lookup_partial_alter_eq.
Qed.

Lemma written_flush i c s : written i c s -> ready i c (flush_dir (path_Dir p) s).
Proof.
  intros [(Hf & Hr & Hs & Ha & Hl & Hd) Hst]. split; [split; [split_and!|done]|].
  - by apply wf_flush.
  - intros; apply rooted_flush; [apply Hf|auto].
  - apply settled_flush; [apply Hf|done].
  - apply apart_flush; [apply Hf|done].
  - apply linked_flush; [apply Hf|done].
  - done.
  - intros cnt Hok. apply crash_ok_flush in Hok as [Hok Hc]; [|apply Hf]. apply Hl; [done|]. by rewrite Hdir.
Qed.

Lemma ready_rename i c s : ready i c s -> replaced c (add_op (OpRename t p) s).
Proof.
  intros [[(Hf & Hr & Hs & Ha & Hl & Hd) Hst] Hlink].
  split_and!; [by apply wf_add|intros; apply rooted_add; auto|].
  intros cnt Hok. destruct (Hs cnt Hok) as [Hn Hv]. split.
  { intros Ho. eapply visible_mono; [apply crash_ns_add_dirs|auto]. }
  cbv zeta. rewrite crash_ns_add. cbn [op_dir].
  destruct (Nat.ltb_spec (count_dir (path_Dir p) (fs_log s)) (cnt (path_Dir p))).
  - left. exists i. cbn [apply_op]. rewrite (Hlink cnt Hok). cbn [ns_files]. split; [|done].
    apply lookup_insert_eq.
  - right. cbn [add_op fs_log]. rewrite count_dir_snoc. cbn [op_dir]. rewrite String.eqb_refl.
    split; [lia|done].
Qed.
End replacing.

(** ** Moving a file to a free name *)

Section moving.
Context (t f : string) (c : string) (Hne : t <> f).

Definition staged (s : fs) : Prop :=
  wf_fs s /\ rooted s f /\ settled s t (Some c) /\ settled s f None.

(** The bytes are under exactly one of the two names. *)
Definition one_of (s : fs) : Prop :=
  forall cnt junk, crash_ok cnt s ->
    (crash_content s cnt junk t = Some c /\ crash_content s cnt junk f = None) \/
    (crash_content s cnt junk t = None /\ crash_content s cnt junk f = Some c).

Definition moved (s : fs) : Prop :=
  wf_fs s /\ rooted s f /\ forall cnt, crash_ok cnt s ->
    let names := ns_files (crash_ns s cnt) in
    (names !! t = None /\ exists i, names !! f = Some i /\ fs_stable s !! i = Some c) \/
    ((cnt (path_Dir f) < count_dir (path_Dir f) (fs_log s))%nat /\ names !! f = None /\
     visible (crash_ns s cnt) t /\ exists i, names !! t = Some i /\ fs_stable s !! i = Some c).

Lemma staged_one_of s : staged s -> one_of s.
Proof.
  intros (_ & _ & Ht & Hf) cnt junk Hok. left.
  by rewrite (settled_content s t (Some c)), (settled_content s f None).
Qed.

Lemma moved_one_of s : moved s -> one_of s.
Proof.
  intros (_ & Hr & Hm) cnt junk Hok. specialize (Hr cnt Hok).
  unfold crash_content, crash_bytes. destruct (Hm cnt Hok) as [(Ht & i & Hf & Hc)|(_ & Hf & Hv & i & Ht & Hc)].
  - right. rewrite Ht, Hf. cbn. rewrite Hc, (decide_True (P := visible (crash_ns s cnt) f)) by done. by case_decide.
  - left. rewrite Ht, Hf. cbn. rewrite Hc, (decide_True (P := visible (crash_ns s cnt) t)) by done. by case_decide.
Qed.

Lemma staged_move s : staged s -> moved (add_op (OpRename t f) s).
Proof.
  intros (Hw & Hr & Ht & Hf). split_and!; [by apply wf_add|by apply rooted_add|].
  intros cnt Hok. cbv zeta. destruct (Ht cnt Hok) as [Hnt Hvt], (Hf cnt Hok) as [Hnf _].
  destruct (ns_files (crash_ns s cnt) !! t) as [i|] eqn:Ei; [|done].
  destruct Hnt as (c' & [= <-] & Hc). rewrite crash_ns_add. cbn [op_dir add_op fs_log fs_stable].
  rewrite count_dir_snoc. cbn [op_dir]. rewrite String.eqb_refl.
  destruct (Nat.ltb_spec (count_dir (path_Dir f) (fs_log s)) (cnt (path_Dir f))).
  - left. cbn [apply_op]. rewrite Ei. cbn [ns_files]. rewrite lookup_insert_ne, lookup_delete_eq by done.
    split; [done|]. exists i. by rewrite lookup_insert_eq.
  - right. destruct (ns_files (crash_ns s cnt) !! f) as [j|]; [by destruct Hnf as (? & ? & _)|].
    split_and!; [lia|done|by apply Hvt|eauto].
Qed.

Lemma moved_flush s : moved s ->
  moved (flush_dir (path_Dir f) s) /\ settled (flush_dir (path_Dir f) s) f (Some c) /\
  (forall cnt, crash_ok cnt (flush_dir (path_Dir f) s) -> ns_files (crash_ns s cnt) !! t = None).
Proof.
  intros (Hw & Hr & Hm). split_and!.
  - split_and!; [by apply wf_flush|apply rooted_flush; [apply Hw|done]|].
    intros cnt Hok. apply crash_ok_flush in Hok as [Hok _]; [|apply Hw]. exact (Hm cnt Hok).
  - intros cnt Hok. apply crash_ok_flush in Hok as [Hok Hcnt]; [|apply Hw].
    destruct (Hm cnt Hok) as [(_ & i & Hi & Hc)|[? _]]; [|lia].
    change (crash_ns (flush_dir (path_Dir f) s) cnt) with (crash_ns s cnt). split; [rewrite Hi; eauto|].
    intros _. by apply Hr.
  - intros cnt Hok. apply crash_ok_flush in Hok as [Hok Hcnt]; [|apply Hw].
    destruct (Hm cnt Hok) as [(? & _)|[? _]]; [done|lia].
Qed.
End moving.
