(* ===== verification/Posix.v ===== *)
(** * The POSIX driver

    [internal/storage/posix/posix.go] over a file system that can fail any call and
    lose power at any moment. *)

From S2P Require Import Prelude Storage FileSystem.

(** ** The machine

    A call may be made to fail; a failing write may have written some of its bytes.
    Every state the file system goes through is recorded, since any of them may be
    the last before a crash. *)

Inductive fault := Pass | Break (n : nat).

(** [writer] *)
Record pwriter := PWriter { w_file : nat; w_tmpAbs : string; w_finalAbs : string; w_closed : bool }.

Record machine := Machine {
  m_fs : fs;
  m_writers : gmap nat pwriter;
  m_next : nat;
  m_faults : list fault;
  m_trace : list fs;
}.

Definition io_error : error := errors_New "input/output error".
Definition not_exist : error := errors_Sentinel OsErrNotExist "no such file or directory".

Definition syscall {A} (run : fs -> result A * fs) (broken : nat -> fs -> fs) : M machine A := fun w =>
  let '(r, s) := match m_faults w with
                 | Break n :: _ => (Fail io_error, broken n (m_fs w))
                 | _ => run (m_fs w)
                 end in
  (r, Machine s (m_writers w) (m_next w) (tail (m_faults w)) (m_trace w ++ [s])).

Definition untouched (_ : nat) (s : fs) : fs := s.

Definition is_dir (s : fs) (p : string) : bool :=
  String.eqb p "/" || bool_decide (p ∈ ns_dirs (now_ns s)).

Definition file_at (s : fs) (p : string) : option nat := ns_files (now_ns s) !! p.

Definition file_data (s : fs) (i : nat) : string := default "" (fs_data s !! i).

(** [mkdir], which [os.MkdirAll] calls for every component that is missing. *)
Definition sys_mkdir (d : string) : M machine unit :=
  syscall (fun s =>
    match file_at s d with
    | Some _ => (Fail (errors_New "not a directory"), s)
    | None => if is_dir s d then (Ok tt, s) else (Ok tt, add_op (OpMkdir d) s)
    end) untouched.

Definition os_MkdirAll (d : string) : M machine unit :=
  forM (ancestors d ++ [d]) tt (fun _ x => sys_mkdir x).

(** [os.OpenFile] with [O_WRONLY|O_CREATE|O_TRUNC] *)
Definition sys_creat (p : string) : M machine nat :=
  syscall (fun s =>
    if is_dir s p then (Fail (errors_New "is a directory"), s)
    else match file_at s p with
         | Some i => (Ok i, set_data i "" s)
         | None =>
             if is_dir s (path_Dir p) then
               let i := fs_next s in
               let s := add_op (OpLink p i) s in
               (Ok i, set_data i "" (FS (fs_base s) (fs_log s) (fs_flushed s) (fs_data s) (fs_stable s) (S i)))
             else (Fail not_exist, s)
         end) untouched.

Definition sys_write (i : nat) (b : string) : M machine unit :=
  syscall (fun s => (Ok tt, set_data i (file_data s i +:+ b) s))
          (fun n s => set_data i (file_data s i +:+ stake n b) s).

Definition sys_fsync (i : nat) : M machine unit := syscall (fun s => (Ok tt, flush_file i s)) untouched.
Definition sys_close : M machine unit := syscall (fun s => (Ok tt, s)) untouched.

Definition sys_opendir (d : string) : M machine unit :=
  syscall (fun s => ((if is_dir s d then Ok tt else Fail not_exist), s)) untouched.

Definition sys_fsync_dir (d : string) : M machine unit := syscall (fun s => (Ok tt, flush_dir d s)) untouched.

(** [os.Rename] of a file. *)
Definition sys_rename (p q : string) : M machine unit :=
  syscall (fun s =>
    match file_at s p with
    | None => (Fail not_exist, s)
    | Some _ =>
        if is_dir s q then (Fail (errors_Sentinel OsErrExist "file exists"), s)
        else if is_dir s (path_Dir q) then (Ok tt, add_op (OpRename p q) s)
        else (Fail not_exist, s)
    end) untouched.

(** [os.Stat]: the size; that of a directory is up to the file system. *)
Definition sys_stat (p : string) : M machine Z :=
  syscall (fun s =>
    match file_at s p with
    | Some i => (Ok (Z.of_nat (slen (file_data s i))), s)
    | None => if is_dir s p then (Ok 4096, s) else (Fail not_exist, s)
    end) untouched.

(** [os.Open] and reading to the end. *)
Definition sys_read (p : string) : M machine string :=
  syscall (fun s =>
    match file_at s p with
    | Some i => (Ok (file_data s i), s)
    | None => (Fail (if is_dir s p then errors_New "is a directory" else not_exist), s)
    end) untouched.

(** [os.Remove] of a file; removing a directory is refused. *)
Definition sys_unlink (p : string) : M machine unit :=
  syscall (fun s =>
    match file_at s p with
    | Some _ => (Ok tt, add_op (OpUnlink p) s)
    | None => (Fail (if is_dir s p then errors_New "directory not empty" else not_exist), s)
    end) untouched.

(** The order of [filepath.WalkDir]: names are sorted within each directory. *)
Fixpoint segs_leb (a b : list string) : bool :=
  match a, b with
  | [], _ => true
  | _, [] => false
  | x :: a', y :: b' => if String.eqb x y then segs_leb a' b' else String.leb x y
  end.

Definition walk_le (a b : string * Z) : Prop := segs_leb (Split a.1 "/") (Split b.1 "/") = true.

#[export] Instance walk_le_dec : RelDecision walk_le.
Proof. intros a b. unfold walk_le. apply _. Defined.

(** The files [filepath.WalkDir] finds from [top], with their sizes. *)
Definition sys_walk (top : string) : M machine (list (string * Z)) :=
  syscall (fun s =>
    let below := if String.eqb top "/" then "/" else top +:+ "/" in
    let files := (fun '(p, i) => (p, Z.of_nat (slen (file_data s i)))) <$> map_to_list (ns_files (now_ns s)) in
    (Ok (merge_sort walk_le
           (base.filter (fun pz => String.eqb pz.1 top || HasPrefix pz.1 below) files)), s)) untouched.

(** ** The driver *)

Definition StepWriteTemp : string := "write_temp".
Definition StepFsyncFile : string := "fsync_file".
Definition StepCloseFile : string := "close_file".
Definition StepOpenDir : string := "open_dir".
Definition StepFsyncDirPre : string := "fsync_dir_pre".
Definition StepRename : string := "rename".
Definition StepFsyncDirPost : string := "fsync_dir_post".
Definition StepCommitRename : string := "commit_rename".
Definition StepCommitFsync : string := "commit_fsync_dir".

Definition FaultFn : Type := string -> option error.

(** [Options] and [Backend] *)
Record Options := { opt_Root : string; opt_Fault : option FaultFn }.
Record driver := Driver { root : string; fault_fn : option FaultFn }.

(** [New] *)
Definition New (opts : Options) : result driver :=
  if String.eqb (opt_Root opts) "" then Fail (errors_New "posix: Root is required")
  else if negb (HasPrefix (opt_Root opts) "/") then Fail (errors_New "posix: Root must be an absolute path")
  else Ok (Driver (Clean (opt_Root opts)) (opt_Fault opts)).

(** [filepath.IsLocal] *)
Definition IsLocal (path : string) : bool :=
  if HasPrefix path "/" || String.eqb path "" then false
  else
    let hasDots := existsb (fun part => String.eqb part "." || String.eqb part "..") (Split path "/") in
    let path := if hasDots then Clean path else path in
    negb (String.eqb path ".." || HasPrefix path "../").

Section driver.
Context (r : driver).

(** [Backend.abs] *)
Definition abs (rel : string) : result string :=
  if negb (IsLocal rel) then Fail (errors_New "posix: relPath must be a relative, non-traversing path")
  else Ok (path_Join [root r; rel]).

(** [Backend.hook] *)
Definition hook (step : string) : M machine unit :=
  match fault_fn r with
  | None => ret tt
  | Some f => match f step with None => ret tt | Some e => throw e end
  end.

(** [Backend.Open] *)
Definition Open : M machine unit :=
  forM [root r; path_Join [root r; "wal"]] tt (fun _ dir => wrapping "posix: mkdir" (os_MkdirAll dir)).

Definition new_writer (h : pwriter) : M machine nat := fun w =>
  (Ok (m_next w), Machine (m_fs w) (<[m_next w := h]> (m_writers w)) (S (m_next w)) (m_faults w) (m_trace w)).

(** [Backend.Put] *)
Definition Put (relPath : string) : M machine nat :=
  abs_ <- of_result (abs relPath) ;;
  let parent := path_Dir abs_ in
  wrapping "posix: mkdir" (os_MkdirAll parent) ;;;
  let tmp := abs_ +:+ ".pgsafe-tmp" in
  f <- wrapping "posix: create" (sys_creat tmp) ;;
  e <- try (hook StepWriteTemp) ;;
  match e with
  | Fail err => try sys_close ;;; throw err
  | Ok _ => new_writer (PWriter f tmp abs_ false)
  end.

Definition no_writer : pwriter := PWriter 0 "" "" true.
Definition get_writer (h : nat) : M machine pwriter := read (fun w => default no_writer (m_writers w !! h)).

Definition set_closed (h : nat) : M machine unit := update (fun w =>
  Machine (m_fs w)
    (alter (fun x => PWriter (w_file x) (w_tmpAbs x) (w_finalAbs x) true) h (m_writers w))
    (m_next w) (m_faults w) (m_trace w)).

(** [writer.Write]; once [Close] has run the file is closed and refuses. *)
Definition Write (h : nat) (p : string) : M machine unit :=
  w <- get_writer h ;;
  if w_closed w then throw (errors_New "file already closed") else sys_write (w_file w) p.

(** [writer.Close] *)
Definition Close (h : nat) : M machine unit :=
  w <- get_writer h ;;
  if w_closed w then ret tt
  else
    set_closed h ;;;
    e <- try (sys_fsync (w_file w)) ;;
    match e with
    | Fail err => try sys_close ;;; throw (Errorf_w "posix: fsync(file)" err)
    | Ok _ =>
        e <- try (hook StepFsyncFile) ;;
        match e with
        | Fail err => try sys_close ;;; throw err
        | Ok _ =>
            wrapping "posix: close(file)" sys_close ;;;
            hook StepCloseFile ;;;
            let dir := path_Dir (w_finalAbs w) in
            wrapping "posix: open(dir)" (sys_opendir dir) ;;;
            hook StepOpenDir ;;;
            wrapping "posix: fsync(dir) pre" (sys_fsync_dir dir) ;;;
            hook StepFsyncDirPre ;;;
            wrapping "posix: rename" (sys_rename (w_tmpAbs w) (w_finalAbs w)) ;;;
            hook StepRename ;;;
            wrapping "posix: fsync(dir) post" (sys_fsync_dir dir) ;;;
            hook StepFsyncDirPost
        end
    end.

(** [Backend.Commit] *)
Definition Commit (tmp final : string) : M machine unit :=
  tmpAbs <- of_result (abs tmp) ;;
  finalAbs <- of_result (abs final) ;;
  st <- try (sys_stat finalAbs) ;;
  match st with
  | Ok _ => throw (errors_Sentinel OsErrExist "posix: Commit refuses to overwrite existing")
  | Fail err =>
      if negb (errors_Is err OsErrNotExist) then throw (Errorf_w "posix: stat final" err)
      else
        wrapping "posix: Commit rename" (sys_rename tmpAbs finalAbs) ;;;
        hook StepCommitRename ;;;
        let dir := path_Dir finalAbs in
        wrapping "posix: Commit open(dir)" (sys_opendir dir) ;;;
        wrapping "posix: Commit fsync(dir)" (sys_fsync_dir dir) ;;;
        hook StepCommitFsync
  end.

(** [Backend.Get] *)
Definition Get (relPath : string) : M machine string :=
  abs_ <- of_result (abs relPath) ;; wrapping "posix: open" (sys_read abs_).

(** [Backend.Stat]; modification times are not modelled. *)
Definition Stat (relPath : string) : M machine FileInfo :=
  abs_ <- of_result (abs relPath) ;;
  n <- wrapping "posix: stat" (sys_stat abs_) ;;
  ret {| fi_Path := relPath; fi_Size := n; fi_ModTime := 0 |}.

(** The callback of the walk in [Backend.List]. *)
Definition list_entry (prefix walkRoot : string) (e : string * Z) : option FileInfo :=
  let '(p, size) := e in
  if Contains (path_Base p) ".pgsafe-tmp" then None
  else
    let below := if String.eqb walkRoot "/" then "/" else walkRoot +:+ "/" in
    let relInWalk := if String.eqb p walkRoot then "." else sdrop (slen below) p in
    let rel := if String.eqb prefix "" then relInWalk else path_Join [prefix; relInWalk] in
    if String.eqb prefix "" && (HasPrefix rel "wal/" || String.eqb rel "wal") then None
    else Some {| fi_Path := rel; fi_Size := size; fi_ModTime := 0 |}.

(** [Backend.List]; the model has no symbolic links, so the walk starts at [rootAbs]. *)
Definition List (prefix : string) : M machine (list FileInfo) :=
  rootAbs <- (if String.eqb prefix "" then ret (root r) else of_result (abs prefix)) ;;
  st <- try (sys_stat rootAbs) ;;
  match st with
  | Fail err => if errors_Is err OsErrNotExist then ret [] else throw err
  | Ok _ => entries <- sys_walk rootAbs ;; ret (omap (list_entry prefix rootAbs) entries)
  end.

(** [Backend.Delete] *)
Definition Delete (relPath : string) : M machine unit :=
  abs_ <- of_result (abs relPath) ;;
  e <- try (sys_unlink abs_) ;;
  match e with
  | Fail err =>
      if errors_Is err OsErrNotExist then throw (errors_Sentinel OsErrNotExist "posix: Delete")
      else throw (Errorf_w "posix: Delete" err)
  | Ok _ =>
      d <- try (sys_opendir (path_Dir abs_)) ;;
      match d with
      | Fail _ => ret tt
      | Ok _ => try (sys_fsync_dir (path_Dir abs_)) ;;; ret tt
      end
  end.
End driver.

(** The driver as a storage backend. *)
Definition posix_backend (r : driver) : Backend machine := {|
  be_Writer := nat;
  be_Put := Put r;
  be_Write := Write;
  be_Close := Close r;
  be_Commit := Commit r;
  be_Get := Get r;
  be_Stat := Stat r;
  be_List := List r;
  be_Delete := Delete r;
|}.
