(* ===== verification/PosixSpec.v ===== *)
(** * What the POSIX driver guarantees

    Crash consistency of [Put]/[Close] and of [Commit], confinement to the root, and
    the functional behaviour of the driver. *)

From S2P Require Import Prelude Storage FileSystem Posix.

(** ** Commands whose every intermediate state is safe *)

Abbreviation wmap := (gmap nat pwriter) (only parsing).

Section triples.
Context (Safe : fs -> Prop).

(** From a state in [P] the command only goes through safe states, and ends in [Q]. *)
Definition triple {A} (P : fs -> wmap -> Prop) (m : M machine A) (Q : A -> fs -> wmap -> Prop) : Prop :=
  forall w r w', P (m_fs w) (m_writers w) -> m w = (r, w') ->
    (exists tr, m_trace w' = m_trace w ++ tr /\ Forall Safe tr) /\
    match r with Ok a => Q a (m_fs w') (m_writers w') | Fail _ => Safe (m_fs w') end.

Lemma triple_conseq {A} (P P' : fs -> wmap -> Prop) (m : M machine A) Q Q' :
  triple P' m Q' -> (forall s ws, P s ws -> P' s ws) -> (forall a s ws, Q' a s ws -> Q a s ws) ->
  triple P m Q.
Proof.
  intros H HP HQ w r w' Hw Hm. destruct (H w r w' (HP _ _ Hw) Hm) as [Htr Hr].
  split; [done|]. destruct r; auto.
Qed.

Lemma triple_ret {A} (P : fs -> wmap -> Prop) (a : A) (Q : A -> fs -> wmap -> Prop) :
  (forall s ws, P s ws -> Q a s ws) -> triple P (ret a) Q.
Proof.
  intros H w r w' Hw [= <- <-]. split; [|by apply H]. exists []. by rewrite app_nil_r.
Qed.

Lemma triple_throw {A} (P : fs -> wmap -> Prop) e (Q : A -> fs -> wmap -> Prop) :
  (forall s ws, P s ws -> Safe s) -> triple P (throw e) Q.
Proof.
  intros H w r w' Hw [= <- <-]. split; [|by eapply H]. exists []. by rewrite app_nil_r.
Qed.

Lemma triple_bind {A B} (P : fs -> wmap -> Prop) (m : M machine A) (k : A -> M machine B) R Q :
  triple P m R -> (forall a, triple (R a) (k a) Q) -> triple P (bind m k) Q.
Proof.
  intros Hm Hk w r w' Hw. unfold bind. destruct (m w) as [[a|e] w1] eqn:E.
  - destruct (Hm w _ w1 Hw E) as [(tr1 & Ht1 & Hs1) HR]. intros Hkw.
    destruct (Hk a w1 r w' HR Hkw) as [(tr2 & Ht2 & Hs2) HQ]. split; [|done].
    exists (tr1 ++ tr2). rewrite Ht2, Ht1, app_assoc. split; [done|]. by apply Forall_app.
  - intros [= <- <-]. destruct (Hm w _ w1 Hw E) as [Ht HS]. done.
Qed.

Lemma triple_try {A} (P : fs -> wmap -> Prop) (m : M machine A) Q :
  triple P m Q ->
  triple P (try m) (fun r s ws => match r with Ok a => Q a s ws | Fail _ => Safe s end).
Proof.
  intros Hm w r w' Hw. unfold try. destruct (m w) as [r1 w1] eqn:E. intros [= <- <-].
  by apply (Hm w r1 w1).
Qed.

Lemma triple_wrapping {A} (P : fs -> wmap -> Prop) msg (m : M machine A) Q :
  triple P m Q -> triple P (wrapping msg m) Q.
Proof.
  intros Hm w r w' Hw. unfold wrapping. destruct (m w) as [r1 w1] eqn:E. intros [= <- <-].
  destruct (Hm w r1 w1 Hw E) as [Ht Hr]. split; [done|]. by destruct r1.
Qed.

Lemma triple_of_result {A} (P : fs -> wmap -> Prop) (r : result A) (Q : A -> fs -> wmap -> Prop) :
  (forall s ws, P s ws -> match r with Ok a => Q a s ws | Fail _ => Safe s end) ->
  triple P (of_result r) Q.
Proof.
  intros H w r' w' Hw [= <- <-]. split; [|by apply H]. exists []. by rewrite app_nil_r.
Qed.

Lemma triple_syscall {A} (P : fs -> wmap -> Prop) (run : fs -> result A * fs) broken Q :
  (forall s ws, P s ws -> (forall n, Safe (broken n s)) /\ Safe (snd (run s)) /\
     forall a, fst (run s) = Ok a -> Q a (snd (run s)) ws) ->
  triple P (syscall run broken) Q.
Proof.
  intros H w r w' Hw. destruct (H _ _ Hw) as (Hb & Hs & HQ). unfold syscall.
  assert (Hgo : forall r1 s1, (r1, s1) = run (m_fs w) ->
    (r1, Machine s1 (m_writers w) (m_next w) (tail (m_faults w)) (m_trace w ++ [s1])) = (r, w') ->
    (exists tr, m_trace w' = m_trace w ++ tr /\ Forall Safe tr) /\
    match r with Ok a => Q a (m_fs w') (m_writers w') | Fail _ => Safe (m_fs w') end).
  { intros r1 s1 Hr [= <- <-]. rewrite <- Hr in Hs, HQ. simpl in *. split.
    - eexists. split; [done|]. by constructor.
    - destruct r1; auto. }
  destruct (m_faults w) as [|[|n] fl]; [|destruct (run (m_fs w)) as [r1 s1] eqn:E; by apply Hgo|].
  - destruct (run (m_fs w)) as [r1 s1] eqn:E; by apply Hgo.
  - intros [= <- <-]. simpl. split; [|apply Hb]. eexists. split; [done|]. constructor; [apply Hb|done].
Qed.

Lemma triple_forM {A} (P : fs -> wmap -> Prop) (l : list A) (body : unit -> A -> M machine unit) :
  (forall x, x ∈ l -> triple P (body tt x) (fun _ => P)) -> triple P (forM l tt body) (fun _ => P).
Proof.
  induction l as [|x l IH]; intros H; cbn [forM]; [by apply triple_ret|].
  eapply triple_bind; [apply H; by left|]. intros []. apply IH. intros y Hy. apply H. by right.
Qed.

Lemma triple_hook (r : driver) (P : fs -> wmap -> Prop) step :
  (forall s ws, P s ws -> Safe s) -> triple P (hook r step) (fun _ => P).
Proof.
  intros HS. unfold hook. destruct (fault_fn r) as [f|]; [|by apply triple_ret].
  destruct (f step); [by apply triple_throw|by apply triple_ret].
Qed.

Lemma triple_get_writer {A} (P : fs -> wmap -> Prop) h x (k : pwriter -> M machine A) Q :
  (forall s ws, P s ws -> ws !! h = Some x) -> triple P (k x) Q -> triple P (bind (get_writer h) k) Q.
Proof.
  intros Hx Hk w r w' Hw. unfold get_writer, bind, read. rewrite (Hx _ _ Hw). by apply Hk.
Qed.

Lemma triple_set_closed (P : fs -> Prop) (P' : fs -> wmap -> Prop) h :
  (forall s ws, P' s ws -> P s) -> triple P' (set_closed h) (fun _ s _ => P s).
Proof.
  intros HP w r w' Hw [= <- <-]. simpl. split; [exists []; by rewrite app_nil_r|]. by eapply HP.
Qed.

(** A call that leaves the file system alone. *)
Lemma triple_pure_call {A} (P : fs -> wmap -> Prop) (run : fs -> result A * fs) :
  (forall s, snd (run s) = s) -> (forall s ws, P s ws -> Safe s) ->
  triple P (syscall run untouched) (fun _ => P).
Proof.
  intros Hrun HS. apply triple_syscall. intros s ws Hs. rewrite Hrun. unfold untouched. eauto.
Qed.

(** Nor does it when it fails. *)
Lemma triple_try_pure_call {A} (P : fs -> wmap -> Prop) (run : fs -> result A * fs) :
  (forall s, snd (run s) = s) -> (forall s ws, P s ws -> Safe s) ->
  triple P (try (syscall run untouched)) (fun _ => P).
Proof.
  intros Hrun HS w r w' Hw. unfold try, syscall, untouched. specialize (Hrun (m_fs w)).
  destruct (run (m_fs w)) as [r1 s1]. cbn [snd] in Hrun. subst s1.
  destruct (m_faults w) as [|[|n] fl]; intros [= <- <-]; cbn [m_trace m_fs m_writers].
  all: split; [eexists; split; [done|]; constructor; [by eapply HS|done]|done].
Qed.
End triples.

(** ** [Put], [Write] and [Close] *)

Lemma abs_rooted r rel p : HasPrefix (root r) "/" = true -> abs r rel = Ok p -> HasPrefix p "/" = true.
Proof.
  intros Hr. unfold abs. destruct (IsLocal rel) eqn:El; [|done]. intros [= <-].
  unfold path_Join. rewrite !filter_cons, filter_nil.
  apply HasPrefix_spec in Hr as [u ->].
  rewrite decide_True by done. case_decide; apply Clean_rooted; simpl; by rewrite HasPrefix_cons, HasPrefix_nil.
Qed.

Definition tmp_of (p : string) : string := p +:+ ".pgsafe-tmp".

Lemma tmp_dir p : HasPrefix p "/" = true -> path_Dir (tmp_of p) = path_Dir p.
Proof. intros Hp. by apply path_Dir_suffix. Qed.

Lemma tmp_neq p : tmp_of p <> p.
Proof. intros E. apply (f_equal slen) in E. unfold tmp_of in E. rewrite slen_app in E. simpl in E. lia. Qed.

Section replace.
Context (r : driver) (rel p : string) (o : option string) (D : Prop) (c : string)
        (Hroot : HasPrefix (root r) "/" = true) (Habs : abs r rel = Ok p).

Let t := tmp_of p.
Let Safe := old_or_new p o c.

Let Hdir : path_Dir t = path_Dir p := tmp_dir p (abs_rooted r rel p Hroot Habs).
Let Htp : t <> p := tmp_neq p.

Lemma before_safe s : before p t o D s -> Safe s.
Proof. intros (_ & _ & Hs & _). by apply settled_old_or_new. Qed.

Lemma writing_safe i b s : writing p t o D i b s -> Safe s.
Proof. intros (_ & _ & Hs & _). by apply settled_old_or_new. Qed.

Lemma mkdir_triple d : triple Safe (fun s _ => before p t o D s) (sys_mkdir d) (fun _ s _ => before p t o D s).
Proof.
  apply triple_syscall. intros s ws Hb. split; [intros n; by apply before_safe|].
  destruct (file_at s d); [simpl; split; [by apply before_safe|done]|].
  destruct (is_dir s d); simpl; [split; [by apply before_safe|done]|].
  pose proof (before_mkdir p t o D d s Hb). split; [by apply before_safe|done].
Qed.

Lemma creat_triple :
  triple Safe (fun s _ => before p t o D s) (sys_creat t) (fun i s _ => writing p t o D i "" s).
Proof.
  apply triple_syscall. intros s ws Hb. split; [intros n; by apply before_safe|].
  destruct (is_dir s t); [simpl; split; [by apply before_safe|done]|].
  unfold file_at. destruct (ns_files (now_ns s) !! t) as [i|] eqn:Ei.
  - pose proof (before_reopen p t o D i s Hb Ei) as Hw. simpl. split; [by eapply writing_safe|].
    by intros a [= <-].
  - destruct (is_dir s (path_Dir t)); [|simpl; split; [by apply before_safe|done]].
    pose proof (before_create p t o D Htp s Hb Ei) as Hw. simpl. split; [by eapply writing_safe|].
    by intros a [= <-].
Qed.

(** The writer [h] is open on [t]. *)
Definition open_on (h i : nat) (ws : wmap) : Prop := ws !! h = Some (PWriter i t p false).

Lemma Put_triple :
  triple Safe (fun s _ => before p t o D s) (Put r rel)
    (fun h s ws => exists i, writing p t o D i "" s /\ open_on h i ws).
Proof.
  unfold Put. rewrite Habs. unfold of_result. change (fun w : machine => (Ok p, w)) with (ret (W:=machine) p).
  rewrite bind_ret_l. cbv zeta.
  eapply triple_bind; [apply triple_wrapping, triple_forM; intros; apply mkdir_triple|]. intros ?.
  eapply triple_bind; [apply triple_wrapping, creat_triple|]. intros i.
  eapply triple_bind.
  { apply triple_try, triple_hook. intros s ws. apply writing_safe. }
  intros [[]|err].
  - intros w res w' Hw. unfold new_writer. intros [= <- <-]. simpl.
    split; [exists []; by rewrite app_nil_r|]. exists i. split; [done|]. apply lookup_insert_eq.
  - eapply triple_bind; [apply triple_try, (triple_pure_call _ _ _); [done|auto]|].
    intros x. apply triple_throw. by destruct x.
Qed.

Lemma Write_triple h i b x :
  triple Safe (fun s ws => writing p t o D i b s /\ open_on h i ws) (Write h x)
    (fun _ s ws => writing p t o D i (b +:+ x) s /\ open_on h i ws).
Proof.
  unfold Write. eapply triple_get_writer; [intros s ws [_ Ho]; exact Ho|]. cbn [w_closed w_file].
  apply triple_syscall. intros s ws [Hw Ho].
  assert (Hd : file_data s i = b) by (destruct Hw as (_ & _ & _ & _ & _ & Hd); unfold file_data; by rewrite Hd).
  rewrite Hd. split; [|split].
  - intros n. eapply writing_safe, writing_write, Hw.
  - eapply writing_safe, writing_write, Hw.
  - intros [] _. split; [eapply writing_write, Hw|done].
Qed.

(** After the flush of the parent that follows the rename. *)
Definition in_place (s : fs) : Prop := replaced p o D c s /\ (D -> settled s p (Some c)).

Lemma fsync_pre_triple i :
  triple Safe (fun s _ => written p t o D i c s) (sys_fsync_dir (path_Dir p)) (fun _ s _ => ready p t o D i c s).
Proof.
  apply triple_syscall. intros s ws Hw. pose proof (written_flush p t o D Hdir i c s Hw) as Hr.
  pose proof Hw as [Hw1 _]. pose proof Hr as [[Hr1 _] _].
  split; [intros n; by eapply writing_safe|]. split; [by eapply writing_safe|done].
Qed.

Lemma rename_triple i :
  triple Safe (fun s _ => ready p t o D i c s) (sys_rename t p) (fun _ s _ => replaced p o D c s).
Proof.
  apply triple_syscall. intros s ws Hr. pose proof Hr as [[Hr1 _] _].
  split; [intros n; by eapply writing_safe|].
  destruct (file_at s t); [|simpl; split; [by eapply writing_safe|done]].
  destruct (is_dir s p); [simpl; split; [by eapply writing_safe|done]|].
  destruct (is_dir s (path_Dir p)); [|simpl; split; [by eapply writing_safe|done]].
  simpl. pose proof (ready_rename p t o D i c s Hr). split; [by eapply replaced_old_or_new|done].
Qed.

Lemma fsync_post_triple :
  triple Safe (fun s _ => replaced p o D c s) (sys_fsync_dir (path_Dir p)) (fun _ s _ => in_place s).
Proof.
  apply triple_syscall. intros s ws Hr. pose proof (replaced_flushed p o D c s Hr) as [Hr' Hd].
  split; [intros n; by eapply replaced_old_or_new|]. split; [by eapply replaced_old_or_new|done].
Qed.

Lemma Close_triple h i :
  triple Safe (fun s ws => writing p t o D i c s /\ open_on h i ws) (Close r h) (fun _ s _ => in_place s).
Proof.
  unfold Close. eapply triple_get_writer; [intros s ws [_ Ho]; exact Ho|].
  cbn [w_closed w_file w_tmpAbs w_finalAbs].
  eapply triple_bind; [apply (triple_set_closed _ (writing p t o D i c)); by intros s ws [Hw _]|]. intros [].
  eapply triple_bind.
  { apply triple_try, (triple_syscall _ _ _ _ (fun _ s _ => written p t o D i c s)). intros s ws Hw.
    pose proof (writing_sync p t o D i c s Hw) as Hs. pose proof Hs as [Hs1 _].
    split; [intros n; by eapply writing_safe|]. split; [by eapply writing_safe|done]. }
  intros [[]|err]; [|eapply triple_bind; [apply triple_try, (triple_pure_call _ (fun s _ => Safe s)); auto|];
    intros x; apply triple_throw; by destruct x].
  assert (Hws : forall s (ws : wmap), written p t o D i c s -> Safe s) by (intros s ws [Hw _]; by eapply writing_safe).
  eapply triple_bind; [apply triple_try, (triple_hook _ _ (fun s _ => written p t o D i c s)), Hws|].
  intros [[]|err]; [|eapply triple_bind; [apply triple_try, (triple_pure_call _ (fun s _ => Safe s)); auto|];
    intros x; apply triple_throw; by destruct x].
  eapply triple_bind; [apply triple_wrapping, (triple_pure_call _ (fun s _ => written p t o D i c s)); eauto|].
  intros []. eapply triple_bind; [apply triple_hook, Hws|].
  intros []. eapply triple_bind; [apply triple_wrapping, (triple_pure_call _ (fun s _ => written p t o D i c s)); eauto|].
  intros []. eapply triple_bind; [apply triple_hook, Hws|].
  intros []. eapply triple_bind; [apply triple_wrapping, fsync_pre_triple|].
  intros []. eapply triple_bind; [apply triple_hook; intros s ws [Hw _]; by apply (Hws s ws)|].
  intros []. eapply triple_bind; [apply triple_wrapping, rename_triple|].
  intros []. eapply triple_bind; [apply triple_hook; intros s ws; apply replaced_old_or_new|].
  intros []. eapply triple_bind; [apply triple_wrapping, fsync_post_triple|].
  intros []. apply triple_hook. intros s ws [Hr _]. by eapply replaced_old_or_new.
Qed.
End replace.


(** The steps of [writeStorageFileAtomic] when it returns nil. *)
Lemma writeStorageFileAtomic_steps r rel data (w w' : machine) :
  writeStorageFileAtomic (H:=posix_backend r) rel data w = (Ok tt, w') ->
  exists h w1 w2, Put r rel w = (Ok h, w1) /\ Write h data w1 = (Ok tt, w2) /\ Close r h w2 = (Ok tt, w').
Proof.
  unfold writeStorageFileAtomic, bind, try, throw. cbn [be_Put be_Write be_Close posix_backend].
  destruct (Put r rel w) as [[h|e] w1]; [|done]. destruct (Write h data w1) as [[[]|e] w2] eqn:E2; [|by destruct (Close r h w2)].
  intros E3. by exists h, w1, w2.
Qed.

(** C11: a file that [writeStorageFileAtomic] has written on the POSIX driver is durable: once it has returned nil the
    bytes are what a reader finds and what any crash leaves, provided the directories above the file
    are durable already ([before], with [rooted]; the driver does not make those it creates durable,
    [Put_new_directory_not_durable]). *)
Theorem writeStorageFileAtomic_durable r rel p o data w w' :
  HasPrefix (root r) "/" = true -> abs r rel = Ok p ->
  before p (tmp_of p) o True (m_fs w) -> writeStorageFileAtomic (H:=posix_backend r) rel data w = (Ok tt, w') ->
  content (m_fs w') p = Some data /\
  forall cnt junk, crash_ok cnt (m_fs w') -> crash_content (m_fs w') cnt junk p = Some data.
Proof.
  intros Hroot Habs Hb (h & w1 & w2 & E1 & E2 & E3)%writeStorageFileAtomic_steps.
  destruct (Put_triple r rel p o True data Habs w _ w1 Hb E1) as [_ (i & Hw1 & Ho1)].
  destruct (Write_triple p o True data h i "" data w1 _ w2 (conj Hw1 Ho1) E2) as [_ Hw2].
  destruct (Close_triple r rel p o True data Hroot Habs h i w2 _ w' Hw2 E3) as [_ [[Hwf _] Hs]].
  split; [by apply settled_now, Hs|]. intros cnt junk Hok. by apply settled_content; [apply Hs|].
Qed.

(** ** [Commit] *)

Section commit.
Context (r : driver) (tmp final t f : string) (c : string)
        (Ht : abs r tmp = Ok t) (Hf : abs r final = Ok f) (Hne : t <> f).

Lemma commit_rename_triple :
  triple (one_of t f c) (fun s _ => staged t f c s) (sys_rename t f) (fun _ s _ => moved t f c s).
Proof.
  apply triple_syscall. intros s ws Hs. split; [intros n; by apply staged_one_of|].
  destruct (file_at s t); [|simpl; split; [by apply staged_one_of|done]].
  destruct (is_dir s f); [simpl; split; [by apply staged_one_of|done]|].
  destruct (is_dir s (path_Dir f)); [|simpl; split; [by apply staged_one_of|done]].
  simpl. pose proof (staged_move t f c Hne s Hs). split; [by apply moved_one_of|done].
Qed.

Definition committed (s : fs) : Prop := moved t f c s /\ settled s f (Some c).

Lemma commit_fsync_triple :
  triple (one_of t f c) (fun s _ => moved t f c s) (sys_fsync_dir (path_Dir f)) (fun _ s _ => committed s).
Proof.
  apply triple_syscall. intros s ws Hm. destruct (moved_flush t f c s Hm) as (Hm' & Hs & _).
  split; [intros n; by apply moved_one_of|]. split; [by apply moved_one_of|done].
Qed.

Lemma Commit_triple :
  triple (one_of t f c) (fun s _ => staged t f c s) (Commit r tmp final) (fun _ s _ => committed s).
Proof.
  unfold Commit. rewrite Ht, Hf. unfold of_result.
  change (fun w : machine => (Ok t, w)) with (ret (W:=machine) t).
  change (fun w : machine => (Ok f, w)) with (ret (W:=machine) f). rewrite !bind_ret_l.
  assert (Hm : forall s (ws : gmap nat pwriter), moved t f c s -> one_of t f c s) by (intros; by apply moved_one_of).
  eapply triple_bind.
  { apply (triple_try_pure_call _ (fun s _ => staged t f c s)); [|intros s ws; by apply staged_one_of].
    intros s. destruct (file_at s f); [done|]. by destruct (is_dir s f). }
  intros [n|err]; cbn beta iota.
  { apply triple_throw. intros s ws. by apply staged_one_of. }
  destruct (negb _); [apply triple_throw; intros s ws; by apply staged_one_of|].
  eapply triple_bind; [apply triple_wrapping, commit_rename_triple|].
  intros []. eapply triple_bind; [apply triple_hook, Hm|].
  intros []. eapply triple_bind; [apply triple_wrapping, (triple_pure_call _ (fun s _ => moved t f c s)); eauto|].
  intros []. eapply triple_bind; [apply triple_wrapping, commit_fsync_triple|].
  intros []. apply triple_hook. intros s ws [? _]. by apply moved_one_of.
Qed.
End commit.

(** C12: [Commit] moves the file as a whole. Whatever fails and whenever the machine stops,
    the bytes are under exactly one of the two names; when it returns nil they are under
    the final one for good. *)
Theorem Commit_crash_atomic r tmp final t f c w res w' :
  abs r tmp = Ok t -> abs r final = Ok f -> t <> f -> staged t f c (m_fs w) ->
  Commit r tmp final w = (res, w') ->
  (exists tr, m_trace w' = m_trace w ++ tr /\
    forall s cnt junk, s ∈ tr -> crash_ok cnt s ->
      (crash_content s cnt junk t = Some c /\ crash_content s cnt junk f = None) \/
      (crash_content s cnt junk t = None /\ crash_content s cnt junk f = Some c)) /\
  (res = Ok tt -> content (m_fs w') f = Some c /\
    forall cnt junk, crash_ok cnt (m_fs w') -> crash_content (m_fs w') cnt junk f = Some c).
Proof.
  intros Ht Hf Hne Hst Hrun.
  destruct (Commit_triple r tmp final t f c Ht Hf Hne w res w' Hst Hrun) as [(tr & Htr & Hs) Hr]. split.
  - exists tr. split; [done|]. intros s cnt junk Hin. rewrite Forall_forall in Hs. by apply Hs.
  - intros ->. destruct Hr as [[Hw _] Hset]. split; [by apply settled_now|].
    intros cnt junk Hok. by apply settled_content.
Qed.

(** [Commit] refuses to overwrite: with something at the final name it fails, with
    [os.ErrExist] unless [Stat] itself fails, and changes nothing. *)
Theorem Commit_refuses_overwrite r tmp final t f w res w' :
  abs r tmp = Ok t -> abs r final = Ok f ->
  is_Some (file_at (m_fs w) f) \/ is_dir (m_fs w) f = true -> Commit r tmp final w = (res, w') ->
  m_fs w' = m_fs w /\ exists e, res = Fail e /\ (errors_Is e OsErrExist = true \/ res = Fail (Errorf_w "posix: stat final" io_error)).
Proof.
  intros Ht Hf Hex. unfold Commit. rewrite Ht, Hf. unfold of_result, bind, try, sys_stat, syscall.
  assert (Hrun : exists n, (match file_at (m_fs w) f with
      | Some i => (Ok (Z.of_nat (slen (file_data (m_fs w) i))), m_fs w)
      | None => if is_dir (m_fs w) f then (Ok 4096, m_fs w) else (Fail not_exist, m_fs w)
      end) = (Ok n, m_fs w)).
  { destruct Hex as [[i ->]| ->]; [eauto|]. destruct (file_at (m_fs w) f); eauto. }
  destruct Hrun as [n ->].
  destruct (m_faults w) as [|[|k] fl]; cbn; intros [= <- <-]; cbn; eauto 10.
Qed.

(** ** Confinement to the root *)

Lemma clean_go_app rooted acc l1 l2 :
  clean_go rooted acc (l1 ++ l2) = clean_go rooted (rev (clean_go rooted acc l1)) l2.
Proof.
  revert acc. induction l1 as [|s l1 IH]; intros acc; cbn [app clean_go]; [by rewrite rev_involutive|].
  destruct (_ || _); [apply IH|]. destruct (String.eqb s ".."); [|apply IH].
  destruct acc as [|top acc]; [apply IH|]. destruct (String.eqb top ".."); apply IH.
Qed.

(** A [".."] at the bottom of a relative path stays there. *)
Lemma clean_go_bottom acc segs : exists l, clean_go false (acc ++ [".."]) segs = ".." :: l.
Proof.
  revert acc. induction segs as [|s segs IH]; intros acc; cbn [clean_go].
  - rewrite rev_app_distr. by eexists.
  - destruct (_ || _); [apply IH|]. destruct (String.eqb s ".."); [|apply (IH (s :: acc))].
    destruct acc as [|top acc]; cbn [app].
    + apply (IH [".."]).
    + destruct (String.eqb top ".."); [apply (IH (".." :: top :: acc))|apply IH].
Qed.

Definition no_dotdot (l : list string) : Prop := Forall (fun s => s <> "..") l.

(** A relative walk that does not climb above its start does the same below any directory. *)
Lemma clean_go_below A B segs :
  no_dotdot B -> hd "" (clean_go false B segs) <> ".." ->
  clean_go true (B ++ A) segs = rev A ++ clean_go false B segs.
Proof.
  revert B. induction segs as [|s segs IH]; intros B HB; cbn [clean_go].
  - intros _. by rewrite rev_app_distr.
  - destruct (_ || _); [by apply IH|]. destruct (String.eqb_spec s "..") as [->|Hs].
    + destruct B as [|top B]; cbn [app].
      * intros Hhd. destruct (clean_go_bottom [] segs) as [l Hl]. cbn [app] in Hl. by rewrite Hl in Hhd.
      * apply Forall_cons in HB as [Htop HB]. apply String.eqb_neq in Htop as ->. by apply IH.
    + apply (IH (s :: B)). by constructor.
Qed.

Lemma clean_go_no_dotdot acc segs :
  no_dotdot acc -> no_dotdot segs -> no_dotdot (clean_go false acc segs).
Proof.
  revert acc. induction segs as [|s segs IH]; intros acc Ha Hs; cbn [clean_go].
  - apply Forall_forall. intros x Hx. rewrite elem_of_reverse || idtac.
    unfold no_dotdot in Ha. rewrite Forall_forall in Ha. apply Ha. apply list_elem_of_In, in_rev, list_elem_of_In. exact Hx.
  - apply Forall_cons in Hs as [Hs0 Hs]. destruct (_ || _); [by apply IH|].
    apply String.eqb_neq in Hs0 as E. rewrite E. apply IH; [by constructor|done].
Qed.

Lemma IsLocal_no_climb rel :
  IsLocal rel = true ->
  HasPrefix rel "/" = false /\ rel <> "" /\ hd "" (clean_go false [] (Split rel "/")) <> "..".
Proof.
  unfold IsLocal. destruct (HasPrefix rel "/") eqn:Hp; [done|]. destruct (String.eqb_spec rel "") as [|Hne]; [done|].
  cbn [orb]. intros H. split_and!; [done..|].
  destruct (existsb _ (Split rel "/")) eqn:Hd.
  - apply negb_true_iff, orb_false_iff in H as [H1 H2]. unfold Clean in H1, H2. rewrite Hp in H1, H2.
    destruct (clean_go false [] (Split rel "/")) as [|x [|y l]] eqn:Ec; cbn [hd]; [done|..]; intros ->; [done|].
    change (Join (".." :: y :: l) "/") with (".." +:+ "/" +:+ Join (y :: l) "/") in H2.
    change (".." +:+ "/" +:+ Join (y :: l) "/") with ("../" +:+ Join (y :: l) "/") in H2.
    rewrite (proj2 (String.eqb_neq _ "")) in H2 by done. by rewrite HasPrefix_app in H2.
  - assert (Hn : no_dotdot (Split rel "/")).
    { apply Forall_forall. intros s Hs ->. apply not_true_iff_false in Hd. apply Hd.
      apply existsb_exists. exists "..". split; [by apply list_elem_of_In|done]. }
    pose proof (clean_go_no_dotdot [] (Split rel "/") ltac:(constructor) Hn) as Hc.
    destruct (clean_go false [] (Split rel "/")) as [|x l]; [done|]. by apply Forall_cons in Hc as [? _].
Qed.

Lemma Join_app l m : l <> [] -> m <> [] -> Join (l ++ m) "/" = Join l "/" +:+ "/" +:+ Join m "/".
Proof.
  intros Hl Hm. induction l as [|x l IH]; [done|]. destruct l as [|y l].
  - cbn [app Join]. destruct m as [|z m]; [done|]. done.
  - change (Join ((x :: y :: l) ++ m) "/") with (x +:+ "/" +:+ Join ((y :: l) ++ m) "/").
    rewrite IH by done. change (Join (x :: y :: l) "/") with (x +:+ "/" +:+ Join (y :: l) "/").
    by rewrite !sapp_assoc.
Qed.

(** A rooted clean path, and the walk below it. *)
Lemma Clean_walk L rel :
  L <> [] -> forallb plain_seg L = true -> rel <> "" -> hd "" (clean_go false [] (Split rel "/")) <> ".." ->
  path_Join ["/" +:+ Join L "/"; rel] = "/" +:+ Join (L ++ clean_go false [] (Split rel "/")) "/".
Proof.
  intros HL Hplain Hre Hhd.
  unfold path_Join. rewrite !filter_cons, filter_nil, decide_True by done.
  rewrite decide_True by (apply Is_true_true, negb_true_iff, String.eqb_neq, Hre).
  change (Join ["/" +:+ Join L "/"; rel] "/") with (String "/" (Join L "/" +:+ String "/" rel)).
  unfold Clean. rewrite HasPrefix_cons, HasPrefix_nil. cbn [andb Ascii.eqb Bool.eqb].
  change (String "/" (Join L "/" +:+ String "/" rel)) with ("" +:+ String "/" (Join L "/" +:+ String "/" rel)).
  rewrite Split_app by done. rewrite Split_app_any, Split_Join.
  - f_equal. f_equal. change ("" :: L ++ Split rel "/") with (("" :: L) ++ Split rel "/").
    rewrite clean_go_app.
    change (clean_go true [] ("" :: L)) with (clean_go true [] L). rewrite (plain_seg_clean true [] L) by done. cbn [rev app].
    pose proof (clean_go_below (rev L) [] (Split rel "/") ltac:(constructor) Hhd) as H. cbn [app] in H.
    by rewrite H, rev_involutive.
  - done.
  - rewrite forallb_forall in *. intros x Hx. specialize (Hplain x Hx). unfold plain_seg in Hplain.
    rewrite !andb_true_iff in Hplain. tauto.
Qed.

(** It ends at the directory or below it. *)
Lemma walk_below L rel :
  L <> [] -> forallb plain_seg L = true -> rel <> "" -> hd "" (clean_go false [] (Split rel "/")) <> ".." ->
  path_Join ["/" +:+ Join L "/"; rel] = "/" +:+ Join L "/" \/
  HasPrefix (path_Join ["/" +:+ Join L "/"; rel]) ("/" +:+ Join L "/" +:+ "/") = true.
Proof.
  intros HL Hpl Hre Hhd. rewrite (Clean_walk L rel HL Hpl Hre Hhd). destruct (clean_go false [] (Split rel "/")) as [|x M] eqn:EM.
  - left. by rewrite app_nil_r.
  - right. rewrite Join_app by done. apply HasPrefix_spec. exists (Join (x :: M) "/"). by rewrite !sapp_assoc.
Qed.

(** No key leads outside the storage: a path the driver accepts is the root itself or
    below it, whatever [.] and [..] it is written with. *)
Theorem abs_confined opts r rel p :
  New opts = Ok r -> root r <> "/" -> abs r rel = Ok p ->
  p = root r \/ HasPrefix p (root r +:+ "/") = true.
Proof.
  unfold New. destruct (String.eqb (opt_Root opts) ""); [done|].
  destruct (HasPrefix (opt_Root opts) "/") eqn:Hp; [|done]. cbn [negb]. intros [= <-]. cbn [root].
  assert (Hc : Clean (opt_Root opts) = "/" +:+ Join (clean_go true [] (Split (opt_Root opts) "/")) "/")
    by (unfold Clean; by rewrite Hp).
  unfold abs. cbn [root]. rewrite Hc.
  pose proof (clean_go_rooted_plain [] (Split (opt_Root opts) "/") eq_refl (Split_segs_no_byte _ _)) as Hpl.
  set (L := clean_go true [] (Split (opt_Root opts) "/")) in *. intros Hroot.
  assert (HL : L <> []) by (by intros E; rewrite E in Hroot).
  destruct (IsLocal rel) eqn:Hl; [|done]. cbn [negb]. intros [= <-]. destruct (IsLocal_no_climb rel Hl) as (_ & Hre & Hhd).
  exact (walk_below L rel HL Hpl Hre Hhd).
Qed.

(** ** A concrete machine *)

Definition sample_driver : driver := Driver "/r" None.

Definition sample_fs : fs :=
  FS (NS {["/r/a" := 0%nat; "/r/b" := 1%nat]} {["/r"]}) [] ∅ {[0%nat := "old"; 1%nat := "staged"]}
     {[0%nat := "old"; 1%nat := "staged"]} 2.

Definition sample_machine (faults : list fault) : machine := Machine sample_fs ∅ 0 faults [].

Lemma sample_wf : wf_fs sample_fs.
Proof. split; [intros d; cbn [sample_fs fs_flushed]; rewrite lookup_empty; cbn; lia|done]. Qed.

Lemma sample_settled p o :
  match ns_files (fs_base sample_fs) !! p with
  | None => o = None
  | Some i => exists c, o = Some c /\ fs_stable sample_fs !! i = Some c
  end -> (o <> None -> visible (fs_base sample_fs) p) -> settled sample_fs p o.
Proof. intros H Hv cnt _. done. Qed.

Lemma sample_rooted p : visible (fs_base sample_fs) p -> rooted sample_fs p.
Proof. intros H cnt _. done. Qed.

Lemma sample_before D : before "/r/a" (tmp_of "/r/a") (Some "old") D sample_fs.
Proof.
  assert (Hv : visible (fs_base sample_fs) "/r/a") by (apply (bool_decide_unpack _); vm_compute; exact I).
  split_and!; [apply sample_wf|intros _; by apply sample_rooted| |].
  - apply sample_settled; [|done]. exists "old". split; reflexivity.
  - change (apart sample_fs 2 "/r/a"). intros cnt _. by vm_compute.
Qed.

Lemma sample_staged : staged "/r/b" "/r/c" "staged" sample_fs.
Proof.
  assert (Hv : forall p, p = "/r/b" \/ p = "/r/c" -> visible (fs_base sample_fs) p).
  { intros p [-> | ->]; apply (bool_decide_unpack _); vm_compute; exact I. }
  split_and!; [apply sample_wf|apply sample_rooted; auto|apply sample_settled; [|auto]|by apply sample_settled].
  exists "staged". split; reflexivity.
Qed.

Lemma writeStorageFileAtomic_durable_witness :
  let w' := snd (writeStorageFileAtomic (H:=posix_backend sample_driver) "a" "new bytes" (sample_machine [])) in
  content (m_fs w') "/r/a" = Some "new bytes".
Proof.
  intros w'.
  apply (writeStorageFileAtomic_durable sample_driver "a" "/r/a" (Some "old") "new bytes" (sample_machine []));
    [reflexivity|reflexivity|apply sample_before|vm_compute; reflexivity].
Defined.

Lemma Commit_crash_atomic_witness :
  let w' := snd (Commit sample_driver "b" "c" (sample_machine [])) in
  content (m_fs w') "/r/c" = Some "staged".
Proof.
  intros w'.
  apply (Commit_crash_atomic sample_driver "b" "c" "/r/b" "/r/c" "staged" (sample_machine []) (Ok tt));
    [reflexivity|reflexivity|done|apply sample_staged|vm_compute; reflexivity|reflexivity].
Defined.

Lemma Commit_refuses_overwrite_witness :
  let w' := snd (Commit sample_driver "b" "a" (sample_machine [])) in m_fs w' = sample_fs.
Proof.
  intros w'.
  apply (Commit_refuses_overwrite sample_driver "b" "a" "/r/b" "/r/a" (sample_machine [])
    (fst (Commit sample_driver "b" "a" (sample_machine []))));
    [reflexivity|reflexivity|left; eexists; vm_compute; reflexivity|reflexivity].
Defined.

Lemma abs_confined_witness : abs sample_driver "x/../y/./z" = Ok "/r/y/z" /\
  ("/r/y/z" = "/r" \/ HasPrefix "/r/y/z" ("/r" +:+ "/") = true).
Proof.
  split; [vm_compute; reflexivity|].
  apply (abs_confined {| opt_Root := "/r"; opt_Fault := None |} sample_driver "x/../y/./z");
    [reflexivity|done|vm_compute; reflexivity].
Defined.

(** The first file of a new directory is not durable although [Close] returned nil: the
    entry of the directory itself was never flushed. *)
Lemma Put_new_directory_not_durable :
  let run := writeStorageFileAtomic (H:=posix_backend sample_driver) "id/f" "new" (sample_machine []) in
  fst run = Ok tt /\ content (m_fs (snd run)) "/r/id/f" = Some "new" /\
  exists cnt, crash_ok cnt (m_fs (snd run)) /\
    forall junk, crash_content (m_fs (snd run)) cnt junk "/r/id/f" = None.
Proof.
  split; [vm_compute; reflexivity|]. split; [vm_compute; reflexivity|].
  exists (fun d => if String.eqb d "/r/id" then 2%nat else 0%nat). split.
  - intros d. assert (E : fs_flushed (m_fs (snd (writeStorageFileAtomic (H:=posix_backend sample_driver) "id/f" "new" (sample_machine [])))) =
      {["/r/id" := 2%nat]}) by (vm_compute; reflexivity). rewrite E.
    destruct (String.eqb_spec d "/r/id") as [->|Hne].
    + by rewrite lookup_singleton_eq.
    + by rewrite lookup_singleton_ne by congruence.
  - intros junk. vm_compute. reflexivity.
Qed.

(** [Close] after a failed write puts what was written so far under the final name, and [writeStorageFileAtomic] closes
    on its error path: the run fails, and the file that was there is replaced by a torn one. *)
Lemma Close_after_failed_write :
  let run := writeStorageFileAtomic (H:=posix_backend sample_driver) "a" "new bytes" (sample_machine [Pass; Pass; Break 3]) in
  isOk (fst run) = false /\ content sample_fs "/r/a" = Some "old" /\ content (m_fs (snd run)) "/r/a" = Some "new".
Proof. vm_compute. split_and!; reflexivity. Qed.
