(* ===== verification/PageChecksum.v ===== *)
(** * Page checksums

    [internal/filter/pagechecksum/pagechecksum.go]: the checksum of a page and the
    reader that validates every full page of a stream. *)

From S2P Require Import Prelude.

(** [PageSize] and [pdChecksumOffset] *)
Definition PageSize : Z := 8192.
Definition pdChecksumOffset : nat := 8.

(** [Mode] *)
Inductive Mode := ModeOff | ModeStrict | ModeLax.

#[export] Instance Mode_eq_dec : EqDecision Mode.
Proof. solve_decision. Defined.

Definition fnvPrime : Z := 16777619.

(** The initial value of every lane. *)
Definition initial_sums : list Z :=
  [0x5B1F36E9; 0xB8525960; 0x02AB50AA; 0x1DE66D2A; 0x79F69E38; 0xD3125981; 0x6F03892E; 0xCDC9F0CC;
   0x88FB22B8; 0x21C18988; 0x2D02E5C8; 0x99025930; 0xA146C8C0; 0x3E59BFC2; 0x49C1F2BE; 0x9559E40D;
   0x4A11D5D7; 0xCE6E0066; 0xC52E50CB; 0x70CC67E1; 0x5C92AB78; 0x32E08C7F; 0xE0AAEFE0; 0x99853D2F;
   0x812DD8E2; 0xCC2B252A; 0xCA1C53FB; 0xCC2D8569; 0x07AAB95B; 0x0FA2DEB6; 0xCBC11FE9; 0xCD83BAB8].

(** [(x * fnvPrime) ^ (x >> 17)] on 32 bits. *)
Definition fnv_mix (x : Z) : Z := Z.lxor (u32 (x * fnvPrime)) (Z.shiftr x 17).

(** One pass of the inner loop: every lane takes one word. *)
Fixpoint mix_lanes (sums : list Z) (work : string) : list Z * string :=
  match sums with
  | [] => ([], work)
  | s :: sums' =>
      let tmp := Z.lxor s (le_uint 4 work) in
      let '(rest, work') := mix_lanes sums' (sdrop 4 work) in
      (fnv_mix tmp :: rest, work')
  end.

(** The outer loop. *)
Fixpoint mix_words (passes : nat) (sums : list Z) (work : string) : list Z :=
  match passes with
  | O => sums
  | S k => let '(sums, work) := mix_lanes sums work in mix_words k sums work
  end.

(** The page with the two bytes of the checksum set to [field]. *)
Definition with_checksum (field page : string) : string :=
  stake pdChecksumOffset page +:+ field +:+ sdrop (pdChecksumOffset + 2) page.

Definition zero_field : string := String (byte_of 0) (String (byte_of 0) "").

(** [computePageChecksum] *)
Definition computePageChecksum (page : string) (blkNo : Z) : Z :=
  if negb (Z.of_nat (slen page) =? PageSize) then 0
  else
    let work := with_checksum zero_field page in
    let sums := mix_words 64 initial_sums work in
    let sums := fnv_mix <$> sums in
    let result := foldl Z.lxor 0 sums in
    let result := Z.lxor result blkNo in
    u16 (u16 (result mod 65535) + 1).

(** [Validator]; the reader it wraps is what the caller feeds. *)
Record Validator := {
  v_mode : Mode;
  v_pageSize : Z;
  v_buf : string;
  v_page : Z;
}.

(** [New] *)
Definition New (mode : Mode) (pageSize : Z) : Validator :=
  {| v_mode := mode; v_pageSize := if pageSize <=? 0 then PageSize else pageSize;
     v_buf := ""; v_page := 0 |}.

(** [validatePage] *)
Definition validatePage (v : Validator) (page : string) : result unit :=
  let stored := le_uint 2 (sdrop pdChecksumOffset page) in
  if stored =? 0 then Ok tt
  else
    let got := computePageChecksum page (u32 (v_page v)) in
    if negb (got =? stored)
    then Fail (errors_Sentinel ErrChecksumMismatch "page checksum mismatch")
    else Ok tt.

Definition set_buf (v : Validator) (buf : string) (page : Z) : Validator :=
  {| v_mode := v_mode v; v_pageSize := v_pageSize v; v_buf := buf; v_page := page |}.

(** The loop of [Read] over the full pages of the buffer. *)
Fixpoint validate_pages (fuel : nat) (v : Validator) : option error * Validator :=
  match fuel with
  | O => (None, v)
  | S fuel' =>
      let n := Z.to_nat (v_pageSize v) in
      if v_pageSize v <=? Z.of_nat (slen (v_buf v)) then
        match validatePage v (stake n (v_buf v)) with
        | Fail cerr => (Some cerr, v)
        | Ok _ => validate_pages fuel' (set_buf v (sdrop n (v_buf v)) (v_page v + 1))
        end
      else (None, v)
  end.

(** [Read], when the wrapped reader returns [chunk] and [err]. *)
Definition Read (v : Validator) (chunk : string) (err : option error)
  : string * option error * Validator :=
  if negb (bool_decide (v_mode v = ModeOff)) && (0 <? slen chunk)%nat then
    let v := set_buf v (v_buf v +:+ chunk) (v_page v) in
    match validate_pages (slen (v_buf v)) v with
    | (Some cerr, v) => (chunk, Some cerr, v)
    | (None, v) => (chunk, err, v)
    end
  else (chunk, err, v).

(** A consumer that reads chunk after chunk and stops at the first error. *)
Fixpoint read_all (v : Validator) (chunks : list string) : option error :=
  match chunks with
  | [] => None
  | c :: chunks' =>
      match Read v c None with
      | (_, Some e, _) => Some e
      | (_, None, v) => read_all v chunks'
      end
  end.

(** ** The checksum *)

Lemma computePageChecksum_range page blk :
  Z.of_nat (slen page) = PageSize -> 1 <= computePageChecksum page blk < 2 ^ 16.
Proof.
  intros Hl. unfold computePageChecksum. rewrite Hl, Z.eqb_refl. cbn [negb].
  set (x := Z.lxor _ blk). clearbody x. unfold u16.
  pose proof (Z.mod_pos_bound x 65535). rewrite (Z.mod_small (x mod 65535)) by lia.
  rewrite Z.mod_small by lia. lia.
Qed.

Lemma with_checksum_field f g page :
  slen f = 2%nat -> slen g = 2%nat -> (10 <= slen page)%nat ->
  with_checksum g (with_checksum f page) = with_checksum g page.
Proof.
  intros Hf Hg Hp. unfold with_checksum at 1 3. 
  assert (Hs : slen (stake pdChecksumOffset page) = pdChecksumOffset) by (rewrite slen_take; unfold pdChecksumOffset; lia).
  unfold with_checksum. f_equal; [|f_equal].
  - rewrite <- Hs at 1. apply stake_app.
  - rewrite <- sapp_assoc.
    assert (Hl : slen (stake pdChecksumOffset page +:+ f) = (pdChecksumOffset + 2)%nat) by (rewrite slen_app; lia).
    rewrite <- Hl at 1. apply sdrop_app.
Qed.

Lemma slen_with_checksum f page : slen f = 2%nat -> (10 <= slen page)%nat -> slen (with_checksum f page) = slen page.
Proof.
  intros Hf Hp. unfold with_checksum. rewrite !slen_app, slen_take, slen_drop, Hf. unfold pdChecksumOffset. lia.
Qed.

Lemma sdrop_checksum f page : slen f = 2%nat -> (10 <= slen page)%nat ->
  sdrop pdChecksumOffset (with_checksum f page) = f +:+ sdrop (pdChecksumOffset + 2) page.
Proof.
  intros Hf Hp. unfold with_checksum.
  assert (Hs : slen (stake pdChecksumOffset page) = pdChecksumOffset) by (rewrite slen_take; unfold pdChecksumOffset; lia).
  rewrite <- Hs at 1. apply sdrop_app.
Qed.

(** What [validatePage] accepts as page number [blk]. *)
Definition page_ok (blk : Z) (page : string) : Prop :=
  let stored := le_uint 2 (sdrop pdChecksumOffset page) in
  stored = 0 \/ computePageChecksum page (u32 blk) = stored.

Lemma validatePage_ok v page : validatePage v page = Ok tt <-> page_ok (v_page v) page.
Proof.
  unfold validatePage, page_ok. cbv zeta. set (stored := le_uint 2 _).
  destruct (Z.eqb_spec stored 0); [tauto|].
  destruct (Z.eqb_spec (computePageChecksum page (u32 (v_page v))) stored); simpl; intuition congruence.
Qed.

(** Writing the computed checksum into a page makes the page valid, whatever was in the
    field before: the checksum does not depend on its own field, and is never zero, the
    value that means it is absent. *)
Theorem sealed_page_valid page blk :
  Z.of_nat (slen page) = PageSize ->
  let sealed := with_checksum (put_le 2 (computePageChecksum page (u32 blk))) page in
  le_uint 2 (sdrop pdChecksumOffset sealed) <> 0 /\ page_ok blk sealed.
Proof.
  intros Hl sealed. pose proof (computePageChecksum_range page (u32 blk) Hl) as Hr.
  assert (Hp : (10 <= slen page)%nat) by (unfold PageSize in Hl; lia).
  assert (Hf : slen (put_le 2 (computePageChecksum page (u32 blk))) = 2%nat) by apply slen_put_le.
  assert (Hstored : le_uint 2 (sdrop pdChecksumOffset sealed) = computePageChecksum page (u32 blk)).
  { unfold sealed. rewrite sdrop_checksum by done. apply le_uint_put. cbn. lia. }
  split; [lia|]. right. rewrite Hstored. unfold computePageChecksum at 1, sealed.
  rewrite slen_with_checksum, with_checksum_field by done. done.
Qed.

(** ** The reader *)

Section reader.
Context (mode : Mode) (ps : Z) (Hps : 0 < ps).

Definition at_page (buf : string) (page : Z) : Validator :=
  {| v_mode := mode; v_pageSize := ps; v_buf := buf; v_page := page |}.

(** Pages one after the other from page number [page]. *)
Lemma validate_pages_step fuel buf page :
  validate_pages (S fuel) (at_page buf page) =
  if ps <=? Z.of_nat (slen buf) then
    match validatePage (at_page "" page) (stake (Z.to_nat ps) buf) with
    | Fail cerr => (Some cerr, at_page buf page)
    | Ok _ => validate_pages fuel (at_page (sdrop (Z.to_nat ps) buf) (page + 1))
    end
  else (None, at_page buf page).
Proof. done. Qed.

Lemma validate_pages_fuel f g buf page :
  (slen buf <= f)%nat -> (slen buf <= g)%nat ->
  validate_pages f (at_page buf page) = validate_pages g (at_page buf page).
Proof.
  revert g buf page. induction f as [|f IH]; intros [|g] buf page Hf Hg; [done| | |].
  - rewrite validate_pages_step. destruct (Z.leb_spec ps (Z.of_nat (slen buf))); [lia|done].
  - rewrite validate_pages_step. destruct (Z.leb_spec ps (Z.of_nat (slen buf))); [lia|done].
  - rewrite !validate_pages_step. destruct (Z.leb_spec ps (Z.of_nat (slen buf))); [|done].
    case_match; [|done]. apply IH; rewrite slen_drop; lia.
Qed.

Lemma validate_pages_shape f buf page :
  let v := snd (validate_pages f (at_page buf page)) in v = at_page (v_buf v) (v_page v).
Proof.
  revert buf page. induction f as [|f IH]; intros buf page; [done|]. rewrite validate_pages_step.
  case_match; [|done]. case_match; [apply IH|done].
Qed.

(** Validating a buffer and then what follows it is validating both together. *)
Lemma validate_pages_app f g h buf page more :
  (slen buf <= f)%nat -> (slen (buf +:+ more) <= g)%nat -> (slen (buf +:+ more) <= h)%nat ->
  validate_pages g (at_page (buf +:+ more) page) =
  match validate_pages f (at_page buf page) with
  | (Some e, v) => (Some e, at_page (v_buf v +:+ more) (v_page v))
  | (None, v) => validate_pages h (at_page (v_buf v +:+ more) (v_page v))
  end.
Proof.
  revert g h buf page. induction f as [|f IH]; intros g h buf page Hf Hg Hh.
  - simpl. by apply validate_pages_fuel.
  - rewrite validate_pages_step. destruct (Z.leb_spec ps (Z.of_nat (slen buf))).
    + rewrite slen_app in Hg, Hh. destruct g as [|g]; [lia|]. rewrite validate_pages_step, slen_app.
      destruct (Z.leb_spec ps (Z.of_nat (slen buf + slen more))); [|lia].
      rewrite stake_app_le, sdrop_app_le by lia. case_match; [|done].
      apply IH; rewrite ?slen_app, ?slen_drop; lia.
    + simpl. by apply validate_pages_fuel.
Qed.

(** The pages of a stream, from page number [page]. *)
Lemma validate_pages_None f buf page :
  (slen buf <= f)%nat ->
  fst (validate_pages f (at_page buf page)) = None <->
  forall k : nat, (Z.of_nat k + 1) * ps <= Z.of_nat (slen buf) ->
    page_ok (page + Z.of_nat k) (stake (Z.to_nat ps) (sdrop (k * Z.to_nat ps) buf)).
Proof.
  revert buf page. induction f as [|f IH]; intros buf page Hf.
  - split; [|done]. intros _ k Hk. nia.
  - rewrite validate_pages_step. destruct (Z.leb_spec ps (Z.of_nat (slen buf))) as [Hle|Hlt].
    2:{ split; [|done]. intros _ k Hk. nia. }
    pose proof (validatePage_ok (at_page "" page) (stake (Z.to_nat ps) buf)) as Hv. cbn [at_page v_page] in Hv.
    destruct (validatePage (at_page "" page) (stake (Z.to_nat ps) buf)) as [[]|e] eqn:E.
    + rewrite IH by (rewrite slen_drop; lia). split.
      * intros H [|k] Hk; [rewrite Z.add_0_r; by apply Hv|].
        specialize (H k). rewrite slen_drop in H. rewrite sdrop_sdrop in H.
        replace (page + Z.of_nat (S k)) with (page + 1 + Z.of_nat k) by lia. apply H. nia.
      * intros H k Hk. rewrite slen_drop in Hk. specialize (H (S k)). rewrite sdrop_sdrop.
        replace (page + 1 + Z.of_nat k) with (page + Z.of_nat (S k)) by lia. apply H. nia.
    + split; [done|]. intros H. specialize (H 0%nat). rewrite Z.add_0_r in H. simpl in H.
      assert (Fail e = Ok tt) by (apply Hv, H; lia). done.
Qed.
End reader.

Lemma Read_active v chunk :
  v_mode v <> ModeOff -> chunk <> "" ->
  Read v chunk None =
  match validate_pages (slen (v_buf v +:+ chunk)) (set_buf v (v_buf v +:+ chunk) (v_page v)) with
  | (Some cerr, v) => (chunk, Some cerr, v)
  | (None, v) => (chunk, None, v)
  end.
Proof.
  intros Hm Hc. unfold Read. rewrite bool_decide_false by done. destruct chunk; [done|]. done.
Qed.

Lemma read_all_pages mode ps chunks buf page :
  0 < ps -> mode <> ModeOff ->
  fst (validate_pages (slen buf) (at_page mode ps buf page)) = None ->
  read_all (snd (validate_pages (slen buf) (at_page mode ps buf page))) chunks =
  fst (validate_pages (slen (buf +:+ Join chunks "")) (at_page mode ps (buf +:+ Join chunks "") page)).
Proof.
  intros Hps Hm. revert buf page. induction chunks as [|c chunks IH]; intros buf page Hnone.
  - cbn [read_all Join]. by rewrite sapp_nil_r.
  - rewrite Join_cons, <- sapp_assoc.
    destruct (validate_pages (slen buf) (at_page mode ps buf page)) as [[e|] v] eqn:Ev; [done|]. cbn [snd].
    assert (Hv : v = at_page mode ps (v_buf v) (v_page v)).
    { pose proof (validate_pages_shape mode ps (slen buf) buf page) as Hs. by rewrite Ev in Hs. }
    pose proof (validate_pages_app mode ps Hps (slen buf) (slen (buf +:+ c)) (slen (buf +:+ c) + slen (v_buf v +:+ c))
      buf page c) as Happ. rewrite Ev in Happ. specialize (Happ ltac:(lia) ltac:(lia) ltac:(lia)).
    rewrite (validate_pages_fuel mode ps Hps (slen (buf +:+ c) + slen (v_buf v +:+ c)) (slen (v_buf v +:+ c))) in Happ by lia.
    destruct (decide (c = "")) as [->|Hc].
    + rewrite !sapp_nil_r in *. cbn [read_all Read]. unfold Read. rewrite andb_false_r.
      rewrite <- (IH buf page); [by rewrite Ev|by rewrite Ev].
    + cbn [read_all]. destruct v as [vm vp vb vk]. cbn [at_page v_buf v_page] in Hv. injection Hv as -> ->.
      rewrite Read_active by done. cbn [v_buf v_page] in *.
      change (set_buf _ (vb +:+ c) vk) with (at_page mode ps (vb +:+ c) vk). rewrite <- Happ. destruct (validate_pages (slen (buf +:+ c)) (at_page mode ps (buf +:+ c) page)) as [[e|] v'] eqn:E2.
      * symmetry. rewrite (validate_pages_app mode ps Hps (slen (buf +:+ c)) _ (slen ((buf +:+ c) +:+ Join chunks "") + slen (v_buf v' +:+ Join chunks ""))) by lia.
        by rewrite E2.
      * rewrite <- (IH (buf +:+ c) page); [by rewrite E2|by rewrite E2].
Qed.

(** The reader accepts a stream exactly when every full page of it, numbered from the
    start of the file, is valid, however the stream is cut into reads; a page cut short at
    the end is not looked at. *)
Theorem read_all_spec mode ps chunks :
  mode <> ModeOff -> 0 < ps ->
  read_all (New mode ps) chunks = None <->
  forall k : nat, (Z.of_nat k + 1) * ps <= Z.of_nat (slen (Join chunks "")) ->
    page_ok (Z.of_nat k) (stake (Z.to_nat ps) (sdrop (k * Z.to_nat ps) (Join chunks ""))).
Proof.
  intros Hm Hps. unfold New. destruct (Z.leb_spec ps 0); [lia|].
  pose proof (read_all_pages mode ps chunks "" 0 Hps Hm eq_refl) as Hrp. cbn in Hrp.
  change {| v_mode := mode; v_pageSize := ps; v_buf := ""; v_page := 0 |} with (at_page mode ps "" 0). rewrite Hrp.
  rewrite validate_pages_None by lia. done.
Qed.

(** The page size is a knob that only works at its default: with any other size every
    page that carries a checksum is rejected, since the checksum of a page that is not
    8192 bytes long is zero. *)
Theorem page_size_knob_rejects page blk :
  Z.of_nat (slen page) <> PageSize -> le_uint 2 (sdrop pdChecksumOffset page) <> 0 -> ~ page_ok blk page.
Proof.
  intros Hl Hs [H|H]; [done|]. unfold computePageChecksum in H.
  apply Z.eqb_neq in Hl. rewrite Hl in H. cbn [negb] in H. congruence.
Qed.

(** ** Concrete pages *)

(** A page of zeroes, its block number two. *)
Definition blank_page : string := repeat_byte (Z.to_nat PageSize) (byte_of 0).

Lemma slen_blank_page : Z.of_nat (slen blank_page) = PageSize.
Proof. unfold blank_page. rewrite slen_repeat, Z2Nat.id; [done|unfold PageSize; lia]. Qed.

Lemma sealed_page_valid_witness :
  page_ok 2 (with_checksum (put_le 2 (computePageChecksum blank_page (u32 2))) blank_page).
Proof. apply (sealed_page_valid blank_page 2). apply slen_blank_page. Defined.

(** Two short pages, the second with a checksum that cannot be right, in two reads. *)
Lemma read_all_spec_witness :
  read_all (New ModeStrict 10) ["header--"; String (byte_of 0) (String (byte_of 0) "head")] = None /\
  ~ read_all (New ModeStrict 10) ["header--12he"; "ader--34"] = None.
Proof.
  split.
  - apply read_all_spec; [done|lia|]. intros [|k] Hk; [left; reflexivity|simpl in Hk; lia].
  - intros H0. assert (Hm : ModeStrict <> ModeOff) by done.
    pose proof (proj1 (read_all_spec ModeStrict 10 ["header--12he"; "ader--34"] Hm ltac:(lia)) H0 0%nat
      ltac:(simpl; lia)) as H. destruct H as [H|H]; vm_compute in H; done.
Defined.

Lemma page_size_knob_rejects_witness : ~ page_ok 0 "header--12".
Proof. apply page_size_knob_rejects; [done|]. vm_compute. done. Defined.
