(* ===== verification/Filter.v ===== *)
(** * The filter chain

    [internal/filter]: hash, compress, encrypt and store on the way in; decrypt,
    decompress and hash on the way out. The compression libraries and [age] are
    parameters: streaming writers that emit bytes as they are fed. *)

From S2P Require Import Prelude Sha256 Storage Worlds.

(** ** The libraries *)

Inductive Codec := gzipCodec | lz4Codec | zstdCodec | bzip2Codec.

Class FilterLibs := {
  Recipient : Type;
  Identity : Type;
  CState : Type;
  EState : Type;
  (** A new compressor at a level the library knows, or at its default; with what it has
      emitted already. *)
  lib_NewWriter : Codec -> option Z -> result (CState * string);
  codec_write : CState -> string -> CState * string;
  codec_close : CState -> string;
  lib_NewReader : Codec -> string -> result string;
  (** The same of [age.Encrypt] and [age.Decrypt]. *)
  age_Encrypt : list Recipient -> result (EState * string);
  age_write : EState -> string -> EState * string;
  age_close : EState -> string;
  age_Decrypt : list Identity -> string -> result string;
  (** Of a text that cannot be decoded to its end: [None] where the constructor of the reader fails already, else
      the bytes the reader gives before it fails. *)
  lib_partial : Codec -> string -> option string;
  age_partial : list Identity -> string -> option string;
}.

(** Feeding a list of writes to a library writer. *)
Fixpoint feed {S} (write : S -> string -> S * string) (st : S) (l : list string) : S * string :=
  match l with
  | [] => (st, "")
  | x :: l' => let '(st, out) := write st x in let '(st, out') := feed write st l' in (st, out +:+ out')
  end.

(** What their documentation promises: reading back what was written. *)
Class FilterLaws `{FilterLibs} := {
  opens : list Identity -> list Recipient -> Prop;
  lib_roundtrip codec level st hd l st' out :
    lib_NewWriter codec level = Ok (st, hd) -> feed codec_write st l = (st', out) ->
    lib_NewReader codec (hd +:+ out +:+ codec_close st') = Ok (Join l "");
  age_roundtrip ids rs st hd l st' out :
    opens ids rs -> age_Encrypt rs = Ok (st, hd) -> feed age_write st l = (st', out) ->
    age_Decrypt ids (hd +:+ out +:+ age_close st') = Ok (Join l "");
}.

(** [compression.Get] and [Codec.Name] *)
Definition compression_Get (name : string) : result Codec :=
  if String.eqb name "gzip" then Ok gzipCodec
  else if String.eqb name "lz4" then Ok lz4Codec
  else if String.eqb name "zstd" then Ok zstdCodec
  else if String.eqb name "bzip2" then Ok bzip2Codec
  else Fail (errors_New "compression: unknown codec").

Definition codec_Name (c : Codec) : string :=
  match c with gzipCodec => "gzip" | lz4Codec => "lz4" | zstdCodec => "zstd" | bzip2Codec => "bzip2" end.

Lemma compression_Get_Name c : compression_Get (codec_Name c) = Ok c.
Proof. by destruct c. Qed.

Section codecs.
Context `{FilterLibs}.

(** [NewWriter] of each codec; [-1] is [gzip.DefaultCompression]. *)
Definition gzip_NewWriter (level : Z) : result (CState * string) :=
  let level := if level =? 0 then -1 else level in
  map_error (Errorf_w "compression/gzip: NewWriterLevel") (lib_NewWriter gzipCodec (Some level)).

Definition lz4_NewWriter (level : Z) : result (CState * string) :=
  if 0 <? level then
    if (level <? 1) || (9 <? level) then Fail (errors_New "compression/lz4: level out of range (1-9)")
    else map_error (Errorf_w "compression/lz4: set level") (lib_NewWriter lz4Codec (Some level))
  else lib_NewWriter lz4Codec None.

Definition zstd_NewWriter (level : Z) : result (CState * string) :=
  map_error (Errorf_w "compression/zstd: NewWriter")
    (lib_NewWriter zstdCodec (if 0 <? level then Some level else None)).

Definition bzip2_NewWriter (level : Z) : result (CState * string) :=
  map_error (Errorf_w "compression/bzip2: NewWriter")
    (lib_NewWriter bzip2Codec (if 0 <? level then Some level else None)).

Definition codec_NewWriter (c : Codec) (level : Z) : result (CState * string) :=
  match c with
  | gzipCodec => gzip_NewWriter level
  | lz4Codec => lz4_NewWriter level
  | zstdCodec => zstd_NewWriter level
  | bzip2Codec => bzip2_NewWriter level
  end.

(** [NewReader] of each codec *)
Definition codec_NewReader (c : Codec) (src : string) : result string :=
  match c with
  | gzipCodec => map_error (Errorf_w "compression/gzip: NewReader") (lib_NewReader gzipCodec src)
  | lz4Codec => lib_NewReader lz4Codec src
  | zstdCodec => map_error (Errorf_w "compression/zstd: NewReader") (lib_NewReader zstdCodec src)
  | bzip2Codec => map_error (Errorf_w "compression/bzip2: NewReader") (lib_NewReader bzip2Codec src)
  end.

(** A codec's writer is the library's at some level. *)
Lemma codec_NewWriter_lib c level d :
  codec_NewWriter c level = Ok d -> exists l, lib_NewWriter c l = Ok d.
Proof.
  destruct c; cbn [codec_NewWriter]; unfold gzip_NewWriter, lz4_NewWriter, zstd_NewWriter, bzip2_NewWriter.
  2: destruct (0 <? level); [destruct ((level <? 1) || (9 <? level)); [done|]|by eauto].
  all: match goal with |- context [lib_NewWriter ?c ?l] => destruct (lib_NewWriter c l) eqn:E end;
    [|done]; intros [= ->]; eauto.
Qed.

Lemma codec_NewReader_lib c src s : lib_NewReader c src = Ok s -> codec_NewReader c src = Ok s.
Proof. destruct c; cbn [codec_NewReader]; intros ->; done. Qed.
End codecs.

Lemma codec_roundtrip `{FilterLaws} c level st hd l st' out :
  codec_NewWriter c level = Ok (st, hd) -> feed codec_write st l = (st', out) ->
  codec_NewReader c (hd +:+ out +:+ codec_close st') = Ok (Join l "").
Proof. intros [lv Hl]%codec_NewWriter_lib Hf. eapply codec_NewReader_lib, lib_roundtrip; eauto. Qed.

(** [Result] *)
Record FilterResult := { res_Bytes : Z; res_SHA256 : string; res_RepoBytes : Z; res_RepoSHA256 : string }.

Definition zero_result : FilterResult :=
  {| res_Bytes := 0; res_SHA256 := ""; res_RepoBytes := 0; res_RepoSHA256 := "" |}.

Section filter.
Context `{FilterLibs} {W : Type} `{Backend W}.

(** [Options] and [Chain] *)
Record Options := { o_Codec : string; o_Level : Z; o_Recipients : list Recipient }.
Record Chain := { ch_codec : Codec; ch_level : Z; ch_recipients : list Recipient }.

(** [NewChain] *)
Definition NewChain (opts : Options) : result Chain :=
  if (length (o_Recipients opts) =? 0)%nat then Fail (errors_New "filter: at least one recipient required")
  else match compression_Get (o_Codec opts) with
       | Fail err => Fail (Errorf_w "filter" err)
       | Ok codec => Ok {| ch_codec := codec; ch_level := o_Level opts; ch_recipients := o_Recipients opts |}
       end.

(** [encryption.NewWriter] and [encryption.NewReader] *)
Definition encryption_NewWriter (recipients : list Recipient) : result (EState * string) :=
  if (length recipients =? 0)%nat then Fail (errors_New "encryption: at least one recipient required")
  else map_error (Errorf_w "encryption: age.Encrypt") (age_Encrypt recipients).

Definition encryption_NewReader (src : string) (identities : list Identity) : result string :=
  if (length identities =? 0)%nat then Fail (errors_New "encryption: at least one identity required")
  else map_error (Errorf_w "encryption: age.Decrypt") (age_Decrypt identities src).

(** [chainWriter] with the [repoSink] and the [hash.Writer] it holds; a hasher is the
    bytes it was given. *)
Record chainWriter := ChainWriter {
  cw_sink : be_Writer;
  cw_repo : string;
  cw_repoBytes : Z;
  cw_enc : EState;
  cw_comp : CState;
  cw_hashed : string;
  cw_bytes : Z;
  cw_res : FilterResult;
  cw_closed : bool;
}.

(** An operation on the writer: its error as a value, and the writer after it. *)
Definition Op : Type := chainWriter -> M W (result unit * chainWriter).

(** [repoSink.Write]; a failed write of the sink reports no bytes. *)
Definition repo_Write (p : string) : Op := fun cw =>
  r <- try (be_Write (cw_sink cw) p) ;;
  match r with
  | Fail e => ret (Fail e, cw)
  | Ok _ => ret (Ok tt, ChainWriter (cw_sink cw) (cw_repo cw +:+ p) (cw_repoBytes cw + Z.of_nat (slen p))
                          (cw_enc cw) (cw_comp cw) (cw_hashed cw) (cw_bytes cw) (cw_res cw) (cw_closed cw))
  end.

Definition set_enc (e : EState) (cw : chainWriter) : chainWriter :=
  ChainWriter (cw_sink cw) (cw_repo cw) (cw_repoBytes cw) e (cw_comp cw) (cw_hashed cw) (cw_bytes cw)
    (cw_res cw) (cw_closed cw).

Definition set_comp (c : CState) (cw : chainWriter) : chainWriter :=
  ChainWriter (cw_sink cw) (cw_repo cw) (cw_repoBytes cw) (cw_enc cw) c (cw_hashed cw) (cw_bytes cw)
    (cw_res cw) (cw_closed cw).

(** The encryption and compression writers, each in front of the next stage. *)
Definition enc_Write (p : string) : Op := fun cw =>
  let '(e, out) := age_write (cw_enc cw) p in repo_Write out (set_enc e cw).

Definition enc_Close : Op := fun cw => repo_Write (age_close (cw_enc cw)) cw.

Definition comp_Write (p : string) : Op := fun cw =>
  let '(c, out) := codec_write (cw_comp cw) p in enc_Write out (set_comp c cw).

Definition comp_Close : Op := fun cw => enc_Write (codec_close (cw_comp cw)) cw.

(** [hash.Writer.Write] *)
Definition hashed_Write (p : string) : Op := fun cw =>
  d <- comp_Write p cw ;;
  let '(r, cw) := d in
  match r with
  | Fail e => ret (Fail e, cw)
  | Ok _ => ret (Ok tt, ChainWriter (cw_sink cw) (cw_repo cw) (cw_repoBytes cw) (cw_enc cw) (cw_comp cw)
                          (cw_hashed cw +:+ p) (cw_bytes cw + Z.of_nat (slen p)) (cw_res cw) (cw_closed cw))
  end.

(** [chainWriter.Write] *)
Definition Write (p : string) : Op := fun cw =>
  if cw_closed cw then ret (Fail (errors_New "filter: write after close"), cw) else hashed_Write p cw.

Definition set_closed (cw : chainWriter) : chainWriter :=
  ChainWriter (cw_sink cw) (cw_repo cw) (cw_repoBytes cw) (cw_enc cw) (cw_comp cw) (cw_hashed cw) (cw_bytes cw)
    {| res_Bytes := cw_bytes cw; res_SHA256 := Sum256 (cw_hashed cw);
       res_RepoBytes := res_RepoBytes (cw_res cw); res_RepoSHA256 := res_RepoSHA256 (cw_res cw) |} true.

Definition set_repo_result (cw : chainWriter) : chainWriter :=
  ChainWriter (cw_sink cw) (cw_repo cw) (cw_repoBytes cw) (cw_enc cw) (cw_comp cw) (cw_hashed cw) (cw_bytes cw)
    {| res_Bytes := res_Bytes (cw_res cw); res_SHA256 := res_SHA256 (cw_res cw);
       res_RepoBytes := cw_repoBytes cw; res_RepoSHA256 := Sum256 (cw_repo cw) |} (cw_closed cw).

(** [chainWriter.Close] *)
Definition Close : Op := fun cw =>
  if cw_closed cw then ret (Ok tt, cw)
  else
    let cw := set_closed cw in
    d <- comp_Close cw ;;
    let '(r, cw) := d in
    match r with
    | Fail err =>
        d <- enc_Close cw ;;
        try (be_Close (cw_sink cw)) ;;;
        ret (Fail (Errorf_w "filter: compression close" err), snd d)
    | Ok _ =>
        d <- enc_Close cw ;;
        let '(r, cw) := d in
        match r with
        | Fail err =>
            try (be_Close (cw_sink cw)) ;;; ret (Fail (Errorf_w "filter: encryption close" err), cw)
        | Ok _ =>
            let cw := set_repo_result cw in
            r <- try (be_Close (cw_sink cw)) ;;
            match r with
            | Fail err => ret (Fail (Errorf_w "filter: sink close" err), cw)
            | Ok _ => ret (Ok tt, cw)
            end
        end
    end.

(** A writer over a fresh [repoSink], before either library has started. *)
Definition new_writer (sink : be_Writer) (e : EState) (c : CState) : chainWriter :=
  ChainWriter sink "" 0 e c "" 0 zero_result false.

(** [Chain.Wrap]; both constructors may write to the sink. *)
Definition Wrap (ch : Chain) (sink : be_Writer) : M W chainWriter :=
  d <- of_result (encryption_NewWriter (ch_recipients ch)) ;;
  let '(e, hd) := d in
  match codec_NewWriter (ch_codec ch) (ch_level ch) with
  | Fail err =>
      be_Write sink hd ;;;
      try (be_Write sink (age_close e)) ;;; throw err
  | Ok (c, chd) =>
      d <- repo_Write hd (new_writer sink e c) ;;
      let '(r, cw) := d in
      _ <- of_result r ;;
      d <- enc_Write chd cw ;;
      let '(r, cw) := d in
      _ <- of_result r ;; ret cw
  end.

(** Streaming a file through a new chain, as the callers do. *)
Fixpoint write_all (chunks : list string) (cw : chainWriter) : M W chainWriter :=
  match chunks with
  | [] => ret cw
  | p :: chunks' => d <- Write p cw ;; let '(r, cw) := d in _ <- of_result r ;; write_all chunks' cw
  end.

Definition store (ch : Chain) (sink : be_Writer) (chunks : list string) : M W FilterResult :=
  cw <- Wrap ch sink ;;
  cw <- write_all chunks cw ;;
  d <- Close cw ;;
  let '(r, cw) := d in _ <- of_result r ;; ret (cw_res cw).

(** [Unwrap], read to the end. *)
Definition Unwrap (codecName src : string) (identities : list Identity) : result (string * FilterResult) :=
  if (length identities =? 0)%nat then Fail (errors_New "filter: at least one identity required")
  else match compression_Get codecName with
       | Fail err => Fail (Errorf_w "filter" err)
       | Ok codec =>
           match encryption_NewReader src identities with
           | Fail err => Fail (Errorf_w "filter: decrypt" err)
           | Ok dec =>
               match codec_NewReader codec dec with
               | Fail err => Fail (Errorf_w "filter: decompress" err)
               | Ok plain =>
                   Ok (plain, {| res_Bytes := Z.of_nat (slen plain); res_SHA256 := Sum256 plain;
                                 res_RepoBytes := 0; res_RepoSHA256 := "" |})
               end
           end
       end.

(** Where [Unwrap], read to the end, fails: [None] if it returns the error itself, else what its reader gives before. *)
Definition Unwrap_partial (codecName src : string) (identities : list Identity) : option string :=
  if (length identities =? 0)%nat then None
  else match compression_Get codecName with
       | Fail _ => None
       | Ok codec =>
           match encryption_NewReader src identities with
           | Fail _ => match age_partial identities src with None => None | Some dec => lib_partial codec dec end
           | Ok dec => lib_partial codec dec
           end
       end.
End filter.

(** ** What a chain stores *)

Lemma feed_snoc {S} (write : S -> string -> S * string) st l x st1 o1 st2 o2 :
  feed write st l = (st1, o1) -> write st1 x = (st2, o2) -> feed write st (l ++ [x]) = (st2, o1 +:+ o2).
Proof.
  revert st o1. induction l as [|y l IH]; intros st o1; cbn [feed app].
  - intros [= -> <-] E. rewrite E. by rewrite sapp_nil_r.
  - destruct (write st y) as [s o]. destruct (feed write s l) as [s' o'] eqn:Ef. intros [= -> <-] E.
    rewrite (IH s o' Ef E). by rewrite sapp_assoc.
Qed.

Lemma Join_snoc l x : Join (l ++ [x]) "" = Join l "" +:+ x.
Proof. induction l as [|y l IH]; [done|]. cbn [app]. by rewrite !Join_cons, IH, sapp_assoc. Qed.

Section stored.
Context `{FilterLaws} {W : Type} `{BackendLaws W}.
Context (key : string) (v0 : gmap string string).

(** The sink holds what was hashed on its way, and nothing is visible yet. *)
Definition sink_inv (cw : chainWriter) (w : W) : Prop :=
  pending w (cw_sink cw) = Some (key, cw_repo cw) /\ cw_repoBytes cw = Z.of_nat (slen (cw_repo cw)) /\
  view w = v0.

Lemma repo_Write_inv x cw w cw' w' :
  sink_inv cw w -> repo_Write x cw w = (Ok (Ok tt, cw'), w') ->
  sink_inv cw' w' /\
  cw' = ChainWriter (cw_sink cw) (cw_repo cw +:+ x) (cw_repoBytes cw + Z.of_nat (slen x))
          (cw_enc cw) (cw_comp cw) (cw_hashed cw) (cw_bytes cw) (cw_res cw) (cw_closed cw).
Proof.
  intros (Hp & Hb & Hv). unfold repo_Write, bind, try.
  destruct (write_spec (cw_sink cw) x w key (cw_repo cw) Hp) as (Hv' & c' & Hp' & Hok).
  destruct (be_Write (cw_sink cw) x w) as [[[]|e] w1]; [|done]. intros [= <- <-].
  cbn [snd] in *. split; [|done]. rewrite (Hok w1 eq_refl) in Hp'. split_and!; [done| |congruence].
  cbn [cw_repo cw_repoBytes]. rewrite slen_app, Hb. lia.
Qed.

(** The encryption writer was fed [le], whose bytes it owes to the sink. *)
Definition enc_inv (e0 : EState) (hd : string) (le : list string) (cw : chainWriter) (w : W) : Prop :=
  sink_inv cw w /\ exists oe, feed age_write e0 le = (cw_enc cw, oe) /\ cw_repo cw = hd +:+ oe.

Lemma enc_Write_inv e0 hd le x cw w cw' w' :
  enc_inv e0 hd le cw w -> enc_Write x cw w = (Ok (Ok tt, cw'), w') ->
  enc_inv e0 hd (le ++ [x]) cw' w' /\ cw_comp cw' = cw_comp cw /\ cw_hashed cw' = cw_hashed cw /\
  cw_bytes cw' = cw_bytes cw /\ cw_res cw' = cw_res cw /\ cw_closed cw' = cw_closed cw /\ cw_sink cw' = cw_sink cw.
Proof.
  intros [Hs (oe & Hf & Hr)]. unfold enc_Write. destruct (age_write (cw_enc cw) x) as [e out] eqn:E. intros Hw.
  apply repo_Write_inv in Hw as [Hs' ->]; [|done]. split_and!; [|done..]. split; [done|].
  exists (oe +:+ out). cbn. split; [by eapply feed_snoc|]. by rewrite Hr, sapp_assoc.
Qed.

(** The compressor was fed [lc], and so was the hasher. *)
Definition chain_inv (e0 : EState) (hd : string) (c0 : CState) (chd : string) (lc : list string)
    (cw : chainWriter) (w : W) : Prop :=
  exists le oc, enc_inv e0 hd le cw w /\ feed codec_write c0 lc = (cw_comp cw, oc) /\
    Join le "" = chd +:+ oc /\ cw_hashed cw = Join lc "" /\
    cw_bytes cw = Z.of_nat (slen (Join lc "")) /\ cw_closed cw = false.

Lemma Write_inv e0 hd c0 chd lc x cw w cw' w' :
  chain_inv e0 hd c0 chd lc cw w -> Write x cw w = (Ok (Ok tt, cw'), w') ->
  chain_inv e0 hd c0 chd (lc ++ [x]) cw' w'.
Proof.
  intros (le & oc & He & Hf & Hj & Hh & Hb & Hcl). unfold Write. rewrite Hcl. unfold hashed_Write, bind, comp_Write.
  destruct (codec_write (cw_comp cw) x) as [c out] eqn:Ec.
  destruct (enc_Write out (set_comp c cw) w) as [[[[[]|e] cw1]|e] w1] eqn:Ew; [|done..]. intros [= <- <-].
  apply (enc_Write_inv e0 hd le) in Ew as (He' & E1 & E2 & E3 & E4 & E5 & E6); [|done].
  exists (le ++ [out]), (oc +:+ out). cbn. cbn in E1, E2, E3, E5. split_and!.
  - exact He'.
  - rewrite E1. by eapply feed_snoc.
  - by rewrite Join_snoc, Hj, sapp_assoc.
  - by rewrite E2, Hh, Join_snoc.
  - rewrite E3, Hb, Join_snoc, slen_app. lia.
  - by rewrite E5.
Qed.

Lemma write_all_inv e0 hd c0 chd lc chunks cw w cw' w' :
  chain_inv e0 hd c0 chd lc cw w -> write_all chunks cw w = (Ok cw', w') ->
  chain_inv e0 hd c0 chd (lc ++ chunks) cw' w'.
Proof.
  revert lc cw w. induction chunks as [|x chunks IH]; intros lc cw w Hi; cbn [write_all].
  - intros [= <- <-]. by rewrite app_nil_r.
  - unfold bind, of_result. destruct (Write x cw w) as [[[[[]|e] cw1]|e] w1] eqn:Ew; [|done..]. intros Hw.
    replace (lc ++ x :: chunks) with ((lc ++ [x]) ++ chunks) by by rewrite <- app_assoc. apply (IH _ cw1 w1); [|done]. by eapply Write_inv.
Qed.

(** The bytes [e0] and [c0] leave behind for [lc]. *)
Definition is_stored (e0 : EState) (hd : string) (c0 : CState) (chd : string) (lc : list string)
    (stored : string) : Prop :=
  exists le oc c1 e1 oe, feed codec_write c0 lc = (c1, oc) /\
    Join le "" = chd +:+ oc +:+ codec_close c1 /\
    feed age_write e0 le = (e1, oe) /\ stored = hd +:+ oe +:+ age_close e1.

Lemma Close_inv e0 hd c0 chd lc cw w cw' w' :
  chain_inv e0 hd c0 chd lc cw w -> Close cw w = (Ok (Ok tt, cw'), w') ->
  exists stored, is_stored e0 hd c0 chd lc stored /\ view w' = <[key := stored]> v0 /\
    cw_res cw' = {| res_Bytes := Z.of_nat (slen (Join lc "")); res_SHA256 := Sum256 (Join lc "");
                    res_RepoBytes := Z.of_nat (slen stored); res_RepoSHA256 := Sum256 stored |}.
Proof.
  intros (le & oc & He & Hf & Hj & Hh & Hb & Hcl). unfold Close. rewrite Hcl.
  set (cwc := set_closed cw). unfold comp_Close. unfold bind at 1.
  destruct (enc_Write (codec_close (cw_comp cwc)) cwc w) as [[[[[]|e] cw1]|e] w1] eqn:Ew;
    [| |by unfold bind, try in *].
  2:{ unfold bind, try. destruct (enc_Close cw1 w1) as [[d|e2] w2]; [|done]. by destruct (be_Close _ w2). }
  apply (enc_Write_inv e0 hd le) in Ew as (He1 & E1 & E2 & E3 & E4 & E5 & E6); [|exact He].
  destruct He1 as [Hs1 (oe & Hfe & Hr1)]. cbn beta iota. unfold bind at 1. unfold enc_Close.
  destruct (repo_Write (age_close (cw_enc cw1)) cw1 w1) as [[[[[]|e] cw2]|e] w2] eqn:Er;
    [| |by unfold bind, try in *].
  2:{ unfold bind, try. by destruct (be_Close _ w2). }
  apply repo_Write_inv in Er as [Hs2 ->]; [|done]. cbn beta iota. unfold bind, try.
  cbn [set_repo_result cw_sink cw_repo cw_repoBytes cw_res]. cbn [cw_sink cw_repo cw_repoBytes cw_enc] in Hs2.
  destruct Hs2 as (Hp2 & Hb2 & Hv2). cbn [cw_sink cw_repo cw_repoBytes] in Hp2, Hb2.
  destruct (close_spec (cw_sink cw1) w2 key _ Hp2) as [_ Hclose].
  destruct (be_Close (cw_sink cw1) w2) as [[[]|e] w3] eqn:Ec; [|done]. intros [= <- <-].
  exists (cw_repo cw1 +:+ age_close (cw_enc cw1)). split_and!.
  - exists (le ++ [codec_close (cw_comp cwc)]), oc, (cw_comp cw), (cw_enc cw1), oe. split_and!; [done| |done|].
    + rewrite Join_snoc, Hj. by rewrite sapp_assoc.
    + by rewrite Hr1, sapp_assoc.
  - rewrite (Hclose w3 eq_refl). by rewrite Hv2.
  - cbn [cw_res res_Bytes res_SHA256]. rewrite E4. cbn [cwc set_closed cw_res res_Bytes res_SHA256].
    rewrite Hh, Hb, Hb2. done.
Qed.
End stored.

Section store.
Context `{FilterLaws} {W : Type} `{BackendLaws W}.

Lemma Wrap_inv ch sink key w cw w' :
  pending w sink = Some (key, "") -> Wrap ch sink w = (Ok cw, w') ->
  exists e0 hd c0 chd, age_Encrypt (ch_recipients ch) = Ok (e0, hd) /\
    codec_NewWriter (ch_codec ch) (ch_level ch) = Ok (c0, chd) /\
    chain_inv key (view w) e0 hd c0 chd [] cw w' /\ cw_res cw = zero_result.
Proof.
  intros Hp. unfold Wrap, encryption_NewWriter. unfold bind at 1, of_result.
  destruct (length (ch_recipients ch) =? 0)%nat; [done|].
  destruct (age_Encrypt (ch_recipients ch)) as [[e0 hd]|e]; [|done]. cbn [map_error].
  destruct (codec_NewWriter (ch_codec ch) (ch_level ch)) as [[c0 chd]|e].
  2:{ unfold bind, try, throw. destruct (be_Write sink hd w) as [[[]|e1] w1]; [|done].
      by destruct (be_Write sink (age_close e0) w1). }
  unfold bind. destruct (repo_Write hd (new_writer sink e0 c0) w) as [[[[[]|e] cw1]|e] w1] eqn:Er; [|done..].
  apply (repo_Write_inv key (view w)) in Er as [Hs1 ->]; [|done].
  destruct (enc_Write chd _ w1) as [[[[[]|e] cw2]|e] w2] eqn:Ew; [|done..]. intros [= <- <-].
  apply (enc_Write_inv key (view w) e0 hd []) in Ew as (He & E1 & E2 & E3 & E4 & E5 & E6).
  2:{ split; [exact Hs1|]. exists "". split; [done|]. cbn. by rewrite sapp_nil_r. }
  exists e0, hd, c0, chd. split_and!; [done..| |by rewrite E4].
  exists [chd], "". split_and!; [exact He|by rewrite E1|by cbn; rewrite sapp_nil_r|by rewrite E2|by rewrite E3|by rewrite E5].
Qed.

Lemma store_spec ch sink key chunks w res w' :
  pending w sink = Some (key, "") -> store ch sink chunks w = (Ok res, w') ->
  exists e0 hd c0 chd stored, age_Encrypt (ch_recipients ch) = Ok (e0, hd) /\
    codec_NewWriter (ch_codec ch) (ch_level ch) = Ok (c0, chd) /\
    is_stored e0 hd c0 chd chunks stored /\ view w' = <[key := stored]> (view w) /\
    res = {| res_Bytes := Z.of_nat (slen (Join chunks "")); res_SHA256 := Sum256 (Join chunks "");
             res_RepoBytes := Z.of_nat (slen stored); res_RepoSHA256 := Sum256 stored |}.
Proof.
  intros Hp. unfold store, bind, of_result. destruct (Wrap ch sink w) as [[cw|e] w1] eqn:Ew; [|done].
  apply (Wrap_inv ch sink key) in Ew as (e0 & hd & c0 & chd & He & Hc & Hi & _); [|done].
  destruct (write_all chunks cw w1) as [[cw2|e] w2] eqn:Ea; [|done].
  apply (write_all_inv key (view w) e0 hd c0 chd []) in Ea; [|done]. cbn [app] in Ea.
  destruct (Close cw2 w2) as [[[[[]|e] cw3]|e] w3] eqn:Ecl; [|done..]. intros [= <- <-].
  apply (Close_inv key (view w) e0 hd c0 chd chunks) in Ecl as (stored & Hst & Hv & Hr); [|done].
  exists e0, hd, c0, chd, stored. done.
Qed.
End store.

(** Stored bytes of a chain: what reading them back needs. *)
Definition encoded `{FilterLibs} (ch : Chain) (chunks : list string) (stored : string) : Prop :=
  exists e0 hd c0 chd, age_Encrypt (ch_recipients ch) = Ok (e0, hd) /\
    codec_NewWriter (ch_codec ch) (ch_level ch) = Ok (c0, chd) /\ is_stored e0 hd c0 chd chunks stored.

Lemma encoded_Unwrap `{FilterLaws} ch chunks stored ids :
  encoded ch chunks stored -> opens ids (ch_recipients ch) -> ids <> [] ->
  exists r, Unwrap (codec_Name (ch_codec ch)) stored ids = Ok (Join chunks "", r) /\
    res_Bytes r = Z.of_nat (slen (Join chunks "")) /\ res_SHA256 r = Sum256 (Join chunks "").
Proof.
  intros (e0 & hd & c0 & chd & He & Hc & (le & oc & c1 & e1 & oe & Hfc & Hj & Hfe & ->)) Hopen Hids.
  unfold Unwrap, encryption_NewReader. destruct ids as [|i ids]; [done|]. cbn [length Nat.eqb].
  rewrite compression_Get_Name, (age_roundtrip _ _ _ _ _ _ _ Hopen He Hfe), Hj. cbn [map_error].
  rewrite (codec_roundtrip _ _ _ _ _ _ _ Hc Hfc). eexists. split; [done|]. done.
Qed.

(** C19: what the chain stores can be read back: after a successful [Close] the bytes at the key
    decrypt and decompress to exactly what was written, with the recorded size and digest,
    for any identity that opens the recipients; and the repository digest is that of the
    stored bytes themselves. *)
Theorem store_Unwrap_roundtrip `{FilterLaws} {W : Type} `{BackendLaws W} ch sink key chunks ids w res w' :
  pending w sink = Some (key, "") -> opens ids (ch_recipients ch) -> ids <> [] ->
  store ch sink chunks w = (Ok res, w') ->
  exists stored, view w' !! key = Some stored /\
    res_RepoSHA256 res = Sum256 stored /\ res_RepoBytes res = Z.of_nat (slen stored) /\
    exists r, Unwrap (codec_Name (ch_codec ch)) stored ids = Ok (Join chunks "", r) /\
      res_SHA256 r = res_SHA256 res /\ res_Bytes r = res_Bytes res /\
      res_SHA256 res = Sum256 (Join chunks "").
Proof.
  intros Hp Hopen Hids Hrun.
  destruct (store_spec ch sink key chunks w res w' Hp Hrun) as (e0 & hd & c0 & chd & stored & He & Hc & Hst & Hv & ->).
  exists stored. rewrite Hv, lookup_insert_eq. split_and!; [done..|].
  destruct (encoded_Unwrap ch chunks stored ids) as (r & Hu & Hb & Hh); [by exists e0, hd, c0, chd|done..|].
  exists r. by rewrite Hb, Hh.
Qed.

(** ** What a failed chain leaves alone *)

Section chain_frames.
Context `{FilterLibs} {W : Type} `{BackendLaws W}.
Context (key : string).

(** The writer is open on the key. *)
Definition open_at (h : be_Writer) (w : W) : Prop := exists c, pending w h = Some (key, c).

(** An operation that shows nothing, whatever it returns. *)
Definition silent (op : Op) : Prop := forall cw w, open_at (cw_sink cw) w -> exists r cw' w',
  op cw w = (Ok (r, cw'), w') /\ view w' = view w /\ cw_sink cw' = cw_sink cw /\ open_at (cw_sink cw) w'.

Lemma be_Write_open h x w : open_at h w -> view (snd (be_Write h x w)) = view w /\ open_at h (snd (be_Write h x w)).
Proof. intros [c Hp]. destruct (write_spec h x w key c Hp) as (Hv & c' & Hp' & _). split; [done|by exists c']. Qed.

Lemma repo_Write_silent x : silent (repo_Write x).
Proof.
  intros cw w Ho. unfold repo_Write, bind, try. destruct (be_Write_open (cw_sink cw) x w Ho) as [Hv Ho'].
  destruct (be_Write (cw_sink cw) x w) as [[[]|e] w1]; cbn [snd] in *; by eexists _, _, w1.
Qed.

Lemma enc_Write_silent x : silent (enc_Write x).
Proof. intros cw w Ho. unfold enc_Write. destruct (age_write _ x) as [e out]. apply (repo_Write_silent out (set_enc e cw) w Ho). Qed.

Lemma Write_silent x : silent (Write x).
Proof.
  intros cw w Ho. unfold Write. destruct (cw_closed cw); [by eexists _, cw, w|]. unfold hashed_Write, bind, comp_Write.
  destruct (codec_write (cw_comp cw) x) as [c out].
  destruct (enc_Write_silent out (set_comp c cw) w Ho) as (r & cw' & w' & -> & Hv & Hs & Ho'). destruct r; by eexists _, _, w'.
Qed.

Lemma be_Close_outside h w : open_at h w -> same_outside (fun q => q = key) w (snd (be_Close h w)).
Proof. intros [c Hp] q Hq. destruct (close_spec h w key c Hp) as [Hc _]. by apply Hc. Qed.

(** Only [Close] shows anything, and only under its key. *)
Lemma Close_outside cw w : open_at (cw_sink cw) w -> same_outside (fun q => q = key) w (snd (Close cw w)).
Proof.
  intros Ho. unfold Close. destruct (cw_closed cw); [by intros q _|]. unfold bind at 1, comp_Close.
  destruct (enc_Write_silent (codec_close (cw_comp (set_closed cw))) (set_closed cw) w Ho) as (r1 & cw1 & w1 & -> & Hv1 & Hs1 & Ho1).
  cbn [set_closed cw_sink] in Hs1, Ho1. rewrite <- Hs1 in Ho1.
  destruct (repo_Write_silent (age_close (cw_enc cw1)) cw1 w1 Ho1) as (r2 & cw2 & w2 & E2 & Hv2 & Hs2 & Ho2).
  assert (Hend : forall h, h = cw_sink cw1 -> same_outside (fun q => q = key) w (snd (be_Close h w2))).
  { intros h -> q Hq. rewrite (be_Close_outside _ _ Ho2 q Hq). congruence. }
  unfold bind, try, enc_Close, ret. destruct r1 as [[]|e1]; rewrite E2.
  - destruct r2 as [[]|e2]; cbn [set_repo_result cw_sink]; specialize (Hend _ Hs2); destruct (be_Close (cw_sink cw2) w2) as [[[]|e] w3]; done.
  - specialize (Hend _ eq_refl). by destruct (be_Close (cw_sink cw1) w2).
Qed.

Lemma Wrap_silent ch h w : open_at h w -> view (snd (Wrap ch h w)) = view w /\ open_at h (snd (Wrap ch h w)) /\
  forall cw w', Wrap ch h w = (Ok cw, w') -> cw_sink cw = h.
Proof.
  intros Ho. unfold Wrap. unfold bind at 1 4 7, of_result.
  destruct (encryption_NewWriter (ch_recipients ch)) as [[e hd]|err]; [|done].
  destruct (codec_NewWriter (ch_codec ch) (ch_level ch)) as [[c chd]|err].
  2:{ unfold bind, try, throw. destruct (be_Write_open h hd w Ho) as [Hv Ho1]. destruct (be_Write h hd w) as [[[]|e1] w1]; [|done].
      destruct (be_Write_open h (age_close e) w1 Ho1) as [Hv2 Ho2]. destruct (be_Write h (age_close e) w1); cbn [snd] in *. split; [congruence|done]. }
  unfold bind. destruct (repo_Write_silent hd (new_writer h e c) w Ho) as (r1 & cw1 & w1 & -> & Hv1 & Hs1 & Ho1).
  cbn [new_writer cw_sink] in Hs1, Ho1. destruct r1 as [[]|e1]; [|done]. rewrite <- Hs1 in Ho1.
  destruct (enc_Write_silent chd cw1 w1 Ho1) as (r2 & cw2 & w2 & -> & Hv2 & Hs2 & Ho2).
  assert (Hv : view w2 = view w) by congruence. rewrite Hs1 in Ho2. destruct r2 as [[]|e2]; split_and!; try done. unfold ret. intros cw w' [= <- <-]. congruence.
Qed.
End chain_frames.

(** ** Libraries that frame their input *)

(** Strips the last byte. *)
Fixpoint drop_last (s : string) : string :=
  match s with
  | "" => ""
  | String _ "" => ""
  | String c s' => String c (drop_last s')
  end.

Lemma drop_last_snoc s c : drop_last (s +:+ String c "") = s.
Proof.
  induction s as [|d s IH]; [done|]. change (String d s +:+ String c "") with (String d (s +:+ String c "")).
  cbn [drop_last]. rewrite IH. by destruct s.
Qed.

Definition framed (hd : ascii) (s : string) : result string :=
  match s with
  | String c s' => if Ascii.eqb c hd then Ok (drop_last s') else Fail (errors_New "bad header")
  | "" => Fail (errors_New "bad header")
  end.

#[export] Instance framing_libs : FilterLibs := {
  Recipient := nat;
  Identity := nat;
  CState := unit;
  EState := unit;
  lib_NewWriter _ _ := Ok (tt, "Z");
  codec_write _ p := (tt, p);
  codec_close _ := "z";
  lib_NewReader _ src := framed "Z" src;
  age_Encrypt _ := Ok (tt, "A");
  age_write _ p := (tt, p);
  age_close _ := "a";
  age_Decrypt _ src := framed "A" src;
  lib_partial _ src := if HasPrefix src "Z" then Some (sdrop 1 src) else None;
  age_partial _ src := if HasPrefix src "A" then Some (sdrop 1 src) else None;
}.

Lemma feed_copy st l st' out : feed (S:=unit) (fun _ p => (tt, p)) st l = (st', out) -> out = Join l "".
Proof.
  revert st out. induction l as [|x l IH]; intros st out; cbn [feed]; [by intros [= _ <-]|].
  destruct (feed _ tt l) as [s o] eqn:E. intros [= <- <-]. by rewrite (IH tt o E), Join_cons.
Qed.

#[export] Program Instance framing_laws : FilterLaws := { opens ids rs := ids = rs }.
Next Obligation.
  intros codec level st hd l st' out [= <- <-] ->%feed_copy. cbn [framing_libs lib_NewReader codec_close].
  change ("Z" +:+ Join l "" +:+ "z") with (String "Z" (Join l "" +:+ "z")). cbn [framed].
  rewrite Ascii.eqb_refl. by rewrite drop_last_snoc.
Qed.
Next Obligation.
  intros ids rs st hd l st' out _ [= <- <-] ->%feed_copy. cbn [framing_libs age_Decrypt age_close].
  change ("A" +:+ Join l "" +:+ "a") with (String "A" (Join l "" +:+ "a")). cbn [framed].
  rewrite Ascii.eqb_refl. by rewrite drop_last_snoc.
Qed.

Definition sample_chain : Chain := {| ch_codec := zstdCodec; ch_level := 3; ch_recipients := [7%nat] |}.
Definition sample_handle : be_Writer (W:=mem) := 0%nat.
Definition sample_sink : mem := Mem ∅ {[0%nat := ("id/base/1", "")]} 1 [].

Lemma sample_store_Ok : isOk (fst (store sample_chain sample_handle ["pg "; "bytes"] sample_sink)) = true.
Proof. vm_compute. reflexivity. Qed.

Lemma sample_pending : pending (W:=mem) sample_sink sample_handle = Some ("id/base/1", "").
Proof. vm_compute. reflexivity. Qed.

Lemma sample_opens : opens [7%nat] (ch_recipients sample_chain).
Proof. reflexivity. Qed.

Lemma store_Unwrap_roundtrip_witness :
  exists res w' stored, store sample_chain sample_handle ["pg "; "bytes"] sample_sink = (Ok res, w') /\
    view w' !! "id/base/1" = Some stored /\ exists r, Unwrap "zstd" stored [7%nat] = Ok ("pg bytes", r).
Proof.
  pose proof sample_store_Ok as Hok.
  destruct (store sample_chain sample_handle ["pg "; "bytes"] sample_sink) as [[res|e] w'] eqn:Hrun; [|done].
  destruct (store_Unwrap_roundtrip sample_chain sample_handle "id/base/1" ["pg "; "bytes"] [7%nat] sample_sink
    res w' sample_pending sample_opens ltac:(done) Hrun) as (stored & Hv & _ & _ & r & Hr & _).
  exists res, w', stored. split_and!; [reflexivity|exact Hv|]. exists r. exact Hr.
Defined.
