(* ===== verification/Incremental.v ===== *)
(** * The incremental file format

    [internal/manifest/incremental.go]: the encoder of [INCREMENTAL.*] files and the
    decoders of their header and block numbers, and the name test of
    [internal/backup/incremental.go]. *)

From S2P Require Import Prelude.

(** [IncrementalMagic] and [PGPageSize] *)
Definition IncrementalMagic : Z := 0x494E4352.
Definition PGPageSize : Z := 8192.

(** ** The encoder, over any [io.Writer] *)

Section encoder.
Context {W : Type} (w_Write : string -> M W unit).

(** The loop that fills [blockNumBytes]. *)
Definition blockNumBytes (blockNumbers : list Z) : string := Join (put_le 4 <$> blockNumbers) "".

(** [EncodeIncremental] *)
Definition EncodeIncremental (truncationBlockLength : Z) (blockNumbers : list Z) (blockData : string) : M W unit :=
  let n := Z.of_nat (length blockNumbers) in
  if 2 ^ 32 - 1 <? n then throw (errors_New "manifest: too many incremental blocks")
  else if negb (Z.of_nat (slen blockData) =? n * PGPageSize)
  then throw (errors_New "manifest: blockData length mismatch")
  else
    wrapping "manifest: write incremental header"
      (w_Write (put_le 4 IncrementalMagic +:+ put_le 4 n +:+ put_le 4 truncationBlockLength)) ;;;
    wrapping "manifest: write incremental block numbers" (w_Write (blockNumBytes blockNumbers)) ;;;
    wrapping "manifest: write incremental block data" (w_Write blockData).
End encoder.

(** A [bytes.Buffer] *)
Definition buf_Write (p : string) : M string unit := fun b => (Ok tt, b +:+ p).

(** ** The decoders, over a reader that is the bytes it still holds *)

(** [io.ReadFull] into a buffer of [n] bytes. *)
Definition io_ReadFull (n : Z) : M string string := fun r =>
  if Z.of_nat (slen r) <? n
  then (Fail (if (slen r =? 0)%nat then errors_Sentinel IoEOF "EOF"
              else errors_Sentinel IoErrUnexpectedEOF "unexpected EOF"), "")
  else (Ok (stake (Z.to_nat n) r), sdrop (Z.to_nat n) r).

(** [IncrementalHeader] *)
Record IncrementalHeader := { NumBlocks : Z; TruncationBlockLength : Z }.

(** [DecodeIncrementalHeader] *)
Definition DecodeIncrementalHeader : M string IncrementalHeader :=
  hdr <- wrapping "manifest: read incremental header" (io_ReadFull 12) ;;
  let magic := le_uint 4 hdr in
  if negb (magic =? IncrementalMagic) then throw (errors_New "manifest: bad incremental magic")
  else ret {| NumBlocks := le_uint 4 (sdrop 4 hdr); TruncationBlockLength := le_uint 4 (sdrop 8 hdr) |}.

(** [s[lo:hi]]; [None] is the run-time panic. *)
Definition go_slice (s : string) (lo hi : Z) : option string :=
  if (0 <=? lo) && (lo <=? hi) && (hi <=? Z.of_nat (slen s))
  then Some (stake (Z.to_nat (hi - lo)) (sdrop (Z.to_nat lo) s)) else None.

(** The loop over [i], whose arithmetic is that of [uint32]. *)
Fixpoint decode_numbers (left : nat) (i : Z) (raw : string) : option (list Z) :=
  match left with
  | O => Some []
  | S left' =>
      match go_slice raw (u32 (4 * i)) (u32 (4 * u32 (i + 1))) with
      | None => None
      | Some b =>
          match decode_numbers left' (u32 (i + 1)) raw with
          | None => None
          | Some rest => Some (le_uint 4 b :: rest)
          end
      end
  end.

(** [DecodeIncrementalBlockNumbers] *)
Definition DecodeIncrementalBlockNumbers (num : Z) : M string (option (list Z)) :=
  if num =? 0 then ret (Some [])
  else
    raw <- wrapping "manifest: read block numbers" (io_ReadFull (4 * num)) ;;
    ret (decode_numbers (Z.to_nat num) 0 raw).

(** [isIncrementalFileName] *)
Definition isIncrementalFileName (name : string) : bool :=
  let base := match LastIndexByte name "/" with
              | Some i => sdrop (i + 1) name
              | None => name
              end in
  HasPrefix base "INCREMENTAL.".

(** Reading a whole file with the two decoders: header, numbers, and the pages that are left. *)
Definition decode_file : M string (IncrementalHeader * option (list Z) * string) :=
  h <- DecodeIncrementalHeader ;;
  ns <- DecodeIncrementalBlockNumbers (NumBlocks h) ;;
  data <- read (fun r => r) ;;
  ret (h, ns, data).

(** ** The numbers *)

Lemma slen_blockNumBytes ns : slen (blockNumBytes ns) = (4 * length ns)%nat.
Proof.
  unfold blockNumBytes. induction ns as [|n ns IH]; [done|]. rewrite fmap_cons, Join_cons, slen_app, slen_put_le, IH.
  simpl. lia.
Qed.

Lemma go_slice_mid pre b post :
  go_slice (pre +:+ b +:+ post) (Z.of_nat (slen pre)) (Z.of_nat (slen pre + slen b)) = Some b.
Proof.
  unfold go_slice. rewrite !slen_app.
  replace (0 <=? Z.of_nat (slen pre)) with true by (symmetry; apply Z.leb_le; lia).
  replace (Z.of_nat (slen pre) <=? Z.of_nat (slen pre + slen b)) with true by (symmetry; apply Z.leb_le; lia).
  replace (Z.of_nat (slen pre + slen b) <=? _) with true by (symmetry; apply Z.leb_le; lia). cbn [andb].
  replace (Z.to_nat (Z.of_nat (slen pre + slen b) - Z.of_nat (slen pre))) with (slen b) by lia.
  by rewrite Nat2Z.id, sdrop_app, stake_app.
Qed.

Lemma decode_numbers_spec pre ns :
  (exists k, slen pre = (4 * k)%nat /\ Z.of_nat k + Z.of_nat (length ns) < 2 ^ 30) -> Forall is_u32 ns ->
  decode_numbers (length ns) (Z.of_nat (slen pre) / 4) (pre +:+ blockNumBytes ns) = Some ns.
Proof.
  intros (k & Hk & Hb) Hns. revert pre k Hk Hb. induction Hns as [|n ns Hn Hns IH]; intros pre k Hk Hb; [done|].
  cbn [length] in *. cbn [decode_numbers]. rewrite Hk. replace (Z.of_nat (4 * k) / 4) with (Z.of_nat k) by (rewrite Nat2Z.inj_mul, Z.mul_comm, Z.div_mul; done).
  unfold blockNumBytes. rewrite fmap_cons, Join_cons. fold (blockNumBytes ns).
  assert (Hk1 : u32 (Z.of_nat k + 1) = Z.of_nat k + 1) by (apply u32_id; unfold is_u32; lia).
  rewrite Hk1, (u32_id (4 * Z.of_nat k)), (u32_id (4 * (Z.of_nat k + 1))) by (unfold is_u32; lia).
  pose proof (go_slice_mid pre (put_le 4 n) (blockNumBytes ns)) as Hs. rewrite slen_put_le, Hk in Hs.
  replace (4 * Z.of_nat k) with (Z.of_nat (4 * k)) by lia.
  replace (4 * (Z.of_nat k + 1)) with (Z.of_nat (4 * k + 4)) by lia. rewrite Hs.
  specialize (IH (pre +:+ put_le 4 n) (S k)). rewrite slen_app, slen_put_le, Hk, sapp_assoc in IH.
  replace (Z.of_nat (4 * k + 4) / 4) with (Z.of_nat k + 1) in IH
    by (replace (4 * k + 4)%nat with ((k + 1) * 4)%nat by lia; rewrite Nat2Z.inj_mul, Z.div_mul; [lia|done]).
  rewrite IH by lia. f_equal. f_equal. rewrite <- (sapp_nil_r (put_le 4 n)). apply le_uint_put. apply Hn.
Qed.

Lemma io_ReadFull_app n a b : n = Z.of_nat (slen a) -> io_ReadFull n (a +:+ b) = (Ok a, b).
Proof.
  intros ->. unfold io_ReadFull. rewrite slen_app. destruct (Z.ltb_spec (Z.of_nat (slen a + slen b)) (Z.of_nat (slen a))); [lia|].
  by rewrite Nat2Z.id, stake_app, sdrop_app.
Qed.

Lemma DecodeIncrementalHeader_app n t rest :
  is_u32 n -> is_u32 t ->
  DecodeIncrementalHeader (put_le 4 IncrementalMagic +:+ put_le 4 n +:+ put_le 4 t +:+ rest) =
  (Ok {| NumBlocks := n; TruncationBlockLength := t |}, rest).
Proof.
  intros Hn Ht. set (hdr := put_le 4 IncrementalMagic +:+ put_le 4 n +:+ put_le 4 t).
  replace (_ +:+ put_le 4 n +:+ put_le 4 t +:+ rest) with (hdr +:+ rest) by (unfold hdr; by rewrite !sapp_assoc).
  unfold DecodeIncrementalHeader, bind, wrapping. rewrite io_ReadFull_app by (unfold hdr; by rewrite !slen_app, !slen_put_le).
  cbn [map_error]. unfold hdr at 1. rewrite le_uint_put by (unfold IncrementalMagic; lia). rewrite Z.eqb_refl. cbn [negb].
  assert (Hd4 : sdrop 4 hdr = put_le 4 n +:+ put_le 4 t).
  { unfold hdr. rewrite <- (slen_put_le 4 IncrementalMagic) at 1. apply sdrop_app. }
  assert (Hd8 : sdrop 8 hdr = put_le 4 t).
  { change 8%nat with (4 + 4)%nat. rewrite <- sdrop_sdrop, Hd4. rewrite <- (slen_put_le 4 n) at 1. apply sdrop_app. }
  rewrite Hd4, Hd8. unfold ret. rewrite le_uint_put by apply Hn.
  rewrite <- (sapp_nil_r (put_le 4 t)). rewrite le_uint_put by apply Ht. done.
Qed.

(** What the encoder writes the decoders read back: the count, the truncation length,
    the block numbers and the pages, for every count below 2^30. *)
Theorem Incremental_roundtrip t ns data buf :
  is_u32 t -> Forall is_u32 ns -> Z.of_nat (length ns) < 2 ^ 30 ->
  Z.of_nat (slen data) = Z.of_nat (length ns) * PGPageSize ->
  exists file, EncodeIncremental buf_Write t ns data buf = (Ok tt, buf +:+ file) /\
    Z.of_nat (slen file) = 12 + 4 * Z.of_nat (length ns) + PGPageSize * Z.of_nat (length ns) /\
    decode_file file =
      (Ok ({| NumBlocks := Z.of_nat (length ns); TruncationBlockLength := t |}, Some ns, data), data).
Proof.
  intros Ht Hns Hlen Hdata. unfold EncodeIncremental.
  destruct (Z.ltb_spec (2 ^ 32 - 1) (Z.of_nat (length ns))); [lia|]. rewrite Hdata, Z.eqb_refl. cbn [negb].
  set (n := Z.of_nat (length ns)) in *.
  exists (put_le 4 IncrementalMagic +:+ put_le 4 n +:+ put_le 4 t +:+ blockNumBytes ns +:+ data). split_and!.
  - unfold bind, wrapping, buf_Write. cbn [map_error]. by rewrite !sapp_assoc.
  - rewrite !slen_app, !slen_put_le, slen_blockNumBytes. lia.
  - unfold decode_file, bind, read, ret. rewrite DecodeIncrementalHeader_app by (unfold is_u32 in *; lia).
    cbn [NumBlocks]. unfold DecodeIncrementalBlockNumbers, bind, wrapping, ret.
    destruct (Z.eqb_spec n 0) as [E|E].
    + destruct ns; [done|]. unfold n in E. simpl in E. lia.
    + rewrite io_ReadFull_app by (rewrite slen_blockNumBytes; lia). cbn [map_error]. unfold n. rewrite Nat2Z.id.
      assert (Hdec : decode_numbers (length ns) 0 (blockNumBytes ns) = Some ns).
      { apply (decode_numbers_spec "" ns); [|done]. exists 0%nat. split; [done|]. fold n. lia. }
      by rewrite Hdec.
Qed.

(** Block seven, in a file that follows what the buffer held. *)
Definition sample_page : string := repeat_byte (Z.to_nat PGPageSize) "x".

Lemma slen_sample_page : Z.of_nat (slen sample_page) = Z.of_nat (length [7]) * PGPageSize.
Proof. unfold sample_page. rewrite slen_repeat, Z2Nat.id; [done|unfold PGPageSize; lia]. Qed.

Lemma Incremental_roundtrip_witness :
  exists file, EncodeIncremental buf_Write 10 [7] sample_page "head" = (Ok tt, "head" +:+ file) /\
    decode_file file = (Ok ({| NumBlocks := 1; TruncationBlockLength := 10 |}, Some [7], sample_page), sample_page).
Proof.
  assert (Hns : Forall is_u32 [7]) by (repeat constructor; unfold is_u32; lia).
  assert (Ht : is_u32 10) by (unfold is_u32; lia).
  destruct (Incremental_roundtrip 10 [7] sample_page "head" Ht Hns ltac:(simpl; lia) slen_sample_page) as (f & Hf & _ & Hd).
  by exists f.
Defined.

(** The encoder refuses pages that do not match the numbers, and writes nothing then. *)
Lemma EncodeIncremental_refuses t ns data buf :
  Z.of_nat (slen data) <> Z.of_nat (length ns) * PGPageSize ->
  exists e, EncodeIncremental buf_Write t ns data buf = (Fail e, buf).
Proof.
  intros Hd. unfold EncodeIncremental. destruct (_ <? _); [by eexists|].
  apply Z.eqb_neq in Hd. rewrite Hd. by eexists.
Qed.

(** The loop over the block numbers panics as soon as there are 2^30 of them: the offsets
    are computed in 32 bits, and the end of the last slice wraps to zero. *)
Lemma decode_numbers_panics raw :
  decode_numbers (Z.to_nat (2 ^ 30)) 0 raw = None.
Proof.
  cut (forall left i, 0 <= i < 2 ^ 30 -> i + Z.of_nat left >= 2 ^ 30 -> decode_numbers left i raw = None).
  { intros H. apply H; lia. }
  induction left as [|left IH]; intros i Hi Hl; [lia|]. cbn [decode_numbers].
  rewrite (u32_id (i + 1)) by (unfold is_u32; lia).
  destruct (decide (i = 2 ^ 30 - 1)) as [->|Hne].
  - replace (go_slice raw _ _) with (@None string); [done|]. symmetry. unfold go_slice.
    replace (u32 (4 * (2 ^ 30 - 1))) with (2 ^ 32 - 4) by reflexivity.
    replace (u32 (4 * (2 ^ 30 - 1 + 1))) with 0 by reflexivity. done.
  - destruct (go_slice raw _ _); [|done]. rewrite IH by lia. done.
Qed.
