(* ===== verification/Verify.v ===== *)
(** * Verification of stored backups

    [internal/verify/verify.go]: every file a manifest names is read back through
    the inverse of the filter chain and compared with the recorded digest. *)

From S2P Require Import Prelude Sha256 Json Manifest Info Storage Filter.

(** ** Bytes *)

(** [strings.EqualFold] against hexadecimal text, whose letters fold to ASCII only. *)
Definition lower (c : ascii) : ascii :=
  let v := byte_val c in if (65 <=? v) && (v <=? 90) then byte_of (v + 32) else c.

Fixpoint ToLower (s : string) : string :=
  match s with "" => "" | String c s' => String (lower c) (ToLower s') end.

Definition EqualFold (a b : string) : bool := String.eqb (ToLower a) (ToLower b).

(** [bytes.IndexByte] *)
Fixpoint IndexByte (s : string) (c : ascii) : option nat :=
  match s with
  | "" => None
  | String d s' => if Ascii.eqb d c then Some 0%nat else S <$> IndexByte s' c
  end.

(** ** The data *)

(** [Mismatch] *)
Record Mismatch := {
  m_BackupID : string;
  m_Path : string;
  m_Expected : string;
  m_Actual : string;
  m_Reason : string;
}.

(** [Result] *)
Record VerifyResult := {
  vr_BackupID : string;
  vr_FilesOK : Z;
  vr_FilesMismatched : Z;
  vr_Mismatches : list Mismatch;
  vr_ManifestChecksumOK : bool;
  vr_ManifestChecksumErr : string;
}.

(** [Result.AllOK] *)
Definition AllOK (r : VerifyResult) : bool := (vr_FilesMismatched r =? 0) && vr_ManifestChecksumOK r.

(** [manifestFile] and the struct [parseManifestFiles] decodes into. *)
Record manifestFile := { mf_Path : string; mf_Size : Z; mf_SHA256 : string }.

Definition zero_manifestFile : manifestFile := Build_manifestFile "" 0 "".

Definition manifestFile_fields : fields manifestFile :=
  [field "Path" mf_Path (fun x f => Build_manifestFile x (mf_Size f) (mf_SHA256 f)) dec_string;
   field "Size" mf_Size (fun x f => Build_manifestFile (mf_Path f) x (mf_SHA256 f)) dec_int64;
   field "Checksum" mf_SHA256 (fun x f => Build_manifestFile (mf_Path f) (mf_Size f) x) dec_string].

Definition files_fields : fields (list manifestFile) :=
  [field "Files" id (fun x _ => x) (dec_slice zero_manifestFile (dec_struct false manifestFile_fields))].

(** [parseManifestFiles]; the entries without a checksum are passed over. *)
Definition parseManifestFiles (body : string) : result (list manifestFile) :=
  match Unmarshal (dec_struct false files_fields) [] body with
  | Fail err => Fail err
  | Ok raw => Ok (base.filter (fun f => negb (String.eqb (mf_SHA256 f) "")) raw)
  end.

Definition mark : string := quoted "Manifest-Checksum".

(** [manifestChecksumOK] *)
Definition manifestChecksumOK (body : string) : bool :=
  match Index body mark with
  | None => false
  | Some idx =>
      let prefix := mark +:+ ": " +:+ String dq "" in
      match Index body prefix with
      | None => false
      | Some hexStart =>
          let tail := sdrop (hexStart + slen prefix) body in
          match IndexByte tail dq with
          | None | Some O => false
          | Some hexEnd => EqualFold (stake hexEnd tail) (EncodeToString (Sum256 (stake idx body)))
          end
      end
  end.

(** [codecFromSidecar] *)
Definition codecFromSidecar (sc : Sidecar) : string :=
  if String.eqb (sc_Compression sc) "" then "none"
  else match IndexByte (sc_Compression sc) ":" with
       | Some (S i) => stake (S i) (sc_Compression sc)
       | _ => sc_Compression sc
       end.

(** ** The operations *)

Section verify.
Context {W : Type} `{Backend W, FilterLibs}.

(** [readBlob] and [readSidecar] *)
Definition readBlob (p : string) : M W string := be_Get p.

Definition readSidecar (backupID : string) : M W Sidecar :=
  body <- readBlob (path_Join [backupID; "Storage-Metadata.json"]) ;;
  of_result (UnmarshalSidecar body).

(** [verifyOne]: [None] when the file is as recorded. *)
Definition verifyOne (codec : option Codec) (ids : list Identity) (backupID : string) (f : manifestFile)
  : M W (option Mismatch) :=
  let bad actual reason := {| m_BackupID := backupID; m_Path := mf_Path f; m_Expected := mf_SHA256 f;
                              m_Actual := actual; m_Reason := reason |} in
  rc <- try (be_Get (path_Join [backupID; mf_Path f])) ;;
  match rc with
  | Fail err => ret (Some (bad "" ("Get: " +:+ err_msg err)))
  | Ok stored =>
      match (if (0 <? length ids)%nat then encryption_NewReader stored ids else Ok stored) with
      | Fail derr => ret (Some (bad "" ("decrypt: " +:+ err_msg derr)))
      | Ok src =>
          match (match codec with Some c => codec_NewReader c src | None => Ok src end) with
          | Fail err => ret (Some (bad "" ("decompress: " +:+ err_msg err)))
          | Ok plain =>
              let actual := EncodeToString (Sum256 plain) in
              if negb (EqualFold actual (mf_SHA256 f)) then ret (Some (bad actual "sha256 mismatch"))
              else ret None
          end
      end
  end.

(** A goroutine of [Verify]: the backup it belongs to and the file it checks. *)
Record task := { tk_index : nat; tk_id : string; tk_codec : option Codec; tk_file : manifestFile }.

Definition new_result (id : string) : VerifyResult :=
  {| vr_BackupID := id; vr_FilesOK := 0; vr_FilesMismatched := 0; vr_Mismatches := [];
     vr_ManifestChecksumOK := false; vr_ManifestChecksumErr := "" |}.

Definition set_manifest (ok : bool) (err : string) (r : VerifyResult) : VerifyResult :=
  {| vr_BackupID := vr_BackupID r; vr_FilesOK := vr_FilesOK r; vr_FilesMismatched := vr_FilesMismatched r;
     vr_Mismatches := vr_Mismatches r; vr_ManifestChecksumOK := ok; vr_ManifestChecksumErr := err |}.

(** One round of the loop over the backups: its result so far, and the goroutines it starts. *)
Definition prepare (i : nat) (id : string) : M W (VerifyResult * list task) :=
  let r := new_result id in
  body <- try (readBlob (path_Join [id; "backup_manifest"])) ;;
  match body with
  | Fail err => ret (set_manifest false (err_msg err) r, [])
  | Ok body =>
      let ok := manifestChecksumOK body in
      sc <- try (readSidecar id) ;;
      match sc with
      | Fail err => ret (set_manifest ok ("read sidecar: " +:+ err_msg err) r, [])
      | Ok sc =>
          let codecName := codecFromSidecar sc in
          let codec := if negb (String.eqb codecName "") && negb (String.eqb codecName "none")
                       then map_result Some (compression_Get codecName) else Ok None in
          match codec with
          | Fail err => ret (set_manifest ok ("compression.Get: " +:+ err_msg err) r, [])
          | Ok codec =>
              match parseManifestFiles body with
              | Fail err => ret (set_manifest ok ("parse manifest: " +:+ err_msg err) r, [])
              | Ok files =>
                  ret (set_manifest ok "" r,
                       (fun f => {| tk_index := i; tk_id := id; tk_codec := codec; tk_file := f |}) <$> files)
              end
          end
      end
  end.

Fixpoint prepare_all (i : nat) (ids : list string) : M W (list VerifyResult * list task) :=
  match ids with
  | [] => ret ([], [])
  | id :: ids' =>
      d <- prepare i id ;;
      rest <- prepare_all (S i) ids' ;;
      ret (fst d :: fst rest, snd d ++ snd rest)
  end.

(** What a goroutine does to the results under the mutex. *)
Definition count (m : option Mismatch) (r : VerifyResult) : VerifyResult :=
  match m with
  | None => {| vr_BackupID := vr_BackupID r; vr_FilesOK := vr_FilesOK r + 1;
               vr_FilesMismatched := vr_FilesMismatched r; vr_Mismatches := vr_Mismatches r;
               vr_ManifestChecksumOK := vr_ManifestChecksumOK r;
               vr_ManifestChecksumErr := vr_ManifestChecksumErr r |}
  | Some m => {| vr_BackupID := vr_BackupID r; vr_FilesOK := vr_FilesOK r;
                 vr_FilesMismatched := vr_FilesMismatched r + 1; vr_Mismatches := vr_Mismatches r ++ [m];
                 vr_ManifestChecksumOK := vr_ManifestChecksumOK r;
                 vr_ManifestChecksumErr := vr_ManifestChecksumErr r |}
  end.

Definition run_tasks (ids : list Identity) (tasks : list task) (results : list VerifyResult)
  : M W (list VerifyResult) :=
  forM tasks results (fun results t =>
    m <- verifyOne (tk_codec t) ids (tk_id t) (tk_file t) ;;
    ret (alter (count m) (tk_index t) results)).

(** [selectBackupIDs]; [order] is the order in which the map of names is ranged over. *)
Definition selectBackupIDs (order : list string -> list string) (only : string) : M W (list string) :=
  if negb (String.eqb only "") then ret [only]
  else
    all <- wrapping "verify: List" (be_List "") ;;
    ret (order (remove_dups (omap backup_dir (fi_Path <$> all)))).

(** [Verify], when its context stays live; [sched] is the order the goroutines run in. *)
Definition Verify (order : list string -> list string) (sched : list task -> list task)
    (backupID : string) (identities : list Identity) : M W (list VerifyResult) :=
  ids <- selectBackupIDs order backupID ;;
  d <- prepare_all 0 ids ;;
  run_tasks identities (sched (snd d)) (fst d).

(** The exit status of [runVerify] once the lock, the identities and the backend are there. *)
Definition verify_exit (r : result (list VerifyResult)) : Z :=
  match r with
  | Fail _ => 4
  | Ok results => if forallb AllOK results then 0 else 5
  end.
End verify.
