(* ===== verification/VerifySpec.v ===== *)
(** * What a verification shows

    The manifest written by a backup passes its own checksum and lists the files of
    the builder; a result that is all right means that every file of the manifest
    decodes to bytes with the recorded digest. *)

From S2P Require Import Prelude Sha256 Time Json JsonSpec Lsn Manifest ManifestSpec Info Storage Filter Verify.

(** ** The checksum of the manifest *)

Lemma EqualFold_refl s : EqualFold s s = true.
Proof. apply String.eqb_refl. Qed.

Lemma HasPrefix_app_cases a c r s : no_byte c s = true -> HasPrefix (a +:+ String c r) s = true -> HasPrefix a s = true.
Proof.
  revert s. induction a as [|d a IH]; intros s Hs Hp.
  - destruct s as [|e s]; [done|]. cbn [String.append] in Hp. rewrite HasPrefix_cons in Hp.
    apply andb_true_iff in Hp as [He _]. apply Ascii.eqb_eq in He as ->.
    unfold no_byte in Hs. cbn [sall] in Hs. by rewrite Ascii.eqb_refl in Hs.
  - destruct s as [|e s]; [done|]. change (String d a +:+ String c r) with (String d (a +:+ String c r)) in Hp.
    rewrite HasPrefix_cons in *. apply andb_true_iff in Hp as [-> Hp]. apply (IH s); [|done].
    unfold no_byte in *. cbn [sall] in Hs. by apply andb_true_iff in Hs as [_ Hs].
Qed.

Lemma Index_after a c r s : s <> "" -> no_byte c s = true -> Contains a s = false ->
  Index (a +:+ String c r) s = (fun n => (slen a + S n)%nat) <$> Index r s.
Proof.
  intros Hne Hs. unfold Contains. induction a as [|d a IH]; intros Hc.
  - destruct s as [|e s]; [done|]. cbn [String.append slen Index Nat.add]. rewrite HasPrefix_cons.
    unfold no_byte in Hs. cbn [sall] in Hs. apply andb_true_iff in Hs as [He _].
    replace (Ascii.eqb e c) with false by (symmetry; by apply negb_true_iff in He || (rewrite Ascii.eqb_sym; by apply negb_true_iff)).
    cbn [andb]. by destruct (Index r _).
  - change (String d a +:+ String c r) with (String d (a +:+ String c r)). cbn [Index] in *.
    destruct (HasPrefix (String d (a +:+ String c r)) s) eqn:Hp.
    + apply (HasPrefix_app_cases (String d a) c r) in Hp; [|done]. by rewrite Hp in Hc.
    + destruct (HasPrefix (String d a) s); [done|]. rewrite IH by (by destruct (Index a s)).
      by destruct (Index r s).
Qed.

Lemma Index_self s t : Index (s +:+ t) s = Some 0%nat.
Proof. destruct (s +:+ t) eqn:E; cbn [Index]; rewrite <- E, HasPrefix_app; done. Qed.

Lemma IndexByte_app a c t : no_byte c a = true -> IndexByte (a +:+ String c t) c = Some (slen a).
Proof.
  induction a as [|d a IH]; intros Ha; [cbn; by rewrite Ascii.eqb_refl|]. unfold no_byte in Ha. cbn [sall] in Ha.
  apply andb_true_iff in Ha as [Hd Ha]. apply negb_true_iff in Hd. cbn. rewrite Hd. fold (no_byte c a) in Ha.
  by rewrite IH.
Qed.

Lemma Contains_prefix a s t : Contains a s = false -> Contains a (s +:+ t) = false.
Proof.
  unfold Contains. destruct (Index a (s +:+ t)) as [n|] eqn:E; [|done]. apply Index_Some in E as (u & v & -> & _).
  intros H. assert (Hs : Index (u +:+ (s +:+ t) +:+ v) s <> None); [|by destruct (Index _ s)].
  clear H. rewrite sapp_assoc. generalize (t +:+ v). intros x. induction u as [|c u IH]; [cbn [String.append]; by rewrite Index_self|].
  cbn [String.append Index]. destruct (HasPrefix _ s); [done|]. by destruct (Index (u +:+ s +:+ x) s).
Qed.

Lemma manifest_body_nl b stop : exists a, manifest_body b stop = a +:+ nl.
Proof.
  unfold manifest_body. eexists. rewrite <- !sapp_assoc. reflexivity.
Qed.

Lemma sdrop_app_len a b c : sdrop (slen a + slen b) (a +:+ b +:+ c) = c.
Proof. rewrite <- sdrop_sdrop, sdrop_app. apply sdrop_app. Qed.

(** The manifest of a backup passes the check of its own digest, unless the marker of the
    digest occurs in what comes before it, as it does when a file is called
    [Manifest-Checksum]. *)
Theorem Finalize_checksum_ok b stop :
  Contains (manifest_body b stop) mark = false -> manifestChecksumOK (Finalize b stop) = true.
Proof.
  intros Hc. destruct (manifest_body_nl b stop) as [a Ha]. set (hex := EncodeToString (Sum256 (manifest_body b stop))).
  set (pre := mark +:+ ": " +:+ String dq "").
  assert (E : Finalize b stop = a +:+ String "010" (pre +:+ hex +:+ String dq ("}" +:+ nl))).
  { unfold Finalize. rewrite Ha at 1. fold hex. unfold pre, mark. clearbody hex. rewrite !sapp_assoc. unfold quoted.
    cbn [String.append]. by rewrite !sapp_assoc. }
  assert (Hlen : (slen a + S 0)%nat = slen (manifest_body b stop)) by (by rewrite Ha, slen_app).
  assert (Hca : Contains a mark = false).
  { rewrite Ha in Hc. unfold Contains in *. destruct (Index a mark) as [n|] eqn:Hn; [|done].
    apply Index_Some in Hn as (u & v & -> & _). rewrite !sapp_assoc in Hc. exfalso. revert Hc. clear.
    generalize (v +:+ nl). intros x. induction u as [|d u IH]; [cbn [String.append]; by rewrite Index_self|].
    cbn [String.append Index]. destruct (HasPrefix _ mark); [done|]. by destruct (Index (u +:+ mark +:+ x) mark). }
  unfold manifestChecksumOK. fold pre. rewrite E.
  rewrite (Index_after a _ _ mark) by (done || reflexivity).
  rewrite (Index_after a _ _ pre) by (done || reflexivity || by apply Contains_prefix).
  replace (Index (pre +:+ hex +:+ String dq ("}" +:+ nl)) mark) with (Some 0%nat)
    by (unfold pre; rewrite sapp_assoc; symmetry; apply Index_self).
  rewrite Index_self. cbn [fmap option_fmap option_map]. rewrite Hlen.
  replace (a +:+ String "010" (pre +:+ hex +:+ String dq ("}" +:+ nl)))
    with (manifest_body b stop +:+ pre +:+ hex +:+ String dq ("}" +:+ nl)) by (rewrite Ha; by rewrite sapp_assoc).
  rewrite sdrop_app_len, stake_app, IndexByte_app by (apply hex_no_byte; [done|apply EncodeToString_hex]).
  unfold hex at 1. rewrite slen_EncodeToString, slen_Sum256. cbn [Nat.mul Nat.add].
  replace 64%nat with (slen hex) by (unfold hex; by rewrite slen_EncodeToString, slen_Sum256).
  rewrite stake_app. apply EqualFold_refl.
Qed.

(** ** The files of the manifest *)

Definition file_ok (f : fileRec) : Prop :=
  valid_utf8 (f_path f) = true /\ is_i64 (f_size f) /\ slen (f_sha256 f) = 32%nat.

Definition listed (f : fileRec) : manifestFile :=
  {| mf_Path := f_path f; mf_Size := f_size f; mf_SHA256 := EncodeToString (f_sha256 f) |}.

Lemma dec_file_value f : file_ok f ->
  dec_struct false manifestFile_fields zero_manifestFile (file_value f) = Some (listed f).
Proof.
  intros (Hp & Hs & _). apply String.eqb_eq in Hp. unfold file_value, dec_struct, zero_manifestFile, listed. rewrite Hp.
  cbn [app]. apply (dec_members_step1 _ _ _ _ _ (Build_manifestFile (f_path f) 0 "")).
  { unfold manifestFile_fields. by run_members. }
  apply (dec_members_step1 _ _ _ _ _ (Build_manifestFile (f_path f) (f_size f) "")).
  { unfold manifestFile_fields. run_members. by rewrite dec_int64_json. }
  unfold manifestFile_fields. destruct (f_incremental f); cbn [app]; by run_members.
Qed.

Lemma parse_files_Finalize b stop :
  Forall file_ok (b_files b) -> parseManifestFiles (Finalize b stop) = Ok (map listed (b_files b)).
Proof.
  intros Hok. unfold parseManifestFiles, Unmarshal. rewrite parse_Finalize. cbn [skip_ws nl].
  change (skip_ws nl) with "". cbv beta iota.
  assert (E : dec_struct false files_fields [] (manifest_value b stop) = Some (map listed (b_files b))).
  { unfold manifest_value, dec_struct, files_fields. run_members. unfold id at 1.
    rewrite (dec_slice_map _ _ file_value listed); [by run_members|].
    rewrite Forall_forall in Hok. intros f Hf. by apply dec_file_value, Hok. }
  rewrite E. f_equal. rewrite Forall_forall in Hok. clear E. induction (b_files b) as [|f fs IH]; [done|].
  cbn [map]. rewrite filter_cons_True; [by rewrite IH by (intros; apply Hok; by constructor)|].
  destruct (Hok f) as (_ & _ & Hl); [by constructor|]. cbn [listed mf_SHA256].
  destruct (f_sha256 f) as [|c s]; [done|]. done.
Qed.

(** What [Finalize] writes is read back by the decoders of verification and restore: the
    files of the builder in order, each with its path, its size and its digest. *)
Theorem Finalize_files_roundtrip b stop :
  Forall file_ok (b_files b) -> parseManifestFiles (Finalize b stop) = Ok (map listed (b_files b)).
Proof. apply parse_files_Finalize. Qed.

(** ** What a result means *)

Definition decode_stored `{FilterLibs} (codec : option Codec) (ids : list Identity) (stored : string) : result string :=
  match (if (0 <? length ids)%nat then encryption_NewReader stored ids else Ok stored) with
  | Fail e => Fail e
  | Ok src => match codec with Some c => codec_NewReader c src | None => Ok src end
  end.

Section sound.
Context {W : Type} `{BackendLaws W, FilterLibs}.
Context (identities : list Identity).

(** The stored bytes of the file decode to bytes with the recorded digest. *)
Definition intact (v : gmap string string) (id : string) (codec : option Codec) (f : manifestFile) : Prop :=
  exists stored plain, v !! path_Join [id; mf_Path f] = Some stored /\
    decode_stored codec identities stored = Ok plain /\
    EqualFold (EncodeToString (Sum256 plain)) (mf_SHA256 f) = true.

Definition task_key (t : task) : string := path_Join [tk_id t; mf_Path (tk_file t)].

Lemma verifyOne_spec codec id f w r w' :
  valid_key (path_Join [id; mf_Path f]) = true -> verifyOne codec identities id f w = (r, w') ->
  view w' = view w /\ exists m, r = Ok m /\ (m = None -> intact (view w) id codec f).
Proof.
  intros Hk. unfold verifyOne, bind, try, ret. destruct (get_spec _ w Hk) as (Hv & Hok & _).
  destruct (be_Get _ w) as [[stored|e] w1]; cbn [snd] in Hv.
  2:{ intros [= <- <-]. split; [done|]. by eexists. }
  pose proof (Hok stored w1 eq_refl) as Hs. unfold intact, decode_stored.
  destruct (if (0 <? length identities)%nat then encryption_NewReader stored identities else Ok stored)
    as [src|e] eqn:Hdec; [|intros [= <- <-]; split; [done|]; by eexists].
  destruct (match codec with Some c => codec_NewReader c src | None => Ok src end) as [plain|e] eqn:Hpl;
    [|intros [= <- <-]; split; [done|]; by eexists].
  destruct (EqualFold _ _) eqn:Hf; intros [= <- <-]; (split; [done|eexists; split; [done|]]); [|done].
  intros _. exists stored, plain. by rewrite Hdec, Hpl.
Qed.

(** How the counters of a result may have moved. *)
Definition advanced (tasks : list task) (v : gmap string string) (i : nat) (r r' : VerifyResult) : Prop :=
  vr_BackupID r' = vr_BackupID r /\ vr_ManifestChecksumOK r' = vr_ManifestChecksumOK r /\
  vr_ManifestChecksumErr r' = vr_ManifestChecksumErr r /\ vr_FilesMismatched r <= vr_FilesMismatched r' /\
  (vr_FilesMismatched r' = vr_FilesMismatched r ->
   forall t, t ∈ tasks -> tk_index t = i -> intact v (tk_id t) (tk_codec t) (tk_file t)).

Lemma run_tasks_spec tasks results w results' w' :
  Forall (fun t => valid_key (task_key t) = true) tasks ->
  run_tasks identities tasks results w = (Ok results', w') ->
  view w' = view w /\
  forall i r', results' !! i = Some r' -> exists r, results !! i = Some r /\ advanced tasks (view w) i r r'.
Proof.
  intros Hk. revert results w. unfold run_tasks. induction Hk as [|t tasks Hk _ IH]; intros results w; cbn [forM].
  - intros [= <- <-]. split; [done|]. intros i r' Hr. exists r'. split; [done|]. split_and!; [done..|].
    intros _ t Ht. by apply not_elem_of_nil in Ht.
  - unfold bind at 1 2. destruct (verifyOne _ _ _ _ w) as [r1 w1] eqn:E.
    destruct (verifyOne_spec _ _ _ _ _ _ Hk E) as (Hv & m & -> & Hm). cbn. intros Hrun.
    destruct (IH _ _ Hrun) as (Hv' & Hall). split; [congruence|]. intros i r' Hr'.
    destruct (Hall i r' Hr') as (r1 & Hr1 & Hid & Hok & Herr & Hle & Hint). rewrite Hv in Hint.
    destruct (decide (tk_index t = i)) as [<-|Hne].
    + rewrite list_lookup_alter_eq in Hr1. destruct (results !! tk_index t) as [r|]; [|done]. cbn in Hr1.
      injection Hr1 as <-. exists r. split; [done|].
      destruct m as [m|]; cbn in Hid, Hok, Herr, Hle, Hint; split_and!; try done; try lia.
      intros E0 t' [->|Ht']%elem_of_cons Hi; [by apply Hm|]. by apply Hint.
    + rewrite list_lookup_alter_ne in Hr1 by done. exists r1. split; [done|]. split_and!; try done.
      intros E0 t' [->|Ht']%elem_of_cons Hi; [done|]. by apply Hint.
Qed.

(** The keys that [Verify] reads for a backup are keys of the storage. *)
Definition keys_ok (v : gmap string string) (id : string) : Prop :=
  valid_key (path_Join [id; "backup_manifest"]) = true /\
  valid_key (path_Join [id; "Storage-Metadata.json"]) = true /\
  forall body files f, v !! path_Join [id; "backup_manifest"] = Some body ->
    parseManifestFiles body = Ok files -> f ∈ files -> valid_key (path_Join [id; mf_Path f]) = true.

(** What [prepare] found out about a backup: a reason not to look at its files, or the files
    it starts goroutines for. *)
Definition prepared (v : gmap string string) (i : nat) (id : string) (r : VerifyResult) (ts : list task) : Prop :=
  vr_BackupID r = id /\ vr_FilesMismatched r = 0 /\
  (vr_ManifestChecksumOK r = true -> vr_ManifestChecksumErr r = "" ->
   exists body files codec,
     v !! path_Join [id; "backup_manifest"] = Some body /\ manifestChecksumOK body = true /\
     parseManifestFiles body = Ok files /\
     ts = (fun f => {| tk_index := i; tk_id := id; tk_codec := codec; tk_file := f |}) <$> files) /\
  Forall (fun t => tk_index t = i /\ valid_key (task_key t) = true) ts.

Lemma prepare_spec i id w d w' :
  keys_ok (view w) id -> prepare i id w = (d, w') ->
  view w' = view w /\ exists r ts, d = Ok (r, ts) /\ prepared (view w) i id r ts.
Proof.
  intros (Hk1 & Hk2 & Hk3). unfold prepare, readSidecar, readBlob, bind, try, ret, of_result.
  destruct (get_spec _ w Hk1) as (Hv & Hok & _).
  destruct (be_Get _ w) as [[body|e] w1]; cbn [snd] in Hv.
  2:{ intros [= <- <-]. split; [done|]. eexists _, _. split; [done|]. split_and!; [done|done|by intros|constructor]. }
  pose proof (Hok body w1 eq_refl) as Hb. destruct (get_spec _ w1 Hk2) as (Hv2 & _ & _).
  destruct (be_Get (path_Join [id; "Storage-Metadata.json"]) w1) as [[sc|e] w2]; cbn [snd] in Hv2.
  2:{ intros [= <- <-]. split; [congruence|]. eexists _, _. split; [done|]. split_and!; [done|done|by intros|constructor]. }
  destruct (UnmarshalSidecar sc) as [s|e].
  2:{ intros [= <- <-]. split; [congruence|]. eexists _, _. split; [done|]. split_and!; [done|done|by intros|constructor]. }
  set (codec := if _ && _ then _ else _). destruct codec as [codec'|e].
  2:{ intros [= <- <-]. split; [congruence|]. eexists _, _. split; [done|]. split_and!; [done|done|by intros|constructor]. }
  destruct (parseManifestFiles body) as [files|e] eqn:Hp.
  2:{ intros [= <- <-]. split; [congruence|]. eexists _, _. split; [done|]. split_and!; [done|done|by intros|constructor]. }
  intros [= <- <-]. split; [congruence|]. eexists _, _. split; [done|]. split_and!; [done..| |].
  - intros Hc _. by exists body, files, codec'.
  - apply Forall_fmap, Forall_forall. intros f Hf. split; [done|]. by apply (Hk3 body files).
Qed.

Lemma prepare_all_spec i ids w d w' :
  Forall (keys_ok (view w)) ids -> prepare_all i ids w = (d, w') ->
  view w' = view w /\ exists rs ts, d = Ok (rs, ts) /\ Forall (fun t => valid_key (task_key t) = true) ts /\
    length rs = length ids /\
    forall k r, rs !! k = Some r -> exists id tsk, ids !! k = Some id /\ prepared (view w) (i + k) id r tsk /\
      (forall t, t ∈ tsk -> t ∈ ts).
Proof.
  revert i w d w'. induction ids as [|id ids IH]; intros i w d w' Hk; cbn [prepare_all].
  - intros [= <- <-]. split; [done|]. eexists _, _. split; [done|]. split_and!; [constructor|done|]. by intros [].
  - apply Forall_cons in Hk as [Hk Hks]. unfold bind, ret.
    destruct (prepare i id w) as [d1 w1] eqn:E1. destruct (prepare_spec _ _ _ _ _ Hk E1) as (Hv1 & r & ts & -> & Hp).
    destruct (prepare_all (S i) ids w1) as [d2 w2] eqn:E2. rewrite <- Hv1 in Hks.
    destruct (IH _ _ _ _ Hks E2) as (Hv2 & rs & tss & -> & Hkeys & Hlen & Hall). cbn [fst snd].
    intros [= <- <-]. split; [congruence|]. eexists _, _. split; [done|]. split_and!.
    + apply Forall_app. split; [|done]. destruct Hp as (_ & _ & _ & Hp). eapply Forall_impl; [exact Hp|]. naive_solver.
    + cbn. by rewrite Hlen.
    + intros [|k] r' Hr'.
      * injection Hr' as <-. exists id, ts. rewrite Nat.add_0_r. split_and!; [done..|]. intros t Ht. apply elem_of_app. by left.
      * destruct (Hall k r' Hr') as (id' & tsk & Hid & Hpr & Hin). exists id', tsk. rewrite Hv1 in Hpr.
        replace (i + S k)%nat with (S i + k)%nat by lia. split_and!; [done..|]. intros t Ht. apply elem_of_app. right. auto.
Qed.
End sound.

(** C20: a result that is all right and reports no error was earned: the manifest of the backup is
    there and passes its checksum, and every file it lists is stored with bytes that decode
    to the recorded digest, in whatever order the goroutines ran. *)
Theorem Verify_sound {W : Type} `{BackendLaws W, FilterLibs} order sched only identities w ids w1 results w' r :
  (forall l, sched l ≡ₚ l) ->
  selectBackupIDs order only w = (Ok ids, w1) -> Forall (keys_ok (view w)) ids ->
  Verify order sched only identities w = (Ok results, w') -> r ∈ results ->
  AllOK r = true -> vr_ManifestChecksumErr r = "" ->
  exists body files codec,
    view w !! path_Join [vr_BackupID r; "backup_manifest"] = Some body /\ manifestChecksumOK body = true /\
    parseManifestFiles body = Ok files /\
    forall f, f ∈ files -> intact identities (view w) (vr_BackupID r) codec f.
Proof.
  intros Hsched Hsel Hkeys Hrun [k Hk]%list_elem_of_lookup Hall Herr.
  assert (Hv1 : view w1 = view w).
  { unfold selectBackupIDs in Hsel. destruct (negb _); [by injection Hsel as <- <-|]. revert Hsel.
    unfold bind, wrapping, ret. destruct (list_spec "" w) as [Hv _]. destruct (be_List "" w) as [[l|e] w2]; [|done].
    by intros [= _ <-]. }
  revert Hrun. unfold Verify. rewrite (run_bind_Ok _ _ _ _ _ Hsel). unfold bind.
  destruct (prepare_all 0 ids w1) as [d w2] eqn:E. rewrite <- Hv1 in Hkeys.
  destruct (prepare_all_spec _ _ _ _ _ Hkeys E) as (Hv2 & rs & ts & -> & Htk & _ & Hprep). cbn [fst snd]. intros Hrun.
  assert (Htk' : Forall (fun t => valid_key (task_key t) = true) (sched ts)) by (by rewrite Hsched).
  destruct (run_tasks_spec identities _ _ _ _ _ Htk' Hrun) as (_ & Hadv).
  destruct (Hadv k r Hk) as (r0 & Hr0 & Hid & Hok & Her & _ & Hint).
  destruct (Hprep k r0 Hr0) as (id & tsk & _ & (Hid0 & Hm0 & Hgood & _) & Hin). unfold AllOK in Hall.
  apply andb_true_iff in Hall as [Hmis Hcok]. apply Z.eqb_eq in Hmis.
  destruct Hgood as (body & files & codec & Hb & Hc & Hp & ->); [congruence..|].
  exists body, files, codec. rewrite Hid, Hid0. rewrite Hv1 in Hb. split_and!; [done..|]. intros f Hf.
  rewrite Hv2, Hv1 in Hint. cbn in Hint.
  apply (Hint ltac:(lia) {| tk_index := k; tk_id := id; tk_codec := codec; tk_file := f |}); [|done].
  rewrite Hsched. apply Hin. by apply list_elem_of_fmap_2.
Qed.

(** ** A stored backup *)

Definition sample_backup : mem :=
  mem_init {["20260401T100000F/backup_manifest" := Finalize sample_builder sample_stop;
             "20260401T100000F/Storage-Metadata.json" := MarshalIndent 0 (sidecar_json sample_sidecar);
             "20260401T100000F/PG_VERSION" := "18"]} [].

Lemma sample_file_ok : Forall file_ok (b_files sample_builder).
Proof.
  apply Forall_singleton. unfold file_ok. cbn [f_path f_size f_sha256].
  split_and!; [reflexivity|unfold is_i64; lia|apply slen_Sum256].
Qed.

Lemma Finalize_files_roundtrip_witness :
  parseManifestFiles (Finalize sample_builder sample_stop) =
  Ok [{| mf_Path := "PG_VERSION"; mf_Size := 2; mf_SHA256 := EncodeToString sample_digest |}].
Proof. exact (Finalize_files_roundtrip sample_builder sample_stop sample_file_ok). Defined.

Lemma sample_body_mark : Contains (manifest_body sample_builder sample_stop) mark = false.
Proof. vm_compute. reflexivity. Qed.

Lemma Finalize_checksum_ok_witness : manifestChecksumOK (Finalize sample_builder sample_stop) = true.
Proof. exact (Finalize_checksum_ok sample_builder sample_stop sample_body_mark). Defined.

(** A file of that name makes its own manifest look corrupt. *)
Lemma Finalize_checksum_name :
  manifestChecksumOK (Finalize (AddFile (NewBuilder sample_info) "Manifest-Checksum" 0 zero32 zero_time) sample_stop) = false.
Proof. vm_compute. reflexivity. Qed.

Lemma sample_verify_ok :
  match fst (Verify (H0:=framing_libs) id id "20260401T100000F" [] sample_backup) with
  | Ok rs => bool_decide (vr_ManifestChecksumErr <$> rs = [""]) && forallb AllOK rs
  | Fail _ => false
  end = true.
Proof. vm_compute. reflexivity. Qed.

Lemma sample_keys_ok : keys_ok (view sample_backup) "20260401T100000F".
Proof.
  split_and!; [reflexivity..|]. intros body files f Hb Hp Hf.
  change (view sample_backup !! "20260401T100000F/backup_manifest" = Some body) in Hb.
  cbn [view mem_laws sample_backup mem_init mem_files] in Hb. rewrite lookup_insert_eq in Hb. injection Hb as <-.
  rewrite (parse_files_Finalize _ _ sample_file_ok) in Hp. injection Hp as <-.
  apply list_elem_of_singleton in Hf as ->. reflexivity.
Qed.

Lemma Verify_sound_witness : exists r w',
  Verify (H0:=framing_libs) id id "20260401T100000F" [] sample_backup = (Ok [r], w') /\ AllOK r = true /\
  exists body files codec, view sample_backup !! path_Join [vr_BackupID r; "backup_manifest"] = Some body /\
    parseManifestFiles body = Ok files /\
    forall f, f ∈ files -> intact (H1:=framing_libs) [] (view sample_backup) (vr_BackupID r) codec f.
Proof.
  pose proof sample_verify_ok as Hok.
  destruct (Verify (H0:=framing_libs) id id "20260401T100000F" [] sample_backup) as [[rs|e] w'] eqn:Hrun; [|discriminate Hok].
  cbn [fst] in Hok. apply andb_true_iff in Hok as [Herr Hall]. apply bool_decide_eq_true in Herr.
  destruct rs as [|r [|? ?]]; [discriminate Herr| |discriminate Herr]. injection Herr as Herr. cbn [forallb] in Hall. rewrite andb_true_r in Hall.
  exists r, w'. split; [reflexivity|]. split; [exact Hall|].
  destruct (Verify_sound (H1:=framing_libs) id id "20260401T100000F" [] sample_backup ["20260401T100000F"] sample_backup
    [r] w' r (fun l => reflexivity l) eq_refl (Forall_cons_2 _ _ _ sample_keys_ok (Forall_nil_2 _)) Hrun
    (list_elem_of_here _ _) Hall Herr) as (body & files & codec & Hb & _ & Hp & Hf).
  exists body, files, codec. split; [exact Hb|]. split; [exact Hp|exact Hf].
Defined.

(** A backup whose sidecar is gone: none of its files is looked at, its result is all right
    all the same, and so is the exit status. *)
Definition sample_no_sidecar : mem :=
  mem_init {["20260401T100000F/backup_manifest" := Finalize sample_builder sample_stop]} [].

Lemma Verify_passes_without_sidecar :
  verify_exit (fst (Verify (H0:=framing_libs) id id "20260401T100000F" [] sample_no_sidecar)) = 0 /\
  match fst (Verify (H0:=framing_libs) id id "20260401T100000F" [] sample_no_sidecar) with
  | Ok rs => (vr_FilesOK <$> rs) = [0]
  | Fail _ => False
  end.
Proof. vm_compute. split; reflexivity. Qed.
