(* ===== verification/Restore.v ===== *)
(** * Restore

    [internal/restore/restore.go] and [chain.go]: the choice of the backup, the chain
    of an incremental, the files, the WAL, and the recovery settings. The branch that
    hands the work to a worker on another host is not here. *)

From S2P Require Import Prelude Sha256 Lsn Storage Host Time Json Manifest Info Archive Filter.

(** ** Options and files *)

(** [Options], without the worker. *)
Record Options `{FilterLibs} := {
  ro_Target : string;
  ro_Identities : list Identity;
  ro_BackupID : string;
  ro_TablespaceRemap : gmap Z string;
  ro_StandbyMode : bool;
  ro_RestoreCommand : string;
  ro_TargetTime : option time;
  ro_TargetXID : option Z;
  ro_TargetLSN : option LSN;
  ro_TargetName : string;
  ro_TargetAction : string;
}.

(** [Result] *)
Record RestoreResult := { rr_BackupID : string; rr_Files : Z; rr_WAL : Z; rr_Bytes : Z }.

(** [ManifestFile] and the struct [parseManifestFiles] decodes into. *)
Record ManifestFile := { rf_mPath : string; rf_mSize : Z; rf_mChecksum : string }.

Definition zero_ManifestFile : ManifestFile := Build_ManifestFile "" 0 "".

Definition ManifestFile_fields : fields ManifestFile :=
  [field "Path" rf_mPath (fun x f => Build_ManifestFile x (rf_mSize f) (rf_mChecksum f)) dec_string;
   field "Size" rf_mSize (fun x f => Build_ManifestFile (rf_mPath f) x (rf_mChecksum f)) dec_int64;
   field "Checksum" rf_mChecksum (fun x f => Build_ManifestFile (rf_mPath f) (rf_mSize f) x) dec_string].

(** [parseManifestFiles] *)
Definition parseManifestFiles (data : string) : result (list ManifestFile) :=
  Decode (dec_struct false
            [field "Files" id (fun x _ => x) (dec_slice zero_ManifestFile (dec_struct false ManifestFile_fields))])
    [] data.

(** ** Recovery targets *)

Section pitr.
Context `{FilterLibs}.

(** [validatePITRExclusive] *)
Definition validatePITRExclusive (opts : Options) : result unit :=
  let set {A} (o : option A) : Z := match o with Some _ => 1 | None => 0 end in
  let count := set (ro_TargetTime opts) + set (ro_TargetXID opts) + set (ro_TargetLSN opts) +
               (if negb (String.eqb (ro_TargetName opts) "") then 1 else 0) in
  let action := ro_TargetAction opts in
  if 1 <? count then Fail (errors_New "restore: at most one target may be set")
  else if negb (String.eqb action "") && negb (String.eqb action "pause") &&
          negb (String.eqb action "promote") && negb (String.eqb action "shutdown")
  then Fail (errors_New "restore: --target-action must be one of pause|promote|shutdown")
  else Ok tt.

Definition setting (name value : string) : string := name +:+ " = '" +:+ value +:+ "'" +:+ nl.

(** [pitrLines] *)
Definition pitrLines (opts : Options) : option string :=
  let target :=
    match ro_TargetTime opts, ro_TargetXID opts, ro_TargetLSN opts with
    | Some t, _, _ => Some (setting "recovery_target_time" (FormatRFC3339 (UTC t)))
    | None, Some xid, _ => Some (setting "recovery_target_xid" (FormatD xid))
    | None, None, Some lsn => Some (setting "recovery_target_lsn" (LSN_String lsn))
    | None, None, None =>
        if negb (String.eqb (ro_TargetName opts) "")
        then Some (setting "recovery_target_name" (ro_TargetName opts)) else None
    end in
  match target with
  | None => None
  | Some b =>
      let action := if String.eqb (ro_TargetAction opts) "" then "pause" else ro_TargetAction opts in
      Some (b +:+ setting "recovery_target_action" action)
  end.
End pitr.

(** ** Tablespaces *)

(** [fmt.Sscanf(line, "%d %s", &oid, &oldPath)] *)
Definition Sscanf_oid_path (line : string) : result (Z * string) :=
  let '(digits, rest) := span_digits (skip_blanks line) in
  match dec_acc 0 digits with
  | Some oid =>
      let path := token (skip_blanks rest) in
      if String.eqb digits "" then Fail (errors_New "expected integer")
      else if 2 ^ 64 - 1 <? oid then Fail (errors_New "unsigned integer overflow")
      else if String.eqb path "" then Fail (errors_Sentinel IoErrUnexpectedEOF "unexpected EOF")
      else Ok (oid, path)
  | None => Fail (errors_New "expected integer")
  end.

Section restore.
Context {W : Type} `{Backend W, Host W, Disk W, FilterLibs}.

(** The loop of [applyTablespaceRemap] over the lines of the map. *)
Definition remap_line (target : string) (remap : gmap Z string) (out line : string) : M W string :=
  if String.eqb line "" then ret out
  else
    d <- of_result (map_error (Errorf_w "parse tablespace_map line") (Sscanf_oid_path line)) ;;
    let '(oid, oldPath) := d in
    match remap !! oid with
    | None => ret (out +:+ FormatD oid +:+ " " +:+ oldPath +:+ nl)
    | Some newPath =>
        let linkPath := path_Join [target; "pg_tblspc"; FormatD oid] in
        try (os_Remove linkPath) ;;;
        wrapping "symlink" (os_Symlink newPath linkPath) ;;;
        wrapping "mkdir tablespace target" (os_MkdirAll newPath) ;;;
        ret (out +:+ FormatD oid +:+ " " +:+ newPath +:+ nl)
    end.

(** [applyTablespaceRemap] *)
Definition applyTablespaceRemap (target : string) (remap : gmap Z string) : M W unit :=
  if (size remap =? 0)%nat then ret tt
  else
    let mapPath := path_Join [target; "tablespace_map"] in
    original <- try (os_ReadFile mapPath) ;;
    match original with
    | Fail err => if errors_Is err OsErrNotExist then ret tt else throw (Errorf_w "read tablespace_map" err)
    | Ok original =>
        out <- forM (Split (TrimSpace original) "010") "" (remap_line target remap) ;;
        wrapping "write tablespace_map" (os_WriteFile mapPath out)
    end.

(** ** Files *)

(** [restoreOneFile]: the file is made first and filled while the body is decoded, so that a body that cannot be decoded
    to its end leaves what was decoded of it. [be_Get] gives the whole body; a transfer that breaks off is a [be_Get]
    that fails, before the file is made. *)
Definition restoreOneFile (codecName : string) (identities : list Identity) (backupID relPath target : string)
  : M W Z :=
  src <- be_Get (path_Join [backupID; relPath]) ;;
  let dstPath := path_Join [target; relPath] in
  let write bytes :=
    wrapping "mkdir" (os_MkdirAll (path_Dir dstPath)) ;;;
    wrapping "create" (os_WriteFile dstPath bytes) in
  match Unwrap codecName src identities with
  | Ok (plain, _) => write plain ;;; ret (Z.of_nat (slen plain))
  | Fail err =>
      match Unwrap_partial codecName src identities with
      | None => throw (Errorf_w "unwrap" err)
      | Some part => write part ;;; throw (Errorf_w "copy" err)
      end
  end.

(** [copyStorageFile] *)
Definition copyStorageFile (repoPath dstPath : string) : M W unit :=
  src <- be_Get repoPath ;;
  os_WriteFile dstPath src.

(** What one goroutine of a group does: the first error, and the two counters. *)
Definition restore_step (codecName : string) (identities : list Identity) (backupID target : string)
    (acc : option error * (Z * Z)) (f : ManifestFile) : M W (option error * (Z * Z)) :=
  let '(first, (count, bytes)) := acc in
  n <- try (wrapping ("file " +:+ rf_mPath f)
              (restoreOneFile codecName identities backupID (rf_mPath f) target)) ;;
  match n with
  | Ok n => ret (first, (count + 1, bytes + n))
  | Fail err => ret (match first with Some _ => first | None => Some err end, (count, bytes))
  end.

(** Every file is tried, in the order the goroutines happen to run, and [Wait] returns the
    first error. *)
Definition restore_files (codecName : string) (identities : list Identity) (backupID target : string)
    (files : list ManifestFile) : M W (Z * Z) :=
  d <- forM files (None, (0, 0)) (restore_step codecName identities backupID target) ;;
  match fst d with Some err => throw err | None => ret (snd d) end.

(** [findLatestBackup] *)
Definition findLatestBackup : M W string :=
  all <- wrapping "findLatestBackup: list" (be_List "") ;;
  let ids := remove_dups (omap backup_dir (fi_Path <$> all)) in
  match last (sort_strings ids) with
  | None => throw (errors_New "findLatestBackup: no backup directories found")
  | Some id => ret id
  end.

(** ** The chain of an incremental *)

(** [readSidecar] *)
Definition readSidecar (backupID : string) : M W Sidecar :=
  body <- be_Get (path_Join [backupID; "Storage-Metadata.json"]) ;;
  of_result (UnmarshalSidecar body).

(** The loop of [buildChain]. *)
Fixpoint build_chain (depth : nat) (id : string) (chain : list string) : M W (list string) :=
  match depth with
  | O => throw (errors_New "backup chain depth exceeded (cycle?)")
  | S depth' =>
      sc <- wrapping "read sidecar" (readSidecar id) ;;
      let chain := id :: chain in
      if String.eqb (sc_Type sc) BackupTypeFull || String.eqb (sc_Type sc) "" then ret chain
      else if negb (String.eqb (sc_Type sc) BackupTypeIncremental)
      then throw (errors_New "unrecognized sidecar type")
      else if String.eqb (sc_ParentBackupID sc) ""
      then throw (errors_New "incremental backup has no parent_backup_id")
      else build_chain depth' (sc_ParentBackupID sc) chain
  end.

Definition maxDepth : nat := 64.

(** [buildChain] *)
Definition buildChain (leafID : string) : M W (list string) := build_chain maxDepth leafID [].

(** [stageBackupContents] *)
Definition stageBackupContents (sched : list ManifestFile -> list ManifestFile) (identities : list Identity)
    (codec : Codec) (backupID dst : string) : M W (Z * Z) :=
  sc <- readSidecar backupID ;;
  forM (sc_Directories sc) tt (fun _ dir => wrapping "mkdir" (os_MkdirAll (path_Join [dst; dir]))) ;;;
  manifestBytes <- wrapping "read manifest" (be_Get (path_Join [backupID; "backup_manifest"])) ;;
  wrapping "write manifest" (os_WriteFile (path_Join [dst; "backup_manifest"]) manifestBytes) ;;;
  files <- of_result (map_error (Errorf_w "parse manifest") (parseManifestFiles manifestBytes)) ;;
  restore_files (codec_Name codec) identities backupID dst (sched files).

(** [runCombineChain]; what it staged is removed whatever happens. *)
Definition runCombineChain (sched : list ManifestFile -> list ManifestFile) (opts : Options) (codec : Codec)
    (leafID : string) : M W (Z * Z) :=
  wrapping "restore: pg_combinebackup not on PATH" (exec_LookPath "pg_combinebackup") ;;;
  chain <- wrapping "restore: build chain" (buildChain leafID) ;;
  if (length chain <? 2)%nat then throw (errors_New "restore: expected at least full + 1 incremental")
  else
    stageRoot <- wrapping "restore: mkdir stage" (os_MkdirTemp (path_Dir (ro_Target opts)) ".pgsafe-stage-") ;;
    r <- try (
      totals <- forM chain (0, 0) (fun '(fc, bc) id =>
        let dst := path_Join [stageRoot; id] in
        wrapping "restore: mkdir stage" (os_MkdirAll dst) ;;;
        d <- wrapping "restore: stage" (stageBackupContents sched (ro_Identities opts) codec id dst) ;;
        ret (fc + fst d, bc + snd d)) ;;
      wrapping "restore: pg_combinebackup"
        (pg_combinebackup ((fun id => path_Join [stageRoot; id]) <$> chain) (ro_Target opts)) ;;;
      ret totals) ;;
    try (os_RemoveAll stageRoot) ;;;
    of_result r.

(** ** The end of every restore *)

(** One round of the loop over the archived WAL. *)
Definition copy_wal (walTarget : string) (count : Z) (w : FileInfo) : M W Z :=
  let base := path_Base (fi_Path w) in
  if String.eqb base (fi_Path w) then ret count
  else match SegmentNameFromBasename base with
       | None => ret count
       | Some segName =>
           wrapping "restore: copy wal" (copyStorageFile (fi_Path w) (path_Join [walTarget; segName])) ;;;
           ret (count + 1)
       end.

(** The text appended to [postgresql.auto.conf]. *)
Definition auto_conf (opts : Options) (autoConf : string) : string :=
  let restoreCmd := if String.eqb (ro_RestoreCommand opts) "" then "/bin/false" else ro_RestoreCommand opts in
  let autoConf := if negb (Contains autoConf "restore_command")
                  then autoConf +:+ nl +:+ setting "restore_command" restoreCmd else autoConf in
  match pitrLines opts with Some pitr => autoConf +:+ pitr | None => autoConf end.

Definition signal_name (opts : Options) : string :=
  if ro_StandbyMode opts then "standby.signal" else "recovery.signal".

(** [finishRestore] *)
Definition finishRestore (opts : Options) (backupID : string) : M W Z :=
  let target := ro_Target opts in
  let manifestTarget := path_Join [target; "backup_manifest"] in
  st <- try (os_Stat manifestTarget) ;;
  (match st with
   | Fail e =>
       if errors_Is e OsErrNotExist
       then wrapping "restore: copy backup_manifest"
              (copyStorageFile (path_Join [backupID; "backup_manifest"]) manifestTarget)
       else ret tt
   | Ok _ => ret tt
   end) ;;;
  let walTarget := path_Join [target; "pg_wal"] in
  wrapping "restore: mkdir pg_wal" (os_MkdirAll walTarget) ;;;
  walEntries <- wrapping "restore: list wal" (be_List "wal") ;;
  walCount <- forM walEntries 0 (copy_wal walTarget) ;;
  wrapping "restore: tablespace remap" (applyTablespaceRemap target (ro_TablespaceRemap opts)) ;;;
  wrapping "restore: signal" (os_WriteFile (path_Join [target; signal_name opts]) "") ;;;
  let autoConfPath := path_Join [target; "postgresql.auto.conf"] in
  autoConf <- try (os_ReadFile autoConfPath) ;;
  autoConf <- (match autoConf with
               | Ok s => ret s
               | Fail e => if errors_Is e OsErrNotExist then ret ""
                           else throw (Errorf_w "restore: read postgresql.auto.conf" e)
               end) ;;
  wrapping "restore: write postgresql.auto.conf" (os_WriteFile autoConfPath (auto_conf opts autoConf)) ;;;
  ret walCount.

(** The codec named before the colon of the sidecar. *)
Definition codec_name (sc : Sidecar) : string :=
  match Cut (sc_Compression sc) ":" with Some (a, _) => a | None => sc_Compression sc end.

(** [Run] without a worker. *)
Definition Run (sched : list ManifestFile -> list ManifestFile) (opts : Options) : M W RestoreResult :=
  if String.eqb (ro_Target opts) "" then throw (errors_New "restore: Target is required")
  else if negb (HasPrefix (ro_Target opts) "/") then throw (errors_New "restore: Target must be absolute")
  else if (length (ro_Identities opts) =? 0)%nat then throw (errors_New "restore: Identities required")
  else
    of_result (validatePITRExclusive opts) ;;;
    backupID <- (if String.eqb (ro_BackupID opts) "" then findLatestBackup else ret (ro_BackupID opts)) ;;
    wrapping "restore: mkdir target" (os_MkdirAll (ro_Target opts)) ;;;
    sidecarBytes <- wrapping "restore: read sidecar" (be_Get (path_Join [backupID; "Storage-Metadata.json"])) ;;
    sc <- of_result (map_error (Errorf_w "restore: parse sidecar") (UnmarshalSidecar sidecarBytes)) ;;
    codec <- of_result (map_error (Errorf_w "restore: codec from sidecar") (compression_Get (codec_name sc))) ;;
    if String.eqb (sc_Type sc) BackupTypeIncremental then
      d <- runCombineChain sched opts codec backupID ;;
      walCount <- finishRestore opts backupID ;;
      ret {| rr_BackupID := backupID; rr_Files := fst d; rr_WAL := walCount; rr_Bytes := snd d |}
    else
      manifestBytes <- wrapping "restore: read manifest" (be_Get (path_Join [backupID; "backup_manifest"])) ;;
      files <- of_result (map_error (Errorf_w "restore: parse manifest") (parseManifestFiles manifestBytes)) ;;
      forM (sc_Directories sc) tt
        (fun _ dir => wrapping "restore: mkdir" (os_MkdirAll (path_Join [ro_Target opts; dir]))) ;;;
      d <- restore_files (codec_name sc) (ro_Identities opts) backupID (ro_Target opts) (sched files) ;;
      walCount <- finishRestore opts backupID ;;
      ret {| rr_BackupID := backupID; rr_Files := fst d; rr_WAL := walCount; rr_Bytes := snd d |}.
End restore.
