(* ===== verification/RestoreSpec.v ===== *)
(** * What a restore leaves on the host

    A successful restore of a full backup leaves, under every path of the manifest,
    the bytes the stored file decodes to; the recovery settings are in place; and the
    chain of an incremental starts at a full backup and follows the parents. *)

From S2P Require Import Prelude Sha256 Lsn Storage Keys Host Time Json JsonSpec Manifest ManifestSpec Info InfoSpec Archive Filter Worlds Restore.

(** ** Frames on the host *)

Section host_frames.
Context {W : Type} `{DiskLaws W}.

(** The storage is as it was, and so are the files of the host outside [K]. *)
Definition wrote (K : string -> Prop) : relation W := fun w w' =>
  view w' = view w /\ forall p, ~ K p -> host_files w' !! p = host_files w !! p.

#[export] Instance wrote_preorder K : PreOrder (wrote K).
Proof.
  split; [by intros w|]. intros w1 w2 w3 [H12 F12] [H23 F23]. split; [congruence|]. intros p Hp.
  by rewrite F23, F12.
Qed.

Lemma wrote_mono (K K' : string -> Prop) {A} (m : M W A) :
  (forall p, K p -> K' p) -> preserves (wrote K) m -> preserves (wrote K') m.
Proof. intros HK Hm w. destruct (Hm w) as [Hv Hf]. split; [done|]. intros p Hp. apply Hf. naive_solver. Qed.

Lemma os_WriteFile_wrote (K : string -> Prop) p c : K p -> preserves (wrote K) (os_WriteFile p c).
Proof.
  intros HK w. destruct (write_file_spec p c w) as (Hv & Hf & _). split; [done|]. intros q Hq. apply Hf.
  by intros ->.
Qed.

Lemma os_ReadFile_wrote K p : preserves (wrote K) (os_ReadFile p).
Proof. intros w. destruct (read_file_spec p w) as (Hv & Hf & _). split; [done|]. intros q _. by rewrite Hf. Qed.

Lemma os_MkdirAll_wrote K p : preserves (wrote K) (os_MkdirAll p).
Proof. intros w. destruct (mkdir_spec p w) as [Hv Hf]. split; [done|]. intros q _. by rewrite Hf. Qed.

Lemma os_Stat_wrote K p : preserves (wrote K) (os_Stat p).
Proof. intros w. destruct (stat_spec_host p w) as [Hv Hf]. split; [done|]. intros q _. by rewrite Hf. Qed.

Lemma be_Get_wrote K p : valid_key p = true -> preserves (wrote K) (be_Get p).
Proof. intros Hp w. split; [by apply get_view|]. intros q _. by rewrite get_host. Qed.

Lemma be_List_wrote K p : preserves (wrote K) (be_List p).
Proof. intros w. split; [apply list_view|]. intros q _. by rewrite list_host. Qed.
End host_frames.

(** Walks through a command; what is left are the calls that need an argument. *)
Ltac frame :=
  lazymatch goal with
  | |- preserves _ (bind _ _) => apply preserves_bind; [tc_solve|frame|intros ?; frame]
  | |- preserves _ (wrapping _ _) => apply preserves_wrapping; frame
  | |- preserves _ (try _) => apply preserves_try; frame
  | |- preserves _ (ret _) => apply preserves_ret; tc_solve
  | |- preserves _ (throw _) => apply preserves_throw; tc_solve
  | |- preserves _ (of_result _) => apply preserves_of_result; tc_solve
  | |- preserves _ (forM _ _ _) => apply preserves_forM; [tc_solve|intros ? ? ?; frame]
  | |- preserves _ (os_ReadFile _) => apply os_ReadFile_wrote
  | |- preserves _ (os_MkdirAll _) => apply os_MkdirAll_wrote
  | |- preserves _ (os_Stat _) => apply os_Stat_wrote
  | |- preserves _ (be_List _) => apply be_List_wrote
  | |- preserves _ (be_Get _) => apply be_Get_wrote; try assumption
  | |- preserves _ (os_WriteFile _ _) => apply os_WriteFile_wrote; try reflexivity
  | |- preserves _ (match ?x with _ => _ end) => destruct x; frame
  | |- _ => idtac
  end.

(** ** Paths below the target *)

Section restore_spec.
Context {W : Type} `{DiskLaws W} `{FilterLibs}.

(** ** The files of the manifest *)

Section files.
Context (codecName : string) (identities : list Identity) (backupID target : string).

Definition dst (p : string) : string := path_Join [target; p].

(** The file at [p] was stored as something that decodes to what the host now has. *)
Definition restored (v : gmap string string) (host : gmap string string) (p : string) : Prop :=
  exists stored plain res, v !! path_Join [backupID; p] = Some stored /\
    Unwrap codecName stored identities = Ok (plain, res) /\ host !! dst p = Some plain.

Lemma restoreOneFile_wrote p : valid_key (path_Join [backupID; p]) = true ->
  preserves (wrote (fun q => q = dst p)) (restoreOneFile codecName identities backupID p target).
Proof.
  intros Hk. unfold restoreOneFile. frame.
Qed.

Lemma restoreOneFile_Ok p w n w' : valid_key (path_Join [backupID; p]) = true ->
  restoreOneFile codecName identities backupID p target w = (Ok n, w') ->
  restored (view w) (host_files w') p.
Proof.
  intros Hk. unfold restoreOneFile. munfold. destruct (get_spec _ w Hk) as (Hv & Hok & _).
  destruct (be_Get _ w) as [[stored|e] w1]; [|done]. specialize (Hok stored w1 eq_refl).
  destruct (Unwrap codecName stored identities) as [[plain r]|e] eqn:Hu.
  2:{ destruct (Unwrap_partial _ _ _) as [part|]; [|done]. destruct (os_MkdirAll _ w1) as [[[]|?] w2]; [|done]. cbn [map_error]. by destruct (os_WriteFile _ part w2) as [[[]|?] w3]. }
  destruct (os_MkdirAll _ w1) as [[[]|e] w2]; [|done]. cbn [map_error].
  destruct (write_file_spec (path_Join [target; p]) plain w2) as (_ & _ & Hw).
  destruct (os_WriteFile _ plain w2) as [[[]|e] w3]; [|done]. intros [= <- <-].
  exists stored, plain, r. split_and!; [done..|]. rewrite (Hw w3 eq_refl). apply lookup_insert_eq.
Qed.

Lemma restore_step_spec acc f w r w' : valid_key (path_Join [backupID; rf_mPath f]) = true ->
  restore_step codecName identities backupID target acc f w = (r, w') ->
  wrote (fun q => q = dst (rf_mPath f)) w w' /\ exists acc', r = Ok acc' /\
    (acc'.1 = None -> acc.1 = None /\ acc'.2.1 = acc.2.1 + 1 /\ restored (view w) (host_files w') (rf_mPath f)).
Proof.
  intros Hk. destruct acc as [first [c b]]. unfold restore_step. munfold.
  pose proof (restoreOneFile_wrote _ Hk w) as Hw. pose proof (restoreOneFile_Ok (rf_mPath f) w) as Hok.
  destruct (restoreOneFile _ _ _ _ _ w) as [[n|e] w1]; cbn [map_error snd] in *; intros [= <- <-]; (split; [done|]).
  - eexists. split; [done|]. cbn. intros ->. split_and!; [done..|]. by apply (Hok n).
  - eexists. split; [done|]. by destruct first.
Qed.

Lemma restore_loop files acc w r w' :
  clean_target target -> Forall (fun f => plain_path (rf_mPath f) = true) files ->
  Forall (fun f => valid_key (path_Join [backupID; rf_mPath f]) = true) files -> NoDup (map rf_mPath files) ->
  forM files acc (restore_step codecName identities backupID target) w = (r, w') ->
  wrote (fun q => exists f, f ∈ files /\ q = dst (rf_mPath f)) w w' /\ exists acc', r = Ok acc' /\
    (acc'.1 = None -> acc.1 = None /\ acc'.2.1 = acc.2.1 + Z.of_nat (length files) /\
      forall f, f ∈ files -> restored (view w) (host_files w') (rf_mPath f)).
Proof.
  intros Ht Hp Hk Hnd. revert acc w. induction files as [|f files IH]; intros acc w; cbn [forM].
  - intros [= <- <-]. split; [reflexivity|]. eexists. split; [done|]. intros ->. split_and!; [done|simpl; lia|].
    intros f Hf. by apply not_elem_of_nil in Hf.
  - apply Forall_cons in Hp as [Hpf Hp]. apply Forall_cons in Hk as [Hkf Hk]. apply NoDup_cons in Hnd as [Hnin Hnd].
    unfold bind. destruct (restore_step codecName identities backupID target acc f w) as [r1 w1] eqn:E1.
    destruct (restore_step_spec _ _ _ _ _ Hkf E1) as ([Hv1 Hf1] & acc1 & -> & Hok1). intros Hrun.
    destruct (IH Hp Hk Hnd acc1 w1 Hrun) as ([Hv2 Hf2] & acc2 & -> & Hok2). split.
    { split; [congruence|]. intros q Hq. rewrite Hf2, Hf1; [done|..].
      - intros ->. apply Hq. exists f. split; [constructor|done].
      - intros (g & Hg & ->). apply Hq. exists g. split; [by constructor|done]. }
    eexists. split; [done|]. intros Hnone. destruct (Hok2 Hnone) as (Hn1 & Hc & Hall).
    destruct (Hok1 Hn1) as (Hn & Hc1 & Hr). split_and!; [done|simpl length; lia|].
    intros g [->|Hg]%elem_of_cons; [|rewrite <- Hv1; by apply Hall].
    destruct Hr as (st & pl & res & Hst & Hu & Hh). exists st, pl, res. split_and!; [done..|].
    rewrite Hf2; [done|]. intros (h & Hh' & E). apply Hnin. apply target_Join_inj in E as ->; [|done..|].
    + by apply list_elem_of_fmap_2.
    + rewrite Forall_forall in Hp. by apply Hp.
Qed.

Lemma restore_files_spec files w cb w' :
  clean_target target -> Forall (fun f => plain_path (rf_mPath f) = true) files ->
  Forall (fun f => valid_key (path_Join [backupID; rf_mPath f]) = true) files -> NoDup (map rf_mPath files) ->
  restore_files codecName identities backupID target files w = (Ok cb, w') ->
  wrote (fun q => exists f, f ∈ files /\ q = dst (rf_mPath f)) w w' /\ cb.1 = Z.of_nat (length files) /\
  forall f, f ∈ files -> restored (view w) (host_files w') (rf_mPath f).
Proof.
  intros Ht Hp Hk Hnd. unfold restore_files.
  unfold bind at 1. destruct (forM files (None, (0, 0)) _ w) as [r w1] eqn:E.
  destruct (restore_loop _ _ _ _ _ Ht Hp Hk Hnd E) as (Hw & acc & -> & Hok).
  destruct acc as [[e|] cb']; cbn; [done|]. intros [= <- <-]. destruct (Hok eq_refl) as (_ & Hc & Hall). done.
Qed.
End files.

(** ** The end of a restore *)

(** The paths below the target that [finishRestore] may write. *)
Definition reserved (q : string) : Prop :=
  q = "backup_manifest" \/ q = "recovery.signal" \/ q = "standby.signal" \/ q = "postgresql.auto.conf" \/
  exists seg, slen seg = 24%nat /\ plain_seg seg = true /\ q = "pg_wal/" +:+ seg.

Definition reserved_in (target p : string) : Prop := exists q, reserved q /\ plain_path q = true /\ p = path_Join [target; q].

Lemma preserves_bind_list {A} (R : relation W) `{!PreOrder R} prefix (k : list FileInfo -> M W A) msg :
  preserves R (be_List prefix) -> (forall l, Forall (fun fi => valid_key (fi_Path fi) = true) l -> preserves R (k l)) ->
  preserves R (l <- wrapping msg (be_List prefix) ;; k l).
Proof.
  intros Hl Hk w. specialize (Hl w). munfold. destruct (list_spec prefix w) as [_ Hok].
  destruct (be_List prefix w) as [[l|e] w1]; cbn [map_error snd] in *; [|done]. etrans; [exact Hl|].
  apply Hk, Forall_forall. intros fi Hfi. destruct (Hok l w1 eq_refl) as [_ Hall]. by apply Hall.
Qed.

Lemma plain_seg_stake24 b seg : SegmentNameFromBasename b = Some seg -> no_byte "/" b = true ->
  slen seg = 24%nat /\ plain_seg seg = true.
Proof.
  unfold SegmentNameFromBasename. destruct (slen b =? 24 + 1 + 64)%nat eqn:E; [|done]. apply Nat.eqb_eq in E. cbn [negb].
  destruct (sget b 24) as [c|]; [|done]. destruct (Ascii.eqb c "-"); [|done]. intros Hseg Hb.
  assert (Hl : slen (stake 24 b) = 24%nat) by (rewrite slen_take; lia).
  rewrite <- (stake_drop 24 b), no_byte_app in Hb. apply andb_true_iff in Hb as [Hb _].
  generalize dependent (stake 24 b). intros s [= ->] Hb Hl. split; [done|].
  unfold plain_seg. rewrite Hb, andb_true_r, !andb_true_iff, !negb_true_iff.
  split_and!; apply String.eqb_neq; intros ->; done.
Qed.

Lemma path_Base_no_slash p : valid_key p = true -> no_byte "/" (path_Base p) = true.
Proof.
  intros [Hp _]%andb_true_iff. pose proof (plain_path_nonempty p Hp) as Hne.
  destruct (last_slash p) as [Hn|(a & b & -> & Hb)].
  - unfold path_Base. apply String.eqb_neq in Hne as E. rewrite E.
    pose proof (TrimRightSlash_app "" p Hne Hn) as Ht. cbn [String.append] in Ht. rewrite Ht, Split_no_byte by done.
    cbn [List.last]. by rewrite E.
  - change (String "/" b) with ("/" +:+ b). rewrite path_Base_app; [done| |done]. intros ->.
    unfold plain_path in Hp. rewrite Split_app_any, forallb_app in Hp. by apply andb_true_iff in Hp as [_ Hp].
Qed.

Lemma reserved_in_wal target seg : clean_target target -> slen seg = 24%nat -> plain_seg seg = true ->
  reserved_in target (path_Join [path_Join [target; "pg_wal"]; seg]).
Proof.
  intros Ht Hs Hp. exists ("pg_wal/" +:+ seg).
  assert (Hpath : plain_path ("pg_wal" +:+ "/" +:+ seg) = true) by (apply plain_path_app; [done|by apply plain_seg_path]).
  split_and!; [unfold reserved; naive_solver|exact Hpath|]. rewrite (target_Join target "pg_wal") by done.
  destruct Ht as (a & Ha & ->). rewrite target_Join.
  - rewrite (target_Join _ ("pg_wal/" +:+ seg)); [by rewrite !sapp_assoc|by exists a|exact Hpath].
  - exists (a +:+ "/" +:+ "pg_wal"). split; [by apply plain_path_app|by rewrite !sapp_assoc].
  - by apply plain_seg_path.
Qed.

Lemma reserved_in_name target q : reserved q -> plain_path q = true -> reserved_in target (path_Join [target; q]).
Proof. intros Hr Hq. by exists q. Qed.

Lemma copy_wal_wrote target count fi : clean_target target -> valid_key (fi_Path fi) = true ->
  preserves (wrote (reserved_in target)) (copy_wal (path_Join [target; "pg_wal"]) count fi).
Proof.
  intros Ht Hk. unfold copy_wal. destruct (String.eqb _ _); [frame|].
  destruct (SegmentNameFromBasename _) as [seg|] eqn:E; [|frame].
  apply plain_seg_stake24 in E as [Hs Hp]; [|by apply path_Base_no_slash].
  unfold copyStorageFile. frame. by apply reserved_in_wal.
Qed.

Lemma reserved_names : reserved "backup_manifest" /\ reserved "recovery.signal" /\ reserved "standby.signal" /\
  reserved "postgresql.auto.conf".
Proof. unfold reserved. tauto. Qed.

Lemma finishRestore_wrote opts id : clean_target (ro_Target opts) -> ro_TablespaceRemap opts = ∅ ->
  valid_key (path_Join [id; "backup_manifest"]) = true ->
  preserves (wrote (reserved_in (ro_Target opts))) (finishRestore opts id).
Proof.
  intros Ht Hm Hk. destruct reserved_names as (R1 & R2 & R3 & R4).
  pose proof (reserved_in_name (ro_Target opts)) as Hr.
  unfold finishRestore, applyTablespaceRemap, copyStorageFile. rewrite Hm. change (size ∅ =? 0)%nat with true. cbv beta iota.
  apply preserves_bind; [tc_solve|frame|intros st]. apply preserves_bind; [tc_solve| |intros []].
  { destruct st; [frame|]. destruct (errors_Is _ _); [|frame]. frame. by apply Hr. }
  apply preserves_bind; [tc_solve|frame|intros []].
  apply preserves_bind_list; [tc_solve|frame|intros entries Hkeys].
  apply preserves_bind; [tc_solve| |intros count].
  { apply preserves_forM; [tc_solve|]. intros acc fi Hfi. rewrite Forall_forall in Hkeys.
    by apply copy_wal_wrote; [|apply Hkeys]. }
  frame; [|by apply Hr..]. unfold signal_name. by destruct (ro_StandbyMode opts); apply Hr.
Qed.

(** The signal file and the settings. *)
Lemma finishRestore_Ok opts id w n w' : clean_target (ro_Target opts) -> finishRestore opts id w = (Ok n, w') ->
  host_files w' !! path_Join [ro_Target opts; signal_name opts] = Some "" /\
  exists old, host_files w' !! path_Join [ro_Target opts; "postgresql.auto.conf"] = Some (auto_conf opts old).
Proof.
  intros Ht Hrun. unfold finishRestore in Hrun.
  do 6 (apply bind_inv_Ok in Hrun as (? & ? & _ & Hrun)).
  apply bind_inv_Ok in Hrun as ([] & w1 & Hsig%wrapping_inv_Ok & Hrun).
  apply bind_inv_Ok in Hrun as (r & w2 & Hread & Hrun). apply bind_inv_Ok in Hrun as (old & w3 & Hold & Hrun).
  apply bind_inv_Ok in Hrun as ([] & w4 & Hconf%wrapping_inv_Ok & [= _ <-]).
  match type of Hsig with os_WriteFile ?p ?c ?w = _ => destruct (write_file_spec p c w) as (_ & _ & Hw1) end.
  specialize (Hw1 _ Hsig).
  pose proof (os_ReadFile_wrote (fun _ => False) (path_Join [ro_Target opts; "postgresql.auto.conf"]) w1) as [_ Hr].
  unfold try in Hread. destruct (os_ReadFile _ w1) as [r' w2'] eqn:E. injection Hread as -> ->.
  assert (Hw3 : w3 = w2) by (destruct r as [s|e]; [by injection Hold|]; destruct (errors_Is _ _); [by injection Hold|done]).
  subst w3. match type of Hconf with os_WriteFile ?p ?c _ = _ => destruct (write_file_spec p c w2) as (_ & _ & Hw2) end.
  rewrite (Hw2 _ Hconf). split; [|exists old; apply lookup_insert_eq].
  assert (Hne : path_Join [ro_Target opts; "postgresql.auto.conf"] <> path_Join [ro_Target opts; signal_name opts]).
  { intros E'. apply target_Join_inj in E'; [|done|done|]; unfold signal_name in *; by destruct (ro_StandbyMode opts). }
  rewrite lookup_insert_ne by done. cbn [snd] in Hr. rewrite Hr by tauto. rewrite Hw1. apply lookup_insert_eq.
Qed.

Lemma get_Ok p w c w' K : valid_key p = true -> be_Get p w = (Ok c, w') ->
  view w !! p = Some c /\ wrote K w w' /\ host_files w' = host_files w.
Proof.
  intros Hk Hg. destruct (get_spec p w Hk) as (Hv & Hok & _). rewrite Hg in Hv. cbn [snd] in Hv.
  pose proof (get_host p w) as Hh. rewrite Hg in Hh. cbn [snd] in Hh.
  split; [by apply (Hok c w')|]. split; [|done]. split; [done|]. intros q _. by rewrite Hh.
Qed.

Lemma mkdirs_wrote K target dirs : preserves (wrote K)
  (forM dirs tt (fun _ dir => wrapping "restore: mkdir" (os_MkdirAll (path_Join [target; dir])))).
Proof. frame. Qed.

Lemma Run_spec sched opts w res w' sctext sc body files :
  (forall l, sched l ≡ₚ l) -> ro_TablespaceRemap opts = ∅ -> clean_target (ro_Target opts) -> ro_BackupID opts <> "" ->
  view w !! path_Join [ro_BackupID opts; "Storage-Metadata.json"] = Some sctext ->
  UnmarshalSidecar sctext = Ok sc -> sc_Type sc <> BackupTypeIncremental ->
  view w !! path_Join [ro_BackupID opts; "backup_manifest"] = Some body -> parseManifestFiles body = Ok files ->
  valid_key (path_Join [ro_BackupID opts; "Storage-Metadata.json"]) = true ->
  valid_key (path_Join [ro_BackupID opts; "backup_manifest"]) = true ->
  Forall (fun f => plain_path (rf_mPath f) = true) files ->
  Forall (fun f => valid_key (path_Join [ro_BackupID opts; rf_mPath f]) = true) files -> NoDup (map rf_mPath files) ->
  Run sched opts w = (Ok res, w') ->
  view w' = view w /\ rr_BackupID res = ro_BackupID opts /\ rr_Files res = Z.of_nat (length files) /\
  (forall f, f ∈ files -> ~ reserved (rf_mPath f) ->
     restored (codec_name sc) (ro_Identities opts) (ro_BackupID opts) (ro_Target opts) (view w) (host_files w') (rf_mPath f)) /\
  (forall p, ~ reserved_in (ro_Target opts) p -> (forall f, f ∈ files -> p <> path_Join [ro_Target opts; rf_mPath f]) ->
     host_files w' !! p = host_files w !! p) /\
  host_files w' !! path_Join [ro_Target opts; signal_name opts] = Some "" /\
  exists old, host_files w' !! path_Join [ro_Target opts; "postgresql.auto.conf"] = Some (auto_conf opts old).
Proof.
  intros Hsched Hm Ht Hid Hsc Hun Hty Hbody Hparse Hk1 Hk2 Hplain Hkeys Hnd. unfold Run.
  destruct (String.eqb (ro_Target opts) ""); [done|]. destruct (negb (HasPrefix _ "/")); [done|].
  destruct (length (ro_Identities opts) =? 0)%nat; [done|]. apply String.eqb_neq in Hid. rewrite Hid. intros Hrun.
  apply bind_inv_Ok in Hrun as ([] & w0 & Hpitr & Hrun).
  assert (w0 = w) as -> by (unfold of_result in Hpitr; by injection Hpitr). clear Hpitr.
  apply bind_inv_Ok in Hrun as (? & ? & [= <- <-] & Hrun).
  apply bind_inv_Ok in Hrun as ([] & w1 & Hmk%wrapping_inv_Ok & Hrun).
  destruct (mkdir_spec (ro_Target opts) w) as [Hv1 Hh1]. rewrite Hmk in Hv1, Hh1. cbn [snd] in Hv1, Hh1.
  apply bind_inv_Ok in Hrun as (sct & w2 & Hget%wrapping_inv_Ok & Hrun).
  destruct (get_Ok _ _ _ _ (fun _ => False) Hk1 Hget) as (Hsc' & [Hv2 _] & Hh2). rewrite Hv1, Hsc in Hsc'. injection Hsc' as <-.
  rewrite Hun in Hrun. cbn [map_error of_result] in Hrun. apply bind_inv_Ok in Hrun as (? & ? & [= <- <-] & Hrun).
  apply bind_inv_Ok in Hrun as (codec & w2' & Hcodec & Hrun).
  assert (w2' = w2) as -> by (unfold of_result in Hcodec; by injection Hcodec). clear Hcodec.
  apply String.eqb_neq in Hty. rewrite Hty in Hrun.
  apply bind_inv_Ok in Hrun as (mb & w3 & Hget3%wrapping_inv_Ok & Hrun).
  destruct (get_Ok _ _ _ _ (fun _ => False) Hk2 Hget3) as (Hb' & [Hv3 _] & Hh3). rewrite Hv2, Hv1, Hbody in Hb'. injection Hb' as <-.
  rewrite Hparse in Hrun. cbn [map_error of_result] in Hrun. apply bind_inv_Ok in Hrun as (? & ? & [= <- <-] & Hrun).
  apply bind_inv_Ok in Hrun as ([] & w4 & Hdirs & Hrun).
  pose proof (mkdirs_wrote (fun _ => False) (ro_Target opts) (sc_Directories sc) w3) as [Hv4 Hh4].
  rewrite Hdirs in Hv4, Hh4. cbn [snd] in Hv4, Hh4.
  apply bind_inv_Ok in Hrun as (cb & w5 & Hfiles & Hrun).
  apply bind_inv_Ok in Hrun as (n & w6 & Hfin & Hret). injection Hret as <- <-. cbn [rr_BackupID rr_Files].
  destruct (restore_files_spec (codec_name sc) (ro_Identities opts) (ro_BackupID opts) (ro_Target opts) (sched files) w4 cb w5 Ht)
    as ([Hv5 Hf5] & Hcount & Hall); [by rewrite Hsched..|exact Hfiles|].
  pose proof (finishRestore_wrote opts (ro_BackupID opts) Ht Hm Hk2 w5) as [Hv6 Hf6]. rewrite Hfin in Hv6, Hf6. cbn [snd] in Hv6, Hf6.
  assert (Hv : view w4 = view w) by congruence.
  split; [congruence|]. split; [done|]. split; [by rewrite Hcount, Hsched|]. split; [|split; [|by eapply finishRestore_Ok]].
  - intros f Hf Hres. destruct (Hall f) as (st & pl & r & Hst & Hu & Hh); [by rewrite Hsched|].
    exists st, pl, r. rewrite <- Hv. split_and!; [done..|]. rewrite Hf6; [done|]. intros (q & Hq & Hpq & E).
    apply target_Join_inj in E; [|done| |done]; [congruence|]. rewrite Forall_forall in Hplain. by apply Hplain.
  - intros p Hp Hpf. rewrite Hf6 by done. rewrite Hf5; [|intros (f & Hf & E); rewrite Hsched in Hf; by apply (Hpf f)].
    rewrite Hh4 by tauto. by rewrite Hh3, Hh2, Hh1.
Qed.
(** C9: a successful restore of a full backup leaves, under every path of the manifest that
    recovery does not write itself, exactly the bytes the stored file decodes to, in whatever
    order the goroutines ran; it counts them all, leaves the storage and the rest of the host
    alone, and leaves the recovery signal and settings behind. *)
Theorem Run_restores sched opts w res w' sctext sc body files :
  (forall l, sched l ≡ₚ l) -> ro_TablespaceRemap opts = ∅ -> clean_target (ro_Target opts) -> ro_BackupID opts <> "" ->
  view w !! path_Join [ro_BackupID opts; "Storage-Metadata.json"] = Some sctext ->
  UnmarshalSidecar sctext = Ok sc -> sc_Type sc <> BackupTypeIncremental ->
  view w !! path_Join [ro_BackupID opts; "backup_manifest"] = Some body -> parseManifestFiles body = Ok files ->
  valid_key (path_Join [ro_BackupID opts; "Storage-Metadata.json"]) = true ->
  valid_key (path_Join [ro_BackupID opts; "backup_manifest"]) = true ->
  Forall (fun f => plain_path (rf_mPath f) = true) files ->
  Forall (fun f => valid_key (path_Join [ro_BackupID opts; rf_mPath f]) = true) files -> NoDup (map rf_mPath files) ->
  Run sched opts w = (Ok res, w') ->
  view w' = view w /\ rr_BackupID res = ro_BackupID opts /\ rr_Files res = Z.of_nat (length files) /\
  (forall f, f ∈ files -> ~ reserved (rf_mPath f) ->
     restored (codec_name sc) (ro_Identities opts) (ro_BackupID opts) (ro_Target opts) (view w) (host_files w') (rf_mPath f)) /\
  (forall p, ~ reserved_in (ro_Target opts) p -> (forall f, f ∈ files -> p <> path_Join [ro_Target opts; rf_mPath f]) ->
     host_files w' !! p = host_files w !! p) /\
  host_files w' !! path_Join [ro_Target opts; signal_name opts] = Some "" /\
  exists old, host_files w' !! path_Join [ro_Target opts; "postgresql.auto.conf"] = Some (auto_conf opts old).
Proof. apply Run_spec. Qed.
End restore_spec.

(** ** The chain of an incremental *)

(** The backups needed to rebuild a backup, from the full one to itself. *)
Inductive chain_to (v : gmap string string) : string -> list string -> Prop :=
| chain_to_full id sc : sidecar_at v id sc -> (sc_Type sc = BackupTypeFull \/ sc_Type sc = "") -> chain_to v id [id]
| chain_to_incremental id sc ids : sidecar_at v id sc -> sc_Type sc = BackupTypeIncremental ->
    sc_ParentBackupID sc <> "" -> chain_to v (sc_ParentBackupID sc) ids -> chain_to v id (ids ++ [id]).

(** The storage can be asked for the sidecar of every parent a sidecar of it names. *)
Definition parent_key (text : string) : bool :=
  match UnmarshalSidecar text with
  | Ok sc => String.eqb (sc_ParentBackupID sc) "" || valid_key (path_Join [sc_ParentBackupID sc; "Storage-Metadata.json"])
  | Fail _ => true
  end.

Lemma sidecar_at_inj v id sc sc' : sidecar_at v id sc -> sidecar_at v id sc' -> sc = sc'.
Proof. intros (t & Ht & Hu) (t' & Ht' & Hu'). congruence. Qed.

Lemma types_differ : BackupTypeFull <> BackupTypeIncremental /\ "" <> BackupTypeIncremental.
Proof. done. Qed.

Lemma chain_to_inj v id ids ids' : chain_to v id ids -> chain_to v id ids' -> ids = ids'.
Proof.
  intros Hc. revert ids'. destruct types_differ. induction Hc as [id sc Hs Ht|id sc ids Hs Ht Hp Hc IH]; intros ids' Hc';
    inversion Hc' as [? sc' Hs' Ht'|? sc' ids2 Hs' Ht' Hp' Hc2]; subst; pose proof (sidecar_at_inj _ _ _ _ Hs Hs') as <-;
    try done; try (exfalso; destruct_or?; congruence). by rewrite (IH ids2).
Qed.

Lemma chain_to_prefix v id ids x : chain_to v id ids -> x ∈ ids ->
  exists pre, chain_to v x pre /\ (length pre <= length ids)%nat /\ (x <> id -> (length pre < length ids)%nat).
Proof.
  induction 1 as [id sc Hs Ht|id sc ids Hs Ht Hp Hc IH]; intros Hx.
  - apply list_elem_of_singleton in Hx as ->. exists [id]. split; [by eapply chain_to_full|]. done.
  - apply elem_of_app in Hx as [Hx|Hx%list_elem_of_singleton]; [|subst x].
    + destruct (IH Hx) as (pre & Hpre & Hle & _). exists pre. rewrite length_app. simpl. split; [done|]. lia.
    + exists (ids ++ [id]). split; [by eapply chain_to_incremental|]. done.
Qed.

(** No backup is its own ancestor. *)
Lemma chain_to_NoDup v id ids : chain_to v id ids -> NoDup ids.
Proof.
  intros Hc. induction Hc as [id sc Hs Ht|id sc ids Hs Ht Hp Hc IH]; [apply NoDup_singleton|].
  apply NoDup_app. split; [done|]. split; [|apply NoDup_singleton]. intros x Hx ->%list_elem_of_singleton.
  destruct (chain_to_prefix _ _ _ _ Hc Hx) as (pre & Hpre & Hle & _).
  assert (E : pre = ids ++ [id]) by (eapply chain_to_inj; [done|by eapply chain_to_incremental]).
  subst pre. rewrite length_app in Hle. simpl in Hle. lia.
Qed.

Lemma chain_to_last v id ids : chain_to v id ids -> last ids = Some id.
Proof. by destruct 1; [|apply last_snoc]. Qed.

Section chains.
Context {W : Type} `{BackendLaws W}.

Lemma readSidecar_Ok id w sc w' : valid_key (path_Join [id; "Storage-Metadata.json"]) = true ->
  readSidecar id w = (Ok sc, w') -> view w' = view w /\ sidecar_at (view w) id sc.
Proof.
  intros Hk. unfold readSidecar. munfold. destruct (get_spec _ w Hk) as (Hv & Hok & _).
  destruct (be_Get _ w) as [[text|e] w1]; [|done]. intros [= Hu <-]. split; [done|]. exists text.
  split; [by apply (Hok text w1)|done].
Qed.

Lemma build_chain_Ok depth id acc w ids w' :
  map_Forall (fun _ text => parent_key text = true) (view w) ->
  valid_key (path_Join [id; "Storage-Metadata.json"]) = true ->
  build_chain depth id acc w = (Ok ids, w') ->
  view w' = view w /\ exists pre, ids = pre ++ acc /\ chain_to (view w) id pre /\ (length pre <= depth)%nat.
Proof.
  revert id acc w. induction depth as [|depth IH]; intros id acc w Hkeys Hk; cbn [build_chain]; [done|]. intros Hrun.
  apply bind_inv_Ok in Hrun as (sc & w1 & Hread & Hrun). apply wrapping_inv_Ok in Hread.
  destruct (readSidecar_Ok _ _ _ _ Hk Hread) as [Hv Hsc].
  destruct (String.eqb (sc_Type sc) BackupTypeFull || String.eqb (sc_Type sc) "") eqn:Ef.
  { injection Hrun as <- <-. split; [done|]. exists [id]. split_and!; [done| |simpl; lia].
    apply orb_true_iff in Ef. rewrite !String.eqb_eq in Ef. by eapply chain_to_full. }
  destruct (String.eqb (sc_Type sc) BackupTypeIncremental) eqn:Ei; cbn [negb] in Hrun; [|done]. apply String.eqb_eq in Ei.
  destruct (String.eqb (sc_ParentBackupID sc) "") eqn:Ep; [done|]. apply String.eqb_neq in Ep as Hp.
  destruct (IH (sc_ParentBackupID sc) (id :: acc) w1) as (Hv' & pre & -> & Hpre & Hlen); [by rewrite Hv| |done|].
  { destruct Hsc as (text & Htext & Hu). pose proof (Hkeys _ _ Htext) as Hpk. unfold parent_key in Hpk. rewrite Hu, Ep in Hpk. done. }
  split; [congruence|]. exists (pre ++ [id]). rewrite Hv in Hpre. split_and!; [by rewrite <- app_assoc|by eapply chain_to_incremental|].
  rewrite length_app. simpl. lia.
Qed.
End chains.

(** The chain an incremental restore merges starts at a full backup, follows the parents the
    sidecars name, ends with the backup asked for, has no backup twice and at most 64 of
    them; in particular a cycle of parents is refused, not followed for ever. *)
Theorem buildChain_chain {W : Type} `{BackendLaws W} leafID w ids w' :
  map_Forall (fun _ text => parent_key text = true) (view w) ->
  valid_key (path_Join [leafID; "Storage-Metadata.json"]) = true ->
  buildChain leafID w = (Ok ids, w') ->
  view w' = view w /\ chain_to (view w) leafID ids /\ last ids = Some leafID /\ NoDup ids /\ (length ids <= maxDepth)%nat.
Proof.
  intros Hkeys Hk Hrun. destruct (build_chain_Ok _ _ _ _ _ _ Hkeys Hk Hrun) as (Hv & pre & -> & Hc & Hlen).
  rewrite app_nil_r. split_and!; [done..|by eapply chain_to_last|by eapply chain_to_NoDup|done].
Qed.

(** ** A restore *)

Definition zstd_sidecar (ty parent : string) : Sidecar :=
  {| sc_Version := 3; sc_Server := "db"; sc_EncryptionRecipients := []; sc_Compression := "zstd:3";
     sc_StorageLayoutVersion := 1; sc_WALSegments := []; sc_SystemIdentifier := 7; sc_Directories := ["pg_notify"];
     sc_Type := ty; sc_ParentBackupID := parent; sc_Annotation := ""; sc_LockHeld := false |}.

Definition sidecar_text (s : Sidecar) : string := MarshalIndent 0 (sidecar_json s).
Definition sample_full_id : string := "20260401T100000F".
Definition sample_manifest : string := Finalize sample_builder sample_stop.

Definition restore_storage : gmap string string :=
  {["20260401T100000F/backup_manifest" := sample_manifest;
    "20260401T100000F/Storage-Metadata.json" := sidecar_text (zstd_sidecar "full" "");
    "20260401T100000F/PG_VERSION" := "AZ18za"]}.

Definition restore_world : world := start_world restore_storage {["/etc/passwd" := "root"]} [] [].

Definition restore_options : Options (H:=framing_libs) :=
  {| ro_Target := "/data"; ro_Identities := [7%nat] : list (Identity (FilterLibs:=framing_libs)); ro_BackupID := sample_full_id;
     ro_TablespaceRemap := ∅; ro_StandbyMode := false; ro_RestoreCommand := "cp /wal/%f %p"; ro_TargetTime := None;
     ro_TargetXID := None; ro_TargetLSN := Some 0x2000100; ro_TargetName := ""; ro_TargetAction := "promote" |}.

Definition sample_files : list ManifestFile := [Build_ManifestFile "PG_VERSION" 2 (EncodeToString sample_digest)].

Lemma sample_manifest_parses : parseManifestFiles sample_manifest = Ok sample_files.
Proof. vm_compute. reflexivity. Qed.

Lemma sample_sidecar_parses : UnmarshalSidecar (sidecar_text (zstd_sidecar "full" "")) = Ok (zstd_sidecar "full" "").
Proof. vm_compute. reflexivity. Qed.

Lemma restore_runs : match fst (Run (H2:=framing_libs) id restore_options restore_world) with Ok r => rr_Files r =? 1 | Fail _ => false end = true.
Proof. vm_compute. reflexivity. Qed.

Lemma sample_not_reserved : ~ reserved "PG_VERSION".
Proof. unfold reserved. intros [?|[?|[?|[?|(seg & _ & _ & E)]]]]; try discriminate. Qed.

(** The bytes of the cluster, the signal, and nothing else touched. *)
Lemma Run_restores_witness : exists res w',
  Run (H2:=framing_libs) id restore_options restore_world = (Ok res, w') /\ rr_Files res = 1 /\
  restored (H5:=framing_libs) "zstd" [7%nat] sample_full_id "/data" (view restore_world) (host_files w') "PG_VERSION" /\
  host_files w' !! "/etc/passwd" = Some "root" /\ host_files w' !! "/data/recovery.signal" = Some "".
Proof.
  pose proof restore_runs as Hok.
  destruct (Run (H2:=framing_libs) id restore_options restore_world) as [[res|e] w'] eqn:Hrun; [|discriminate Hok].
  exists res, w'.
  destruct (Run_restores (H5:=framing_libs) id restore_options restore_world res w' (sidecar_text (zstd_sidecar "full" ""))
    (zstd_sidecar "full" "") sample_manifest sample_files) as (_ & _ & Hn & Hall & Hframe & Hsig & _);
    [exact (fun l => reflexivity l)|reflexivity|exists "data"; split; reflexivity|discriminate|
     vm_compute; reflexivity|exact sample_sidecar_parses|discriminate|vm_compute; reflexivity|
     exact sample_manifest_parses|reflexivity|reflexivity|apply Forall_singleton; reflexivity|
     apply Forall_singleton; reflexivity|apply NoDup_singleton|exact Hrun|].
  split; [reflexivity|]. split; [exact Hn|]. split; [|split; [|exact Hsig]].
  - exact (Hall _ (list_elem_of_here _ _) sample_not_reserved).
  - rewrite Hframe; [vm_compute; reflexivity|..].
    + intros (q & _ & Hq & E). rewrite target_Join in E; [discriminate E|exists "data"; split; reflexivity|exact Hq].
    + intros f Hf E. apply list_elem_of_singleton in Hf as ->. discriminate E.
Defined.

(** A chain of two. *)
Definition sample_incremental_id : string := "20260401T100000F_20260402T100000I".

Definition chain_mem : mem :=
  mem_init {["20260401T100000F/Storage-Metadata.json" := sidecar_text (zstd_sidecar "full" "");
             "20260401T100000F_20260402T100000I/Storage-Metadata.json" :=
               sidecar_text (zstd_sidecar "incremental" sample_full_id)]} [].

Lemma chain_mem_parents : map_Forall (fun _ text => parent_key text = true) (view chain_mem).
Proof.
  cbn [view mem_laws chain_mem mem_init mem_files].
  apply map_Forall_insert_2; [vm_compute; reflexivity|]. apply map_Forall_singleton. vm_compute. reflexivity.
Qed.

Lemma buildChain_chain_witness :
  buildChain sample_incremental_id chain_mem = (Ok [sample_full_id; sample_incremental_id], chain_mem) /\
  chain_to (view chain_mem) sample_incremental_id [sample_full_id; sample_incremental_id].
Proof.
  assert (Hrun : buildChain sample_incremental_id chain_mem = (Ok [sample_full_id; sample_incremental_id], chain_mem))
    by (vm_compute; reflexivity).
  split; [exact Hrun|].
  destruct (buildChain_chain sample_incremental_id chain_mem [sample_full_id; sample_incremental_id] chain_mem
    chain_mem_parents eq_refl Hrun) as (_ & Hc & _). exact Hc.
Defined.

(** A backup that is its own parent is refused. *)
Example buildChain_cycle :
  isOk (fst (buildChain sample_full_id
    (mem_init {["20260401T100000F/Storage-Metadata.json" := sidecar_text (zstd_sidecar "incremental" sample_full_id)]} []))) = false.
Proof. vm_compute. reflexivity. Qed.
