(* ===== verification/Multi.v ===== *)
(** * The tee over several storages

    [internal/storage/multi/multi.go]: one writer, one goroutine per storage behind a
    bounded channel. The goroutines and the caller run in any interleaving, and any write
    or close of a storage may fail. *)

From S2P Require Import Prelude.

(** ** The state *)

(** One backend: its [worker], its entry of [allChans] and [errs], its goroutine, and
    the sink behind it. *)
Record backend := Slot {
  k_ch : bool;              (* workers[i].ch is not nil *)
  k_queue : list string;    (* what the channel buffers *)
  k_open : bool;            (* the channel is not closed *)
  k_fail : bool;            (* the fail channel is closed; the goroutine's [failed] *)
  k_err : option error;     (* errs[i] *)
  k_running : bool;         (* the goroutine has not returned *)
  k_sunk : list string;     (* the chunks the sink took *)
  k_closed : bool;          (* the sink was closed without error *)
}.

(** Where the caller is: between calls, in [Write] before the first or the second [select]
    for backend [i], in [Close] at channel [i], in [wg.Wait], or done. *)
Inductive pc :=
| Idle
| Check (chunk : string) (i live : nat)
| Send (chunk : string) (i live : nat)
| CloseChan (i : nat)
| Wait
| Returned (err : option error).

Record tee := Tee {
  t_depth : nat;
  t_workers : list backend;
  t_pc : pc;
  t_todo : list string;      (* what the caller still has to write *)
  t_written : list string;   (* the chunks of the calls of [Write] that succeeded *)
}.

Definition DefaultBufDepth : nat := 256.

(** [NewWithDepth] and [New]; [None] is a nil sink. *)
Definition new_worker (sink : bool) : backend :=
  if sink then Slot true [] true false None true [] false
  else Slot false [] false false (Some (errors_New "multi: nil sink")) false [] false.

Definition NewWithDepth (sinks : list bool) (depth : nat) (program : list string) : tee :=
  Tee depth (map new_worker sinks) Idle program [].

Definition New (sinks : list bool) (program : list string) : tee := NewWithDepth sinks DefaultBufDepth program.

(** ** The goroutine of one backend *)

(** One round of the loop over the channel, or the end of it; [outcome] is what the sink's
    [Write] or [Close] answers. [None]: it waits for the channel. *)
Definition worker_step (outcome : option error) (w : backend) : option backend :=
  if negb (k_running w) then None
  else match k_queue w with
       | chunk :: rest =>
           if k_fail w then
             Some (Slot (k_ch w) rest (k_open w) true (k_err w) true (k_sunk w) (k_closed w))
           else match outcome with
                | Some err => Some (Slot (k_ch w) rest (k_open w) true (Some err) true (k_sunk w) (k_closed w))
                | None => Some (Slot (k_ch w) rest (k_open w) false (k_err w) true (k_sunk w ++ [chunk]) (k_closed w))
                end
       | [] =>
           if k_open w then None
           else if k_fail w then Some (Slot (k_ch w) [] false true (k_err w) false (k_sunk w) false)
           else match outcome with
                | Some err => Some (Slot (k_ch w) [] false false (Some err) false (k_sunk w) false)
                | None => Some (Slot (k_ch w) [] false false (k_err w) false (k_sunk w) true)
                end
       end.

(** ** The caller *)

Definition set_ch (w : backend) : backend :=
  Slot false (k_queue w) (k_open w) (k_fail w) (k_err w) (k_running w) (k_sunk w) (k_closed w).
Definition push (chunk : string) (w : backend) : backend :=
  Slot (k_ch w) (k_queue w ++ [chunk]) (k_open w) (k_fail w) (k_err w) (k_running w) (k_sunk w) (k_closed w).
Definition close_chan (w : backend) : backend :=
  Slot (k_ch w) (k_queue w) false (k_fail w) (k_err w) (k_running w) (k_sunk w) (k_closed w).

Definition at_pc (p : pc) (t : tee) : tee := Tee (t_depth t) (t_workers t) p (t_todo t) (t_written t).
Definition with_worker (i : nat) (w : backend) (t : tee) : tee :=
  Tee (t_depth t) (<[i := w]> (t_workers t)) (t_pc t) (t_todo t) (t_written t).

Definition all_failed : error := errors_New "multi: all backends failed".

(** [Results] and [LiveIndices] *)
Definition Results (t : tee) : list (option error) := k_err <$> t_workers t.

Fixpoint live_from (i : nat) (errs : list (option error)) : list nat :=
  match errs with
  | [] => []
  | None :: errs => i :: live_from (S i) errs
  | Some _ :: errs => live_from (S i) errs
  end.

Definition LiveIndices (t : tee) : list nat := live_from 0 (Results t).

(** The return of [Close]. *)
Definition close_result (errs : list (option error)) : option error :=
  if forallb (fun e => match e with None => false | Some _ => true end) errs then Some all_failed else None.

(** One step of [Write] and [Close]; when a [select] has both cases ready, [pick] takes the
    [fail] one. A caller whose [Write] fails stops writing and closes. [None]: it waits. *)
Definition main_step (pick : bool) (t : tee) : option tee :=
  match t_pc t with
  | Idle =>
      match t_todo t with
      | p :: rest => Some (Tee (t_depth t) (t_workers t) (Check p 0 0) rest (t_written t))
      | [] => Some (at_pc (CloseChan 0) t)
      end
  | Check chunk i live =>
      match t_workers t !! i with
      | None =>
          if (live =? 0)%nat then Some (Tee (t_depth t) (t_workers t) Idle [] (t_written t))
          else Some (Tee (t_depth t) (t_workers t) Idle (t_todo t) (t_written t ++ [chunk]))
      | Some w =>
          if negb (k_ch w) then Some (at_pc (Check chunk (S i) live) t)
          else if k_fail w then Some (at_pc (Check chunk (S i) live) (with_worker i (set_ch w) t))
          else Some (at_pc (Send chunk i live) t)
      end
  | Send chunk i live =>
      match t_workers t !! i with
      | None => None
      | Some w =>
          let room := (length (k_queue w) <? t_depth t)%nat in
          if k_fail w && (pick || negb room)
          then Some (at_pc (Check chunk (S i) live) (with_worker i (set_ch w) t))
          else if room then Some (at_pc (Check chunk (S i) (S live)) (with_worker i (push chunk w) t))
          else None
      end
  | CloseChan i =>
      match t_workers t !! i with
      | None => Some (at_pc Wait t)
      | Some w => Some (at_pc (CloseChan (S i)) (with_worker i (close_chan w) t))
      end
  | Wait =>
      if forallb (fun w => negb (k_running w)) (t_workers t)
      then Some (at_pc (Returned (close_result (Results t))) t) else None
  | Returned _ => None
  end.

(** ** Runs *)

Inductive action := Caller (pick : bool) | Goroutine (i : nat) (outcome : option error).

Definition exec (a : action) (t : tee) : option tee :=
  match a with
  | Caller pick => main_step pick t
  | Goroutine i outcome =>
      t_workers t !! i ≫= fun w => worker_step outcome w ≫= fun w' => Some (with_worker i w' t)
  end.

Fixpoint run (l : list action) (t : tee) : option tee :=
  match l with [] => Some t | a :: l => exec a t ≫= run l end.

Definition step (t t' : tee) : Prop := exists a, exec a t = Some t'.

(** ** What every backend holds *)

(** The chunks the caller has offered to backend [j]. *)
Definition offered (t : tee) (j : nat) : list string :=
  match t_pc t with
  | Check chunk i _ | Send chunk i _ => if (j <? i)%nat then t_written t ++ [chunk] else t_written t
  | _ => t_written t
  end.

(** Whether [Close] has closed channel [j]. *)
Definition chan_closed (t : tee) (j : nat) : bool :=
  match t_pc t with CloseChan i => (j <? i)%nat | Wait | Returned _ => true | _ => false end.

(** A healthy backend has taken or buffers everything it was offered; one with an error may
    be dead or may be a nil sink. *)
Definition backend_ok (t : tee) (j : nat) (w : backend) : Prop :=
  (k_fail w = true -> k_err w <> None) /\
  (k_running w = true -> k_open w = negb (chan_closed t j)) /\
  (k_running w = false -> k_err w = None -> k_queue w = [] /\ k_closed w = true) /\
  (k_ch w = true -> k_running w = false -> chan_closed t j = true) /\
  (k_err w = None -> k_ch w = true /\ k_fail w = false /\ k_sunk w ++ k_queue w = offered t j).

(** How many of the backends before [i] were live, at least when none has failed since. *)
Definition dead_before (i live : nat) (ws : list backend) : Prop :=
  live = 0%nat -> forall j w, (j < i)%nat -> ws !! j = Some w -> k_err w <> None.

Definition live_ok (t : tee) : Prop :=
  match t_pc t with
  | Check _ i live => dead_before i live (t_workers t)
  | Send _ i live => dead_before i live (t_workers t) /\ exists w, t_workers t !! i = Some w /\ k_ch w = true
  | Returned r => r = close_result (Results t) /\ Forall (fun w => k_running w = false) (t_workers t)
  | _ => True
  end.

(** Nothing is lost between the caller's program and what was written, unless every backend has an error. *)
Definition progress_ok (program : list string) (t : tee) : Prop :=
  Forall (fun w => k_err w <> None) (t_workers t) \/
  match t_pc t with
  | Check chunk _ _ | Send chunk _ _ => t_written t ++ chunk :: t_todo t = program
  | CloseChan _ | Wait | Returned _ => t_written t = program
  | Idle => t_written t ++ t_todo t = program
  end.

Definition tee_ok (program : list string) (t : tee) : Prop :=
  (forall j w, t_workers t !! j = Some w -> backend_ok t j w) /\ live_ok t /\ progress_ok program t.

(** What a goroutine's step does to its own backend. *)
Lemma worker_step_ok t j o w w' : backend_ok t j w -> worker_step o w = Some w' ->
  backend_ok t j w' /\ k_ch w' = k_ch w /\ k_running w = true /\ (k_err w <> None -> k_err w' <> None).
Proof.
  intros (Hf & Hr & Hd & Hc & Hn). unfold worker_step, backend_ok. destruct w as [ch q op fl er rn sk cl]. cbn in *.
  destruct rn; cbn; [|done]. specialize (Hr eq_refl).
  destruct q as [|c q]; [destruct op; [done|]|]; destruct fl; try destruct o as [e|]; intros [= <-]; cbn;
    (split; [|by split_and!]); split_and!; try done; try (by intros); try (by symmetry in Hr; apply negb_false_iff in Hr).
  all: intros He; try (subst er; destruct (Hn eq_refl) as (Hch & Hfl & Hq)); try done.
  1, 2: intros Her; by destruct (Hf eq_refl).
  rewrite <- app_assoc. by split_and!.
Qed.

(** ** The steps keep the invariant *)

Lemma offered_eq t t' : t_pc t' = t_pc t -> t_written t' = t_written t -> offered t' = offered t /\ chan_closed t' = chan_closed t.
Proof. unfold offered, chan_closed. by intros -> ->. Qed.

Lemma backend_ok_eq t t' j w : offered t' j = offered t j -> chan_closed t' j = chan_closed t j ->
  backend_ok t j w -> backend_ok t' j w.
Proof. unfold backend_ok. by intros -> ->. Qed.

Lemma dead_before_insert i live ws j w w' : ws !! j = Some w -> (k_err w <> None -> k_err w' <> None) ->
  dead_before i live ws -> dead_before i live (<[j := w']> ws).
Proof.
  intros Hj Herr Hd H0 k x Hk [(<- & -> & _)|[Hne Hx]]%list_lookup_insert_Some; [|by eapply Hd].
  eapply Herr, Hd; eauto.
Qed.

Lemma all_dead_insert ws j w w' : ws !! j = Some w -> (k_err w <> None -> k_err w' <> None) ->
  Forall (fun w => k_err w <> None) ws -> Forall (fun w => k_err w <> None) (<[j := w']> ws).
Proof. intros Hj Herr Hd. apply Forall_insert; [done|]. rewrite Forall_lookup in Hd. eapply Herr, Hd, Hj. Qed.

Lemma goroutine_ok program i o t t' : tee_ok program t -> exec (Goroutine i o) t = Some t' -> tee_ok program t'.
Proof.
  intros (Hb & Hl & Hp). cbn [exec]. destruct (t_workers t !! i) as [w|] eqn:Hi; [|done]. cbn.
  destruct (worker_step o w) as [w'|] eqn:Hw; [|done]. cbn. intros [= <-].
  destruct (worker_step_ok _ _ _ _ _ (Hb i w Hi) Hw) as (Hok & Hch & Hrun & Herr). split_and!.
  - intros j x [(<- & -> & _)|[Hne Hx]]%list_lookup_insert_Some; [exact Hok|by apply Hb].
  - unfold live_ok in *. cbn [with_worker t_pc t_workers]. destruct (t_pc t) as [|c k l|c k l| | |r]; try done.
    + by eapply dead_before_insert.
    + destruct Hl as [Hl (x & Hx & Hxc)]. split; [by eapply dead_before_insert|].
      destruct (decide (k = i)) as [->|Hne]; [|exists x; by rewrite list_lookup_insert_ne].
      exists w'. rewrite list_lookup_insert_eq by by eapply lookup_lt_Some. split; [done|]. rewrite Hch. congruence.
    + destruct Hl as [_ Hall]. rewrite Forall_lookup in Hall. by rewrite (Hall i w Hi) in Hrun.
  - destruct Hp as [Hp|Hp]; [left|by right]. by eapply all_dead_insert.
Qed.

(** The caller leaves a backend behind, with what it now holds. *)
Definition at_backend (t : tee) (chunk : string) (i live : nat) : Prop :=
  t_pc t = Check chunk i live \/ t_pc t = Send chunk i live.

Lemma at_backend_facts program t chunk i live : at_backend t chunk i live -> tee_ok program t ->
  dead_before i live (t_workers t) /\ (forall j, chan_closed t j = false) /\
  (forall j, offered t j = if (j <? i)%nat then t_written t ++ [chunk] else t_written t) /\
  (Forall (fun w => k_err w <> None) (t_workers t) \/ t_written t ++ chunk :: t_todo t = program).
Proof.
  intros Ha (_ & Hl & Hp). unfold live_ok, progress_ok, offered, chan_closed in *.
  destruct Ha as [E|E]; rewrite E in *; [|destruct Hl as [Hl _]]; done.
Qed.

Lemma advance_ok program t chunk i live live' w w' : at_backend t chunk i live -> tee_ok program t ->
  t_workers t !! i = Some w -> (k_err w <> None -> k_err w' <> None) ->
  let t' := at_pc (Check chunk (S i) live') (with_worker i w' t) in
  backend_ok t' i w' -> ((live' = live /\ k_err w <> None) \/ live' = S live) -> tee_ok program t'.
Proof.
  intros Ha Hok Hi Herr t' Hw' Hlive. destruct (at_backend_facts _ _ _ _ _ Ha Hok) as (Hd & Hc & Ho & Hp).
  destruct Hok as (Hb & _ & _). split_and!.
  - intros j x [(<- & -> & _)|[Hne Hx]]%list_lookup_insert_Some; [exact Hw'|].
    apply (backend_ok_eq t); [|by rewrite Hc|by apply Hb]. rewrite Ho. change (offered t' j) with (if (j <? S i)%nat then t_written t ++ [chunk] else t_written t).
    by destruct (Nat.ltb_spec j (S i)), (Nat.ltb_spec j i); try lia.
  - unfold live_ok, t'. cbn. destruct Hlive as [[-> He]| ->]; [|done].
    intros H0 j x Hj [(<- & -> & _)|[Hne Hx]]%list_lookup_insert_Some; [by apply Herr|]. eapply Hd; eauto; lia.
  - unfold progress_ok, t'. cbn. destruct Hp as [Hp|Hp]; [left|by right]. by eapply all_dead_insert.
Qed.

Lemma skip_ok program t chunk i live w : at_backend t chunk i live -> tee_ok program t ->
  t_workers t !! i = Some w -> k_err w <> None ->
  tee_ok program (at_pc (Check chunk (S i) live) (with_worker i (set_ch w) t)) /\
  (k_ch w = false -> tee_ok program (at_pc (Check chunk (S i) live) t)).
Proof.
  intros Ha Hok Hi He. pose proof Hok as (Hb & _ & _). pose proof (Hb i w Hi) as (Hf & Hr & Hd & Hc & Hn).
  destruct (at_backend_facts _ _ _ _ _ Ha Hok) as (_ & Hcl & _ & _). rewrite Hcl in Hr. split.
  - eapply advance_ok; eauto. unfold backend_ok. cbn. split_and!; try done; try (by intros E; destruct (He E)); by intros _ E; destruct (He E).
  - intros Hch.
    replace (at_pc _ t) with (at_pc (Check chunk (S i) live) (with_worker i w t)).
    2: { unfold at_pc, with_worker. cbn. f_equal. by apply list_insert_id. }
    eapply advance_ok; eauto. unfold backend_ok. cbn. split_and!; try done; try (by intros E; destruct (He E)); try (by intros _ E; destruct (He E)). congruence.
Qed.

Lemma check_ok program t chunk i live t' : tee_ok program t -> t_pc t = Check chunk i live ->
  main_step false t = Some t' \/ main_step true t = Some t' -> tee_ok program t'.
Proof.
  intros Hok Hpc Hstep. assert (Ha : at_backend t chunk i live) by by left.
  assert (Hs : main_step false t = Some t') by (unfold main_step in *; rewrite Hpc in *; tauto). clear Hstep.
  destruct (at_backend_facts _ _ _ _ _ Ha Hok) as (Hd & Hc & Ho & Hp). pose proof Hok as (Hb & _ & _).
  unfold main_step in Hs. rewrite Hpc in Hs. destruct (t_workers t !! i) as [w|] eqn:Hi.
  - pose proof (Hb i w Hi) as (Hf & _ & _ & _ & Hn). destruct (k_ch w) eqn:Hch; cbn [negb] in Hs.
    + destruct (k_fail w) eqn:Hfl; injection Hs as <-; [by eapply (skip_ok program t chunk i live w); eauto|]. split_and!.
      * intros j x Hx. apply (backend_ok_eq t); [|by rewrite Hc|by apply Hb]. by rewrite Ho.
      * split; [done|]. by exists w.
      * done.
    + injection Hs as <-. eapply (skip_ok program t chunk i live w); eauto. intros E. by destruct (Hn E).
  - apply lookup_ge_None in Hi.
    assert (Hlt : forall j w, t_workers t !! j = Some w -> (j < i)%nat) by (intros j w Hj%lookup_lt_Some; lia).
    destruct (Nat.eqb_spec live 0) as [->|Hl]; injection Hs as <-; split_and!; try done; cbn.
    + intros j x Hx. assert (He : k_err x <> None) by (eapply Hd; eauto). destruct (Hb j x Hx) as (H1 & H2 & H3 & H4 & H5).
      rewrite Hc in *. by split_and!.
    + left. apply Forall_lookup. intros j x Hx. eapply Hd; eauto.
    + intros j x Hx. apply (backend_ok_eq t); [|by rewrite Hc|by apply Hb]. rewrite Ho.
      specialize (Hlt _ _ Hx). apply Nat.ltb_lt in Hlt. by rewrite Hlt.
    + destruct Hp as [Hp|Hp]; [by left|right]. cbn. by rewrite <- app_assoc.
Qed.

Lemma send_ok program t chunk i live pick t' : tee_ok program t -> t_pc t = Send chunk i live ->
  main_step pick t = Some t' -> tee_ok program t'.
Proof.
  intros Hok Hpc Hs. assert (Ha : at_backend t chunk i live) by by right.
  destruct (at_backend_facts _ _ _ _ _ Ha Hok) as (Hd & Hc & Ho & Hp). pose proof Hok as (Hb & _ & _).
  unfold main_step in Hs. rewrite Hpc in Hs. destruct (t_workers t !! i) as [w|] eqn:Hi; [|done].
  pose proof (Hb i w Hi) as (Hf & Hr & Hdn & Hcd & Hn). destruct (k_fail w && _) eqn:Hfl.
  - apply andb_true_iff in Hfl as [Hfl _]. injection Hs as <-. eapply (skip_ok program t chunk i live w); eauto.
  - destruct (_ <? _)%nat; [|done]. injection Hs as <-. eapply advance_ok; eauto. rewrite Hc, Ho, Nat.ltb_irrefl in *.
    unfold backend_ok. cbn [push k_ch k_queue k_open k_fail k_err k_running k_sunk k_closed]. split_and!; try done.
    + intros H1 H2. destruct (Hn H2) as (Hch & _). by specialize (Hcd Hch H1).
    + intros E. destruct (Hn E) as (Hch & Hfl' & Hq). split_and!; [done..|]. rewrite app_assoc, Hq.
      unfold offered. cbn [at_pc t_pc with_worker t_written]. by replace (i <? S i)%nat with true by (symmetry; apply Nat.ltb_lt; lia).
Qed.

Lemma close_ok program t i t' : tee_ok program t -> t_pc t = CloseChan i -> main_step false t = Some t' -> tee_ok program t'.
Proof.
  intros (Hb & _ & Hp) Hpc Hs. unfold main_step in Hs. unfold progress_ok in Hp. rewrite Hpc in Hs, Hp.
  assert (Ho : forall j, offered t j = t_written t) by (unfold offered; by rewrite Hpc).
  assert (Hc : forall j, chan_closed t j = (j <? i)%nat) by (unfold chan_closed; by rewrite Hpc).
  destruct (t_workers t !! i) as [w|] eqn:Hi; injection Hs as <-; split_and!; try done.
  - intros j x [(<- & <- & _)|[Hne Hx]]%list_lookup_insert_Some.
    + destruct (Hb i w Hi) as (Hf & Hr & Hd & _ & Hn). rewrite Ho in Hn. unfold backend_ok, chan_closed.
      cbn [at_pc t_pc close_chan k_ch k_queue k_open k_fail k_err k_running k_sunk k_closed]. assert ((i <? S i)%nat = true) as -> by (apply Nat.ltb_lt; lia). by split_and!.
    + apply (backend_ok_eq t); [by rewrite Ho| |by apply Hb]. rewrite Hc.
      change (chan_closed _ j) with (j <? S i)%nat. by destruct (Nat.ltb_spec j (S i)), (Nat.ltb_spec j i); try lia.
  - destruct Hp as [Hp|Hp]; [left|by right]. by eapply all_dead_insert.
  - intros j x Hx. apply (backend_ok_eq t); [by rewrite Ho| |by apply Hb]. rewrite Hc.
    apply lookup_ge_None in Hi. apply lookup_lt_Some in Hx as Hlt. symmetry. apply Nat.ltb_lt. cbn [at_pc t_workers] in Hlt. lia.
Qed.

Lemma idle_ok program t t' : tee_ok program t -> t_pc t = Idle -> main_step false t = Some t' -> tee_ok program t'.
Proof.
  intros (Hb & _ & Hp) Hpc Hs. unfold main_step in Hs. unfold progress_ok in Hp. rewrite Hpc in Hs, Hp.
  destruct (t_todo t) as [|p rest] eqn:Hto; injection Hs as <-; split_and!; try done;
    try (intros j x Hx; apply (backend_ok_eq t); [unfold offered; by rewrite Hpc|unfold chan_closed; by rewrite Hpc|by apply Hb]).
  - destruct Hp as [Hp|Hp]; [by left|right]. cbn. by rewrite app_nil_r in Hp.
  - intros _ j w Hj. lia.
Qed.

Lemma wait_ok program t t' : tee_ok program t -> t_pc t = Wait -> main_step false t = Some t' -> tee_ok program t'.
Proof.
  intros (Hb & _ & Hp) Hpc Hs. unfold main_step in Hs. unfold progress_ok in Hp. rewrite Hpc in Hs, Hp.
  destruct (forallb _ _) eqn:Hall; [|done]. injection Hs as <-. split_and!; try done.
  - intros j x Hx. apply (backend_ok_eq t); [unfold offered; by rewrite Hpc|unfold chan_closed; by rewrite Hpc|by apply Hb].
  - split; [done|]. rewrite forallb_forall in Hall. apply Forall_forall. intros w Hw.
    apply negb_true_iff, Hall. by apply list_elem_of_In.
Qed.

Lemma exec_ok program a t t' : tee_ok program t -> exec a t = Some t' -> tee_ok program t'.
Proof.
  destruct a as [pick|i o]; [|apply goroutine_ok]. intros Hok Hs. cbn [exec] in Hs.
  destruct (t_pc t) as [|c i l|c i l|i| |r] eqn:Hpc;
    try (assert (main_step false t = Some t') by (unfold main_step in *; by rewrite Hpc in *)).
  - by eapply idle_ok.
  - eapply check_ok; eauto.
  - by eapply send_ok.
  - by eapply close_ok.
  - by eapply wait_ok.
  - unfold main_step in Hs. by rewrite Hpc in Hs.
Qed.

Lemma new_ok sinks depth program : tee_ok program (NewWithDepth sinks depth program).
Proof.
  split_and!; [|done|by right]. intros j w Hj. cbn in Hj. apply list_lookup_fmap_Some in Hj as (b & -> & _). by destruct b.
Qed.

Lemma run_ok program l t t' : tee_ok program t -> run l t = Some t' -> tee_ok program t'.
Proof.
  revert t. induction l as [|a l IH]; intros t Hok; cbn [run]; [by intros [= <-]|].
  destruct (exec a t) as [t1|] eqn:E; [|done]. cbn. apply IH. by eapply exec_ok.
Qed.

(** ** What survives *)

Lemma live_from_spec i errs j : j ∈ live_from i errs <-> exists k, j = (i + k)%nat /\ errs !! k = Some None.
Proof.
  revert i. induction errs as [|e errs IH]; intros i; cbn [live_from].
  - split; [by intros ?%not_elem_of_nil|]. by intros (k & _ & Hk).
  - assert (Hrest : j ∈ live_from (S i) errs <-> exists k, j = (i + S k)%nat /\ (e :: errs) !! S k = Some None).
    { rewrite IH. split; intros (k & -> & Hk); exists k; (split; [lia|done]). }
    destruct e as [e|]; [|rewrite elem_of_cons]; rewrite Hrest; split.
    + intros (k & ? & ?). by exists (S k).
    + intros ([|k] & -> & Hk); [done|by exists k].
    + intros [->|(k & ? & ?)]; [exists 0%nat; split; [lia|done]|by exists (S k)].
    + intros ([|k] & -> & Hk); [left; lia|right; by exists k].
Qed.

Lemma LiveIndices_spec t i : i ∈ LiveIndices t <-> exists w, t_workers t !! i = Some w /\ k_err w = None.
Proof.
  unfold LiveIndices, Results. rewrite live_from_spec. cbn. setoid_rewrite list_lookup_fmap_Some. naive_solver.
Qed.

Lemma close_result_spec t : close_result (Results t) = None <-> LiveIndices t <> [].
Proof.
  unfold close_result. split.
  - destruct (forallb _ _) eqn:E; [done|]. intros _ Hn. apply not_true_iff_false in E. apply E, forallb_forall.
    intros e He%list_elem_of_In. destruct e; [done|]. apply list_elem_of_fmap in He as (w & He & Hw).
    apply list_elem_of_lookup in Hw as [i Hi]. assert (Hin : i ∈ LiveIndices t) by (apply LiveIndices_spec; eauto).
    rewrite Hn in Hin. by apply not_elem_of_nil in Hin.
  - intros Hn. destruct (LiveIndices t) as [|i l] eqn:E; [done|]. assert (Hin : i ∈ LiveIndices t) by (rewrite E; constructor).
    apply LiveIndices_spec in Hin as (w & Hi & Hw). destruct (forallb _ _) eqn:Ef; [|done].
    rewrite forallb_forall in Ef. assert (Hf : In None (Results t)); [|by specialize (Ef _ Hf)].
    apply list_elem_of_In. rewrite <- Hw. unfold Results. apply list_elem_of_fmap_2. by eapply list_elem_of_lookup_2.
Qed.

(** C28: however the goroutines and the caller interleave and whichever storages fail, once
    [Close] has returned every storage that [LiveIndices] names took exactly the chunks of
    the whole stream, in order, and was closed; and [Close] succeeds exactly when there is
    such a storage. *)
Theorem Tee_survivors sinks depth program l t r :
  run l (NewWithDepth sinks depth program) = Some t -> t_pc t = Returned r ->
  (r = None <-> LiveIndices t <> []) /\
  forall i w, t_workers t !! i = Some w -> i ∈ LiveIndices t -> k_sunk w = program /\ k_closed w = true.
Proof.
  intros Hrun Hpc. destruct (run_ok program _ _ _ (new_ok _ _ _) Hrun) as (Hb & Hl & Hp).
  unfold live_ok, progress_ok in Hl, Hp. rewrite Hpc in Hl, Hp. destruct Hl as [-> Hdone].
  split; [apply close_result_spec|]. intros i w Hi (w' & Hi' & He)%LiveIndices_spec.
  assert (w' = w) as -> by congruence. destruct (Hb i w Hi) as (_ & _ & Hd & _ & Hn). rewrite Forall_lookup in Hdone.
  destruct (Hd (Hdone i w Hi) He) as [Hq Hcl]. destruct (Hn He) as (_ & _ & Hs). unfold offered in Hs. rewrite Hpc, Hq, app_nil_r in Hs.
  split; [|done]. rewrite Hs. destruct Hp as [Hp|Hp]; [|done]. rewrite Forall_lookup in Hp. by destruct (Hp i w Hi).
Qed.

(** ** Every run ends *)

Definition weight (w : backend) : nat := (length (k_queue w) + if k_running w then 1 else 0)%nat.

Definition pc_weight (n : nat) (t : tee) : nat :=
  let rest := (length (t_todo t) * (3 * n + 3) + n + 3)%nat in
  match t_pc t with
  | Idle => rest
  | Check _ i _ => rest + 3 * (n - i) + 1
  | Send _ i _ => rest + 3 * (n - i)
  | CloseChan i => n - i + 2
  | Wait => 1
  | Returned _ => 0
  end%nat.

Definition measure (t : tee) : nat := (pc_weight (length (t_workers t)) t + sum_list_with weight (t_workers t))%nat.

Lemma sum_insert ws i w w' : ws !! i = Some w ->
  (sum_list_with weight (<[i := w']> ws) + weight w = sum_list_with weight ws + weight w')%nat.
Proof.
  intros Hi. rewrite insert_take_drop by by eapply lookup_lt_Some. rewrite <- (take_drop_middle ws i w Hi) at 3.
  rewrite !sum_list_with_app. cbn [sum_list_with]. lia.
Qed.

Lemma worker_step_weight o w w' : worker_step o w = Some w' -> (weight w' < weight w)%nat.
Proof.
  unfold worker_step, weight. destruct w as [ch q op fl er rn sk cl]. cbn. destruct rn; [|done]. cbn.
  destruct q as [|c q]; [destruct op; [done|]|]; destruct fl; try destruct o; intros [= <-]; cbn; lia.
Qed.

(** Moving the caller along, with backend [i] replaced. *)
Lemma measure_with i w w' p t : t_workers t !! i = Some w ->
  (pc_weight (length (t_workers t)) (at_pc p t) + weight w' < pc_weight (length (t_workers t)) t + weight w)%nat ->
  (measure (at_pc p (with_worker i w' t)) < measure t)%nat.
Proof.
  intros Hi Hlt. unfold measure. cbn [at_pc with_worker t_workers]. rewrite length_insert.
  pose proof (sum_insert (t_workers t) i w w' Hi) as Hs. unfold pc_weight in *. cbn [at_pc with_worker t_pc t_todo] in *. lia.
Qed.

Lemma weight_push c w : weight (push c w) = S (weight w).
Proof. unfold weight. cbn. rewrite length_app. cbn. lia. Qed.

Lemma main_step_decreases pick t t' : main_step pick t = Some t' -> (measure t' < measure t)%nat.
Proof.
  intros Hs. assert (Hlt : forall i w, t_workers t !! i = Some w -> (i < length (t_workers t))%nat) by (intros *; apply lookup_lt_Some).
  unfold main_step in Hs. destruct (t_pc t) as [|c i l|c i l|i| |r] eqn:Hpc; [| | | | |done].
  - destruct (t_todo t) as [|p rest] eqn:Ht; injection Hs as <-; unfold measure, pc_weight; cbn [at_pc t_workers t_pc t_todo];
      rewrite Hpc, Ht; cbn [length]; lia.
  - destruct (t_workers t !! i) as [w|] eqn:Hi; [specialize (Hlt _ _ Hi)|].
    + destruct (negb _); [|destruct (k_fail w)]; injection Hs as <-;
        [|apply (measure_with i w (set_ch w)); [done|]; change (weight (set_ch w)) with (weight w)|];
        unfold measure, pc_weight; cbn [at_pc t_workers t_pc t_todo]; rewrite Hpc; lia.
    + destruct (l =? 0)%nat; injection Hs as <-; unfold measure, pc_weight; cbn [t_workers t_pc t_todo length]; rewrite Hpc; lia.
  - destruct (t_workers t !! i) as [w|] eqn:Hi; [specialize (Hlt _ _ Hi)|done].
    destruct (_ && _); [|destruct (_ <? _)%nat; [|done]]; injection Hs as <-;
      (apply (measure_with i w); [done|]); rewrite ?weight_push; try change (weight (set_ch w)) with (weight w);
      unfold pc_weight; cbn [at_pc t_pc t_todo]; rewrite Hpc; lia.
  - destruct (t_workers t !! i) as [w|] eqn:Hi; injection Hs as <-.
    + specialize (Hlt _ _ Hi). apply (measure_with i w); [done|]. change (weight (close_chan w)) with (weight w).
      unfold pc_weight. cbn [at_pc t_pc t_todo]. rewrite Hpc. lia.
    + unfold measure, pc_weight. cbn [at_pc t_workers t_pc]. rewrite Hpc. lia.
  - destruct (forallb _ _); [|done]. injection Hs as <-. unfold measure, pc_weight. cbn [at_pc t_workers t_pc]. rewrite Hpc. lia.
Qed.

Lemma exec_decreases a t t' : exec a t = Some t' -> (measure t' < measure t)%nat.
Proof.
  destruct a as [pick|i o]; [apply main_step_decreases|]. cbn [exec].
  destruct (t_workers t !! i) as [w|] eqn:Hi; [|done]. cbn. destruct (worker_step o w) as [w'|] eqn:Hw; [|done]. intros [= <-].
  pose proof (worker_step_weight _ _ _ Hw). apply (measure_with i w w' (t_pc t)); [done|].
  change (pc_weight (length (t_workers t)) (at_pc (t_pc t) t)) with (pc_weight (length (t_workers t)) t). lia.
Qed.

Lemma run_measure l t t' : run l t = Some t' -> (length l + measure t' <= measure t)%nat.
Proof.
  revert t. induction l as [|a l IH]; intros t; cbn [run length]; [intros [= <-]; lia|].
  destruct (exec a t) as [t1|] eqn:E; [|done]. cbn. intros Hr%IH. apply exec_decreases in E. lia.
Qed.

Lemma exec_depth a t t' : exec a t = Some t' -> t_depth t' = t_depth t.
Proof.
  destruct a as [pick|i o]; cbn [exec].
  - unfold main_step. destruct (t_pc t); repeat case_match; intros [= <-]; done.
  - destruct (t_workers t !! i) as [w|]; [|done]. cbn. destruct (worker_step o w); [|done]. by intros [= <-].
Qed.

Lemma run_depth l t t' : run l t = Some t' -> t_depth t' = t_depth t.
Proof.
  revert t. induction l as [|a l IH]; intros t; cbn [run]; [by intros [= <-]|].
  destruct (exec a t) as [t1|] eqn:E; [|done]. cbn. intros ->%IH. by eapply exec_depth.
Qed.

(** A goroutine with something to do, or whose channel is closed, is never blocked. *)
Lemma worker_step_Some w : k_running w = true -> (k_queue w <> [] \/ k_open w = false) ->
  exists w', worker_step None w = Some w'.
Proof.
  intros Hr Hq. unfold worker_step. rewrite Hr. cbn. destruct (k_queue w) as [|c q].
  - destruct Hq as [Hq|Hq]; [done|]. rewrite Hq. by destruct (k_fail w); eexists.
  - by destruct (k_fail w); eexists.
Qed.

Lemma goroutine_moves t i w : t_workers t !! i = Some w -> k_running w = true -> (k_queue w <> [] \/ k_open w = false) ->
  exists t', exec (Goroutine i None) t = Some t'.
Proof. intros Hi Hr Hq. destruct (worker_step_Some w Hr Hq) as [w' Hw]. cbn. rewrite Hi. cbn. rewrite Hw. by eexists. Qed.

Lemma forallb_false {A} (f : A -> bool) l : forallb f l = false -> exists i x, l !! i = Some x /\ f x = false.
Proof.
  induction l as [|x l IH]; cbn; [done|]. destruct (f x) eqn:E; cbn; [|by exists 0%nat, x].
  intros (i & y & Hy & Hf)%IH. by exists (S i), y.
Qed.

Lemma tee_moves program t : (0 < t_depth t)%nat -> tee_ok program t ->
  (exists r, t_pc t = Returned r) \/ exists a t', exec a t = Some t'.
Proof.
  intros Hdepth (Hb & Hl & _). unfold live_ok in Hl.
  destruct (t_pc t) as [|c i l|c i l|i| |r] eqn:Hpc; [right|right|right|right|right|left; by exists r].
  - exists (Caller false). cbn. unfold main_step. rewrite Hpc. destruct (t_todo t); by eexists.
  - exists (Caller false). cbn. unfold main_step. rewrite Hpc. repeat case_match; by eexists.
  - destruct Hl as (_ & w & Hi & Hch). destruct (Hb i w Hi) as (_ & _ & _ & Hcd & _).
    destruct (k_fail w) eqn:Hf; [|destruct (Nat.ltb_spec (length (k_queue w)) (t_depth t)) as [Hroom|Hfull]].
    + exists (Caller true). cbn. unfold main_step. rewrite Hpc, Hi, Hf. by eexists.
    + exists (Caller false). cbn. unfold main_step. rewrite Hpc, Hi, Hf. apply Nat.ltb_lt in Hroom. rewrite Hroom. by eexists.
    + exists (Goroutine i None). apply (goroutine_moves t i w); [done| |].
      * destruct (k_running w) eqn:Hr; [done|]. specialize (Hcd Hch eq_refl). unfold chan_closed in Hcd. by rewrite Hpc in Hcd.
      * left. intros E. rewrite E in Hfull. cbn in Hfull. lia.
  - exists (Caller false). cbn. unfold main_step. rewrite Hpc. case_match; by eexists.
  - destruct (forallb (fun w => negb (k_running w)) (t_workers t)) eqn:Hall.
    + exists (Caller false). cbn. unfold main_step. rewrite Hpc, Hall. by eexists.
    + apply forallb_false in Hall as (i & w & Hi & Hr%negb_false_iff). exists (Goroutine i None).
      apply (goroutine_moves t i w); [done..|]. right. destruct (Hb i w Hi) as (_ & Ho & _). rewrite (Ho Hr). unfold chan_closed. by rewrite Hpc.
Qed.

Lemma measure_new sinks depth program :
  (measure (NewWithDepth sinks depth program) <= (length program + 2) * (3 * length sinks + 3))%nat.
Proof.
  unfold measure. cbn [NewWithDepth t_workers pc_weight t_pc t_todo]. rewrite length_map.
  assert (Hs : (sum_list_with weight (map new_worker sinks) <= length sinks)%nat); [|lia].
  induction sinks as [|[] sinks IH]; cbn in *; lia.
Qed.

(** The caller and the goroutines never block each other for good: as long as the channels
    hold at least one chunk, a run that has not returned from [Close] can go on, full
    channels and failed storages included; and no run takes more steps than three per chunk
    and storage, with a few to close. *)
Theorem Tee_returns sinks depth program l t :
  (0 < depth)%nat -> run l (NewWithDepth sinks depth program) = Some t ->
  ((exists r, t_pc t = Returned r) \/ exists a t', exec a t = Some t') /\
  (length l <= (length program + 2) * (3 * length sinks + 3))%nat.
Proof.
  intros Hdepth Hrun. split.
  - apply (tee_moves program); [by rewrite (run_depth _ _ _ Hrun)|]. eapply run_ok; [apply new_ok|done].
  - pose proof (run_measure _ _ _ Hrun). pose proof (measure_new sinks depth program). lia.
Qed.

(** ** A run with a failing storage *)

(** Three storages, of which one is a nil sink and one fails on its second chunk. The caller
    goes first whenever it can, so it runs into full channels. *)
Definition sample_outcome (i : nat) (w : backend) : option error :=
  if (i =? 1)%nat && (length (k_sunk w) =? 1)%nat then Some (errors_New "disk full") else None.

Fixpoint first_enabled (l : list action) (t : tee) : option (action * tee) :=
  match l with
  | [] => None
  | a :: l => match exec a t with Some t' => Some (a, t') | None => first_enabled l t end
  end.

Fixpoint drive (fuel : nat) (t : tee) : list action :=
  match fuel with
  | O => []
  | S fuel =>
      match first_enabled (Caller false :: imap (fun i w => Goroutine i (sample_outcome i w)) (t_workers t)) t with
      | Some (a, t') => a :: drive fuel t'
      | None => []
      end
  end.

Definition sample_sinks : list bool := [true; true; false].
Definition sample_program : list string := ["ab"; "cd"; "ef"].
Definition sample_tee : tee := NewWithDepth sample_sinks 1 sample_program.
Definition sample_run : list action := drive 100 sample_tee.

Definition sample_end : tee := match run sample_run sample_tee with Some t => t | None => sample_tee end.

Lemma sample_run_ends : run sample_run sample_tee = Some sample_end.
Proof. vm_compute. reflexivity. Qed.

Lemma Tee_survivors_witness :
  LiveIndices sample_end = [0%nat] /\ (k_sunk <$> t_workers sample_end !! 0%nat) = Some sample_program.
Proof.
  split; [vm_compute; reflexivity|].
  destruct (Tee_survivors sample_sinks 1 sample_program sample_run sample_end None sample_run_ends) as [_ Hall]; [vm_compute; reflexivity|].
  destruct (t_workers sample_end !! 0%nat) as [w|] eqn:Hw; [|vm_compute in Hw; discriminate Hw].
  destruct (Hall 0%nat w Hw) as [Hs _]; [|cbn; f_equal; exact Hs].
  replace (LiveIndices sample_end) with [0%nat] by (vm_compute; reflexivity). constructor.
Defined.

Lemma Tee_returns_witness : (length sample_run <= (length sample_program + 2) * (3 * length sample_sinks + 3))%nat.
Proof. destruct (Tee_returns sample_sinks 1 sample_program sample_run sample_end ltac:(lia) sample_run_ends) as [_ Hl]. exact Hl. Defined.
