(* ===== verification/Config.v ===== *)
(** * Configuration

    [internal/config/config.go]: the configuration of a server, its defaults and its
    validation. The YAML parser and the parser of age keys are libraries, and
    parameters here. *)

From S2P Require Import Prelude Host Filter.

(** ** The schema *)

(** [S3Config] *)
Record S3Config := {
  s3_Bucket : string; s3_Region : string; s3_Endpoint : string; s3_UsePathStyle : bool;
  s3_AccessKeyID : string; s3_SecretAccessKey : string; s3_Prefix : string;
}.

(** [AzureConfig] *)
Record AzureConfig := {
  az_AccountName : string; az_Container : string; az_AccountKey : string; az_SASToken : string;
  az_ConnectionString : string; az_BlobEndpoint : string; az_Prefix : string;
}.

(** [GCSConfig] *)
Record GCSConfig := { gcs_Bucket : string; gcs_CredentialsFile : string; gcs_Endpoint : string; gcs_Prefix : string }.

(** [SFTPConfig] *)
Record SFTPConfig := {
  sftp_Host : string; sftp_Port : Z; sftp_Username : string; sftp_Password : string; sftp_PrivateKeyFile : string;
  sftp_BasePath : string; sftp_HostKey : string; sftp_InsecureIgnoreHostKey : bool;
}.

(** [StorageConfig] *)
Record StorageConfig := {
  st_Type : string;
  st_Path : string;
  st_S3 : option S3Config;
  st_Azure : option AzureConfig;
  st_GCS : option GCSConfig;
  st_SFTP : option SFTPConfig;
}.

(** [PGConfig], [CompressionConfig], [EncryptionConfig], [LogConfig] and [BackupConfig] *)
Record PGConfig := { pg_ConnString : string; pg_Version : Z; pg_Host : string; pg_SSHExtraArgs : string; pg_StorageReach : string }.
Record CompressionConfig := { cm_Codec : string; cm_Level : Z }.
Record EncryptionConfig := { en_Recipients : list string }.
Record LogConfig := { lg_Format : string; lg_Level : string }.
Record BackupConfig := {
  bc_ArchiveTimeout : Z;
  bc_ScratchDir : string;
  bc_Resume : option bool;
  bc_ResumeCheckpointEveryN : Z;
  bc_ResumeGracePeriod : Z;
}.

(** [Config] *)
Record Config := {
  c_Server : string;
  c_PG : PGConfig;
  c_Storages : list StorageConfig;
  c_Compression : CompressionConfig;
  c_Encryption : EncryptionConfig;
  c_Log : LogConfig;
  c_Backup : BackupConfig;
}.

(** [PrimaryStorage]; [None] is the index that is out of range. *)
Definition PrimaryStorage (c : Config) : option StorageConfig := head (c_Storages c).

(** ** Defaults *)

(** [applyDefaults] *)
Definition applyDefaults (c : Config) : Config :=
  let log := c_Log c in
  let b := c_Backup c in
  {| c_Server := c_Server c; c_PG := c_PG c; c_Storages := c_Storages c; c_Compression := c_Compression c;
     c_Encryption := c_Encryption c;
     c_Log := {| lg_Format := if String.eqb (lg_Format log) "" then "json" else lg_Format log;
                 lg_Level := if String.eqb (lg_Level log) "" then "info" else lg_Level log |};
     c_Backup := {| bc_ArchiveTimeout := if bc_ArchiveTimeout b =? 0 then 30 * Minute else bc_ArchiveTimeout b;
                    bc_ScratchDir := bc_ScratchDir b;
                    bc_Resume := match bc_Resume b with None => Some true | r => r end;
                    bc_ResumeCheckpointEveryN := bc_ResumeCheckpointEveryN b;
                    bc_ResumeGracePeriod := if bc_ResumeGracePeriod b =? 0 then 24 * Hour else bc_ResumeGracePeriod b |} |}.

(** ** Validation *)

Definition validCodecs : list string := ["gzip"; "lz4"; "zstd"; "bzip2"].
Definition validStorageTypes : list string := ["posix"; "s3"; "azure"; "gcs"; "sftp"].
Definition validPGVersions : list Z := [13; 14; 15; 16; 17; 18].
Definition validLogFormats : list string := ["json"; "text"].
Definition validLogLevels : list string := ["debug"; "info"; "warn"; "error"].

(** [slices.Contains] *)
Definition slices_Contains {A} `{EqDecision A} (l : list A) (x : A) : bool := bool_decide (x ∈ l).

Definition is_nil {A} (o : option A) : bool := match o with None => true | Some _ => false end.

(** The sections that do not belong to the type. *)
Definition mismatched (r : StorageConfig) : list string :=
  let other ty := negb (String.eqb (st_Type r) ty) in
  (if other "posix" && negb (String.eqb (st_Path r) "") then ["path"] else []) ++
  (if other "s3" && negb (is_nil (st_S3 r)) then ["s3"] else []) ++
  (if other "azure" && negb (is_nil (st_Azure r)) then ["azure"] else []) ++
  (if other "gcs" && negb (is_nil (st_GCS r)) then ["gcs"] else []) ++
  (if other "sftp" && negb (is_nil (st_SFTP r)) then ["sftp"] else []).

Definition empty (s : string) : bool := String.eqb s "".
Definition config_error (msg : string) : error := errors_New ("config: " +:+ msg).

Definition validate_posix (r : StorageConfig) : result unit :=
  if empty (st_Path r) then Fail (config_error "storage.path must be non-empty for type=posix")
  else if negb (HasPrefix (st_Path r) "/") then Fail (config_error "storage.path must be an absolute path")
  else Ok tt.

Definition validate_s3 (r : StorageConfig) : result unit :=
  match st_S3 r with
  | None => Fail (config_error "storage.s3 section required for type=s3")
  | Some s =>
      if empty (s3_Bucket s) then Fail (config_error "storage.s3.bucket must be non-empty")
      else if empty (s3_Region s) then Fail (config_error "storage.s3.region must be non-empty")
      else Ok tt
  end.

Definition validate_azure (r : StorageConfig) : result unit :=
  match st_Azure r with
  | None => Fail (config_error "storage.azure section required for type=azure")
  | Some a =>
      if empty (az_AccountName a) && empty (az_ConnectionString a)
      then Fail (config_error "storage.azure.account_name or connection_string required")
      else if empty (az_Container a) then Fail (config_error "storage.azure.container must be non-empty")
      else if empty (az_AccountKey a) && empty (az_SASToken a) && empty (az_ConnectionString a)
      then Fail (config_error "storage.azure requires one of account_key, sas_token, or connection_string")
      else Ok tt
  end.

Definition validate_gcs (r : StorageConfig) : result unit :=
  match st_GCS r with
  | None => Fail (config_error "storage.gcs section required for type=gcs")
  | Some g => if empty (gcs_Bucket g) then Fail (config_error "storage.gcs.bucket must be non-empty") else Ok tt
  end.

Definition validate_sftp (r : StorageConfig) : result unit :=
  match st_SFTP r with
  | None => Fail (config_error "storage.sftp section required for type=sftp")
  | Some s =>
      if empty (sftp_Host s) then Fail (config_error "storage.sftp.host must be non-empty")
      else if empty (sftp_Username s) then Fail (config_error "storage.sftp.username must be non-empty")
      else if empty (sftp_BasePath s) then Fail (config_error "storage.sftp.base_path must be non-empty")
      else if empty (sftp_Password s) && empty (sftp_PrivateKeyFile s)
      then Fail (config_error "storage.sftp requires one of password or private_key_file")
      else if empty (sftp_HostKey s) && negb (sftp_InsecureIgnoreHostKey s)
      then Fail (config_error "storage.sftp requires host_key or insecure_ignore_host_key=true")
      else Ok tt
  end.

(** [validateBackend] *)
Definition validateBackend (r : StorageConfig) : result unit :=
  if negb (length (mismatched r) =? 0)%nat
  then Fail (config_error ("storage.type but unrelated section(s) present: " +:+ Join (mismatched r) ", "))
  else if String.eqb (st_Type r) "posix" then validate_posix r
  else if String.eqb (st_Type r) "s3" then validate_s3 r
  else if String.eqb (st_Type r) "azure" then validate_azure r
  else if String.eqb (st_Type r) "gcs" then validate_gcs r
  else if String.eqb (st_Type r) "sftp" then validate_sftp r
  else Ok tt.

(** The loop over the storages; [alone] says that there is only one. *)
Fixpoint validate_storages (alone : bool) (l : list StorageConfig) : result unit :=
  match l with
  | [] => Ok tt
  | s :: l =>
      if negb (slices_Contains validStorageTypes (st_Type s)) then Fail (config_error "storages[i].type")
      else match validateBackend s with
           | Fail err => Fail (if alone then err else Errorf_w "config: storages[i]" err)
           | Ok _ => validate_storages alone l
           end
  end.

Section validation.
(** [age.ParseX25519Recipient] and the YAML decoder with known fields only. *)
Context {Key : Type} (ParseX25519Recipient : string -> result Key) (yaml_Decode : string -> result Config).

(** The loop over the recipients. *)
Fixpoint validate_recipients (l : list string) : result unit :=
  match l with
  | [] => Ok tt
  | r :: l =>
      match ParseX25519Recipient r with
      | Fail err => Fail (Errorf_w "config: encryption.recipients[i]" err)
      | Ok _ => validate_recipients l
      end
  end.

(** [Validate] *)
Definition Validate (c : Config) : result unit :=
  if empty (c_Server c) then Fail (config_error "server must be non-empty")
  else if empty (pg_ConnString (c_PG c)) then Fail (config_error "pg.conn_string must be non-empty")
  else if negb (slices_Contains validPGVersions (pg_Version (c_PG c))) then Fail (config_error "pg.version")
  else if negb (slices_Contains [""; "auto"; "native_only"; "via_caller"] (pg_StorageReach (c_PG c)))
  then Fail (config_error "pg.storage_reach")
  else if (length (c_Storages c) =? 0)%nat then Fail (config_error "at least one storage must be configured")
  else match validate_storages (length (c_Storages c) =? 1)%nat (c_Storages c) with
  | Fail err => Fail err
  | Ok _ =>
      if negb (slices_Contains validCodecs (cm_Codec (c_Compression c))) then Fail (config_error "compression.codec")
      else if cm_Level (c_Compression c) <? 0 then Fail (config_error "compression.level must be non-negative")
      else if (length (en_Recipients (c_Encryption c)) =? 0)%nat
      then Fail (config_error "encryption.recipients must declare at least one age public key")
      else match validate_recipients (en_Recipients (c_Encryption c)) with
      | Fail err => Fail err
      | Ok _ =>
          if negb (slices_Contains validLogFormats (lg_Format (c_Log c))) then Fail (config_error "log.format")
          else if negb (slices_Contains validLogLevels (lg_Level (c_Log c))) then Fail (config_error "log.level")
          else Ok tt
      end
  end.

(** [parseAgeRecipients] of [cmd/pgsafe/backup.go] *)
Fixpoint parseAgeRecipients (raw : list string) : result (list Key) :=
  match raw with
  | [] => Ok []
  | s :: raw =>
      match ParseX25519Recipient s with
      | Fail err => Fail (Errorf_w "parse age recipient" err)
      | Ok r => match parseAgeRecipients raw with Ok out => Ok (r :: out) | Fail err => Fail err end
      end
  end.

(** [Load] *)
Definition Load (r : string) : result Config :=
  match yaml_Decode r with
  | Fail err => Fail (Errorf_w "config: parse" err)
  | Ok c => Ok (applyDefaults c)
  end.
End validation.

(** ** What a valid configuration is *)

(** A storage has the one section its type names, with what that section needs. *)
Inductive storage_valid : StorageConfig -> Prop :=
| posix_valid path : path <> "" -> HasPrefix path "/" = true ->
    storage_valid (Build_StorageConfig "posix" path None None None None)
| s3_valid s : s3_Bucket s <> "" -> s3_Region s <> "" ->
    storage_valid (Build_StorageConfig "s3" "" (Some s) None None None)
| azure_valid a : (az_AccountName a <> "" \/ az_ConnectionString a <> "") -> az_Container a <> "" ->
    (az_AccountKey a <> "" \/ az_SASToken a <> "" \/ az_ConnectionString a <> "") ->
    storage_valid (Build_StorageConfig "azure" "" None (Some a) None None)
| gcs_valid g : gcs_Bucket g <> "" -> storage_valid (Build_StorageConfig "gcs" "" None None (Some g) None)
| sftp_valid s : sftp_Host s <> "" -> sftp_Username s <> "" -> sftp_BasePath s <> "" ->
    (sftp_Password s <> "" \/ sftp_PrivateKeyFile s <> "") ->
    (sftp_HostKey s <> "" \/ sftp_InsecureIgnoreHostKey s = true) ->
    storage_valid (Build_StorageConfig "sftp" "" None None None (Some s)).

Record config_valid {Key} (parse : string -> result Key) (c : Config) : Prop := {
  v_server : c_Server c <> "";
  v_conn : pg_ConnString (c_PG c) <> "";
  v_version : 13 <= pg_Version (c_PG c) <= 18;
  v_reach : pg_StorageReach (c_PG c) ∈ [""; "auto"; "native_only"; "via_caller"];
  v_storages : c_Storages c <> [];
  v_storage : Forall storage_valid (c_Storages c);
  v_codec : cm_Codec (c_Compression c) ∈ validCodecs;
  v_level : 0 <= cm_Level (c_Compression c);
  v_recipients : en_Recipients (c_Encryption c) <> [];
  v_recipient : Forall (fun r => exists k, parse r = Ok k) (en_Recipients (c_Encryption c));
  v_format : lg_Format (c_Log c) ∈ validLogFormats;
  v_loglevel : lg_Level (c_Log c) ∈ validLogLevels;
}.

(** A check that is passed. *)
Lemma if_fail {A} (b : bool) e (k : result A) a : (if b then Fail e else k) = Ok a <-> b = false /\ k = Ok a.
Proof. destruct b; naive_solver. Qed.

Lemma match_fail {A B} (r : result A) (k : result B) b :
  match r with Fail err => Fail err | Ok _ => k end = Ok b <-> isOk r = true /\ k = Ok b.
Proof. destruct r; naive_solver. Qed.

Lemma empty_false s : empty s = false <-> s <> "".
Proof. apply String.eqb_neq. Qed.

Lemma contains_false {A} `{EqDecision A} (l : list A) x : negb (slices_Contains l x) = false <-> x ∈ l.
Proof. unfold slices_Contains. by rewrite negb_false_iff, bool_decide_eq_true. Qed.

Lemma length_zero {A} (l : list A) : (length l =? 0)%nat = false <-> l <> [].
Proof. by destruct l. Qed.

Ltac passed := rewrite ?if_fail, ?andb_false_iff, ?negb_false_iff, ?empty_false.

Lemma mismatched_nil r : negb (length (mismatched r) =? 0)%nat = false <->
  (st_Type r <> "posix" -> st_Path r = "") /\ (st_Type r <> "s3" -> st_S3 r = None) /\
  (st_Type r <> "azure" -> st_Azure r = None) /\ (st_Type r <> "gcs" -> st_GCS r = None) /\
  (st_Type r <> "sftp" -> st_SFTP r = None).
Proof.
  assert (Hone : forall (ty : string) (nil : bool) (name : string) (P : Prop), (nil = true <-> P) ->
    (if negb (String.eqb (st_Type r) ty) && negb nil then [name] else []) = [] <-> (st_Type r <> ty -> P)).
  { intros ty nil name P HP. destruct (String.eqb_spec (st_Type r) ty), nil; cbn; naive_solver. }
  rewrite negb_false_iff, Nat.eqb_eq, length_zero_iff_nil. unfold mismatched. rewrite !app_nil.
  rewrite (Hone "posix" (String.eqb (st_Path r) "") "path" _ (String.eqb_eq _ _)).
  rewrite (Hone "s3" (is_nil (st_S3 r)) "s3" (st_S3 r = None)) by (by destruct (st_S3 r)).
  rewrite (Hone "azure" (is_nil (st_Azure r)) "azure" (st_Azure r = None)) by (by destruct (st_Azure r)).
  rewrite (Hone "gcs" (is_nil (st_GCS r)) "gcs" (st_GCS r = None)) by (by destruct (st_GCS r)).
  by rewrite (Hone "sftp" (is_nil (st_SFTP r)) "sftp" (st_SFTP r = None)) by (by destruct (st_SFTP r)).
Qed.

Lemma validateBackend_valid r : storage_valid r -> validateBackend r = Ok tt /\ st_Type r ∈ validStorageTypes.
Proof.
  intros Hr. split; [|by destruct Hr; set_solver]. unfold validateBackend. apply if_fail. split.
  { apply mismatched_nil. by destruct Hr. }
  destruct Hr; cbn [st_Type]; unfold validate_posix, validate_s3, validate_azure, validate_gcs, validate_sftp; cbn;
    passed; rewrite ?String.eqb_neq; tauto.
Qed.

Lemma validateBackend_invalid r : validateBackend r = Ok tt -> st_Type r ∈ validStorageTypes -> storage_valid r.
Proof.
  unfold validateBackend. rewrite if_fail, mismatched_nil. intros [(Hp & H3 & Ha & Hg & Hs) Hv] Hty.
  destruct r as [ty path s3 az gcs sftp]. cbn in *. unfold validStorageTypes in Hty.
  repeat (apply elem_of_cons in Hty as [->|Hty]); [..|by apply not_elem_of_nil in Hty]; cbn in Hv;
    repeat match goal with H : _ <> _ -> _ = _ |- _ => first [specialize (H ltac:(discriminate)); subst | clear H] end;
    unfold validate_posix, validate_s3, validate_azure, validate_gcs, validate_sftp in Hv; cbn in Hv;
    repeat match goal with x : option _ |- _ => destruct x end; try done; revert Hv; passed; rewrite ?String.eqb_neq; intros Hv; constructor; tauto.
Qed.

Lemma validate_storages_spec alone l : isOk (validate_storages alone l) = true <-> Forall storage_valid l.
Proof.
  induction l as [|r l IH]; cbn; [by rewrite Forall_nil|]. rewrite Forall_cons, <- IH.
  destruct (negb (slices_Contains validStorageTypes (st_Type r))) eqn:Ht.
  - split; [done|]. intros [[_ Hin]%validateBackend_valid _]. apply contains_false in Hin. congruence.
  - apply contains_false in Ht. destruct (validateBackend r) as [[]|e] eqn:Hv.
    + split; [|tauto]. intros Hl. split; [by apply validateBackend_invalid|done].
    + split; [by destruct alone|]. intros [[Hok _]%validateBackend_valid _]. congruence.
Qed.

Lemma validate_recipients_spec {Key} (parse : string -> result Key) l :
  isOk (validate_recipients parse l) = true <-> Forall (fun r => exists k, parse r = Ok k) l.
Proof.
  induction l as [|r l IH]; cbn; [by rewrite Forall_nil|]. rewrite Forall_cons, <- IH.
  destruct (parse r) as [k|e]; [|split; [done|]; by intros [[k Hk] _]]. split; [|tauto]. intros Hl. split; [by exists k|done].
Qed.

Lemma validPGVersions_spec v : v ∈ validPGVersions <-> 13 <= v <= 18.
Proof. unfold validPGVersions. rewrite !elem_of_cons, elem_of_nil. lia. Qed.

Lemma Validate_iff {Key} (parse : string -> result Key) c : Validate parse c = Ok tt <-> config_valid parse c.
Proof.
  unfold Validate. rewrite !if_fail, !empty_false, !contains_false, length_zero, match_fail, !if_fail, !contains_false, length_zero,
    match_fail, !if_fail, !contains_false, Z.ltb_ge, validate_storages_spec, validate_recipients_spec, validPGVersions_spec.
  split; [intros; constructor; tauto|]. intros []. tauto.
Qed.

(** The comment at [validateBackend] promises exactly one of password and key; with both the configuration passes. *)
Lemma password_and_key_accepted : validateBackend (Build_StorageConfig "sftp" "" None None None (Some
  {| sftp_Host := "h"; sftp_Port := 22; sftp_Username := "u"; sftp_Password := "secret"; sftp_PrivateKeyFile := "/home/u/.ssh/id"; sftp_BasePath := "/b";
     sftp_HostKey := "ssh-ed25519 A"; sftp_InsecureIgnoreHostKey := false |})) = Ok tt.
Proof. reflexivity. Qed.

(** ** Defaults and what follows *)

Lemma applyDefaults_idem c : applyDefaults (applyDefaults c) = applyDefaults c.
Proof.
  destruct c as [sv pg st cm en [fm lv] [at_ sd rs ev gr]]. unfold applyDefaults. cbn -[Z.eqb Z.mul]. f_equal.
  - by destruct fm, lv.
  - by destruct (at_ =? 0) eqn:Ha, (gr =? 0) eqn:Hg, rs; rewrite ?Ha, ?Hg.
Qed.

Lemma applyDefaults_valid {Key} (parse : string -> result Key) c : config_valid parse c -> config_valid parse (applyDefaults c).
Proof.
  intros []. split; cbn; try done.
  - destruct (String.eqb (lg_Format (c_Log c)) ""); [by repeat constructor|done].
  - destruct (String.eqb (lg_Level (c_Log c)) ""); [by repeat constructor|done].
Qed.

(** A grace period of zero cannot be configured. *)
Lemma grace_period_nonzero c : bc_ResumeGracePeriod (c_Backup (applyDefaults c)) <> 0.
Proof. cbn. destruct (Z.eqb_spec (bc_ResumeGracePeriod (c_Backup c)) 0); [done|done]. Qed.

Section chain.
Context `{FilterLibs} (ParseX25519Recipient : string -> result Recipient).

Lemma parseAgeRecipients_Ok l : Forall (fun r => exists k, ParseX25519Recipient r = Ok k) l ->
  exists ks, parseAgeRecipients ParseX25519Recipient l = Ok ks /\ length ks = length l.
Proof.
  induction 1 as [|r l [k Hk] Hl (ks & Hks & Hlen)]; cbn; [by exists []|]. rewrite Hk, Hks. exists (k :: ks). cbn. auto.
Qed.

(** A configuration that passes validation always gives a filter chain, with its codec, its
    level and one key per recipient. *)
Theorem valid_config_chain c : Validate ParseX25519Recipient c = Ok tt ->
  exists ks chain, parseAgeRecipients ParseX25519Recipient (en_Recipients (c_Encryption c)) = Ok ks /\
    NewChain {| o_Codec := cm_Codec (c_Compression c); o_Level := cm_Level (c_Compression c); o_Recipients := ks |} = Ok chain /\
    codec_Name (ch_codec chain) = cm_Codec (c_Compression c) /\ length (ch_recipients chain) = length (en_Recipients (c_Encryption c)).
Proof.
  intros Hv. apply Validate_iff in Hv as [_ _ _ _ _ _ Hcodec _ Hne Hrec _ _].
  destruct (parseAgeRecipients_Ok _ Hrec) as (ks & Hks & Hlen).
  assert (Hk : (length ks =? 0)%nat = false) by (rewrite Hlen; by apply length_zero).
  exists ks. unfold NewChain. cbn [o_Recipients o_Codec o_Level]. rewrite Hk. unfold validCodecs in Hcodec.
  repeat (apply elem_of_cons in Hcodec as [->|Hcodec]); [..|by apply not_elem_of_nil in Hcodec];
    (eexists; split; [done|]; split; [reflexivity|]; by split).
Qed.
End chain.

(** ** A configuration *)

Definition sample_config : Config :=
  applyDefaults
    {| c_Server := "db"; c_PG := {| pg_ConnString := "host=db"; pg_Version := 17; pg_Host := ""; pg_SSHExtraArgs := ""; pg_StorageReach := "" |};
       c_Storages := [Build_StorageConfig "posix" "/srv/backups" None None None None];
       c_Compression := {| cm_Codec := "zstd"; cm_Level := 3 |}; c_Encryption := {| en_Recipients := ["age1key"] |};
       c_Log := {| lg_Format := ""; lg_Level := "" |};
       c_Backup := {| bc_ArchiveTimeout := 0; bc_ScratchDir := ""; bc_Resume := None; bc_ResumeCheckpointEveryN := 0; bc_ResumeGracePeriod := 0 |} |}.

Definition sample_parse (s : string) : result (Recipient (FilterLibs:=framing_libs)) :=
  if HasPrefix s "age1" then Ok 7%nat else Fail (errors_New "malformed recipient").

Lemma valid_config_chain_witness : exists ks chain, parseAgeRecipients sample_parse ["age1key"] = Ok ks /\
  NewChain (H:=framing_libs) {| o_Codec := "zstd"; o_Level := 3; o_Recipients := ks |} = Ok chain.
Proof.
  destruct (valid_config_chain (H:=framing_libs) sample_parse sample_config) as (ks & chain & Hks & Hc & _); [vm_compute; reflexivity|].
  exists ks, chain. split; [exact Hks|exact Hc].
Defined.

(** A configuration that kept the credentials of another storage is refused. *)
Example stale_section : isOk (validateBackend (Build_StorageConfig "posix" "/srv" (Some (Build_S3Config "b" "r" "" false "" "" "")) None None None)) = false.
Proof. reflexivity. Qed.
