(* ===== verification/Creds.v ===== *)
(** * Credentials for the worker

    [internal/transport/creds]: the credential a caller mints for one backup, its text on the wire,
    and the storage a worker opens with it. The SDKs that mint tokens and dial storages are
    parameters. *)

From S2P Require Import Prelude Storage Host Time Json JsonSpec Manifest ManifestSpec Config.

(** ** The credential *)

Definition TypeNone : string := "".
Definition TypeS3STS : string := "s3sts".
Definition TypeAzureSAS : string := "azure_sas".
Definition TypeGCSToken : string := "gcs_token".
Definition TypeSFTPKey : string := "sftp_key".

Record S3STSCredential := {
  sc3_AccessKeyID : string; sc3_SecretAccessKey : string; sc3_SessionToken : string; sc3_Expiration : time; sc3_Region : string;
  sc3_Bucket : string; sc3_Prefix : string; sc3_Endpoint : string; sc3_UsePathStyle : bool;
}.
Record AzureSASCredential := {
  sca_AccountName : string; sca_Container : string; sca_SASToken : string; sca_ServiceURL : string; sca_Expiration : time; sca_Prefix : string;
}.
Record GCSTokenCredential := {
  scg_AccessToken : string; scg_TokenType : string; scg_Expiration : time; scg_Bucket : string; scg_Prefix : string; scg_Endpoint : string;
}.
Record SFTPKeyCredential := {
  scs_Host : string; scs_Port : Z; scs_Username : string; scs_PrivateKeyPEM : string; scs_BasePath : string; scs_HostKey : string;
  scs_InsecureIgnoreHostKey : bool;
}.
Record Credential := {
  cr_Type : string; cr_S3STS : option S3STSCredential; cr_AzureSAS : option AzureSASCredential;
  cr_GCSToken : option GCSTokenCredential; cr_SFTPKey : option SFTPKeyCredential;
}.

Definition none_credential : Credential := {| cr_Type := TypeNone; cr_S3STS := None; cr_AzureSAS := None; cr_GCSToken := None; cr_SFTPKey := None |}.

(** [Credential.Validate] *)
Definition cred_Validate (c : Credential) : result unit :=
  let need (o : bool) := if o then Ok tt else Fail (errors_New "creds: payload missing") in
  if String.eqb (cr_Type c) TypeNone then Ok tt
  else if String.eqb (cr_Type c) TypeS3STS then need (bool_decide (is_Some (cr_S3STS c)))
  else if String.eqb (cr_Type c) TypeAzureSAS then need (bool_decide (is_Some (cr_AzureSAS c)))
  else if String.eqb (cr_Type c) TypeGCSToken then need (bool_decide (is_Some (cr_GCSToken c)))
  else if String.eqb (cr_Type c) TypeSFTPKey then need (bool_decide (is_Some (cr_SFTPKey c)))
  else Fail (errors_New "creds: unknown type").

(** ** Its text *)

Definition s3sts_json (c : S3STSCredential) : option json :=
  let? exp := time_json (sc3_Expiration c) in
  Some (Obj ([("access_key_id", Str (sc3_AccessKeyID c)); ("secret_access_key", Str (sc3_SecretAccessKey c));
              ("session_token", Str (sc3_SessionToken c)); ("expiration", exp); ("region", Str (sc3_Region c));
              ("bucket", Str (sc3_Bucket c)); ("prefix", Str (sc3_Prefix c))] ++
             omitempty (String.eqb (sc3_Endpoint c) "") "endpoint" (Str (sc3_Endpoint c)) ++
             omitempty (negb (sc3_UsePathStyle c)) "use_path_style" (Bool (sc3_UsePathStyle c)))).

Definition azure_json (c : AzureSASCredential) : option json :=
  let? exp := time_json (sca_Expiration c) in
  Some (Obj ([("account_name", Str (sca_AccountName c)); ("container", Str (sca_Container c)); ("sas_token", Str (sca_SASToken c));
              ("service_url", Str (sca_ServiceURL c)); ("expiration", exp)] ++
             omitempty (String.eqb (sca_Prefix c) "") "prefix" (Str (sca_Prefix c)))).

Definition gcs_json (c : GCSTokenCredential) : option json :=
  let? exp := time_json (scg_Expiration c) in
  Some (Obj ([("access_token", Str (scg_AccessToken c)); ("token_type", Str (scg_TokenType c)); ("expiration", exp);
              ("bucket", Str (scg_Bucket c))] ++
             omitempty (String.eqb (scg_Prefix c) "") "prefix" (Str (scg_Prefix c)) ++
             omitempty (String.eqb (scg_Endpoint c) "") "endpoint" (Str (scg_Endpoint c)))).

Definition sftp_json (c : SFTPKeyCredential) : option json :=
  Some (Obj ([("host", Str (scs_Host c)); ("port", int_json (scs_Port c)); ("username", Str (scs_Username c));
              ("private_key_pem", Str (b64_encode (scs_PrivateKeyPEM c))); ("base_path", Str (scs_BasePath c))] ++
             omitempty (String.eqb (scs_HostKey c) "") "host_key" (Str (scs_HostKey c)) ++
             omitempty (negb (scs_InsecureIgnoreHostKey c)) "insecure_ignore_host_key" (Bool (scs_InsecureIgnoreHostKey c)))).

(** A pointer that is left out when it is nil. *)
Definition variant_json {A} (name : string) (f : A -> option json) (o : option A) : option (list (string * json)) :=
  match o with None => Some [] | Some a => let? j := f a in Some [(name, j)] end.

Definition credential_json (c : Credential) : option json :=
  let? s3 := variant_json "s3sts" s3sts_json (cr_S3STS c) in
  let? az := variant_json "azure_sas" azure_json (cr_AzureSAS c) in
  let? gc := variant_json "gcs_token" gcs_json (cr_GCSToken c) in
  let? sf := variant_json "sftp_key" sftp_json (cr_SFTPKey c) in
  Some (Obj ([("type", Str (cr_Type c))] ++ s3 ++ az ++ gc ++ sf)).

(** [Credential.Marshal] *)
Definition cred_Marshal (c : Credential) : result string :=
  match credential_json c with
  | Some j => Ok (Marshal j)
  | None => Fail (errors_New "json: error calling MarshalJSON for type time.Time")
  end.

Definition zero_s3sts : S3STSCredential := Build_S3STSCredential "" "" "" zero_time "" "" "" "" false.
Definition zero_azure : AzureSASCredential := Build_AzureSASCredential "" "" "" "" zero_time "".
Definition zero_gcs : GCSTokenCredential := Build_GCSTokenCredential "" "" zero_time "" "" "".
Definition zero_sftp : SFTPKeyCredential := Build_SFTPKeyCredential "" 0 "" "" "" "" false.

Definition s3sts_fields : fields S3STSCredential :=
  [field "access_key_id" sc3_AccessKeyID (fun x '(Build_S3STSCredential _ b c d e f g h i) => Build_S3STSCredential x b c d e f g h i) dec_string;
   field "secret_access_key" sc3_SecretAccessKey (fun x '(Build_S3STSCredential a _ c d e f g h i) => Build_S3STSCredential a x c d e f g h i) dec_string;
   field "session_token" sc3_SessionToken (fun x '(Build_S3STSCredential a b _ d e f g h i) => Build_S3STSCredential a b x d e f g h i) dec_string;
   field "expiration" sc3_Expiration (fun x '(Build_S3STSCredential a b c _ e f g h i) => Build_S3STSCredential a b c x e f g h i) dec_time;
   field "region" sc3_Region (fun x '(Build_S3STSCredential a b c d _ f g h i) => Build_S3STSCredential a b c d x f g h i) dec_string;
   field "bucket" sc3_Bucket (fun x '(Build_S3STSCredential a b c d e _ g h i) => Build_S3STSCredential a b c d e x g h i) dec_string;
   field "prefix" sc3_Prefix (fun x '(Build_S3STSCredential a b c d e f _ h i) => Build_S3STSCredential a b c d e f x h i) dec_string;
   field "endpoint" sc3_Endpoint (fun x '(Build_S3STSCredential a b c d e f g _ i) => Build_S3STSCredential a b c d e f g x i) dec_string;
   field "use_path_style" sc3_UsePathStyle (fun x '(Build_S3STSCredential a b c d e f g h _) => Build_S3STSCredential a b c d e f g h x) dec_bool].

Definition azure_fields : fields AzureSASCredential :=
  [field "account_name" sca_AccountName (fun x '(Build_AzureSASCredential _ b c d e f) => Build_AzureSASCredential x b c d e f) dec_string;
   field "container" sca_Container (fun x '(Build_AzureSASCredential a _ c d e f) => Build_AzureSASCredential a x c d e f) dec_string;
   field "sas_token" sca_SASToken (fun x '(Build_AzureSASCredential a b _ d e f) => Build_AzureSASCredential a b x d e f) dec_string;
   field "service_url" sca_ServiceURL (fun x '(Build_AzureSASCredential a b c _ e f) => Build_AzureSASCredential a b c x e f) dec_string;
   field "expiration" sca_Expiration (fun x '(Build_AzureSASCredential a b c d _ f) => Build_AzureSASCredential a b c d x f) dec_time;
   field "prefix" sca_Prefix (fun x '(Build_AzureSASCredential a b c d e _) => Build_AzureSASCredential a b c d e x) dec_string].

Definition gcs_fields : fields GCSTokenCredential :=
  [field "access_token" scg_AccessToken (fun x '(Build_GCSTokenCredential _ b c d e f) => Build_GCSTokenCredential x b c d e f) dec_string;
   field "token_type" scg_TokenType (fun x '(Build_GCSTokenCredential a _ c d e f) => Build_GCSTokenCredential a x c d e f) dec_string;
   field "expiration" scg_Expiration (fun x '(Build_GCSTokenCredential a b _ d e f) => Build_GCSTokenCredential a b x d e f) dec_time;
   field "bucket" scg_Bucket (fun x '(Build_GCSTokenCredential a b c _ e f) => Build_GCSTokenCredential a b c x e f) dec_string;
   field "prefix" scg_Prefix (fun x '(Build_GCSTokenCredential a b c d _ f) => Build_GCSTokenCredential a b c d x f) dec_string;
   field "endpoint" scg_Endpoint (fun x '(Build_GCSTokenCredential a b c d e _) => Build_GCSTokenCredential a b c d e x) dec_string].

Definition sftp_fields : fields SFTPKeyCredential :=
  [field "host" scs_Host (fun x '(Build_SFTPKeyCredential _ b c d e f g) => Build_SFTPKeyCredential x b c d e f g) dec_string;
   field "port" scs_Port (fun x '(Build_SFTPKeyCredential a _ c d e f g) => Build_SFTPKeyCredential a x c d e f g) dec_int64;
   field "username" scs_Username (fun x '(Build_SFTPKeyCredential a b _ d e f g) => Build_SFTPKeyCredential a b x d e f g) dec_string;
   field "private_key_pem" scs_PrivateKeyPEM (fun x '(Build_SFTPKeyCredential a b c _ e f g) => Build_SFTPKeyCredential a b c x e f g) dec_base64;
   field "base_path" scs_BasePath (fun x '(Build_SFTPKeyCredential a b c d _ f g) => Build_SFTPKeyCredential a b c d x f g) dec_string;
   field "host_key" scs_HostKey (fun x '(Build_SFTPKeyCredential a b c d e _ g) => Build_SFTPKeyCredential a b c d e x g) dec_string;
   field "insecure_ignore_host_key" scs_InsecureIgnoreHostKey (fun x '(Build_SFTPKeyCredential a b c d e f _) => Build_SFTPKeyCredential a b c d e f x) dec_bool].

Definition credential_fields : fields Credential :=
  [field "type" cr_Type (fun x '(Build_Credential _ b c d e) => Build_Credential x b c d e) dec_string;
   field "s3sts" cr_S3STS (fun x '(Build_Credential a _ c d e) => Build_Credential a x c d e) (dec_ptr zero_s3sts (dec_struct false s3sts_fields));
   field "azure_sas" cr_AzureSAS (fun x '(Build_Credential a b _ d e) => Build_Credential a b x d e) (dec_ptr zero_azure (dec_struct false azure_fields));
   field "gcs_token" cr_GCSToken (fun x '(Build_Credential a b c _ e) => Build_Credential a b c x e) (dec_ptr zero_gcs (dec_struct false gcs_fields));
   field "sftp_key" cr_SFTPKey (fun x '(Build_Credential a b c d _) => Build_Credential a b c d x) (dec_ptr zero_sftp (dec_struct false sftp_fields))].

(** [Unmarshal] *)
Definition cred_Unmarshal (b : string) : result Credential :=
  match Unmarshal (dec_struct false credential_fields) none_credential b with
  | Fail err => Fail (Errorf_w "creds: unmarshal" err)
  | Ok c => match cred_Validate c with Fail err => Fail err | Ok _ => Ok c end
  end.

(** ** A credential comes back from its text *)

Definition time_ok (t : time) : Prop := exists s, MarshalTime t = Some s /\ valid_utf8 s = true /\ ParseRFC3339 s = Some t.

Definition s3sts_ok (c : S3STSCredential) : Prop :=
  valid_strings [sc3_AccessKeyID c; sc3_SecretAccessKey c; sc3_SessionToken c; sc3_Region c; sc3_Bucket c; sc3_Prefix c; sc3_Endpoint c] /\
  time_ok (sc3_Expiration c).
Definition azure_ok (c : AzureSASCredential) : Prop :=
  valid_strings [sca_AccountName c; sca_Container c; sca_SASToken c; sca_ServiceURL c; sca_Prefix c] /\ time_ok (sca_Expiration c).
Definition gcs_ok (c : GCSTokenCredential) : Prop :=
  valid_strings [scg_AccessToken c; scg_TokenType c; scg_Bucket c; scg_Prefix c; scg_Endpoint c] /\ time_ok (scg_Expiration c).
Definition sftp_ok (c : SFTPKeyCredential) : Prop :=
  valid_strings [scs_Host c; scs_Username c; scs_BasePath c; scs_HostKey c] /\ is_i64 (scs_Port c).

(** Values the Go types hold, with strings that are text; the private key may be any bytes. *)
Record credential_ok (c : Credential) : Prop := {
  cok_valid : cred_Validate c = Ok tt;
  cok_s3 : from_option s3sts_ok True (cr_S3STS c);
  cok_azure : from_option azure_ok True (cr_AzureSAS c);
  cok_gcs : from_option gcs_ok True (cr_GCSToken c);
  cok_sftp : from_option sftp_ok True (cr_SFTPKey c);
}.

Ltac run_fields ::=
  unfold s3sts_fields, azure_fields, gcs_fields, sftp_fields, credential_fields; run_members; cbn [dec_string dec_bool].

(** The value of a variant is text and numbers, and decodes to it. *)
Definition decodes {A} (zero : A) (fs : fields A) (o : option json) (a : A) : Prop :=
  exists j, o = Some j /\ clean j /\ j <> Null /\ dec_struct false fs zero j = Some a.

Ltac clean_members :=
  apply clean_obj; cbn [app];
  repeat first [apply Forall_nil_2 | apply clean_omitempty | apply Forall_cons; split; [split; [reflexivity|]|]
               | rewrite <- (app_nil_r (omitempty _ _ _)); apply clean_omitempty]; try done; try apply clean_int.

Lemma s3sts_decodes c : s3sts_ok c -> decodes zero_s3sts s3sts_fields (s3sts_json c) c.
Proof.
  intros [Hs (t & Ht & Hu & Hp)]. unfold valid_strings in Hs. unfold s3sts_json, time_json. rewrite Ht. eexists. split; [reflexivity|].
  repeat match goal with H : Forall _ (_ :: _) |- _ => apply Forall_cons in H as [? H] end. split; [clean_members|split; [done|]].
  destruct c as [a b c d e f g h i]. cbn [sc3_Expiration] in *. unfold dec_struct, zero_s3sts. cbn [sc3_AccessKeyID sc3_SecretAccessKey sc3_SessionToken
    sc3_Expiration sc3_Region sc3_Bucket sc3_Prefix sc3_Endpoint sc3_UsePathStyle app].
  step_member (Build_S3STSCredential a "" "" zero_time "" "" "" "" false) idtac.
  step_member (Build_S3STSCredential a b "" zero_time "" "" "" "" false) idtac.
  step_member (Build_S3STSCredential a b c zero_time "" "" "" "" false) idtac.
  step_member (Build_S3STSCredential a b c d "" "" "" "" false) ltac:(cbn [dec_time]; rewrite Hp).
  step_member (Build_S3STSCredential a b c d e "" "" "" false) idtac.
  step_member (Build_S3STSCredential a b c d e f "" "" false) idtac.
  step_member (Build_S3STSCredential a b c d e f g "" false) idtac.
  step_omitempty (Build_S3STSCredential a b c d e f g h false) idtac.
  destruct i; [|done]. cbn [negb omitempty]. unfold s3sts_fields. by run_members.
Qed.

Lemma azure_decodes c : azure_ok c -> decodes zero_azure azure_fields (azure_json c) c.
Proof.
  intros [Hs (t & Ht & Hu & Hp)]. unfold valid_strings in Hs. unfold azure_json, time_json. rewrite Ht. eexists. split; [reflexivity|].
  repeat match goal with H : Forall _ (_ :: _) |- _ => apply Forall_cons in H as [? H] end. split; [clean_members|split; [done|]].
  destruct c as [a b c d e f]. cbn [sca_Expiration] in *. unfold dec_struct, zero_azure. cbn [sca_AccountName sca_Container sca_SASToken
    sca_ServiceURL sca_Expiration sca_Prefix app].
  step_member (Build_AzureSASCredential a "" "" "" zero_time "") idtac.
  step_member (Build_AzureSASCredential a b "" "" zero_time "") idtac.
  step_member (Build_AzureSASCredential a b c "" zero_time "") idtac.
  step_member (Build_AzureSASCredential a b c d zero_time "") idtac.
  step_member (Build_AzureSASCredential a b c d e "") ltac:(cbn [dec_time]; rewrite Hp).
  unfold omitempty. destruct (String.eqb_spec f "") as [->|]; [done|]. unfold azure_fields. by run_members.
Qed.

Lemma gcs_decodes c : gcs_ok c -> decodes zero_gcs gcs_fields (gcs_json c) c.
Proof.
  intros [Hs (t & Ht & Hu & Hp)]. unfold valid_strings in Hs. unfold gcs_json, time_json. rewrite Ht. eexists. split; [reflexivity|].
  repeat match goal with H : Forall _ (_ :: _) |- _ => apply Forall_cons in H as [? H] end. split; [clean_members|split; [done|]].
  destruct c as [a b c d e f]. cbn [scg_Expiration] in *. unfold dec_struct, zero_gcs. cbn [scg_AccessToken scg_TokenType scg_Expiration scg_Bucket
    scg_Prefix scg_Endpoint app].
  step_member (Build_GCSTokenCredential a "" zero_time "" "" "") idtac.
  step_member (Build_GCSTokenCredential a b zero_time "" "" "") idtac.
  step_member (Build_GCSTokenCredential a b c "" "" "") ltac:(cbn [dec_time]; rewrite Hp).
  step_member (Build_GCSTokenCredential a b c d "" "") idtac.
  step_omitempty (Build_GCSTokenCredential a b c d e "") idtac.
  unfold omitempty. destruct (String.eqb_spec f "") as [->|]; [done|]. unfold gcs_fields. by run_members.
Qed.

Lemma b64_char_plain v : 0 <= v < 64 -> plain_char (b64_char v) = true.
Proof.
  intros Hv. assert (Hall : forallb (fun n => plain_char (b64_char (Z.of_nat n))) (seq 0 64) = true) by reflexivity.
  rewrite forallb_forall in Hall. specialize (Hall (Z.to_nat v)). rewrite in_seq, Z2Nat.id in Hall by lia. apply Hall. lia.
Qed.

Lemma b64_encode_utf8 s : valid_utf8 (b64_encode s) = true.
Proof.
  apply plain_utf8. induction s as [|x|x y|x y z s IH] using string_ind3; [done|..]; cbn [b64_encode b64_quad sall].
  all: pose proof (byte_val_range x) as Hx; try pose proof (byte_val_range y) as Hy; try pose proof (byte_val_range z) as Hz.
  all: rewrite !b64_char_plain by (Z.div_mod_to_equations; lia); rewrite ?IH; done.
Qed.

Lemma sftp_decodes c : sftp_ok c -> decodes zero_sftp sftp_fields (sftp_json c) c.
Proof.
  intros [Hs Hp]. unfold valid_strings in Hs. unfold sftp_json. eexists. split; [reflexivity|].
  repeat match goal with H : Forall _ (_ :: _) |- _ => apply Forall_cons in H as [? H] end.
  split; [clean_members; apply b64_encode_utf8|split; [done|]].
  destruct c as [a b c d e f g]. cbn [scs_Port] in *. unfold dec_struct, zero_sftp. cbn [scs_Host scs_Port scs_Username scs_PrivateKeyPEM scs_BasePath
    scs_HostKey scs_InsecureIgnoreHostKey app].
  step_member (Build_SFTPKeyCredential a 0 "" "" "" "" false) idtac.
  step_member (Build_SFTPKeyCredential a b "" "" "" "" false) ltac:(rewrite dec_int64_json by done).
  step_member (Build_SFTPKeyCredential a b c "" "" "" false) idtac.
  step_member (Build_SFTPKeyCredential a b c d "" "" false) ltac:(cbn [dec_base64]; rewrite b64_roundtrip).
  step_member (Build_SFTPKeyCredential a b c d e "" false) idtac.
  step_omitempty (Build_SFTPKeyCredential a b c d e f false) idtac.
  destruct g; [|done]. cbn [negb omitempty]. unfold sftp_fields. by run_members.
Qed.

(** The members of a pointer to a variant. *)
Lemma variant_decodes {A} name (f : A -> option json) (o : option A) (P : A -> Prop) zero fs :
  (forall a, P a -> decodes zero fs (f a) a) -> from_option P True o -> valid_utf8 name = true ->
  exists l, variant_json name f o = Some l /\ Forall (fun '(k, v) => valid_utf8 k = true /\ clean v) l /\
    ((o = None /\ l = []) \/ exists a j, o = Some a /\ l = [(name, j)] /\ dec_ptr zero (dec_struct false fs) None j = Some (Some a)).
Proof.
  intros Hf Hok Hn. destruct o as [a|]; [|exists []; split_and!; [done|constructor|by left]]. destruct (Hf a Hok) as (j & Ej & Hc & Hnn & Hd).
  cbn [variant_json]. rewrite Ej. cbn [obind]. exists [(name, j)]. split_and!; [done|by repeat constructor|right]. exists a, j. split_and!; [done..|].
  unfold dec_ptr. cbn [default from_option]. rewrite Hd. by destruct j.
Qed.

Lemma valid_type c : isOk (cred_Validate c) = true -> valid_utf8 (cr_Type c) = true.
Proof.
  unfold cred_Validate. cbv zeta. generalize (cr_Type c). intros ty.
  repeat match goal with |- context [String.eqb ty ?x] => destruct (String.eqb_spec ty x) as [->|_]; [intros _; reflexivity|] end. done.
Qed.

Lemma credential_decodes c : credential_ok c -> decodes none_credential credential_fields (credential_json c) c.
Proof.
  intros [Hv H3 Ha Hg Hs]. unfold credential_json.
  destruct (variant_decodes "s3sts" s3sts_json (cr_S3STS c) s3sts_ok _ _ s3sts_decodes H3 eq_refl) as (l3 & -> & Hc3 & D3).
  destruct (variant_decodes "azure_sas" azure_json (cr_AzureSAS c) azure_ok _ _ azure_decodes Ha eq_refl) as (la & -> & Hca & Da).
  destruct (variant_decodes "gcs_token" gcs_json (cr_GCSToken c) gcs_ok _ _ gcs_decodes Hg eq_refl) as (lg & -> & Hcg & Dg).
  destruct (variant_decodes "sftp_key" sftp_json (cr_SFTPKey c) sftp_ok _ _ sftp_decodes Hs eq_refl) as (ls & -> & Hcs & Ds).
  cbn [obind]. eexists. split; [reflexivity|]. split.
  { apply clean_obj. cbn [app]. constructor; [split; [reflexivity|]|by repeat (apply Forall_app; split)].
    apply valid_type. by rewrite Hv. }
  split; [done|]. destruct c as [ty s3 az gc sf]. cbn [cr_Type cr_S3STS cr_AzureSAS cr_GCSToken cr_SFTPKey] in *. unfold dec_struct, none_credential. cbn [app].
  step_member (Build_Credential ty None None None None) idtac.
  apply (dec_members_step _ _ _ _ _ (Build_Credential ty s3 None None None)).
  { destruct D3 as [[-> ->]|(a & j & -> & -> & Hd)]; [done|]. run_fields. cbn [cr_S3STS]. by rewrite Hd. }
  apply (dec_members_step _ _ _ _ _ (Build_Credential ty s3 az None None)).
  { destruct Da as [[-> ->]|(a & j & -> & -> & Hd)]; [done|]. run_fields. cbn [cr_AzureSAS]. by rewrite Hd. }
  apply (dec_members_step _ _ _ _ _ (Build_Credential ty s3 az gc None)).
  { destruct Dg as [[-> ->]|(a & j & -> & -> & Hd)]; [done|]. run_fields. cbn [cr_GCSToken]. by rewrite Hd. }
  destruct Ds as [[-> ->]|(a & j & -> & -> & Hd)]; [done|]. run_fields. cbn [cr_SFTPKey]. by rewrite Hd.
Qed.

Lemma cred_text_parses c : credential_ok c -> exists text, cred_Marshal c = Ok text /\ cred_Unmarshal text = Ok c.
Proof.
  intros Hok. destruct (credential_decodes c Hok) as (j & Ej & Hc & _ & Hd). unfold cred_Marshal, cred_Unmarshal. rewrite Ej.
  eexists. split; [done|]. rewrite (Unmarshal_Marshal _ _ _ c) by done. by rewrite (cok_valid c Hok).
Qed.

(** A credential that validates comes back from the text the caller sends, whatever bytes its private key
    has. *)
Theorem Credential_roundtrip c : credential_ok c -> exists text, cred_Marshal c = Ok text /\ cred_Unmarshal text = Ok c.
Proof. apply cred_text_parses. Qed.

(** A key for the tunnel, and a token. *)
Definition sample_sftp_key : SFTPKeyCredential :=
  {| scs_Host := "127.0.0.1"; scs_Port := 50000; scs_Username := "pgsafe"; scs_PrivateKeyPEM := "-----BEGIN" +:+ nl +:+ String "255" "";
     scs_BasePath := "/backups"; scs_HostKey := ""; scs_InsecureIgnoreHostKey := true |}.
Definition sftp_credential (k : SFTPKeyCredential) : Credential :=
  {| cr_Type := TypeSFTPKey; cr_S3STS := None; cr_AzureSAS := None; cr_GCSToken := None; cr_SFTPKey := Some k |}.
Definition sample_s3_key : S3STSCredential :=
  {| sc3_AccessKeyID := "AKIA"; sc3_SecretAccessKey := "a+b/c"; sc3_SessionToken := "tok=="; sc3_Expiration := Date 2026 4 1 11 0 0;
     sc3_Region := "eu-west-1"; sc3_Bucket := "backups"; sc3_Prefix := "db"; sc3_Endpoint := ""; sc3_UsePathStyle := true |}.
Definition s3_credential (k : S3STSCredential) : Credential :=
  {| cr_Type := TypeS3STS; cr_S3STS := Some k; cr_AzureSAS := None; cr_GCSToken := None; cr_SFTPKey := None |}.

Lemma sample_sftp_ok : credential_ok (sftp_credential sample_sftp_key).
Proof. split; try done. split; [|vm_compute; split; discriminate || reflexivity]. unfold valid_strings. repeat (apply Forall_cons; split; [reflexivity|]). constructor. Qed.

Lemma sample_s3_ok : credential_ok (s3_credential sample_s3_key).
Proof.
  split; try done. split; [unfold valid_strings; repeat (apply Forall_cons; split; [reflexivity|]); constructor|].
  exists "2026-04-01T11:00:00Z". split_and!; by vm_compute.
Qed.

Lemma Credential_roundtrip_witness :
  (exists text, cred_Marshal (sftp_credential sample_sftp_key) = Ok text /\ cred_Unmarshal text = Ok (sftp_credential sample_sftp_key)) /\
  (exists text, cred_Marshal (s3_credential sample_s3_key) = Ok text /\ cred_Unmarshal text = Ok (s3_credential sample_s3_key)).
Proof. split; [exact (Credential_roundtrip _ sample_sftp_ok)|exact (Credential_roundtrip _ sample_s3_ok)]. Defined.

(** A type without its variant is refused. *)
Lemma cred_Validate_spec c : cred_Validate c = Ok tt <->
  cr_Type c = TypeNone \/ (cr_Type c = TypeS3STS /\ is_Some (cr_S3STS c)) \/ (cr_Type c = TypeAzureSAS /\ is_Some (cr_AzureSAS c)) \/
  (cr_Type c = TypeGCSToken /\ is_Some (cr_GCSToken c)) \/ (cr_Type c = TypeSFTPKey /\ is_Some (cr_SFTPKey c)).
Proof.
  unfold cred_Validate. cbv zeta. destruct c as [ty s3 az gc sf]. cbn [cr_Type cr_S3STS cr_AzureSAS cr_GCSToken cr_SFTPKey].
  unfold TypeNone, TypeS3STS, TypeAzureSAS, TypeGCSToken, TypeSFTPKey.
  repeat match goal with |- context [String.eqb ty ?x] => destruct (String.eqb_spec ty x) as [->|]; [try (case_bool_decide; naive_solver)|] end; naive_solver.
Qed.
