(* ===== verification/Mint.v ===== *)
(** * Minting credentials and choosing how the worker reaches the storage

    [internal/transport/creds/mint.go] and [open.go], [internal/transport/sftptunnel] (ports, arguments
    and sessions) and [internal/backup/proxy.go]. Signing and the services that hand out tokens are
    parameters, as is every connection. *)

From S2P Require Import Prelude Storage Host Time Json Config Creds.

(** A nil pointer that is followed ends the program. *)
Definition nil_panic : error := errors_New "panic: invalid memory address or nil pointer dereference".
Definition deref_or_panic {W A} (o : option A) : M W A := match o with Some a => ret a | None => throw nil_panic end.

(** [DefaultLifetime] *)
Definition DefaultLifetime : Z := 1 * Hour.
Definition lifetime_or_default (lifetime : Z) : Z := if lifetime <=? 0 then DefaultLifetime else lifetime.

(** [endsWithSlash] *)
Definition endsWithSlash (s : string) : bool :=
  (0 <? slen s)%nat && match sget s (slen s - 1) with Some c => Ascii.eqb c "/" | None => false end.

(** A number cut to [int32]. *)
Definition i32 (z : Z) : Z := (z + 2 ^ 31) mod 2 ^ 32 - 2 ^ 31.

(** ** S3 *)

Definition policy_actions : list string := ["s3:PutObject"; "s3:AbortMultipartUpload"].

Definition policy_resource (bucket prefix : string) : string :=
  "arn:aws:s3:::" +:+ bucket +:+ "/" +:+ (if String.eqb prefix "" then "" else prefix +:+ "/") +:+ "*".

(** The keys of a Go map are marshalled in their order. *)
Definition policy_json (bucket prefix : string) : json :=
  Obj [("Statement", Arr [Obj [("Action", Arr (map Str policy_actions)); ("Effect", Str "Allow"); ("Resource", Str (policy_resource bucket prefix))]]);
       ("Version", Str "2012-10-17")].

(** [s3InlinePolicy] *)
Definition s3InlinePolicy (bucket prefix : string) : result string := Ok (Marshal (policy_json bucket prefix)).

(** What [sts.AssumeRole] gives back. *)
Record AssumedRole := { ar_AccessKeyId : option string; ar_SecretAccessKey : option string; ar_SessionToken : option string; ar_Expiration : option time }.

(** [sas.BlobSignatureValues] *)
Record SigVals := {
  sv_HTTPSOnly : bool; sv_StartTime : time; sv_ExpiryTime : time; sv_Read : bool; sv_Write : bool; sv_Create : bool; sv_Add : bool;
  sv_ContainerName : string; sv_BlobName : string;
}.

Class Minting (W : Type) := {
  os_Getenv : string -> W -> string;
  AwsConfig : Type;
  aws_LoadDefaultConfig : string -> option (string * string) -> M W AwsConfig;
  sts_AssumeRole : AwsConfig -> string -> string -> string -> string -> Z -> M W (option AssumedRole);  (* endpoint, role, session, policy, seconds *)
  SharedKey : Type;
  azblob_NewSharedKeyCredential : string -> string -> result SharedKey;
  sas_Sign : SigVals -> SharedKey -> result string;
  url_Parse : string -> result unit;
  IamClient : Type;
  iam_NewClient : string -> M W IamClient;
  iam_GenerateAccessToken : IamClient -> string -> string -> Z -> M W (string * option time);           (* name, scope, lifetime *)
  iam_Close : IamClient -> M W unit;
}.

Section mint.
Context {W : Type} `{Minting W, Backend W, Host W}.
Context (Now : W -> time).

(** [MintS3STS] *)
Definition MintS3STS (cfg : S3Config) (roleARN : string) (lifetime : Z) : M W Credential :=
  let lifetime := lifetime_or_default lifetime in
  let static := if negb (String.eqb (s3_AccessKeyID cfg) "") && negb (String.eqb (s3_SecretAccessKey cfg) "")
                then Some (s3_AccessKeyID cfg, s3_SecretAccessKey cfg) else None in
  awsCfg <- wrapping "creds s3sts: aws config" (aws_LoadDefaultConfig (s3_Region cfg) static) ;;
  policy <- of_result (s3InlinePolicy (s3_Bucket cfg) (s3_Prefix cfg)) ;;
  out <- wrapping "creds s3sts: AssumeRole"
           (sts_AssumeRole awsCfg (s3_Endpoint cfg) roleARN "pgsafe-backup" policy (i32 (Z.quot lifetime Second))) ;;
  match out with
  | None => throw (errors_New "creds s3sts: AssumeRole returned no credentials")
  | Some o =>
      ret (s3_credential {| sc3_AccessKeyID := default "" (ar_AccessKeyId o); sc3_SecretAccessKey := default "" (ar_SecretAccessKey o);
             sc3_SessionToken := default "" (ar_SessionToken o); sc3_Expiration := default zero_time (ar_Expiration o);
             sc3_Region := s3_Region cfg; sc3_Bucket := s3_Bucket cfg; sc3_Prefix := s3_Prefix cfg; sc3_Endpoint := s3_Endpoint cfg;
             sc3_UsePathStyle := s3_UsePathStyle cfg |})
  end.

Definition azure_credential (k : AzureSASCredential) : Credential :=
  {| cr_Type := TypeAzureSAS; cr_S3STS := None; cr_AzureSAS := Some k; cr_GCSToken := None; cr_SFTPKey := None |}.
Definition gcs_credential (k : GCSTokenCredential) : Credential :=
  {| cr_Type := TypeGCSToken; cr_S3STS := None; cr_AzureSAS := None; cr_GCSToken := Some k; cr_SFTPKey := None |}.

Definition sas_values (cfg : AzureConfig) (lifetime : Z) (start expiry : time) : SigVals :=
  {| sv_HTTPSOnly := true; sv_StartTime := Add (UTC start) (-2 * Minute); sv_ExpiryTime := Add (UTC expiry) lifetime;
     sv_Read := true; sv_Write := true; sv_Create := true; sv_Add := true; sv_ContainerName := az_Container cfg;
     sv_BlobName := if String.eqb (az_Prefix cfg) "" then "" else az_Prefix cfg +:+ "/" |}.

(** [MintAzureSAS] *)
Definition MintAzureSAS (cfg : AzureConfig) (lifetime : Z) : M W Credential :=
  let lifetime := lifetime_or_default lifetime in
  if String.eqb (az_AccountName cfg) "" || String.eqb (az_Container cfg) "" then throw (errors_New "creds azure_sas: account_name and container required")
  else if String.eqb (az_AccountKey cfg) "" then throw (errors_New "creds azure_sas: account_key required")
  else
    cred <- of_result (map_error (Errorf_w "creds azure_sas: shared key") (azblob_NewSharedKeyCredential (az_AccountName cfg) (az_AccountKey cfg))) ;;
    start <- read Now ;;
    expiry <- read Now ;;
    let sigVals := sas_values cfg lifetime start expiry in
    encoded <- of_result (map_error (Errorf_w "creds azure_sas: sign") (sas_Sign sigVals cred)) ;;
    if String.eqb encoded "" then throw (errors_New "creds azure_sas: empty SAS query string")
    else
      let serviceURL := if String.eqb (az_BlobEndpoint cfg) "" then "https://" +:+ az_AccountName cfg +:+ ".blob.core.windows.net/" else az_BlobEndpoint cfg in
      let serviceURL := if endsWithSlash serviceURL then serviceURL else serviceURL +:+ "/" in
      of_result (map_error (Errorf_w "creds azure_sas: parse service url") (url_Parse serviceURL)) ;;;
      ret (azure_credential {| sca_AccountName := az_AccountName cfg; sca_Container := az_Container cfg; sca_SASToken := encoded;
             sca_ServiceURL := serviceURL; sca_Expiration := sv_ExpiryTime sigVals; sca_Prefix := az_Prefix cfg |}).

(** [MintGCSToken]; the close of its client is deferred. *)
Definition MintGCSToken (cfg : GCSConfig) (targetServiceAccount : string) (lifetime : Z) : M W Credential :=
  let lifetime := lifetime_or_default lifetime in
  if String.eqb (gcs_Bucket cfg) "" then throw (errors_New "creds gcs_token: bucket required")
  else if String.eqb targetServiceAccount "" then throw (errors_New "creds gcs_token: targetServiceAccount required")
  else
    cli <- wrapping "creds gcs_token: iamcredentials client" (iam_NewClient (gcs_CredentialsFile cfg)) ;;
    r <- try (wrapping "creds gcs_token: GenerateAccessToken"
                (iam_GenerateAccessToken cli ("projects/-/serviceAccounts/" +:+ targetServiceAccount)
                   "https://www.googleapis.com/auth/devstorage.read_write" lifetime)) ;;
    try (iam_Close cli) ;;;
    resp <- of_result r ;;
    ret (gcs_credential {| scg_AccessToken := fst resp; scg_TokenType := "Bearer"; scg_Expiration := default zero_time (snd resp);
           scg_Bucket := gcs_Bucket cfg; scg_Prefix := gcs_Prefix cfg; scg_Endpoint := gcs_Endpoint cfg |}).

(** [MintSFTPKey] *)
Definition MintSFTPKey (cfg : SFTPConfig) : M W Credential :=
  if String.eqb (sftp_PrivateKeyFile cfg) "" then throw (errors_New "creds sftp_key: private_key_file required")
  else
    pem <- wrapping "creds sftp_key: read" (os_ReadFile (sftp_PrivateKeyFile cfg)) ;;
    ret (sftp_credential {| scs_Host := sftp_Host cfg; scs_Port := if sftp_Port cfg =? 0 then 22 else sftp_Port cfg;
           scs_Username := sftp_Username cfg; scs_PrivateKeyPEM := pem; scs_BasePath := sftp_BasePath cfg;
           scs_HostKey := sftp_HostKey cfg; scs_InsecureIgnoreHostKey := sftp_InsecureIgnoreHostKey cfg |}).

(** [mintForBackend] *)
Definition mintForBackend (sc : StorageConfig) : M W Credential :=
  let ty := st_Type sc in
  if String.eqb ty "posix" then ret none_credential
  else if String.eqb ty "s3" then
    roleARN <- read (os_Getenv "PGSAFE_S3_ROLE_ARN") ;;
    if String.eqb roleARN "" then throw (errors_New "PGSAFE_S3_ROLE_ARN env var required for pgsafe-worker + s3")
    else cfg <- deref_or_panic (st_S3 sc) ;; MintS3STS cfg roleARN DefaultLifetime
  else if String.eqb ty "azure" then cfg <- deref_or_panic (st_Azure sc) ;; MintAzureSAS cfg DefaultLifetime
  else if String.eqb ty "gcs" then
    targetSA <- read (os_Getenv "PGSAFE_GCS_TARGET_SA") ;;
    if String.eqb targetSA "" then throw (errors_New "PGSAFE_GCS_TARGET_SA env var required for pgsafe-worker + gcs")
    else cfg <- deref_or_panic (st_GCS sc) ;; MintGCSToken cfg targetSA DefaultLifetime
  else if String.eqb ty "sftp" then cfg <- deref_or_panic (st_SFTP sc) ;; MintSFTPKey cfg
  else throw (errors_New "pgsafe-worker: unsupported storage type").
End mint.

(** ** Opening the storage with a credential: [open.go] *)

(** Clients of the SDKs and the drivers on them; [rb] is an opened driver, [rb_Backend] its operations. *)
Class Dialing (W : Type) := {
  rb : Type;
  rb_Backend : rb -> Backend W;
  S3Client : Type;
  s3_NewFromConfig : S3STSCredential -> M W S3Client;             (* LoadDefaultConfig with static keys, NewFromConfig *)
  s3_driver : S3Client -> string -> string -> M W rb;             (* New and Open *)
  AzureClient : Type;
  azblob_NewClientWithNoCredential : string -> string -> M W AzureClient;   (* URL, container *)
  azure_driver : AzureClient -> string -> M W rb;
  GCSClient : Type;
  gcs_NewClient : GCSTokenCredential -> M W GCSClient;
  gcs_CloseClient : GCSClient -> M W unit;
  gcs_driver : GCSClient -> string -> string -> M W rb;
  ssh_ParsePrivateKey : string -> result unit;
  ssh_ParseAuthorizedKey : string -> result unit;
  SSHConn : Type;
  SFTPClient : Type;
  ssh_Dial : string -> string -> string -> option string -> M W SSHConn;    (* address, user, key, host key *)
  ssh_CloseConn : SSHConn -> M W unit;
  sftp_NewClient : SSHConn -> M W SFTPClient;
  sftp_CloseClient : SFTPClient -> M W unit;
  sftp_driver : SFTPClient -> string -> M W rb;
  posix_driver : string -> M W rb;                                (* posix.New and Open *)
}.

Section opening.
Context {W : Type} `{Dialing W}.

(** An opened storage, and what has to be called when it is done with. *)
Definition opened : Type := rb * M W unit.

(** Runs the clean-up when the driver cannot be opened. *)
Definition with_cleanup (cleanup : M W unit) (m : M W rb) : M W opened :=
  r <- try m ;;
  match r with Fail err => cleanup ;;; throw err | Ok b => ret (b, cleanup) end.

(** [openWorkerPOSIX] of worker.go *)
Definition openWorkerPOSIX (root : string) : M W opened := b <- posix_driver root ;; ret (b, ret tt).

(** [openS3STS] *)
Definition openS3STS (c : S3STSCredential) : M W opened :=
  client <- wrapping "creds open s3sts: aws config" (s3_NewFromConfig c) ;;
  b <- s3_driver client (sc3_Bucket c) (sc3_Prefix c) ;;
  ret (b, ret tt).

(** [openAzureSAS] *)
Definition openAzureSAS (c : AzureSASCredential) : M W opened :=
  cc <- wrapping "creds open azure_sas: client" (azblob_NewClientWithNoCredential (sca_ServiceURL c +:+ "?" +:+ sca_SASToken c) (sca_Container c)) ;;
  b <- azure_driver cc (sca_Prefix c) ;;
  ret (b, ret tt).

(** [openGCSToken] *)
Definition openGCSToken (c : GCSTokenCredential) : M W opened :=
  client <- wrapping "creds open gcs_token: client" (gcs_NewClient c) ;;
  with_cleanup (try (gcs_CloseClient client) ;;; ret tt) (gcs_driver client (scg_Bucket c) (scg_Prefix c)).

(** [openSFTPKey] *)
Definition openSFTPKey (c : SFTPKeyCredential) : M W opened :=
  of_result (map_error (Errorf_w "creds open sftp_key: parse") (ssh_ParsePrivateKey (scs_PrivateKeyPEM c))) ;;;
  (if scs_InsecureIgnoreHostKey c then ret tt
   else if String.eqb (scs_HostKey c) "" then throw (errors_New "creds open sftp_key: host_key required")
   else of_result (map_error (Errorf_w "creds open sftp_key: parse host_key") (ssh_ParseAuthorizedKey (scs_HostKey c)))) ;;;
  sshConn <- wrapping "creds open sftp_key: dial"
    (ssh_Dial (scs_Host c +:+ ":" +:+ FormatD (scs_Port c)) (scs_Username c) (scs_PrivateKeyPEM c)
       (if scs_InsecureIgnoreHostKey c then None else Some (scs_HostKey c))) ;;
  sftpClient <- try (wrapping "creds open sftp_key: sftp" (sftp_NewClient sshConn)) ;;
  match sftpClient with
  | Fail err => try (ssh_CloseConn sshConn) ;;; throw err
  | Ok sftpClient =>
      with_cleanup (try (sftp_CloseClient sftpClient) ;;; try (ssh_CloseConn sshConn) ;;; ret tt) (sftp_driver sftpClient (scs_BasePath c))
  end.

(** [OpenBackendFromCredential] *)
Definition OpenBackendFromCredential (c : Credential) : M W opened :=
  of_result (cred_Validate c) ;;;
  if String.eqb (cr_Type c) TypeS3STS then k <- deref_or_panic (cr_S3STS c) ;; openS3STS k
  else if String.eqb (cr_Type c) TypeAzureSAS then k <- deref_or_panic (cr_AzureSAS c) ;; openAzureSAS k
  else if String.eqb (cr_Type c) TypeGCSToken then k <- deref_or_panic (cr_GCSToken c) ;; openGCSToken k
  else if String.eqb (cr_Type c) TypeSFTPKey then k <- deref_or_panic (cr_SFTPKey c) ;; openSFTPKey k
  else throw (errors_New "creds: cannot open backend for type").
End opening.

(** ** The tunnel *)

(** [ReverseForwardArgs] *)
Definition ReverseForwardArgs (remotePort callerPort : Z) : list string :=
  ["-o"; "ExitOnForwardFailure=yes"; "-R"; FormatD remotePort +:+ ":127.0.0.1:" +:+ FormatD callerPort].

Definition byte_at (s : string) (i : nat) : Z := match sget s i with Some c => byte_val c | None => 0 end.

(** The number of the port from two random bytes. *)
Definition port_of (b : string) : Z :=
  let r := Z.lor (Z.shiftl (byte_at b 0) 8) (byte_at b 1) in 49152 + r mod (65535 - 49152 + 1).

(** [PickRemotePort] *)
Definition PickRemotePort {W : Type} `{Backend W, Host W} : M W Z :=
  b <- wrapping "sftptunnel: rand for remote port" (rand_Read 2) ;; ret (port_of b).

(** [subtleByteEq] *)
Fixpoint differing (v : Z) (a b : string) : Z :=
  match a, b with
  | String x a, String y b => differing (Z.lor v (Z.lxor (byte_val x) (byte_val y))) a b
  | _, _ => v
  end.

Definition subtleByteEq (a b : string) : bool :=
  if negb (slen a =? slen b)%nat then false else differing 0 a b =? 0.

(** A request on a session of the tunnel, and what [handleSession] does with them: the replies it
    gives and whether it serves SFTP. *)
Record ssh_request := { sq_Type : string; sq_Payload : string; sq_WantReply : bool }.

Definition payload_len (p : string) : Z :=
  Z.lor (Z.lor (Z.lor (Z.shiftl (byte_at p 0) 24) (Z.shiftl (byte_at p 1) 16)) (Z.shiftl (byte_at p 2) 8)) (byte_at p 3).

Fixpoint handleSession (reqs : list ssh_request) : list bool * bool :=
  match reqs with
  | [] => ([], false)
  | req :: reqs =>
      if String.eqb (sq_Type req) "subsystem" then
        let nameLen := payload_len (sq_Payload req) in
        if (slen (sq_Payload req) <? 4)%nat then ([false], false)
        else if Z.of_nat (slen (sq_Payload req)) <? nameLen + 4 then ([false], false)
        else if negb (String.eqb (stake (Z.to_nat nameLen) (sdrop 4 (sq_Payload req))) "sftp") then ([false], false)
        else ([true], true)
      else
        let '(replies, served) := handleSession reqs in
        (if sq_WantReply req then false :: replies else replies, served)
  end.

(** ** How the worker reaches the storage: [proxy.go] *)

(** [wantsSFTPProxy] and [wantsCloudProxy] *)
Definition wantsSFTPProxy (reach sshTarget : string) : bool := if String.eqb sshTarget "" then false else String.eqb reach "via_caller".
Definition wantsCloudProxy (reach sshTarget : string) : bool := if String.eqb sshTarget "" then false else String.eqb reach "via_caller".

(** [isCloudStorageType] *)
Definition isCloudStorageType (t : string) : bool := String.eqb t "s3" || String.eqb t "azure" || String.eqb t "gcs".

(** [confirmProxyFallback]: whether the prompt could be written, and the one read of the answer. *)
Definition confirmProxyFallback (prompt : result unit) (answer : result string) (eof : bool) : result bool :=
  match prompt with
  | Fail err => Fail (Errorf_w "write prompt" err)
  | Ok _ =>
      if eof then Ok false
      else match answer with
           | Fail err => Fail (Errorf_w "read answer" err)
           | Ok "" => Ok false
           | Ok (String c _) => Ok (Ascii.eqb c "y" || Ascii.eqb c "Y")
           end
  end.

(** [describeStorage] *)
Definition describeStorage (sc : StorageConfig) : string :=
  let ty := st_Type sc in
  if String.eqb ty "posix" then "posix://" +:+ st_Path sc
  else if String.eqb ty "s3" then match st_S3 sc with Some c => "s3://" +:+ s3_Bucket c | None => ty end
  else if String.eqb ty "azure" then match st_Azure sc with Some c => "azure://" +:+ az_AccountName c +:+ "/" +:+ az_Container c | None => ty end
  else if String.eqb ty "gcs" then match st_GCS sc with Some c => "gs://" +:+ gcs_Bucket c | None => ty end
  else if String.eqb ty "sftp" then
    match st_SFTP sc with Some c => "sftp://" +:+ sftp_Username c +:+ "@" +:+ sftp_Host c +:+ sftp_BasePath c | None => ty end
  else ty.
