(* ===== verification/ObjectStore.v ===== *)
(** * Object stores

    What the drivers for S3, Azure Blob Storage and Google Cloud Storage share: the calls of their
    SDKs as a class, with what the services document as laws, the writer that feeds an upload through
    a pipe, and the proof that head, copy and delete make the storage interface.

    The SDKs are not part of the repository; a bucket is what its reader sees. *)

From S2P Require Import Prelude Storage.

(** ** The calls of an SDK *)

(** What a service says about an object; the fields are pointers in two of the SDKs. *)
Record Attrs := { at_Name : string; at_Size : option Z; at_Updated : option Z }.

(** Every call names its bucket (or container). An upload is what a goroutine makes of the bytes it
    is fed; a pager asks for the next page of a listing. *)
Class ObjectSDK (S : Type) := {
  Upload : Type;
  sdk_Start : string -> string -> S -> Upload * S;
  sdk_Feed : Upload -> string -> M S unit;
  sdk_Finish : Upload -> M S unit;
  sdk_Reach : string -> M S unit;
  sdk_Head : string -> string -> M S Attrs;
  sdk_Get : string -> string -> M S (result string);   (* the answer, then its body read to the end *)
  sdk_URL : string -> string -> string;
  sdk_Copy : string -> string -> string -> bool -> M S unit;   (* bucket, source, key, only to a free key *)
  sdk_Delete : string -> string -> M S unit;
  Pager : Type;
  sdk_Pager : string -> string -> Pager;
  sdk_More : Pager -> bool;
  sdk_NextPage : Pager -> M S (list Attrs * Pager);
  sdk_left : S -> Pager -> nat;   (* the requests a listing still takes *)
}.

(** ** The writer over a pipe

    [Put] of two drivers starts an upload that reads from an [io.Pipe] and leaves its outcome in a
    channel of one place. The writers are kept beside the state of the SDK. *)

Section pipe.
Context {S : Type} `{ObjectSDK S}.

(** [writeCloser], with the upload its pipe feeds; [wc_failed] is the error that upload ended with. *)
Record writeCloser := { wc_key : string; wc_up : Upload; wc_failed : option error; wc_closed : bool }.
Record store := { d_sdk : S; d_writers : gmap nat writeCloser; d_next : nat }.

Definition set_writer (h : nat) (wc : writeCloser) (w : store) : store :=
  {| d_sdk := d_sdk w; d_writers := <[h := wc]> (d_writers w); d_next := d_next w |}.

Definition on_sdk {A} (m : M S A) : M store A := fun w =>
  let '(r, s) := m (d_sdk w) in (r, {| d_sdk := s; d_writers := d_writers w; d_next := d_next w |}).

(** [io.Pipe], the goroutine with the upload, and the writer over both. *)
Definition open_pipe (bucket key : string) : M store nat := fun w =>
  let '(u, s) := sdk_Start bucket key (d_sdk w) in
  (Ok (d_next w),
   {| d_sdk := s; d_next := Datatypes.S (d_next w);
      d_writers := <[d_next w := {| wc_key := key; wc_up := u; wc_failed := None; wc_closed := false |}]> (d_writers w) |}).

Definition bad_handle : error := errors_New "no such writer".
Definition ErrClosedPipe : error := errors_New "io: read/write on closed pipe".

(** [pw.Write]: the upload takes the bytes, or it has ended and its error comes back. *)
Definition pipe_Write (h : nat) (p : string) : M store unit :=
  wc <- read (fun w => d_writers w !! h) ;;
  match wc with
  | None => throw bad_handle
  | Some wc =>
      if wc_closed wc then throw ErrClosedPipe
      else match wc_failed wc with
           | Some err => throw err
           | None =>
               r <- try (on_sdk (sdk_Feed (wc_up wc) p)) ;;
               match r with
               | Ok _ => ret tt
               | Fail err =>
                   update (set_writer h {| wc_key := wc_key wc; wc_up := wc_up wc; wc_failed := Some err; wc_closed := false |}) ;;;
                   throw err
               end
           end
  end.

(** [writeCloser.Close] of both drivers: a second close does nothing; the first closes the pipe and
    waits for the upload. *)
Definition pipe_Close (msg : string) (h : nat) : M store unit :=
  wc <- read (fun w => d_writers w !! h) ;;
  match wc with
  | None => throw bad_handle
  | Some wc =>
      if wc_closed wc then ret tt
      else
        update (set_writer h {| wc_key := wc_key wc; wc_up := wc_up wc; wc_failed := wc_failed wc; wc_closed := true |}) ;;;
        wrapping msg
          (match wc_failed wc with
           | Some err => throw err
           | None => on_sdk (sdk_Finish (wc_up wc))
           end)
  end.
End pipe.
Arguments writeCloser S {_}.
Arguments store S {_}.

(** ** What the services document *)

Definition plain_error (e : error) : Prop := err_is e = None.

Lemma plain_not e s : plain_error e -> errors_Is e s = false.
Proof. unfold errors_Is, plain_error. intros ->. by apply bool_decide_eq_false. Qed.

Lemma plain_wrapped msg e : plain_error e -> plain_error (Errorf_w msg e).
Proof. done. Qed.

(** [nf], [pf] and [ni] are the drivers' own readings of an error: the object is not there, the
    condition of a copy did not hold, the service lacks the feature. Errors are those of the service:
    none carries [os.ErrNotExist] or [os.ErrExist]. A failed call may still have taken effect. *)
Class ObjectLaws (S : Type) `{ObjectSDK S} (bucket : string) (nf pf ni : error -> bool) := {
  objects : S -> gmap string string;
  uploading : S -> Upload -> option (string * string);
  names : string -> option string;   (* the key a source of a copy names *)

  start_spec k s u s' : sdk_Start bucket k s = (u, s') -> objects s' = objects s /\ uploading s' u = Some (k, "");
  feed_spec u p s k c : uploading s u = Some (k, c) ->
    objects (snd (sdk_Feed u p s)) = objects s /\
    exists c', uploading (snd (sdk_Feed u p s)) u = Some (k, c') /\ (fst (sdk_Feed u p s) = Ok tt -> c' = c +:+ p);
  finish_spec u s k c : uploading s u = Some (k, c) ->
    (forall q, q <> k -> objects (snd (sdk_Finish u s)) !! q = objects s !! q) /\
    (fst (sdk_Finish u s) = Ok tt -> objects (snd (sdk_Finish u s)) = <[k := c]> (objects s));
  object_head k s : objects (snd (sdk_Head bucket k s)) = objects s /\
    (forall a, fst (sdk_Head bucket k s) = Ok a -> exists c, objects s !! k = Some c /\ at_Size a = Some (Z.of_nat (slen c))) /\
    (forall e, fst (sdk_Head bucket k s) = Fail e -> plain_error e /\ (nf e = true -> objects s !! k = None));
  object_get k s : objects (snd (sdk_Get bucket k s)) = objects s /\
    (forall c, fst (sdk_Get bucket k s) = Ok (Ok c) -> objects s !! k = Some c) /\
    (forall e, fst (sdk_Get bucket k s) = Ok (Fail e) -> plain_error e) /\
    (forall e, fst (sdk_Get bucket k s) = Fail e -> plain_error e /\ (nf e = true -> objects s !! k = None));
  object_copy src k dst cond s : names src = Some k -> k <> dst ->
    (fst (sdk_Copy bucket src dst cond s) = Ok tt ->
       exists c, objects s !! k = Some c /\ objects (snd (sdk_Copy bucket src dst cond s)) = <[dst := c]> (objects s)) /\
    (forall e, fst (sdk_Copy bucket src dst cond s) = Fail e ->
       plain_error e /\
       (objects (snd (sdk_Copy bucket src dst cond s)) = objects s \/
        exists c, objects s !! k = Some c /\ objects (snd (sdk_Copy bucket src dst cond s)) = <[dst := c]> (objects s)) /\
       (pf e = true -> is_Some (objects s !! dst) /\ objects (snd (sdk_Copy bucket src dst cond s)) = objects s) /\
       (ni e = true -> objects (snd (sdk_Copy bucket src dst cond s)) = objects s));
  object_delete k s :
    (fst (sdk_Delete bucket k s) = Ok tt -> objects (snd (sdk_Delete bucket k s)) = delete k (objects s)) /\
    (forall e, fst (sdk_Delete bucket k s) = Fail e ->
       plain_error e /\ (nf e = true -> objects s !! k = None) /\
       (objects (snd (sdk_Delete bucket k s)) = objects s \/ objects (snd (sdk_Delete bucket k s)) = delete k (objects s)));

  pager_rest : S -> Pager -> list Attrs;
  pager_starts prefix s : let l := pager_rest s (sdk_Pager bucket prefix) in
    NoDup (at_Name <$> l) /\
    (forall a, a ∈ l -> HasPrefix (at_Name a) prefix = true /\
       exists c, objects s !! at_Name a = Some c /\ at_Size a = Some (Z.of_nat (slen c))) /\
    (forall k, is_Some (objects s !! k) -> HasPrefix k prefix = true -> k ∈ (at_Name <$> l));
  pager_ends s pg : sdk_More pg = false -> pager_rest s pg = [];
  pager_left s pg : sdk_More pg = true -> (0 < sdk_left s pg)%nat;
  pager_page pg s : objects (snd (sdk_NextPage pg s)) = objects s /\
    (forall l pg', fst (sdk_NextPage pg s) = Ok (l, pg') ->
       pager_rest s pg = l ++ pager_rest (snd (sdk_NextPage pg s)) pg' /\
       (sdk_left (snd (sdk_NextPage pg s)) pg' < sdk_left s pg)%nat) /\
    (forall e, fst (sdk_NextPage pg s) = Fail e -> plain_error e);
}.

(** ** Keys under a prefix *)

(** What every driver's [keyFor] computes. *)
Definition rooted (prefix p : string) : string := if String.eqb prefix "" then p else prefix +:+ "/" +:+ p.

Definition TrimPrefix (s p : string) : string := if HasPrefix s p then sdrop (slen p) s else s.
Definition TrimSuffix (s p : string) : string := if HasSuffix s p then stake (slen s - slen p) s else s.

(** [stripStoragePrefix] of the drivers. *)
Definition unrooted (prefix k : string) : string := if String.eqb prefix "" then k else TrimPrefix k (prefix +:+ "/").

(** The prefix [List] asks for, from the key of its argument. *)
Definition list_prefix (key prefix : string) : string :=
  if negb (String.eqb key "") && negb (HasSuffix key "/") && negb (String.eqb prefix "") then key +:+ "/" else key.

Lemma TrimPrefix_app p s : TrimPrefix (p +:+ s) p = s.
Proof. unfold TrimPrefix. by rewrite HasPrefix_app, sdrop_app. Qed.

Lemma unrooted_rooted prefix p : unrooted prefix (rooted prefix p) = p.
Proof. unfold unrooted, rooted. destruct (String.eqb prefix ""); [done|]. rewrite <- sapp_assoc. apply TrimPrefix_app. Qed.

#[export] Instance rooted_inj prefix : Inj (=) (=) (rooted prefix).
Proof. intros p q E. rewrite <- (unrooted_rooted prefix p), E. apply unrooted_rooted. Qed.

(** The keys a storage with this prefix owns. *)
Definition owned (prefix k : string) : bool := String.eqb prefix "" || HasPrefix k (prefix +:+ "/").

Lemma owned_spec prefix k : owned prefix k = true <-> exists p, k = rooted prefix p.
Proof.
  unfold owned, rooted. destruct (String.eqb prefix ""); [naive_solver|]. simpl. rewrite HasPrefix_spec.
  split; intros [t ->]; exists t; by rewrite ?sapp_assoc.
Qed.

Lemma rooted_unrooted prefix k : owned prefix k = true -> rooted prefix (unrooted prefix k) = k.
Proof. intros [p ->]%owned_spec. by rewrite unrooted_rooted. Qed.

(** The objects a reader of the storage sees. *)
Definition shown (prefix : string) (m : gmap string string) : gmap string string :=
  list_to_map ((fun kc => (unrooted prefix kc.1, kc.2)) <$> map_to_list (base.filter (fun kc => owned prefix kc.1 = true) m)).

Lemma shown_lookup prefix m p : shown prefix m !! p = m !! rooted prefix p.
Proof.
  unfold shown. set (l := map_to_list _). apply option_eq. intros c.
  assert (Hl : forall k c, (k, c) ∈ l <-> m !! k = Some c /\ owned prefix k = true).
  { intros k c'. unfold l. rewrite elem_of_map_to_list, map_lookup_filter_Some. done. }
  assert (Hnd : NoDup (((fun kc : string * string => (unrooted prefix kc.1, kc.2)) <$> l).*1)).
  { assert (Hf : NoDup (l.*1)) by apply NoDup_fst_map_to_list. assert (Ho : Forall (fun k => owned prefix k = true) (l.*1)).
    { apply Forall_forall. intros k Hk. apply list_elem_of_fmap in Hk as ([k' c'] & -> & Hk). by apply Hl in Hk as [_ ?]. }
    clear Hl. clearbody l. induction l as [|[k c'] l IH]; [apply NoDup_nil_2|]. rewrite !fmap_cons in *. apply NoDup_cons in Hf as [Hn Hf]. apply Forall_cons in Ho as [Hk Ho].
    apply NoDup_cons. split; [|by apply IH]. cbn [fst]. intros Hin. apply Hn. apply list_elem_of_fmap in Hin as ([? ?] & E & Hin).
    apply list_elem_of_fmap in Hin as ([k2 c2] & [= -> ->] & Hin). cbn in E. rewrite Forall_forall in Ho.
    assert (Hk2 : k2 ∈ l.*1) by (apply list_elem_of_fmap; by exists (k2, c2)).
    rewrite <- (rooted_unrooted prefix k Hk), E, rooted_unrooted by by apply Ho. done. }
  rewrite <- elem_of_list_to_map by done. rewrite list_elem_of_fmap. split.
  - intros ([k c'] & [= -> ->] & [Hk Ho]%Hl). cbn. by rewrite rooted_unrooted.
  - intros Hm. exists (rooted prefix p, c). cbn. rewrite unrooted_rooted. split; [done|]. apply Hl. split; [done|]. apply owned_spec. by exists p.
Qed.

Lemma shown_insert prefix m p c : shown prefix (<[rooted prefix p := c]> m) = <[p := c]> (shown prefix m).
Proof.
  apply map_eq. intros q. rewrite shown_lookup. destruct (decide (q = p)) as [->|Hn]; [by rewrite !lookup_insert_eq|].
  rewrite !lookup_insert_ne, shown_lookup; [done|done|]. by intros E%(inj (rooted prefix)).
Qed.

Lemma shown_delete prefix m p : shown prefix (delete (rooted prefix p) m) = delete p (shown prefix m).
Proof.
  apply map_eq. intros q. rewrite shown_lookup. destruct (decide (q = p)) as [->|Hn]; [by rewrite !lookup_delete_eq|].
  rewrite !lookup_delete_ne, shown_lookup; [done|done|]. by intros E%(inj (rooted prefix)).
Qed.

(** A listing asks for the keys of a directory. *)
Lemma rooted_app prefix p q : rooted prefix (p +:+ q) = rooted prefix p +:+ q.
Proof. unfold rooted. destruct (String.eqb prefix ""); [done|]. by rewrite !sapp_assoc. Qed.

Lemma HasPrefix_rooted prefix p d : HasPrefix (rooted prefix p) (rooted prefix d) = HasPrefix p d.
Proof.
  apply bool_eq_iff. rewrite !HasPrefix_spec. split; intros [t E]; exists t.
  - rewrite <- rooted_app in E. by apply (inj (rooted prefix)) in E.
  - by rewrite E, rooted_app.
Qed.

Lemma rooted_nonempty prefix p : p <> "" -> rooted prefix p <> "".
Proof. intros Hp. unfold rooted. destruct (String.eqb_spec prefix ""); [done|]. by destruct prefix. Qed.

Lemma last_char s : s <> "" -> exists t c, s = t +:+ String c "".
Proof.
  induction s as [|d s IH]; [done|]. intros _. destruct s as [|e s]; [by exists "", d|].
  destruct IH as (t & c & E); [done|]. exists (String d t), c. by rewrite E.
Qed.

Lemma last_char_inj a b c d : a +:+ String c "" = b +:+ String d "" -> a = b /\ c = d.
Proof.
  revert b. induction a as [|x a IH]; intros [|y b] E; cbn in E.
  - by injection E.
  - injection E as _ E. by destruct b.
  - injection E as _ E. by destruct a.
  - injection E as -> E. by destruct (IH b E) as [-> ->].
Qed.

Lemma HasSuffix_rooted prefix p : p <> "" -> HasSuffix (rooted prefix p) "/" = HasSuffix p "/".
Proof.
  intros Hp. unfold rooted. destruct (String.eqb prefix ""); [done|]. apply bool_eq_iff. rewrite !HasSuffix_spec. split; intros [t E].
  - destruct (last_char p Hp) as (u & c & ->). exists u. rewrite <- !sapp_assoc in E. apply last_char_inj in E as [_ ->]. done.
  - exists (prefix +:+ "/" +:+ t). by rewrite E, !sapp_assoc.
Qed.

(** What [list_prefix] asks for, as a set of storage-relative paths. *)
Lemma list_prefix_spec prefix d p : HasPrefix (rooted prefix p) (list_prefix (rooted prefix d) d) = true ->
  listed_in d p.
Proof.
  intros Hp Hd. revert Hp. assert (Hsl : HasSuffix d "/" = false).
  { apply not_true_iff_false. intros [t ->]%HasSuffix_spec. unfold plain_path in Hd. change (t +:+ "/") with (t +:+ String "/" "") in Hd.
    rewrite Split_app_any, forallb_app in Hd. by rewrite andb_comm in Hd. }
  clear Hd. unfold list_prefix, inside. destruct (String.eqb_spec d "") as [->|Hd]; [done|]. cbn [negb orb]. rewrite andb_true_r.
  destruct (String.eqb_spec (rooted prefix d) "") as [E|_]; [by apply rooted_nonempty in E|]. cbn [negb andb].
  rewrite HasSuffix_rooted, Hsl by done. cbn [negb]. rewrite <- rooted_app, HasPrefix_rooted. intros ->. by rewrite orb_true_r.
Qed.

Lemma list_prefix_complete prefix d p : under d p = true -> HasPrefix (rooted prefix p) (list_prefix (rooted prefix d) d) = true.
Proof.
  unfold list_prefix, under. destruct (String.eqb_spec d "") as [->|Hd].
  - intros _. cbn [negb]. rewrite andb_false_r, HasPrefix_rooted. apply HasPrefix_nil.
  - cbn [negb]. rewrite andb_true_r. destruct (_ && _).
    + by rewrite <- rooted_app, HasPrefix_rooted.
    + rewrite HasPrefix_rooted. intros [t ->]%HasPrefix_spec. rewrite sapp_assoc. apply HasPrefix_app.
Qed.

Lemma list_prefix_owned prefix d k : HasPrefix k (list_prefix (rooted prefix d) d) = true -> owned prefix k = true.
Proof.
  intros [t ->]%HasPrefix_spec. apply owned_spec. unfold list_prefix.
  destruct (_ && _); [exists (d +:+ "/" +:+ t)|exists (d +:+ t)]; by rewrite !rooted_app, ?sapp_assoc.
Qed.

(** ** Listings *)

(** What [List] makes of an object. *)
Definition object_info (prefix : string) (obj : Attrs) : FileInfo :=
  {| fi_Path := unrooted prefix (at_Name obj); fi_Size := default 0 (at_Size obj); fi_ModTime := default 0 (at_Updated obj) |}.

(** [for pager.HasMorePages()] of two drivers, with the requests that are left as the measure. *)
Fixpoint list_pages {S : Type} `{ObjectSDK S} (msg prefix : string) (n : nat) (pg : Pager) (out : list FileInfo) : M S (list FileInfo) :=
  if negb (sdk_More pg) then ret out
  else match n with
       | O => throw (errors_New "more pages than are left")
       | Datatypes.S n' =>
           page <- wrapping msg (sdk_NextPage pg) ;;
           list_pages msg prefix n' (snd page) (out ++ (object_info prefix <$> fst page))
       end.

(** ** The calls without a writer, as the storage interface sees them *)

(** The part of [BackendLaws] that is not about writers, over the files [v] shows. *)
Record serves {S : Type} (v : S -> gmap string string) (commit : string -> string -> M S unit) (get : string -> M S string)
  (stat : string -> M S FileInfo) (list : string -> M S (list FileInfo)) (del : string -> M S unit) : Prop := {
  serves_commit tmp final w : valid_key tmp = true -> valid_key final = true -> copyable tmp = true -> tmp <> final ->
    (forall q, q <> tmp -> q <> final -> v (snd (commit tmp final w)) !! q = v w !! q) /\
    (forall w', commit tmp final w = (Ok tt, w') ->
       v w !! final = None /\ exists c, v w !! tmp = Some c /\ v w' = <[final := c]> (delete tmp (v w))) /\
    (forall e w', commit tmp final w = (Fail e, w') ->
       (v w' !! final = v w !! final /\ v w' !! tmp = v w !! tmp) \/ (v w !! final = None /\ v w' !! final = v w !! tmp)) /\
    (forall e w', commit tmp final w = (Fail e, w') ->
       errors_Is e OsErrExist = true -> is_Some (v w !! final) /\ v w' = v w);
  serves_get p w : valid_key p = true ->
    v (snd (get p w)) = v w /\ (forall c w', get p w = (Ok c, w') -> v w !! p = Some c) /\
    (forall e w', get p w = (Fail e, w') -> errors_Is e OsErrNotExist = true -> v w !! p = None);
  serves_stat p w : valid_key p = true ->
    v (snd (stat p w)) = v w /\
    (forall fi w', stat p w = (Ok fi, w') -> fi_Path fi = p /\ is_Some (v w !! p) /\ forall c, v w !! p = Some c -> fi_Size fi = Z.of_nat (slen c)) /\
    (forall e w', stat p w = (Fail e, w') -> errors_Is e OsErrNotExist = true -> v w !! p = None);
  serves_list d w :
    v (snd (list d w)) = v w /\
    (forall l w', list d w = (Ok l, w') ->
      NoDup (fi_Path <$> l) /\
      (forall fi, fi ∈ l -> valid_key (fi_Path fi) = true /\
        exists c, v w !! fi_Path fi = Some c /\ listed_in d (fi_Path fi) /\ fi_Size fi = Z.of_nat (slen c)) /\
      (forall p, is_Some (v w !! p) -> under d p = true -> p ∈ (fi_Path <$> l))) /\
    (forall e w', list d w = (Fail e, w') -> errors_Is e OsErrNotExist = false);
  serves_delete p w : valid_key p = true ->
    (forall q, q <> p -> v (snd (del p w)) !! q = v w !! q) /\
    (forall w', del p w = (Ok tt, w') -> v w' = delete p (v w)) /\
    (forall e w', del p w = (Fail e, w') -> v w' = v w \/ v w' = delete p (v w)) /\
    (forall e w', del p w = (Fail e, w') -> errors_Is e OsErrNotExist = true -> v w !! p = None);
}.

Section shapes.
Context {S : Type} {bucket : string} {nf pf ni : error -> bool} `{ObjectLaws S bucket nf pf ni} (prefix : string).

Abbreviation v s := (shown prefix (objects s)).

Lemma head_v p s : let m := sdk_Head bucket (rooted prefix p) s in
  objects (snd m) = objects s /\
  (forall a, fst m = Ok a -> exists c, v s !! p = Some c /\ at_Size a = Some (Z.of_nat (slen c))) /\
  (forall e, fst m = Fail e -> plain_error e /\ (nf e = true -> v s !! p = None)).
Proof. cbv zeta. rewrite !shown_lookup. apply object_head. Qed.

Lemma delete_v p s : let m := sdk_Delete bucket (rooted prefix p) s in
  (forall q, q <> p -> v (snd m) !! q = v s !! q) /\
  (fst m = Ok tt -> v (snd m) = delete p (v s)) /\
  (forall e, fst m = Fail e -> plain_error e /\ (nf e = true -> v s !! p = None) /\ (v (snd m) = v s \/ v (snd m) = delete p (v s))).
Proof.
  cbv zeta. destruct (object_delete (rooted prefix p) s) as [Hok Hfail]. rewrite shown_lookup.
  assert (Hd : objects (snd (sdk_Delete bucket (rooted prefix p) s)) = delete (rooted prefix p) (objects s) ->
    v (snd (sdk_Delete bucket (rooted prefix p) s)) = delete p (v s)) by (intros ->; apply shown_delete).
  destruct (sdk_Delete bucket (rooted prefix p) s) as [[[]|e] s']; cbn [fst snd] in *; split_and!; try done.
  - intros q Hq. rewrite Hd by auto. by rewrite lookup_delete_ne.
  - auto.
  - intros q Hq. destruct (Hfail e eq_refl) as (_ & _ & [->|E]); [done|]. rewrite Hd by done. by rewrite lookup_delete_ne.
  - intros e' [= <-]. destruct (Hfail e eq_refl) as (? & ? & [->|E]); split_and!; auto.
Qed.

Lemma stat_shape m1 m2 p s :
  let m : M S FileInfo :=
    r <- try (sdk_Head bucket (rooted prefix p)) ;;
    match r with
    | Fail err => if nf err then throw (errors_Sentinel OsErrNotExist m1) else throw (Errorf_w m2 err)
    | Ok out => ret {| fi_Path := p; fi_Size := default 0 (at_Size out); fi_ModTime := default 0 (at_Updated out) |}
    end in
  v (snd (m s)) = v s /\
  (forall fi s', m s = (Ok fi, s') -> fi_Path fi = p /\ is_Some (v s !! p) /\ forall c, v s !! p = Some c -> fi_Size fi = Z.of_nat (slen c)) /\
  (forall e s', m s = (Fail e, s') -> errors_Is e OsErrNotExist = true -> v s !! p = None).
Proof.
  intros m. subst m. munfold. destruct (head_v p s) as (Hv & Hok & Hfail).
  destruct (sdk_Head bucket (rooted prefix p) s) as [[a|e] s']; cbn [fst snd] in *.
  - rewrite Hv. split_and!; [done| |done]. intros fi w' [= <- <-]. destruct (Hok a eq_refl) as (c & Hc & Hs). cbn [fi_Path fi_Size].
    split_and!; [done|by exists c|]. rewrite Hc. intros c' [= <-]. by rewrite Hs.
  - destruct (Hfail e eq_refl) as [Hp Hn]. destruct (nf e); cbn [snd]; rewrite Hv; (split_and!; [done|done|]); intros e' w' [= <- <-] Hi; [auto|].
    by rewrite plain_not in Hi by by apply plain_wrapped.
Qed.

Lemma get_shape m1 m2 p s :
  let m : M S string :=
    r <- try (sdk_Get bucket (rooted prefix p)) ;;
    match r with
    | Fail err => if nf err then throw (errors_Sentinel OsErrNotExist m1) else throw (Errorf_w m2 err)
    | Ok body => of_result body
    end in
  v (snd (m s)) = v s /\ (forall c s', m s = (Ok c, s') -> v s !! p = Some c) /\
  (forall e s', m s = (Fail e, s') -> errors_Is e OsErrNotExist = true -> v s !! p = None).
Proof.
  intros m. subst m. munfold. destruct (object_get (rooted prefix p) s) as (Hv & Hok & Hbody & Hfail). rewrite !shown_lookup.
  destruct (sdk_Get bucket (rooted prefix p) s) as [[[c|e]|e] s']; cbn [fst snd] in *.
  - rewrite Hv. split_and!; [done| |done]. intros c' w' [= <- <-]. auto.
  - rewrite Hv. split_and!; [done|done|]. intros e' w' [= <- <-] Hi. by rewrite plain_not in Hi by by apply Hbody.
  - destruct (Hfail e eq_refl) as [Hp Hn]. destruct (nf e); cbn [snd]; rewrite Hv; (split_and!; [done|done|]); intros e' w' [= <- <-] Hi; [auto|].
    by rewrite plain_not in Hi by by apply plain_wrapped.
Qed.

(** A deletion that reports an absent key by itself. *)
Lemma delete_shape m1 m2 p s :
  let m : M S unit :=
    r <- try (sdk_Delete bucket (rooted prefix p)) ;;
    match r with
    | Fail err => if nf err then throw (errors_Sentinel OsErrNotExist m1) else throw (Errorf_w m2 err)
    | Ok _ => ret tt
    end in
  (forall q, q <> p -> v (snd (m s)) !! q = v s !! q) /\
  (forall s', m s = (Ok tt, s') -> v s' = delete p (v s)) /\
  (forall e s', m s = (Fail e, s') -> v s' = v s \/ v s' = delete p (v s)) /\
  (forall e s', m s = (Fail e, s') -> errors_Is e OsErrNotExist = true -> v s !! p = None).
Proof.
  intros m. subst m. munfold. destruct (delete_v p s) as (Hd & Hok & Hfail). cbv zeta in *.
  destruct (sdk_Delete bucket (rooted prefix p) s) as [[[]|e] s1]; cbn [fst snd] in *.
  - split_and!; [done| |done|done]. intros s' [= <-]. auto.
  - destruct (Hfail e eq_refl) as (Hp & Hn & Hcase). destruct (nf e); cbn [snd];
      (split_and!; [done|done|by intros e' s' [= <- <-]|]); intros e' s' [= <- <-] Hi; [auto|].
    by rewrite plain_not in Hi by by apply plain_wrapped.
Qed.

(** What a copy from [tmp] to [final] may do, as long as [final] is free. *)
Definition copies (tmp final : string) (m : M S unit) : Prop := forall s,
  (fst (m s) = Ok tt -> exists c, v s !! tmp = Some c /\ v (snd (m s)) = <[final := c]> (v s)) /\
  (forall e, fst (m s) = Fail e -> plain_error e /\
     (v (snd (m s)) = v s \/ exists c, v s !! tmp = Some c /\ v (snd (m s)) = <[final := c]> (v s)) /\
     (pf e = true -> is_Some (v s !! final) /\ v (snd (m s)) = v s)).

Lemma copy_v src tmp final cond : names src = Some (rooted prefix tmp) -> tmp <> final ->
  copies tmp final (sdk_Copy bucket src (rooted prefix final) cond).
Proof.
  intros Hs Hne s. destruct (object_copy src (rooted prefix tmp) (rooted prefix final) cond s Hs) as [Hok Hfail];
    [by intros E%(inj (rooted prefix))|]. rewrite !shown_lookup. split.
  - intros Hr. destruct (Hok Hr) as (c & Hc & Ho). exists c. split; [done|]. by rewrite Ho, shown_insert.
  - intros e Hr. destruct (Hfail e Hr) as (Hp & Hcase & Hpf & _). split_and!; [done| |].
    + destruct Hcase as [->|(c & Hc & ->)]; [by left|right; exists c]. by rewrite shown_insert.
    + intros Hx. destruct (Hpf Hx) as [? ->]. done.
Qed.

(** The copy is tried again without its condition when the service does not know it. *)
Lemma retry_copies src tmp final : names src = Some (rooted prefix tmp) -> tmp <> final ->
  copies tmp final
    (r <- try (sdk_Copy bucket src (rooted prefix final) true) ;;
     match r with
     | Fail err => if ni err then sdk_Copy bucket src (rooted prefix final) false else throw err
     | Ok _ => ret tt
     end).
Proof.
  intros Hs Hne s. pose proof (copy_v src tmp final true Hs Hne s) as [Hok Hfail].
  destruct (object_copy src (rooted prefix tmp) (rooted prefix final) true s Hs) as [_ Hni]; [by intros E%(inj (rooted prefix))|].
  munfold. destruct (sdk_Copy bucket src (rooted prefix final) true s) as [[[]|e] s1]; cbn [fst snd] in *; [by split; [intros _; auto|]|].
  destruct (Hni e eq_refl) as (_ & _ & _ & Hsame). destruct (ni e); [|by split].
  pose proof (copy_v src tmp final false Hs Hne s1) as H1. by rewrite Hsame in H1.
Qed.

Lemma commit_shape m1 m2 m3 m4 tmp final copy s : tmp <> final -> copies tmp final copy ->
  let m : M S unit :=
    st <- try (sdk_Head bucket (rooted prefix final)) ;;
    match st with
    | Ok _ => throw (errors_Sentinel OsErrExist m1)
    | Fail err =>
        if negb (nf err) then throw (Errorf_w m2 err)
        else
          c <- try copy ;;
          match c with
          | Fail err => if pf err then throw (errors_Sentinel OsErrExist m1) else throw (Errorf_w m3 err)
          | Ok _ => wrapping m4 (sdk_Delete bucket (rooted prefix tmp))
          end
    end in
  (forall q, q <> tmp -> q <> final -> v (snd (m s)) !! q = v s !! q) /\
  (forall s', m s = (Ok tt, s') -> v s !! final = None /\ exists c, v s !! tmp = Some c /\ v s' = <[final := c]> (delete tmp (v s))) /\
  (forall e s', m s = (Fail e, s') ->
     (v s' !! final = v s !! final /\ v s' !! tmp = v s !! tmp) \/ (v s !! final = None /\ v s' !! final = v s !! tmp)) /\
  (forall e s', m s = (Fail e, s') -> errors_Is e OsErrExist = true -> is_Some (v s !! final) /\ v s' = v s).
Proof.
  intros Hne Hcopy m. subst m. munfold. destruct (head_v final s) as (Hv & Hok & Hfail). cbv zeta in *.
  destruct (sdk_Head bucket (rooted prefix final) s) as [[a|e] s1]; cbn [fst snd] in *.
  { destruct (Hok a eq_refl) as (c & Hc & _). rewrite Hv. split_and!; [done|done|intros e' s' [= <- <-]; rewrite Hv; by left|].
    intros e' s' [= <- <-] _. rewrite Hv. by split; [exists c|]. }
  destruct (Hfail e eq_refl) as [Hp Hn]. destruct (nf e); cbn [negb].
  2:{ cbn [snd]. rewrite Hv. split_and!; [done|done|intros e' s' [= <- <-]; rewrite Hv; by left|].
      intros e' s' [= <- <-] Hi. by rewrite plain_not in Hi by by apply plain_wrapped. }
  specialize (Hn eq_refl). destruct (Hcopy s1) as [Hcok Hcfail]. rewrite Hv in Hcok, Hcfail.
  destruct (copy s1) as [[[]|e2] s2]; cbn [fst snd] in *.
  - destruct (Hcok eq_refl) as (c & Hc & H2). destruct (delete_v tmp s2) as (Hd & Hdok & Hdfail). cbv zeta in *.
    assert (Hfin : v (snd (sdk_Delete bucket (rooted prefix tmp) s2)) !! final = Some c) by (rewrite Hd, H2 by auto; apply lookup_insert_eq).
    destruct (sdk_Delete bucket (rooted prefix tmp) s2) as [[[]|e3] s3]; cbn [fst snd map_error] in *; split_and!; try done.
    + intros q Hq1 Hq2. by rewrite Hd, H2, lookup_insert_ne by auto.
    + intros s' [= <-]. split; [done|]. exists c. split; [done|]. rewrite Hdok, H2 by done. apply delete_insert_ne. auto.
    + intros q Hq1 Hq2. by rewrite Hd, H2, lookup_insert_ne by auto.
    + intros e' s' [= <- <-]. right. split; [done|]. by rewrite Hfin.
    + intros e' s' [= <- <-] Hi. destruct (Hdfail e3 eq_refl) as [? _]. by rewrite plain_not in Hi by by apply plain_wrapped.
  - destruct (Hcfail e2 eq_refl) as (Hp2 & Hcase & Hpf). destruct (pf e2).
    { destruct (Hpf eq_refl) as [Hs _]. rewrite Hn in Hs. by destruct Hs. }
    assert (Hq : forall q, q <> final -> v s2 !! q = v s !! q) by (destruct Hcase as [->|(c & Hc & ->)]; intros q ?; [done|by rewrite lookup_insert_ne]).
    split_and!; [auto|done| |].
    + intros e' s' [= <- <-]. destruct Hcase as [->|(c & Hc & ->)]; [by left|right]. by rewrite lookup_insert_eq, Hc.
    + intros e' s' [= <- <-] Hi. by rewrite plain_not in Hi by by apply plain_wrapped.
Qed.

(** The loop collects what the pager still has to give. *)
Lemma list_pages_run msg n pg out s : (sdk_left s pg <= n)%nat ->
  objects (snd (list_pages msg prefix n pg out s)) = objects s /\
  (forall l, fst (list_pages msg prefix n pg out s) = Ok l -> l = out ++ (object_info prefix <$> pager_rest s pg)) /\
  (forall e, fst (list_pages msg prefix n pg out s) = Fail e -> plain_error e).
Proof.
  revert pg out s. induction n as [|n IH]; intros pg out s Hn; cbn [list_pages];
    (destruct (sdk_More pg) eqn:Em; cbn [negb]; [pose proof (pager_left s pg Em)|rewrite (pager_ends s pg Em); cbn; split_and!; [done|intros l [= <-]; by rewrite app_nil_r|done]]).
  - lia.
  - unfold bind, wrapping. destruct (pager_page pg s) as (Hv & Hok & Hfail).
    destruct (sdk_NextPage pg s) as [[[page pg']|e] s1]; cbn [fst snd map_error] in *.
    + destruct (Hok page pg' eq_refl) as [Hr Hl]. destruct (IH pg' (out ++ (object_info prefix <$> page)) s1) as (Hv2 & Hok2 & Hf2); [lia|].
      split_and!; [by rewrite Hv2| |done]. intros l Hrun. rewrite (Hok2 l Hrun), Hr, fmap_app. by rewrite app_assoc.
    + split_and!; [done|done|]. intros e' [= <-]. apply plain_wrapped. auto.
Qed.

(** A computation that collects the whole listing is a [List]. *)
Definition lists (d : string) (m : M S (list FileInfo)) : Prop := forall s,
  objects (snd (m s)) = objects s /\
  (forall l, fst (m s) = Ok l -> l = object_info prefix <$> pager_rest s (sdk_Pager bucket (list_prefix (rooted prefix d) d))) /\
  (forall e, fst (m s) = Fail e -> plain_error e).

Lemma list_shape msg d :
  lists d (n <- read (fun s => sdk_left s (sdk_Pager bucket (list_prefix (rooted prefix d) d))) ;;
           list_pages msg prefix n (sdk_Pager bucket (list_prefix (rooted prefix d) d)) []).
Proof. intros s. apply (list_pages_run msg _ _ [] s). done. Qed.

Hypothesis own_names : forall s p, is_Some (objects s !! rooted prefix p) -> valid_key p = true.

Lemma lists_spec d m s : lists d m ->
  v (snd (m s)) = v s /\
  (forall l s', m s = (Ok l, s') ->
    NoDup (fi_Path <$> l) /\
    (forall fi, fi ∈ l -> valid_key (fi_Path fi) = true /\
      exists c, v s !! fi_Path fi = Some c /\ listed_in d (fi_Path fi) /\ fi_Size fi = Z.of_nat (slen c)) /\
    (forall p, is_Some (v s !! p) -> under d p = true -> p ∈ (fi_Path <$> l))) /\
  (forall e s', m s = (Fail e, s') -> errors_Is e OsErrNotExist = false).
Proof.
  intros Hm. destruct (Hm s) as (Hv & Hok & Hfail). rewrite Hv. split_and!; [done| |].
  2:{ intros e s' E. apply plain_not, Hfail. by rewrite E. }
  intros l s' E. rewrite E in Hok. specialize (Hok l eq_refl). destruct (pager_starts (list_prefix (rooted prefix d) d) s) as (Hnd & Hall & Hcomp).
  set (rest := pager_rest s _) in *. clearbody rest.
  assert (Hown : forall a, a ∈ rest -> rooted prefix (unrooted prefix (at_Name a)) = at_Name a).
  { intros a Ha. apply rooted_unrooted, (list_prefix_owned _ d). by apply Hall. }
  assert (Hpaths : fi_Path <$> l = unrooted prefix <$> (at_Name <$> rest)) by (rewrite Hok, <- !list_fmap_compose; done).
  rewrite Hpaths. split_and!.
  - clear -Hnd Hown. induction rest as [|a rest IH]; [apply NoDup_nil_2|]. rewrite !fmap_cons in *. apply NoDup_cons in Hnd as [Hn Hnd].
    apply NoDup_cons. split; [|apply IH; [done|intros; apply Hown; by right]]. intros Hin. apply Hn.
    apply list_elem_of_fmap in Hin as (k & Ek & Hk). apply list_elem_of_fmap in Hk as (b & -> & Hb). apply list_elem_of_fmap. exists b. split; [|done].
    rewrite <- (Hown a), Ek, Hown; [done|by right|by left].
  - intros fi Hfi. rewrite Hok in Hfi. apply list_elem_of_fmap in Hfi as (a & -> & Ha). destruct (Hall a Ha) as (Hp & c & Hc & Hs). cbn.
    rewrite <- (Hown a Ha) in Hc, Hp. split; [eapply own_names; by rewrite Hc|]. exists c. rewrite shown_lookup, Hs. split_and!; [done| |done].
    by apply (list_prefix_spec prefix d).
  - intros p Hp Hu. rewrite shown_lookup in Hp. apply list_elem_of_fmap. exists (rooted prefix p). split; [by rewrite unrooted_rooted|].
    apply Hcomp; [done|]. by apply list_prefix_complete.
Qed.
End shapes.

(** ** The whole interface *)

Section pipe_backend.
Context {S : Type} {bucket : string} {nf pf ni : error -> bool} `{ObjectLaws S bucket nf pf ni} (prefix msg empty : string).
Context (commit : string -> string -> M S unit) (get : string -> M S string) (stat : string -> M S FileInfo).
Context (list : string -> M S (list FileInfo)) (del : string -> M S unit).

(** A driver whose writers are pipes. *)
Definition pipe_backend : Backend (store S) := {|
  be_Writer := nat;
  be_Put p := if String.eqb p "" then throw (errors_New empty) else open_pipe bucket (rooted prefix p);
  be_Write := pipe_Write;
  be_Close := pipe_Close msg;
  be_Commit t f := on_sdk (commit t f);
  be_Get p := on_sdk (get p);
  be_Stat p := on_sdk (stat p);
  be_List p := on_sdk (list p);
  be_Delete p := on_sdk (del p);
|}.

Definition store_view (w : store S) : gmap string string := shown prefix (objects (d_sdk w)).

(** The key and the bytes of an open writer; of one whose upload failed the bytes do not matter. *)
Definition store_pending (w : store S) (h : nat) : option (string * string) :=
  match d_writers w !! h with
  | None => None
  | Some wc =>
      if wc_closed wc || negb (owned prefix (wc_key wc)) then None
      else match wc_failed wc with
           | Some _ => Some (unrooted prefix (wc_key wc), "")
           | None => match uploading (d_sdk w) (wc_up wc) with
                     | Some (k, c) => if String.eqb k (wc_key wc) then Some (unrooted prefix k, c) else None
                     | None => None
                     end
           end
  end.

Lemma on_sdk_eq {A} (m : M S A) w r w' : on_sdk m w = (r, w') -> m (d_sdk w) = (r, d_sdk w').
Proof. unfold on_sdk. destruct (m (d_sdk w)). by intros [= <- <-]. Qed.

Lemma on_sdk_snd {A} (m : M S A) w : d_sdk (snd (on_sdk m w)) = snd (m (d_sdk w)).
Proof. unfold on_sdk. by destruct (m (d_sdk w)). Qed.

(** An open writer, with what its upload has got so far if that still runs. *)
Lemma pending_inv w h p c : store_pending w h = Some (p, c) -> exists wc, d_writers w !! h = Some wc /\
  wc_closed wc = false /\ wc_key wc = rooted prefix p /\
  (wc_failed wc = None -> uploading (d_sdk w) (wc_up wc) = Some (rooted prefix p, c)).
Proof.
  unfold store_pending. destruct (d_writers w !! h) as [wc|]; [|done]. destruct (wc_closed wc) eqn:Ec; [done|].
  destruct (owned prefix (wc_key wc)) eqn:Eo; [|done]. cbn [orb negb]. intros Hp. exists wc.
  pose proof (rooted_unrooted prefix _ Eo) as Hr. destruct (wc_failed wc).
  - injection Hp as <- <-. by rewrite Hr.
  - destruct (uploading _ _) as [[k c']|]; [|done]. destruct (String.eqb_spec k (wc_key wc)) as [->|]; [|done].
    injection Hp as <- <-. by rewrite Hr.
Qed.

Lemma put_pipe p w : valid_key p = true ->
  store_view (snd (@be_Put _ pipe_backend p w)) = store_view w /\
  forall h w', @be_Put _ pipe_backend p w = (Ok h, w') -> store_pending w' h = Some (p, "").
Proof.
  intros Hp. cbn [be_Put pipe_backend]. destruct (String.eqb_spec p "") as [->|_]; [by vm_compute in Hp|].
  unfold open_pipe, store_view. destruct (sdk_Start bucket (rooted prefix p) (d_sdk w)) as [u s] eqn:E.
  apply start_spec in E as [Ho Hu]. cbn [snd d_sdk]. rewrite Ho. split; [done|]. intros h w' [= <- <-].
  unfold store_pending. cbn [d_writers d_sdk]. rewrite lookup_insert_eq. cbn [wc_closed wc_key wc_failed wc_up].
  rewrite (proj2 (owned_spec prefix (rooted prefix p)) (ex_intro _ p eq_refl)). cbn [orb negb]. by rewrite Hu, String.eqb_refl, unrooted_rooted.
Qed.

Lemma write_pipe h b w p c : store_pending w h = Some (p, c) ->
  store_view (snd (pipe_Write h b w)) = store_view w /\
  exists c', store_pending (snd (pipe_Write h b w)) h = Some (p, c') /\ forall w', pipe_Write h b w = (Ok tt, w') -> c' = c +:+ b.
Proof.
  intros Hp. destruct (pending_inv w h p c Hp) as (wc & Hw & Hc & Hk & Hu). unfold pipe_Write. munfold. rewrite Hw, Hc.
  assert (Ho : owned prefix (wc_key wc) = true) by (apply owned_spec; by exists p).
  destruct (wc_failed wc) eqn:Ef; [by split; [|exists c]|]. specialize (Hu eq_refl). unfold on_sdk.
  destruct (feed_spec (wc_up wc) b (d_sdk w) _ c Hu) as [Hv (c' & Hu' & Hok)].
  destruct (sdk_Feed (wc_up wc) b (d_sdk w)) as [[[]|e] s]; cbn [fst snd] in *; unfold store_view; cbn [d_sdk set_writer snd]; rewrite Hv; (split; [done|]).
  - exists c'. split; [|by intros w' _; apply Hok]. unfold store_pending. cbn [d_writers d_sdk].
    by rewrite Hw, Hc, Ho, Ef, Hu', Hk, String.eqb_refl, unrooted_rooted.
  - exists "". split; [|done]. unfold store_pending, set_writer. cbn [d_writers d_sdk]. rewrite lookup_insert_eq. cbn [wc_closed wc_key wc_failed].
    by rewrite Ho, Hk, unrooted_rooted.
Qed.

Lemma close_pipe h w p c : store_pending w h = Some (p, c) ->
  (forall q, q <> p -> store_view (snd (pipe_Close msg h w)) !! q = store_view w !! q) /\
  forall w', pipe_Close msg h w = (Ok tt, w') -> store_view w' = <[p := c]> (store_view w).
Proof.
  intros Hp. destruct (pending_inv w h p c Hp) as (wc & Hw & Hc & Hk & Hu). unfold pipe_Close. munfold. rewrite Hw, Hc.
  destruct (wc_failed wc) eqn:Ef; [by split|]. specialize (Hu eq_refl). unfold on_sdk, store_view. cbn [set_writer d_sdk].
  destruct (finish_spec (wc_up wc) (d_sdk w) _ c Hu) as [Hout Hok].
  destruct (sdk_Finish (wc_up wc) (d_sdk w)) as [[[]|e] s]; cbn [fst snd map_error d_sdk] in *; (split; [|intros w'; try done]).
  - intros q Hq. rewrite !shown_lookup. apply Hout. by intros E%(inj (rooted prefix)).
  - intros [= <-]. cbn [d_sdk]. by rewrite Hok, shown_insert.
  - intros q Hq. rewrite !shown_lookup. apply Hout. by intros E%(inj (rooted prefix)).
Qed.

Context (Hserves : serves (fun s => shown prefix (objects s)) commit get stat list del).

#[program] Definition pipe_laws : @BackendLaws (store S) pipe_backend := {|
  view := store_view;
  pending := store_pending;
  put_spec := put_pipe;
  write_spec := write_pipe;
  close_spec := close_pipe;
|}.
Next Obligation.
  intros t f w Ht Hf Hc Hne _. cbn [be_Commit pipe_backend]. unfold store_view. rewrite on_sdk_snd.
  destruct (serves_commit _ _ _ _ _ _ Hserves t f (d_sdk w) Ht Hf Hc Hne) as (? & ? & ? & Hex).
  split_and!; [done|..]; intros *; intros Hrun%on_sdk_eq; [eauto..|]. intros Hi. by apply (Hex _ _ Hrun Hi).
Qed.
Next Obligation.
  intros p w Hp. cbn [be_Get pipe_backend]. unfold store_view. rewrite on_sdk_snd.
  destruct (serves_get _ _ _ _ _ _ Hserves p (d_sdk w) Hp) as (? & ? & ?).
  split_and!; [done|..]; intros *; intros ?%on_sdk_eq; eauto.
Qed.
Next Obligation.
  intros p w Hp. cbn [be_Stat pipe_backend]. unfold store_view. rewrite on_sdk_snd.
  destruct (serves_stat _ _ _ _ _ _ Hserves p (d_sdk w) Hp) as (? & Hok & ?).
  split_and!; [done|..]; intros *; intros Hrun%on_sdk_eq; [|eauto]. by destruct (Hok _ _ Hrun) as (? & _ & ?).
Qed.
Next Obligation.
  intros d w. cbn [be_List pipe_backend]. unfold store_view. rewrite on_sdk_snd.
  destruct (serves_list _ _ _ _ _ _ Hserves d (d_sdk w)) as (? & Hok & _).
  split; [done|]. intros l w' Hrun%on_sdk_eq. destruct (Hok l _ Hrun) as (? & ? & _). done.
Qed.
Next Obligation.
  intros d w l w' p Hrun%on_sdk_eq Hp Hk Hu. destruct (serves_list _ _ _ _ _ _ Hserves d (d_sdk w)) as (_ & Hok & _).
  destruct (Hok l _ Hrun) as (_ & _ & Hall). by apply Hall.
Qed.
Next Obligation.
  intros d w e w' p Hrun%on_sdk_eq Hi. destruct (serves_list _ _ _ _ _ _ Hserves d (d_sdk w)) as (_ & _ & Hfail).
  by rewrite (Hfail e _ Hrun) in Hi.
Qed.
Next Obligation.
  intros p w Hp. cbn [be_Delete pipe_backend]. unfold store_view. rewrite on_sdk_snd.
  destruct (serves_delete _ _ _ _ _ _ Hserves p (d_sdk w) Hp) as (? & ? & ? & ?).
  split_and!; [done|..]; intros *; intros ?%on_sdk_eq; eauto.
Qed.

Lemma pipe_flat : @FlatLaws _ _ pipe_laws.
Proof.
  split.
  - intros p w fi w' Hp Hrun%on_sdk_eq. destruct (serves_stat _ _ _ _ _ _ Hserves p (d_sdk w) Hp) as (_ & Hok & _).
    by destruct (Hok _ _ Hrun) as (_ & ? & _).
  - intros t f w e w' Ht Hf Hc Hne Hrun%on_sdk_eq Hi. destruct (serves_commit _ _ _ _ _ _ Hserves t f (d_sdk w) Ht Hf Hc Hne) as (_ & _ & _ & Hex).
    by apply (Hex _ _ Hrun).
Qed.
End pipe_backend.
