(* ===== verification/Cloud.v ===== *)
(** * An object store in memory

    A bucket with uploads in flight and a script of failures, some of which take effect before they
    are reported. It keeps the laws of an SDK, so that the theorems on the drivers can be run. *)

From S2P Require Import Prelude Storage ObjectStore.

(** What becomes of the next calls. *)
Inductive fault := Fine | Refused | Lost.   (* Lost: the call took effect and its answer did not arrive *)

Record cloud := Cloud {
  cl_objects : gmap string string;
  cl_uploads : gmap nat (string * string);
  cl_next : nat;
  cl_script : list fault;
}.

Definition cloud_bucket : string := "bkt".
Definition cloud_prefix : string := "srv".

(** The keys the service takes. *)
Definition cloud_key (k : string) : bool := negb (owned cloud_prefix k) || valid_key (unrooted cloud_prefix k).

Definition cloud_files (s : cloud) : gmap string string := base.filter (fun kc => cloud_key kc.1 = true) (cl_objects s).

Definition set_files (m : gmap string string) (s : cloud) : cloud := Cloud m (cl_uploads s) (cl_next s) (cl_script s).
Definition set_uploads (m : gmap nat (string * string)) (s : cloud) : cloud := Cloud (cl_objects s) m (cl_next s) (cl_script s).

Definition cloud_absent : error := errors_New "NotFound".
Definition cloud_taken : error := errors_New "Precondition Failed".
Definition cloud_refused : error := errors_New "InvalidArgument".

Lemma cloud_files_set m s : cloud_files (set_files (<[m.1 := m.2]> (cloud_files s)) s) =
  if cloud_key m.1 then <[m.1 := m.2]> (cloud_files s) else delete m.1 (cloud_files s).
Proof.
  destruct m as [k c]. unfold cloud_files at 1. cbn [cl_objects set_files fst snd]. apply map_eq. intros q. apply option_eq. intros c'.
  rewrite map_lookup_filter_Some. cbn [fst]. unfold cloud_files. destruct (decide (q = k)) as [->|Hq].
  - rewrite lookup_insert_eq. destruct (cloud_key k) eqn:E; [rewrite lookup_insert_eq|rewrite lookup_delete_eq]; naive_solver.
  - rewrite lookup_insert_ne by done. destruct (cloud_key k); rewrite ?lookup_insert_ne, ?lookup_delete_ne by done; rewrite map_lookup_filter_Some; naive_solver.
Qed.

Lemma cloud_files_delete k s : cloud_files (set_files (delete k (cloud_files s)) s) = delete k (cloud_files s).
Proof.
  unfold cloud_files at 1. cbn [cl_objects set_files]. apply map_eq. intros q. apply option_eq. intros c'.
  rewrite map_lookup_filter_Some, !lookup_delete_Some. unfold cloud_files. rewrite map_lookup_filter_Some. naive_solver.
Qed.

(** Objects under a prefix, in the order of the map. *)
Definition cloud_listing (prefix : string) (s : cloud) : list Attrs :=
  (fun kc => {| at_Name := kc.1; at_Size := Some (Z.of_nat (slen kc.2)); at_Updated := None |}) <$>
    base.filter (fun kc => HasPrefix kc.1 prefix = true) (map_to_list (cloud_files s)).

(** The prefix, how much was given, and whether there may be more. *)
Record cloud_pager := { cp_prefix : string; cp_given : nat; cp_more : bool }.

Section sdk.
(** What a call that fails by the script says. *)
Context (failure : string).

Definition injected : error := errors_New failure.

Definition cloud_op {A} (f : cloud -> result A * cloud) : M cloud A := fun s =>
  let s' := Cloud (cl_objects s) (cl_uploads s) (cl_next s) (tail (cl_script s)) in
  match cl_script s with
  | Refused :: _ => (Fail injected, s')
  | Lost :: _ => (Fail injected, snd (f s'))
  | _ => f s'
  end.

#[export] Instance cloud_sdk : ObjectSDK cloud := {
  Upload := nat;
  sdk_Start _ k s := (cl_next s, Cloud (cl_objects s) (<[cl_next s := (k, "")]> (cl_uploads s)) (S (cl_next s)) (cl_script s));
  sdk_Feed u p := cloud_op (fun s =>
    match cl_uploads s !! u with
    | Some (k, c) => (Ok tt, set_uploads (<[u := (k, c +:+ p)]> (cl_uploads s)) s)
    | None => (Fail cloud_refused, s)
    end);
  sdk_Finish u := cloud_op (fun s =>
    match cl_uploads s !! u with
    | Some (k, c) => if cloud_key k then (Ok tt, set_files (<[k := c]> (cloud_files s)) s) else (Fail cloud_refused, s)
    | None => (Fail cloud_refused, s)
    end);
  sdk_Reach _ := cloud_op (fun s => (Ok tt, s));
  sdk_Head _ k := cloud_op (fun s =>
    match cloud_files s !! k with
    | Some c => (Ok {| at_Name := k; at_Size := Some (Z.of_nat (slen c)); at_Updated := None |}, s)
    | None => (Fail cloud_absent, s)
    end);
  sdk_Get _ k := cloud_op (fun s => match cloud_files s !! k with Some c => (Ok (Ok c), s) | None => (Fail cloud_absent, s) end);
  sdk_URL b k := b +:+ "/" +:+ k;
  sdk_Copy b src dst cond := cloud_op (fun s =>
    match cloud_files s !! TrimPrefix src (cloud_bucket +:+ "/") with
    | None => (Fail cloud_absent, s)
    | Some c =>
        if cond && bool_decide (is_Some (cloud_files s !! dst)) then (Fail cloud_taken, s)
        else if cloud_key dst then (Ok tt, set_files (<[dst := c]> (cloud_files s)) s)
        else (Fail cloud_refused, s)
    end);
  sdk_Delete _ k := cloud_op (fun s =>
    match cloud_files s !! k with
    | Some _ => (Ok tt, set_files (delete k (cloud_files s)) s)
    | None => (Fail cloud_absent, s)
    end);
  Pager := cloud_pager;
  sdk_Pager _ prefix := {| cp_prefix := prefix; cp_given := 0; cp_more := true |};
  sdk_More := cp_more;
  sdk_NextPage pg := cloud_op (fun s =>
    let l := cloud_listing (cp_prefix pg) s in
    if cp_more pg
    then (Ok (firstn 2 (skipn (cp_given pg) l),
              {| cp_prefix := cp_prefix pg; cp_given := cp_given pg + 2; cp_more := (cp_given pg + 2 <? length l)%nat |}), s)
    else (Fail cloud_refused, s));
  sdk_left s pg := if cp_more pg then S (length (cloud_listing (cp_prefix pg) s) - cp_given pg) else 0%nat;
}.

Lemma cloud_op_cases {A} (f : cloud -> result A * cloud) s : exists s', cl_objects s' = cl_objects s /\ cl_uploads s' = cl_uploads s /\
  (cloud_op f s = (Fail injected, s') \/ cloud_op f s = (Fail injected, snd (f s')) \/ cloud_op f s = f s').
Proof.
  unfold cloud_op. exists (Cloud (cl_objects s) (cl_uploads s) (cl_next s) (tail (cl_script s))).
  destruct (cl_script s) as [|[] l]; split_and!; auto.
Qed.

Context (nf pf ni : error -> bool).

(** What the drivers read in the errors of this store. *)
Definition cloud_reads : Prop :=
  nf injected = false /\ pf injected = false /\ ni injected = false /\ nf cloud_refused = false /\ pf cloud_refused = false /\
  ni cloud_refused = false /\ pf cloud_absent = false /\ ni cloud_absent = false /\ ni cloud_taken = false.
Hypothesis reads : cloud_reads.

Lemma cloud_pages pg s : let m := sdk_NextPage (ObjectSDK:=cloud_sdk) pg s in
  cloud_files (snd m) = cloud_files s /\
  forall l pg', fst m = Ok (l, pg') ->
    (if cp_more pg then skipn (cp_given pg) (cloud_listing (cp_prefix pg) s) else []) =
      l ++ (if cp_more pg' then skipn (cp_given pg') (cloud_listing (cp_prefix pg') (snd m)) else []) /\
    (sdk_left (snd m) pg' < sdk_left s pg)%nat.
Proof.
  cbn [sdk_NextPage sdk_left cloud_sdk]. match goal with |- context [cloud_op ?f s] => destruct (cloud_op_cases f s) as (s' & Ho & _ & [E|[E|E]]) end;
    rewrite E; cbn beta iota zeta; assert (Hf : cloud_files s' = cloud_files s) by (unfold cloud_files; by rewrite Ho).
  - by split.
  - split; [|done]. by destruct (cp_more pg).
  - assert (Hl : cloud_listing (cp_prefix pg) s' = cloud_listing (cp_prefix pg) s) by (unfold cloud_listing; by rewrite Hf).
    destruct (cp_more pg) eqn:Em; cbn [fst snd]; (split; [done|]); intros l pg' [= <- <-]; rewrite ?Em.
    cbn [cp_more cp_given cp_prefix]. rewrite Hl. set (L := cloud_listing (cp_prefix pg) s). destruct (Nat.ltb_spec (cp_given pg + 2) (length L)) as [Hlt|Hge].
    + split; [|lia]. rewrite <- (take_drop 2 (skipn (cp_given pg) L)) at 1. f_equal. rewrite skipn_skipn. f_equal. lia.
    + split; [|lia]. rewrite app_nil_r, firstn_all2; [done|]. rewrite length_skipn. lia.
Qed.

#[program] Definition cloud_laws : ObjectLaws cloud cloud_bucket nf pf ni := {|
  objects := cloud_files;
  uploading s u := cl_uploads s !! u;
  names src := if HasPrefix src (cloud_bucket +:+ "/") then Some (TrimPrefix src (cloud_bucket +:+ "/")) else None;
  pager_rest s pg := if cp_more pg then skipn (cp_given pg) (cloud_listing (cp_prefix pg) s) else [];
|}.
Next Obligation. intros k s u s' [= <- <-]. cbn. by rewrite lookup_insert_eq. Qed.
Ltac op :=
  match goal with |- context [cloud_op ?f ?s] =>
    destruct (cloud_op_cases f s) as (s' & Ho & Hu & [E|[E|E]]); rewrite E; cbn beta iota zeta delta [fst snd];
    (assert (Hf : cloud_files s' = cloud_files s) by (unfold cloud_files; by rewrite Ho)); rewrite ?Hf in *
  end.
Next Obligation.
  intros u p s k c Hup. change (cl_uploads s !! (u : nat) = Some (k, c)) in Hup. cbn [sdk_Feed cloud_sdk]. op; [split; [done|exists c; by rewrite Hu]|..]; rewrite Hu, Hup; cbn [fst snd];
    (split; [done|]); exists (c +:+ p); cbn; by rewrite ?Hu, lookup_insert_eq.
Qed.
Next Obligation.
  intros u s k c Hup. change (cl_uploads s !! (u : nat) = Some (k, c)) in Hup. cbn [sdk_Finish cloud_sdk]. op; [done|..]; rewrite Hu, Hup; destruct (cloud_key k) eqn:Ek; cbn [fst snd]; rewrite ?Hf; try done.
  - pose proof (cloud_files_set (k, c) s') as Hs. cbn [fst snd] in Hs. rewrite Ek, Hf in Hs. rewrite Hs. split; [|done]. intros q Hq. by rewrite lookup_insert_ne.
  - pose proof (cloud_files_set (k, c) s') as Hs. cbn [fst snd] in Hs. rewrite Ek, Hf in Hs. rewrite Hs. split; [|done]. intros q Hq. by rewrite lookup_insert_ne.
Qed.
Next Obligation.
  intros k s. destruct reads as (Hi & _). cbn [sdk_Head cloud_sdk]. op.
  - split_and!; [done|done|]. intros e [= <-]. split; [done|]. by rewrite Hi.
  - split_and!; [by case_match|done|]. intros e [= <-]. split; [done|]. by rewrite Hi.
  - destruct (cloud_files s !! k) as [c|] eqn:Ec; cbn [fst snd]; (split_and!; [done|..]); [|done|done|].
    + intros a [= <-]. by exists c.
    + by intros e [= <-].
Qed.
Next Obligation.
  intros k s. destruct reads as (Hi & _). cbn [sdk_Get cloud_sdk]. op.
  - split_and!; [done|done|done|]. intros e [= <-]. split; [done|]. by rewrite Hi.
  - split_and!; [by case_match|done|done|]. intros e [= <-]. split; [done|]. by rewrite Hi.
  - destruct (cloud_files s !! k) as [c|] eqn:Ec; cbn [fst snd]; (split_and!; [done|..]); try done.
    + by intros c' [= <-].
    + by intros e [= <-].
Qed.
Next Obligation.
  intros src k dst cond s Hsrc Hne. destruct reads as (_ & Hi & Hi2 & _ & Hr & Hr2 & Ha & Ha2 & Ht2).
  cbn beta in Hsrc. destruct (HasPrefix src (cloud_bucket +:+ "/")); [|done]. injection Hsrc as Hk. change (TrimPrefix src (cloud_bucket +:+ "/") = k) in Hk. cbn [sdk_Copy cloud_sdk]. rewrite Hk.
  assert (Hset : forall s' c, cloud_files s' = cloud_files s -> cloud_key dst = true -> cloud_files (set_files (<[dst := c]> (cloud_files s')) s') = <[dst := c]> (cloud_files s)).
  { intros s' c Hs Hd. pose proof (cloud_files_set (dst, c) s') as H. cbn [fst snd] in H. by rewrite Hd, Hs in *. }
  op; rewrite ?Hf.
  - split; [done|]. intros e [= <-]. split_and!; [done|by left|by rewrite Hi|by rewrite Hi2].
  - split; [done|]. intros e [= <-]. rewrite Hi, Hi2. split_and!; [done| |done|done]. destruct (cloud_files s !! k) as [c|]; [|by left].
    destruct (_ && _); [by left|]. destruct (cloud_key dst) eqn:Ed; [|by left]. cbn [snd]. right. exists c. rewrite <- Hf at 1. by rewrite Hset.
  - destruct (cloud_files s !! k) as [c|]; cbn [fst snd]; [|split; [done|]; intros e [= <-]; rewrite Ha, Ha2; split_and!; auto; done].
    destruct cond, (bool_decide _) eqn:Eb; cbn [andb fst snd];
      try (split; [done|]; intros e [= <-]; rewrite Ht2, Hf; apply bool_decide_eq_true in Eb; split_and!; auto; done).
    all: destruct (cloud_key dst) eqn:Ed; cbn [fst snd]; [|split; [done|]; intros e [= <-]; rewrite Hr, Hr2, Hf; split_and!; auto; done].
    all: split; [|done]; intros _; exists c; rewrite <- Hf at 1; by rewrite Hset.
Qed.
Next Obligation.
  intros k s. destruct reads as (Hi & _). cbn [sdk_Delete cloud_sdk].
  assert (Hdel : forall s', cloud_files s' = cloud_files s -> cloud_files (set_files (delete k (cloud_files s)) s') = delete k (cloud_files s)).
  { intros s' Hs. rewrite <- Hs. apply cloud_files_delete. }
  op; rewrite ?Hf.
  - split; [done|]. intros e [= <-]. rewrite Hi. split_and!; [done|done|by left].
  - split; [done|]. intros e [= <-]. rewrite Hi. split_and!; [done|done|]. destruct (_ !! k); cbn [snd]; rewrite ?Hdel by done; auto.
  - destruct (cloud_files s !! k) as [c|] eqn:Ek; cbn [fst snd]; (split; [try done|]); [intros _; by apply Hdel|done|].
    intros e [= <-]. split_and!; [done|done|by left].
Qed.
Next Obligation.
  intros prefix s. cbn. unfold cloud_listing. set (m := cloud_files s). rewrite skipn_O, <- list_fmap_compose. change (at_Name ∘ _) with (fst : string * string -> string).
  split_and!.
  - eapply sublist_NoDup; [apply (NoDup_fst_map_to_list m)|]. apply fmap_sublist, sublist_filter.
  - intros a Ha. apply list_elem_of_fmap in Ha as ([k c] & -> & [Hp Hin]%list_elem_of_filter). apply elem_of_map_to_list in Hin. cbn. by split; [|exists c].
  - intros k [c Hc] Hp. apply list_elem_of_fmap. exists (k, c). split; [done|]. apply list_elem_of_filter. split; [done|]. by apply elem_of_map_to_list.
Qed.
Next Obligation. intros s pg. cbn. by intros ->. Qed.
Next Obligation. intros s pg. cbn. intros ->. lia. Qed.
Next Obligation.
  intros pg s. destruct (cloud_pages pg s) as [Hv Hok]. split_and!; [done| |].
  - intros l pg' Hl. by apply Hok.
  - cbn [sdk_NextPage cloud_sdk]. op; [by intros e [= <-]|by intros e [= <-]|]. destruct (cp_more pg); [done|]. by intros e [= <-].
Qed.
End sdk.

Lemma cloud_own s p : is_Some (cloud_files s !! rooted cloud_prefix p) -> valid_key p = true.
Proof.
  intros [c Hc]. unfold cloud_files in Hc. apply map_lookup_filter_Some in Hc as [_ Hk]. cbn [fst] in Hk. unfold cloud_key in Hk.
  rewrite unrooted_rooted in Hk. by rewrite (proj2 (owned_spec cloud_prefix (rooted cloud_prefix p)) (ex_intro _ p eq_refl)) in Hk.
Qed.

Lemma cloud_source failure nf pf ni (reads : cloud_reads failure nf pf ni) k :
  names (ObjectLaws:=cloud_laws failure nf pf ni reads) (cloud_bucket +:+ "/" +:+ k) = Some k.
Proof.
  change (cloud_bucket +:+ "/" +:+ k) with ((cloud_bucket +:+ "/") +:+ k). cbn [names cloud_laws].
  by rewrite HasPrefix_app, TrimPrefix_app.
Qed.

(** A bucket with the given objects. *)
Definition cloud_with (objects : list (string * string)) (script : list fault) : cloud := Cloud (list_to_map objects) ∅ 0 script.

Definition store_with (failure : string) (objects : list (string * string)) (script : list fault) : @store cloud (cloud_sdk failure) :=
  {| d_sdk := cloud_with objects script; d_writers := ∅; d_next := 0 |}.
