(* ===== verification/S3.v ===== *)
(** * The S3 driver

    [internal/storage/s3]: every operation of the driver over the calls of the SDK, and the proof that
    they make the storage interface. *)

From S2P Require Import Prelude Storage ObjectStore Cloud.

(** ** Reading errors *)

(** [errors.As] to [smithy.APIError] and to [types.NoSuchKey]. *)
Class S3Errors := { APIErrorCode : error -> option string; as_NoSuchKey : error -> bool }.

Section driver.
Context `{S3Errors}.

(** [isNotFound] *)
Definition isNotFound (err : error) : bool :=
  match APIErrorCode err with
  | None => false
  | Some code => bool_decide (code ∈ ["NoSuchKey"; "NotFound"; "NoSuchBucket"]) || as_NoSuchKey err
  end.

(** [isPreconditionFailed] *)
Definition isPreconditionFailed (err : error) : bool :=
  match APIErrorCode err with None => false | Some code => String.eqb code "PreconditionFailed" end.

(** [isNotImplemented] *)
Definition isNotImplemented (err : error) : bool :=
  match APIErrorCode err with None => false | Some code => String.eqb code "NotImplemented" end.

(** ** The driver *)

(** [Options] and [Backend]; of the client only whether there is one. *)
Record Options := { o_Client : bool; o_Bucket : string; o_Prefix : string }.
Record bucket_store := { s_bucket : string; s_prefix : string }.

(** [New] *)
Definition New (opts : Options) : result bucket_store :=
  if negb (o_Client opts) then Fail (errors_New "s3: Client is required")
  else if String.eqb (o_Bucket opts) "" then Fail (errors_New "s3: Bucket is required")
  else Ok {| s_bucket := o_Bucket opts; s_prefix := TrimSuffix (o_Prefix opts) "/" |}.

Context {S : Type} `{ObjectSDK S} (r : bucket_store).

(** [Open] *)
Definition Open : M S unit := wrapping "s3: HeadBucket" (sdk_Reach (s_bucket r)).

(** [keyFor] *)
Definition keyFor (relPath : string) : string :=
  if String.eqb (s_prefix r) "" then relPath else s_prefix r +:+ "/" +:+ relPath.

(** [Put] *)
Definition Put (relPath : string) : M (store S) nat :=
  if String.eqb relPath "" then throw (errors_New "s3: relPath is required")
  else open_pipe (s_bucket r) (keyFor relPath).

(** [writeCloser.Write] and [writeCloser.Close] *)
Definition Write (h : nat) (p : string) : M (store S) unit := pipe_Write h p.
Definition Close (h : nat) : M (store S) unit := pipe_Close "s3: upload" h.

(** The copy of [Commit], tried again without its condition where that is not known. *)
Definition copyObject (tmpKey finalKey : string) : M S unit :=
  err <- try (sdk_Copy (s_bucket r) (s_bucket r +:+ "/" +:+ tmpKey) finalKey true) ;;
  match err with
  | Fail err => if isNotImplemented err then sdk_Copy (s_bucket r) (s_bucket r +:+ "/" +:+ tmpKey) finalKey false
                else throw err
  | Ok _ => ret tt
  end.

(** [Commit] *)
Definition Commit (tmp final : string) : M S unit :=
  st <- try (sdk_Head (s_bucket r) (keyFor final)) ;;
  match st with
  | Ok _ => throw (errors_Sentinel OsErrExist "s3: Commit refuses to overwrite existing")
  | Fail err =>
      if negb (isNotFound err) then throw (Errorf_w "s3: HeadObject(final)" err)
      else
        copied <- try (copyObject (keyFor tmp) (keyFor final)) ;;
        match copied with
        | Fail err =>
            if isPreconditionFailed err then throw (errors_Sentinel OsErrExist "s3: Commit refuses to overwrite existing")
            else throw (Errorf_w "s3: CopyObject" err)
        | Ok _ => wrapping "s3: DeleteObject(tmp)" (sdk_Delete (s_bucket r) (keyFor tmp))
        end
  end.

(** [Get] *)
Definition Get (relPath : string) : M S string :=
  out <- try (sdk_Get (s_bucket r) (keyFor relPath)) ;;
  match out with
  | Fail err => if isNotFound err then throw (errors_Sentinel OsErrNotExist "s3: Get") else throw (Errorf_w "s3: GetObject" err)
  | Ok body => of_result body
  end.

(** [Stat] *)
Definition Stat (relPath : string) : M S FileInfo :=
  out <- try (sdk_Head (s_bucket r) (keyFor relPath)) ;;
  match out with
  | Fail err => if isNotFound err then throw (errors_Sentinel OsErrNotExist "s3: Stat") else throw (Errorf_w "s3: HeadObject" err)
  | Ok out => ret {| fi_Path := relPath; fi_Size := default 0 (at_Size out); fi_ModTime := default 0 (at_Updated out) |}
  end.

(** [stripStoragePrefix] *)
Definition stripStoragePrefix (repoPrefix key : string) : string :=
  if String.eqb repoPrefix "" then key else TrimPrefix key (repoPrefix +:+ "/").

(** [List] *)
Definition List (prefix : string) : M S (list FileInfo) :=
  let key := keyFor prefix in
  let listPrefix := if negb (String.eqb key "") && negb (HasSuffix key "/") && negb (String.eqb prefix "") then key +:+ "/" else key in
  let pager := sdk_Pager (s_bucket r) listPrefix in
  left <- read (fun s => sdk_left s pager) ;;
  list_pages "s3: ListObjectsV2" (s_prefix r) left pager [].

(** [Delete]: the service does not report a missing key, so the driver looks first. *)
Definition Delete (relPath : string) : M S unit :=
  st <- try (sdk_Head (s_bucket r) (keyFor relPath)) ;;
  match st with
  | Fail err => if isNotFound err then throw (errors_Sentinel OsErrNotExist "s3: Delete") else throw (Errorf_w "s3: HeadObject for Delete" err)
  | Ok _ => wrapping "s3: DeleteObject" (sdk_Delete (s_bucket r) (keyFor relPath))
  end.

#[export] Instance s3_backend : Backend (store S) := {
  be_Writer := nat;
  be_Put := Put;
  be_Write := Write;
  be_Close := Close;
  be_Commit t f := on_sdk (Commit t f);
  be_Get p := on_sdk (Get p);
  be_Stat p := on_sdk (Stat p);
  be_List p := on_sdk (List p);
  be_Delete p := on_sdk (Delete p);
}.
End driver.

(** ** The driver is a storage *)

Section laws.
Context `{S3Errors} {S : Type} (r : bucket_store) `{L : ObjectLaws S (s_bucket r) isNotFound isPreconditionFailed isNotImplemented}.

(** The service reads the source of a copy as a URL: a bucket and a key without escapes are themselves. *)
Hypothesis source_named : forall k, copyable k = true -> names (s_bucket r +:+ "/" +:+ k) = Some k.
Hypothesis prefix_plain : copyable (s_prefix r) = true.
(** Under its prefix the bucket holds what pgSafe wrote. *)
Hypothesis own_names : forall s p, is_Some (objects s !! keyFor r p) -> valid_key p = true.

Lemma keyFor_copyable p : copyable p = true -> copyable (keyFor r p) = true.
Proof. intros Hp. unfold keyFor. destruct (String.eqb _ _); [done|]. by rewrite !copyable_app, prefix_plain, Hp. Qed.

Lemma Delete_served p s : valid_key p = true -> let v := fun s => shown (s_prefix r) (objects s) in
  (forall q, q <> p -> v (snd (Delete r p s)) !! q = v s !! q) /\
  (forall s', Delete r p s = (Ok tt, s') -> v s' = delete p (v s)) /\
  (forall e s', Delete r p s = (Fail e, s') -> v s' = v s \/ v s' = delete p (v s)) /\
  (forall e s', Delete r p s = (Fail e, s') -> errors_Is e OsErrNotExist = true -> v s !! p = None).
Proof.
  intros _ v. unfold v, Delete. munfold. destruct (head_v (s_prefix r) p s) as (Hv & Hok & Hfail). cbv zeta in *.
  change (keyFor r p) with (rooted (s_prefix r) p). destruct (sdk_Head _ _ s) as [[a|e] s1]; cbn [fst snd] in *.
  - destruct (delete_v (s_prefix r) p s1) as (Hd & Hdok & Hdfail). cbv zeta in *. rewrite Hv in *.
    destruct (sdk_Delete _ _ s1) as [[[]|e] s2]; cbn [fst snd map_error] in *; split_and!; try done.
    + intros s' [= <-]. auto.
    + intros e' s' [= <- <-]. by destruct (Hdfail e eq_refl) as (_ & _ & ?).
    + intros e' s' [= <- <-] Hi. destruct (Hdfail e eq_refl) as [? _]. by rewrite plain_not in Hi by by apply plain_wrapped.
  - destruct (Hfail e eq_refl) as [Hp Hn]. destruct (isNotFound e); cbn [snd]; rewrite Hv;
      (split_and!; [done|done|intros e' s' [= <- <-]; rewrite Hv; by left|]); intros e' s' [= <- <-] Hi; [auto|].
    by rewrite plain_not in Hi by by apply plain_wrapped.
Qed.

Lemma s3_serves : serves (fun s => shown (s_prefix r) (objects s)) (Commit r) (Get r) (Stat r) (List r) (Delete r).
Proof.
  split.
  - intros t f s _ _ Hc Hne. apply (commit_shape (s_prefix r) "s3: Commit refuses to overwrite existing" "s3: HeadObject(final)" "s3: CopyObject"
      "s3: DeleteObject(tmp)" t f (copyObject r (keyFor r t) (keyFor r f)) s Hne).
    apply (retry_copies (s_prefix r)); [|done]. by apply source_named, keyFor_copyable.
  - intros p s _. apply (get_shape (s_prefix r)).
  - intros p s _. apply (stat_shape (s_prefix r)).
  - intros d s. apply (lists_spec (s_prefix r)); [exact own_names|]. apply (list_shape (s_prefix r)).
  - intros p s Hp. by apply Delete_served.
Qed.
End laws.

(** C39: the S3 driver is a storage: over a bucket that behaves as documented, its operations keep
    the contract of the interface, where the files are the objects under the prefix. Every theorem
    on a client of the interface holds for it. *)
Theorem s3_implements `{S3Errors} {S : Type} (r : bucket_store) `{L : ObjectLaws S (s_bucket r) isNotFound isPreconditionFailed isNotImplemented} :
  (forall k, copyable k = true -> names (s_bucket r +:+ "/" +:+ k) = Some k) -> copyable (s_prefix r) = true ->
  (forall s p, is_Some (objects s !! keyFor r p) -> valid_key p = true) ->
  exists laws : @BackendLaws (store S) (s3_backend r), @FlatLaws _ _ laws /\
    forall w p, @view _ _ laws w !! p = objects (d_sdk w) !! keyFor r p.
Proof.
  intros Hsource Hprefix Hown.
  exists (pipe_laws (s_prefix r) "s3: upload" "s3: relPath is required" _ _ _ _ _ (s3_serves r Hsource Hprefix Hown)).
  split; [apply pipe_flat|]. intros w p. apply shown_lookup.
Qed.

(** ** A bucket in memory *)

#[export] Instance cloud_s3_errors : S3Errors := {
  APIErrorCode err :=
    if String.eqb (err_msg err) "Precondition Failed" then Some "PreconditionFailed"
    else if bool_decide (err_msg err ∈ ["NotFound"; "NotImplemented"]) then Some (err_msg err) else None;
  as_NoSuchKey _ := false;
}.

#[local] Instance sample_sdk : ObjectSDK cloud := cloud_sdk "connection reset".

Definition sample_store : bucket_store := {| s_bucket := cloud_bucket; s_prefix := cloud_prefix |}.

(** Two writes under a temporary name, then the commit; the first answer to it is lost. *)
Definition sample_session : M (store cloud) string :=
  h <- Put sample_store "a.tmp" ;;
  Write h "one " ;;; Write h "two" ;;; Close h ;;;
  on_sdk (Commit sample_store "a.tmp" "a") ;;;
  on_sdk (Get sample_store "a").

Lemma s3_implements_witness : exists laws : @BackendLaws _ (s3_backend (S:=cloud) sample_store),
  (forall w p, @view _ _ laws w !! p = cloud_files (d_sdk w) !! keyFor sample_store p) /\
  fst (sample_session (store_with "connection reset" [] [])) = Ok "one two".
Proof.
  assert (Hreads : cloud_reads "connection reset" isNotFound isPreconditionFailed isNotImplemented) by (split_and!; reflexivity).
  destruct (@s3_implements _ cloud sample_store _ (cloud_laws _ _ _ _ Hreads)) as (laws & _ & Hlaws).
  - intros k _. apply cloud_source.
  - reflexivity.
  - exact cloud_own.
  - exists laws. split; [exact Hlaws|vm_compute; reflexivity].
Defined.
