(* ===== verification/MintSpec.v ===== *)
(** * What a minted credential can do

    The session policy of S3 as IAM reads it, the credential of every kind of storage, and the small
    functions of the tunnel. *)

From S2P Require Import Prelude Storage ObjectStore Cloud S3 Host Time Json JsonSpec Manifest ManifestSpec Config Creds Mint.

(** ** IAM *)

(** A pattern with [*] for any characters and [?] for one. *)
Fixpoint glob (fuel : nat) (p s : string) : bool :=
  match fuel with
  | O => false
  | S fuel =>
      match p, s with
      | "", "" => true
      | "", _ => false
      | String "*" p', "" => glob fuel p' ""
      | String "*" p', String _ s' => glob fuel p' s || glob fuel p s'
      | String _ _, "" => false
      | String c p', String d s' => (Ascii.eqb c "?" || Ascii.eqb c d) && glob fuel p' s'
      end
  end.

Definition glob_match (p s : string) : bool := glob (slen p + slen s + 1) p s.

Definition member (name : string) (j : json) : option json :=
  match j with Obj l => snd <$> List.find (fun kv => String.eqb (fst kv) name) l | _ => None end.

Definition is_str (s : string) (j : option json) : bool := match j with Some (Str t) => String.eqb s t | _ => false end.

(** Whether a statement of a policy document allows the action on the resource. *)
Definition statement_allows (action resource : string) (st : json) : bool :=
  is_str "Allow" (member "Effect" st) &&
  match member "Action" st with Some (Arr l) => existsb (fun j => is_str action (Some j)) l | _ => false end &&
  match member "Resource" st with Some (Str p) => glob_match p resource | _ => false end.

Definition policy_allows (text action resource : string) : bool :=
  match parse_first text with
  | Some (doc, _) => match member "Statement" doc with Some (Arr l) => existsb (statement_allows action resource) l | _ => false end
  | None => false
  end.

(** The name of an object. *)
Definition object_arn (bucket key : string) : string := "arn:aws:s3:::" +:+ bucket +:+ "/" +:+ key.

Definition no_wildcard (s : string) : bool := no_byte "*" s && no_byte "?" s.

Lemma glob_star fuel s : (slen s + 1 < fuel)%nat -> glob fuel "*" s = true.
Proof.
  revert s. induction fuel as [|fuel IH]; intros s Hf; [lia|]. destruct s as [|c s]; cbn [glob].
  - destruct fuel; [cbn in Hf; lia|done].
  - rewrite (IH s) by (cbn in Hf; lia). by rewrite orb_true_r.
Qed.

Lemma glob_literal p q s fuel : no_wildcard p = true -> (slen p + slen q + slen s < fuel)%nat -> exists fuel',
  (slen q + slen (sdrop (slen p) s) < fuel')%nat /\ glob fuel (p +:+ q) s = HasPrefix s p && glob fuel' q (sdrop (slen p) s).
Proof.
  revert s fuel. induction p as [|c p IH]; intros s fuel Hp Hf; [exists fuel; destruct s; cbn in *; (split; [lia|done])|].
  unfold no_wildcard, no_byte in Hp. cbn [sall] in Hp. rewrite !andb_true_iff, !negb_true_iff in Hp. destruct Hp as [[Hs Hp1] [Hq Hp2]].
  cbn [slen String.length] in Hf. destruct fuel as [|fuel]; [lia|]. cbn [String.append glob]. destruct s as [|d s].
  - exists (S fuel). split; [cbn in *; lia|]. by destruct c as [[] [] [] [] [] [] [] []].
  - destruct (IH s fuel) as (fuel' & Hf' & E); [unfold no_wildcard, no_byte; by rewrite Hp1, Hp2|cbn in *; lia|]. exists fuel'.
    split; [cbn in *; lia|]. rewrite HasPrefix_cons. cbn [slen String.length sdrop].
    assert (Hstar : forall A (x y : A), match c with "*"%char => x | _ => y end = y).
    { intros A x y. revert Hs. by destruct c as [[] [] [] [] [] [] [] []]. }
    rewrite Hstar, Hq, E. cbn [orb]. by rewrite andb_assoc.
Qed.

(** A pattern that ends in the only wildcard it has. *)
Lemma glob_prefix p s : no_wildcard p = true -> glob_match (p +:+ "*") s = HasPrefix s p.
Proof.
  intros Hp. unfold glob_match. destruct (glob_literal p "*" s (slen (p +:+ "*") + slen s + 1) Hp) as (fuel & Hf & ->).
  { rewrite slen_app. cbn. lia. }
  destruct (HasPrefix s p) eqn:E; [|done]. rewrite glob_star; [done|]. cbn in Hf. lia.
Qed.

Lemma policy_text_parses bucket prefix text : s3InlinePolicy bucket prefix = Ok text ->
  valid_utf8 (policy_resource bucket prefix) = true -> parse_first text = Some (policy_json bucket prefix, "").
Proof.
  intros [= <-] Hr. pose proof (parse_denotes (policy_json bucket prefix) (Marshal (policy_json bucket prefix)) "") as H.
  rewrite sapp_nil_r in H. apply H; [apply Marshal_denotes|done].
  assert (Hst : clean (Obj [("Action", Arr (map Str policy_actions)); ("Effect", Str "Allow"); ("Resource", Str (policy_resource bucket prefix))])).
  { apply clean_obj. constructor; [split; [reflexivity|]|constructor; [split; reflexivity|constructor; [split; [reflexivity|exact Hr]|constructor]]].
    apply clean_arr. constructor; [reflexivity|constructor; [reflexivity|constructor]]. }
  apply clean_obj. constructor; [split; [reflexivity|]|constructor; [split; reflexivity|constructor]].
  apply clean_arr. constructor; [exact Hst|constructor].
Qed.

Lemma policy_json_allows bucket prefix action resource : no_wildcard bucket = true -> no_wildcard prefix = true ->
  existsb (statement_allows action resource) [Obj [("Action", Arr (map Str policy_actions)); ("Effect", Str "Allow"); ("Resource", Str (policy_resource bucket prefix))]] =
  bool_decide (action ∈ policy_actions) && HasPrefix resource (object_arn bucket (if String.eqb prefix "" then "" else prefix +:+ "/")).
Proof.
  intros Hb Hp. cbn [existsb]. rewrite orb_false_r. unfold statement_allows. cbn [member List.find fst snd fmap option_fmap option_map String.eqb Ascii.eqb Bool.eqb is_str].
  assert (Hpat : policy_resource bucket prefix = object_arn bucket (if String.eqb prefix "" then "" else prefix +:+ "/") +:+ "*").
  { unfold policy_resource, object_arn. by rewrite !sapp_assoc. }
  rewrite Hpat, glob_prefix. 2:{ unfold object_arn, no_wildcard in *. rewrite !no_byte_app. apply andb_true_iff in Hb as [-> ->], Hp as [Hp1 Hp2]. destruct (String.eqb prefix ""); rewrite ?no_byte_app, ?Hp1, ?Hp2; done. }
  f_equal. unfold policy_actions. cbn [andb map existsb is_str]. rewrite orb_false_r. destruct (String.eqb_spec action "s3:PutObject") as [->|H1]; [reflexivity|].
  destruct (String.eqb_spec action "s3:AbortMultipartUpload") as [->|H2]; [reflexivity|]. symmetry. apply bool_decide_eq_false_2. set_solver.
Qed.

(** What the session policy allows: uploads below the prefix as it stands in the configuration, and a slash. *)
Lemma s3InlinePolicy_allows bucket prefix text action resource :
  no_wildcard bucket = true -> no_wildcard prefix = true -> valid_utf8 (policy_resource bucket prefix) = true ->
  s3InlinePolicy bucket prefix = Ok text ->
  policy_allows text action resource = true <->
  (action = "s3:PutObject" \/ action = "s3:AbortMultipartUpload") /\
  exists key, resource = object_arn bucket ((if String.eqb prefix "" then "" else prefix +:+ "/") +:+ key).
Proof.
  intros Hb Hp Hr Ht. unfold policy_allows. rewrite (policy_text_parses bucket prefix text Ht Hr).
  change (member "Statement" (policy_json bucket prefix)) with (Some (Arr [Obj [("Action", Arr (map Str policy_actions)); ("Effect", Str "Allow"); ("Resource", Str (policy_resource bucket prefix))]])).
  cbv iota beta. rewrite policy_json_allows, andb_true_iff, bool_decide_eq_true, HasPrefix_spec by done.
  unfold policy_actions, object_arn. split.
  - intros [Ha (key & ->)]. split; [set_solver|]. exists key. by rewrite !sapp_assoc.
  - intros [Ha (key & ->)]. split; [set_solver|]. exists key. by rewrite !sapp_assoc.
Qed.

(** What the driver asks for when it is opened and when it commits is not among it: [HeadBucket] needs
    [s3:ListBucket], [CopyObject] and [HeadObject] need [s3:GetObject], [DeleteObject] its own. *)
Lemma policy_denies_the_driver bucket prefix text resource : no_wildcard bucket = true -> no_wildcard prefix = true ->
  valid_utf8 (policy_resource bucket prefix) = true -> s3InlinePolicy bucket prefix = Ok text ->
  Forall (fun action => policy_allows text action resource = false) ["s3:ListBucket"; "s3:GetObject"; "s3:DeleteObject"].
Proof.
  intros Hb Hp Hr Ht. unfold policy_allows. rewrite (policy_text_parses bucket prefix text Ht Hr).
  change (member "Statement" (policy_json bucket prefix)) with (Some (Arr [Obj [("Action", Arr (map Str policy_actions)); ("Effect", Str "Allow"); ("Resource", Str (policy_resource bucket prefix))]])).
  repeat (apply Forall_cons; split); [cbv iota beta; by rewrite policy_json_allows by done..|constructor].
Qed.

(** ** The credential of every kind of storage *)

Section minted.
Context {W : Type} `{Minting W, Backend W, Host W}.

Definition type_of_storage (ty : string) : string :=
  if String.eqb ty "s3" then TypeS3STS else if String.eqb ty "azure" then TypeAzureSAS
  else if String.eqb ty "gcs" then TypeGCSToken else if String.eqb ty "sftp" then TypeSFTPKey else TypeNone.

(** A minted credential is one of the storage and validates. *)
Lemma mintForBackend_valid (Now : W -> time) sc w c w' : mintForBackend Now sc w = (Ok c, w') ->
  cr_Type c = type_of_storage (st_Type sc) /\ cred_Validate c = Ok tt.
Proof.
  unfold mintForBackend, type_of_storage, deref_or_panic. cbv zeta. generalize (st_Type sc). intros ty.
  destruct (String.eqb_spec ty "posix") as [->|_]; [by intros [= <- <-]|].
  destruct (String.eqb_spec ty "s3") as [->|_].
  { unfold bind at 1, read. destruct (String.eqb _ ""); [done|]. destruct (st_S3 sc) as [cfg|]; [|done]. unfold bind at 1, ret at 1, MintS3STS. intros Hrun.
    repeat (apply bind_inv_Ok in Hrun as (? & ? & _ & Hrun)). case_match; [|done]. by injection Hrun as <- <-. }
  destruct (String.eqb_spec ty "azure") as [->|_].
  { destruct (st_Azure sc) as [cfg|]; [|done]. unfold bind at 1, ret at 1, MintAzureSAS. destruct (_ || _); [done|]. destruct (String.eqb _ ""); [done|]. intros Hrun.
    repeat (apply bind_inv_Ok in Hrun as (? & ? & _ & Hrun)). destruct (String.eqb _ ""); [done|]. apply bind_inv_Ok in Hrun as (? & ? & _ & Hrun). by injection Hrun as <- <-. }
  destruct (String.eqb_spec ty "gcs") as [->|_].
  { unfold bind at 1, read. destruct (String.eqb _ ""); [done|]. destruct (st_GCS sc) as [cfg|]; [|done]. unfold bind at 1, ret at 1, MintGCSToken.
    destruct (String.eqb _ ""); [done|]. destruct (String.eqb _ ""); [done|]. intros Hrun.
    repeat (apply bind_inv_Ok in Hrun as (? & ? & _ & Hrun)). by injection Hrun as <- <-. }
  destruct (String.eqb_spec ty "sftp") as [->|_]; [|done].
  destruct (st_SFTP sc) as [cfg|]; [|done]. unfold bind at 1, ret at 1, MintSFTPKey. destruct (String.eqb _ ""); [done|]. intros Hrun.
  apply bind_inv_Ok in Hrun as (? & ? & _ & Hrun). by injection Hrun as <- <-.
Qed.
End minted.

(** ** The tunnel *)

Lemma byte_at_range s i : 0 <= byte_at s i < 256.
Proof. unfold byte_at. destruct (sget s i); [apply byte_val_range|lia]. Qed.

(** The bits of two numbers that do not overlap. *)
Lemma lor_shiftl a b n : 0 <= n -> 0 <= b < 2 ^ n -> Z.lor (Z.shiftl a n) b = a * 2 ^ n + b.
Proof.
  intros Hn Hb. rewrite <- Z.shiftl_mul_pow2 by done. rewrite <- Z.add_lor_land.
  enough (Z.land (Z.shiftl a n) b = 0) as -> by lia. apply Z.bits_inj'. intros i Hi. rewrite Z.land_spec, Z.bits_0.
  destruct (Z.lt_ge_cases i n); [by rewrite Z.shiftl_spec_low|].
  rewrite <- (Z.mod_small b (2 ^ n)) by done. rewrite Z.mod_pow2_bits_high by lia. by rewrite andb_false_r.
Qed.

Lemma port_of_bytes b : port_of b = 49152 + (byte_at b 0 * 256 + byte_at b 1) mod 16384.
Proof. unfold port_of. rewrite lor_shiftl by (lia || apply byte_at_range). done. Qed.

(** A port of the dynamic range, and each of them for as many of the pairs of bytes. *)
Lemma port_of_range b : 49152 <= port_of b <= 65535.
Proof. rewrite port_of_bytes. pose proof (Z.mod_pos_bound (byte_at b 0 * 256 + byte_at b 1) 16384). lia. Qed.

Definition draws (port : Z) : list Z := List.filter (fun r => 49152 + r mod 16384 =? port) (map Z.of_nat (seq 0 (Z.to_nat 65536))).

Lemma draws_spec port r : 49152 <= port <= 65535 ->
  r ∈ draws port <-> r ∈ (fun k => port - 49152 + 16384 * k) <$> [0; 1; 2; 3].
Proof.
  intros Hp. unfold draws. rewrite list_elem_of_In, filter_In, in_map_iff, Z.eqb_eq. cbn [fmap list_fmap]. rewrite !elem_of_cons, elem_of_nil. split.
  - intros [(n & <- & Hn%in_seq) E]. pose proof (Z.div_mod (Z.of_nat n) 16384). pose proof (Z.mod_pos_bound (Z.of_nat n) 16384).
    assert (0 <= Z.of_nat n / 16384 < 4) by (split; [apply Z.div_pos|apply Z.div_lt_upper_bound]; lia). lia.
  - intros Hr. assert (Hk : exists k, 0 <= k < 4 /\ r = (port - 49152) + k * 16384).
    { destruct Hr as [->|[->|[->|[->|[]]]]]; [exists 0|exists 1|exists 2|exists 3]; lia. }
    destruct Hk as (k & Hk & ->). split; [exists (Z.to_nat (port - 49152 + k * 16384)); split; [lia|apply in_seq; lia]|].
    rewrite Z.mod_add, Z.mod_small by lia. lia.
Qed.

Lemma differing_spec v a b : slen a = slen b -> differing v a b = 0 <-> v = 0 /\ a = b.
Proof.
  revert v b. induction a as [|x a IH]; intros v [|y b] Hl; try done; [cbn; naive_solver|]. cbn [differing]. rewrite IH by (cbn in Hl; lia).
  rewrite Z.lor_eq_0_iff, Z.lxor_eq_0_iff. split; [intros [[-> E%byte_val_inj] ->]; by rewrite E|]. by intros [-> [= -> ->]].
Qed.

(** The key of a client is compared as a whole. *)
Lemma subtleByteEq_eq a b : subtleByteEq a b = true <-> a = b.
Proof.
  unfold subtleByteEq. destruct (Nat.eqb_spec (slen a) (slen b)) as [E|E]; cbn [negb]; [|split; [done|by intros ->]].
  rewrite Z.eqb_eq, differing_spec by done. naive_solver.
Qed.

Lemma payload_len_be p : payload_len p = ((byte_at p 0 * 256 + byte_at p 1) * 256 + byte_at p 2) * 256 + byte_at p 3.
Proof.
  unfold payload_len. pose proof (byte_at_range p 0). pose proof (byte_at_range p 1). pose proof (byte_at_range p 2). pose proof (byte_at_range p 3).
  rewrite <- !Z.lor_assoc. rewrite (lor_shiftl (byte_at p 2)), (lor_shiftl (byte_at p 1)), (lor_shiftl (byte_at p 0)) by lia. lia.
Qed.

(** A session serves files exactly when the first subsystem it is asked for is [sftp]; whatever else it is
    asked for before that is refused. *)
Lemma handleSession_serves reqs : snd (handleSession reqs) = true <-> exists before r after,
  reqs = before ++ r :: after /\ Forall (fun q => sq_Type q <> "subsystem") before /\ sq_Type r = "subsystem" /\
  (4 <= slen (sq_Payload r))%nat /\ payload_len (sq_Payload r) + 4 <= Z.of_nat (slen (sq_Payload r)) /\
  stake (Z.to_nat (payload_len (sq_Payload r))) (sdrop 4 (sq_Payload r)) = "sftp".
Proof.
  induction reqs as [|q reqs IH]; [split; [done|intros ([|? ?] & ? & ? & ? & _); done]|]. cbn [handleSession].
  destruct (String.eqb_spec (sq_Type q) "subsystem") as [Hq|Hq].
  - cbv zeta. destruct (Nat.ltb_spec (slen (sq_Payload q)) 4), (Z.ltb_spec (Z.of_nat (slen (sq_Payload q))) (payload_len (sq_Payload q) + 4)),
      (String.eqb_spec (stake (Z.to_nat (payload_len (sq_Payload q))) (sdrop 4 (sq_Payload q))) "sftp"); cbn [negb snd].
    all: split; [intros Hs; try done; exists [], q, reqs; split_and!; done || lia|]; intros ([|b before] & r & after & [= <- Hr] & Hb & Ht & H1 & H2 & H3);
      [done || lia|apply Forall_cons in Hb as [? _]; done].
  - destruct (handleSession reqs) as [replies served]. cbn [snd] in *. replace (snd (if sq_WantReply q then false :: replies else replies, served)) with served by done.
    rewrite IH. split.
    + intros (before & r & after & -> & Hb & Hr). exists (q :: before), r, after. split_and!; [done|by constructor|apply Hr..].
    + intros ([|b before] & r & after & [= <- Er] & Hb & Ht & Hr); [done|]. exists before, r, after. apply Forall_cons in Hb as [_ Hb]. by split_and!; try apply Hr.
Qed.

(** ** The policy against the keys of the driver

    The policy is made from the prefix of the configuration, and the driver of [internal/storage/s3] writes below the prefix
    [New] makes of it: where the two agree, and where they do not. *)

(** The options the driver is opened with for a storage of the configuration. *)
Definition driver_options (bucket prefix : string) : S3.Options := {| S3.o_Client := true; S3.o_Bucket := bucket; S3.o_Prefix := prefix |}.

Lemma TrimSuffix_none s p : HasSuffix s p = false -> TrimSuffix s p = s.
Proof. intros H. unfold TrimSuffix. by rewrite H. Qed.

(** C26: where the prefix of the storage is not written with a slash at its end, the policy that narrows the token of the
    worker allows exactly uploads (PutObject and AbortMultipartUpload) of the objects the S3 driver of that storage
    writes, those below its prefix, and no other action or object. With the slash, as README.md has it, the driver
    trims the prefix and the policy does not: it denies every upload ([trailing_slash_denied]). *)
Theorem s3InlinePolicy_scoped bucket prefix r text action resource :
  no_wildcard bucket = true -> no_wildcard prefix = true -> valid_utf8 (policy_resource bucket prefix) = true -> HasSuffix prefix "/" = false ->
  S3.New (driver_options bucket prefix) = Ok r -> s3InlinePolicy bucket prefix = Ok text ->
  policy_allows text action resource = true <->
  (action = "s3:PutObject" \/ action = "s3:AbortMultipartUpload") /\ exists relPath, resource = object_arn (s_bucket r) (keyFor r relPath).
Proof.
  intros Hb Hp Hu Hs Hnew Ht. rewrite (s3InlinePolicy_allows bucket prefix text action resource Hb Hp Hu Ht).
  unfold S3.New, driver_options in Hnew. cbn [S3.o_Client S3.o_Bucket S3.o_Prefix negb] in Hnew.
  destruct (String.eqb bucket ""); [done|]. injection Hnew as <-. unfold keyFor. cbn [s_bucket s_prefix]. rewrite (TrimSuffix_none _ _ Hs).
  destruct (String.eqb prefix ""); split; intros [? (key & ->)]; (split; [done|]); exists key; by rewrite ?sapp_assoc.
Qed.

Lemma s3InlinePolicy_scoped_witness : exists r text, S3.New (driver_options "backups" "db") = Ok r /\ s3InlinePolicy "backups" "db" = Ok text /\
  policy_allows text "s3:PutObject" (object_arn "backups" (keyFor r "20260401T100000F/PG_VERSION")) = true /\
  (policy_allows text "s3:PutObject" (object_arn "backups" "other/x") = true -> False).
Proof.
  eexists _, _. split; [reflexivity|]. split; [reflexivity|]. split.
  - apply (s3InlinePolicy_scoped "backups" "db" _ _ _ _ eq_refl eq_refl eq_refl eq_refl eq_refl eq_refl). split; [by left|]. by exists "20260401T100000F/PG_VERSION".
  - intros H. apply (s3InlinePolicy_scoped "backups" "db" _ _ _ _ eq_refl eq_refl eq_refl eq_refl eq_refl eq_refl) in H as [_ (key & E)]. discriminate E.
Defined.

(** With the prefix as README.md writes it, [prod/], the driver writes prod/..., and the policy names prod//...: whatever the driver
    uploads is denied. *)
Lemma trailing_slash_denied text r relPath :
  s3InlinePolicy "backups" "prod/" = Ok text -> S3.New (driver_options "backups" "prod/") = Ok r -> HasPrefix relPath "/" = false ->
  keyFor r relPath = "prod/" +:+ relPath /\ policy_allows text "s3:PutObject" (object_arn "backups" (keyFor r relPath)) = false.
Proof.
  intros Ht [= <-] Hr. change (keyFor _ relPath) with ("prod/" +:+ relPath). split; [done|]. apply not_true_iff_false.
  rewrite (s3InlinePolicy_allows "backups" "prod/" text _ _ eq_refl eq_refl eq_refl Ht). intros [_ (key & E)]. injection E as E.
  rewrite E in Hr. change ("/" +:+ key) with (String "/" key) in Hr. by rewrite HasPrefix_cons, HasPrefix_nil in Hr.
Qed.
