(* ===== verification/Lock.v ===== *)
(** * The server lock

    [internal/lock] and [cmd/pgsafe/lock.go]: processes that take [flock] on a lock file in
    either mode, wait for it with a deadline, and lose it when they release it or die. *)

From S2P Require Import Prelude Storage Host Config.

(** ** Modes *)

(** [Mode] *)
Inductive Mode := Shared | Exclusive.

#[export] Instance Mode_eq_dec : EqDecision Mode.
Proof. solve_decision. Defined.

(** [Mode.String] *)
Definition Mode_String (m : Mode) : string := match m with Shared => "shared" | Exclusive => "exclusive" end.

Definition lock_timeout : error := errors_Sentinel ErrLockTimeout "lock: acquisition timed out".

(** ** Processes *)

(** One call of [Acquire]: its arguments, when it began, its deadline, and how often it has
    called [flock]. *)
Record request := Request {
  q_path : string;
  q_mode : Mode;
  q_timeout : Z;
  q_start : Z;
  q_deadline : Z;
  q_tries : nat;
}.

(** A process with its [PosixLock]: [fd] is nil; [Acquire] is about to call [flock], or is in its
    [select]; the lock is held. *)
Inductive process :=
| Unlocked (last : option error)
| Trying (q : request)
| Waiting (q : request)
| Holding (path : string) (mode : Mode).

Record system := System {
  s_now : Z;
  s_procs : gmap nat process;
  s_text : gmap string string;   (* what the lock files say *)
}.

Definition pause : Z := 100 * Millisecond.

(** How far writing the holder's identity gets; its errors are ignored. *)
Inductive diagnostics := Written | Truncated | Untouched.

Definition diagnose (d : diagnostics) (body path : string) (text : gmap string string) : gmap string string :=
  match d with Written => <[path := body]> text | Truncated => <[path := ""]> text | Untouched => text end.

Definition holder_body (hostname : string) (pid : nat) (mode : Mode) (now : Z) : string :=
  hostname +:+ ":" +:+ FormatD (Z.of_nat pid) +:+ ":" +:+ Mode_String mode +:+ ":" +:+ FormatD (now / Second) +:+ nl.

Inductive action :=
| Begin (pid : nat) (path : string) (mode : Mode) (timeout : Z)   (* the call of Acquire *)
| Flock (pid : nat) (hostname : string) (d : diagnostics)         (* flock, and what follows a success *)
| FlockFails (pid : nat) (err : error)                            (* flock with another error *)
| Wake (pid : nat) (elapsed : Z)                                  (* time.After fires *)
| Cancel (pid : nat) (err : error)                                (* ctx.Done *)
| Release (pid : nat)
| Die (pid : nat).

(** [flock(2)] with [LOCK_NB]: granted when no other process holds the file in a conflicting mode. *)
Definition conflicts (path : string) (mode : Mode) (p : process) : bool :=
  match p with
  | Holding path' mode' => String.eqb path path' && negb (bool_decide (mode = Shared) && bool_decide (mode' = Shared))
  | _ => false
  end.

Definition granted (path : string) (mode : Mode) (procs : gmap nat process) : bool :=
  forallb (fun kv => negb (conflicts path mode kv.2)) (map_to_list procs).

Definition set_proc (pid : nat) (p : process) (s : system) : system :=
  System (s_now s) (<[pid := p]> (s_procs s)) (s_text s).

Definition exec (a : action) (s : system) : option system :=
  match a with
  | Begin pid path mode timeout =>
      match s_procs s !! pid with
      | None | Some (Unlocked _) =>
          let deadline := if 0 <? timeout then s_now s + timeout else 0 in
          Some (set_proc pid (Trying (Request path mode timeout (s_now s) deadline 0)) s)
      | Some (Holding _ _) => Some s    (* "lock: already held" *)
      | Some _ => None
      end
  | Flock pid hostname d =>
      match s_procs s !! pid with
      | Some (Trying q) =>
          let q := Request (q_path q) (q_mode q) (q_timeout q) (q_start q) (q_deadline q) (S (q_tries q)) in
          if granted (q_path q) (q_mode q) (s_procs s) then
            let body := holder_body hostname pid (q_mode q) (s_now s) in
            Some (System (s_now s) (<[pid := Holding (q_path q) (q_mode q)]> (s_procs s))
                         (diagnose d body (q_path q) (s_text s)))
          else Some (set_proc pid (Waiting q) s)
      | _ => None
      end
  | FlockFails pid err =>
      match s_procs s !! pid with
      | Some (Trying q) => Some (set_proc pid (Unlocked (Some (Errorf_w "lock: flock" err))) s)
      | _ => None
      end
  | Wake pid elapsed =>
      match s_procs s !! pid with
      | Some (Waiting q) =>
          if elapsed <? pause then None
          else
            let now := s_now s + elapsed in
            let p := if (0 <? q_timeout q) && (q_deadline q <? now)
                     then Unlocked (Some lock_timeout) else Trying q in
            Some (System now (<[pid := p]> (s_procs s)) (s_text s))
      | _ => None
      end
  | Cancel pid err =>
      match s_procs s !! pid with
      | Some (Waiting q) => Some (set_proc pid (Unlocked (Some (Errorf_w "lock" err))) s)
      | _ => None
      end
  | Release pid =>
      match s_procs s !! pid with
      | Some (Holding _ _) => Some (set_proc pid (Unlocked None) s)
      | Some (Unlocked last) => Some s
      | _ => None
      end
  | Die pid => Some (System (s_now s) (delete pid (s_procs s)) (s_text s))
  end.

(** The states that processes can reach from a host without locks. *)
Inductive reachable (now : Z) : system -> Prop :=
| reachable_init text : reachable now (System now ∅ text)
| reachable_step s a s' : reachable now s -> exec a s = Some s' -> reachable now s'.

(** ** Exclusion *)

Definition holds (s : system) (pid : nat) (path : string) (mode : Mode) : Prop :=
  s_procs s !! pid = Some (Holding path mode).

Definition exclusion (s : system) : Prop := forall i j path m m',
  i <> j -> holds s i path m -> holds s j path m' -> m = Shared /\ m' = Shared.

Lemma granted_spec path mode procs pid path' mode' : granted path mode procs = true ->
  procs !! pid = Some (Holding path' mode') -> path' = path -> mode = Shared /\ mode' = Shared.
Proof.
  unfold granted. rewrite forallb_forall. intros Hall Hp ->. specialize (Hall (pid, Holding path mode')).
  rewrite <- list_elem_of_In, elem_of_map_to_list in Hall. specialize (Hall Hp). cbn in Hall.
  rewrite String.eqb_refl, andb_true_l, negb_involutive in Hall. apply andb_true_iff in Hall as [H1 H2].
  apply bool_decide_eq_true in H1, H2. done.
Qed.

(** A process that does not end up with the lock cannot break the exclusion. *)
Lemma exclusion_set s now pid p text : (forall path mode, p <> Holding path mode) -> exclusion s ->
  exclusion (System now (<[pid := p]> (s_procs s)) text).
Proof.
  intros Hp Hs i j path m m' Hne Hi Hj. unfold holds in *. cbn in *.
  apply lookup_insert_Some in Hi as [[<- E]|[Hni Hi]]; [by apply Hp in E|].
  apply lookup_insert_Some in Hj as [[<- E]|[Hnj Hj]]; [by apply Hp in E|]. by eapply (Hs i j).
Qed.

Lemma exclusion_grant s pid path mode text : granted path mode (s_procs s) = true -> exclusion s ->
  exclusion (System (s_now s) (<[pid := Holding path mode]> (s_procs s)) text).
Proof.
  intros Hg Hs i j path' m m' Hne Hi Hj. unfold holds in *. cbn in *.
  apply lookup_insert_Some in Hi as [[<- [= <- <-]]|[Hni Hi]]; apply lookup_insert_Some in Hj as [[<- E]|[Hnj Hj]].
  - done.
  - by eapply granted_spec.
  - injection E as -> ->. apply and_comm. by eapply granted_spec.
  - by eapply (Hs i j).
Qed.

Lemma exec_exclusion a s s' : exclusion s -> exec a s = Some s' -> exclusion s'.
Proof.
  intros Hs He. destruct a as [pid path mode timeout|pid hostname d|pid err|pid el|pid err|pid|pid]; cbn [exec] in He.
  7: { injection He as <-. intros i j path m m' Hne Hi Hj. unfold holds in *. cbn in *.
       apply lookup_delete_Some in Hi as [_ Hi], Hj as [_ Hj]. by eapply (Hs i j). }
  all: destruct (s_procs s !! pid) as [[last|q|q|path' mode']|]; try done;
    try (injection He as <-; (done || by apply exclusion_set)).
  - cbv zeta in He. destruct (granted _ _ _) eqn:Hg; injection He as <-; [by apply exclusion_grant|by apply exclusion_set].
  - destruct (el <? pause); [done|]. injection He as <-. apply exclusion_set; [|done]. by case_match.
Qed.

(** C29: of the processes that hold the lock of a server at one time, either all are shared or
    there is only one, whatever happened before: waits, timeouts, cancellations, releases
    and deaths. So a prune never runs beside a backup that took the same lock. *)
Theorem lock_exclusion now s : reachable now s ->
  forall i j path m m', i <> j -> holds s i path m -> holds s j path m' -> m = Shared /\ m' = Shared.
Proof.
  intros Hr. change (exclusion s). induction Hr as [text|s a s' Hr IH He].
  - intros i j path m m' _ Hi _. unfold holds in Hi. cbn in Hi. by rewrite lookup_empty in Hi.
  - by eapply exec_exclusion.
Qed.

(** ** How long a call waits *)

(** Every try but the last was followed by a pause that ended before the deadline. *)
Definition request_ok (now : Z) (waiting : bool) (q : request) : Prop :=
  q_start q <= now /\ (0 < q_timeout q -> q_deadline q = q_start q + q_timeout q) /\
  let pauses := (q_tries q - if waiting then 1 else 0)%nat in
  q_start q + Z.of_nat pauses * pause <= now /\ (waiting = true -> (0 < q_tries q)%nat) /\
  (0 < q_timeout q -> (0 < pauses)%nat -> Z.of_nat pauses * pause <= q_timeout q).

Definition requests_ok (s : system) : Prop := forall pid,
  match s_procs s !! pid with
  | Some (Trying q) => request_ok (s_now s) false q
  | Some (Waiting q) => request_ok (s_now s) true q
  | Some (Unlocked _) | Some (Holding _ _) | None => True
  end.

Lemma request_ok_later now now' b q : now <= now' -> request_ok now b q -> request_ok now' b q.
Proof. unfold request_ok. intros Hle (H1 & H2 & H3 & H4 & H5). split_and!; [lia|done|lia|done|done]. Qed.

Lemma requests_ok_set s now pid p text : s_now s <= now ->
  match p with Trying q => request_ok now false q | Waiting q => request_ok now true q | _ => True end ->
  requests_ok s -> requests_ok (System now (<[pid := p]> (s_procs s)) text).
Proof.
  intros Hle Hp Hs k. cbn. destruct (decide (pid = k)) as [->|Hne].
  - rewrite lookup_insert_eq. by destruct p.
  - rewrite lookup_insert_ne by done. specialize (Hs k). destruct (s_procs s !! k) as [[]|]; try done; by eapply request_ok_later.
Qed.

Lemma exec_requests_ok a s s' : requests_ok s -> exec a s = Some s' -> requests_ok s'.
Proof.
  intros Hs He. destruct a as [pid path mode timeout|pid hostname d|pid err|pid el|pid err|pid|pid]; cbn [exec] in He.
  7: { injection He as <-. intros k. cbn. destruct (decide (pid = k)) as [->|Hne]; [by rewrite lookup_delete_eq|].
       rewrite lookup_delete_ne by done. apply Hs. }
  all: specialize (Hs pid) as Hp; destruct (s_procs s !! pid) as [[last|q|q|path' mode']|]; try done;
    try (injection He as <-; (done || by apply requests_ok_set)).
  1, 2: injection He as <-; apply requests_ok_set; [lia| |done]; unfold request_ok; cbn; split_and!; try lia; try done;
    intros Ht; apply Z.ltb_lt in Ht; by rewrite Ht.
  - cbv zeta in He. destruct (granted _ _ _); injection He as <-; apply requests_ok_set; try done; [lia..|].
    destruct Hp as (H1 & H2 & H3 & H4 & H5). unfold request_ok. cbn. rewrite !Nat.sub_0_r in *. split_and!; try done; lia.
  - destruct (Z.ltb_spec el pause) as [|Hel]; [done|]. injection He as <-. unfold pause, Millisecond in Hel.
    apply requests_ok_set; [lia| |done]. destruct (_ && _) eqn:Hd; [done|].
    destruct Hp as (H1 & H2 & H3 & H4 & H5). specialize (H4 eq_refl). unfold request_ok. cbn in *. rewrite !Nat.sub_0_r.
    assert (Hpauses : q_start q + Z.of_nat (q_tries q) * pause <= s_now s + el) by (unfold pause, Millisecond in *; lia).
    split_and!; [lia|done|done|done|]. intros Ht _. specialize (H2 Ht). apply andb_false_iff in Hd as [Hd%Z.ltb_ge|Hd%Z.ltb_ge]; lia.
Qed.

(** C33: an [Acquire] with a timeout asks for the lock at most once per tenth of a second of its
    timeout and once more: it never blocks for good. *)
Theorem Acquire_bounded now s pid q :
  reachable now s -> (s_procs s !! pid = Some (Trying q) \/ s_procs s !! pid = Some (Waiting q)) ->
  0 < q_timeout q -> Z.of_nat (q_tries q) <= q_timeout q / pause + 1.
Proof.
  intros Hr Hq Ht. assert (Hok : requests_ok s).
  { clear Hq. induction Hr as [text|s a s' Hr IH He]; [|by eapply exec_requests_ok]. intros k. cbn. by rewrite lookup_empty. }
  specialize (Hok pid).
  assert (Hle : Z.of_nat (q_tries q - 1) * pause <= q_timeout q).
  { destruct Hq as [Hq|Hq]; rewrite Hq in Hok; destruct Hok as (_ & _ & _ & _ & H5); cbn in H5; rewrite ?Nat.sub_0_r in H5.
    - destruct (q_tries q) as [|n]; [cbn; lia|]. specialize (H5 Ht ltac:(lia)). unfold pause, Millisecond in *. lia.
    - destruct (decide (q_tries q - 1 = 0)%nat) as [->|]; [lia|]. apply H5; [done|lia]. }
  assert (Z.of_nat (q_tries q - 1) <= q_timeout q / pause) by (apply Z.div_le_lower_bound; unfold pause, Millisecond in *; lia). lia.
Qed.

(** ** The lock of a server *)

(** [serverLockPath] *)
Definition serverLockPath (cfg : StorageConfig) (server : string) : string :=
  let name := ".pgsafe-server-" +:+ server +:+ ".lock" in
  if String.eqb (st_Type cfg) "posix" then path_Join [st_Path cfg; name]
  else path_Join ["/tmp"; "pgsafe-server-" +:+ server +:+ ".lock"].

(** The exit status [acquireServerLock] gives an error of [Acquire]. *)
Definition lock_exit (err : error) : Z := if errors_Is err ErrLockTimeout then 9 else 1.

(** ** Two processes *)

(** A backup holds the lock, and a prune with a timeout of a quarter of a second still waits
    for it after two pauses. *)
Definition sample_actions : list action :=
  [Begin 1 "/srv/l" Exclusive 0; Flock 1 "host" Written;
   Begin 2 "/srv/l" Exclusive (250 * Millisecond); Flock 2 "host" Written; Wake 2 pause; Flock 2 "host" Written;
   Wake 2 pause; Flock 2 "host" Written].

Definition run_actions (l : list action) (s : system) : option system :=
  foldl (fun s a => s ≫= exec a) (Some s) l.

Definition sample_locks : system := match run_actions sample_actions (System 0 ∅ ∅) with Some s => s | None => System 0 ∅ ∅ end.

Lemma reachable_run now l s s' : reachable now s -> run_actions l s = Some s' -> reachable now s'.
Proof.
  unfold run_actions. revert s. induction l as [|a l IH]; intros s Hr; cbn; [by intros [= <-]|].
  destruct (exec a s) as [s1|] eqn:E; cbn.
  - apply IH. by eapply reachable_step.
  - intros Hn. exfalso. revert Hn. clear. induction l as [|a l IH]; cbn; [done|exact IH].
Qed.

Lemma sample_locks_reachable : reachable 0 sample_locks.
Proof. apply (reachable_run 0 sample_actions (System 0 ∅ ∅)); [constructor|vm_compute; reflexivity]. Qed.

Definition sample_request : request := Request "/srv/l" Exclusive (250 * Millisecond) 0 (250 * Millisecond) 3.

Lemma sample_waiting : s_procs sample_locks !! 2%nat = Some (Waiting sample_request).
Proof. vm_compute. reflexivity. Qed.

Lemma Acquire_bounded_witness : Z.of_nat (q_tries sample_request) <= 250 * Millisecond / pause + 1.
Proof. exact (Acquire_bounded 0 sample_locks 2 sample_request sample_locks_reachable (or_intror sample_waiting) eq_refl). Defined.

(** Two readers at once. *)
Definition sample_readers : system :=
  match run_actions [Begin 1 "/srv/l" Shared 0; Flock 1 "host" Written; Begin 2 "/srv/l" Shared 0; Flock 2 "host" Written]
          (System 0 ∅ ∅) with Some s => s | None => System 0 ∅ ∅ end.

Lemma lock_exclusion_witness : exists m m', holds sample_readers 1 "/srv/l" m /\ holds sample_readers 2 "/srv/l" m' /\ m = Shared /\ m' = Shared.
Proof.
  exists Shared, Shared. assert (H1 : holds sample_readers 1 "/srv/l" Shared) by (vm_compute; reflexivity).
  assert (H2 : holds sample_readers 2 "/srv/l" Shared) by (vm_compute; reflexivity). split; [exact H1|]. split; [exact H2|].
  refine (lock_exclusion 0 sample_readers _ 1%nat 2%nat "/srv/l" Shared Shared _ H1 H2); [|discriminate].
  apply (reachable_run 0 [Begin 1 "/srv/l" Shared 0; Flock 1 "host" Written; Begin 2 "/srv/l" Shared 0; Flock 2 "host" Written] (System 0 ∅ ∅));
    [constructor|vm_compute; reflexivity].
Defined.

(** That prune gives up at its next wake-up, with exit status 9. *)
Example sample_timeout : exists s, exec (Wake 2 pause) sample_locks = Some s /\
  s_procs s !! 2%nat = Some (Unlocked (Some lock_timeout)) /\ lock_exit lock_timeout = 9.
Proof. vm_compute. eexists. split_and!; reflexivity. Qed.
