(* ===== verification/Bracket.v ===== *)
(** * The WAL of a backup

    What a backup asks PostgreSQL and the archive before and after it reads the cluster:
    [internal/backup/wallag.go], [walsource.go], [probe.go], [standby.go], [parsers.go] and
    [identity.go]. *)

From S2P Require Import Prelude Sha256 Lsn Wal Storage Host Time Json Manifest Worlds Archive.

(** ** PostgreSQL *)

(** [identity.Identity] *)
Record ClusterIdentity := { id_SystemIdentifier : Z; id_Timeline : Z; id_CheckpointLSN : LSN; id_WALSegmentSize : Z }.

(** The queries, each with the error of the connection. *)
Class Pg (W : Type) := {
  pg_create_restore_point : string -> M W unit;
  pg_sealed_segment : M W string;             (* pg_walfile_name of the position before pg_switch_wal *)
  pg_switch_wal : M W string;
  pg_is_in_recovery : M W bool;
  pg_last_wal_replay_lsn : M W string;
  pg_wal_receivers : M W Z;
  pg_restore_command : M W string;
  pg_identity : M W ClusterIdentity;
}.

(** What other processes do to the storage meanwhile: they archive WAL. *)
Definition wal_key (q : string) : Prop := HasPrefix q "wal/" = true.
Definition quiet `{BackendLaws W} {A} (m : M W A) : Prop := preserves (same_outside wal_key) m.

Class PgLaws (W : Type) `{BackendLaws W, Clock W, Pg W} := {
  restore_point_quiet name : quiet (pg_create_restore_point name);
  sealed_segment_quiet : quiet pg_sealed_segment;
  switch_wal_quiet : quiet pg_switch_wal;
  in_recovery_quiet : quiet pg_is_in_recovery;
  replay_lsn_quiet : quiet pg_last_wal_replay_lsn;
  receivers_quiet : quiet pg_wal_receivers;
  restore_command_quiet : quiet pg_restore_command;
  identity_quiet : quiet pg_identity;
  sleep_quiet d : quiet (time_Sleep d);
}.

(** ** Waiting for segments *)

Definition out_of_fuel : error := errors_New "out of fuel".

Section wait.
Context {W : Type} `{Backend W, Clock W}.

(** [missingSegments] *)
Definition missingSegments (timeline : Z) (segments : list string) : M W (list string) :=
  forM segments [] (fun out name =>
    found <- FindSegment timeline name ;;
    ret (match found with Some _ => out | None => out ++ [name] end)).

Definition wait_timeout : error := errors_Sentinel ErrWALWait "backup: WAL-wait: timeout".

(** The loop of [WaitForWAL]; [None] when the fuel does not last. *)
Fixpoint wait_loop (fuel : nat) (timeline : Z) (segments : list string) (deadline delay : Z) (w : W)
  : option (result unit * W) :=
  match fuel with
  | O => None
  | S fuel =>
      match wrapping "WAL-wait" (missingSegments timeline segments) w with
      | (Fail err, w) => Some (Fail err, w)
      | (Ok [], w) => Some (Ok tt, w)
      | (Ok (_ :: _), w) =>
          if deadline <? time_Now w then Some (Fail wait_timeout, w)
          else match wrapping "WAL-wait" (time_Sleep delay) w with
               | (Fail err, w) => Some (Fail err, w)
               | (Ok _, w) => wait_loop fuel timeline segments deadline (if delay <? 2 * Second then 2 * delay else delay) w
               end
      end
  end.

Definition wait_delay : Z := 50 * Millisecond.

(** Every round sleeps for the first delay at least. *)
Definition wait_fuel (timeout : Z) : nat := (Z.to_nat (timeout / wait_delay) + 2)%nat.

(** [WaitForWAL] *)
Definition WaitForWAL (timeline : Z) (segments : list string) (timeout : Z) : M W unit := fun w =>
  if (length segments =? 0)%nat then (Ok tt, w)
  else match wait_loop (wait_fuel timeout) timeline segments (time_Now w + timeout) wait_delay w with
       | Some r => r
       | None => (Fail out_of_fuel, w)
       end.

(** [WALSource] *)
Definition WALSourceArchive : string := "archive".
Definition WALSourceStream : string := "stream".
Definition WALSourceWalgrab : string := "walgrab".

(** [walRecordsNeeded] *)
Definition walRecordsNeeded (s : string) : bool := String.eqb s "" || String.eqb s WALSourceArchive.

(** [AcquireOptions] *)
Record AcquireOptions := {
  aq_Timeline : Z; aq_StartLSN : LSN; aq_StopLSN : LSN; aq_SegSize : Z; aq_Timeout : Z; aq_WALSource : string;
}.

(** [AcquireBracketWAL] *)
Definition AcquireBracketWAL (opts : AcquireOptions) : M W (list string) :=
  let source := if String.eqb (aq_WALSource opts) "" then WALSourceArchive else aq_WALSource opts in
  let segments := WALSegmentsBetween (aq_Timeline opts) (aq_StartLSN opts) (aq_StopLSN opts) (aq_SegSize opts) in
  if String.eqb source WALSourceArchive then
    WaitForWAL (aq_Timeline opts) segments (aq_Timeout opts) ;;; ret segments
  else if String.eqb source WALSourceStream then ret segments
  else if String.eqb source WALSourceWalgrab then ret segments
  else throw (errors_New "unknown WAL source").

(** [hashWALSegments] *)
Definition hashWALSegments (timeline : Z) (names : list string) : M W (list WALSegmentRecord) :=
  forM names [] (fun out n =>
    found <- wrapping "hashWALSegments" (FindSegment timeline n) ;;
    match found with
    | None => throw (errors_New "hashWALSegments: not found in storage")
    | Some key =>
        body <- wrapping "hashWALSegments: backend.Get" (be_Get key) ;;
        ret (out ++ [{| ws_Name := n; ws_Size := i64 (Z.of_nat (slen body)); ws_SHA256 := Sum256 body |}])
    end).

(** ** Asking PostgreSQL *)

Context `{Pg W}.

(** The loop of [ProbeArchive]. *)
Fixpoint probe_loop (fuel : nat) (tli : Z) (segName : string) (deadline : Z) (w : W) : option (result unit * W) :=
  match fuel with
  | O => None
  | S fuel =>
      if time_Now w <? deadline then
        match wrapping "probe" (FindSegment tli segName) w with
        | (Fail err, w) => Some (Fail err, w)
        | (Ok (Some _), w) => Some (Ok tt, w)
        | (Ok None, w) =>
            match wrapping "probe" (time_Sleep (500 * Millisecond)) w with
            | (Fail err, w) => Some (Fail err, w)
            | (Ok _, w) => probe_loop fuel tli segName deadline w
            end
        end
      else Some (Fail (errors_Sentinel ErrArchiveUnreachable "probe: WAL archive unreachable"), w)
  end.

Definition probe_fuel (timeout : Z) : nat := (Z.to_nat (timeout / (500 * Millisecond)) + 2)%nat.

(** [ProbeArchive] *)
Definition ProbeArchive (timeout : Z) : M W unit :=
  let timeout := if timeout <=? 0 then 60 * Second else timeout in
  now <- read time_Now ;;
  wrapping "probe: pg_create_restore_point" (pg_create_restore_point ("pgsafe-probe-" +:+ FormatD now)) ;;;
  segName <- wrapping "probe: pg_switch_wal" pg_sealed_segment ;;
  tli <- of_result (map_error (Errorf_w "probe") (TimelineFromSegment segName)) ;;
  now <- read time_Now ;;
  fun w => match probe_loop (probe_fuel timeout) tli segName (now + timeout) w with
           | Some r => r
           | None => (Fail out_of_fuel, w)
           end.

(** [IsArchiveUnreachable] *)
Definition IsArchiveUnreachable (err : error) : bool := errors_Is err ErrArchiveUnreachable.

(** [InspectStandby] *)
Definition InspectStandby : M W unit :=
  inRecovery <- wrapping "standby: pg_is_in_recovery" pg_is_in_recovery ;;
  if negb inRecovery then ret tt
  else
    lsnA <- wrapping "standby: pg_last_wal_replay_lsn" pg_last_wal_replay_lsn ;;
    try (time_Sleep (200 * Millisecond)) ;;;
    lsnB <- wrapping "standby: pg_last_wal_replay_lsn (2nd)" pg_last_wal_replay_lsn ;;
    if String.eqb lsnA "" || String.eqb lsnB ""
    then throw (errors_Sentinel ErrStandbyDisconnected "pg_last_wal_replay_lsn returned empty")
    else
      receiverCount <- wrapping "standby: pg_stat_wal_receiver" pg_wal_receivers ;;
      if receiverCount =? 0 then
        restoreCmd <- try pg_restore_command ;;
        match restoreCmd with
        | Ok cmd => if negb (String.eqb cmd "") then ret tt
                    else throw (errors_Sentinel ErrStandbyDisconnected "no active wal_receiver and no restore_command")
        | Fail _ => throw (errors_Sentinel ErrStandbyDisconnected "no active wal_receiver and no restore_command")
        end
      else ret tt.

(** [switchAndCurrentLSN] *)
Definition switchAndCurrentLSN : M W LSN :=
  switchLSN <- wrapping "pg_switch_wal" pg_switch_wal ;;
  of_result (map_error (Errorf_w "parse switch LSN") (ParseLSN switchLSN)).
End wait.

(** ** The backup label *)

Definition re_space (c : ascii) : bool :=
  let v := byte_val c in (v =? 9) || (v =? 10) || (v =? 12) || (v =? 13) || (v =? 32).

Fixpoint span (p : ascii -> bool) (s : string) : string * string :=
  match s with
  | String c s' => if p c then let '(a, b) := span p s' in (String c a, b) else ("", s)
  | "" => ("", "")
  end.

(** The text from the beginning of every line. *)
Fixpoint after_breaks (s : string) : list string :=
  match s with
  | String c s' => (if Ascii.eqb c "010" then [s'] else []) ++ after_breaks s'
  | "" => []
  end.

Definition line_starts (s : string) : list string := s :: after_breaks s.

(** [(?m)^<key>:\s+(...)]: what follows the blanks of the first line that matches. *)
Fixpoint first_match {A} (f : string -> option A) (l : list string) : option A :=
  match l with [] => None | s :: l => match f s with Some a => Some a | None => first_match f l end end.

Definition after_key (key s : string) : option string :=
  if HasPrefix s key then
    let '(blanks, rest) := span re_space (sdrop (slen key) s) in
    if String.eqb blanks "" then None else Some rest
  else None.

(** [START WAL LOCATION:\s+([0-9A-Fa-f]+/[0-9A-Fa-f]+)] *)
Definition match_lsn (s : string) : option string :=
  match after_key "START WAL LOCATION:" s with
  | None => None
  | Some rest =>
      let '(hi, rest) := span is_hexdigit rest in
      match rest with
      | String c rest =>
          let '(lo, _) := span is_hexdigit rest in
          if Ascii.eqb c "/" && negb (String.eqb hi "") && negb (String.eqb lo "")
          then Some (hi +:+ "/" +:+ lo) else None
      | "" => None
      end
  end.

(** [START TIMELINE:\s+(\d+)] *)
Definition match_tli (s : string) : option string :=
  match after_key "START TIMELINE:" s with
  | None => None
  | Some rest => let '(digits, _) := span is_digit rest in if String.eqb digits "" then None else Some digits
  end.

(** [strconv.ParseUint(s, 10, bits)] of digits. *)
Definition ParseUint (bits : Z) (s : string) : result Z :=
  match dec_acc 0 s with
  | Some n => if String.eqb s "" then Fail (errors_New "invalid syntax")
              else if n <? 2 ^ bits then Ok n else Fail (errors_New "value out of range")
  | None => Fail (errors_New "invalid syntax")
  end.

(** [parseBackupLabel] *)
Definition parseBackupLabel (text : string) : result (LSN * Z) :=
  match first_match match_lsn (line_starts text) with
  | None => Fail (errors_New "parseBackupLabel: missing START WAL LOCATION")
  | Some lsnMatch =>
      match first_match match_tli (line_starts text) with
      | None => Fail (errors_New "parseBackupLabel: missing START TIMELINE")
      | Some tliMatch =>
          match ParseLSN lsnMatch with
          | Fail err => Fail (Errorf_w "parseBackupLabel" err)
          | Ok lsn =>
              match ParseUint 32 tliMatch with
              | Fail err => Fail (Errorf_w "parseBackupLabel: timeline" err)
              | Ok tli => Ok (lsn, tli)
              end
          end
      end
  end.

(** [codecFromString] and [levelFromString] *)
Definition codecFromString (s : string) : string := match Cut s ":" with Some (a, _) => a | None => s end.

Definition Sscanf_d (s : string) : Z :=
  let s := skip_blanks s in
  let '(neg, digits) := match s with
                        | String c s' => if Ascii.eqb c "-" then (true, s') else if Ascii.eqb c "+" then (false, s') else (false, s)
                        | "" => (false, "")
                        end in
  match dec_acc 0 (fst (span is_digit digits)) with
  | Some n => let n := if (neg : bool) then - n else n in
              if (n <? - 2 ^ 63) || (2 ^ 63 <=? n) then 0 else n
  | None => 0
  end.

Definition levelFromString (s : string) : Z :=
  match Cut s ":" with Some (_, b) => if String.eqb b "" then 0 else Sscanf_d b | None => 0 end.

(** ** The identity of the cluster, and the manifest of the parent *)

(** [io.LimitReader(r, n)] *)
Definition LimitReader (n : Z) (s : string) : string := if Z.of_nat (slen s) <=? n then s else stake (Z.to_nat n) s.

Section storage.
Context {W : Type} `{Backend W}.

(** [verifyClusterIdentity] *)
Definition verifyClusterIdentity (currentSysID : Z) : M W unit :=
  if currentSysID =? 0 then ret tt
  else
    infos <- wrapping "backup: list storage for identity check" (be_List "") ;;
    let manifestPaths := base.filter (fun p => String.eqb (path_Base p) "backup_manifest") (fi_Path <$> infos) in
    match sort_strings_desc manifestPaths with
    | [] => ret tt
    | latest :: _ =>
        let latestID := path_Dir latest in
        buf <- wrapping "backup: read sidecar of latest backup for identity check"
                 (be_Get (path_Join [latestID; "Storage-Metadata.json"])) ;;
        sc <- of_result (map_error (Errorf_w "backup: parse sidecar of latest backup")
                           (UnmarshalSidecar (LimitReader (2 ^ 20) buf))) ;;
        if sc_SystemIdentifier sc =? 0 then ret tt
        else if negb (sc_SystemIdentifier sc =? currentSysID)
        then throw (errors_Sentinel ErrClusterIdentityMismatch "backup: cluster identity mismatch with existing storage")
        else ret tt
    end.

(** [stageParentManifest]; [os.TempDir] is read from the environment. *)
Definition stageParentManifest `{Host W, Disk W} (TempDir parentID scratchDir : string) : M W string :=
  let rel := path_Join [parentID; "backup_manifest"] in
  body <- wrapping "read parent manifest" (be_Get rel) ;;
  rnd <- wrapping "rand" (rand_Read 8) ;;
  let name := "pgsafe-parent-" +:+ parentID +:+ "-" +:+ EncodeToString rnd +:+ ".json" in
  let dir := if String.eqb scratchDir "" then TempDir else scratchDir in
  let full := path_Join [dir; name] in
  wrapping "create" (os_CreateExcl full) ;;;
  r <- try (os_WriteFile full body) ;;
  match r with
  | Fail err => try (os_Remove full) ;;; throw (Errorf_w "copy" err)
  | Ok _ => ret full
  end.
End storage.
