(* ===== verification/BracketSpec.v ===== *)
(** * What the WAL wait promises

    A wait that succeeds leaves every segment of the bracket in the archive; it always comes
    back; and a storage is never mixed with the backups of another cluster. *)

From S2P Require Import Prelude Sha256 Lsn Wal Storage Keys Host Time Json JsonSpec Manifest ManifestSpec Worlds Archive Bracket.

(** ** One round *)

Section wait_spec.
Context {W : Type} `{BackendLaws W, !Clock W, !ClockLaws W}.

(** The segment is in the archive. *)
Definition archived (timeline : Z) (seg : string) (w : W) : Prop := exists key, variant timeline seg key w.

Lemma variant_view t seg k (w w' : W) : view w' = view w -> variant t seg k w -> variant t seg k w'.
Proof. unfold variant. by intros ->. Qed.

Lemma FindSegment_clock t seg w : time_Now w <= time_Now (snd (FindSegment t seg w)).
Proof.
  unfold FindSegment, bind, try. pose proof (list_clock (SegmentDir t) w) as Hc.
  destruct (be_List (SegmentDir t) w) as [[infos|err] w1]; cbn [snd] in *; unfold ret, throw; repeat case_match; done.
Qed.

Lemma missing_loop t segs acc w r w' :
  forM segs acc (fun out name => found <- FindSegment t name ;;
                 ret (match found with Some _ => out | None => out ++ [name] end)) w = (r, w') ->
  view w' = view w /\ time_Now w <= time_Now w' /\
  forall out, r = Ok out -> exists m, out = acc ++ m /\ (forall s, s ∈ segs -> s ∈ m \/ archived t s w') /\
    (forall s, s ∈ m -> s ∈ segs /\ ~ archived t s w').
Proof.
  revert acc w. induction segs as [|s segs IH]; intros acc w; cbn [forM].
  - intros [= <- <-]. split_and!; [done|lia|]. intros out [= <-]. exists []. rewrite app_nil_r. split_and!; [done|..]; intros s []%elem_of_nil.
  - unfold bind at 1 2. pose proof (FindSegment_view t s w) as Hv. pose proof (FindSegment_clock t s w) as Hc.
    destruct (FindSegment t s w) as [[o|e] w1] eqn:Ef; cbn [snd] in *; [|by intros [= <- <-]]. unfold ret at 1.
    apply FindSegment_inv in Ef. intros Hrun. apply IH in Hrun as (Hv2 & Hc2 & Hout). unfold same_view in Hv.
    assert (Hvv : view w' = view w) by congruence. split_and!; [done|lia|]. intros out Ho.
    destruct (Hout out Ho) as (m & -> & Hall & Hm). destruct o as [k|].
    + destruct Ef as [Hk _]. exists m. split_and!; [done| |].
      * intros x [->|Hx]%elem_of_cons; [right|by apply Hall]. exists k. by apply (variant_view t s k w w').
      * intros x Hx. destruct (Hm x Hx). split; [by constructor|done].
    + exists (s :: m). rewrite <- app_assoc. split_and!; [done| |].
      * intros x [->|Hx]%elem_of_cons; [left; by constructor|]. destruct (Hall x Hx); [left; by constructor|by right].
      * intros x [->|Hx]%elem_of_cons.
        -- split; [by constructor|]. intros [k Hk]. apply (Ef k). by apply (variant_view t s k w' w).
        -- destruct (Hm x Hx). split; [by constructor|done].
Qed.

Lemma missingSegments_spec t segs w r w' : missingSegments t segs w = (r, w') ->
  view w' = view w /\ time_Now w <= time_Now w' /\
  (r = Ok [] -> forall s, s ∈ segs -> archived t s w') /\
  (forall s m, r = Ok (s :: m) -> s ∈ segs /\ ~ archived t s w').
Proof.
  intros Hrun. apply missing_loop in Hrun as (Hv & Hc & Hout). split_and!; [done..|intros Hr|intros s m Hr].
  - destruct (Hout [] Hr) as (m & Hm & Hall & _). cbn in Hm. subst m. intros s Hs. by destruct (Hall s Hs) as [[]%elem_of_nil|].
  - destruct (Hout _ Hr) as (m' & Hm & _ & Hin). cbn in Hm. subst m'. apply Hin. constructor.
Qed.

(** ** The loop *)

Lemma wrapping_inv {A} msg (m : M W A) w r w' : wrapping msg m w = (r, w') ->
  exists r0, m w = (r0, w') /\ r = map_error (Errorf_w msg) r0.
Proof. unfold wrapping. destruct (m w) as [r0 w1]. intros [= <- <-]. by exists r0. Qed.

Lemma sleep_Ok msg d w w' : 0 <= d -> wrapping msg (time_Sleep d) w = (Ok tt, w') -> time_Now w + d <= time_Now w'.
Proof. intros Hd Hs%wrapping_inv_Ok. by apply sleep_advances. Qed.

(** With fuel for the time that is left, the loop comes back. *)
Lemma wait_loop_spec fuel t segs deadline delay w :
  (0 < fuel)%nat -> wait_delay <= delay -> deadline < time_Now w + (Z.of_nat fuel - 1) * wait_delay ->
  exists r w', wait_loop fuel t segs deadline delay w = Some (r, w') /\
    (r = Ok tt -> forall s, s ∈ segs -> archived t s w') /\
    (r = Fail wait_timeout -> deadline < time_Now w' /\ exists s, s ∈ segs /\ ~ archived t s w').
Proof.
  revert delay w. induction fuel as [|fuel IH]; intros delay w Hpos Hdelay Hfuel; [lia|]. cbn [wait_loop].
  assert (Hwd : 0 < wait_delay) by (unfold wait_delay, Millisecond; lia).
  destruct (wrapping "WAL-wait" (missingSegments t segs) w) as [r w1] eqn:Em. apply wrapping_inv in Em as (r0 & Em & ->).
  destruct (missingSegments_spec _ _ _ _ _ Em) as (_ & Hc & Hnone & Hsome). destruct r0 as [[|s m]|e]; cbn [map_error].
  - exists (Ok tt), w1. split_and!; [done|intros _; by apply Hnone|done].
  - destruct (Hsome s m eq_refl) as [Hs Hns]. destruct (Z.ltb_spec deadline (time_Now w1)) as [Hd|Hd].
    + exists (Fail wait_timeout), w1. split_and!; [done|done|]. intros _. split; [done|by exists s].
    + destruct (wrapping "WAL-wait" (time_Sleep delay) w1) as [[[]|e] w2] eqn:Es.
      * apply sleep_Ok in Es; [|lia]. apply IH; [lia|by destruct (delay <? 2 * Second); lia|lia].
      * apply wrapping_inv in Es as ([?|e'] & _ & He); [done|]. injection He as ->. exists (Fail (Errorf_w "WAL-wait" e')), w2.
        split_and!; [done|done|]. intros [=].
  - exists (Fail (Errorf_w "WAL-wait" e)), w1. split_and!; [done|done|]. intros [=].
Qed.

Lemma wait_fuel_enough timeout now : now + timeout < now + (Z.of_nat (wait_fuel timeout) - 1) * wait_delay.
Proof.
  unfold wait_fuel. assert (Hd : 0 < wait_delay) by (unfold wait_delay, Millisecond; lia).
  pose proof (Z.mod_pos_bound timeout wait_delay Hd). pose proof (Z.div_mod timeout wait_delay ltac:(lia)). nia.
Qed.

Lemma WaitForWAL_spec t segs timeout w : segs <> [] -> exists r w',
  wait_loop (wait_fuel timeout) t segs (time_Now w + timeout) wait_delay w = Some (r, w') /\
  WaitForWAL t segs timeout w = (r, w') /\
  (r = Ok tt -> forall s, s ∈ segs -> archived t s w') /\
  (r = Fail wait_timeout -> time_Now w + timeout < time_Now w' /\ exists s, s ∈ segs /\ ~ archived t s w').
Proof.
  intros Hne. unfold WaitForWAL. assert (Hl : (length segs =? 0)%nat = false) by by destruct segs.
  destruct (wait_loop_spec (wait_fuel timeout) t segs (time_Now w + timeout) wait_delay w) as (r & w' & Hr & Hok & Hto);
    [unfold wait_fuel; lia|lia|apply wait_fuel_enough|]. exists r, w'. by rewrite Hl, Hr.
Qed.

(** C31: the wait for the WAL of a bracket always comes back: the rounds its timeout allows are never
    used up; if it succeeds, every segment is in the archive; and if it reports a timeout, the
    deadline is over and some segment is still missing. *)
Theorem WaitForWAL_returns t segs timeout w : segs <> [] -> exists r w',
  wait_loop (wait_fuel timeout) t segs (time_Now w + timeout) wait_delay w = Some (r, w') /\
  WaitForWAL t segs timeout w = (r, w') /\
  (r = Ok tt -> forall s, s ∈ segs -> archived t s w') /\
  (r = Fail wait_timeout -> time_Now w + timeout < time_Now w' /\ exists s, s ∈ segs /\ ~ archived t s w').
Proof. apply WaitForWAL_spec. Qed.

(** The archive source waits for every position between the two ends. *)
Lemma AcquireBracketWAL_spec opts w segs w' :
  seg_size_ok (aq_SegSize opts) -> is_u64 (aq_StartLSN opts) -> is_u64 (aq_StopLSN opts) -> aq_StartLSN opts <= aq_StopLSN opts ->
  walRecordsNeeded (aq_WALSource opts) = true -> AcquireBracketWAL opts w = (Ok segs, w') ->
  segs = WALSegmentsBetween (aq_Timeline opts) (aq_StartLSN opts) (aq_StopLSN opts) (aq_SegSize opts) /\
  forall s, s ∈ segs -> archived (aq_Timeline opts) s w'.
Proof.
  intros Hs Ha Hb Hle Hsrc. unfold AcquireBracketWAL.
  assert (Hsource : String.eqb (if String.eqb (aq_WALSource opts) "" then WALSourceArchive else aq_WALSource opts) WALSourceArchive = true).
  { unfold walRecordsNeeded in Hsrc. by destruct (String.eqb (aq_WALSource opts) ""). }
  rewrite Hsource. intros Hrun. apply bind_inv_Ok in Hrun as ([] & w1 & Hwait & [= <- <-]). split; [done|].
  set (segs := WALSegmentsBetween _ _ _ _) in *. intros s Hs'.
  destruct (WaitForWAL_spec (aq_Timeline opts) segs (aq_Timeout opts) w) as (r & w2 & _ & Hw & Hok & _).
  { intros E. rewrite E in Hs'. by apply elem_of_nil in Hs'. }
  rewrite Hwait in Hw. injection Hw as <- <-. by apply Hok.
Qed.

(** ** The records of the segments *)

Lemma walSegments_plain fuel t k n last : Forall (fun s => sall plain_char s = true) (walSegments_go fuel t k n last).
Proof.
  revert n. induction fuel as [|fuel IH]; intros n; cbn [walSegments_go]; [constructor|]. destruct (n <=? last); constructor; [|apply IH].
  unfold XLogFileName, Format0X. rewrite !sall_app. rewrite !(hexdigits_plain (hex_fixed _ _ _)) by (apply hex_fixed_hex; by left). done.
Qed.

Lemma acquired_plain opts w segs w' : AcquireBracketWAL opts w = (Ok segs, w') -> Forall (fun s => sall plain_char s = true) segs.
Proof.
  assert (Hall : Forall (fun s => sall plain_char s = true) (WALSegmentsBetween (aq_Timeline opts) (aq_StartLSN opts) (aq_StopLSN opts) (aq_SegSize opts))).
  { unfold WALSegmentsBetween. destruct (_ || _); [constructor|]. apply walSegments_plain. }
  unfold AcquireBracketWAL. repeat match goal with |- context [if ?b then _ else _] => destruct b end; try done;
    intros Hrun; try (apply bind_inv_Ok in Hrun as (? & ? & _ & Hrun)); by injection Hrun as <- _.
Qed.

Lemma hashWALSegments_ok t names w recs w' : Forall (fun s => sall plain_char s = true) names ->
  hashWALSegments t names w = (Ok recs, w') -> Forall segment_ok recs.
Proof.
  intros Hn. unfold hashWALSegments. match goal with |- forM _ _ ?body _ = _ -> _ => set (b := body) end.
  cut (forall acc, Forall segment_ok acc -> forM names acc b w = (Ok recs, w') -> Forall segment_ok recs); [intros Hc; by apply Hc; constructor|].
  revert w. induction Hn as [|n names Hn _ IH]; intros w acc Hacc; cbn [forM]; [by intros [= <- _]|].
  intros Hrun. apply bind_inv_Ok in Hrun as (acc' & w1 & Hone & Hrun). apply IH in Hrun; [done|].
  apply bind_inv_Ok in Hone as (found & w2 & _ & Hone). destruct found as [key|]; [|done].
  apply bind_inv_Ok in Hone as (body & w3 & _ & Hret). injection Hret as <- _. apply Forall_app. split; [done|]. apply Forall_singleton.
  split_and!; [by apply plain_utf8|apply i64_range|apply slen_Sum256].
Qed.
End wait_spec.

(** C21: where the WAL is taken from the archive ([walRecordsNeeded]: the source is archive, or left to its default), a
    bracket that was acquired is recoverable: for every position from the start of the backup up to its stop,
    the segment that holds it is in the archive. With the sources stream and walgrab nothing is said: there
    [AcquireBracketWAL] does not look at the archive, the segments come with the backup itself. *)
Theorem bracket_archived {W : Type} `{BackendLaws W, !Clock W, !ClockLaws W} opts w segs w' lsn :
  seg_size_ok (aq_SegSize opts) -> is_u64 (aq_StartLSN opts) -> is_u64 (aq_StopLSN opts) -> aq_StartLSN opts <= aq_StopLSN opts ->
  walRecordsNeeded (aq_WALSource opts) = true -> AcquireBracketWAL opts w = (Ok segs, w') ->
  aq_StartLSN opts <= lsn -> (lsn < aq_StopLSN opts \/ lsn = aq_StartLSN opts) ->
  archived (aq_Timeline opts) (WALSegmentName (aq_Timeline opts) lsn (aq_SegSize opts)) w'.
Proof.
  intros Hs Ha Hb Hle Hsrc Hrun Hl1 Hl2. destruct (AcquireBracketWAL_spec _ _ _ _ Hs Ha Hb Hle Hsrc Hrun) as [-> Hall].
  apply Hall, elem_of_WALSegmentsBetween; [done..|]. by exists lsn.
Qed.

(** ** What else may change meanwhile *)

Section quiet_spec.
Context {W : Type} `{BackendLaws W, !Clock W, !ClockLaws W, !Pg W, !PgLaws W}.

Lemma missingSegments_quiet t segs : quiet (missingSegments t segs).
Proof. intros w. apply same_view_outside. destruct (missingSegments t segs w) as [r w'] eqn:E. by apply missingSegments_spec in E as (Hv & _). Qed.

Lemma wait_loop_quiet fuel t segs deadline delay w r w' : wait_loop fuel t segs deadline delay w = Some (r, w') ->
  same_outside wal_key w w'.
Proof.
  revert delay w. induction fuel as [|fuel IH]; intros delay w; cbn [wait_loop]; [done|].
  pose proof (preserves_wrapping _ "WAL-wait" _ (missingSegments_quiet t segs) w) as Hm.
  destruct (wrapping "WAL-wait" (missingSegments t segs) w) as [[[|s m]|e] w1]; cbn [snd] in Hm; [by intros [= <- <-]| |by intros [= <- <-]].
  destruct (deadline <? time_Now w1); [by intros [= <- <-]|].
  pose proof (preserves_wrapping _ "WAL-wait" _ (sleep_quiet delay) w1) as Hs.
  destruct (wrapping "WAL-wait" (time_Sleep delay) w1) as [[[]|e] w2]; cbn [snd] in Hs.
  - intros Hrun. etrans; [exact Hm|]. etrans; [exact Hs|]. by eapply IH.
  - intros [= <- <-]. by etrans.
Qed.

Lemma AcquireBracketWAL_quiet aq : quiet (AcquireBracketWAL aq).
Proof.
  intros w. unfold AcquireBracketWAL. repeat match goal with |- context [if ?b then _ else _] => destruct b end; try done.
  all: unfold bind, WaitForWAL; destruct (length _ =? 0)%nat; [done|].
  all: destruct (wait_loop _ _ _ _ _ w) as [[[[]|e] w1]|] eqn:E; try done; by eapply wait_loop_quiet.
Qed.

Lemma FindSegment_quiet t seg : quiet (FindSegment t seg).
Proof. intros w. apply same_view_outside, FindSegment_view. Qed.

Lemma probe_loop_quiet fuel t seg deadline w r w' : probe_loop fuel t seg deadline w = Some (r, w') -> same_outside wal_key w w'.
Proof.
  revert w. induction fuel as [|fuel IH]; intros w; cbn [probe_loop]; [done|]. destruct (time_Now w <? deadline); [|by intros [= <- <-]].
  pose proof (preserves_wrapping _ "probe" _ (FindSegment_quiet t seg) w) as Hm.
  destruct (wrapping "probe" (FindSegment t seg) w) as [[[k|]|e] w1]; cbn [snd] in Hm; [by intros [= <- <-]| |by intros [= <- <-]].
  pose proof (preserves_wrapping _ "probe" _ (sleep_quiet (500 * Millisecond)) w1) as Hs.
  destruct (wrapping "probe" (time_Sleep (500 * Millisecond)) w1) as [[[]|e] w2]; cbn [snd] in Hs.
  - intros Hrun. etrans; [exact Hm|]. etrans; [exact Hs|]. by eapply IH.
  - intros [= <- <-]. by etrans.
Qed.

Lemma ProbeArchive_quiet timeout : quiet (ProbeArchive timeout).
Proof.
  unfold ProbeArchive. apply preserves_bind; [tc_solve|apply preserves_read; tc_solve|intros now].
  apply preserves_bind; [tc_solve|apply preserves_wrapping, restore_point_quiet|intros _].
  apply preserves_bind; [tc_solve|apply preserves_wrapping, sealed_segment_quiet|intros seg].
  apply preserves_bind; [tc_solve|apply preserves_of_result; tc_solve|intros tli].
  apply preserves_bind; [tc_solve|apply preserves_read; tc_solve|intros now2 w].
  destruct (probe_loop _ _ _ _ w) as [[r w']|] eqn:E; [|done]. by eapply probe_loop_quiet.
Qed.

Lemma InspectStandby_quiet : quiet InspectStandby.
Proof.
  unfold InspectStandby. apply preserves_bind; [tc_solve|apply preserves_wrapping, in_recovery_quiet|intros rec].
  destruct (negb rec); [apply preserves_ret; tc_solve|].
  apply preserves_bind; [tc_solve|apply preserves_wrapping, replay_lsn_quiet|intros a].
  apply preserves_bind; [tc_solve|apply preserves_try, sleep_quiet|intros _].
  apply preserves_bind; [tc_solve|apply preserves_wrapping, replay_lsn_quiet|intros b].
  destruct (_ || _); [apply preserves_throw; tc_solve|].
  apply preserves_bind; [tc_solve|apply preserves_wrapping, receivers_quiet|intros n]. destruct (n =? 0); [|apply preserves_ret; tc_solve].
  apply preserves_bind; [tc_solve|apply preserves_try, restore_command_quiet|intros [cmd|e]]; repeat case_match;
    first [apply preserves_ret|apply preserves_throw]; tc_solve.
Qed.
End quiet_spec.

(** ** The cluster of a storage *)

Section identity_spec.
Context {W : Type} `{BackendLaws W}.

(** The manifest at [p] is the last of the storage in the order of names. *)
Definition last_manifest (v : gmap string string) (p : string) : Prop :=
  is_Some (v !! p) /\ valid_key p = true /\ path_Base p = "backup_manifest" /\
  forall q, is_Some (v !! q) -> valid_key q = true -> under "" q = true -> path_Base q = "backup_manifest" -> String.le q p.

Lemma sort_desc_last l p rest : sort_strings_desc l = p :: rest -> p ∈ l /\ forall q, q ∈ l -> String.le q p.
Proof.
  unfold sort_strings_desc. intros E. assert (Hp : p ∈ sort_strings l).
  { rewrite <- (rev_involutive (sort_strings l)), E. cbn. apply elem_of_app. right. by constructor. }
  split; [by apply elem_of_sort_strings|]. intros q Hq. rewrite <- elem_of_sort_strings in Hq.
  pose proof (sort_strings_sorted l) as Hs. assert (Hrev : sort_strings l = rev rest ++ [p]).
  { rewrite <- (rev_involutive (sort_strings l)), E. done. }
  rewrite Hrev in *. apply elem_of_app in Hq as [Hq|Hq%list_elem_of_singleton]; [|by subst].
  eapply (StronglySorted_app_1_elem_of _ _ _ _ _ Hs); [done|by constructor].
Qed.

(** A manifest the listing of the root shows. *)
Definition listed_manifest (v : gmap string string) (q : string) : Prop :=
  is_Some (v !! q) /\ valid_key q = true /\ under "" q = true /\ path_Base q = "backup_manifest".

Lemma manifests_listed infos w w1 : be_List "" w = (Ok infos, w1) ->
  let ms := base.filter (fun p => String.eqb (path_Base p) "backup_manifest") (fi_Path <$> infos) in
  (forall p, p ∈ ms -> is_Some (view w !! p) /\ valid_key p = true /\ path_Base p = "backup_manifest") /\
  (forall q, listed_manifest (view w) q -> q ∈ ms).
Proof.
  intros Hl ms. destruct (list_spec "" w) as [_ Hok]. destruct (Hok _ _ Hl) as [_ Hall]. split.
  - intros p [Hp Hb]%elem_of_bfilter. apply String.eqb_eq in Hb. apply list_elem_of_fmap in Hp as (fi & -> & Hfi).
    destruct (Hall fi Hfi) as (Hk & c & Hc & _). split_and!; [by exists c|done..].
  - intros q (Hq & Hk & Hu & Hb). apply elem_of_bfilter. split; [|by apply String.eqb_eq].
    by eapply list_complete.
Qed.
End identity_spec.

(** A backup goes on only into a storage of its own cluster: when the check passes for a cluster that
    could be identified, either the storage has no backup, or the last one, in the order of the names,
    carries the same system identifier or is from before identifiers were recorded. *)
Theorem verifyClusterIdentity_ok {W : Type} `{BackendLaws W} id w w' :
  id <> 0 -> verifyClusterIdentity id w = (Ok tt, w') ->
  view w' = view w /\
  ((forall q, ~ listed_manifest (view w) q) \/
   exists p text sc, is_Some (view w !! p) /\ path_Base p = "backup_manifest" /\
     (forall q, listed_manifest (view w) q -> String.le q p) /\
     view w !! path_Join [path_Dir p; "Storage-Metadata.json"] = Some text /\
     UnmarshalSidecar (LimitReader (2 ^ 20) text) = Ok sc /\
     (sc_SystemIdentifier sc = 0 \/ sc_SystemIdentifier sc = id)).
Proof.
  intros Hid. unfold verifyClusterIdentity. apply Z.eqb_neq in Hid. rewrite Hid. intros Hrun.
  apply bind_inv_Ok in Hrun as (infos & w1 & Hl%wrapping_inv_Ok & Hrun).
  pose proof (list_view "" w) as Hv1. rewrite Hl in Hv1. unfold same_view in Hv1. cbn [snd] in Hv1.
  destruct (manifests_listed infos w w1 Hl) as [Hin Hall].
  destruct (sort_strings_desc _) as [|p rest] eqn:Es.
  - injection Hrun as <-. split; [done|]. left. intros q Hq. specialize (Hall q Hq).
    apply elem_of_sort_strings in Hall. apply list_elem_of_In, in_rev in Hall. unfold sort_strings_desc in Es. by rewrite Es in Hall.
  - apply sort_desc_last in Es as [Hp Hmax]. destruct (Hin p Hp) as (Hs & Hk & Hb).
    apply bind_inv_Ok in Hrun as (text & w2 & Hget%wrapping_inv_Ok & Hrun).
    destruct (sibling_key p "Storage-Metadata.json" Hk) as [Hkey _]; [done..|].
    destruct (get_spec _ w1 Hkey) as (Hv2 & Hok & _). rewrite Hget in Hv2. cbn [snd] in Hv2. specialize (Hok _ _ Hget).
    apply bind_inv_Ok in Hrun as (sc & w3 & Hun & Hrun). unfold of_result in Hun.
    destruct (UnmarshalSidecar (LimitReader (2 ^ 20) text)) as [sc'|e] eqn:Hu; [|done]. injection Hun as -> ->.
    assert (w' = w3 /\ (sc_SystemIdentifier sc = 0 \/ sc_SystemIdentifier sc = id)) as [-> Hsys].
    { destruct (Z.eqb_spec (sc_SystemIdentifier sc) 0); [injection Hrun as <-; tauto|].
      destruct (Z.eqb_spec (sc_SystemIdentifier sc) id); [injection Hrun as <-; tauto|done]. }
    split; [congruence|]. right. exists p, text, sc. split_and!; [done..| |congruence|done|done].
    intros q Hq. apply Hmax. by apply Hall.
Qed.

(** ** A calm primary *)

(** A primary whose answers never change; its archiver is the world's. *)
#[export] Instance calm_pg : Pg world := {
  pg_create_restore_point _ := ret tt;
  pg_sealed_segment := ret "000000010000000000000001";
  pg_switch_wal := ret "0/2000100";
  pg_is_in_recovery := ret false;
  pg_last_wal_replay_lsn := ret "";
  pg_wal_receivers := ret 0;
  pg_restore_command := ret "";
  pg_identity := ret {| id_SystemIdentifier := 7; id_Timeline := 1; id_CheckpointLSN := 0x2000060; id_WALSegmentSize := DefaultWALSegmentSize |};
}.

Lemma arrive_quiet l m q : ~ wal_key q -> mem_files (arrive l m) !! q = mem_files m !! q.
Proof.
  intros Hq. cbn [arrive mem_set_files mem_files]. apply lookup_union_r, not_elem_of_list_to_map_1. intros Hin.
  apply list_elem_of_fmap in Hin as ([k c] & -> & Hin). apply elem_of_bfilter in Hin as [_ Hk]. by apply Hq.
Qed.

#[export] Instance calm_pg_laws : PgLaws world.
Proof.
  split; try (intros; apply preserves_ret; tc_solve). intros d w. cbn [time_Sleep world_clock].
  destruct (w_arrivals w) as [|l rest]; cbn [snd]; intros q Hq; cbn [view world_laws w_mem mem_laws]; by rewrite arrive_quiet.
Qed.

(** ** Waiting while the archive fills *)

(** The second of two segments arrives during the first pause. *)
Definition segA : string := "000000010000000000000002".
Definition segB : string := "000000010000000000000003".
Definition keyA : string := SegmentKey 1 segA (Sum256 "a").
Definition keyB : string := SegmentKey 1 segB (Sum256 "b").
Definition waiting_world : world := start_world {[keyA := "a"]} ∅ [] [[(keyB, "b")]].
Definition sample_acquire : AcquireOptions :=
  {| aq_Timeline := 1; aq_StartLSN := 0x2000028; aq_StopLSN := 0x3000100; aq_SegSize := DefaultWALSegmentSize;
     aq_Timeout := 30 * Minute; aq_WALSource := "" |}.
Definition waited_world : world := snd (AcquireBracketWAL sample_acquire waiting_world).

Lemma acquire_runs : AcquireBracketWAL sample_acquire waiting_world = (Ok [segA; segB], waited_world).
Proof. unfold waited_world. refine (run_eq (AcquireBracketWAL sample_acquire) waiting_world (Ok [segA; segB]) _). vm_compute. reflexivity. Qed.

Lemma bracket_archived_witness : archived 1 segB waited_world.
Proof.
  exact (bracket_archived sample_acquire waiting_world [segA; segB] waited_world 0x3000000
    seg_size_16M ltac:(unfold is_u64; cbn; lia) ltac:(unfold is_u64; cbn; lia) ltac:(cbn; lia) eq_refl acquire_runs
    ltac:(cbn; lia) ltac:(left; cbn; lia)).
Defined.

Lemma WaitForWAL_returns_witness : exists r w', WaitForWAL 1 [segB] (30 * Minute) waiting_world = (r, w') /\
  (r = Ok tt -> archived 1 segB w').
Proof.
  destruct (WaitForWAL_returns 1 [segB] (30 * Minute) waiting_world) as (r & w' & _ & Hr & Hok & _); [discriminate|].
  exists r, w'. split; [exact Hr|]. intros E. exact (Hok E segB (list_elem_of_here _ _)).
Defined.

(** A storage of cluster 7. *)
Definition identity_mem : mem :=
  mem_init {["20260401T100000F/backup_manifest" := "{}";
             "20260401T100000F/Storage-Metadata.json" := MarshalIndent 0 (sidecar_json sample_sidecar)]} [].

Lemma verifyClusterIdentity_ok_witness :
  verifyClusterIdentity 7 identity_mem = (Ok tt, identity_mem) /\ isOk (fst (verifyClusterIdentity 8 identity_mem)) = false /\
  view identity_mem = view identity_mem.
Proof.
  assert (Hrun : verifyClusterIdentity 7 identity_mem = (Ok tt, identity_mem)) by (vm_compute; reflexivity).
  split; [exact Hrun|]. split; [vm_compute; reflexivity|].
  destruct (verifyClusterIdentity_ok 7 identity_mem identity_mem ltac:(discriminate) Hrun) as [Hv _]. exact Hv.
Defined.
