(* ===== verification/Resume.v ===== *)
(** * Resuming an interrupted backup

    [internal/backup/resume.go]: the checkpoint a backup leaves of itself while it runs, the
    search for one that can be taken up again, and the files of it that are still good.
    What goes to the log is left out. *)

From S2P Require Import Prelude Sha256 Lsn Storage Host Time Json Manifest.

Definition resumeCheckpointFilename : string := "backup_manifest.copy".
Definition DefaultResumeCheckpointEveryN : Z := 10.

(** ** The checkpointer *)

(** [resumeCheckpointer] *)
Record resumeCheckpointer := {
  rc_backupID : string;
  rc_every : Z;
  rc_staticMeta : ResumeCheckpoint;
  rc_counter : Z;
  rc_disabled : bool;
}.

(** What [newResumeCheckpointer] reads of the options of a backup. *)
Record resumeOptions := {
  ro_ResumeDisabled : bool;
  ro_CheckpointEveryN : Z;
  ro_GracePeriod : Z;
  ro_PgsafeVersion : string;
  ro_Type : string;
  ro_ParentBackupID : string;
  ro_Compression : string;
  ro_Recipients : list string;
}.

(** [newResumeCheckpointer] *)
Definition newResumeCheckpointer (opts : resumeOptions) (backupID : string) (startedAt : time) (sysID timeline : Z) (startLSN : LSN)
  : option resumeCheckpointer :=
  let every := if ro_CheckpointEveryN opts =? 0 then DefaultResumeCheckpointEveryN else ro_CheckpointEveryN opts in
  if ro_ResumeDisabled opts || (every <=? 0) then None
  else Some {|
    rc_backupID := backupID;
    rc_every := every;
    rc_staticMeta := {|
      cp_Version := ResumeCheckpointVersion; cp_PgsafeVersion := ro_PgsafeVersion opts; cp_BackupID := backupID;
      cp_BackupType := ro_Type opts; cp_ParentBackupID := ro_ParentBackupID opts; cp_Compression := ro_Compression opts;
      cp_EncryptionRecipients := ro_Recipients opts; cp_SystemIdentifier := sysID; cp_Timeline := timeline;
      cp_StartLSN := startLSN; cp_StartTime := UTC startedAt; cp_CheckpointedAt := zero_time; cp_Files := [] |};
    rc_counter := 0;
    rc_disabled := false |}.

(** [isNotExistErr] *)
Definition isNotExistErr (err : error) : bool := errors_Is err OsErrNotExist.

(** The checkpoint [flush] writes. *)
Definition checkpoint_at (now : time) (files : list ResumeFileEntry) (cp : ResumeCheckpoint) : ResumeCheckpoint :=
  {| cp_Version := cp_Version cp; cp_PgsafeVersion := cp_PgsafeVersion cp; cp_BackupID := cp_BackupID cp;
     cp_BackupType := cp_BackupType cp; cp_ParentBackupID := cp_ParentBackupID cp; cp_Compression := cp_Compression cp;
     cp_EncryptionRecipients := cp_EncryptionRecipients cp; cp_SystemIdentifier := cp_SystemIdentifier cp;
     cp_Timeline := cp_Timeline cp; cp_StartLSN := cp_StartLSN cp; cp_StartTime := cp_StartTime cp;
     cp_CheckpointedAt := UTC now; cp_Files := files |}.

Section resume.
Context {W : Type} `{Backend W}.
(** [opts.Now] *)
Context (Now : W -> time).

(** [resumeCheckpointer.flush] *)
Definition flush (rc : resumeCheckpointer) (mb : Builder) : M W unit :=
  now <- read Now ;;
  body <- of_result (map_error (Errorf_w "marshal")
            (MarshalResumeCheckpoint (checkpoint_at now (AccumulatedFiles mb) (rc_staticMeta rc)))) ;;
  let final := path_Join [rc_backupID rc; resumeCheckpointFilename] in
  let tmp := final +:+ ".staging" in
  d <- try (be_Delete final) ;;
  (match d with
   | Fail err => if isNotExistErr err then ret tt else throw (Errorf_w "backend.Delete prior checkpoint" err)
   | Ok _ => ret tt
   end) ;;;
  wc <- wrapping "backend.Put" (be_Put tmp) ;;
  r <- try (be_Write wc body) ;;
  match r with
  | Fail err => try (be_Close wc) ;;; throw (Errorf_w "backend.Write" err)
  | Ok _ =>
      wrapping "backend.Close" (be_Close wc) ;;;
      wrapping "backend.Commit" (be_Commit tmp final)
  end.

(** [resumeCheckpointer.onAddFile]; a nil checkpointer does nothing. *)
Definition onAddFile (rc : option resumeCheckpointer) (mb : Builder) : M W (option resumeCheckpointer) :=
  match rc with
  | None => ret None
  | Some rc =>
      if rc_disabled rc then ret (Some rc)
      else
        let counter := rc_counter rc + 1 in
        let rc := {| rc_backupID := rc_backupID rc; rc_every := rc_every rc; rc_staticMeta := rc_staticMeta rc;
                     rc_counter := counter; rc_disabled := false |} in
        if negb (Z.rem counter (rc_every rc) =? 0) then ret (Some rc)
        else
          r <- try (flush rc mb) ;;
          ret (Some (match r with
                     | Ok _ => rc
                     | Fail _ => {| rc_backupID := rc_backupID rc; rc_every := rc_every rc; rc_staticMeta := rc_staticMeta rc;
                                    rc_counter := counter; rc_disabled := true |}
                     end))
  end.

(** ** Finding a backup to resume *)

(** [resumeGate] *)
Record resumeGate := {
  rg_PgsafeVersion : string;
  rg_BackupType : string;
  rg_ParentBackupID : string;
  rg_Compression : string;
  rg_EncryptionRecipients : list string;
  rg_SystemIdentifier : Z;
}.

(** [looksLikeBackupID] *)
Definition looksLikeBackupID (s : string) : bool :=
  let at_ i (p : ascii -> bool) := match sget s i with Some c => p c | None => false end in
  if (slen s <? 16)%nat || negb (at_ 8%nat (Ascii.eqb "T")) then false
  else forallb (fun i => at_ i is_digit) (seq 0 8) && forallb (fun i => at_ i is_digit) (seq 9 6) &&
       (at_ 15%nat (Ascii.eqb "F") || at_ 15%nat (Ascii.eqb "I")).

(** The first component of a path that has one, when it is a backup ID. *)
Definition candidate_of (p : string) : option string :=
  match Cut p "/" with
  | Some (id, _) => if String.eqb id "" then None else if looksLikeBackupID id then Some id else None
  | None => None
  end.

(** [candidateBackupIDs] *)
Definition candidateBackupIDs (infos : list FileInfo) : list string :=
  sort_strings_desc (remove_dups (omap candidate_of (fi_Path <$> infos))).

(** [stringSliceEqual] and [checkpointMatches] *)
Definition stringSliceEqual (a b : list string) : bool := bool_decide (a = b).

Definition checkpointMatches (cp : ResumeCheckpoint) (gate : resumeGate) : bool :=
  if negb (String.eqb (cp_PgsafeVersion cp) (rg_PgsafeVersion gate)) then false
  else if negb (String.eqb (cp_BackupType cp) (rg_BackupType gate)) then false
  else if negb (String.eqb (cp_ParentBackupID cp) (rg_ParentBackupID gate)) then false
  else if negb (String.eqb (cp_Compression cp) (rg_Compression gate)) then false
  else if negb (cp_SystemIdentifier cp =? rg_SystemIdentifier gate) then false
  else if negb (stringSliceEqual (cp_EncryptionRecipients cp) (rg_EncryptionRecipients gate)) then false
  else true.

(** [reapAbandoned] *)
Definition reapAbandoned (id : string) (infos : list FileInfo) : M W unit :=
  let prefix := id +:+ "/" in
  forM infos tt (fun _ fi =>
    if negb (HasPrefix (fi_Path fi) prefix) then ret tt
    else try (be_Delete (fi_Path fi)) ;;; ret tt).

(** [readWholeFile] *)
Definition readWholeFile (rel : string) : M W string := be_Get rel.

(** The loop of [findResumable]. *)
Fixpoint find_candidates (gate : resumeGate) (grace : Z) (now : time) (infos : list FileInfo) (ids : list string)
  : M W (option ResumeCheckpoint) :=
  match ids with
  | [] => ret None
  | id :: ids =>
      let next := find_candidates gate grace now infos ids in
      st <- try (be_Stat (path_Join [id; "backup_manifest"])) ;;
      match st with
      | Ok _ => next
      | Fail err =>
          if negb (isNotExistErr err) then throw (Errorf_w "findResumable: stat backup_manifest" err)
          else
            let copyRel := path_Join [id; resumeCheckpointFilename] in
            st <- try (be_Stat copyRel) ;;
            match st with
            | Fail err => if isNotExistErr err then next else throw (Errorf_w "findResumable: stat" err)
            | Ok _ =>
                body <- wrapping "findResumable: read" (readWholeFile copyRel) ;;
                match UnmarshalResumeCheckpoint body with
                | Fail _ => reapAbandoned id infos ;;; next
                | Ok cp =>
                    if (0 <? grace) && negb (IsZero (cp_CheckpointedAt cp)) && (grace <? Sub now (cp_CheckpointedAt cp))
                    then reapAbandoned id infos ;;; next
                    else if negb (checkpointMatches cp gate) then next
                    else ret (Some cp)
                end
            end
      end
  end.

(** [findResumable] *)
Definition findResumable (gate : resumeGate) (grace : Z) (now : time) : M W (option ResumeCheckpoint) :=
  infos <- wrapping "findResumable: list" (be_List "") ;;
  find_candidates gate grace now infos (candidateBackupIDs infos).

(** [tryResume]; its error is logged and dropped by the caller. *)
Definition tryResume (opts : resumeOptions) (sysID : Z) : M W (option ResumeCheckpoint) :=
  if ro_ResumeDisabled opts then ret None
  else
    let bt := if String.eqb (ro_Type opts) "" then BackupTypeFull else ro_Type opts in
    let gate := {| rg_PgsafeVersion := ro_PgsafeVersion opts; rg_BackupType := bt; rg_ParentBackupID := ro_ParentBackupID opts;
                   rg_Compression := ro_Compression opts; rg_EncryptionRecipients := ro_Recipients opts;
                   rg_SystemIdentifier := sysID |} in
    now <- read Now ;;
    findResumable gate (ro_GracePeriod opts) now.

(** ** The files that are still good *)

(** [reusablePlan] *)
Definition reusablePlan : Type := gmap string ResumeFileEntry.

(** [reusableSkipPath] *)
Definition reusableSkipPath (p : string) : bool :=
  String.eqb p "backup_label" || String.eqb p "backup_manifest" || String.eqb p "tablespace_map".

(** [storageRepoSHAMatches] *)
Definition storageRepoSHAMatches (rel : string) (expSize : Z) (expSHA : string) : M W bool :=
  fi <- try (be_Stat rel) ;;
  match fi with
  | Fail err => if isNotExistErr err then ret false else throw err
  | Ok fi =>
      if negb (fi_Size fi =? expSize) then ret false
      else
        body <- be_Get rel ;;
        ret (String.eqb (Sum256 body) expSHA)
  end.

(** One file of [cleanResumable]. *)
Definition clean_file (backupID : string) (plan : reusablePlan) (f : ResumeFileEntry) : M W reusablePlan :=
  if reusableSkipPath (rf_Path f) then ret plan
  else if (rf_RepoSize f =? 0) || String.eqb (rf_RepoSHA256 f) zero32 then ret plan
  else
    let rel := path_Join [backupID; rf_Path f] in
    ok <- try (storageRepoSHAMatches rel (rf_RepoSize f) (rf_RepoSHA256 f)) ;;
    match ok with
    | Fail _ => ret plan
    | Ok false => try (be_Delete rel) ;;; ret plan
    | Ok true => ret (<[rf_Path f := f]> plan)
    end.

(** [cleanResumable] *)
Definition cleanResumable (cp : ResumeCheckpoint) : M W reusablePlan :=
  forM (cp_Files cp) ∅ (clean_file (cp_BackupID cp)).
End resume.
