(* ===== verification/ResumeSpec.v ===== *)
(** * What resuming may touch and may trust

    The search for a backup to resume leaves every finished backup alone, and what it hands
    back is unfinished and fits the run; the files that are not uploaded again are stored, byte
    for byte, as the checkpoint says. *)

From S2P Require Import Prelude Sha256 Lsn Storage Keys Host Time Json Manifest Resume.

(** ** Backup IDs as directories *)

Lemma candidate_of_spec p id : candidate_of p = Some id -> no_byte "/" id = true /\ looksLikeBackupID id = true /\ HasPrefix p (id +:+ "/") = true.
Proof.
  unfold candidate_of. destruct (Cut p "/") as [[a b]|] eqn:E; [|done]. apply Cut_Some in E as [-> Ha].
  destruct (String.eqb a ""); [done|]. destruct (looksLikeBackupID a) eqn:El; [|done]. intros [= <-].
  split_and!; [done..|]. change (String "/" b) with ("/" +:+ b). rewrite <- sapp_assoc. apply HasPrefix_app.
Qed.

(** A backup ID is a plain component of a path, and not the name of a driver's temporary. *)
Lemma backup_id_plain id : no_byte "/" id = true -> looksLikeBackupID id = true -> plain_seg id = true.
Proof.
  intros Hn Hl. unfold looksLikeBackupID in Hl. destruct (slen id <? 16)%nat eqn:Es; [done|]. apply Nat.ltb_ge in Es.
  unfold plain_seg. rewrite Hn, andb_true_r, !andb_true_iff, !negb_true_iff.
  split_and!; apply String.eqb_neq; intros ->; cbn in Es; lia.
Qed.

Section resume_spec.
Context {W : Type} `{BackendLaws W}.

(** The keys of the backups that have no manifest. *)
Definition unfinished_key (v : gmap string string) (q : string) : Prop :=
  exists id, no_byte "/" id = true /\ looksLikeBackupID id = true /\ HasPrefix q (id +:+ "/") = true /\
    v !! path_Join [id; "backup_manifest"] = None.

(** ** Reaping *)

Lemma reapAbandoned_outside id infos :
  Forall (fun fi => valid_key (fi_Path fi) = true) infos ->
  preserves (same_outside (fun q => HasPrefix q (id +:+ "/") = true)) (reapAbandoned id infos).
Proof.
  intros Hk. unfold reapAbandoned. apply preserves_forM; [tc_solve|]. intros [] fi Hfi. rewrite Forall_forall in Hk.
  destruct (HasPrefix (fi_Path fi) (id +:+ "/")) eqn:E; cbn [negb]; [|apply preserves_ret; tc_solve].
  apply preserves_bind; [tc_solve| |intros; apply preserves_ret; tc_solve]. apply preserves_try.
  intros w. eapply same_outside_mono; [|by apply delete_outside, Hk]. by intros q ->.
Qed.

(** A candidate whose keys the storage can be asked for. *)
Definition candidate_ok (id : string) : Prop :=
  no_byte "/" id = true /\ looksLikeBackupID id = true /\ valid_key id = true.

Lemma manifest_key_valid id name : candidate_ok id -> valid_key name = true ->
  path_Join [id; name] = id +:+ "/" +:+ name /\ valid_key (path_Join [id; name]) = true.
Proof. intros (_ & _ & Hk) Hn. by apply valid_key_join. Qed.

(** Only unfinished backups of [v0] have changed. *)
Definition only_unfinished (v0 : gmap string string) (w : W) : Prop := forall q, ~ unfinished_key v0 q -> view w !! q = v0 !! q.

(** What is returned is unfinished and fits. *)
Definition resumable (gate : resumeGate) (w : W) (cp : ResumeCheckpoint) : Prop :=
  exists id body, candidate_ok id /\ view w !! path_Join [id; "backup_manifest"] = None /\
    view w !! path_Join [id; resumeCheckpointFilename] = Some body /\
    UnmarshalResumeCheckpoint body = Ok cp /\ checkpointMatches cp gate = true.

Lemma only_unfinished_reap v0 id (w w' : W) : candidate_ok id -> v0 !! path_Join [id; "backup_manifest"] = None ->
  same_outside (fun q => HasPrefix q (id +:+ "/") = true) w w' -> only_unfinished v0 w -> only_unfinished v0 w'.
Proof.
  intros (Hn & Hl & _) Hm Hs Ho q Hq. rewrite <- Ho by done. apply Hs. intros Hp. apply Hq. by exists id.
Qed.

Lemma unfinished_now v0 id (w : W) : candidate_ok id -> only_unfinished v0 w ->
  view w !! path_Join [id; "backup_manifest"] = None -> v0 !! path_Join [id; "backup_manifest"] = None.
Proof.
  intros Hid Ho Hv. destruct (manifest_key_valid id "backup_manifest" Hid eq_refl) as [Hj _].
  destruct (v0 !! path_Join [id; "backup_manifest"]) as [c|] eqn:E; [|done]. rewrite <- E, <- (Ho (path_Join [id; "backup_manifest"])); [done|].
  intros (id2 & Hn2 & _ & Hp & Hnone). destruct Hid as (Hn & _). assert (id2 = id) as ->; [|congruence].
  eapply (prefix_dir_inj id2 id); [done..|exact Hp|]. rewrite Hj, <- sapp_assoc. apply HasPrefix_app.
Qed.

Lemma stat_view_eq p (w : W) r w' : valid_key p = true -> be_Stat p w = (r, w') -> view w' = view w.
Proof. intros Hp E. destruct (stat_spec p w Hp) as [Hv _]. by rewrite E in Hv. Qed.

Lemma only_unfinished_view v0 (w w' : W) : view w' = view w -> only_unfinished v0 w -> only_unfinished v0 w'.
Proof. intros Hv Ho q Hq. by rewrite Hv, Ho. Qed.

Lemma find_candidates_spec v0 gate grace now infos ids w r w' :
  Forall (fun fi => valid_key (fi_Path fi) = true) infos -> Forall candidate_ok ids -> only_unfinished v0 w ->
  find_candidates gate grace now infos ids w = (r, w') ->
  only_unfinished v0 w' /\ forall cp, r = Ok (Some cp) -> resumable gate w' cp.
Proof.
  intros Hinfos Hids. revert w r w'. induction Hids as [|id ids Hid Hids IH]; intros w r w' Ho; cbn [find_candidates].
  { intros [= <- <-]. by split. }
  destruct (manifest_key_valid id "backup_manifest" Hid eq_refl) as [_ Hk1].
  destruct (manifest_key_valid id resumeCheckpointFilename Hid eq_refl) as [_ Hk2].
  unfold bind at 1, try at 1. destruct (be_Stat (path_Join [id; "backup_manifest"]) w) as [st w1] eqn:E1.
  pose proof (stat_view_eq _ _ _ _ Hk1 E1) as Hv1. pose proof (only_unfinished_view v0 w w1 Hv1 Ho) as Ho1.
  destruct st as [fi|err]; [by apply IH|]. destruct (isNotExistErr err) eqn:Hne; cbn [negb]; [|by intros [= <- <-]].
  destruct (stat_spec _ w Hk1) as (_ & _ & Habs). specialize (Habs err w1 E1 Hne). rewrite <- Hv1 in Habs.
  unfold bind at 1, try at 1. destruct (be_Stat (path_Join [id; resumeCheckpointFilename]) w1) as [st2 w2] eqn:E2.
  pose proof (stat_view_eq _ _ _ _ Hk2 E2) as Hv2. pose proof (only_unfinished_view v0 w1 w2 Hv2 Ho1) as Ho2.
  destruct st2 as [fi|err2]; [|destruct (isNotExistErr err2); [by apply IH|by intros [= <- <-]]].
  unfold bind at 1, wrapping at 1, readWholeFile.
  destruct (get_spec _ w2 Hk2) as (Hv3 & Hget & _). destruct (be_Get (path_Join [id; resumeCheckpointFilename]) w2) as [[body|e] w3]; cbn [map_error snd] in *;
    pose proof (only_unfinished_view v0 w2 w3 Hv3 Ho2) as Ho3; [|by intros [= <- <-]]. specialize (Hget body w3 eq_refl).
  assert (Hreap : forall r w', (reapAbandoned id infos ;;; find_candidates gate grace now infos ids) w3 = (r, w') ->
    only_unfinished v0 w' /\ forall cp, r = Ok (Some cp) -> resumable gate w' cp).
  { intros r' w''. pose proof (reapAbandoned_outside id infos Hinfos w3) as Hs. unfold bind.
    assert (Ho4 : only_unfinished v0 (snd (reapAbandoned id infos w3))).
    { eapply only_unfinished_reap; [done| |exact Hs|done]. apply (unfinished_now v0 id w3); [done..|congruence]. }
    destruct (reapAbandoned id infos w3) as [[[]|e] w4]; cbn [snd] in *; [by apply IH|by intros [= <- <-]]. }
  destruct (UnmarshalResumeCheckpoint body) as [cp|e] eqn:Hun; [|by apply Hreap].
  destruct (_ && _ && _); [by apply Hreap|]. destruct (checkpointMatches cp gate) eqn:Hm; cbn [negb]; [|by apply IH].
  intros [= <- <-]. split; [done|]. intros cp' [= <-]. exists id, body. split_and!; [done|congruence|congruence|done|done].
Qed.

Lemma candidates_ok infos : Forall (fun fi => valid_key (fi_Path fi) = true) infos -> Forall candidate_ok (candidateBackupIDs infos).
Proof.
  intros Hinfos. apply Forall_forall. intros id Hid. unfold candidateBackupIDs, sort_strings_desc in Hid.
  rewrite list_elem_of_In, <- in_rev, <- list_elem_of_In, elem_of_sort_strings, elem_of_remove_dups in Hid.
  apply list_elem_of_omap in Hid as (p & Hp & Hc). apply list_elem_of_fmap in Hp as (fi & -> & Hfi).
  apply candidate_of_spec in Hc as (Hn & Hl & [u E]%HasPrefix_spec). split_and!; [done..|].
  rewrite Forall_forall in Hinfos. specialize (Hinfos fi Hfi). rewrite E, sapp_assoc in Hinfos.
  apply andb_true_iff in Hinfos as [_ Ht]. change ("/" +:+ u) with (String "/" u) in Ht.
  rewrite Contains_sep, negb_orb in Ht by done. apply andb_true_iff in Ht as [Ht _].
  unfold valid_key. rewrite Ht, andb_true_r. by apply plain_seg_path, backup_id_plain.
Qed.
End resume_spec.

(** C22: looking for a backup to resume never costs a finished backup a file: whatever fails, the only files
    that can go are those of backups without a manifest; and a backup that is taken up again has no
    manifest yet and left a checkpoint that fits the run in every field of the gate. *)
Theorem findResumable_safe {W : Type} `{BackendLaws W} gate grace now w r w' :
  findResumable gate grace now w = (r, w') ->
  (forall q, ~ unfinished_key (view w) q -> view w' !! q = view w !! q) /\
  forall cp, r = Ok (Some cp) -> resumable gate w' cp.
Proof.
  unfold findResumable. unfold bind, wrapping. destruct (list_spec "" w) as [Hv Hl].
  destruct (be_List "" w) as [[infos|e] w1] eqn:E; cbn [map_error snd] in *.
  - destruct (Hl infos w1 eq_refl) as [_ Hall]. assert (Hinfos : Forall (fun fi => valid_key (fi_Path fi) = true) infos).
    { apply Forall_forall. intros fi Hfi. by apply Hall. }
    apply find_candidates_spec; [done|by apply candidates_ok|]. intros q _. by rewrite Hv.
  - intros [= <- <-]. split; [intros q _; by rewrite Hv|done].
Qed.

(** ** Reusing files *)

Section clean_spec.
Context {W : Type} `{BackendLaws W} (id : string).

Definition entry_key (f : ResumeFileEntry) : string := path_Join [id; rf_Path f].

(** The stored file is the one of the entry. *)
Definition good (v : gmap string string) (f : ResumeFileEntry) : Prop :=
  reusableSkipPath (rf_Path f) = false /\
  exists c, v !! entry_key f = Some c /\ Z.of_nat (slen c) = rf_RepoSize f /\ Sum256 c = rf_RepoSHA256 f.

(** The plan is indexed by path and has only good entries that [P] allows. *)
Definition plan_ok (P : ResumeFileEntry -> Prop) (v : gmap string string) (plan : reusablePlan) : Prop :=
  forall p f, plan !! p = Some f -> p = rf_Path f /\ P f /\ good v f.

Lemma storageRepoSHAMatches_spec f w r w' : valid_key (entry_key f) = true ->
  storageRepoSHAMatches (entry_key f) (rf_RepoSize f) (rf_RepoSHA256 f) w = (r, w') ->
  view w' = view w /\
  (r = Ok true -> exists c, view w !! entry_key f = Some c /\ Z.of_nat (slen c) = rf_RepoSize f /\ Sum256 c = rf_RepoSHA256 f).
Proof.
  intros Hk. unfold storageRepoSHAMatches. unfold bind at 1, try. destruct (stat_spec _ w Hk) as (Hv & Hst & _).
  destruct (be_Stat (entry_key f) w) as [[fi|err] w1] eqn:E; cbn [snd] in *.
  - destruct (Hst fi w1 eq_refl) as (_ & Hsize). destruct (Z.eqb_spec (fi_Size fi) (rf_RepoSize f)) as [Heq|Hne]; cbn [negb];
      [|by intros [= <- <-]].
    unfold bind, ret. destruct (get_spec _ w1 Hk) as (Hv2 & Hget & _).
    destruct (be_Get (entry_key f) w1) as [[body|e] w2]; cbn [snd] in Hv2; intros Hrun;
      (assert (w' = w2) as -> by congruence); (split; [congruence|]); intros ->; [|discriminate Hrun].
    assert (Hsum : String.eqb (Sum256 body) (rf_RepoSHA256 f) = true) by congruence.
    apply String.eqb_eq in Hsum. specialize (Hget body w2 eq_refl). exists body.
    split_and!; [congruence| |done]. rewrite <- Heq. symmetry. apply Hsize. congruence.
  - destruct (isNotExistErr err); intros [= <- <-]; by split.
Qed.

Lemma clean_file_spec f plan w r w' : valid_key (entry_key f) = true -> clean_file id plan f w = (r, w') ->
  exists plan', r = Ok plan' /\
    ((plan' = plan /\ (view w' = view w \/ view w' = delete (entry_key f) (view w))) \/
     (plan' = <[rf_Path f := f]> plan /\ view w' = view w /\ good (view w) f)).
Proof.
  intros Hk. unfold clean_file. destruct (reusableSkipPath (rf_Path f)) eqn:Hskip; [intros [= <- <-]; exists plan; tauto|].
  destruct (_ || _); [intros [= <- <-]; exists plan; tauto|]. change (path_Join [id; rf_Path f]) with (entry_key f).
  unfold bind at 1, try at 1. destruct (storageRepoSHAMatches _ _ _ w) as [ok w1] eqn:E.
  apply storageRepoSHAMatches_spec in E as [Hv Hgood]; [|done]. destruct ok as [[]|e].
  - intros [= <- <-]. eexists. split; [done|]. right. split_and!; [done..|]. split; [done|]. by apply Hgood.
  - unfold bind, try, ret. destruct (delete_spec _ w1 Hk) as (_ & Hok & Hfail & _).
    destruct (be_Delete (entry_key f) w1) as [[[]|err] w2]; intros [= <- <-]; exists plan; (split; [done|]); left; (split; [done|]).
    + right. by rewrite (Hok w2 eq_refl), Hv.
    + rewrite <- Hv. by apply (Hfail err w2).
  - intros [= <- <-]. exists plan. split; [done|]. left. by split; [|left].
Qed.

Lemma good_frame v v' f : v' !! entry_key f = v !! entry_key f -> good v f -> good v' f.
Proof. intros Hv [Hs (c & Hc & Hg)]. split; [done|]. exists c. by rewrite Hv. Qed.

Lemma clean_loop (P : ResumeFileEntry -> Prop) files plan w r w' :
  Forall (fun f => valid_key (entry_key f) = true) files -> NoDup (map entry_key files) ->
  (forall f, f ∈ files -> P f) ->
  plan_ok (fun g => P g /\ entry_key g ∉ map entry_key files) (view w) plan ->
  forM files plan (clean_file id) w = (r, w') ->
  (forall q, q ∉ map entry_key files -> view w' !! q = view w !! q) /\
  (forall q, view w' !! q = view w !! q \/ view w' !! q = None) /\
  exists plan', r = Ok plan' /\ plan_ok P (view w') plan'.
Proof.
  intros Hk Hnd HP. revert plan w. induction files as [|f files IH]; intros plan w Hplan; cbn [forM].
  - intros [= <- <-]. split_and!; [done|by left|]. exists plan. split; [done|]. intros p g Hg.
    destruct (Hplan p g Hg) as (? & [? _] & ?). done.
  - apply Forall_cons in Hk as [Hkf Hk]. cbn [map] in *. apply NoDup_cons in Hnd as [Hnin Hnd].
    unfold bind. destruct (clean_file id plan f w) as [r1 w1] eqn:E1.
    destruct (clean_file_spec _ _ _ _ _ Hkf E1) as (plan1 & -> & Hcase). intros Hrun.
    assert (Hframe : forall q, q <> entry_key f -> view w1 !! q = view w !! q).
    { intros q Hq. destruct Hcase as [[_ [->| ->]]|(_ & -> & _)]; [done|by rewrite lookup_delete_ne|done]. }
    destruct (IH Hk Hnd (fun g Hg => HP g (list_elem_of_further _ _ _ Hg)) plan1 w1) as (Hf2 & Hd2 & Hok2); [|exact Hrun|].
    { intros p g Hg. assert (Hold : plan !! p = Some g -> p = rf_Path g /\ (P g /\ entry_key g ∉ map entry_key files) /\ good (view w1) g).
      { intros Hg'. destruct (Hplan p g Hg') as (? & [HPg Hni] & Hgood). apply not_elem_of_cons in Hni as [Hne Hni].
        split_and!; [done..|]. by apply (good_frame (view w)); [apply Hframe|]. }
      destruct Hcase as [[-> _]|(-> & Hv & Hgood)]; [by apply Hold|].
      apply lookup_insert_Some in Hg as [[<- <-]|[_ Hg]]; [|by apply Hold].
      split_and!; [done|apply HP; by constructor|done|by rewrite Hv]. }
    split_and!.
    + intros q [Hq Hni]%not_elem_of_cons. rewrite Hf2, Hframe by done. done.
    + intros q. destruct (Hd2 q) as [->| ->]; [|by right]. destruct (decide (q = entry_key f)) as [->|Hne]; [|left; by apply Hframe].
      destruct Hcase as [[_ [->| ->]]|(_ & -> & _)]; [by left|right; apply lookup_delete_eq|by left].
    + done.
Qed.
End clean_spec.

(** C23: a file is taken over from an interrupted backup only if the storage holds, under its path in that
    backup, bytes of the recorded size and digest when the new run starts; files that belong to one attempt
    only are never taken over; and nothing but files of the checkpoint is deleted, and nothing written. *)
Theorem cleanResumable_sound {W : Type} `{BackendLaws W} cp w r w' :
  Forall (fun f => valid_key (entry_key (cp_BackupID cp) f) = true) (cp_Files cp) ->
  NoDup (map (entry_key (cp_BackupID cp)) (cp_Files cp)) ->
  cleanResumable cp w = (r, w') ->
  (forall q, q ∉ map (entry_key (cp_BackupID cp)) (cp_Files cp) -> view w' !! q = view w !! q) /\
  (forall q, view w' !! q = view w !! q \/ view w' !! q = None) /\
  exists plan, r = Ok plan /\ forall p f, plan !! p = Some f ->
    p = rf_Path f /\ f ∈ cp_Files cp /\ good (cp_BackupID cp) (view w') f.
Proof.
  intros Hk Hnd Hrun. apply (clean_loop (cp_BackupID cp) (fun f => f ∈ cp_Files cp) (cp_Files cp) ∅ w r w' Hk Hnd (fun f Hf => Hf)); [|exact Hrun].
  intros p f Hf. discriminate Hf.
Qed.

(** ** An interrupted backup *)

Definition interrupted_checkpoint : ResumeCheckpoint :=
  {| cp_Version := 1; cp_PgsafeVersion := "v1"; cp_BackupID := "20260401T100000F"; cp_BackupType := "full";
     cp_ParentBackupID := ""; cp_Compression := "zstd:3"; cp_EncryptionRecipients := ["age1key"]; cp_SystemIdentifier := 7;
     cp_Timeline := 1; cp_StartLSN := 0x2000028; cp_StartTime := Date 2026 4 1 10 0 0; cp_CheckpointedAt := Date 2026 4 1 10 5 0;
     cp_Files := [{| rf_Path := "PG_VERSION"; rf_Size := 2; rf_SHA256 := Sum256 "18"; rf_ModTime := Date 2026 4 1 9 0 0;
                     rf_RepoSize := 6; rf_RepoSHA256 := Sum256 "AZ18za" |};
                  {| rf_Path := "base/1/2"; rf_Size := 4; rf_SHA256 := Sum256 "page"; rf_ModTime := Date 2026 4 1 9 0 0;
                     rf_RepoSize := 8; rf_RepoSHA256 := Sum256 "AZpageza" |}] |}.

Definition checkpoint_text : string := match MarshalResumeCheckpoint interrupted_checkpoint with Ok t => t | Fail _ => "" end.

(** The second file was torn; another backup is finished. *)
Definition interrupted_mem : mem :=
  mem_init {["20260401T100000F/backup_manifest.copy" := checkpoint_text;
             "20260401T100000F/PG_VERSION" := "AZ18za"; "20260401T100000F/base/1/2" := "AZpa";
             "20260331T100000F/backup_manifest" := "{}"]} [].

Definition interrupted_gate : resumeGate :=
  {| rg_PgsafeVersion := "v1"; rg_BackupType := "full"; rg_ParentBackupID := ""; rg_Compression := "zstd:3";
     rg_EncryptionRecipients := ["age1key"]; rg_SystemIdentifier := 7 |}.

Lemma interrupted_found :
  match fst (findResumable interrupted_gate (24 * Hour) (Date 2026 4 1 11 0 0) interrupted_mem) with
  | Ok (Some cp) => String.eqb (cp_BackupID cp) "20260401T100000F" && (length (cp_Files cp) =? 2)%nat
  | _ => false
  end = true.
Proof. vm_compute. reflexivity. Qed.

Lemma findResumable_safe_witness : exists cp w',
  findResumable interrupted_gate (24 * Hour) (Date 2026 4 1 11 0 0) interrupted_mem = (Ok (Some cp), w') /\
  resumable interrupted_gate w' cp.
Proof.
  pose proof interrupted_found as Hok.
  destruct (findResumable interrupted_gate (24 * Hour) (Date 2026 4 1 11 0 0) interrupted_mem) as [[[cp|]|e] w'] eqn:Hrun; [|discriminate Hok..].
  exists cp, w'. split; [reflexivity|].
  destruct (findResumable_safe interrupted_gate (24 * Hour) (Date 2026 4 1 11 0 0) interrupted_mem (Ok (Some cp)) w' Hrun) as [_ Hres].
  exact (Hres cp eq_refl).
Defined.

Lemma interrupted_cleaned :
  match fst (cleanResumable interrupted_checkpoint interrupted_mem) with
  | Ok plan => bool_decide (map fst (map_to_list plan) = ["PG_VERSION"])
  | Fail _ => false
  end = true.
Proof. vm_compute. reflexivity. Qed.

Lemma cleanResumable_sound_witness : exists plan w', cleanResumable interrupted_checkpoint interrupted_mem = (Ok plan, w') /\
  forall p f, plan !! p = Some f -> good "20260401T100000F" (view w') f.
Proof.
  pose proof interrupted_cleaned as Hok.
  destruct (cleanResumable interrupted_checkpoint interrupted_mem) as [[plan|e] w'] eqn:Hrun; [|discriminate Hok].
  exists plan, w'. split; [reflexivity|].
  destruct (cleanResumable_sound interrupted_checkpoint interrupted_mem (Ok plan) w') as (_ & _ & plan' & [= <-] & Hall);
    [repeat constructor|apply NoDup_cons; split; [|apply NoDup_singleton]; intros Hin%list_elem_of_singleton; discriminate Hin|exact Hrun|].
  intros p f Hf. apply (Hall p f Hf).
Defined.
