(* ===== verification/Backup.v ===== *)
(** * Taking a backup

    [internal/backup/backup.go]: the identifier of a new backup, the stream of
    [pg_basebackup] through the filter chain into the storage, the WAL bracket, and the
    manifest that makes the backup visible, for one storage; and the bookkeeping of several
    storages. *)

From S2P Require Import Prelude Sha256 Lsn Wal Storage Host Time Json Manifest Archive Filter Incremental Bracket Resume.

(** ** Backup IDs *)

(** [TypeFull] and [TypeIncremental] *)
Definition TypeFull : string := "full".
Definition TypeIncremental : string := "incremental".

(** [FormatBackupID] *)
Definition FormatBackupID (startedAt : time) (t : string) : string :=
  FormatCompact (UTC startedAt) +:+ (if String.eqb t TypeIncremental then "I" else "F").

(** A per-backup sidecar gives its directory. *)
Definition sidecar_dir (p : string) : option string :=
  if negb (String.eqb (path_Base p) "Storage-Metadata.json") then None
  else let dir := path_Dir p in
       if String.eqb dir "" || String.eqb dir "." then None else Some dir.

(** Whether the first label is not after the second in byte order. *)
Definition label_le (a b : string) : bool := match String.compare a b with Gt => false | _ => true end.

Section labels.
Context {W : Type} `{Backend W}.

(** [latestStorageLabel] *)
Definition latestStorageLabel : M W string :=
  infos <- wrapping "backup: list storage for label collision check" (be_List "") ;;
  ret (match sort_strings_desc (omap sidecar_dir (fi_Path <$> infos)) with [] => "" | l :: _ => l end).

(** [ChooseBackupID] *)
Definition ChooseBackupID (t : string) (now : time) : M W string :=
  let candidate := FormatBackupID now t in
  latest <- latestStorageLabel ;;
  if negb (String.eqb latest "") && label_le candidate latest then
    let candidate := FormatBackupID (Add now Second) t in
    if label_le candidate latest then throw (errors_New "backup: new label is not later than latest") else ret candidate
  else ret candidate.
End labels.

(** ** The stream of [pg_basebackup] *)

(** One entry of the tar stream: the reads of its body and how they end. *)
Record tar_entry := {
  te_Name : string;
  te_Typeflag : ascii;
  te_chunks : list string;
  te_err : option error;
  te_ModTime : time;
}.

Definition TypeDir : ascii := "5".

(** [buildArgs] of [internal/pg/basebackup] *)
Definition buildArgs (DSN Label IncrementalManifestPath WALMethod : string) : result (list string) :=
  let method := if String.eqb WALMethod "" then "none" else WALMethod in
  if String.eqb method "none" || String.eqb method "fetch" then
    Ok (["-d"; DSN; "--pgdata=-"; "--format=tar"; "--wal-method=" +:+ method; "--checkpoint=fast"; "--label=" +:+ Label] ++
        if negb (String.eqb IncrementalManifestPath "") then ["--incremental=" +:+ IncrementalManifestPath] else ["--no-manifest"])
  else if String.eqb method "stream" then Fail (errors_New "basebackup: --wal-method=stream is not supported")
  else Fail (errors_New "basebackup: unknown WAL method").

(** [BaseBackup] and [Close] of the cluster. A stream is the entries it will give and the error
    it ends with, if it does not end properly. *)
Class BaseBackup (W : Type) := {
  bb_Start : string -> string -> M W (list tar_entry * option error);   (* manifest of the parent, WAL method *)
  bb_Close : M W unit;
}.

(** ** Options and state *)

(** [Options], for one storage in simple mode. *)
Record BackupOptions `{FilterLibs} := {
  bo_Filter : Chain;
  bo_HasPool : bool;
  bo_Server : string;
  bo_Label : string;
  bo_WALTimeout : Z;
  bo_WALSource : string;
  bo_ResumeDisabled : bool;
  bo_ResumeCheckpointEveryN : Z;
  bo_ResumeGracePeriod : Z;
  bo_PgsafeVersion : string;
  bo_Recipients : list string;
  bo_Compression : string;
  bo_ScratchDir : string;
  bo_TempDir : string;
  bo_Type : string;
  bo_ParentBackupID : string;
}.

(** [Result], without the duration. *)
Record BackupResult := {
  br_BackupID : string; br_StartLSN : LSN; br_StopLSN : LSN; br_Timeline : Z; br_Files : Z; br_Bytes : Z;
}.

(** The variables of the loop over the entries. *)
Record progress := Progress {
  l_fileCount : Z;
  l_bytesTotal : Z;
  l_startLSN : LSN;
  l_timeline : Z;
  l_labelSeen : bool;
  l_dirs : list string;
  l_pgManifest : option string;
  l_mb : Builder;
  l_rc : option resumeCheckpointer;
}.

Fixpoint TrimRight_slash (s : string) : string :=
  match s with
  | "" => ""
  | String c s' => match TrimRight_slash s' with
                   | "" => if Ascii.eqb c "/" then "" else String c ""
                   | r => String c r
                   end
  end.

Section backup.
Context {W : Type} `{Backend W, Host W, Disk W, Clock W, Pg W, BaseBackup W, FilterLibs}.
Context (Now : W -> time).

Definition resume_of (opts : BackupOptions) : resumeOptions :=
  {| ro_ResumeDisabled := bo_ResumeDisabled opts; ro_CheckpointEveryN := bo_ResumeCheckpointEveryN opts;
     ro_GracePeriod := bo_ResumeGracePeriod opts; ro_PgsafeVersion := bo_PgsafeVersion opts; ro_Type := bo_Type opts;
     ro_ParentBackupID := bo_ParentBackupID opts; ro_Compression := bo_Compression opts; ro_Recipients := bo_Recipients opts |}.

(** [io.CopyBuffer] into the chain, which hands the writer back whatever happened. *)
Fixpoint copy_chunks (chunks : list string) (cw : chainWriter) : M W (result unit * chainWriter) :=
  match chunks with
  | [] => ret (Ok tt, cw)
  | p :: chunks =>
      d <- Write p cw ;;
      let '(r, cw) := d in
      match r with Fail err => ret (Fail err, cw) | Ok _ => copy_chunks chunks cw end
  end.

(** The body of an entry through the chain into an open writer. *)
Definition pipe_entry (chain : Chain) (e : tar_entry) (wc : be_Writer) : M W FilterResult :=
  cw <- wrapping "backup: filter.Wrap" (Wrap chain wc) ;;
  d <- copy_chunks (te_chunks e) cw ;;
  let '(r, cw) := d in
  match r, te_err e with
  | Fail err, _ | Ok _, Some err => try (Close cw) ;;; throw (Errorf_w "backup: copy" err)
  | Ok _, None =>
      d <- Close cw ;;
      let '(r, cw) := d in
      match r with Fail err => throw (Errorf_w "backup: close" err) | Ok _ => ret (cw_res cw) end
  end.

(** One file of the stream into the storage. *)
Definition store_entry (chain : Chain) (repoPath : string) (e : tar_entry) : M W FilterResult :=
  wc <- wrapping "backup: storage.Put" (be_Put repoPath) ;;
  pipe_entry chain e wc.

(** An entry whose bytes an interrupted backup has stored already. *)
Definition reuse_entry (e : tar_entry) (reused : ResumeFileEntry) (p : progress) : M W progress :=
  match te_err e with
  | Some err => throw (Errorf_w "backup: drain reused" err)
  | None =>
      let mb := AddFile (l_mb p) (te_Name e) (rf_Size reused) (rf_SHA256 reused) (te_ModTime e) in
      let mb := SetLatestRepoChecksum mb (rf_RepoSize reused) (rf_RepoSHA256 reused) in
      rc <- onAddFile Now (l_rc p) mb ;;
      ret (Progress (l_fileCount p + 1) (l_bytesTotal p + rf_Size reused) (l_startLSN p) (l_timeline p) (l_labelSeen p)
             (l_dirs p) (l_pgManifest p) mb rc)
  end.

(** What the run notes of an entry that is stored. *)
Definition record_upload (p : progress) (e : tar_entry) (res : FilterResult) : M W progress :=
  let label := String.eqb (te_Name e) "backup_label" in
  let mb := if isIncrementalFileName (te_Name e)
            then AddIncrementalFile (l_mb p) (te_Name e) (res_Bytes res) (res_SHA256 res) [] (te_ModTime e)
            else AddFile (l_mb p) (te_Name e) (res_Bytes res) (res_SHA256 res) (te_ModTime e) in
  let mb := SetLatestRepoChecksum mb (res_RepoBytes res) (res_RepoSHA256 res) in
  rc <- onAddFile Now (l_rc p) mb ;;
  let '(start, tli, mb) :=
    if label then match parseBackupLabel (Join (te_chunks e) "") with
                  | Ok (s, t) => (s, t, UpdateStartLSN mb s t)
                  | Fail _ => (l_startLSN p, l_timeline p, mb)
                  end
    else (l_startLSN p, l_timeline p, mb) in
  ret (Progress (l_fileCount p + 1) (l_bytesTotal p + res_Bytes res) start tli (l_labelSeen p || label) (l_dirs p)
         (l_pgManifest p) mb rc).

(** An entry that is stored. *)
Definition upload_entry (opts : BackupOptions) (backupID : string) (p : progress) (e : tar_entry) : M W progress :=
  res <- store_entry (bo_Filter opts) (path_Join [backupID; te_Name e]) e ;;
  record_upload p e res.

(** One round of the loop. *)
Definition take_entry (opts : BackupOptions) (backupID : string) (plan : option reusablePlan) (p : progress) (e : tar_entry)
  : M W progress :=
  let name := te_Name e in
  if Ascii.eqb (te_Typeflag e) TypeDir then
    let rel := TrimRight_slash name in
    ret (if negb (String.eqb rel "") && negb (String.eqb rel ".")
         then Progress (l_fileCount p) (l_bytesTotal p) (l_startLSN p) (l_timeline p) (l_labelSeen p) (l_dirs p ++ [rel])
                (l_pgManifest p) (l_mb p) (l_rc p)
         else p)
  else if negb (Ascii.eqb (te_Typeflag e) "000") && negb (Ascii.eqb (te_Typeflag e) "0") then ret p
  else if Contains name ".." || HasPrefix name "/" then throw (errors_New "backup: refusing tar entry with traversal-style path")
  else match plan ≫= fun plan => plan !! name with
       | Some reused => reuse_entry e reused p
       | None =>
           if String.eqb name "backup_manifest" && String.eqb (bo_Type opts) TypeIncremental then
             match te_err e with
             | Some err => throw (Errorf_w "backup: read backup_manifest" err)
             | None => ret (Progress (l_fileCount p) (l_bytesTotal p) (l_startLSN p) (l_timeline p) (l_labelSeen p) (l_dirs p)
                              (Some (Join (te_chunks e) "")) (l_mb p) (l_rc p))
             end
           else upload_entry opts backupID p e
       end.

(** The whole stream. *)
Definition take_stream (opts : BackupOptions) (backupID : string) (plan : option reusablePlan)
    (stream : list tar_entry * option error) (p : progress) : M W progress :=
  p <- forM (fst stream) p (take_entry opts backupID plan) ;;
  match snd stream with Some err => throw (Errorf_w "backup: tar.Next" err) | None => ret p end.

(** The WAL of the bracket, and its records for the sidecar. *)
Definition take_bracket (opts : BackupOptions) (segSize : Z) (p : progress) : M W (LSN * list WALSegmentRecord) :=
  stopLSN <- wrapping "backup: stop-LSN query" switchAndCurrentLSN ;;
  segments <- wrapping "backup"
    (AcquireBracketWAL {| aq_Timeline := l_timeline p; aq_StartLSN := l_startLSN p; aq_StopLSN := stopLSN;
                          aq_SegSize := segSize; aq_Timeout := bo_WALTimeout opts; aq_WALSource := bo_WALSource opts |}) ;;
  walRecords <- (if walRecordsNeeded (bo_WALSource opts)
                 then wrapping "backup: hash WAL" (hashWALSegments (l_timeline p) segments) else ret []) ;;
  ret (stopLSN, walRecords).

Definition manifest_bytes (p : progress) (stopLSN : LSN) (now : time) : string :=
  match l_pgManifest p with
  | Some m => m
  | None => Finalize (l_mb p) {| be_StopLSN := stopLSN; be_StopTime := UTC now |}
  end.

(** The sidecar of the backup. *)
Definition backup_sidecar (opts : BackupOptions) (sysID : Z) (p : progress) (walRecords : list WALSegmentRecord) : Sidecar :=
  {| sc_Version := SidecarVersion; sc_Server := bo_Server opts; sc_EncryptionRecipients := bo_Recipients opts;
     sc_Compression := bo_Compression opts; sc_StorageLayoutVersion := 1; sc_WALSegments := walRecords;
     sc_SystemIdentifier := sysID; sc_Directories := l_dirs p;
     sc_Type := if String.eqb (bo_Type opts) TypeIncremental then BackupTypeIncremental else BackupTypeFull;
     sc_ParentBackupID := bo_ParentBackupID opts; sc_Annotation := ""; sc_LockHeld := false |}.

(** The manifest under a temporary name, the sidecar, and the rename that makes the backup live. *)
Definition publish_files (backupID manifestBytes : string) (sc : Sidecar) : M W unit :=
  wrapping "backup: write manifest"
    (writeStorageFileAtomic (path_Join [backupID; "backup_manifest.tmp"]) manifestBytes) ;;;
  scBytes <- of_result (map_error (Errorf_w "backup: marshal sidecar") (MarshalSidecar sc)) ;;
  wrapping "backup: write sidecar" (writeStorageFileAtomic (path_Join [backupID; "Storage-Metadata.json"]) scBytes) ;;;
  wrapping "backup: commit manifest"
    (be_Commit (path_Join [backupID; "backup_manifest.tmp"]) (path_Join [backupID; "backup_manifest"])).

Definition publish (opts : BackupOptions) (backupID : string) (sysID : Z) (p : progress) (stopLSN : LSN)
    (walRecords : list WALSegmentRecord) : M W unit :=
  now <- read Now ;;
  publish_files backupID (manifest_bytes p stopLSN now) (backup_sidecar opts sysID p walRecords).

(** From the start of [pg_basebackup] to the live backup; its [Close] is deferred. *)
Definition stream_backup (opts : BackupOptions) (id : ClusterIdentity) (startedAt : time) (backupID parentManifestPath : string)
    (plan : option reusablePlan) : M W BackupResult :=
  let walMethod := if String.eqb (bo_WALSource opts) WALSourceStream then "fetch" else "" in
  stream <- wrapping "backup: open BASE_BACKUP" (bb_Start parentManifestPath walMethod) ;;
  r <- try (
    let mb := NewBuilder {| bs_SystemIdentifier := id_SystemIdentifier id; bs_Timeline := id_Timeline id;
                            bs_StartLSN := id_CheckpointLSN id; bs_StartTime := UTC startedAt |} in
    let rc := newResumeCheckpointer (resume_of opts) backupID startedAt (id_SystemIdentifier id) (id_Timeline id) (id_CheckpointLSN id) in
    p <- take_stream opts backupID plan stream
           (Progress 0 0 (id_CheckpointLSN id) (id_Timeline id) false [] None mb rc) ;;
    wrapping "backup: pg_basebackup" bb_Close ;;;
    if negb (l_labelSeen p) then throw (errors_New "backup: backup_label not present in tar")
    else
      b <- take_bracket opts (id_WALSegmentSize id) p ;;
      publish opts backupID (id_SystemIdentifier id) p (fst b) (snd b) ;;;
      ret {| br_BackupID := backupID; br_StartLSN := l_startLSN p; br_StopLSN := fst b; br_Timeline := l_timeline p;
             br_Files := l_fileCount p; br_Bytes := l_bytesTotal p |}) ;;
  try bb_Close ;;;
  of_result r.

(** The checks before anything is read, and what is resumed. *)
Definition prepare_backup (opts : BackupOptions) (startedAt : time)
  : M W (ClusterIdentity * string * option reusablePlan) :=
  backupID <- ChooseBackupID (bo_Type opts) startedAt ;;
  (if bo_HasPool opts && walRecordsNeeded (bo_WALSource opts)
   then wrapping "backup" (ProbeArchive (bo_WALTimeout opts)) else ret tt) ;;;
  id <- wrapping "backup: identity" pg_identity ;;
  verifyClusterIdentity (id_SystemIdentifier id) ;;;
  (if bo_HasPool opts then wrapping "backup" InspectStandby else ret tt) ;;;
  resumedFrom <- try (tryResume Now (resume_of opts) (id_SystemIdentifier id)) ;;
  match resumedFrom with
  | Ok (Some cp) =>
      plan <- cleanResumable cp ;;
      ret (id, cp_BackupID cp, Some plan)
  | Ok None | Fail _ => ret (id, backupID, None)
  end.

(** [runSimple] for one storage. *)
Definition runSimple (opts : BackupOptions) : M W BackupResult :=
  startedAt <- read Now ;;
  d <- prepare_backup opts startedAt ;;
  let '(id, backupID, plan) := d in
  if String.eqb (bo_Type opts) TypeIncremental then
    if String.eqb (bo_ParentBackupID opts) "" then throw (errors_New "backup: incremental requires ParentBackupID")
    else
      path <- wrapping "backup: stage parent manifest"
                (stageParentManifest (bo_TempDir opts) (bo_ParentBackupID opts) (bo_ScratchDir opts)) ;;
      let backupID := bo_ParentBackupID opts +:+ "_" +:+ FormatCompact (UTC startedAt) +:+ "I" in
      r <- try (stream_backup opts id startedAt backupID path plan) ;;
      try (os_Remove path) ;;;
      of_result r
  else stream_backup opts id startedAt backupID "" plan.
End backup.

(** ** Several storages *)

Section multi.
Context {W : Type}.

(** [multiState]: the storages and which of them have failed. *)
Record multiState := { ms_backends : list (Backend W); ms_dead : list bool }.

(** [newMultiState] *)
Definition newMultiState (backends : list (Backend W)) : multiState :=
  {| ms_backends := backends; ms_dead := repeat false (length backends) |}.

(** [commitMulti]: the storages that committed, and the last error. *)
Fixpoint commit_all (backends : list (Backend W)) (dead : list bool) (tmp final : string)
  : M W (list bool * Z * option error) :=
  match backends, dead with
  | b :: backends, true :: dead =>
      d <- commit_all backends dead tmp final ;;
      let '(dead, n, last) := d in ret (true :: dead, n, last)
  | b :: backends, false :: dead =>
      r <- try (@be_Commit W b tmp final) ;;
      d <- commit_all backends dead tmp final ;;
      let '(dead, n, last) := d in
      match r with
      | Fail err => ret (true :: dead, n, match last with Some e => Some e | None => Some err end)
      | Ok _ => ret (false :: dead, n + 1, last)
      end
  | _, _ => ret ([], 0, None)
  end.

Definition commitMulti (ms : multiState) (tmp final : string) : M W (multiState * Z * option error) :=
  d <- commit_all (ms_backends ms) (ms_dead ms) tmp final ;;
  let '(dead, n, last) := d in
  ret ({| ms_backends := ms_backends ms; ms_dead := dead |}, n, last).

(** [multiState.merge] *)
Fixpoint mark_dead (results : list (option error)) (sinkIdx : list nat) (dead : list bool) : list bool :=
  match results, sinkIdx with
  | r :: results, i :: sinkIdx =>
      mark_dead results sinkIdx (match r with Some _ => <[i := true]> dead | None => dead end)
  | _, _ => dead
  end.

Definition merge (results : list (option error)) (sinkIdx : list nat) (ms : multiState) : multiState :=
  {| ms_backends := ms_backends ms; ms_dead := mark_dead results sinkIdx (ms_dead ms) |}.

(** [multiState.failedCount] *)
Definition failedCount (ms : multiState) : Z := Z.of_nat (length (List.filter (fun d => d) (ms_dead ms))).
End multi.
