(* ===== verification/BackupSpec.v ===== *)
(** * What a backup leaves in the storage

    A backup becomes visible with its manifest, and only then: whatever fails, either the
    manifest is not there or the whole backup is, every file of the stream under its name with
    bytes that decode to it. Together with the theorem on restores: what is restored from the
    backup is what the cluster streamed. *)

From S2P Require Import Prelude Sha256 Lsn Wal Storage Keys Host Time Json JsonSpec Manifest ManifestSpec Worlds Archive Filter Incremental Verify VerifySpec Bracket BracketSpec Resume ResumeSpec Restore RestoreSpec Backup.

(** ** Backup IDs *)

(** The characters of a compact date. *)
Definition id_char (c : ascii) : bool := is_digit c || Ascii.eqb c "-" || Ascii.eqb c "T" || Ascii.eqb c "I" || Ascii.eqb c "F".

Lemma FormatPad_id w n : sall id_char (FormatPad w n) = true.
Proof.
  assert (Hd : forall s, sall is_digit s = true -> sall id_char s = true).
  { intros s. apply sall_impl. unfold id_char. by intros c ->. }
  assert (HD : sall id_char (FormatD n) = true).
  { destruct (Z.lt_ge_cases n 0) as [Hn|Hn].
    - rewrite FormatD_neg by done. destruct (FormatD_digits (- n)) as (c & d & -> & Hcd & _); [lia|]. by apply (Hd (String c d)).
    - destruct (FormatD_digits n Hn) as (c & d & -> & Hcd & _). by apply Hd. }
  unfold FormatPad. induction (w - slen (FormatD n))%nat as [|k IH]; [done|].
  change (id_char "0" && sall id_char (Nat.iter k (String "0") (FormatD n)) = true). by rewrite IH.
Qed.

Lemma FormatBackupID_chars t ty : sall id_char (FormatBackupID t ty) = true /\ FormatBackupID t ty <> "".
Proof.
  unfold FormatBackupID, FormatCompact. destruct (clock_of (UTC t)) as [[hh mm] ss]. split.
  - rewrite !sall_app, !FormatPad_id. by destruct (String.eqb ty TypeIncremental).
  - intros E. apply (f_equal slen) in E. rewrite !slen_app in E. cbn [slen] in E. lia.
Qed.

(** An ID that names a directory of its own. *)
Definition own_id (id : string) : Prop := valid_key id = true /\ no_byte "/" id = true /\ copyable id = true /\ id <> "wal".

Lemma id_chars_own id : sall id_char id = true -> id <> "" -> own_id id.
Proof.
  intros Hc Hne. assert (Hno : forall c, id_char c = false -> no_byte c id = true).
  { intros c Hf. unfold no_byte. revert Hc. apply sall_impl. intros d Hd. apply negb_true_iff, Ascii.eqb_neq. by intros ->; rewrite Hd in Hf. }
  assert (Hdot : forall s, no_byte "." s = false -> id <> s) by (intros s Hs ->; by rewrite Hno in Hs).
  split_and!; [|by apply Hno|unfold copyable; by rewrite !Hno|by intros ->].
  unfold valid_key. apply andb_true_iff. split.
  - apply plain_seg_path. unfold plain_seg. rewrite (Hno "/"%char) by done. rewrite andb_true_r, !andb_true_iff, !negb_true_iff.
    split_and!; apply String.eqb_neq; [done|by apply Hdot..].
  - apply negb_true_iff. by apply (Contains_byte _ _ "."%char); [apply Hno|].
Qed.

Lemma FormatBackupID_own t ty : own_id (FormatBackupID t ty).
Proof. destruct (FormatBackupID_chars t ty). by apply id_chars_own. Qed.

(** ** The keys of a backup *)

(** The key of a file of the backup. *)
Lemma own_key id n : own_id id -> valid_key n = true ->
  path_Join [id; n] = id +:+ "/" +:+ n /\ valid_key (path_Join [id; n]) = true /\ ~ wal_key (path_Join [id; n]).
Proof.
  intros (Hk & Hn & _ & Hw) Hv. destruct (valid_key_join id n Hk Hv) as [E Hv']. split_and!; [done..|].
  intros Hp. apply Hw. unfold wal_key in Hp. apply (prefix_dir_inj id "wal" (path_Join [id; n])); [done|done| |exact Hp].
  rewrite E, <- sapp_assoc. apply HasPrefix_app.
Qed.

Lemma own_copyable id n : own_id id -> valid_key n = true -> copyable n = true -> copyable (path_Join [id; n]) = true.
Proof. intros Hid Hv Hn. destruct (own_key id n Hid Hv) as [-> _]. destruct Hid as (_ & _ & Hc & _). by rewrite !copyable_app, Hc, Hn. Qed.

Lemma own_key_inj id a b : own_id id -> valid_key a = true -> valid_key b = true -> path_Join [id; a] = path_Join [id; b] -> a = b.
Proof.
  intros Hid Ha Hb E. destruct (own_key id a Hid Ha) as [Ea _], (own_key id b Hid Hb) as [Eb _]. rewrite Ea, Eb in E.
  apply sapp_inj_len in E as [_ E]; [by injection E|done].
Qed.

(** ** What a run may touch before its manifest *)

(** Every key of the backup but that of its manifest, and the WAL others archive. *)
Definition hidden_key (id q : string) : Prop :=
  wal_key q \/ exists n, valid_key n = true /\ n <> "backup_manifest" /\ q = path_Join [id; n].

Section frames.
Context {W : Type} `{BackendLaws W, !Clock W, !ClockLaws W, !Pg W, !PgLaws W, FilterLibs}.
Context (Now : W -> time) (id : string).
Hypothesis Hid : own_id id.

Abbreviation hides := (same_outside (hidden_key id)).

Lemma quiet_hides {A} (m : M W A) : quiet m -> preserves hides m.
Proof. intros Hq w. eapply same_outside_mono; [|apply Hq]. by left. Qed.

Lemma one_key_hides {A} n (m : M W A) : valid_key n = true -> n <> "backup_manifest" ->
  preserves (same_outside (fun q => q = path_Join [id; n])) m -> preserves hides m.
Proof. intros Hn Hm Hp w. eapply same_outside_mono; [|apply Hp]. intros q ->. right. by exists n. Qed.

(** [copy_chunks] keeps the writer open and shows nothing. *)
Lemma copy_chunks_silent key chunks cw w : open_at key (cw_sink cw) w -> exists r cw' w',
  copy_chunks chunks cw w = (Ok (r, cw'), w') /\ view w' = view w /\ cw_sink cw' = cw_sink cw /\ open_at key (cw_sink cw) w'.
Proof.
  revert cw w. induction chunks as [|x chunks IH]; intros cw w Ho; cbn [copy_chunks]; [by eexists _, cw, w|].
  unfold bind. destruct (Write_silent key x cw w Ho) as (r & cw1 & w1 & -> & Hv & Hs & Ho1). destruct r as [[]|e]; [|by eexists _, cw1, w1].
  rewrite <- Hs in Ho1. destruct (IH cw1 w1 Ho1) as (r & cw2 & w2 & E & Hv2 & Hs2 & Ho2). rewrite Hs in *.
  exists r, cw2, w2. split_and!; [done|congruence|congruence|done].
Qed.

Lemma store_entry_outside ch key e : valid_key key = true -> preserves (same_outside (fun q => q = key)) (store_entry ch key e).
Proof.
  intros Hk w. unfold store_entry, pipe_entry, wrapping. unfold bind at 1. destruct (put_spec key w Hk) as [Hv Hp].
  destruct (be_Put key w) as [[h|err] w1]; cbn [map_error snd] in *; [|by apply same_view_outside].
  assert (Ho : open_at key h w1) by (exists ""; by apply Hp). unfold bind at 1.
  destruct (Wrap_silent key ch h w1 Ho) as (Hv1 & Ho2 & Hok). destruct (Wrap ch h w1) as [[cw|err] w2]; cbn [map_error snd] in *;
    [|apply same_view_outside; unfold same_view; congruence].
  pose proof (Hok cw w2 eq_refl) as Hs. rewrite <- Hs in Ho2. unfold bind at 1.
  destruct (copy_chunks_silent key (te_chunks e) cw w2 Ho2) as (r & cw3 & w3 & -> & Hv3 & Hs3 & Ho3). rewrite <- Hs3 in Ho3.
  pose proof (Close_outside key cw3 w3 Ho3) as Hc.
  assert (Hout : forall w', same_outside (fun q => q = key) w3 w' -> same_outside (fun q => q = key) w w').
  { intros w' Hw q Hq. rewrite (Hw q Hq). congruence. }
  unfold bind, try, throw. destruct r as [[]|err]; [destruct (te_err e)|]; destruct (Close cw3 w3) as [[[[[]|err'] cw4]|err'] w4]; cbn [snd] in *; by apply Hout.
Qed.

(** A file written in pieces, and what follows when all went well. *)
Lemma put_file_outside (K : string -> Prop) (tmp body m1 m2 m3 : string) (k : M W unit) :
  valid_key tmp = true -> K tmp -> (forall w, is_Some (view w !! tmp) -> same_outside K w (snd (k w))) ->
  preserves (same_outside K) (wc <- wrapping m1 (be_Put tmp) ;;
                   r <- try (be_Write wc body) ;;
                   match r with
                   | Fail err => try (be_Close wc) ;;; throw (Errorf_w m2 err)
                   | Ok _ => wrapping m3 (be_Close wc) ;;; k
                   end).
Proof.
  intros Hkey HK Hk w. unfold bind at 1, wrapping at 1.
  destruct (put_spec tmp w Hkey) as [Hv Hp]. destruct (be_Put tmp w) as [[h|err] w1]; cbn [map_error snd] in *;
    [|by apply same_view_outside].
  assert (Ho : open_at tmp h w1) by (exists ""; by apply Hp).
  destruct (be_Write_open _ h body w1 Ho) as [Hv1 Ho1]. unfold bind, try. destruct (be_Write h body w1) as [r w2]. cbn [snd] in *.
  assert (Hc : same_outside K w (snd (be_Close h w2))).
  { etrans; [apply same_view_outside; unfold same_view; transitivity (view w1); [exact Hv1|exact Hv]|]. eapply same_outside_mono; [|apply (be_Close_outside _ h w2 Ho1)].
    by intros q ->. }
  destruct Ho1 as [c Ho1]. pose proof (proj2 (close_spec h w2 tmp c Ho1)) as Hok.
  unfold wrapping. destruct r as [[]|err]; destruct (be_Close h w2) as [[[]|err'] w3]; cbn [snd map_error] in *; try done.
  etrans; [exact Hc|apply Hk]. rewrite (Hok w3 eq_refl), lookup_insert_eq. by eexists.
Qed.

(** The keys of the checkpoint. *)
Definition checkpoint_key (q : string) : Prop :=
  q = path_Join [id; resumeCheckpointFilename] \/ q = path_Join [id; "backup_manifest.copy.staging"].

Abbreviation checkpoints := (same_outside checkpoint_key).

Lemma flush_outside rc mb : rc_backupID rc = id -> preserves checkpoints (flush Now rc mb).
Proof.
  intros Hrc. unfold flush. rewrite Hrc. set (final := path_Join [id; resumeCheckpointFilename]).
  set (tmp := final +:+ ".staging").
  destruct (own_key id resumeCheckpointFilename Hid eq_refl) as (Ef & Hkf & _).
  destruct (own_key id "backup_manifest.copy.staging" Hid eq_refl) as (Et & Hkt & _).
  assert (E : tmp = path_Join [id; "backup_manifest.copy.staging"]) by (unfold tmp, final; by rewrite Ef, Et, !sapp_assoc).
  apply preserves_bind; [tc_solve|apply preserves_read; tc_solve|intros now].
  apply preserves_bind; [tc_solve|apply preserves_of_result; tc_solve|intros body].
  apply preserves_bind; [tc_solve| |intros d].
  { apply preserves_try. intros w. eapply same_outside_mono; [|by apply delete_outside]. intros q ->. by left. }
  apply preserves_bind; [tc_solve|repeat case_match; first [apply preserves_ret|apply preserves_throw]; tc_solve|intros _].
  apply put_file_outside; [by rewrite E|by right|]. intros w Hs.
  eapply same_outside_mono; [|unfold wrapping; pose proof (commit_outside tmp final w) as Hc; destruct (be_Commit tmp final w); apply Hc]; [|by rewrite E|done|rewrite E; by apply own_copyable| |done].
  - intros q [->| ->]; [by right|by left].
  - rewrite E. intros E2. by apply own_key_inj in E2.
Qed.

Definition own_checkpoint (rc : option resumeCheckpointer) : Prop := forall c, rc = Some c -> rc_backupID c = id.

Lemma onAddFile_outside rc mb w : own_checkpoint rc -> exists rc' w', onAddFile Now rc mb w = (Ok rc', w') /\
  checkpoints w w' /\ own_checkpoint rc'.
Proof.
  intros Hrc. unfold onAddFile. destruct rc as [c|]; [|by eexists _, w].
  destruct (rc_disabled c); [by eexists _, w|].
  destruct (negb _); [eexists _, w; split_and!; [done|done|]; intros c' [= <-]; exact (Hrc c eq_refl)|].
  unfold bind, try. match goal with |- context [flush Now ?c' mb] => pose proof (flush_outside c' mb (Hrc c eq_refl) w) as Hf; destruct (flush Now c' mb w) as [r w1] end.
  eexists _, w1. split_and!; [done|done|]. intros c' [= <-]. destruct r; exact (Hrc c eq_refl).
Qed.

(** ** One entry of the stream *)

(** The bytes of an entry, and whether it is a file. *)
Definition content (e : tar_entry) : string := Join (te_chunks e) "".
Definition is_regular (e : tar_entry) : bool :=
  negb (Ascii.eqb (te_Typeflag e) TypeDir) && (Ascii.eqb (te_Typeflag e) "000" || Ascii.eqb (te_Typeflag e) "0").
Definition regulars (es : list tar_entry) : list tar_entry := List.filter is_regular es.

(** The names the backup keeps for itself. *)
Definition reserved_names : list string :=
  ["backup_manifest"; "backup_manifest.tmp"; "backup_manifest.copy"; "backup_manifest.copy.staging"; "Storage-Metadata.json"].

Record entry_ok (e : tar_entry) : Prop := {
  eo_key : valid_key (te_Name e) = true;
  eo_free : te_Name e ∉ reserved_names;
  eo_utf8 : valid_utf8 (te_Name e) = true;
  eo_size : is_i64 (Z.of_nat (slen (content e)));
}.

(** What the manifest says of an entry, and what the storage has of it. *)
Definition recorded (e : tar_entry) (f : fileRec) : Prop :=
  f_path f = te_Name e /\ f_size f = Z.of_nat (slen (content e)) /\ f_sha256 f = Sum256 (content e).

Definition entry_key (e : tar_entry) : string := path_Join [id; te_Name e].

Definition stored_entry (ch : Chain) (v : gmap string string) (e : tar_entry) : Prop :=
  exists stored, v !! entry_key e = Some stored /\ encoded ch (te_chunks e) stored.

Lemma stored_entry_outside (K : string -> Prop) ch e (w w' : W) :
  same_outside K w w' -> ~ K (entry_key e) -> stored_entry ch (view w) e -> stored_entry ch (view w') e.
Proof. intros Hs HK (st & Hst & He). exists st. by rewrite (Hs _ HK). Qed.

Lemma checkpoint_not_entry e : entry_ok e -> ~ checkpoint_key (entry_key e).
Proof.
  intros [Hk Hf _ _] [E|E]; apply own_key_inj in E; try done; rewrite E in Hf; apply Hf; unfold reserved_names, resumeCheckpointFilename; in_list.
Qed.

Lemma copy_chunks_write_all chunks cw w cw' w' :
  copy_chunks chunks cw w = (Ok (Ok tt, cw'), w') -> write_all chunks cw w = (Ok cw', w').
Proof.
  revert cw w. induction chunks as [|x chunks IH]; intros cw w; cbn [copy_chunks write_all]; [by intros [= <- <-]|].
  unfold bind, of_result. destruct (Write x cw w) as [[[[[]|e] cw1]|e] w1]; [apply IH|done..].
Qed.

(** A stored entry is what its chain makes of it. *)
Lemma pipe_entry_Ok ch key e h w res w' : pending w h = Some (key, "") -> pipe_entry ch e h w = (Ok res, w') ->
  te_err e = None /\ exists stored, encoded ch (te_chunks e) stored /\ view w' = <[key := stored]> (view w) /\
    res_Bytes res = Z.of_nat (slen (content e)) /\ res_SHA256 res = Sum256 (content e).
Proof.
  intros Hp. unfold pipe_entry. intros Hrun. apply bind_inv_Ok in Hrun as (cw & w2 & Hwrap%wrapping_inv_Ok & Hrun).
  apply bind_inv_Ok in Hrun as ([r cw2] & w3 & Hcopy & Hrun). destruct r as [[]|err].
  2:{ apply bind_inv_Ok in Hrun as (? & ? & _ & [=]). }
  destruct (te_err e) as [err|]; [apply bind_inv_Ok in Hrun as (? & ? & _ & [=])|]. split; [done|].
  apply bind_inv_Ok in Hrun as ([r cw3] & w4 & Hclose & Hrun). destruct r as [[]|err]; [|done]. injection Hrun as <- <-.
  assert (Hstore : store ch h (te_chunks e) w = (Ok (cw_res cw3), w4)).
  { unfold store, bind. rewrite Hwrap, (copy_chunks_write_all _ _ _ _ _ Hcopy), Hclose. done. }
  apply (store_spec ch h key) in Hstore as (e0 & hd & c0 & chd & stored & He & Hc & Hst & Hview & ->); [|done].
  exists stored. rewrite Hview. split_and!; [by exists e0, hd, c0, chd|done..].
Qed.

Lemma store_entry_Ok ch key e w res w' : valid_key key = true -> store_entry ch key e w = (Ok res, w') ->
  te_err e = None /\ exists stored, encoded ch (te_chunks e) stored /\ view w' = <[key := stored]> (view w) /\
    res_Bytes res = Z.of_nat (slen (content e)) /\ res_SHA256 res = Sum256 (content e).
Proof.
  intros Hk. unfold store_entry. intros Hrun. apply bind_inv_Ok in Hrun as (h & w1 & Hput%wrapping_inv_Ok & Hrun).
  destruct (put_spec key w Hk) as [Hv Hp]. rewrite Hput in Hv. cbn [snd] in Hv. specialize (Hp h w1 Hput).
  apply (pipe_entry_Ok ch key) in Hrun; [|done]. by rewrite <- Hv.
Qed.

Lemma b_files_added b path size sha t rs rsha :
  b_files (SetLatestRepoChecksum (AddFile b path size sha t) rs rsha) = b_files b ++ [FileRec path size sha (UTC t) false 0 rs rsha].
Proof.
  unfold SetLatestRepoChecksum, AddFile. cbn [b_files]. rewrite length_app. cbn [length].
  replace (length (b_files b) + 1 =? 0)%nat with false by (symmetry; apply Nat.eqb_neq; lia). cbn [b_files].
  replace (length (b_files b) + 1 - 1)%nat with (length (b_files b) + 0)%nat by lia. by rewrite alter_app_r.
Qed.

Lemma b_files_added_incremental b path size sha blocks t rs rsha :
  b_files (SetLatestRepoChecksum (AddIncrementalFile b path size sha blocks t) rs rsha) =
  b_files b ++ [FileRec path size sha (UTC t) true (u32 (Z.of_nat (length blocks))) rs rsha].
Proof.
  unfold SetLatestRepoChecksum, AddIncrementalFile. cbn [b_files]. rewrite length_app. cbn [length].
  replace (length (b_files b) + 1 =? 0)%nat with false by (symmetry; apply Nat.eqb_neq; lia). cbn [b_files].
  replace (length (b_files b) + 1 - 1)%nat with (length (b_files b) + 0)%nat by lia. by rewrite alter_app_r.
Qed.

(** ** The loop over the stream *)

Definition entry_dir (e : tar_entry) : list string :=
  if Ascii.eqb (te_Typeflag e) TypeDir then
    let rel := TrimRight_slash (te_Name e) in
    if negb (String.eqb rel "") && negb (String.eqb rel ".") then [rel] else []
  else [].

(** What the loop knows after the entries [es], and what it has done. *)
Record noted (es : list tar_entry) (p : progress) : Prop := {
  st_files : Forall2 recorded (regulars es) (b_files (l_mb p));
  st_count : l_fileCount p = Z.of_nat (length (regulars es));
  st_dirs : l_dirs p = List.concat (map entry_dir es);
  st_manifest : l_pgManifest p = None;
  st_rc : own_checkpoint (l_rc p);
}.

Record streamed (opts : BackupOptions) (es : list tar_entry) (p : progress) (w : W) : Prop := {
  st_noted : noted es p;
  st_stored : Forall (stored_entry (bo_Filter opts) (view w)) (regulars es);
}.

Lemma regulars_app a b : regulars (a ++ b) = regulars a ++ regulars b.
Proof. apply List.filter_app. Qed.

(** The keys one entry may change. *)
Definition entry_keys (e : tar_entry) (q : string) : Prop := q = entry_key e \/ checkpoint_key q.

Lemma entry_keys_hidden e q : entry_ok e -> entry_keys e q -> hidden_key id q.
Proof.
  intros [Hk Hf _ _] [->|[->| ->]]; right; [exists (te_Name e)|exists resumeCheckpointFilename|exists "backup_manifest.copy.staging"]; split_and!; try done.
  intros E. rewrite E in Hf. apply Hf. unfold reserved_names. in_list.
Qed.

Lemma upload_entry_outside opts p e w : entry_ok e -> own_checkpoint (l_rc p) ->
  same_outside (entry_keys e) w (snd (upload_entry Now opts id p e w)).
Proof.
  intros He Hrc. pose proof (own_key id (te_Name e) Hid (eo_key e He)) as (_ & Hk & _).
  unfold upload_entry, record_upload. unfold bind at 1. pose proof (store_entry_outside (bo_Filter opts) (entry_key e) e Hk w) as Hs.
  unfold entry_key in Hs at 2. destruct (store_entry (bo_Filter opts) (path_Join [id; te_Name e]) e w) as [[res|err] w1]; cbn [snd] in Hs.
  2:{ eapply same_outside_mono; [|exact Hs]. intros q ->. by left. }
  unfold bind. match goal with |- context [onAddFile Now ?rc ?mb] => destruct (onAddFile_outside rc mb w1 Hrc) as (rc' & w2 & -> & Hc & _) end.
  assert (Hw : same_outside (entry_keys e) w w2).
  { etrans; (eapply same_outside_mono; [|first [exact Hs|exact Hc]]); [intros q ->; by left|by right]. }
  repeat case_match; exact Hw.
Qed.

(** What is noted of a stored entry. *)
Lemma record_upload_Ok p e res w p' w' : own_checkpoint (l_rc p) -> record_upload Now p e res w = (Ok p', w') ->
  (exists f, b_files (l_mb p') = b_files (l_mb p) ++ [f] /\ f_path f = te_Name e /\ f_size f = res_Bytes res /\ f_sha256 f = res_SHA256 res) /\
  l_fileCount p' = (l_fileCount p + 1)%Z /\ l_dirs p' = l_dirs p /\ l_pgManifest p' = l_pgManifest p /\ own_checkpoint (l_rc p') /\ checkpoints w w'.
Proof.
  intros Hrc Hrun. unfold record_upload in Hrun. apply bind_inv_Ok in Hrun as (rc' & w2 & Hadd & Hrun).
  match type of Hadd with onAddFile Now ?rc ?mb _ = _ => destruct (onAddFile_outside rc mb w Hrc) as (rc2 & w3 & E & Hc & Hrc2) end.
  rewrite E in Hadd. injection Hadd as -> ->.
  match type of Hrun with (match ?x with _ => _ end) _ = _ => destruct x as [[start tli] mb] eqn:Emb end. injection Hrun as <- <-.
  cbn [l_mb l_fileCount l_dirs l_pgManifest l_rc]. split; [|done].
  assert (b_files mb = b_files (SetLatestRepoChecksum (if isIncrementalFileName (te_Name e)
      then AddIncrementalFile (l_mb p) (te_Name e) (res_Bytes res) (res_SHA256 res) [] (te_ModTime e)
      else AddFile (l_mb p) (te_Name e) (res_Bytes res) (res_SHA256 res) (te_ModTime e)) (res_RepoBytes res) (res_RepoSHA256 res))) as ->.
  { repeat case_match; by injection Emb as _ _ <-. }
  destruct (isIncrementalFileName (te_Name e)); [rewrite b_files_added_incremental|rewrite b_files_added]; by eexists.
Qed.

Lemma noted_upload es p e res w p' w' : is_regular e = true -> noted es p ->
  res_Bytes res = Z.of_nat (slen (content e)) -> res_SHA256 res = Sum256 (content e) -> record_upload Now p e res w = (Ok p', w') ->
  noted (es ++ [e]) p' /\ checkpoints w w'.
Proof.
  intros Hreg [Hf Hn Hd Hm Hrc] Hb Hsha Hrun. apply record_upload_Ok in Hrun as ((f & Hfs & E1 & E2 & E3) & Hcount & Hdirs & Hpg & Hrc' & Hc); [|done].
  split; [|done]. unfold regulars in *. split; rewrite ?regulars_app; unfold regulars; cbn [List.filter]; rewrite ?Hreg.
  - rewrite Hfs. apply Forall2_app; [done|]. constructor; [|done]. split_and!; congruence.
  - rewrite Hcount, length_app, Hn. cbn [length]. lia.
  - rewrite Hdirs, map_app, concat_app, Hd. cbn [map List.concat]. unfold is_regular in Hreg. unfold entry_dir.
    apply andb_true_iff in Hreg as [Hr _]. apply negb_true_iff in Hr. rewrite Hr. by rewrite !app_nil_r.
  - by rewrite Hpg.
  - done.
Qed.

Lemma noted_skip es p e p' : is_regular e = false -> noted es p -> l_mb p' = l_mb p -> l_fileCount p' = l_fileCount p ->
  l_dirs p' = l_dirs p ++ entry_dir e -> l_pgManifest p' = l_pgManifest p -> l_rc p' = l_rc p -> noted (es ++ [e]) p'.
Proof.
  intros Hr [] E1 E2 E3 E4 E5. split; rewrite ?regulars_app, ?E1, ?E2, ?E3, ?E4, ?E5; try done;
    unfold regulars in *; cbn [List.filter]; rewrite ?Hr, ?app_nil_r; try done.
  rewrite map_app, concat_app. cbn [map List.concat]. rewrite app_nil_r. by rewrite st_dirs0.
Qed.

(** The earlier entries are as they were, and the new one is there. *)
Lemma stored_upload ch es e (w w' : W) : Forall entry_ok (regulars es) -> entry_ok e -> is_regular e = true -> te_Name e ∉ te_Name <$> regulars es ->
  same_outside (entry_keys e) w w' -> Forall (stored_entry ch (view w)) (regulars es) -> stored_entry ch (view w') e ->
  Forall (stored_entry ch (view w')) (regulars (es ++ [e])).
Proof.
  intros Hes He Hreg Hnew Hout Hst Hnow. rewrite regulars_app. unfold regulars in *. cbn [List.filter]. rewrite Hreg. apply Forall_app. split; [|by apply Forall_singleton].
  rewrite Forall_forall in *. intros e' He'. eapply stored_entry_outside; [exact Hout| |by apply Hst]. specialize (Hes e' He').
  intros [Eq|Eq]; [|by apply (checkpoint_not_entry e')].
  apply own_key_inj in Eq; [|done|apply Hes|apply He]. apply Hnew. rewrite <- Eq. by apply list_elem_of_fmap_2.
Qed.

Lemma upload_entry_streamed opts es p e w p' w' :
  entry_ok e -> is_regular e = true -> te_Name e ∉ te_Name <$> regulars es -> Forall entry_ok (regulars es) ->
  streamed opts es p w -> upload_entry Now opts id p e w = (Ok p', w') -> streamed opts (es ++ [e]) p' w'.
Proof.
  intros He Hreg Hnew Hes [Hnt Hst] Hrun. pose proof (own_key id (te_Name e) Hid (eo_key e He)) as (_ & Hk & _).
  pose proof (upload_entry_outside opts p e w He (st_rc es p Hnt)) as Hout. rewrite Hrun in Hout. cbn [snd] in Hout.
  unfold upload_entry in Hrun. apply bind_inv_Ok in Hrun as (res & w1 & Hstore & Hrun).
  apply store_entry_Ok in Hstore as (_ & stored & Henc & Hv & Hb & Hsha); [|exact Hk].
  apply (noted_upload es) in Hrun as [Hnt' Hc]; [|done..]. split; [done|].
  apply (stored_upload _ es e w w'); [done..|]. apply (stored_entry_outside checkpoint_key _ _ w1 w'); [done|by apply checkpoint_not_entry|].
  exists stored. rewrite Hv. split; [apply lookup_insert_eq|done].
Qed.

(** The entries of a stream that names every file once. *)
Record stream_ok (es : list tar_entry) : Prop := {
  so_entries : Forall entry_ok (regulars es);
  so_once : NoDup (te_Name <$> regulars es);
  so_dirs : Forall (fun d => valid_utf8 d = true) (List.concat (map entry_dir es));
}.

Lemma take_entry_spec opts es e p w : String.eqb (bo_Type opts) TypeIncremental = false ->
  stream_ok (es ++ [e]) -> streamed opts es p w ->
  hides w (snd (take_entry Now opts id None p e w)) /\
  forall p' w', take_entry Now opts id None p e w = (Ok p', w') -> streamed opts (es ++ [e]) p' w'.
Proof.
  intros Hfull [Hes Hnd _] Hst. rewrite regulars_app in Hes, Hnd. apply Forall_app in Hes as [Hes He].
  rewrite fmap_app in Hnd. apply NoDup_app in Hnd as (_ & Hnew & _). unfold take_entry. rewrite Hfull, andb_false_r.
  assert (Hskip : is_regular e = false -> forall p', l_mb p' = l_mb p -> l_fileCount p' = l_fileCount p ->
    l_dirs p' = l_dirs p ++ entry_dir e -> l_pgManifest p' = l_pgManifest p -> l_rc p' = l_rc p -> streamed opts (es ++ [e]) p' w).
  { intros Hr p' E1 E2 E3 E4 E5. destruct Hst as [Hnt Hst]. split; [by eapply noted_skip|]. rewrite regulars_app. unfold regulars at 2. cbn [List.filter]. by rewrite Hr, app_nil_r. }
  destruct (Ascii.eqb (te_Typeflag e) TypeDir) eqn:Ed.
  { split; [done|]. intros p' w' [= <- <-]. apply Hskip; try (by destruct (_ && _)); [unfold is_regular; by rewrite Ed|].
    unfold entry_dir. rewrite Ed. by destruct (_ && _); cbn [l_dirs]; rewrite ?app_nil_r. }
  assert (Hreg : is_regular e = Ascii.eqb (te_Typeflag e) "000" || Ascii.eqb (te_Typeflag e) "0") by (unfold is_regular; by rewrite Ed).
  destruct (negb (Ascii.eqb (te_Typeflag e) "000") && negb (Ascii.eqb (te_Typeflag e) "0")) eqn:Et.
  { split; [done|]. intros p' w' [= <- <-]. apply Hskip; try done; [rewrite <- negb_orb in Et; apply negb_true_iff in Et; congruence|].
    unfold entry_dir. by rewrite Ed, app_nil_r. }
  rewrite <- negb_orb, <- Hreg in Et. apply negb_false_iff in Et. unfold regulars in He, Hnew. cbn [List.filter] in He, Hnew.
  rewrite Et in He, Hnew. rewrite Forall_singleton in He. destruct (Contains (te_Name e) ".." || HasPrefix (te_Name e) "/"); [done|]. cbn [option_bind mbind].
  split.
  - eapply same_outside_mono; [|apply (upload_entry_outside opts p e w He), (st_rc es p), Hst]. intros q. by apply entry_keys_hidden.
  - intros p' w' Hrun. eapply upload_entry_streamed; try done. intros Hin. apply (Hnew (te_Name e)); [done|]. by apply list_elem_of_singleton.
Qed.

Lemma stream_ok_prefix a b : stream_ok (a ++ b) -> stream_ok a.
Proof.
  intros [He Hn Hd]. rewrite regulars_app in He, Hn. rewrite fmap_app in Hn. rewrite map_app, concat_app in Hd.
  split; [by apply Forall_app in He as [? _]|by apply NoDup_app in Hn as [? _]|by apply Forall_app in Hd as [? _]].
Qed.

Lemma take_entries_spec opts l es p w : String.eqb (bo_Type opts) TypeIncremental = false ->
  stream_ok (es ++ l) -> streamed opts es p w ->
  hides w (snd (forM l p (take_entry Now opts id None) w)) /\
  forall p' w', forM l p (take_entry Now opts id None) w = (Ok p', w') -> streamed opts (es ++ l) p' w'.
Proof.
  intros Hfull. revert es p w. induction l as [|e l IH]; intros es p w Hok Hst; cbn [forM].
  - split; [done|]. intros p' w' [= <- <-]. by rewrite app_nil_r.
  - replace (es ++ e :: l) with ((es ++ [e]) ++ l) in * by by rewrite <- app_assoc.
    destruct (take_entry_spec opts es e p w Hfull (stream_ok_prefix _ _ Hok) Hst) as [Hh Hnext]. unfold bind.
    destruct (take_entry Now opts id None p e w) as [[p1|err] w1]; cbn [snd] in *; [|done].
    destruct (IH (es ++ [e]) p1 w1 Hok (Hnext _ _ eq_refl)) as [Hh2 Hrest]. split; [by etrans|done].
Qed.

Lemma take_stream_spec opts es err p w : String.eqb (bo_Type opts) TypeIncremental = false ->
  stream_ok es -> streamed opts [] p w ->
  hides w (snd (take_stream Now opts id None (es, err) p w)) /\
  forall p' w', take_stream Now opts id None (es, err) p w = (Ok p', w') -> err = None /\ streamed opts es p' w'.
Proof.
  intros Hfull Hok Hst. destruct (take_entries_spec opts es [] p w Hfull Hok Hst) as [Hh Hnext]. unfold take_stream, bind. cbn [fst snd app].
  destruct (forM es p (take_entry Now opts id None) w) as [[p1|e] w1]; cbn [snd] in *; [|done].
  destruct err; (split; [done|]); [done|]. intros p' w' [= <- <-]. split; [done|]. by apply Hnext.
Qed.

(** ** The bracket and the manifest *)

Lemma hashWALSegments_quiet t names : quiet (hashWALSegments t names).
Proof.
  apply preserves_forM; [tc_solve|]. intros out n _ w. unfold bind, wrapping. pose proof (FindSegment_view t n w) as Hv.
  destruct (FindSegment t n w) as [[[k|]|e] w1] eqn:E; cbn [snd map_error] in *; try by apply same_view_outside.
  apply FindSegment_inv in E as [(_ & Hk & _) _]. destruct (get_spec k w1 Hk) as [Hv2 _].
  destruct (be_Get k w1) as [[b|e] w2]; unfold ret; cbn [snd map_error] in *; apply same_view_outside; unfold same_view in *; congruence.
Qed.

Lemma take_bracket_quiet opts segSize p : quiet (take_bracket opts segSize p).
Proof.
  unfold take_bracket. apply preserves_bind; [tc_solve| |intros stop].
  { apply preserves_wrapping. unfold switchAndCurrentLSN. apply preserves_bind; [tc_solve| |intros; apply preserves_of_result; tc_solve].
    apply preserves_wrapping, switch_wal_quiet. }
  apply preserves_bind; [tc_solve|apply preserves_wrapping, AcquireBracketWAL_quiet|intros segs].
  apply preserves_bind; [tc_solve| |intros; apply preserves_ret; tc_solve].
  destruct (walRecordsNeeded _); [apply preserves_wrapping, hashWALSegments_quiet|apply preserves_ret; tc_solve].
Qed.

Lemma take_bracket_records opts segSize p w stop recs w' :
  take_bracket opts segSize p w = (Ok (stop, recs), w') -> Forall segment_ok recs.
Proof.
  unfold take_bracket. intros Hrun. apply bind_inv_Ok in Hrun as (lsn & w1 & _ & Hrun).
  apply bind_inv_Ok in Hrun as (segs & w2 & Hseg%wrapping_inv_Ok%acquired_plain & Hrun).
  apply bind_inv_Ok in Hrun as (rs & w3 & Hh & Hret). injection Hret as _ <- _.
  destruct (walRecordsNeeded _); [apply wrapping_inv_Ok in Hh; by eapply hashWALSegments_ok|]. injection Hh as <- _. constructor.
Qed.

Lemma take_bracket_hides opts segSize p : preserves hides (take_bracket opts segSize p).
Proof. apply quiet_hides, take_bracket_quiet. Qed.
End frames.

(** What a backup relies on in [pg_basebackup]: it writes nothing to the storage, and the stream
    of a full backup, which is asked for without a manifest, names every file once and none by a
    name the backup keeps for itself. *)
Class BaseBackupLaws (W : Type) `{BackendLaws W, BaseBackup W} := {
  start_quiet m wal : quiet (bb_Start m wal);
  close_quiet : quiet bb_Close;
  start_ok wal w es err w' : bb_Start "" wal w = (Ok (es, err), w') -> stream_ok es;
}.

(** ** The manifest the restore reads *)

Definition listed_entry (e : tar_entry) (f : ManifestFile) : Prop :=
  rf_mPath f = te_Name e /\ rf_mSize f = Z.of_nat (slen (content e)) /\ rf_mChecksum f = EncodeToString (Sum256 (content e)).

Definition restore_listed (f : fileRec) : ManifestFile := Build_ManifestFile (f_path f) (f_size f) (EncodeToString (f_sha256 f)).

Lemma dec_restore_file f : file_ok f -> dec_struct false ManifestFile_fields zero_ManifestFile (file_value f) = Some (restore_listed f).
Proof.
  intros (Hp & Hs & _). apply String.eqb_eq in Hp. unfold file_value, dec_struct, zero_ManifestFile, restore_listed. rewrite Hp.
  cbn [app]. apply (dec_members_step1 _ _ _ _ _ (Build_ManifestFile (f_path f) 0 "")).
  { unfold ManifestFile_fields. by run_members. }
  apply (dec_members_step1 _ _ _ _ _ (Build_ManifestFile (f_path f) (f_size f) "")).
  { unfold ManifestFile_fields. run_members. by rewrite dec_int64_json. }
  unfold ManifestFile_fields. destruct (f_incremental f); cbn [app]; by run_members.
Qed.

Lemma restore_parses_Finalize b stop : Forall file_ok (b_files b) ->
  Restore.parseManifestFiles (Finalize b stop) = Ok (map restore_listed (b_files b)).
Proof.
  intros Hok. unfold Restore.parseManifestFiles, Decode. rewrite parse_Finalize.
  unfold manifest_value, dec_struct. run_members. unfold id at 1.
  rewrite (dec_slice_map _ _ file_value restore_listed); [by run_members|].
  rewrite Forall_forall in Hok. intros f Hf. by apply dec_restore_file, Hok.
Qed.

Lemma recorded_ok es fs : Forall entry_ok es -> Forall2 recorded es fs ->
  Forall file_ok fs /\ Forall2 listed_entry es (map restore_listed fs).
Proof.
  intros Hok Hr. induction Hr as [|e f es fs (E1 & E2 & E3) Hr IH]; [by split|]. apply Forall_cons in Hok as [He Hok].
  destruct (IH Hok) as [Hf Hl]. split; constructor; try done.
  - unfold file_ok. rewrite E1, E2, E3. split_and!; [apply He|apply He|apply slen_Sum256].
  - unfold listed_entry, restore_listed. cbn. by rewrite E1, E2, E3.
Qed.

(** ** The files the backup keeps for itself *)

Section kept.
Context {W : Type} `{BackendLaws W, FilterLibs}.

(** The manifest lists the files of [es], and every file is stored. *)
Record complete_files (id : string) (ch : Chain) (es : list tar_entry) (v : gmap string string) : Prop := {
  cf_manifest : exists text files, v !! path_Join [id; "backup_manifest"] = Some text /\
    Restore.parseManifestFiles text = Ok files /\ Forall2 listed_entry (regulars es) files;
  cf_files : Forall (stored_entry id ch v) (regulars es);
}.

(** The keys of the backup no file of the cluster has. *)
Definition kept_key (id q : string) : Prop := exists n, n ∈ reserved_names /\ q = path_Join [id; n].

Lemma entry_not_kept id e : own_id id -> entry_ok e -> ~ kept_key id (entry_key id e).
Proof.
  intros Hid [Hk Hfree _ _] (n & Hn & E). apply own_key_inj in E; [by rewrite <- E in Hn|done|done|].
  unfold reserved_names in Hn. set_unfold in Hn. by destruct_or! Hn; subst n.
Qed.

(** Writing one of the files the backup keeps for itself. *)
Lemma own_file id n d w r w' : own_id id -> n ∈ reserved_names -> writeStorageFileAtomic (path_Join [id; n]) d w = (r, w') ->
  same_outside (fun q => q = path_Join [id; n]) w w' /\ (r = Ok tt -> view w' !! path_Join [id; n] = Some d).
Proof.
  intros Hid Hn Hrun. assert (Hk : valid_key (path_Join [id; n]) = true).
  { apply (own_key id n Hid). unfold reserved_names in Hn. set_unfold in Hn. by destruct_or! Hn; subst n. }
  split.
  - pose proof (writeStorageFileAtomic_outside _ d Hk w) as Ho. by rewrite Hrun in Ho.
  - intros ->. rewrite (writeStorageFileAtomic_Ok _ _ _ _ Hk Hrun). apply lookup_insert_eq.
Qed.

Lemma own_file_other id n q d w w' : own_id id -> valid_key n = true -> valid_key q = true -> q <> n ->
  same_outside (fun k => k = path_Join [id; n]) w w' -> view w !! path_Join [id; q] = d -> view w' !! path_Join [id; q] = d.
Proof. intros Hid Hn Hq Hne Ho <-. apply Ho. intros E. by apply own_key_inj in E. Qed.

(** Whatever fails, the manifest is as it was and the caller hears of it, or it is in place with its sidecar. *)
Lemma publish_files_spec id man sc (w w' : W) r : own_id id -> publish_files id man sc w = (r, w') ->
  same_outside (kept_key id) w w' /\
  ((view w' !! path_Join [id; "backup_manifest"] = view w !! path_Join [id; "backup_manifest"] /\ r <> Ok tt) \/
   (view w' !! path_Join [id; "backup_manifest"] = Some man /\
    view w' !! path_Join [id; "Storage-Metadata.json"] = Some (MarshalIndent 0 (sidecar_json sc)))).
Proof.
  intros Hid. unfold publish_files. set (mf := path_Join [id; "backup_manifest"]).
  set (tmp := path_Join [id; "backup_manifest.tmp"]). set (side := path_Join [id; "Storage-Metadata.json"]).
  assert (Hkept : forall n w1 w2, n ∈ reserved_names -> same_outside (fun q => q = path_Join [id; n]) w1 w2 -> same_outside (kept_key id) w1 w2).
  { intros n wa wb Hn Ho. eapply same_outside_mono; [|exact Ho]. intros q ->. by exists n. }
  unfold bind at 1, wrapping at 1. destruct (writeStorageFileAtomic tmp _ w) as [r1 w1] eqn:E1.
  destruct (own_file id "backup_manifest.tmp" _ _ _ _ Hid ltac:(unfold reserved_names; in_list) E1) as [Ho1 Hd1].
  assert (Hm1 : view w1 !! mf = view w !! mf) by by apply (own_file_other id "backup_manifest.tmp" _ _ w w1).
  apply (Hkept "backup_manifest.tmp") in Ho1; [|unfold reserved_names; in_list].
  destruct r1 as [[]|e]; cbn [map_error]; [|intros [= <- <-]; split; [done|left; by split]]. specialize (Hd1 eq_refl).
  unfold bind at 1, of_result. cbn [MarshalSidecar map_error].
  unfold bind at 1, wrapping at 1. destruct (writeStorageFileAtomic side _ w1) as [r2 w2] eqn:E2.
  destruct (own_file id "Storage-Metadata.json" _ _ _ _ Hid ltac:(unfold reserved_names; in_list) E2) as [Ho2 Hd2].
  assert (Hm2 : view w2 !! mf = view w !! mf) by (rewrite <- Hm1; by apply (own_file_other id "Storage-Metadata.json" _ _ w1 w2)).
  apply (own_file_other id "Storage-Metadata.json" _ _ w1 w2) in Hd1; [|done..]. fold tmp in Hd1.
  apply (Hkept "Storage-Metadata.json") in Ho2; [|unfold reserved_names; in_list].
  assert (Ho : same_outside (kept_key id) w w2) by (etrans; eassumption).
  destruct r2 as [[]|e]; cbn [map_error]; [|intros [= <- <-]; split; [done|left; by split]]. specialize (Hd2 eq_refl).
  destruct (own_key id "backup_manifest.tmp" Hid eq_refl) as (_ & Hkt & _). destruct (own_key id "backup_manifest" Hid eq_refl) as (_ & Hkm & _).
  assert (Hne : tmp <> mf) by (intros E; by apply own_key_inj in E).
  destruct (commit_spec tmp mf w2 Hkt Hkm (own_copyable id "backup_manifest.tmp" Hid eq_refl eq_refl) Hne (ex_intro _ _ Hd1)) as (Hout & Hok & Hfail & _). unfold wrapping.
  destruct (be_Commit tmp mf w2) as [r3 w3] eqn:E3. cbn [snd] in Hout. intros [= <- <-]. split.
  { etrans; [exact Ho|]. intros q Hq. apply Hout; intros ->; apply Hq; [exists "backup_manifest.tmp"|exists "backup_manifest"]; (split; [unfold reserved_names; in_list|done]). }
  assert (Hs3 : view w3 !! side = Some (MarshalIndent 0 (sidecar_json sc))) by (rewrite Hout; [done|intros E; by apply own_key_inj in E..]).
  destruct r3 as [[]|e].
  - right. destruct (Hok w3 eq_refl) as (_ & c & Hc & Hv). split; [|done]. rewrite Hv, lookup_insert_eq. congruence.
  - destruct (Hfail e w3 eq_refl) as [[Hsame _]|[_ Hmoved]]; [left; split; [congruence|done]|right; split; [congruence|done]].
Qed.
End kept.

(** ** A complete backup *)

Section run.
Context {W : Type} `{BackendLaws W, !Clock W, !ClockLaws W, !Pg W, !PgLaws W, !BaseBackup W, !BaseBackupLaws W, FilterLibs, !Host W, !Disk W}.
Context (Now : W -> time).

(** The sidecar of the stream [es]. *)
Definition written_sidecar (opts : BackupOptions) (sysID : Z) (es : list tar_entry) (records : list WALSegmentRecord) : Sidecar :=
  {| sc_Version := SidecarVersion; sc_Server := bo_Server opts; sc_EncryptionRecipients := bo_Recipients opts;
     sc_Compression := bo_Compression opts; sc_StorageLayoutVersion := 1; sc_WALSegments := records;
     sc_SystemIdentifier := sysID; sc_Directories := List.concat (map entry_dir es); sc_Type := BackupTypeFull;
     sc_ParentBackupID := bo_ParentBackupID opts; sc_Annotation := ""; sc_LockHeld := false |}.

(** The backup [id] of the stream [es]: the manifest lists its files, the sidecar describes it, and
    every file is stored. *)
Record complete_backup (id : string) (opts : BackupOptions) (sysID : Z) (es : list tar_entry) (v : gmap string string) : Prop := {
  cb_files : complete_files id (bo_Filter opts) es v;
  cb_sidecar : exists records, Forall segment_ok records /\
    v !! path_Join [id; "Storage-Metadata.json"] = Some (MarshalIndent 0 (sidecar_json (written_sidecar opts sysID es records)));
}.

(** What a sidecar says in text is text. *)
Definition options_ok (opts : BackupOptions) : Prop :=
  valid_strings ([bo_Server opts; bo_Compression opts; bo_ParentBackupID opts] ++ bo_Recipients opts).

Lemma written_sidecar_ok opts sysID es records : options_ok opts -> is_u64 sysID -> stream_ok es -> Forall segment_ok records ->
  sidecar_ok (written_sidecar opts sysID es records).
Proof.
  intros Ho Hs [_ _ Hd] Hr. unfold options_ok, valid_strings in *. cbn [app] in Ho.
  repeat match goal with H : Forall _ (_ :: _) |- _ => apply Forall_cons in H as [? H] end.
  split; cbn [written_sidecar sc_Version sc_StorageLayoutVersion sc_SystemIdentifier sc_WALSegments]; try (unfold is_i64, SidecarVersion; lia); try done.
  unfold valid_strings. cbn [app]. repeat (apply Forall_cons; split; [done|]). by apply Forall_app.
Qed.

Lemma hidden_not_manifest id : own_id id -> ~ hidden_key id (path_Join [id; "backup_manifest"]).
Proof.
  intros Hid [Hw|(n & Hn & Hne & E)]; [by destruct (own_key id "backup_manifest" Hid eq_refl) as (_ & _ & ?)|].
  apply Hne. by apply own_key_inj in E.
Qed.

(** The manifest and the sidecar are in place, and the files are as they were. *)
Lemma published id opts es p w stop now sysID records w' : own_id id -> stream_ok es ->
  String.eqb (bo_Type opts) TypeIncremental = false -> streamed id opts es p w ->
  view w' !! path_Join [id; "backup_manifest"] = Some (manifest_bytes p stop now) ->
  view w' !! path_Join [id; "Storage-Metadata.json"] = Some (MarshalIndent 0 (sidecar_json (backup_sidecar opts sysID p records))) ->
  same_outside (kept_key id) w w' -> Forall segment_ok records ->
  complete_backup id opts sysID es (view w').
Proof.
  intros Hid [Hes _ _] Hfull [[Hf _ Hd Hm _] Hst] Hman Hsc Hout Hrec. destruct (recorded_ok _ _ Hes Hf) as [Hok Hl]. split; [split|].
  - eexists _, _. split; [exact Hman|]. unfold manifest_bytes. rewrite Hm. split; [by apply restore_parses_Finalize|done].
  - rewrite Forall_forall in *. intros e He. eapply stored_entry_outside; [exact Hout|by apply entry_not_kept, Hes|by apply Hst].
  - exists records. split; [done|]. rewrite Hsc. unfold backup_sidecar, written_sidecar. by rewrite Hfull, Hd.
Qed.

Lemma publish_spec id opts es sysID p stop records w r w' : own_id id -> stream_ok es ->
  String.eqb (bo_Type opts) TypeIncremental = false -> streamed id opts es p w -> Forall segment_ok records ->
  publish Now opts id sysID p stop records w = (r, w') ->
  (view w' !! path_Join [id; "backup_manifest"] = view w !! path_Join [id; "backup_manifest"] /\ r <> Ok tt) \/
  complete_backup id opts sysID es (view w').
Proof.
  intros Hid Hes Hfull Hst Hrec Hrun. unfold publish, bind, read in Hrun.
  apply publish_files_spec in Hrun as [Hout [?|[Hman Hsc]]]; [by left| |done]. right.
  by apply (published id opts es p w stop (Now w) sysID records).
Qed.

Lemma streamed_start id opts cid startedAt (w : W) :
  streamed id opts [] (Progress 0 0 (id_CheckpointLSN cid) (id_Timeline cid) false [] None
    (NewBuilder {| bs_SystemIdentifier := id_SystemIdentifier cid; bs_Timeline := id_Timeline cid;
                   bs_StartLSN := id_CheckpointLSN cid; bs_StartTime := UTC startedAt |})
    (newResumeCheckpointer (resume_of opts) id startedAt (id_SystemIdentifier cid) (id_Timeline cid) (id_CheckpointLSN cid))) w.
Proof.
  split; [|done]. split; try done. unfold newResumeCheckpointer. destruct (_ || _); [done|]. by intros c [= <-].
Qed.

(** What follows once the stream is open. *)
Lemma finish_spec id opts cid plan es err p0 w r w' : own_id id -> stream_ok es ->
  String.eqb (bo_Type opts) TypeIncremental = false -> plan = None -> streamed id opts [] p0 w ->
  (p <- take_stream Now opts id plan (es, err) p0 ;;
   wrapping "backup: pg_basebackup" bb_Close ;;;
   if negb (l_labelSeen p) then throw (errors_New "backup: backup_label not present in tar")
   else b <- take_bracket opts (id_WALSegmentSize cid) p ;;
        publish Now opts id (id_SystemIdentifier cid) p (fst b) (snd b) ;;;
        ret {| br_BackupID := id; br_StartLSN := l_startLSN p; br_StopLSN := fst b; br_Timeline := l_timeline p;
               br_Files := l_fileCount p; br_Bytes := l_bytesTotal p |}) w = (r, w') ->
  (view w' !! path_Join [id; "backup_manifest"] = view w !! path_Join [id; "backup_manifest"] /\ isOk r = false) \/
  (err = None /\ complete_backup id opts (id_SystemIdentifier cid) es (view w') /\
   forall res, r = Ok res -> br_BackupID res = id /\ br_Files res = Z.of_nat (length (regulars es))).
Proof.
  intros Hid Hes Hfull -> Hst Hrun. pose proof (hidden_not_manifest id Hid) as Hman.
  destruct (take_stream_spec Now id Hid opts es err p0 w Hfull Hes Hst) as [Hh Hok]. unfold bind at 1 in Hrun.
  destruct (take_stream Now opts id None (es, err) p0 w) as [[p|e] w1]; cbn [snd] in Hh; [|injection Hrun as <- <-; left; by rewrite (Hh _ Hman)].
  destruct (Hok p w1 eq_refl) as [-> Hst1]. unfold bind at 1 in Hrun.
  pose proof (quiet_hides id _ (preserves_wrapping _ "backup: pg_basebackup" _ close_quiet) w1) as Hc.
  pose proof (preserves_wrapping _ "backup: pg_basebackup" _ close_quiet w1) as Hq.
  destruct (wrapping "backup: pg_basebackup" bb_Close w1) as [[[]|e] w2]; cbn [snd] in Hc, Hq.
  2:{ injection Hrun as <- <-. left. by rewrite (Hc _ Hman), (Hh _ Hman). }
  destruct (negb (l_labelSeen p)); [injection Hrun as <- <-; left; by rewrite (Hc _ Hman), (Hh _ Hman)|].
  unfold bind at 1 in Hrun. pose proof (take_bracket_hides id opts (id_WALSegmentSize cid) p w2) as Hb.
  pose proof (take_bracket_quiet opts (id_WALSegmentSize cid) p w2) as Hbq.
  pose proof (take_bracket_records opts (id_WALSegmentSize cid) p w2) as Hrec.
  destruct (take_bracket opts (id_WALSegmentSize cid) p w2) as [[[stop records]|e] w3]; cbn [snd] in Hb, Hbq.
  2:{ injection Hrun as <- <-. left. by rewrite (Hb _ Hman), (Hc _ Hman), (Hh _ Hman). }
  assert (Hst3 : streamed id opts es p w3).
  { destruct Hst1 as [F1 F6]. split; [done|]. rewrite Forall_forall in *. intros e He.
    assert (Hnw : ~ wal_key (entry_key id e)).
    { apply (own_key id (te_Name e) Hid). destruct Hes as [Hes _]. rewrite Forall_forall in Hes. by apply Hes. }
    apply (stored_entry_outside id wal_key _ _ w2 w3); [done|done|]. apply (stored_entry_outside id wal_key _ _ w1 w2); [done|done|]. by apply F6. }
  unfold bind in Hrun. cbn [fst snd] in Hrun.
  destruct (publish Now opts id (id_SystemIdentifier cid) p stop records w3) as [rp w4] eqn:Ep.
  apply (publish_spec id opts es) in Ep as [[Hsame Hne]|Hcomp]; try done; [| |by apply (Hrec stop _ w3)].
  - left. destruct rp as [[]|e]; [done|]. injection Hrun as <- <-. split; [|done]. by rewrite Hsame, (Hb _ Hman), (Hc _ Hman), (Hh _ Hman).
  - right. destruct rp as [[]|e]; injection Hrun as <- <-; (split_and!; [done|done|]); [|done]. intros res [= <-]. cbn. split; [done|]. apply Hst1.
Qed.

Lemma complete_quiet id opts sysID es (w w' : W) : own_id id -> stream_ok es -> same_outside wal_key w w' ->
  complete_backup id opts sysID es (view w) -> complete_backup id opts sysID es (view w').
Proof.
  intros Hid [Hes _ _] Hq [[(text & files & Hm & Hp) Hst] (records & Hr & Hs)].
  assert (Hown : forall n, valid_key n = true -> view w' !! path_Join [id; n] = view w !! path_Join [id; n]) by (intros n Hn; by apply Hq, own_key).
  split; [split; [exists text, files; by rewrite Hown|]|exists records; by rewrite Hown]. rewrite Forall_forall in *. intros e He.
  eapply stored_entry_outside; [exact Hq|by apply own_key, Hes|by apply Hst].
Qed.

(** A run that does not take up an old one has an ID from its clock. *)
Lemma prepare_backup_fresh opts startedAt w cid id w1 : prepare_backup Now opts startedAt w = (Ok (cid, id, None), w1) -> own_id id.
Proof.
  unfold prepare_backup. intros Hrun. apply bind_inv_Ok in Hrun as (bid & w2 & Hid & Hrun).
  apply bind_inv_Ok in Hrun as (? & ? & _ & Hrun). apply bind_inv_Ok in Hrun as (? & ? & _ & Hrun).
  apply bind_inv_Ok in Hrun as (? & ? & _ & Hrun). apply bind_inv_Ok in Hrun as (? & ? & _ & Hrun).
  apply bind_inv_Ok in Hrun as (rf & w3 & _ & Hrun).
  assert (id = bid) as ->.
  { destruct rf as [[cp|]|e]; [apply bind_inv_Ok in Hrun as (? & ? & _ & [=])|..]; by injection Hrun. }
  unfold ChooseBackupID in Hid. apply bind_inv_Ok in Hid as (latest & ? & _ & Hid).
  destruct (_ && _); [destruct (label_le _ _); [done|]|]; injection Hid as <- <-; apply FormatBackupID_own.
Qed.

Definition wal_method (opts : BackupOptions) : string := if String.eqb (bo_WALSource opts) WALSourceStream then "fetch" else "".

Lemma runSimple_spec opts w cid id w1 r w' : String.eqb (bo_Type opts) TypeIncremental = false ->
  prepare_backup Now opts (Now w) w = (Ok (cid, id, None), w1) -> runSimple Now opts w = (r, w') ->
  own_id id /\
  ((view w' !! path_Join [id; "backup_manifest"] = view w1 !! path_Join [id; "backup_manifest"] /\ isOk r = false) \/
   exists es w2, bb_Start "" (wal_method opts) w1 = (Ok (es, None), w2) /\ stream_ok es /\ complete_backup id opts (id_SystemIdentifier cid) es (view w') /\
     forall res, r = Ok res -> br_BackupID res = id /\ br_Files res = Z.of_nat (length (regulars es))).
Proof.
  intros Hfull Hprep Hrun. pose proof (prepare_backup_fresh _ _ _ _ _ _ Hprep) as Hid. split; [done|]. revert Hrun. unfold runSimple.
  unfold bind at 1, read. unfold bind at 1. rewrite Hprep, Hfull. cbn [fst snd]. unfold stream_backup. fold (wal_method opts).
  pose proof (hidden_not_manifest id Hid) as Hman. unfold bind at 1, wrapping at 1. pose proof (start_quiet "" (wal_method opts) w1) as Hs.
  destruct (bb_Start "" (wal_method opts) w1) as [[[es err]|e] w2] eqn:Es; cbn [snd map_error] in *.
  2:{ intros [= <- <-]. left. split; [|done]. apply Hs. intros Hw. apply Hman. by left. }
  pose proof (start_ok _ _ _ _ _ Es) as Hes. unfold bind at 1, try at 1.
  match goal with |- context [bind (take_stream Now opts id None (es, err) ?p0) ?k] => destruct (bind (take_stream Now opts id None (es, err) p0) k w2) as [r1 w3] eqn:E1; apply (finish_spec id opts cid None es err p0) in E1; try done; [|apply streamed_start] end.
  pose proof (preserves_try _ _ close_quiet w3) as Hc. unfold bind, of_result. destruct (try bb_Close w3) as [[rc|e] w4] eqn:E2; cbn [snd] in Hc; [|unfold try in E2; by destruct (bb_Close w3)].
  intros [= <- <-]. assert (Hnw : ~ wal_key (path_Join [id; "backup_manifest"])) by (intros Hw; apply Hman; by left).
  destruct E1 as [[Hsame Hne]|(-> & Hcomp & Hres)]; [left|right].
  - split; [|done]. rewrite (Hc _ Hnw), Hsame. by apply Hs.
  - exists es, w2. split_and!; [done|done|by apply (complete_quiet id opts _ es w3 w4)|done].
Qed.
End run.

(** C2: a full backup that takes up no unfinished one ([prepare_backup] finds none to resume) is all or nothing:
    whatever fails during the run, either its manifest is as it was and the run reports an error, or every file of the stream is stored under the backup with bytes
    its chain makes of it, the manifest lists each with its size and digest, and the sidecar
    describes the backup. *)
Theorem runSimple_atomic {W : Type} `{BackendLaws W, !Clock W, !ClockLaws W, !Pg W, !PgLaws W, !BaseBackup W, !BaseBackupLaws W, FilterLibs, !Host W, !Disk W}
    (Now : W -> time) opts w cid id w1 r w' :
  String.eqb (bo_Type opts) TypeIncremental = false ->
  prepare_backup Now opts (Now w) w = (Ok (cid, id, None), w1) -> runSimple Now opts w = (r, w') ->
  (view w' !! path_Join [id; "backup_manifest"] = view w1 !! path_Join [id; "backup_manifest"] /\ isOk r = false) \/
  exists es w2, bb_Start "" (wal_method opts) w1 = (Ok (es, None), w2) /\ complete_backup id opts (id_SystemIdentifier cid) es (view w') /\
    forall res, r = Ok res -> br_BackupID res = id /\ br_Files res = Z.of_nat (length (regulars es)).
Proof.
  intros Hfull Hprep Hrun. destruct (runSimple_spec Now opts w cid id w1 r w' Hfull Hprep Hrun) as [_ [?|(es & w2 & ? & _ & ?)]]; [by left|right].
  by exists es, w2.
Qed.

(** ** From the backup to the restore *)

Lemma listed_paths es files : Forall2 listed_entry es files -> map rf_mPath files = te_Name <$> es.
Proof. induction 1 as [|e f es files (E & _) _ IH]; [done|]. cbn. by rewrite E, IH. Qed.

Lemma listed_Forall (P : string -> Prop) es files : Forall2 listed_entry es files ->
  (forall e, e ∈ es -> P (te_Name e)) -> Forall (fun f => P (rf_mPath f)) files.
Proof.
  induction 1 as [|e f es files (E & _) _ IH]; intros HP; constructor.
  - rewrite E. apply HP. by constructor.
  - apply IH. intros e' He'. apply HP. by constructor.
Qed.

(** What a restore makes of complete files, whatever mode stored them. *)
Lemma restore_complete {W : Type} `{DiskLaws W, FilterLaws} id ch es sctext sc v sched ropts wr rres wr' :
  own_id id -> stream_ok es -> complete_files id ch es v ->
  v !! path_Join [id; "Storage-Metadata.json"] = Some sctext -> UnmarshalSidecar sctext = Ok sc ->
  sc_Type sc <> BackupTypeIncremental -> codec_name sc = codec_Name (ch_codec ch) ->
  (forall l, sched l ≡ₚ l) -> ro_TablespaceRemap ropts = ∅ -> clean_target (ro_Target ropts) -> ro_BackupID ropts = id ->
  opens (ro_Identities ropts) (ch_recipients ch) -> view wr = v ->
  Restore.Run sched ropts wr = (Ok rres, wr') ->
  rr_Files rres = Z.of_nat (length (regulars es)) /\
  forall e, e ∈ regulars es -> ~ reserved (te_Name e) ->
    host_files wr' !! path_Join [ro_Target ropts; te_Name e] = Some (content e).
Proof.
  intros Hid [Hes Hnd _] [(text & files & Hm & Hp & Hl) Hst] Hsc Hun Hty Hcodec Hsched Hmap Ht Hrid Hopen Hv Hrest.
  rewrite Forall_forall in Hes, Hst.
  assert (Hkey : forall e, e ∈ regulars es -> valid_key (path_Join [id; te_Name e]) = true) by (intros e He; by apply own_key, Hes).
  assert (Hids : ro_Identities ropts <> []).
  { intros E. unfold Restore.Run in Hrest. rewrite E in Hrest. cbn [length Nat.eqb] in Hrest. by repeat case_match. }
  destruct (Run_spec sched ropts wr rres wr' sctext sc text files Hsched Hmap Ht ltac:(rewrite Hrid; by intros ->; destruct Hid)
    ltac:(rewrite Hrid, Hv; exact Hsc) Hun Hty ltac:(by rewrite Hrid, Hv) Hp) as (_ & _ & Hn & Hfs & _);
    [rewrite Hrid; by apply own_key..| | |by rewrite (listed_paths _ _ Hl)|exact Hrest|].
  - apply (listed_Forall (fun n => plain_path n = true) _ _ Hl). intros e He. by apply valid_key_plain, Hes.
  - rewrite Hrid. by apply (listed_Forall (fun n => valid_key (path_Join [id; n]) = true) _ _ Hl).
  - split; [rewrite Hn; by rewrite (Forall2_length _ _ _ Hl)|]. intros e He Hre.
    assert (Hin : te_Name e ∈ map rf_mPath files) by (rewrite (listed_paths _ _ Hl); by apply list_elem_of_fmap_2).
    apply list_elem_of_fmap in Hin as (f & Ef & Hf). destruct (Hfs f Hf) as (st & pl & r & Hst' & Hu & Hh); [by rewrite <- Ef|].
    destruct (Hst e He) as (st2 & Hv2 & Henc). rewrite Hrid, Hv, <- Ef in Hst'. unfold entry_key in Hv2. rewrite Hst' in Hv2. injection Hv2 as <-.
    destruct (encoded_Unwrap _ _ _ _ Henc Hopen Hids) as (r2 & Hu2 & _).
    rewrite Hcodec, Hu2 in Hu. injection Hu as <- _. by rewrite Ef.
Qed.

(** C1: what is restored is what was streamed, for a run that takes up no unfinished backup ([prepare_backup] finds none
    to resume, as with --no-resume or when no checkpoint of the same settings is there): after such a full
    backup succeeds, a successful restore of it on a host that holds an identity for its recipients puts, under
    the name of every file of the stream that recovery does not write itself, exactly the bytes
    [pg_basebackup] gave for it. For a run that resumes this is false ([resumed_backup_keeps_old_bytes]). *)
Theorem backup_restore_roundtrip {W : Type}
    `{DiskLaws W, !Clock W, !ClockLaws W, !Pg W, !PgLaws W, !BaseBackup W, !BaseBackupLaws W, FilterLaws}
    (Now : W -> time) opts w cid id w1 res w' :
  String.eqb (bo_Type opts) TypeIncremental = false ->
  codecFromString (bo_Compression opts) = codec_Name (ch_codec (bo_Filter opts)) -> options_ok opts -> is_u64 (id_SystemIdentifier cid) ->
  prepare_backup Now opts (Now w) w = (Ok (cid, id, None), w1) -> runSimple Now opts w = (Ok res, w') ->
  exists es w2, bb_Start "" (wal_method opts) w1 = (Ok (es, None), w2) /\
    forall sched ropts wr rres wr',
      (forall l, sched l ≡ₚ l) -> ro_TablespaceRemap ropts = ∅ -> clean_target (ro_Target ropts) -> ro_BackupID ropts = id ->
      opens (ro_Identities ropts) (ch_recipients (bo_Filter opts)) -> view wr = view w' ->
      Restore.Run sched ropts wr = (Ok rres, wr') ->
      rr_Files rres = br_Files res /\
      forall e, e ∈ regulars es -> ~ reserved (te_Name e) ->
        host_files wr' !! path_Join [ro_Target ropts; te_Name e] = Some (content e).
Proof.
  intros Hfull Hcodec Hopts Hsys Hprep Hrun. destruct (runSimple_spec Now opts w cid id w1 _ w' Hfull Hprep Hrun) as [Hid [[_ ?]|Hc]]; [done|].
  destruct Hc as (es & w2 & Hs & Hstream & [Hfiles (records & Hrec & Hsc)] & Hres).
  exists es, w2. split; [done|]. intros sched ropts wr rres wr' Hsched Hmap Ht Hrid Hopen Hv Hrest.
  pose proof (sidecar_text_parses _ (written_sidecar_ok opts _ es records Hopts Hsys Hstream Hrec)) as Hun.
  destruct (Hres res eq_refl) as [_ ->].
  by apply (restore_complete id (bo_Filter opts) es _ _ (view w') sched ropts wr rres wr' Hid Hstream Hfiles Hsc Hun).
Qed.

(** ** A small cluster *)

Definition entry (name : string) (flag : ascii) (chunks : list string) : tar_entry :=
  {| te_Name := name; te_Typeflag := flag; te_chunks := chunks; te_err := None; te_ModTime := Date 2026 4 1 9 0 0 |}.

Definition sample_label : string :=
  "START WAL LOCATION: 0/2000028 (file 000000010000000000000002)" +:+ nl +:+ "START TIMELINE: 1" +:+ nl.

Definition sample_stream : list tar_entry :=
  [entry "backup_label" "0" [sample_label]; entry "base/" "5" []; entry "base/1" "0" ["ab"; "cd"]; entry "PG_VERSION" "0" ["18"]].

#[local] Instance sample_basebackup : BaseBackup world := {
  bb_Start _ _ := ret (sample_stream, None);
  bb_Close := ret tt;
}.

Lemma sample_stream_ok : stream_ok sample_stream.
Proof.
  split.
  - cbn [regulars List.filter is_regular sample_stream entry te_Typeflag]. change (regulars sample_stream) with
      [entry "backup_label" "0" [sample_label]; entry "base/1" "0" ["ab"; "cd"]; entry "PG_VERSION" "0" ["18"]].
    repeat (apply Forall_cons; split; [split; [reflexivity|unfold reserved_names; by apply (bool_decide_unpack _)|reflexivity|unfold is_i64; cbn; lia]|]). constructor.
  - change (te_Name <$> regulars sample_stream) with ["backup_label"; "base/1"; "PG_VERSION"]. by apply (bool_decide_unpack _).
  - change (List.concat (map entry_dir sample_stream)) with ["base"]. by apply Forall_singleton.
Qed.

Lemma sample_start m wal w es err w' : bb_Start m wal w = (Ok (es, err), w') -> es = sample_stream.
Proof. by intros [= <- _ _]. Qed.

#[local] Instance sample_basebackup_laws : BaseBackupLaws world.
Proof.
  split; [intros; apply preserves_ret; tc_solve|apply preserves_ret; tc_solve|].
  intros wal w es err w' [= <- _ _]. apply sample_stream_ok.
Qed.

Definition backup_now (w : world) : time := Add (Date 2026 4 1 10 0 0) (w_clock w).

Definition backup_options : BackupOptions (H:=framing_libs) := {|
  bo_Filter := {| ch_codec := zstdCodec; ch_level := 3; ch_recipients := [7%nat] : list (Recipient (FilterLibs:=framing_libs)) |};
  bo_HasPool := true; bo_Server := "main"; bo_Label := "pgsafe-main"; bo_WALTimeout := 30 * Minute; bo_WALSource := ""; bo_ResumeDisabled := false;
  bo_ResumeCheckpointEveryN := 2; bo_ResumeGracePeriod := 0; bo_PgsafeVersion := "1"; bo_Recipients := ["age1"];
  bo_Compression := "zstd:3"; bo_ScratchDir := ""; bo_TempDir := "/tmp"; bo_Type := "full"; bo_ParentBackupID := "" |}.

(** The segment of the probe is archived; the segment of the bracket comes while the backup waits. *)
Definition backup_world : world :=
  start_world {[SegmentKey 1 "000000010000000000000001" (Sum256 "x") := "x"]} ∅ [] [[(keyA, "a")]].

Definition prepared_world : world := snd (prepare_backup (H5:=framing_libs) backup_now backup_options (backup_now backup_world) backup_world).
Definition backed_up_world : world := snd (runSimple (H5:=framing_libs) backup_now backup_options backup_world).
Definition backup_identity : ClusterIdentity :=
  {| id_SystemIdentifier := 7; id_Timeline := 1; id_CheckpointLSN := 0x2000060; id_WALSegmentSize := DefaultWALSegmentSize |}.
Definition backup_result : BackupResult :=
  {| br_BackupID := "20260401T100000F"; br_StartLSN := 0x2000028; br_StopLSN := 0x2000100; br_Timeline := 1; br_Files := 3; br_Bytes := 86 |}.

Lemma backup_prepares : prepare_backup (H5:=framing_libs) backup_now backup_options (backup_now backup_world) backup_world =
  (Ok (backup_identity, "20260401T100000F", None), prepared_world).
Proof.
  refine (run_eq (prepare_backup (H5:=framing_libs) backup_now backup_options (backup_now backup_world)) backup_world
    (Ok (backup_identity, "20260401T100000F", None)) _). vm_compute. reflexivity.
Qed.

Lemma backup_runs : runSimple (H5:=framing_libs) backup_now backup_options backup_world = (Ok backup_result, backed_up_world).
Proof. refine (run_eq (runSimple (H5:=framing_libs) backup_now backup_options) backup_world (Ok backup_result) _). vm_compute. reflexivity. Qed.

Lemma runSimple_atomic_witness : exists es w2,
  bb_Start "" "" prepared_world = (Ok (es, None), w2) /\
  complete_backup (H1:=framing_libs) "20260401T100000F" backup_options 7 es (view backed_up_world).
Proof.
  destruct (runSimple_atomic (H1:=framing_libs) backup_now backup_options backup_world backup_identity "20260401T100000F"
    prepared_world (Ok backup_result) backed_up_world eq_refl backup_prepares backup_runs) as [[_ Hf]|(es & w2 & Hs & Hc & _)]; [discriminate Hf|].
  exists es, w2. split; [exact Hs|exact Hc].
Defined.

(** The restore of that backup, on a host with the identity. *)
Definition restored_options : Restore.Options (H:=framing_libs) :=
  {| ro_Target := "/data"; ro_Identities := [7%nat] : list (Identity (FilterLibs:=framing_libs)); ro_BackupID := "20260401T100000F";
     ro_TablespaceRemap := ∅; ro_StandbyMode := false; ro_RestoreCommand := "cp /wal/%f %p"; ro_TargetTime := None;
     ro_TargetXID := None; ro_TargetLSN := None; ro_TargetName := ""; ro_TargetAction := "" |}.

Lemma restored_runs : isOk (fst (Restore.Run (H2:=framing_libs) id restored_options backed_up_world)) = true.
Proof. vm_compute. reflexivity. Qed.

Lemma backup_options_ok : options_ok (H1:=framing_libs) backup_options.
Proof. unfold options_ok, valid_strings. cbn. repeat (apply Forall_cons; split; [reflexivity|]). constructor. Qed.

Lemma base_1_not_reserved : ~ reserved "base/1".
Proof. unfold reserved. intros [?|[?|[?|[?|(seg & _ & _ & E)]]]]; try discriminate. Qed.

Lemma backup_restore_roundtrip_witness : exists rres wr',
  Restore.Run (H2:=framing_libs) id restored_options backed_up_world = (Ok rres, wr') /\
  rr_Files rres = 3 /\ host_files wr' !! "/data/base/1" = Some "abcd".
Proof.
  pose proof restored_runs as Hok.
  destruct (Restore.Run (H2:=framing_libs) id restored_options backed_up_world) as [[rres|e] wr'] eqn:Hrun; [|discriminate Hok].
  exists rres, wr'. split; [reflexivity|].
  destruct (backup_restore_roundtrip (H5:=framing_libs) backup_now backup_options backup_world backup_identity "20260401T100000F"
    prepared_world backup_result backed_up_world eq_refl eq_refl backup_options_ok ltac:(unfold is_u64; cbn; lia) backup_prepares backup_runs)
    as (es & w2 & Hs & Hall).
  destruct (Hall id restored_options backed_up_world rres wr' (fun l => reflexivity l) eq_refl
    ltac:(exists "data"; split; reflexivity) eq_refl eq_refl eq_refl Hrun) as [Hn Hf].
  split; [exact Hn|]. apply sample_start in Hs as ->. exact (Hf (entry "base/1" "0" ["ab"; "cd"]) ltac:(in_list) base_1_not_reserved).
Defined.

(** ** What is reused after an interruption *)

(** A checkpoint of [base/1] with the bytes it had then. *)
Definition old_checkpoint (id ty parent : string) : ResumeCheckpoint :=
  {| cp_Version := 1; cp_PgsafeVersion := "1"; cp_BackupID := id; cp_BackupType := ty; cp_ParentBackupID := parent;
     cp_Compression := "zstd:3"; cp_EncryptionRecipients := ["age1"]; cp_SystemIdentifier := 7; cp_Timeline := 1;
     cp_StartLSN := 0x2000028; cp_StartTime := Date 2026 4 1 9 50 0; cp_CheckpointedAt := Date 2026 4 1 9 55 0;
     cp_Files := [{| rf_Path := "base/1"; rf_Size := 4; rf_SHA256 := Sum256 "old!"; rf_ModTime := Date 2026 4 1 9 0 0;
                     rf_RepoSize := 8; rf_RepoSHA256 := Sum256 "AZold!za" |}] |}.

Definition old_checkpoint_text (id ty parent : string) : string :=
  match MarshalResumeCheckpoint (old_checkpoint id ty parent) with Ok t => t | Fail _ => "" end.

Definition interrupted_world (id ty parent : string) (files : gmap string string) : world :=
  start_world ({[id +:+ "/backup_manifest.copy" := old_checkpoint_text id ty parent; id +:+ "/base/1" := "AZold!za";
                 SegmentKey 1 "000000010000000000000001" (Sum256 "x") := "x"; keyA := "a"]} ∪ files) ∅ [] [].

(** A resumed backup keeps the bytes of the interrupted one for a file that has changed since, although its
    start is that of the new run: the changes in between are in neither. *)
Lemma resumed_backup_keeps_old_bytes :
  let '(r, w') := runSimple (H5:=framing_libs) backup_now backup_options (interrupted_world "20260401T095000F" "full" "" ∅) in
  match r with Ok res => br_BackupID res = "20260401T095000F" | Fail _ => False end /\
  entry "base/1" "0" ["ab"; "cd"] ∈ sample_stream /\ view w' !! "20260401T095000F/base/1" = Some "AZold!za".
Proof.
  match goal with |- let '(r, w') := ?run in _ => assert (Hr : match fst run with Ok res => String.eqb (br_BackupID res) "20260401T095000F" | Fail _ => false end &&
      bool_decide (view (snd run) !! "20260401T095000F/base/1" = Some "AZold!za") = true) by (vm_compute; reflexivity); destruct run as [[res|e] w'] end; [|discriminate Hr].
  cbn [fst snd] in Hr. apply andb_true_iff in Hr as [Hid Hv]. apply String.eqb_eq in Hid. apply bool_decide_eq_true in Hv.
  split; [exact Hid|]. split; [in_list|exact Hv].
Qed.

Definition incremental_options : BackupOptions (H:=framing_libs) := {|
  bo_Filter := bo_Filter backup_options; bo_HasPool := true; bo_Server := "main"; bo_Label := "pgsafe-main"; bo_WALTimeout := 30 * Minute; bo_WALSource := "";
  bo_ResumeDisabled := false; bo_ResumeCheckpointEveryN := 2; bo_ResumeGracePeriod := 0; bo_PgsafeVersion := "1";
  bo_Recipients := ["age1"]; bo_Compression := "zstd:3"; bo_ScratchDir := ""; bo_TempDir := "/tmp"; bo_Type := "incremental";
  bo_ParentBackupID := "20260331T100000F" |}.

Definition parent_files : gmap string string :=
  {["20260331T100000F/backup_manifest" := sample_manifest; "20260331T100000F/Storage-Metadata.json" := sidecar_text (zstd_sidecar "full" "")]}.

Definition reused_nowhere (r : result BackupResult) (w' : world) : Prop :=
  match r with Ok res => br_BackupID res = "20260331T100000F_20260401T100000I" | Fail _ => False end /\
  is_Some (view w' !! "20260331T100000F_20260401T100000I/backup_manifest") /\
  view w' !! "20260331T100000F_20260401T100000I/base/1" = None.

(** A resumed incremental goes on under a new ID and leaves the files it reuses behind under the old one. *)
Lemma resumed_incremental_loses_files :
  let '(r, w') := runSimple (H5:=framing_libs) backup_now incremental_options
    (interrupted_world "20260331T100000F_20260401T095000I" "incremental" "20260331T100000F" parent_files) in reused_nowhere r w'.
Proof.
  match goal with |- let '(r, w') := ?run in _ => assert (Hr : match fst run with Ok res => String.eqb (br_BackupID res) "20260331T100000F_20260401T100000I" | Fail _ => false end &&
      match view (snd run) !! "20260331T100000F_20260401T100000I/backup_manifest", view (snd run) !! "20260331T100000F_20260401T100000I/base/1" with
      | Some _, None => true | _, _ => false end = true) by (vm_compute; reflexivity); destruct run as [[res|e] w'] end; [|discriminate Hr].
  cbn [fst snd] in Hr. apply andb_true_iff in Hr as [Hid Hm]. apply String.eqb_eq in Hid. unfold reused_nowhere.
  destruct (view w' !! "20260331T100000F_20260401T100000I/backup_manifest"), (view w' !! "20260331T100000F_20260401T100000I/base/1"); try discriminate Hm.
  split; [exact Hid|]. split; [by eexists|reflexivity].
Qed.
