(* ===== verification/PublishSpec.v ===== *)
(** * Publishing a backup on the POSIX driver

    What [writeStorageFileAtomic] and the publication of a backup ([internal/backup/backup.go]) promise on the driver
    of [internal/storage/posix] when calls fail and the machine stops: the names that are protected keep what every
    crash finds under them while another file is written. *)

From S2P Require Import Prelude Storage Keys Manifest Backup BackupSpec FileSystem Posix PosixSpec.

(** ** What is on disk for sure, whether or not its directory is *)

(** Every crash finds [o] as the bytes of the entry [p], provided it finds the directories above it. *)
Definition fixed (s : fs) (p : string) (o : option string) : Prop :=
  forall cnt, crash_ok cnt s ->
    match ns_files (crash_ns s cnt) !! p with
    | None => o = None
    | Some i => exists c, o = Some c /\ fs_stable s !! i = Some c
    end.

(** A number that is given to a new file is none of a file that is there. *)
Definition new_numbers (s : fs) : Prop :=
  forall cnt p i, crash_ok cnt s -> ns_files (crash_ns s cnt) !! p = Some i -> (i < fs_next s)%nat.

Definition keeps (l : list (string * option string)) (s : fs) : Prop :=
  wf_fs s /\ new_numbers s /\ Forall (fun po => fixed s po.1 po.2) l.

(** None of these names is the file [i]. *)
Definition clear (i : nat) (l : list (string * option string)) (s : fs) : Prop := Forall (fun po => apart s i po.1) l.

Lemma fixed_content s p o cnt junk : fixed s p o -> crash_ok cnt s ->
  crash_content s cnt junk p = if decide (visible (crash_ns s cnt) p) then o else None.
Proof.
  intros Hs Hok. specialize (Hs cnt Hok). unfold crash_content, crash_bytes. case_decide; [|done].
  destruct (ns_files (crash_ns s cnt) !! p) as [i|]; [|by subst]. destruct Hs as (c & -> & Hc). simpl. by rewrite Hc.
Qed.

Lemma fixed_add s op p o : off p op -> fixed s p o -> fixed (add_op op s) p o.
Proof. intros Hoff Hs cnt Hok. rewrite crash_ns_add_off by done. exact (Hs cnt Hok). Qed.

Lemma fixed_data s i c p o : apart s i p -> fixed s p o -> fixed (set_data i c s) p o.
Proof.
  intros Ha Hs cnt Hok. specialize (Hs cnt Hok). change (crash_ns (set_data i c s) cnt) with (crash_ns s cnt).
  destruct (ns_files (crash_ns s cnt) !! p) as [j|] eqn:Ej; [|done]. destruct Hs as (c0 & Ho & Hc). exists c0. split; [done|].
  cbn [set_data fs_stable]. rewrite lookup_delete_ne; [done|]. intros ->. by apply (Ha cnt Hok).
Qed.

Lemma fixed_flush_file s i p o : apart s i p -> fixed s p o -> fixed (flush_file i s) p o.
Proof.
  intros Ha Hs cnt Hok. specialize (Hs cnt Hok). change (crash_ns (flush_file i s) cnt) with (crash_ns s cnt).
  destruct (ns_files (crash_ns s cnt) !! p) as [j|] eqn:Ej; [|done]. destruct Hs as (c0 & Ho & Hc). exists c0. split; [done|].
  cbn [flush_file fs_stable]. rewrite lookup_partial_alter_ne; [done|]. intros ->. by apply (Ha cnt Hok).
Qed.

Lemma fixed_flush d s p o : flushed_ok s -> fixed s p o -> fixed (flush_dir d s) p o.
Proof. intros Hf Hs cnt Hok. apply crash_ok_flush in Hok as [Hok _]; [|done]. exact (Hs cnt Hok). Qed.

Lemma fixed_now s p o : wf_fs s -> fixed s p o -> content s p = o.
Proof.
  intros [Hf Hst] Hs. specialize (Hs (fun d => count_dir d (fs_log s)) Hf). unfold crash_ns in Hs. rewrite persist_all in Hs by done.
  unfold content, now_ns. destruct (ns_files (replay (fs_base s) (fs_log s)) !! p) as [i|]; [|by subst].
  destruct Hs as (c & -> & Hc). by eapply lookup_weaken.
Qed.

Lemma fixed_absent s p : wf_fs s -> fixed s p None -> file_at s p = None.
Proof.
  intros [Hf _] Hs. specialize (Hs (fun d => count_dir d (fs_log s)) Hf). unfold crash_ns in Hs. rewrite persist_all in Hs by done.
  unfold file_at, now_ns. destruct (ns_files _ !! p); [|done]. by destruct Hs as (? & ? & _).
Qed.

(** ** The steps *)

(** An operation that gives no file a new name. *)
Definition no_link (op : dirop) : Prop := match op with OpLink _ _ => False | _ => True end.

Lemma apply_range ns op p i : no_link op -> ns_files (apply_op ns op) !! p = Some i -> exists q, ns_files ns !! q = Some i.
Proof.
  destruct op as [q j|q q'|q|q]; cbn [no_link apply_op]; [done|intros _|intros _|intros _; by exists p].
  - destruct (ns_files ns !! q) as [j|] eqn:E; cbn [ns_files]; [|by exists p].
    intros [[_ <-]|[_ [_ H]%lookup_delete_Some]]%lookup_insert_Some; [by exists q|by exists p].
  - cbn [ns_files]. intros [_ H]%lookup_delete_Some. by exists p.
Qed.

Lemma new_numbers_add op s : no_link op -> new_numbers s -> new_numbers (add_op op s).
Proof.
  intros Hop Hn cnt p i Hok. rewrite crash_ns_add. case_match; [|by apply Hn].
  intros (q & Hq)%apply_range; [|done]. by eapply Hn.
Qed.

Lemma keeps_add l op s : no_link op -> Forall (fun po => off po.1 op) l -> keeps l s -> keeps l (add_op op s).
Proof.
  intros Hop Hoff (Hw & Hn & Hl). split_and!; [by apply wf_add|by apply new_numbers_add|].
  eapply Forall_impl; [apply Forall_and; split; [exact Hl|exact Hoff]|]. intros po [? ?]. by apply fixed_add.
Qed.

Lemma keeps_flush l d s : keeps l s -> keeps l (flush_dir d s).
Proof.
  intros (Hw & Hn & Hl). split_and!; [by apply wf_flush| |].
  - intros cnt p i Hok. apply crash_ok_flush in Hok as [Hok _]; [|apply Hw]. by apply Hn.
  - eapply Forall_impl; [exact Hl|]. intros po. apply fixed_flush, Hw.
Qed.

Lemma keeps_data l i c s : clear i l s -> keeps l s -> keeps l (set_data i c s).
Proof.
  intros Ha (Hw & Hn & Hl). split_and!; [by apply wf_set_data|done|].
  eapply Forall_impl; [apply Forall_and; split; [exact Hl|exact Ha]|]. intros po [? ?]. by apply fixed_data.
Qed.

Lemma keeps_flush_file l i s : clear i l s -> keeps l s -> keeps l (flush_file i s).
Proof.
  intros Ha (Hw & Hn & Hl). split_and!; [by apply wf_flush_file|done|].
  eapply Forall_impl; [apply Forall_and; split; [exact Hl|exact Ha]|]. intros po [? ?]. by apply fixed_flush_file.
Qed.

Lemma clear_flush i d l s : flushed_ok s -> clear i l s -> clear i l (flush_dir d s).
Proof. intros Hf Hc. eapply Forall_impl; [exact Hc|]. intros po. by apply apart_flush. Qed.

Lemma keeps_weaken l l' s : l' ⊆ l -> keeps l s -> keeps l' s.
Proof.
  intros Hsub (Hw & Hn & Hl). split_and!; [done..|]. rewrite Forall_forall in *. intros po Hpo. by apply Hl, Hsub.
Qed.

Lemma keeps_fixed l s p o : keeps l s -> (p, o) ∈ l -> fixed s p o.
Proof. intros (_ & _ & Hl) Hin. rewrite Forall_forall in Hl. exact (Hl _ Hin). Qed.

(** A new file under a free name. *)
Lemma keeps_create l t s : Forall (fun po => po.1 <> t) l -> keeps l s ->
  let s' := set_data (fs_next s) "" (bump (add_op (OpLink t (fs_next s)) s)) in
  keeps l s' /\ clear (fs_next s) l s'.
Proof.
  intros Hne (Hw & Hn & Hl) s'.
  assert (Ha : clear (fs_next s) l (bump (add_op (OpLink t (fs_next s)) s))).
  { eapply Forall_impl; [exact Hne|]. intros po Hpo. change (apart (add_op (OpLink t (fs_next s)) s) (fs_next s) po.1).
    apply apart_add; [cbn; congruence|]. intros cnt Hok E. apply Hn in E; [lia|done]. }
  split; [|done]. apply keeps_data; [done|]. split_and!; [by apply (wf_add _ s)| |].
  - intros cnt p i Hok. change (crash_ns (bump (add_op (OpLink t (fs_next s)) s)) cnt) with (crash_ns (add_op (OpLink t (fs_next s)) s) cnt).
    rewrite crash_ns_add. cbn [bump fs_next add_op]. case_match; [|intros E; apply Hn in E; [lia|done]]. cbn [apply_op ns_files].
    intros [[_ <-]|[_ E]]%lookup_insert_Some; [lia|]. apply Hn in E; [lia|done].
  - eapply Forall_impl; [apply Forall_and; split; [exact Hl|exact Hne]|]. intros po [Hpo Hq].
    change (fixed (add_op (OpLink t (fs_next s)) s) po.1 po.2). apply fixed_add; [cbn; congruence|done].
Qed.

(** ** Writing one file beside those that are protected *)

Create HintDb safe.

Section beside.
Context (r : driver) (rel p : string) (l : list (string * option string)) (Safe : fs -> Prop).
Hypotheses (Hroot : HasPrefix (root r) "/" = true) (Habs : abs r rel = Ok p).
Hypotheses (Hp : Forall (fun po => po.1 <> p) l) (Ht : Forall (fun po => po.1 <> tmp_of p) l).
Hypothesis Hsafe : forall s, keeps l s -> Safe s.

Let t := tmp_of p.
Let d := path_Dir p.

Let Hdir : path_Dir t = d := tmp_dir p (abs_rooted r rel p Hroot Habs).

Definition at_start (s : fs) : Prop := keeps l s /\ fixed s t None.

Definition opened (i : nat) (b : string) (s : fs) : Prop :=
  keeps l s /\ clear i l s /\ linked s d t i /\ fs_data s !! i = Some b.

Definition synced (i : nat) (b : string) (s : fs) : Prop := opened i b s /\ fs_stable s !! i = Some b.

Definition bound (i : nat) (b : string) (s : fs) : Prop :=
  synced i b s /\ forall cnt, crash_ok cnt s -> ns_files (crash_ns s cnt) !! t = Some i.

Definition renamed (b : string) (s : fs) : Prop :=
  keeps l s /\ forall cnt, crash_ok cnt s ->
    (exists i, ns_files (crash_ns s cnt) !! p = Some i /\ fs_stable s !! i = Some b) \/ (cnt d < count_dir d (fs_log s))%nat.

Definition placed (b : string) (s : fs) : Prop := keeps ((p, Some b) :: l) s.

Lemma start_mkdir x s : at_start s -> at_start (add_op (OpMkdir x) s).
Proof.
  intros [Hk Hf]. split; [apply keeps_add; [done| |done]|by apply fixed_add]. by apply Forall_true.
Qed.

Lemma start_create s : at_start s -> opened (fs_next s) "" (set_data (fs_next s) "" (bump (add_op (OpLink t (fs_next s)) s))).
Proof.
  intros [Hk Hf]. destruct (keeps_create l t s Ht Hk) as [Hk' Hc]. split_and!; [done|done| |apply lookup_insert_eq].
  rewrite <- Hdir. exact (linked_new s t (fs_next s)).
Qed.

Lemma opened_write i b b' s : opened i b s -> opened i b' (set_data i b' s).
Proof. intros (Hk & Hc & Hl & _). split_and!; [by apply keeps_data|done|done|apply lookup_insert_eq]. Qed.

Lemma opened_sync i b s : opened i b s -> synced i b (flush_file i s).
Proof.
  intros (Hk & Hc & Hl & Hd). split; [split_and!; [by apply keeps_flush_file|done..]|].
  cbn [flush_file fs_stable]. by rewrite lookup_partial_alter_eq.
Qed.

Lemma synced_flush i b s : synced i b s -> bound i b (flush_dir d s).
Proof.
  intros [(Hk & Hc & Hl & Hd) Hst]. pose proof Hk as ((Hf & _) & _). split; [split; [split_and!|done]|].
  - by apply keeps_flush.
  - by apply clear_flush.
  - by apply linked_flush.
  - done.
  - intros cnt Hok. apply crash_ok_flush in Hok as [Hok Hcnt]; [|done]. by apply Hl.
Qed.

Lemma bound_rename i b s : bound i b s -> renamed b (add_op (OpRename t p) s).
Proof.
  intros [[(Hk & Hc & Hl & Hd) Hst] Hb]. split.
  - apply keeps_add; [done| |done]. eapply Forall_impl; [apply Forall_and; split; [exact Hp|exact Ht]|]. intros po [? ?]. by split.
  - intros cnt Hok. rewrite crash_ns_add. cbn [op_dir]. fold d.
    destruct (Nat.ltb_spec (count_dir d (fs_log s)) (cnt d)).
    + left. exists i. cbn [apply_op]. rewrite (Hb cnt Hok). cbn [ns_files]. split; [apply lookup_insert_eq|done].
    + right. cbn [add_op fs_log]. rewrite count_dir_snoc. cbn [op_dir]. fold d. rewrite String.eqb_refl. lia.
Qed.

Lemma renamed_flush b s : renamed b s -> placed b (flush_dir d s).
Proof.
  intros [Hk Hr]. pose proof Hk as ((Hf & _) & _). pose proof (keeps_flush _ d _ Hk) as (Hw & Hn & Hl). split_and!; [done|done|].
  constructor; [|done]. cbn. intros cnt Hok. apply crash_ok_flush in Hok as [Hok Hcnt]; [|done].
  change (crash_ns (flush_dir d s) cnt) with (crash_ns s cnt). destruct (Hr cnt Hok) as [(i & -> & Hi)|]; [by exists b|lia].
Qed.

Lemma start_safe s : at_start s -> Safe s. Proof. intros [? _]. by apply Hsafe. Qed.
Lemma opened_safe i b s : opened i b s -> Safe s. Proof. intros [? _]. by apply Hsafe. Qed.
Lemma synced_safe i b s : synced i b s -> Safe s. Proof. intros [? _]. by eapply opened_safe. Qed.
Lemma bound_safe i b s : bound i b s -> Safe s. Proof. intros [? _]. by eapply synced_safe. Qed.
Lemma renamed_safe b s : renamed b s -> Safe s. Proof. intros [? _]. by apply Hsafe. Qed.
Lemma placed_safe b s : placed b s -> Safe s.
Proof. intros Hk. apply Hsafe. eapply keeps_weaken; [|exact Hk]. by set_solver. Qed.

Hint Resolve start_safe opened_safe synced_safe bound_safe renamed_safe placed_safe : safe.

Lemma start_mkdir_triple x : triple Safe (fun s _ => at_start s) (sys_mkdir x) (fun _ s _ => at_start s).
Proof.
  apply triple_syscall. intros s ws Hs. pose proof (start_mkdir x s Hs).
  split; [intros n; by apply start_safe|]. repeat case_match; simpl; split; eauto with safe; done.
Qed.

Lemma start_creat_triple : triple Safe (fun s _ => at_start s) (sys_creat t) (fun i s _ => opened i "" s).
Proof.
  apply triple_syscall. intros s ws Hs. split; [intros n; by apply start_safe|].
  destruct (is_dir s t); [simpl; split; [by apply start_safe|done]|]. pose proof Hs as [(Hw & _) Hf].
  rewrite (fixed_absent s t Hw Hf). destruct (is_dir s (path_Dir t)); [|simpl; split; [by apply start_safe|done]].
  pose proof (start_create s Hs) as Ho. simpl. split; [by eapply opened_safe|]. by intros a [= <-].
Qed.

Lemma Put_beside : triple Safe (fun s _ => at_start s) (Put r rel) (fun h s ws => exists i, opened i "" s /\ open_on p h i ws).
Proof.
  unfold Put. rewrite Habs. unfold of_result. change (fun w : machine => (Ok p, w)) with (ret (W:=machine) p). rewrite bind_ret_l. cbv zeta.
  eapply triple_bind; [apply triple_wrapping, triple_forM; intros; apply start_mkdir_triple|]. intros ?.
  eapply triple_bind; [apply triple_wrapping, start_creat_triple|]. intros i.
  eapply triple_bind; [apply triple_try, triple_hook; eauto with safe|]. intros [[]|err].
  - intros w res w' Hw. unfold new_writer. intros [= <- <-]. simpl.
    split; [exists []; by rewrite app_nil_r|]. exists i. split; [done|]. apply lookup_insert_eq.
  - eapply triple_bind; [apply triple_try, (triple_pure_call _ _ _); [done|auto]|]. intros x. apply triple_throw. by destruct x.
Qed.

(** A write that fails leaves the file open with some of its bytes. *)
Lemma Write_beside h i b x :
  triple Safe (fun s ws => opened i b s /\ open_on p h i ws) (try (Write h x))
    (fun res s ws => open_on p h i ws /\ match res with Ok _ => opened i (b +:+ x) s | Fail _ => exists b', opened i b' s end).
Proof.
  intros w res w' [Ho Hw]. unfold try, Write, bind, get_writer, read. rewrite Hw. cbn [default from_option id w_closed w_file].
  assert (Hd : file_data (m_fs w) i = b) by (destruct Ho as (_ & _ & _ & Hd); unfold file_data; by rewrite Hd).
  unfold sys_write, syscall. rewrite Hd. pose proof (fun b' => opened_write i b b' _ Ho) as Hs.
  destruct (m_faults w) as [|[|n] fl]; intros [= <- <-]; cbn [m_trace m_fs m_writers].
  all: split; [eexists; split; [done|]; constructor; [|done]; by eapply opened_safe|split; eauto].
Qed.

Lemma Close_beside h i b :
  triple Safe (fun s ws => opened i b s /\ open_on p h i ws) (Close r h) (fun _ s _ => placed b s).
Proof.
  unfold Close. eapply triple_get_writer; [intros s ws [_ Ho]; exact Ho|]. cbn [w_closed w_file w_tmpAbs w_finalAbs]. fold t d.
  eapply triple_bind; [apply (triple_set_closed _ (opened i b)); by intros s ws [Hw _]|]. intros [].
  eapply triple_bind.
  { apply triple_try, (triple_syscall _ _ _ _ (fun _ s _ => synced i b s)). intros s ws Hw.
    pose proof (opened_sync i b s Hw). split; [|split]; eauto with safe. }
  intros [[]|err]; [|eapply triple_bind; [apply triple_try, (triple_pure_call _ (fun s _ => Safe s)); auto|]; intros x; apply triple_throw; by destruct x].
  eapply triple_bind; [apply triple_try, (triple_hook _ _ (fun s _ => synced i b s)); eauto with safe|].
  intros [[]|err]; [|eapply triple_bind; [apply triple_try, (triple_pure_call _ (fun s _ => Safe s)); auto|]; intros x; apply triple_throw; by destruct x].
  eapply triple_bind; [apply triple_wrapping, (triple_pure_call _ (fun s _ => synced i b s)); eauto with safe|].
  intros []. eapply triple_bind; [apply triple_hook; eauto with safe|].
  intros []. eapply triple_bind; [apply triple_wrapping, (triple_pure_call _ (fun s _ => synced i b s)); eauto with safe|].
  intros []. eapply triple_bind; [apply triple_hook; eauto with safe|].
  intros []. eapply triple_bind; [apply triple_wrapping, (triple_syscall _ _ _ _ (fun _ s _ => bound i b s)); intros s ws Hs; pose proof (synced_flush i b s Hs); split; [|split]; eauto with safe|].
  intros []. eapply triple_bind; [apply triple_hook; eauto with safe|].
  intros []. eapply triple_bind; [apply triple_wrapping, (triple_syscall _ _ _ _ (fun _ s _ => renamed b s))|].
  { intros s ws Hs. pose proof (bound_rename i b s Hs). split; [intros n; unfold untouched; eauto with safe|].
    repeat case_match; simpl; split; eauto with safe; done. }
  intros []. eapply triple_bind; [apply triple_hook; eauto with safe|].
  intros []. eapply triple_bind; [apply triple_wrapping, (triple_syscall _ _ _ _ (fun _ s _ => placed b s)); intros s ws Hs; pose proof (renamed_flush b s Hs); split; [|split]; eauto with safe|].
  intros []. apply triple_hook. eauto with safe.
Qed.

(** [writeStorageFileAtomic] on this driver; where it fails the file may be torn. *)
Lemma writeStorageFileAtomic_beside data :
  triple Safe (fun s _ => at_start s) (writeStorageFileAtomic (H:=posix_backend r) rel data) (fun _ s _ => placed data s).
Proof.
  unfold writeStorageFileAtomic. eapply triple_bind; [exact Put_beside|]. intros h w res w' (i & Hw & Ho). revert w res w' Hw Ho.
  assert (H : triple Safe (fun s ws => opened i "" s /\ open_on p h i ws)
    (bind (try (Write h data)) (fun x => match x with Fail e => try (Close r h) ;;; throw e | Ok _ => Close r h end)) (fun _ s _ => placed data s)).
  2:{ intros w res w' Hw Ho. by apply (H w res w'). }
  eapply triple_bind; [apply Write_beside|]. intros [[]|err].
  - eapply triple_conseq; [apply (Close_beside h i data)|by intros s ws [? ?]|done].
  - intros w res w' [Ho (b & Hb)]. assert (Hc : triple Safe (fun s ws => opened i b s /\ open_on p h i ws) (bind (try (Close r h)) (fun _ => throw (A:=unit) err)) (fun _ s _ => placed data s)).
    { eapply triple_bind; [apply triple_try, Close_beside|]. intros x. apply triple_throw. intros s ws. destruct x; [apply placed_safe|done]. }
    by apply (Hc w res w').
Qed.
End beside.

(** ** The rename that makes the backup live *)

Lemma ancestors_sibling e a b : no_byte "/" a = true -> no_byte "/" b = true -> ancestors (e +:+ "/" +:+ a) = ancestors (e +:+ "/" +:+ b).
Proof.
  intros Ha Hb. unfold ancestors.
  assert (Hs : forall x, no_byte "/" x = true -> Split (e +:+ "/" +:+ x) "/" = Split e "/" ++ [x]).
  { intros x Hx. change ("/" +:+ x) with (String "/" x). by rewrite Split_app_any, (Split_no_byte x). }
  rewrite !Hs by done. rewrite !length_app. cbn [length]. apply list_fmap_ext. intros i k Hk.
  apply lookup_seq in Hk as [-> Hk]. f_equal. rewrite !take_app_le by lia. done.
Qed.

Section publication.
Context (r : driver) (f t q man side : string).
Hypotheses (Htf : t <> f) (Hqf : q <> f) (Hqt : q <> t) (Hsib : ancestors f = ancestors q).

(** The manifest is not there, or it is whole and the sidecar is there too. *)
Definition all_or_nothing (s : fs) : Prop :=
  forall cnt junk, crash_ok cnt s ->
    crash_content s cnt junk f = None \/ (crash_content s cnt junk f = Some man /\ crash_content s cnt junk q = Some side).

Definition written_out (s : fs) : Prop := keeps [(q, Some side); (t, Some man); (f, None)] s.

Definition moved_in (s : fs) : Prop :=
  keeps [(q, Some side)] s /\ forall cnt, crash_ok cnt s ->
    (exists i, ns_files (crash_ns s cnt) !! f = Some i /\ fs_stable s !! i = Some man) \/
    (ns_files (crash_ns s cnt) !! f = None /\ (cnt (path_Dir f) < count_dir (path_Dir f) (fs_log s))%nat).

Definition published (s : fs) : Prop := keeps [(q, Some side); (f, Some man)] s.

Lemma absent_safe l s : (f, None) ∈ l -> keeps l s -> all_or_nothing s.
Proof.
  intros Hin Hk cnt junk Hok. left. rewrite (fixed_content _ _ _ _ _ (keeps_fixed _ _ _ _ Hk Hin) Hok). by case_decide.
Qed.

Lemma sidecar_visible s cnt junk : keeps [(q, Some side)] s -> crash_ok cnt s ->
  crash_content s cnt junk q = if decide (visible (crash_ns s cnt) f) then Some side else None.
Proof.
  intros Hk Hok. rewrite (fixed_content _ _ _ _ _ (keeps_fixed _ _ _ _ Hk ltac:(by left)) Hok). apply decide_ext. unfold visible. by rewrite Hsib.
Qed.

Lemma moved_safe s : moved_in s -> all_or_nothing s.
Proof.
  intros [Hk Hm] cnt junk Hok. rewrite (sidecar_visible _ _ _ Hk Hok). unfold crash_content at 1 2, crash_bytes.
  case_decide; [|by left]. destruct (Hm cnt Hok) as [(i & -> & Hi)|[-> _]]; [right|by left]. simpl. by rewrite Hi.
Qed.

Lemma published_moved s : published s -> moved_in s.
Proof.
  intros Hk. split; [eapply keeps_weaken; [|exact Hk]; set_solver|]. intros cnt Hok. left.
  pose proof (keeps_fixed _ _ f (Some man) Hk ltac:(by right; left) cnt Hok) as Hf. destruct (ns_files _ !! f) as [i|]; [|done].
  destruct Hf as (c & [= <-] & Hc). by exists i.
Qed.

Lemma written_move s : written_out s -> moved_in (add_op (OpRename t f) s).
Proof.
  intros Hk. split.
  - apply keeps_add; [done| |eapply keeps_weaken; [|exact Hk]; set_solver]. repeat constructor; cbn; congruence.
  - intros cnt Hok. rewrite crash_ns_add. cbn [op_dir].
    pose proof (keeps_fixed _ _ t (Some man) Hk ltac:(by right; left) cnt Hok) as Ht.
    pose proof (keeps_fixed _ _ f None Hk ltac:(by right; right; left) cnt Hok) as Hf.
    destruct (ns_files (crash_ns s cnt) !! t) as [i|] eqn:Ei; [|done]. destruct Ht as (c & [= <-] & Hc).
    destruct (Nat.ltb_spec (count_dir (path_Dir f) (fs_log s)) (cnt (path_Dir f))).
    + left. exists i. cbn [apply_op]. rewrite Ei. cbn [ns_files]. split; [apply lookup_insert_eq|done].
    + right. split; [destruct (ns_files (crash_ns s cnt) !! f); [by destruct Hf as (? & ? & _)|done]|].
      cbn [add_op fs_log]. rewrite count_dir_snoc. cbn [op_dir]. rewrite String.eqb_refl. lia.
Qed.

Lemma moved_publish s : moved_in s -> published (flush_dir (path_Dir f) s).
Proof.
  intros [Hk Hm]. pose proof Hk as ((Hf & _) & _). pose proof (keeps_flush _ (path_Dir f) _ Hk) as (Hw & Hn & Hl). split_and!; [done|done|].
  constructor; [by inversion Hl|constructor; [|done]]. cbn. intros cnt Hok. apply crash_ok_flush in Hok as [Hok Hcnt]; [|done].
  change (crash_ns (flush_dir (path_Dir f) s) cnt) with (crash_ns s cnt). destruct (Hm cnt Hok) as [(i & -> & Hi)|[_ ?]]; [by exists man|lia].
Qed.

Lemma Commit_publishes tmp final : abs r tmp = Ok t -> abs r final = Ok f ->
  triple all_or_nothing (fun s _ => written_out s) (Commit r tmp final) (fun _ s _ => published s).
Proof.
  intros Ht Hf. unfold Commit. rewrite Ht, Hf. unfold of_result.
  change (fun w : machine => (Ok t, w)) with (ret (W:=machine) t). change (fun w : machine => (Ok f, w)) with (ret (W:=machine) f). rewrite !bind_ret_l.
  assert (Hw : forall s (ws : gmap nat pwriter), written_out s -> all_or_nothing s) by (intros s ws; apply absent_safe; by right; right; left).
  assert (Hm : forall s (ws : gmap nat pwriter), moved_in s -> all_or_nothing s) by (intros; by apply moved_safe).
  eapply triple_bind.
  { apply (triple_try_pure_call _ (fun s _ => written_out s)); [|exact Hw]. intros s. destruct (file_at s f); [done|]. by destruct (is_dir s f). }
  intros [n|err]; cbn beta iota; [apply triple_throw, Hw|]. destruct (negb _); [apply triple_throw, Hw|].
  eapply triple_bind; [apply triple_wrapping, (triple_syscall _ _ _ _ (fun _ s _ => moved_in s))|].
  { intros s ws Hs. pose proof (written_move s Hs). split; [intros n; by apply (Hw s ws)|]. repeat case_match; simpl; split; eauto; done. }
  intros []. eapply triple_bind; [apply triple_hook, Hm|].
  intros []. eapply triple_bind; [apply triple_wrapping, (triple_pure_call _ (fun s _ => moved_in s)); eauto|].
  intros []. eapply triple_bind; [apply triple_wrapping, (triple_syscall _ _ _ _ (fun _ s _ => published s))|].
  { intros s ws Hs. pose proof (moved_publish s Hs). split; [intros n; by apply (Hm s ws)|]. split; [|done]. by apply moved_safe, published_moved. }
  intros []. apply triple_hook. intros s ws Hs. by apply moved_safe, published_moved.
Qed.
End publication.

(** ** The files of a backup *)

Lemma plain_IsLocal k : plain_path k = true -> IsLocal k = true.
Proof.
  intros Hk. pose proof (plain_path_nonempty k Hk) as Hne. unfold plain_path in Hk. unfold IsLocal.
  destruct (String.eqb_spec k "") as [|_]; [done|]. rewrite forallb_forall in Hk.
  assert (Hseg : forall x, x ∈ Split k "/" -> plain_seg x = true) by (intros x Hx; by apply Hk, list_elem_of_In).
  destruct (HasPrefix k "/") eqn:Hp.
  { apply HasPrefix_spec in Hp as [u ->]. change ("/" +:+ u) with ("" +:+ String "/" u) in Hseg. rewrite Split_app in Hseg by done. by specialize (Hseg "" ltac:(by left)). }
  cbn [orb]. destruct (existsb _ (Split k "/")) eqn:Hd.
  { apply existsb_exists in Hd as (x & Hx%list_elem_of_In & Hd). specialize (Hseg x Hx). unfold plain_seg in Hseg.
    rewrite !andb_true_iff, !negb_true_iff in Hseg. destruct Hseg as [[[_ H1] H2] _]. by rewrite H1, H2 in Hd. }
  destruct (String.eqb_spec k "..") as [->|_]; [by specialize (Hseg ".." ltac:(by left))|]. cbn [orb].
  destruct (HasPrefix k "../") eqn:Hu; [|done]. apply HasPrefix_spec in Hu as [u ->]. change ("../" +:+ u) with (".." +:+ String "/" u) in Hseg.
  rewrite Split_app in Hseg by done. by specialize (Hseg ".." ltac:(by left)).
Qed.

(** The file of a plain key. *)
Lemma abs_plain opts r k : New opts = Ok r -> root r <> "/" -> plain_path k = true -> abs r k = Ok (root r +:+ "/" +:+ k).
Proof.
  intros Hnew Hroot Hk. unfold abs. rewrite (plain_IsLocal k Hk). cbn [negb]. f_equal. revert Hnew Hroot. unfold New.
  destruct (String.eqb (opt_Root opts) ""); [done|]. destruct (HasPrefix (opt_Root opts) "/") eqn:Hp; [|done]. cbn [negb]. intros [= <-]. cbn [root].
  assert (Hc : Clean (opt_Root opts) = "/" +:+ Join (clean_go true [] (Split (opt_Root opts) "/")) "/") by (unfold Clean; by rewrite Hp).
  rewrite Hc. pose proof (clean_go_rooted_plain [] (Split (opt_Root opts) "/") eq_refl (Split_segs_no_byte _ _)) as Hpl.
  set (L := clean_go true [] (Split (opt_Root opts) "/")) in *. intros Hroot. assert (HL : L <> []) by (by intros E; rewrite E in Hroot).
  assert (Hg : clean_go false [] (Split k "/") = Split k "/") by by rewrite plain_seg_clean.
  assert (Hne : Split k "/" <> []) by (destruct (Split_cons_not_nil k "/") as (h & tl & ->); done).
  rewrite Clean_walk; [|done|done|by apply plain_path_nonempty|].
  - rewrite Hg, Join_app, Join_Split by done. by rewrite !sapp_assoc.
  - rewrite Hg. intros E. destruct (Split_cons_not_nil k "/") as (h & tl & Hs). unfold plain_path in Hk. rewrite Hs in *. cbn in E. subst h. done.
Qed.

Lemma root_slash opts r : New opts = Ok r -> HasPrefix (root r) "/" = true.
Proof.
  unfold New. destruct (String.eqb (opt_Root opts) ""); [done|]. destruct (HasPrefix (opt_Root opts) "/") eqn:Hp; [|done]. cbn [negb]. intros [= <-].
  by apply Clean_rooted.
Qed.

(** The file [n] of the backup [id]. *)
Definition backup_file (r : driver) (id n : string) : string := root r +:+ "/" +:+ id +:+ "/" +:+ n.

Lemma backup_file_abs opts r id n : New opts = Ok r -> root r <> "/" -> own_id id -> valid_key n = true ->
  abs r (path_Join [id; n]) = Ok (backup_file r id n).
Proof.
  intros Hnew Hroot Hid Hn. destruct (own_key id n Hid Hn) as (E & Hk & _).
  rewrite (abs_plain opts r _ Hnew Hroot) by by apply valid_key_plain. by rewrite E.
Qed.

Lemma backup_file_inj r id a b : backup_file r id a = backup_file r id b -> a = b.
Proof. unfold backup_file. intros E. do 4 (apply sapp_inj_len in E as [_ E]; [|done]). done. Qed.

Lemma backup_file_sibling r id a b : no_byte "/" a = true -> no_byte "/" b = true ->
  ancestors (backup_file r id a) = ancestors (backup_file r id b).
Proof.
  intros Ha Hb. assert (E : forall n, backup_file r id n = (root r +:+ "/" +:+ id) +:+ "/" +:+ n) by (intros n; unfold backup_file; by rewrite !sapp_assoc).
  rewrite !E. by apply ancestors_sibling.
Qed.

Lemma tmp_backup_file r id n : tmp_of (backup_file r id n) = backup_file r id (n +:+ ".pgsafe-tmp").
Proof. unfold tmp_of, backup_file. by rewrite !sapp_assoc. Qed.

(** No crash finds anything under the names the publication of [id] writes but those it publishes from. *)
Definition unpublished_dir (r : driver) (id : string) (s : fs) : Prop :=
  keeps [(backup_file r id "backup_manifest", None); (tmp_of (backup_file r id "backup_manifest.tmp"), None);
         (tmp_of (backup_file r id "Storage-Metadata.json"), None)] s.

Lemma publish_files_triple opts r id man sc side :
  New opts = Ok r -> root r <> "/" -> own_id id -> MarshalSidecar sc = Ok side ->
  let f := backup_file r id "backup_manifest" in let q := backup_file r id "Storage-Metadata.json" in
  triple (all_or_nothing f q man side) (fun s _ => unpublished_dir r id s) (publish_files (H:=posix_backend r) id man sc) (fun _ s _ => published f q man side s).
Proof.
  intros Hnew Hroot Hid Hm f q. set (t := backup_file r id "backup_manifest.tmp").
  assert (Habs : forall n, valid_key n = true -> abs r (path_Join [id; n]) = Ok (backup_file r id n)) by (intros; by eapply backup_file_abs).
  assert (Hinj : forall a b, a <> b -> backup_file r id a <> backup_file r id b) by (intros a b Hab E; by apply backup_file_inj in E).
  pose proof (root_slash opts r Hnew) as Hslash. unfold publish_files.
  eapply triple_bind.
  { eapply triple_wrapping, triple_conseq.
    - apply (writeStorageFileAtomic_beside r _ t [(f, None); (tmp_of q, None)] (all_or_nothing f q man side) Hslash (Habs "backup_manifest.tmp" eq_refl)).
      + repeat constructor; cbn; unfold f, q, t; rewrite ?tmp_backup_file; by apply Hinj.
      + repeat constructor; cbn; unfold f, q, t; rewrite ?tmp_backup_file; by apply Hinj.
      + intros s. apply absent_safe. by left.
    - intros s ws Hs. split; [eapply keeps_weaken; [|exact Hs]; unfold f, q; clear; set_solver|]. eapply keeps_fixed; [exact Hs|]. by right; left.
    - intros a s ws Hs. exact Hs. }
  intros []. rewrite Hm. cbn [map_error]. unfold of_result. change (fun w : machine => (Ok side, w)) with (ret (W:=machine) side). rewrite bind_ret_l.
  eapply triple_bind.
  { eapply triple_wrapping, triple_conseq.
    - apply (writeStorageFileAtomic_beside r _ q [(t, Some man); (f, None)] (all_or_nothing f q man side) Hslash (Habs "Storage-Metadata.json" eq_refl)).
      + repeat constructor; cbn; unfold f, q, t; by apply Hinj.
      + repeat constructor; cbn; unfold f, q, t; rewrite ?tmp_backup_file; by apply Hinj.
      + intros s. apply absent_safe. by right; left.
    - intros s ws Hs. split; [eapply keeps_weaken; [|exact Hs]; clear; set_solver|]. eapply keeps_fixed; [exact Hs|]. by right; right; left.
    - intros a s ws Hs. exact Hs. }
  intros []. apply triple_wrapping, (Commit_publishes r f t q man side); [by apply Hinj..| |by apply Habs|by apply Habs].
  by apply backup_file_sibling.
Qed.

(** C10: publishing a backup that has not been published yet ([unpublished_dir]), on a POSIX storage whose root is
    not /, is atomic: whatever calls fail, those that leave a torn file included, and
    whenever the machine stops, a crash finds no [backup_manifest] or the whole one, and with it the whole
    sidecar; and once the publication has returned nil, every crash that leaves the directory of the backup
    leaves both. *)
Theorem publish_files_crash_atomic opts r id man sc side w res w' :
  New opts = Ok r -> root r <> "/" -> own_id id -> MarshalSidecar sc = Ok side -> unpublished_dir r id (m_fs w) ->
  publish_files (H:=posix_backend r) id man sc w = (res, w') ->
  let found s cnt junk n := crash_content s cnt junk (backup_file r id n) in
  (exists tr, m_trace w' = m_trace w ++ tr /\ forall s cnt junk, s ∈ tr -> crash_ok cnt s ->
    found s cnt junk "backup_manifest" = None \/
    (found s cnt junk "backup_manifest" = Some man /\ found s cnt junk "Storage-Metadata.json" = Some side)) /\
  (res = Ok tt -> forall cnt junk, crash_ok cnt (m_fs w') -> visible (crash_ns (m_fs w') cnt) (backup_file r id "backup_manifest") ->
    found (m_fs w') cnt junk "backup_manifest" = Some man /\ found (m_fs w') cnt junk "Storage-Metadata.json" = Some side).
Proof.
  intros Hnew Hroot Hid Hm Hs Hrun found.
  destruct (publish_files_triple opts r id man sc side Hnew Hroot Hid Hm w res w' Hs Hrun) as [(tr & Htr & Hsafe) Hp]. split.
  - exists tr. split; [done|]. intros s cnt junk Hin. rewrite Forall_forall in Hsafe. by apply Hsafe.
  - intros -> cnt junk Hok Hv. unfold found.
    rewrite (fixed_content _ _ _ _ _ (keeps_fixed _ _ _ _ Hp ltac:(by right; left)) Hok), (fixed_content _ _ _ _ _ (keeps_fixed _ _ _ _ Hp ltac:(by left)) Hok).
    rewrite decide_True by done. split; [done|]. rewrite decide_True; [done|]. unfold visible in *. by rewrite (backup_file_sibling r id _ "backup_manifest").
Qed.

(** ** A small publication *)

Definition small_sidecar : Sidecar :=
  {| sc_Version := SidecarVersion; sc_Server := "main"; sc_EncryptionRecipients := []; sc_Compression := "none"; sc_StorageLayoutVersion := 1;
     sc_WALSegments := []; sc_SystemIdentifier := 7; sc_Directories := []; sc_Type := ""; sc_ParentBackupID := ""; sc_Annotation := ""; sc_LockHeld := false |}.

Definition small_text : string := match MarshalSidecar small_sidecar with Ok x => x | Fail _ => "" end.

Definition small_id : string := "20260401T100000F".

Lemma small_unpublished : unpublished_dir sample_driver small_id sample_fs.
Proof.
  split; [exact sample_wf|]. split.
  - intros cnt p i _. change (ns_files (crash_ns sample_fs cnt)) with ({["/r/a" := 0%nat; "/r/b" := 1%nat]} : gmap string nat). cbn [sample_fs fs_next].
    intros [[_ <-]|[_ [_ <-]%lookup_singleton_Some]]%lookup_insert_Some; lia.
  - repeat constructor; intros cnt _; by vm_compute.
Qed.

(** A crash that loses nothing of the directory finds both files. *)
Lemma publish_files_crash_atomic_witness :
  let run := publish_files (H:=posix_backend sample_driver) small_id "the manifest" small_sidecar (sample_machine []) in
  fst run = Ok tt /\ forall junk, crash_content (m_fs (snd run)) (fun _ => 100%nat) junk (backup_file sample_driver small_id "backup_manifest") = Some "the manifest" /\
    crash_content (m_fs (snd run)) (fun _ => 100%nat) junk (backup_file sample_driver small_id "Storage-Metadata.json") = Some small_text.
Proof.
  cbv zeta. assert (Hok : fst (publish_files (H:=posix_backend sample_driver) small_id "the manifest" small_sidecar (sample_machine [])) = Ok tt) by (vm_compute; reflexivity).
  split; [exact Hok|]. intros junk. destruct (publish_files (H:=posix_backend sample_driver) small_id "the manifest" small_sidecar (sample_machine [])) as [res w'] eqn:E.
  cbn [fst] in Hok. subst res. cbn [snd].
  destruct (publish_files_crash_atomic {| opt_Root := "/r"; opt_Fault := None |} sample_driver small_id "the manifest" small_sidecar small_text (sample_machine []) (Ok tt) w'
    eq_refl ltac:(discriminate) ltac:(split_and!; [reflexivity..|discriminate]) eq_refl small_unpublished E) as [_ H].
  assert (Ew : w' = snd (publish_files (H:=posix_backend sample_driver) small_id "the manifest" small_sidecar (sample_machine []))) by by rewrite E.
  apply (H eq_refl (fun _ => 100%nat) junk).
  - subst w'. clear. intros d.
    assert (Hf : map_Forall (fun _ n => (n <= 100)%nat) (fs_flushed (m_fs (snd (publish_files (H:=posix_backend sample_driver) small_id "the manifest" small_sidecar (sample_machine []))))))
      by (apply (bool_decide_unpack _); vm_compute; exact I).
    destruct (fs_flushed _ !! d) as [n|] eqn:En; [exact (Hf d n En)|cbn; lia].
  - subst w'. apply (bool_decide_unpack _). vm_compute. exact I.
Defined.
