(* ===== verification/MultiBackup.v ===== *)
(** * Backups into several storages

    The path of [runSimple] for several storages (internal/backup/backup.go): every file goes through one
    chain into a tee, whose goroutines write to the storages that are still alive. How the goroutines and
    the caller interleave is a parameter, the schedule. *)

From S2P Require Import Prelude Lsn Storage Host Time Json Manifest Archive Filter Bracket Resume Backup Multi.

(** ** A tee over open writers *)

Section tee_writer.
Context {W : Type}.

(** One step of the caller or of a goroutine. *)
Inductive move := MCaller (pick : bool) | MGoroutine (i : nat).

(** A writer of one of the storages. *)
Record sink := Sink { sk_backend : Backend W; sk_writer : @be_Writer W sk_backend }.

(** [TeeWriter]: the tee and the sinks its goroutines hold. *)
Record teeWriter := TeeWriter { tw_sinks : list sink; tw_tee : tee }.

Definition workers_of (tw : teeWriter) : list backend := t_workers (tw_tee tw).

(** [multi.New] over open writers *)
Definition tee_New (sinks : list sink) : teeWriter := TeeWriter sinks (New (map (fun _ => true) sinks) []).

(** What a goroutine asks of its sink next. *)
Definition sink_call (s : sink) (k : backend) : M W (option error) :=
  r <- try (match k_queue k with
            | chunk :: _ => if k_fail k then ret tt else @be_Write _ (sk_backend s) (sk_writer s) chunk
            | [] => @be_Close _ (sk_backend s) (sk_writer s)
            end) ;;
  ret (match r with Ok _ => None | Fail err => Some err end).

(** The goroutine need not wait for its channel. *)
Definition awake (k : backend) : bool :=
  k_running k && (match k_queue k with [] => false | _ => true end || negb (k_open k)).

(** The step [m], where it can be taken. *)
Definition move_step (m : move) (tw : teeWriter) : M W (option teeWriter) :=
  match m with
  | MCaller pick => ret (TeeWriter (tw_sinks tw) <$> exec (Caller pick) (tw_tee tw))
  | MGoroutine i =>
      match tw_sinks tw !! i, workers_of tw !! i with
      | Some s, Some k =>
          if awake k then o <- sink_call s k ;; ret (TeeWriter (tw_sinks tw) <$> exec (Goroutine i o) (tw_tee tw))
          else ret None
      | _, _ => ret None
      end
  end.

Fixpoint first_move (l : list move) (tw : teeWriter) : M W (option teeWriter) :=
  match l with
  | [] => ret None
  | m :: l =>
      r <- move_step m tw ;;
      match r with Some tw => ret (Some tw) | None => first_move l tw end
  end.

Definition all_moves (tw : teeWriter) : list move :=
  MCaller false :: MCaller true :: map MGoroutine (seq 0 (length (workers_of tw))).

Definition deadlock : error := errors_New "all goroutines are asleep - deadlock!".

(** Steps until the caller is where [stop] says: the ones the schedule names, and others where those wait. *)
Fixpoint run_tee (sched : tee -> move) (stop : pc -> bool) (fuel : nat) (tw : teeWriter) : M W teeWriter :=
  if stop (t_pc (tw_tee tw)) then ret tw
  else match fuel with
       | O => throw out_of_fuel
       | S fuel =>
           r <- first_move (sched (tw_tee tw) :: all_moves tw) tw ;;
           match r with Some tw => run_tee sched stop fuel tw | None => throw deadlock end
       end.

Definition is_idle (p : pc) : bool := match p with Idle => true | _ => false end.
Definition is_returned (p : pc) : bool := match p with Returned _ => true | _ => false end.

(** The caller enters a call. *)
Definition enter (p : pc) (tw : teeWriter) : teeWriter := TeeWriter (tw_sinks tw) (at_pc p (tw_tee tw)).

(** No run takes more steps than the measure of its state. *)
Definition drive_tee (sched : tee -> move) (stop : pc -> bool) (tw : teeWriter) : M W teeWriter :=
  run_tee sched stop (S (measure (tw_tee tw))) tw.

(** [TeeWriter.Write] *)
Definition tee_Write (sched : tee -> move) (p : string) (tw : teeWriter) : M W (result unit * teeWriter) :=
  tw' <- drive_tee sched is_idle (enter (Check p 0 0) tw) ;;
  ret (if (length (t_written (tw_tee tw')) =? length (t_written (tw_tee tw)))%nat then Fail all_failed else Ok tt, tw').

(** [TeeWriter.Close] *)
Definition tee_Close (sched : tee -> move) (tw : teeWriter) : M W (result unit * teeWriter) :=
  tw' <- drive_tee sched is_returned (enter (CloseChan 0) tw) ;;
  ret (match t_pc (tw_tee tw') with Returned (Some err) => Fail err | _ => Ok tt end, tw').

(** *** The tee as the writer of a chain *)

Definition on_tee {A} (f : teeWriter -> M W (result A * teeWriter)) : M (W * teeWriter) A := fun '(w, tw) =>
  match f tw w with
  | (Ok (r, tw), w) => (r, (w, tw))
  | (Fail err, w) => (Fail err, (w, tw))
  end.

Definition not_a_writer : error := errors_New "not an operation of io.WriteCloser".

Definition tee_backend (sched : tee -> move) : Backend (W * teeWriter) := {|
  be_Writer := unit;
  be_Put _ := throw not_a_writer;
  be_Write _ p := on_tee (tee_Write sched p);
  be_Close _ := on_tee (tee_Close sched);
  be_Commit _ _ := throw not_a_writer;
  be_Get _ := throw not_a_writer;
  be_Stat _ := throw not_a_writer;
  be_List _ := throw not_a_writer;
  be_Delete _ := throw not_a_writer;
|}.

(** Runs [m] with the tee, and hands the tee back. *)
Definition through {A} (tw : teeWriter) (m : M (W * teeWriter) A) : M W (result A * teeWriter) := fun w =>
  let '(r, (w, tw)) := m (w, tw) in (Ok (r, tw), w).
End tee_writer.

(** ** The run *)

Section multi_backup.
Context {W : Type} `{Backend W, Host W, Disk W, Clock W, Pg W, BaseBackup W, FilterLibs}.
Context (Now : W -> time) (sched : string -> tee -> move).

(** The loop of [multiState.putMulti]: the flags, the writers and whose they are. *)
Fixpoint put_alive (i : nat) (backends : list (Backend W)) (dead : list bool) (relPath : string)
  : M W (list bool * list sink * list nat) :=
  match backends, dead with
  | b :: backends, true :: dead =>
      d <- put_alive (S i) backends dead relPath ;;
      let '(dead, sinks, idx) := d in ret (true :: dead, sinks, idx)
  | b :: backends, false :: dead =>
      r <- try (@be_Put W b relPath) ;;
      d <- put_alive (S i) backends dead relPath ;;
      let '(dead, sinks, idx) := d in
      ret (match r with
           | Fail _ => (true :: dead, sinks, idx)
           | Ok wc => (false :: dead, Sink b wc :: sinks, i :: idx)
           end)
  | _, _ => ret ([], [], [])
  end.

(** [multiState.putMulti] *)
Definition putMulti (ms : multiState) (relPath : string) : M W (multiState * teeWriter * list nat) :=
  d <- put_alive 0 (ms_backends ms) (ms_dead ms) relPath ;;
  let '(dead, sinks, idx) := d in
  if (length sinks =? 0)%nat then throw (errors_New "backup: all backends dead")
  else ret ({| ms_backends := ms_backends ms; ms_dead := dead |}, tee_New sinks, idx).

(** One file of the stream into the storages that are alive. *)
Definition store_multi (chain : Chain) (ms : multiState) (repoPath : string) (e : tar_entry) : M W (FilterResult * multiState) :=
  d <- wrapping "backup: multi Put" (putMulti ms repoPath) ;;
  let '(ms, tw, sinkIdx) := d in
  d <- through tw (@pipe_entry _ (tee_backend (sched repoPath)) _ chain e tt) ;;
  let '(r, tw) := d in
  res <- of_result r ;;
  ret (res, merge (Results (tw_tee tw)) sinkIdx ms).

(** [writeMultiFileAtomic] *)
Definition writeMultiFileAtomic (ms : multiState) (relPath data : string) : M W multiState :=
  d <- putMulti ms relPath ;;
  let '(ms, tw, sinkIdx) := d in
  d <- tee_Write (sched relPath) data tw ;;
  let '(r, tw) := d in
  match r with
  | Fail err => tee_Close (sched relPath) tw ;;; throw err
  | Ok _ =>
      d <- tee_Close (sched relPath) tw ;;
      let '(r, tw) := d in
      of_result r ;;;
      ret (merge (Results (tw_tee tw)) sinkIdx ms)
  end.

Definition upload_multi (opts : BackupOptions) (backupID : string) (p : progress) (ms : multiState) (e : tar_entry)
  : M W (progress * multiState) :=
  d <- store_multi (bo_Filter opts) ms (path_Join [backupID; te_Name e]) e ;;
  p <- record_upload Now p e (fst d) ;;
  ret (p, snd d).

(** One round of the loop; only an entry that is stored touches the storages. *)
Definition take_multi (opts : BackupOptions) (backupID : string) (plan : option reusablePlan) (d : progress * multiState) (e : tar_entry)
  : M W (progress * multiState) :=
  let '(p, ms) := d in
  let name := te_Name e in
  let regular := negb (Ascii.eqb (te_Typeflag e) TypeDir) && (Ascii.eqb (te_Typeflag e) "000" || Ascii.eqb (te_Typeflag e) "0") in
  let refused := Contains name ".." || HasPrefix name "/" in
  let reused := match plan ≫= fun plan => plan !! name with Some _ => true | None => false end in
  let captured := String.eqb name "backup_manifest" && String.eqb (bo_Type opts) TypeIncremental in
  if regular && negb refused && negb reused && negb captured then upload_multi opts backupID p ms e
  else p <- take_entry Now opts backupID plan p e ;; ret (p, ms).

(** The manifest, the sidecar and the commit on every storage that is alive; the number of those that failed. *)
Definition publish_multi (opts : BackupOptions) (ms : multiState) (backupID : string) (sysID : Z) (p : progress) (stopLSN : LSN)
    (walRecords : list WALSegmentRecord) : M W Z :=
  now <- read Now ;;
  let tmp := path_Join [backupID; "backup_manifest.tmp"] in
  ms <- wrapping "backup: write manifest (multi)" (writeMultiFileAtomic ms tmp (manifest_bytes p stopLSN now)) ;;
  scBytes <- of_result (map_error (Errorf_w "backup: marshal sidecar") (MarshalSidecar (backup_sidecar opts sysID p walRecords))) ;;
  ms <- wrapping "backup: write sidecar (multi)" (writeMultiFileAtomic ms (path_Join [backupID; "Storage-Metadata.json"]) scBytes) ;;
  d <- commitMulti ms tmp (path_Join [backupID; "backup_manifest"]) ;;
  let '(ms, succeeded, commitErr) := d in
  if succeeded =? 0
  then throw (match commitErr with
              | Some err => Errorf_w "backup: commit manifest (all backends)" err
              | None => errors_New "backup: commit manifest (all backends)"
              end)
  else ret (failedCount ms).

(** [stream_backup] with several storages; [PartialStorages] beside the result. *)
Definition stream_multi (opts : BackupOptions) (backends : list (Backend W)) (id : ClusterIdentity) (startedAt : time)
    (backupID parentManifestPath : string) (plan : option reusablePlan) : M W (BackupResult * Z) :=
  let walMethod := if String.eqb (bo_WALSource opts) WALSourceStream then "fetch" else "" in
  stream <- wrapping "backup: open BASE_BACKUP" (bb_Start parentManifestPath walMethod) ;;
  r <- try (
    let mb := NewBuilder {| bs_SystemIdentifier := id_SystemIdentifier id; bs_Timeline := id_Timeline id;
                            bs_StartLSN := id_CheckpointLSN id; bs_StartTime := UTC startedAt |} in
    let rc := newResumeCheckpointer (resume_of opts) backupID startedAt (id_SystemIdentifier id) (id_Timeline id) (id_CheckpointLSN id) in
    d <- forM (fst stream) (Progress 0 0 (id_CheckpointLSN id) (id_Timeline id) false [] None mb rc, newMultiState backends)
           (take_multi opts backupID plan) ;;
    let '(p, ms) := d in
    match snd stream with Some err => throw (Errorf_w "backup: tar.Next" err) | None => ret tt end ;;;
    wrapping "backup: pg_basebackup" bb_Close ;;;
    if negb (l_labelSeen p) then throw (errors_New "backup: backup_label not present in tar")
    else
      b <- take_bracket opts (id_WALSegmentSize id) p ;;
      partial <- publish_multi opts ms backupID (id_SystemIdentifier id) p (fst b) (snd b) ;;
      ret ({| br_BackupID := backupID; br_StartLSN := l_startLSN p; br_StopLSN := fst b; br_Timeline := l_timeline p;
              br_Files := l_fileCount p; br_Bytes := l_bytesTotal p |}, partial)) ;;
  try bb_Close ;;;
  of_result r.

(** [runSimple] with the storages of [opts.Backends], of which the first is the storage of the other classes. *)
Definition runSimple_multi (opts : BackupOptions) (backends : list (Backend W)) : M W (BackupResult * Z) :=
  startedAt <- read Now ;;
  d <- prepare_backup Now opts startedAt ;;
  let '(id, backupID, plan) := d in
  if String.eqb (bo_Type opts) TypeIncremental then
    if String.eqb (bo_ParentBackupID opts) "" then throw (errors_New "backup: incremental requires ParentBackupID")
    else
      path <- wrapping "backup: stage parent manifest"
                (stageParentManifest (bo_TempDir opts) (bo_ParentBackupID opts) (bo_ScratchDir opts)) ;;
      let backupID := bo_ParentBackupID opts +:+ "_" +:+ FormatCompact (UTC startedAt) +:+ "I" in
      r <- try (stream_multi opts backends id startedAt backupID path plan) ;;
      try (os_Remove path) ;;;
      of_result r
  else stream_multi opts backends id startedAt backupID "" plan.

Definition with_none (r : BackupResult) : BackupResult * Z := (r, 0).

(** [runSimple] *)
Definition runSimple_all (opts : BackupOptions) (backends : list (Backend W)) : M W (BackupResult * Z) :=
  if (1 <? length backends)%nat then runSimple_multi opts backends
  else r <- runSimple Now opts ;; ret (with_none r).
End multi_backup.
