(* ===== verification/MultiTee.v ===== *)
(** * The tee over real storages

    What [TeeWriter] does to the storages behind it, whatever the schedule: every call of the caller
    returns, a storage without an error has taken all that was written, in order, under the one name, and no storage
    changes under another name. *)

From S2P Require Import Prelude Storage Filter Backup Multi MultiBackup.

(** ** Several storages *)

(** What one storage shows and holds open. *)
Definition untouched {W} `{BackendLaws W} : relation W := fun w w' => view w' = view w /\ forall h, pending w' h = pending w h.

#[export] Instance untouched_preorder {W} `{BackendLaws W} : PreOrder untouched.
Proof. split; [by intros w|]. intros w1 w2 w3 [Hv Hp] [Hv' Hp']. split; [congruence|]. intros h. by rewrite Hp', Hp. Qed.

(** No operation of a storage is seen in another one. *)
Record apart {W} (b b' : Backend W) `{!@BackendLaws W b'} : Prop := {
  apart_put p : preserves (untouched (W:=W)) (@be_Put W b p);
  apart_write h p : preserves (untouched (W:=W)) (@be_Write W b h p);
  apart_close h : preserves (untouched (W:=W)) (@be_Close W b h);
  apart_commit tmp final : preserves (untouched (W:=W)) (@be_Commit W b tmp final);
  apart_get p : preserves (untouched (W:=W)) (@be_Get W b p);
  apart_stat p : preserves (untouched (W:=W)) (@be_Stat W b p);
  apart_list p : preserves (untouched (W:=W)) (@be_List W b p);
  apart_delete p : preserves (untouched (W:=W)) (@be_Delete W b p);
}.

(** ** The caller leaves the goroutines' results alone *)

Definition same_result (k k' : backend) : Prop :=
  k_running k' = k_running k /\ k_fail k' = k_fail k /\ k_err k' = k_err k /\ k_sunk k' = k_sunk k.

Lemma same_result_refl ks : Forall2 same_result ks ks.
Proof. induction ks as [|k ks IH]; constructor; [by split_and!|done]. Qed.

Lemma same_result_insert ks i k k' : ks !! i = Some k -> same_result k k' -> Forall2 same_result ks (<[i := k']> ks).
Proof.
  intros Hi Hs. apply Forall2_lookup. intros n. destruct (decide (n = i)) as [->|Hne].
  - rewrite Hi, list_lookup_insert_eq by by eapply lookup_lt_Some. by constructor.
  - rewrite list_lookup_insert_ne by done. destruct (ks !! n); constructor. by split_and!.
Qed.

Lemma main_step_results pick t t' : main_step pick t = Some t' -> Forall2 same_result (t_workers t) (t_workers t').
Proof.
  unfold main_step. destruct (t_pc t) as [|c i l|c i l|i| |r]; intros Hs; repeat case_match; try discriminate Hs; injection Hs as <-; cbn [t_workers at_pc with_worker];
    first [apply same_result_refl|eapply same_result_insert; [eassumption|by split_and!]].
Qed.

Lemma exec_length a t t' : exec a t = Some t' -> length (t_workers t') = length (t_workers t).
Proof.
  destruct a as [pick|i o]; cbn [exec].
  - intros Hs%main_step_results. symmetry. by eapply Forall2_length.
  - destruct (t_workers t !! i) as [k|]; [|done]. cbn. destruct (worker_step o k); [|done]. cbn. intros [= <-]. cbn. by rewrite length_insert.
Qed.

(** A goroutine that can go on is awake, and can go on whatever its sink answers. *)
Lemma awake_step o k : awake k = true -> exists k', worker_step o k = Some k'.
Proof.
  unfold awake, worker_step. intros [-> Hq]%andb_true_iff. cbn [negb].
  destruct (k_queue k); [cbn in Hq; apply negb_true_iff in Hq; rewrite Hq|]; destruct (k_fail k), o; by eexists.
Qed.

Lemma step_awake o k k' : worker_step o k = Some k' -> awake k = true.
Proof. unfold worker_step, awake. destruct (k_running k); [|done]. cbn. destruct (k_queue k); [|done]. by destruct (k_open k). Qed.

(** ** The caller in a call *)

(** What the caller has written, during a call and after it. *)
Definition in_Write (c : string) (before : list string) (t : tee) : Prop :=
  t_todo t = [] /\
  match t_pc t with
  | Check c' _ _ | Send c' _ _ => c' = c /\ t_written t = before
  | Idle => t_written t = before \/ t_written t = before ++ [c]
  | _ => False
  end.

Lemma in_Write_step c before a t t' : in_Write c before t -> is_idle (t_pc t) = false -> exec a t = Some t' -> in_Write c before t'.
Proof.
  intros [Ht Hp] Hi. destruct a as [pick|i o]; cbn [exec].
  - unfold main_step, in_Write. destruct (t_pc t) as [|c' i l|c' i l|i| |r]; try done; destruct Hp as [-> Hw]; intros Hs;
      repeat match type of Hs with context [match ?x with _ => _ end] => destruct x end; try discriminate Hs; injection Hs as <-; cbn; rewrite ?Hw; auto.
  - destruct (t_workers t !! i) as [k|]; [|done]. cbn. destruct (worker_step o k); [|done]. cbn. by intros [= <-].
Qed.

Definition in_Close (before : list string) (t : tee) : Prop :=
  t_written t = before /\ match t_pc t with CloseChan _ | Wait | Returned _ => True | _ => False end.

Lemma in_Close_step before a t t' : in_Close before t -> is_returned (t_pc t) = false -> exec a t = Some t' -> in_Close before t'.
Proof.
  intros [Ht Hp] Hi. destruct a as [pick|i o]; cbn [exec].
  - unfold main_step, in_Close. destruct (t_pc t) as [|c' i l|c' i l|i| |r]; try done; intros Hs;
      repeat match type of Hs with context [match ?x with _ => _ end] => destruct x end; try discriminate Hs; by injection Hs as <-.
  - destruct (t_workers t !! i) as [k|]; [|done]. cbn. destruct (worker_step o k); [|done]. cbn. by intros [= <-].
Qed.

Section steps.
Context {W : Type}.

Lemma move_step_exec m (tw : @teeWriter W) w tw' w' : move_step m tw w = (Ok (Some tw'), w') -> exists a, exec a (tw_tee tw) = Some (tw_tee tw').
Proof.
  destruct m as [pick|n]; cbn [move_step].
  - destruct (exec (Caller pick) (tw_tee tw)) as [t'|] eqn:E; intros [= <- <-]. by exists (Caller pick).
  - destruct (tw_sinks tw !! n) as [s|]; [|done]. destruct (workers_of tw !! n) as [k|]; [|done]. destruct (awake k); [|done]. unfold bind.
    destruct (sink_call s k w) as [[o|e] w1]; [|done]. destruct (exec (Goroutine n o) (tw_tee tw)) as [t'|] eqn:E; intros [= <- <-]. by exists (Goroutine n o).
Qed.

Lemma first_move_exec l (tw : @teeWriter W) w tw' w' : first_move l tw w = (Ok (Some tw'), w') -> exists a, exec a (tw_tee tw) = Some (tw_tee tw').
Proof.
  revert w. induction l as [|m l IH]; intros w; cbn [first_move]; [done|]. unfold bind. destruct (move_step m tw w) as [[[x|]|e] w1] eqn:E; [|apply IH|done].
  intros [= <- <-]. by eapply move_step_exec.
Qed.

Lemma run_tee_keeps (I : tee -> Prop) sched stop fuel (tw : @teeWriter W) w tw' w' :
  (forall a t t', I t -> stop (t_pc t) = false -> exec a t = Some t' -> I t') -> I (tw_tee tw) ->
  run_tee sched stop fuel tw w = (Ok tw', w') -> I (tw_tee tw') /\ stop (t_pc (tw_tee tw')) = true.
Proof.
  intros HI. revert tw w. induction fuel as [|fuel IH]; intros tw w Hi; cbn [run_tee]; (destruct (stop (t_pc (tw_tee tw))) eqn:Es; [by intros [= <- <-]|]); [done|].
  unfold bind. destruct (first_move _ tw w) as [[[x|]|e] w1] eqn:E; [|done..]. apply first_move_exec in E as [a Ha]. apply IH. by eapply HI.
Qed.

(** *** The tee as one storage

    It shows the file under [key] when [Close] has returned well; what it holds is what was written. *)
Context (key : string).

Definition tee_view (s : W * @teeWriter W) : gmap string string :=
  match t_pc (tw_tee (snd s)) with Returned None => {[key := Join (t_written (tw_tee (snd s))) ""]} | _ => ∅ end.

Definition tee_pending (s : W * @teeWriter W) (h : unit) : option (string * string) :=
  match t_pc (tw_tee (snd s)), t_todo (tw_tee (snd s)) with Idle, [] => Some (key, Join (t_written (tw_tee (snd s))) "") | _, _ => None end.

Lemma tee_pending_Some s h p c : tee_pending s h = Some (p, c) ->
  t_pc (tw_tee (snd s)) = Idle /\ t_todo (tw_tee (snd s)) = [] /\ p = key /\ c = Join (t_written (tw_tee (snd s))) "".
Proof. unfold tee_pending. destruct (t_pc _), (t_todo _); try done. by intros [= <- <-]. Qed.

Lemma tee_Write_ghost sched p (tw : @teeWriter W) w : t_pc (tw_tee tw) = Idle -> t_todo (tw_tee tw) = [] ->
  match tee_Write sched p tw w with
  | (Ok (r, tw'), _) => t_pc (tw_tee tw') = Idle /\ t_todo (tw_tee tw') = [] /\ t_written (tw_tee tw') = if isOk r then t_written (tw_tee tw) ++ [p] else t_written (tw_tee tw)
  | (Fail _, _) => True
  end.
Proof.
  intros Hpc Htodo. unfold tee_Write, drive_tee, bind. destruct (run_tee sched is_idle _ _ w) as [[tw'|e] w'] eqn:E; [|done].
  apply (run_tee_keeps (in_Write p (t_written (tw_tee tw)))) in E as [[Htd Hi] Hs]; [|intros a t t'; apply in_Write_step|by split].
  cbn [ret]. assert (Hidle : t_pc (tw_tee tw') = Idle) by by destruct (t_pc (tw_tee tw')). rewrite Hidle in Hi. split; [done|]. split; [done|].
  destruct Hi as [-> | ->]; [by rewrite Nat.eqb_refl|]. rewrite length_app. cbn [length].
  by replace (length (t_written (tw_tee tw)) + 1 =? length (t_written (tw_tee tw)))%nat with false by (symmetry; apply Nat.eqb_neq; lia).
Qed.

Lemma tee_Close_ghost sched (tw : @teeWriter W) w : t_pc (tw_tee tw) = Idle ->
  match tee_Close sched tw w with
  | (Ok (r, tw'), _) => t_written (tw_tee tw') = t_written (tw_tee tw) /\ (r = Ok tt -> t_pc (tw_tee tw') = Returned None)
  | (Fail _, _) => True
  end.
Proof.
  intros Hpc. unfold tee_Close, drive_tee, bind. destruct (run_tee sched is_returned _ _ w) as [[tw'|e] w'] eqn:E; [|done].
  apply (run_tee_keeps (in_Close (t_written (tw_tee tw)))) in E as [[Hw Hi] Hs]; [|intros a t t'; apply in_Close_step|by split].
  cbn [ret]. split; [done|]. destruct (t_pc (tw_tee tw')) as [| | | | |[err|]]; done.
Qed.

#[program] Definition tee_laws (sched : tee -> move) : @BackendLaws (W * @teeWriter W) (tee_backend sched) := {|
  view := tee_view;
  pending := tee_pending;
|}.
Next Obligation. done. Qed.
Next Obligation.
  intros sched h p [w tw] q c (Hpc & Htodo & -> & ->)%tee_pending_Some. cbn [snd] in *. cbn [be_Write tee_backend on_tee].
  pose proof (tee_Write_ghost sched p tw w Hpc Htodo) as Hg. destruct (tee_Write sched p tw w) as [[[r tw']|e] w']; cbn [snd].
  - destruct Hg as (Hpc' & Htodo' & Hw). unfold tee_view, tee_pending. cbn [snd]. rewrite Hpc, Hpc', Htodo'. split; [done|].
    eexists. split; [done|]. intros w2 [= -> _]. cbn in Hw. by rewrite Hw, Join_snoc.
  - unfold tee_view, tee_pending. cbn [snd]. rewrite Hpc, Htodo. split; [done|]. by eexists.
Qed.
Next Obligation.
  intros sched h [w tw] q c (Hpc & Htodo & -> & ->)%tee_pending_Some. cbn [snd] in *. cbn [be_Close tee_backend on_tee].
  pose proof (tee_Close_ghost sched tw w Hpc) as Hg. destruct (tee_Close sched tw w) as [[[r tw']|e] w']; cbn [snd]; unfold tee_view; cbn [snd]; rewrite Hpc; [|done].
  destruct Hg as [Hw Hr]. split.
  - intros q Hq. destruct (t_pc (tw_tee tw')) as [| | | | |[err|]]; try done. by rewrite lookup_singleton_ne.
  - intros w2 [= -> <-]. cbn [snd]. by rewrite Hr, Hw.
Qed.
Solve All Obligations with (intros; unfold be_Commit, be_Get, be_Stat, be_List, be_Delete, tee_backend, throw in *; cbn [snd] in *;
  split_and?; intros; simplify_eq; first [done|by left|by split_and!; intros; simplify_eq; auto]).
End steps.

(** ** The storages behind a tee *)

Section tee.
Context {W : Type} (st : nat -> Backend W) (laws : forall i, @BackendLaws W (st i)).
Hypothesis Hapart : forall i j, i <> j -> @apart W (st i) (st j) (laws j).

#[local] Instance the_storage i : Backend W := st i.
#[local] Instance the_laws i : @BackendLaws W (st i) := laws i.

Abbreviation view_at i := (@view W (st i) (laws i)).
Abbreviation pending_at i := (@pending W (st i) (laws i)).
Abbreviation same_at i := (@same_outside W (st i) (laws i)).
Abbreviation quiet_at i := (@untouched W (st i) (laws i)).

Context (key : string) (v0 : nat -> gmap string string).

(** A storage whose goroutine is in the state [k]: what it took is pending, or stored when it was closed. *)
Definition slot_ok (i : nat) (h : @be_Writer W (st i)) (k : backend) (w : W) : Prop :=
  (forall q, q <> key -> view_at i w !! q = v0 i !! q) /\
  if k_running k then view_at i w = v0 i /\ exists c, pending_at i w h = Some (key, c) /\ (k_fail k = false -> c = Join (k_sunk k) "")
  else k_err k = None -> view_at i w = <[key := Join (k_sunk k) ""]> (v0 i).

Definition a_slot (i : nat) (s : sink) (k : backend) (w : W) : Prop := exists h, s = Sink (st i) h /\ slot_ok i h k w.

(** Every goroutine writes to a storage of its own, and the storages without one are as they were. *)
Record slots (idx : list nat) (tw : teeWriter) (w : W) : Prop := {
  sl_once : NoDup idx;
  sl_sinks : length (tw_sinks tw) = length idx;
  sl_workers : length (workers_of tw) = length idx;
  sl_slot n i s k : idx !! n = Some i -> tw_sinks tw !! n = Some s -> workers_of tw !! n = Some k -> a_slot i s k w;
  sl_rest j : j ∉ idx -> view_at j w = v0 j;
}.

Lemma a_slot_untouched i s k w w' : quiet_at i w w' -> a_slot i s k w -> a_slot i s k w'.
Proof.
  intros [Hv Hp] (h & -> & Hout & Hk). exists h. split; [done|]. unfold slot_ok. rewrite Hv, Hp. by destruct (k_running k).
Qed.

Lemma a_slot_result i s k k' w : same_result k k' -> a_slot i s k w -> a_slot i s k' w.
Proof. intros (Er & Ef & Ee & Es) (h & -> & Hs). exists h. split; [done|]. unfold slot_ok in *. by rewrite Er, Ef, Ee, Es. Qed.

Lemma sink_call_total s k (w : W) : exists o w', sink_call s k w = (Ok o, w').
Proof. unfold sink_call, bind, try. match goal with |- context [match ?m w with _ => _ end] => destruct (m w) as [r w1] end. by eexists _, w1. Qed.

(** One call of a goroutine. *)
Lemma sink_call_slot i s k w : a_slot i s k w -> awake k = true -> (k_fail k = true -> k_err k <> None) ->
  exists o w', sink_call s k w = (Ok o, w') /\ (forall j, j <> i -> quiet_at j w w') /\
    forall k', worker_step o k = Some k' -> a_slot i s k' w'.
Proof.
  intros (h & -> & Hout & Hk) Hawake Hfail. unfold awake in Hawake. apply andb_true_iff in Hawake as [Hr Hq]. rewrite Hr in Hk.
  destruct Hk as (Hv & c & Hp & Hc). unfold sink_call, worker_step. cbn [sk_backend sk_writer]. rewrite Hr. cbn [negb]. unfold bind, try.
  destruct (k_queue k) as [|chunk rest] eqn:Eq.
  - apply negb_true_iff in Hq. destruct (close_spec (W:=W) (H:=st i) h w key c Hp) as [Ho Hok].
    destruct (be_Close h w) as [[[]|err] w1] eqn:Ec; cbn [snd] in Ho; (eexists _, w1; split; [done|split]);
      try (intros j Hj; pose proof (apart_close _ _ (Hapart i j (not_eq_sym Hj)) h w) as Ha; by rewrite Ec in Ha).
    + rewrite Hq. destruct (k_fail k) eqn:Ef; intros k' [= <-]; exists h; (split; [done|]); unfold slot_ok; cbn [k_running k_err k_sunk];
        (split; [by intros q Hne; rewrite (Ho q Hne), Hv|]); intros He; [by destruct (Hfail eq_refl)|].
      rewrite (Hok w1 eq_refl), Hv. by rewrite Hc.
    + rewrite Hq. destruct (k_fail k) eqn:Ef; intros k' [= <-]; exists h; (split; [done|]); unfold slot_ok; cbn [k_running k_err k_sunk];
        (split; [by intros q Hne; rewrite (Ho q Hne), Hv|]); intros He; [by destruct (Hfail eq_refl)|done].
  - destruct (k_fail k) eqn:Ef.
    + eexists _, w. split; [done|]. split; [by intros j _|]. intros k' [= <-]. exists h. split; [done|]. unfold slot_ok. cbn [k_running k_fail]. split; [done|]. split; [done|]. by exists c.
    + destruct (write_spec (W:=W) (H:=st i) h chunk w key c Hp) as (Hv1 & c' & Hp1 & Hok).
      destruct (be_Write h chunk w) as [[[]|err] w1] eqn:Ew; cbn [snd] in Hv1, Hp1; (eexists _, w1; split; [done|split]);
        try (intros j Hj; pose proof (apart_write _ _ (Hapart i j (not_eq_sym Hj)) h chunk w) as Ha; by rewrite Ew in Ha);
        intros k' [= <-]; exists h; (split; [done|]); unfold slot_ok; cbn [k_running k_fail k_sunk]; rewrite Hv1, Hv; (split; [done|]); (split; [done|]); exists c'; (split; [done|]); [|done].
      intros _. rewrite (Hok w1 eq_refl), Hc by done. by rewrite Join_snoc.
Qed.

(** A step keeps the storages in line with the tee. *)
Lemma move_step_slots idx program m tw w : slots idx tw w -> tee_ok program (tw_tee tw) ->
  exists o w', move_step m tw w = (Ok o, w') /\
    match o with
    | None => w' = w
    | Some tw' => slots idx tw' w' /\ exists a, exec a (tw_tee tw) = Some (tw_tee tw')
    end.
Proof.
  intros [Hnd Hls Hlw Hslot Hrest] (Hb & _ & _). destruct m as [pick|n]; cbn [move_step].
  - eexists _, w. split; [done|]. destruct (exec (Caller pick) (tw_tee tw)) as [t'|] eqn:E; [|done]. cbn [fmap option_fmap option_map].
    split; [|by exists (Caller pick)]. cbn [exec] in E. pose proof (main_step_results _ _ _ E) as Hr. split; try done.
    + unfold workers_of in *. cbn [tw_tee]. by rewrite <- (Forall2_length _ _ _ Hr).
    + intros n i s k' Hi Hs Hk. unfold workers_of in *. cbn [tw_tee tw_sinks] in *. rewrite Forall2_lookup in Hr. specialize (Hr n). rewrite Hk in Hr.
      inversion Hr as [k k1 Hsame Ek|]. subst. eapply a_slot_result; [exact Hsame|]. eapply Hslot; [done|done|]. by rewrite <- Ek.
  - destruct (tw_sinks tw !! n) as [s|] eqn:Es; [|by eexists _, w]. destruct (workers_of tw !! n) as [k|] eqn:Ek; [|by eexists _, w].
    destruct (awake k) eqn:Ea; [|by eexists _, w]. destruct (idx !! n) as [i|] eqn:Ei; [|apply lookup_ge_None in Ei; apply lookup_lt_Some in Es; lia].
    destruct (sink_call_slot i s k w (Hslot _ _ _ _ Ei Es Ek) Ea) as (o & w1 & Hcall & Hq & Hk); [by apply (Hb n k Ek)|].
    destruct (awake_step o k Ea) as [k' Hstep]. specialize (Hk k' Hstep). unfold bind. rewrite Hcall.
    eexists _, w1. split; [done|]. assert (He : exec (Goroutine n o) (tw_tee tw) = Some (with_worker n k' (tw_tee tw))).
    { cbn [exec]. unfold workers_of in Ek. rewrite Ek. cbn. by rewrite Hstep. }
    rewrite He. cbn [fmap option_fmap option_map]. split; [|by exists (Goroutine n o)]. split; cbn [tw_sinks tw_tee]; [done|done| | |].
    + unfold workers_of. cbn. by rewrite length_insert.
    + intros n2 i2 s2 k2 Hi2 Hs2 Hk2. unfold workers_of in Hk2. cbn in Hk2. destruct (decide (n2 = n)) as [->|Hne].
      * rewrite list_lookup_insert_eq in Hk2 by by eapply lookup_lt_Some. injection Hk2 as <-. rewrite Ei in Hi2. injection Hi2 as <-. by simplify_eq.
      * rewrite list_lookup_insert_ne in Hk2 by done. apply (a_slot_untouched i2 s2 k2 w w1); [|by eapply Hslot].
        apply Hq. intros ->. apply Hne. by eapply NoDup_lookup.
    + intros j Hj. destruct (Hq j) as [-> _]; [|by apply Hrest]. intros ->. apply Hj. by eapply list_elem_of_lookup_2.
Qed.

Lemma first_move_slots idx program l tw w : slots idx tw w -> tee_ok program (tw_tee tw) ->
  exists o w', first_move l tw w = (Ok o, w') /\
    match o with
    | None => w' = w /\ forall m, m ∈ l -> fst (move_step m tw w) = Ok None
    | Some tw' => slots idx tw' w' /\ exists a, exec a (tw_tee tw) = Some (tw_tee tw')
    end.
Proof.
  intros Hs Hok. induction l as [|m l IH]; cbn [first_move]; [eexists _, w; split; [done|]; split; [done|]; by intros m ?%elem_of_nil|].
  destruct (move_step_slots idx program m tw w Hs Hok) as (o & w1 & E & Ho). unfold bind. rewrite E. destruct o as [tw'|].
  - by eexists _, w1.
  - subst w1. destruct IH as (o & w' & -> & IH). eexists _, w'. split; [done|]. destruct o as [tw'|]; [done|]. destruct IH as [-> IH]. split; [done|].
    intros m' [->|Hin]%elem_of_cons; [by rewrite E|by apply IH].
Qed.

(** As long as the caller has not returned, there is a move. *)
Lemma some_move idx program tw w m0 : slots idx tw w -> tee_ok program (tw_tee tw) -> (0 < t_depth (tw_tee tw))%nat ->
  (forall r, t_pc (tw_tee tw) <> Returned r) ->
  exists tw' w' a, first_move (m0 :: all_moves tw) tw w = (Ok (Some tw'), w') /\ slots idx tw' w' /\ exec a (tw_tee tw) = Some (tw_tee tw').
Proof.
  intros Hs Hok Hd Hr. destruct (first_move_slots idx program (m0 :: all_moves tw) tw w Hs Hok) as (o & w' & E & Ho).
  destruct o as [tw'|]; [destruct Ho as [? (a & ?)]; by exists tw', w', a|]. exfalso. destruct Ho as [_ Hnone].
  destruct (tee_moves program (tw_tee tw) Hd Hok) as [[r Hp]|(a & t' & Ha)]; [by apply (Hr r)|]. destruct Hs as [_ Hls Hlw _ _].
  destruct a as [pick|n o].
  - specialize (Hnone (MCaller pick)). cbn [move_step fst ret] in Hnone. rewrite Ha in Hnone. discriminate Hnone. unfold all_moves. destruct pick; set_solver.
  - cbn [exec] in Ha. destruct (t_workers (tw_tee tw) !! n) as [k|] eqn:Ek; [|done]. cbn in Ha. destruct (worker_step o k) as [k'|] eqn:Hk; [|done].
    pose proof (step_awake _ _ _ Hk) as Hawake. assert (Hn : (n < length (workers_of tw))%nat) by by eapply lookup_lt_Some.
    specialize (Hnone (MGoroutine n)). cbn [move_step] in Hnone. destruct (tw_sinks tw !! n) as [s|] eqn:Es; [|apply lookup_ge_None in Es; lia].
    unfold workers_of in Hnone. rewrite Ek, Hawake in Hnone. destruct (sink_call_total s k w) as (o2 & w2 & Ec). unfold bind in Hnone. rewrite Ec in Hnone.
    destruct (awake_step o2 k Hawake) as [k2 Hk2]. cbn in Hnone. rewrite Ek in Hnone. cbn in Hnone. rewrite Hk2 in Hnone. cbn in Hnone.
    discriminate Hnone. unfold all_moves. rewrite !elem_of_cons, list_elem_of_fmap. do 3 right. exists n. split; [done|]. apply elem_of_seq. lia.
Qed.

(** A run reaches the place it is to reach, through steps of the tee. *)
Lemma run_tee_spec (I : tee -> Prop) idx program sched stop fuel tw w : slots idx tw w -> tee_ok program (tw_tee tw) -> (0 < t_depth (tw_tee tw))%nat ->
  (forall t r, I t -> t_pc t = Returned r -> stop (t_pc t) = true) -> (forall a t t', I t -> stop (t_pc t) = false -> exec a t = Some t' -> I t') -> I (tw_tee tw) ->
  (measure (tw_tee tw) < fuel)%nat ->
  exists tw' w', run_tee sched stop fuel tw w = (Ok tw', w') /\ slots idx tw' w' /\ tee_ok program (tw_tee tw') /\
    t_depth (tw_tee tw') = t_depth (tw_tee tw) /\ stop (t_pc (tw_tee tw')) = true /\ I (tw_tee tw').
Proof.
  intros Hs Hok Hd Hstop HI. revert tw w Hs Hok Hd. induction fuel as [|fuel IH]; intros tw w Hs Hok Hd Hi Hm; [lia|]. cbn [run_tee].
  destruct (stop (t_pc (tw_tee tw))) eqn:Est; [by eexists tw, w|].
  destruct (some_move idx program tw w (sched (tw_tee tw)) Hs Hok Hd) as (tw1 & w1 & a & E & Hs1 & Ha); [by intros r Hr; rewrite (Hstop _ r Hi Hr) in Est|].
  unfold bind. rewrite E. pose proof (exec_decreases _ _ _ Ha) as Hdec. pose proof (exec_depth _ _ _ Ha) as Hdep.
  destruct (IH tw1 w1 Hs1) as (tw' & w' & -> & ? & ? & Hd' & ? & ?); [by eapply exec_ok|by rewrite Hdep|by eapply HI|lia|].
  exists tw', w'. split_and!; try done. by rewrite Hd'.
Qed.

(** ** Calls *)

(** Between two calls, and after [Close]. *)
Record idle (idx : list nat) (tw : teeWriter) (w : W) : Prop := {
  id_slots : slots idx tw w;
  id_ok : tee_ok (t_written (tw_tee tw)) (tw_tee tw);
  id_pc : t_pc (tw_tee tw) = Idle;
  id_todo : t_todo (tw_tee tw) = [];
  id_depth : (0 < t_depth (tw_tee tw))%nat;
}.

Record closed (idx : list nat) (tw : teeWriter) (w : W) : Prop := {
  cl_slots : slots idx tw w;
  cl_alive n i k : idx !! n = Some i -> workers_of tw !! n = Some k -> k_err k = None ->
    view_at i w = <[key := Join (t_written (tw_tee tw)) ""]> (v0 i);
}.

Lemma enter_slots p idx tw w : slots idx tw w -> slots idx (enter p tw) w.
Proof. intros []. by split. Qed.

Lemma enter_ok program p t : tee_ok (t_written t) t -> t_pc t = Idle -> t_todo t = [] ->
  (exists c, p = Check c 0 0 /\ program = t_written t ++ [c]) \/ (p = CloseChan 0 /\ program = t_written t) -> tee_ok program (at_pc p t).
Proof.
  intros (Hb & _ & _) Hpc Htodo Hp. split_and!.
  - intros j k Hk. apply (backend_ok_eq t); [..|by apply Hb]; unfold offered, chan_closed; cbn; rewrite Hpc; by destruct Hp as [(c & -> & _)|[-> _]].
  - unfold live_ok. cbn. destruct Hp as [(c & -> & _)|[-> _]]; [|done]. intros _ j k Hj. lia.
  - right. cbn. destruct Hp as [(c & -> & ->)|[-> ->]]; [by rewrite Htodo|done].
Qed.

Lemma tee_Write_spec idx sched p tw w : idle idx tw w -> exists r tw' w', tee_Write sched p tw w = (Ok (r, tw'), w') /\ idle idx tw' w' /\
  t_written (tw_tee tw') = if isOk r then t_written (tw_tee tw) ++ [p] else t_written (tw_tee tw).
Proof.
  intros [Hs Hok Hpc Htodo Hd]. unfold tee_Write, drive_tee. set (tw0 := enter (Check p 0 0) tw).
  assert (Hi0 : in_Write p (t_written (tw_tee tw)) (tw_tee tw0)) by by split.
  destruct (run_tee_spec (in_Write p (t_written (tw_tee tw))) idx (t_written (tw_tee tw) ++ [p]) sched is_idle (S (measure (tw_tee tw0))) tw0 w) as (tw' & w' & E & Hs' & Hok' & Hd' & Hst & [Htd Hi]).
  - by apply enter_slots.
  - apply enter_ok; try done. left. by exists p.
  - done.
  - intros t r [_ Hi] Hr. by rewrite Hr in Hi.
  - intros a t t'. apply in_Write_step.
  - done.
  - lia.
  - unfold bind. rewrite E. eexists _, tw', w'. split; [done|].
    assert (Hidle : t_pc (tw_tee tw') = Idle) by by destruct (t_pc (tw_tee tw')).
    rewrite Hidle in Hi. split.
    + split; try done; [|by rewrite Hd']. destruct Hok' as (Hb & Hl & _). split_and!; [done|done|]. right. rewrite Hidle. by rewrite Htd, app_nil_r.
    + destruct Hi as [-> | ->]; [by rewrite Nat.eqb_refl|]. rewrite length_app. cbn [length].
      by replace (length (t_written (tw_tee tw)) + 1 =? length (t_written (tw_tee tw)))%nat with false by (symmetry; apply Nat.eqb_neq; lia).
Qed.

Lemma tee_Close_spec idx sched tw w : idle idx tw w -> exists r tw' w', tee_Close sched tw w = (Ok (r, tw'), w') /\ closed idx tw' w' /\
  t_written (tw_tee tw') = t_written (tw_tee tw) /\ t_pc (tw_tee tw') = Returned (match r with Ok _ => None | Fail err => Some err end).
Proof.
  intros [Hs Hok Hpc Htodo Hd]. unfold tee_Close, drive_tee. set (tw0 := enter (CloseChan 0) tw).
  destruct (run_tee_spec (in_Close (t_written (tw_tee tw))) idx (t_written (tw_tee tw)) sched is_returned (S (measure (tw_tee tw0))) tw0 w)
    as (tw' & w' & E & Hs' & (Hb & Hl & _) & _ & Hst & [Hwr _]).
  - by apply enter_slots.
  - apply enter_ok; try done. by right.
  - done.
  - intros t r _ Hr. by rewrite Hr.
  - intros a t t'. apply in_Close_step.
  - done.
  - lia.
  - unfold bind. rewrite E. destruct (t_pc (tw_tee tw')) as [| | | | |r] eqn:Er; try done.
    exists (match r with Some err => Fail err | None => Ok tt end), tw', w'. unfold ret. rewrite Er. split; [by destruct r|]. split; [|split; [done|by destruct r]]. split; [done|]. intros n i k Hi Hk Hk0.
    unfold live_ok in Hl. rewrite Er in Hl. destruct Hl as [_ Hdone]. rewrite Forall_lookup in Hdone. pose proof (Hdone n k Hk) as Hr.
    destruct (Hb n k Hk) as (_ & _ & Hd2 & _ & Hn). destruct (Hd2 Hr Hk0) as [Hq _]. destruct (Hn Hk0) as (_ & _ & Hsunk).
    unfold offered in Hsunk. rewrite Er, Hq, app_nil_r in Hsunk. destruct Hs' as [_ Hls Hlw Hslot _].
    destruct (tw_sinks tw' !! n) as [s|] eqn:Es; [|apply lookup_ge_None in Es; apply lookup_lt_Some in Hk; lia].
    destruct (Hslot n i s k Hi Es Hk) as (h & _ & _ & Hv). rewrite Hr in Hv. rewrite (Hv Hk0). by rewrite Hsunk.
Qed.
End tee.

(** ** What a chain asks of its sink *)

Section chain_keeps.
Context `{FilterLibs} {S : Type} `{Backend S} (h : be_Writer) (Open Closed : S -> Prop).
Hypothesis Hwrite : forall p s, Open s -> Open (snd (be_Write h p s)).
Hypothesis Hclose : forall s, Open s -> Closed (snd (be_Close h s)).

Definition keeps_open (op : Op) : Prop := forall cw s, cw_sink cw = h -> Open s -> exists r cw' s', op cw s = (Ok (r, cw'), s') /\ cw_sink cw' = h /\ Open s'.

Lemma repo_Write_keeps x : keeps_open (repo_Write x).
Proof.
  intros cw s Hh Ho. unfold repo_Write, bind, try. rewrite Hh. pose proof (Hwrite x s Ho) as Hw.
  destruct (be_Write h x s) as [[[]|e] s1]; cbn [snd] in Hw; by eexists _, _, s1.
Qed.

Lemma enc_Write_keeps x : keeps_open (enc_Write x).
Proof. intros cw s Hh Ho. unfold enc_Write. destruct (age_write _ x) as [e out]. by apply (repo_Write_keeps out (set_enc e cw)). Qed.

Lemma chain_Write_keeps x : keeps_open (Filter.Write x).
Proof.
  intros cw s Hh Ho. unfold Filter.Write. destruct (cw_closed cw); [by eexists _, cw, s|]. unfold hashed_Write, bind, comp_Write.
  destruct (codec_write (cw_comp cw) x) as [c out].
  destruct (enc_Write_keeps out (set_comp c cw) s Hh Ho) as (r & cw' & s' & -> & Hs & Ho'). destruct r; by eexists _, _, s'.
Qed.

Lemma copy_chunks_keeps chunks : keeps_open (copy_chunks chunks).
Proof.
  induction chunks as [|x chunks IH]; intros cw s Hh Ho; cbn [copy_chunks]; [by eexists _, cw, s|]. unfold bind.
  destruct (chain_Write_keeps x cw s Hh Ho) as (r & cw' & s' & -> & Hs & Ho'). destruct r; [by apply IH|by eexists _, cw', s'].
Qed.

Lemma chain_Close_ends cw s : cw_sink cw = h -> Open s -> Open (snd (Filter.Close cw s)) \/ Closed (snd (Filter.Close cw s)).
Proof.
  intros Hh Ho. unfold Filter.Close. destruct (cw_closed cw); [by left|]. right. unfold bind at 1, comp_Close.
  destruct (enc_Write_keeps (codec_close (cw_comp (set_closed cw))) (set_closed cw) s Hh Ho) as (r1 & cw1 & s1 & -> & Hs1 & Ho1).
  destruct (repo_Write_keeps (age_close (cw_enc cw1)) cw1 s1 Hs1 Ho1) as (r2 & cw2 & s2 & E2 & Hs2 & Ho2). pose proof (Hclose s2 Ho2) as Hc.
  unfold bind, try, enc_Close, ret. destruct r1 as [[]|e1]; rewrite E2.
  - destruct r2 as [[]|e2]; cbn [set_repo_result cw_sink]; rewrite Hs2; by destruct (be_Close h s2) as [[[]|e] s3].
  - rewrite Hs1. by destruct (be_Close h s2).
Qed.

Lemma Wrap_keeps ch s : Open s -> Open (snd (Wrap ch h s)) /\ forall cw s', Wrap ch h s = (Ok cw, s') -> cw_sink cw = h.
Proof.
  intros Ho. unfold Wrap. unfold bind at 1 3, of_result.
  destruct (encryption_NewWriter (ch_recipients ch)) as [[e hd]|err]; [|done].
  destruct (codec_NewWriter (ch_codec ch) (ch_level ch)) as [[c chd]|err].
  2:{ unfold bind, try, throw. pose proof (Hwrite hd s Ho) as Ho1. destruct (be_Write h hd s) as [[[]|e1] s1]; [|done].
      pose proof (Hwrite (age_close e) s1 Ho1) as Ho2. by destruct (be_Write h (age_close e) s1). }
  unfold bind. destruct (repo_Write_keeps hd (new_writer h e c) s eq_refl Ho) as (r1 & cw1 & s1 & -> & Hs1 & Ho1).
  destruct r1 as [[]|e1]; [|done]. destruct (enc_Write_keeps chd cw1 s1 Hs1 Ho1) as (r2 & cw2 & s2 & -> & Hs2 & Ho2).
  destruct r2 as [[]|e2]; (split; [done|]); unfold ret; by intros cw s' [= <- <-].
Qed.

(** The sink is written to while it is open, and closed once at most. *)
Lemma pipe_entry_ends ch e s : Open s -> Open (snd (pipe_entry ch e h s)) \/ Closed (snd (pipe_entry ch e h s)).
Proof.
  intros Ho. set (P := fun s => Open s \/ Closed s). change (P (snd (pipe_entry ch e h s))). unfold pipe_entry, wrapping. unfold bind at 1.
  destruct (Wrap_keeps ch s Ho) as [Hw Hs]. destruct (Wrap ch h s) as [[cw|err] s1]; cbn [map_error snd] in *; [|by left].
  unfold bind at 1. destruct (copy_chunks_keeps (te_chunks e) cw s1 (Hs _ _ eq_refl) Hw) as (r & cw2 & s2 & -> & Hs2 & Ho2).
  pose proof (chain_Close_ends cw2 s2 Hs2 Ho2 : P _) as Hc. unfold bind, try, throw.
  destruct r as [[]|err]; [destruct (te_err e)|]; destruct (Filter.Close cw2 s2) as [[[[[]|err'] cw3]|err'] s3]; cbn [snd] in *; done.
Qed.
End chain_keeps.
