(* ===== verification/Fleet.v ===== *)
(** * Several worlds

    A fleet of worlds, each with a storage of its own; the clock, the host and its disk are those of the
    first. The theorems about several storages are run on it. *)

From S2P Require Import Prelude Storage Host Worlds Bracket BracketSpec MultiTee.

Definition fleet : Type := nat -> world.

Definition at_slot (i : nat) (x : world) (w : fleet) : fleet := fun j => if Nat.eqb j i then x else w j.

(** Runs [c] in the [i]-th world. *)
Definition zoom {A} (i : nat) (c : M world A) : M fleet A := fun w => let '(r, x) := c (w i) in (r, at_slot i x w).

Definition fleet_storage (i : nat) : Backend fleet := {|
  be_Writer := nat;
  be_Put p := zoom i (be_Put p);
  be_Write h b := zoom i (be_Write (W:=world) h b);
  be_Close h := zoom i (be_Close (W:=world) h);
  be_Commit t f := zoom i (be_Commit t f);
  be_Get p := zoom i (be_Get p);
  be_Stat p := zoom i (be_Stat p);
  be_List p := zoom i (be_List p);
  be_Delete p := zoom i (be_Delete p);
|}.

Lemma zoom_run {A} i (c : M world A) w : zoom i c w = (fst (c (w i)), at_slot i (snd (c (w i))) w).
Proof. unfold zoom. by destruct (c (w i)). Qed.

Lemma at_slot_eq i x (w : fleet) : at_slot i x w i = x.
Proof. unfold at_slot. by rewrite Nat.eqb_refl. Qed.

Lemma at_slot_ne i j x (w : fleet) : j <> i -> at_slot i x w j = w j.
Proof. unfold at_slot. by intros ->%Nat.eqb_neq. Qed.

Lemma snd_zoom {A} i (c : M world A) w : snd (zoom i c w) i = snd (c (w i)).
Proof. rewrite zoom_run. apply at_slot_eq. Qed.

Lemma zoom_eq {A} i (c : M world A) w r w' : zoom i c w = (r, w') -> c (w i) = (r, w' i).
Proof. rewrite zoom_run. intros [= <- <-]. rewrite at_slot_eq. by destruct (c (w i)). Qed.

(** A storage of the fleet is the storage of its world. *)
#[export, program] Instance fleet_laws i : @BackendLaws fleet (fleet_storage i) := {
  view w := view (w i);
  pending w h := pending (W:=world) (w i) h;
}.
Next Obligation.
  intros i p w Hp. cbn [be_Put fleet_storage]. rewrite snd_zoom. destruct (put_spec (W:=world) p (w i) Hp) as [Hv Hpend].
  split; [done|]. intros h w' ?%zoom_eq. eauto.
Qed.
Next Obligation.
  intros i h b w p c Hp. cbn [be_Write fleet_storage]. rewrite snd_zoom. destruct (@write_spec world world_backend world_laws h b (w i) p c Hp) as (Hv & c' & Hpend & Hok).
  split; [done|]. exists c'. split; [done|]. intros w' ?%zoom_eq. eauto.
Qed.
Next Obligation.
  intros i h w p c Hp. cbn [be_Close fleet_storage]. rewrite snd_zoom. destruct (@close_spec world world_backend world_laws h (w i) p c Hp) as [Hout Hok].
  split; [done|]. intros w' ?%zoom_eq. eauto.
Qed.
Next Obligation.
  intros i t f w Ht Hf Hc Hne Hs. cbn [be_Commit fleet_storage]. rewrite snd_zoom.
  destruct (commit_spec (W:=world) t f (w i) Ht Hf Hc Hne Hs) as (? & ? & ? & ?). split_and!; [done|..]; intros *; intros ?%zoom_eq; eauto.
Qed.
Next Obligation.
  intros i p w Hp. cbn [be_Get fleet_storage]. rewrite snd_zoom. destruct (get_spec (W:=world) p (w i) Hp) as (? & ? & ?).
  split_and!; [done|..]; intros *; intros ?%zoom_eq; eauto.
Qed.
Next Obligation.
  intros i p w Hp. cbn [be_Stat fleet_storage]. rewrite snd_zoom. destruct (stat_spec (W:=world) p (w i) Hp) as (? & ? & ?).
  split_and!; [done|..]; intros *; intros ?%zoom_eq; eauto.
Qed.
Next Obligation.
  intros i p w. cbn [be_List fleet_storage]. rewrite snd_zoom. destruct (list_spec (W:=world) p (w i)) as (? & ?).
  split; [done|]. intros l w' ?%zoom_eq. eauto.
Qed.
Next Obligation. intros i prefix w l w' p ?%zoom_eq. eauto using list_complete. Qed.
Next Obligation. intros i prefix w e w' p ?%zoom_eq. eauto using list_absent. Qed.
Next Obligation.
  intros i p w Hp. cbn [be_Delete fleet_storage]. rewrite snd_zoom. destruct (delete_spec (W:=world) p (w i) Hp) as (? & ? & ? & ?).
  split_and!; [done|..]; intros *; intros ?%zoom_eq; eauto.
Qed.

(** One world's operations are not seen in another one. *)
Lemma zoom_untouched {A} i j (c : M world A) : i <> j -> preserves (@untouched fleet (fleet_storage j) (fleet_laws j)) (zoom i c).
Proof.
  intros Hij w. rewrite zoom_run. unfold untouched. cbn [snd view pending fleet_laws]. by rewrite at_slot_ne by done.
Qed.

Lemma fleet_apart i j : i <> j -> @apart fleet (fleet_storage i) (fleet_storage j) (fleet_laws j).
Proof. intros Hij. split; intros; by apply zoom_untouched. Qed.

(** ** The first world's clock, cluster, host and disk *)

#[export] Instance fleet_clock : Clock fleet := { time_Now w := time_Now (w 0%nat); time_Sleep d := zoom 0 (time_Sleep d) }.

#[export] Instance fleet_clock_laws : @ClockLaws fleet (fleet_storage 0) fleet_clock.
Proof.
  split.
  - intros d w w' Hd Hs%zoom_eq. exact (sleep_advances (W:=world) d _ _ Hd Hs).
  - intros p w. cbn [time_Now fleet_clock be_List fleet_storage]. rewrite snd_zoom. apply (list_clock (W:=world)).
Qed.

#[export] Instance fleet_host : Host fleet := {
  os_ReadFile p := zoom 0 (os_ReadFile p); os_OpenFile p := zoom 0 (os_OpenFile p); os_WriteFile p c := zoom 0 (os_WriteFile p c); rand_Read n := zoom 0 (rand_Read n) }.

#[export] Instance fleet_disk : Disk fleet := {
  os_Stat p := zoom 0 (os_Stat p); os_MkdirAll p := zoom 0 (os_MkdirAll p); os_CreateExcl p := zoom 0 (os_CreateExcl p);
  os_Remove p := zoom 0 (os_Remove p); os_RemoveAll p := zoom 0 (os_RemoveAll p); os_Symlink new link := zoom 0 (os_Symlink new link);
  os_MkdirTemp dir pat := zoom 0 (os_MkdirTemp dir pat); exec_LookPath p := zoom 0 (exec_LookPath p);
  pg_combinebackup dirs target := zoom 0 (pg_combinebackup dirs target) }.

#[export] Instance fleet_pg : Pg fleet := {
  pg_create_restore_point name := zoom 0 (pg_create_restore_point name);
  pg_sealed_segment := zoom 0 pg_sealed_segment; pg_switch_wal := zoom 0 pg_switch_wal; pg_is_in_recovery := zoom 0 pg_is_in_recovery;
  pg_last_wal_replay_lsn := zoom 0 pg_last_wal_replay_lsn; pg_wal_receivers := zoom 0 pg_wal_receivers;
  pg_restore_command := zoom 0 pg_restore_command; pg_identity := zoom 0 pg_identity }.

Lemma zoom_quiet {A} i (c : M world A) j : preserves (same_outside (W:=world) wal_key) c -> preserves (@same_outside fleet (fleet_storage j) (fleet_laws j) wal_key) (zoom i c).
Proof.
  intros Hc w q Hq. rewrite zoom_run. cbn [snd view fleet_laws]. destruct (decide (j = i)) as [->|Hne]; [|by rewrite at_slot_ne].
  rewrite at_slot_eq. by apply Hc.
Qed.

#[export] Instance fleet_pg_laws j : @PgLaws fleet (fleet_storage j) (fleet_laws j) fleet_clock fleet_pg.
Proof.
  split; intros; apply zoom_quiet; [apply (restore_point_quiet (W:=world))|apply (sealed_segment_quiet (W:=world))|apply (switch_wal_quiet (W:=world))
    |apply (in_recovery_quiet (W:=world))|apply (replay_lsn_quiet (W:=world))|apply (receivers_quiet (W:=world))|apply (restore_command_quiet (W:=world))
    |apply (identity_quiet (W:=world))|apply (sleep_quiet (W:=world))].
Qed.
