(* ===== verification/MultiBackupSpec.v ===== *)
(** * What a backup leaves in several storages

    Every storage for itself is all or nothing: its manifest is as it was, or it has the whole backup; the storages the
    result counts as failed are the only ones that may lack it. *)

From S2P Require Import Prelude Sha256 Lsn Wal Storage Keys Host Time Json JsonSpec Manifest ManifestSpec Worlds Archive Filter Verify VerifySpec Bracket BracketSpec Resume ResumeSpec Restore RestoreSpec Backup BackupSpec Multi MultiBackup MultiTee Fleet.

(** ** One file *)

Section storages.
Context {W : Type} (st : nat -> Backend W) (laws : forall i, @BackendLaws W (st i)).
Hypothesis Hapart : forall i j, i <> j -> @apart W (st i) (st j) (laws j).

#[local] Instance one_storage i : Backend W := st i.
#[local] Instance one_laws i : @BackendLaws W (st i) := laws i.

Abbreviation view_at i := (@view W (st i) (laws i)).
Abbreviation pending_at i := (@pending W (st i) (laws i)).
Abbreviation same_at i := (@same_outside W (st i) (laws i)).
Abbreviation quiet_at i := (@untouched W (st i) (laws i)).

(** The storages of a run, and which of them have failed. *)
Definition tracks (n : nat) (ms : multiState) : Prop := ms_backends ms = map st (seq 0 n) /\ length (ms_dead ms) = n.
Definition alive (ms : multiState (W:=W)) (j : nat) : Prop := ms_dead ms !! j = Some false.

(** Storages only fail. *)
Definition fewer (ms ms' : multiState (W:=W)) : Prop := ms_backends ms' = ms_backends ms /\ length (ms_dead ms') = length (ms_dead ms) /\ forall j, alive ms' j -> alive ms j.

Lemma fewer_refl ms : fewer ms ms.
Proof. by split_and!. Qed.

Lemma fewer_trans a b c : fewer a b -> fewer b c -> fewer a c.
Proof. intros (? & ? & H1) (? & ? & H2). split_and!; [congruence..|]. intros j Hj. by apply H1, H2. Qed.

Lemma tracks_fewer n ms ms' : tracks n ms -> fewer ms ms' -> tracks n ms'.
Proof. intros [H1 H2] (H3 & H4 & _). split; congruence. Qed.

(** A writer was opened on every storage that is still alive. *)
Lemma put_alive_spec key i n dead w : valid_key key = true -> length dead = n -> exists dead' sinks idx w',
  put_alive i (map st (seq i n)) dead key w = (Ok (dead', sinks, idx), w') /\ length dead' = n /\ NoDup idx /\ length sinks = length idx /\
  (forall j, j ∈ idx <-> (i <= j)%nat /\ dead' !! (j - i)%nat = Some false) /\ (forall j, dead' !! j = Some false -> dead !! j = Some false) /\
  (forall k j s, idx !! k = Some j -> sinks !! k = Some s -> exists h, s = Sink (st j) h /\ pending_at j w' h = Some (key, "")) /\
  (forall j, view_at j w' = view_at j w) /\ (forall j, (j < i)%nat -> quiet_at j w w').
Proof.
  intros Hk. revert i dead w. induction n as [|n IH]; intros i dead w Hl.
  - destruct dead; [|done]. exists [], [], [], w. cbn. split_and!; try done; [constructor|]. intros j. split; [by intros ?%elem_of_nil|]. by intros [_ ?].
  - destruct dead as [|d dead]; [done|]. cbn [seq map put_alive]. injection Hl as Hl. destruct d.
    + destruct (IH (S i) dead w Hl) as (dead' & sinks & idx & w' & E & Hl' & Hnd & Hls & Hin & Hdead & Hs & Hv & Hq).
      exists (true :: dead'), sinks, idx, w'. unfold bind. rewrite E. split_and!; try done; [cbn; lia| | |by intros j Hj; apply Hq; lia].
      * intros j. rewrite Hin. split; intros [Hj Hd].
        -- split; [lia|]. replace (j - i)%nat with (S (j - S i)) by lia. done.
        -- destruct (decide (j = i)) as [->|]; [by rewrite Nat.sub_diag in Hd|]. split; [lia|]. by replace (j - i)%nat with (S (j - S i)) in Hd by lia.
      * intros [|j]; cbn; [done|apply Hdead].
    + pose proof (put_spec (W:=W) (H:=st i) key w Hk) as [Hv1 Hp1]. unfold bind at 1, try.
      assert (Hq1 : forall j, j <> i -> quiet_at j w (snd (@be_Put W (st i) key w))) by (intros j Hj; by apply (apart_put _ _ (Hapart i j (not_eq_sym Hj)))).
      destruct (@be_Put W (st i) key w) as [r w1]; cbn [snd] in *.
      destruct (IH (S i) dead w1 Hl) as (dead' & sinks & idx & w' & E & Hl' & Hnd & Hls & Hin & Hdead & Hs & Hv & Hq). unfold bind. rewrite E.
      assert (Hvw : forall j, view_at j w' = view_at j w).
      { intros j. rewrite Hv. destruct (decide (j = i)) as [->|Hne]; [done|by apply Hq1]. }
      assert (Hqw : forall j, (j < i)%nat -> quiet_at j w w') by (intros j Hj; etrans; [apply Hq1; lia|apply Hq; lia]).
      destruct r as [h|e]; [exists (false :: dead'), (Sink (st i) h :: sinks), (i :: idx), w'|exists (true :: dead'), sinks, idx, w']; (split_and!; try done); try (cbn; lia).
      * constructor; [|done]. intros [? _]%Hin. lia.
      * intros j. rewrite elem_of_cons, Hin. split.
        -- intros [->|[Hj Hd]]; [split; [lia|by rewrite Nat.sub_diag]|split; [lia|]]. by replace (j - i)%nat with (S (j - S i)) by lia.
        -- intros [Hj Hd]. destruct (decide (j = i)) as [->|]; [by left|right]. split; [lia|]. by replace (j - i)%nat with (S (j - S i)) in Hd by lia.
      * intros [|j]; cbn; [done|apply Hdead].
      * intros [|k] j s; cbn; [|apply Hs]. intros [= <-] [= <-]. exists h. split; [done|]. destruct (Hq i) as [_ Hpend]; [lia|]. rewrite Hpend. by apply Hp1.
      * intros j. rewrite Hin. split; intros [Hj Hd].
        -- split; [lia|]. by replace (j - i)%nat with (S (j - S i)) by lia.
        -- destruct (decide (j = i)) as [->|]; [by rewrite Nat.sub_diag in Hd|]. split; [lia|]. by replace (j - i)%nat with (S (j - S i)) in Hd by lia.
      * intros [|j]; cbn; [done|apply Hdead].
Qed.

Lemma putMulti_spec key n ms w r w' : valid_key key = true -> tracks n ms -> putMulti ms key w = (r, w') ->
  (forall j, view_at j w' = view_at j w) /\
  forall ms' tw idx, r = Ok (ms', tw, idx) -> fewer ms ms' /\ idle st laws key (fun j => view_at j w) idx tw w' /\ t_written (tw_tee tw) = [] /\
    forall j, alive ms' j -> exists k, idx !! k = Some j.
Proof.
  intros Hk [Hb Hl]. unfold putMulti. rewrite Hb.
  destruct (put_alive_spec key 0 n (ms_dead ms) w Hk Hl) as (dead' & sinks & idx & w1 & E & Hl' & Hnd & Hls & Hin & Hdead & Hs & Hv & _).
  unfold bind. rewrite E. destruct (length sinks =? 0)%nat; [by intros [= <- <-]|]. intros [= <- <-]. split; [done|]. intros ms' tw idx' [= <- <- <-].
  split; [by split_and!; [done|cbn; congruence|exact Hdead]|]. split; [|split; [done|]].
  - split; try done; [|apply (new_ok _ _ [])|cbn; unfold DefaultBufDepth; lia]. split; try done.
    + unfold workers_of. cbn. by rewrite !length_map.
    + intros k j s wk Hj Hsk Hwk. destruct (Hs k j s Hj Hsk) as (h & -> & Hp). unfold workers_of in Hwk. cbn in Hwk. rewrite !list_lookup_fmap in Hwk. cbn [tee_New tw_sinks] in Hsk.
      rewrite Hsk in Hwk. injection Hwk as <-. exists h. split; [done|]. unfold slot_ok. cbn. rewrite Hv. split; [done|]. split; [done|]. by exists "".
  - intros j Hj. apply list_elem_of_lookup. apply Hin. split; [lia|]. by rewrite Nat.sub_0_r.
Qed.

Lemma mark_dead_alive rs idx dead j : mark_dead rs idx dead !! j = Some false ->
  dead !! j = Some false /\ forall k r, idx !! k = Some j -> rs !! k = Some r -> r = None.
Proof.
  revert idx dead. induction rs as [|r rs IH]; intros [|i idx] dead; cbn [mark_dead]; try by intros ?; split.
  intros [Hd Hr]%IH. split; [destruct r; [|done]; by apply list_lookup_insert_Some in Hd as [(_ & ? & _)|[_ ?]]|].
  intros [|k] r2; cbn; [|apply Hr]. intros [= ->] [= <-]. destruct r; [|done]. by apply list_lookup_insert_Some in Hd as [(_ & ? & _)|[? _]].
Qed.

Lemma length_mark_dead rs idx dead : length (mark_dead rs idx dead) = length dead.
Proof. revert idx dead. induction rs as [|r rs IH]; intros [|i idx] dead; cbn [mark_dead]; try done. rewrite IH. destruct r; [apply length_insert|done]. Qed.

Lemma merge_fewer rs idx ms : fewer ms (merge rs idx ms).
Proof. split_and!; [done|cbn; apply length_mark_dead|]. intros j Hj. by apply mark_dead_alive in Hj as [? _]. Qed.

(** What the storages behind a tee show, and what the ones without an error show in the end. *)
Lemma slots_outside key (v0 : W) idx tw w : slots st laws key (fun j => view_at j v0) idx tw w -> forall j, same_at j (fun q => q = key) v0 w.
Proof.
  intros [Hnd Hls Hlw Hslot Hrest] j q Hq. destruct (decide (j ∈ idx)) as [Hj|Hj]; [|by rewrite Hrest].
  apply list_elem_of_lookup in Hj as [k Hk]. pose proof (lookup_lt_Some _ _ _ Hk) as Hlt. rewrite <- Hls in Hlt. apply lookup_lt_is_Some in Hlt as [s Hs].
  pose proof (lookup_lt_Some _ _ _ Hk) as Hlt2. rewrite <- Hlw in Hlt2. apply lookup_lt_is_Some in Hlt2 as [b Hb].
  destruct (Hslot k j s b Hk Hs Hb) as (h & _ & Ho & _). by apply Ho.
Qed.

Lemma merge_alive key (v0 : W) idx tw w ms j : closed st laws key (fun i => view_at i v0) idx tw w -> (exists k, idx !! k = Some j) ->
  alive (merge (Results (tw_tee tw)) idx ms) j -> view_at j w = <[key := Join (t_written (tw_tee tw)) ""]> (view_at j v0).
Proof.
  intros [[_ _ Hlw _ _] Hal] [k Hk] Ha. apply mark_dead_alive in Ha as [_ Hr]. pose proof (lookup_lt_Some _ _ _ Hk) as Hlt. rewrite <- Hlw in Hlt.
  apply lookup_lt_is_Some in Hlt as [b Hb]. eapply Hal; [exact Hk|exact Hb|]. apply (Hr k); [done|]. unfold Results. rewrite list_lookup_fmap. unfold workers_of in Hb. by rewrite Hb.
Qed.

Lemma store_multi_spec sched `{FilterLibs} ch key e n ms w r w' : valid_key key = true -> tracks n ms -> store_multi sched ch ms key e w = (r, w') ->
  (forall j, same_at j (fun q => q = key) w w') /\
  forall res ms', r = Ok (res, ms') -> fewer ms ms' /\ te_err e = None /\
    exists stored, encoded ch (te_chunks e) stored /\ res_Bytes res = Z.of_nat (slen (content e)) /\ res_SHA256 res = Sum256 (content e) /\
      forall j, alive ms' j -> view_at j w' = <[key := stored]> (view_at j w).
Proof.
  intros Hk Ht. unfold store_multi. unfold bind at 1, wrapping. destruct (putMulti ms key w) as [[[[ms1 tw] idx]|err] w1] eqn:Ep;
    apply (putMulti_spec key n) in Ep as [Hv Hok]; try done; cbn [map_error].
  2:{ intros [= <- <-]. split; [|done]. intros j q _. by rewrite Hv. }
  destruct (Hok ms1 tw idx eq_refl) as (Hfew & Hidle & Hw0 & Hal). unfold bind at 1, through.
  set (Open := fun s : W * teeWriter => idle st laws key (fun j => view_at j w) idx (snd s) (fst s)).
  set (Closed := fun s : W * teeWriter => closed st laws key (fun j => view_at j w) idx (snd s) (fst s)).
  pose proof (pipe_entry_ends (H0:=tee_backend (sched key)) tt Open Closed) as Hends.
  pose proof (pipe_entry_Ok (H:=tee_backend (sched key)) (H0:=tee_laws key (sched key)) ch key e tt (w1, tw)) as Hpipe.
  destruct (@pipe_entry _ (tee_backend (sched key)) _ ch e tt (w1, tw)) as [rp [w2 tw2]] eqn:Erun.
  specialize (Hends) with (ch := ch) (e := e) (s := (w1, tw)). rewrite Erun in Hends. cbn [snd fst] in Hends.
  assert (Hend : Open (w2, tw2) \/ Closed (w2, tw2)).
  { apply Hends; [..|exact Hidle].
    - intros p [v x] Hi. destruct (tee_Write_spec st laws Hapart key (fun j => view_at j w) idx (sched key) p x v Hi) as (rw & x' & v' & Ew & Hi' & _).
      cbn [be_Write tee_backend on_tee]. by rewrite Ew.
    - intros [v x] Hi. destruct (tee_Close_spec st laws Hapart key (fun j => view_at j w) idx (sched key) x v Hi) as (rw & x' & v' & Ew & Hi' & _).
      cbn [be_Close tee_backend on_tee]. by rewrite Ew. }
  assert (Hout : forall j, same_at j (fun q => q = key) w w2).
  { destruct Hend as [[Hs _ _ _ _]|[Hs _]]; exact (slots_outside key w idx tw2 w2 Hs). }
  unfold bind, of_result. destruct rp as [res|err]; [|by intros [= <- <-]]. intros [= <- <-]. split; [done|]. intros res' ms' [= <- <-].
  split; [eapply fewer_trans; [exact Hfew|apply merge_fewer]|]. destruct (Hpipe res (w2, tw2)) as (He & stored & Henc & Hview & Hb & Hsha).
  { cbn [pending tee_laws]. unfold tee_pending. destruct Hidle as [_ _ Hpc Htodo _]. cbn [snd]. by rewrite Hpc, Htodo, Hw0. }
  { done. }
  split; [done|]. exists stored. split_and!; try done. intros j Hj.
  assert (Hclosed : closed st laws key (fun i => view_at i w) idx tw2 w2 /\ Join (t_written (tw_tee tw2)) "" = stored).
  { cbn [view tee_laws] in Hview. unfold tee_view in Hview. cbn [snd] in Hview. destruct Hidle as [_ _ Hpc _ _]. rewrite Hpc in Hview.
    assert (Hret : t_pc (tw_tee tw2) = Returned None /\ Join (t_written (tw_tee tw2)) "" = stored).
    { destruct (t_pc (tw_tee tw2)) as [| | | | |[?|]]; try (apply (f_equal (fun v : gmap string string => v !! key)) in Hview; by rewrite lookup_insert_eq in Hview).
      split; [done|]. apply (f_equal (fun v : gmap string string => v !! key)) in Hview. rewrite lookup_insert_eq, lookup_singleton_eq in Hview. by injection Hview. }
    destruct Hret as [Hret ?]. split; [|done]. destruct Hend as [[_ _ Hbad _ _]|Hc]; [|exact Hc]. cbn [snd] in Hbad. by rewrite Hret in Hbad. }
  destruct Hclosed as [Hclosed <-]. apply (merge_alive key w idx tw2 w2 ms1 j Hclosed); [|done]. apply Hal. by apply merge_fewer in Hj.
Qed.

Lemma writeMultiFileAtomic_spec sched key d n ms w r w' : valid_key key = true -> tracks n ms -> writeMultiFileAtomic sched ms key d w = (r, w') ->
  (forall j, same_at j (fun q => q = key) w w') /\
  forall ms', r = Ok ms' -> fewer ms ms' /\ forall j, alive ms' j -> view_at j w' = <[key := d]> (view_at j w).
Proof.
  intros Hk Ht. unfold writeMultiFileAtomic. unfold bind at 1. destruct (putMulti ms key w) as [[[[ms1 tw] idx]|err] w1] eqn:Ep;
    apply (putMulti_spec key n) in Ep as [Hv Hok]; try done.
  2:{ intros [= <- <-]. split; [|done]. intros j q _. by rewrite Hv. }
  destruct (Hok ms1 tw idx eq_refl) as (Hfew & Hidle & Hw0 & Hal). unfold bind at 1.
  destruct (tee_Write_spec st laws Hapart key (fun j => view_at j w) idx (sched key) d tw w1 Hidle) as (rw & tw2 & w2 & -> & Hidle2 & Hw2).
  destruct (tee_Close_spec st laws Hapart key (fun j => view_at j w) idx (sched key) tw2 w2 Hidle2) as (rc & tw3 & w3 & Ec & Hclosed & Hw3 & _).
  assert (Hout : forall j, same_at j (fun q => q = key) w w3) by (destruct Hclosed as [Hs _]; exact (slots_outside key w idx tw3 w3 Hs)).
  unfold bind, of_result, throw, ret. destruct rw as [[]|err]; rewrite Ec; [|by intros [= <- <-]]. destruct rc as [[]|err]; [|by intros [= <- <-]].
  intros [= <- <-]. split; [done|]. intros ms' [= <-]. split; [eapply fewer_trans; [exact Hfew|apply merge_fewer]|].
  intros j Hj. rewrite (merge_alive key w idx tw3 w3 ms1 j Hclosed); [|by apply Hal; apply merge_fewer in Hj|done].
  rewrite Hw3, Hw2, Hw0. done.
Qed.

(** ** The commit *)

Lemma commit_all_spec tmp final js dead w : valid_key tmp = true -> valid_key final = true -> copyable tmp = true -> tmp <> final -> NoDup js -> length dead = length js ->
  (forall k j, js !! k = Some j -> dead !! k = Some false -> is_Some (view_at j w !! tmp)) ->
  exists dead' last w', commit_all (map st js) dead tmp final w = (Ok (dead', Z.of_nat (length (List.filter negb dead')), last), w') /\ length dead' = length dead /\
    (forall j, same_at j (fun q => q = tmp \/ q = final) w w') /\ (forall j, j ∉ js -> view_at j w' = view_at j w) /\
    forall k j, js !! k = Some j ->
      (dead' !! k = Some false -> dead !! k = Some false /\ view_at j w' !! final = view_at j w !! tmp) /\
      (view_at j w' !! final = view_at j w !! final \/ (dead !! k = Some false /\ view_at j w' !! final = view_at j w !! tmp)).
Proof.
  intros Ht Hf Hc Hne. revert dead w. induction js as [|i js IH]; intros [|d dead] w Hnd Hl Htmp; try done.
  { exists [], None, w. by split_and!. }
  apply NoDup_cons in Hnd as [Hi Hnd]. injection Hl as Hl. cbn [map commit_all].
  assert (Hother : forall w1 : W, (forall j, j <> i -> view_at j w1 = view_at j w) -> forall k j, js !! k = Some j -> view_at j w1 = view_at j w).
  { intros w1 Hw k j Hk. apply Hw. intros ->. apply Hi. by eapply list_elem_of_lookup_2. }
  destruct d.
  - destruct (IH dead w Hnd Hl) as (dead' & last & w' & E & Hl' & Hout & Hrest & Hspec); [intros k; apply (Htmp (S k))|].
    unfold bind. rewrite E. exists (true :: dead'), last, w'. split_and!; [done|cbn; lia|done|intros j Hj; apply Hrest; set_solver|].
    intros [|k] j; cbn [lookup list_lookup]; [|apply Hspec]. intros [= <-]. split; [done|]. left. by rewrite Hrest.
  - assert (Hs : is_Some (view_at i w !! tmp)) by by apply (Htmp 0%nat). pose proof (commit_spec (W:=W) (H:=st i) tmp final w Ht Hf Hc Hne Hs) as (Ho & Hok & Hfail & _).
    assert (Hq : forall j, j <> i -> quiet_at j w (snd (@be_Commit W (st i) tmp final w))) by (intros j Hj; by apply (apart_commit _ _ (Hapart i j (not_eq_sym Hj)))).
    unfold bind at 1, try. destruct (@be_Commit W (st i) tmp final w) as [r w1]; cbn [snd] in *.
    destruct (IH dead w1 Hnd Hl) as (dead' & last & w' & E & Hl' & Hout & Hrest & Hspec).
    { intros k j Hk Hd. rewrite (Hother w1 (fun j' Hj' => proj1 (Hq j' Hj')) k j Hk). by apply (Htmp (S k)). }
    unfold bind. rewrite E. assert (Houts : forall j, same_at j (fun q => q = tmp \/ q = final) w w').
    { intros j. etrans; [|apply Hout]. intros q Hn. destruct (decide (j = i)) as [->|Hji]; [apply Ho; tauto|]. by destruct (Hq j Hji) as [-> _]. }
    assert (Hrests : forall j, j ∉ i :: js -> view_at j w' = view_at j w).
    { intros j [Hji Hj]%not_elem_of_cons. rewrite Hrest by done. by apply Hq. }
    assert (Hspecs : forall k j, js !! k = Some j -> (dead' !! k = Some false -> dead !! k = Some false /\ view_at j w' !! final = view_at j w !! tmp) /\
      (view_at j w' !! final = view_at j w !! final \/ (dead !! k = Some false /\ view_at j w' !! final = view_at j w !! tmp))).
    { intros k j Hk. rewrite <- (Hother w1 (fun j' Hj' => proj1 (Hq j' Hj')) k j Hk). by apply Hspec. }
    assert (Hvi : view_at i w' = view_at i w1) by by apply Hrest. destruct r as [[]|err].
    + exists (false :: dead'), last, w'. split_and!; [unfold ret; cbn [List.filter negb length]; repeat f_equal; lia|cbn; lia|done..|].
      destruct (Hok w1 eq_refl) as (_ & c & Hc1 & Hv1). assert (Hm : view_at i w' !! final = view_at i w !! tmp) by (rewrite Hvi, Hv1, lookup_insert_eq; congruence).
      intros [|k] j; cbn [lookup list_lookup]; [|apply Hspecs]. intros [= <-]. split; [done|by right].
    + exists (true :: dead'), (match last with Some e => Some e | None => Some err end), w'. split_and!; [done|cbn; lia|done..|].
      intros [|k] j; cbn [lookup list_lookup]; [|apply Hspecs]. intros [= <-]. split; [done|].
      destruct (Hfail err w1 eq_refl) as [[Hsame _]|[_ Hmoved]]; [left|right; split; [done|]]; congruence.
Qed.
End storages.

(** ** The run beside a storage that is not the first *)

(** Goes through a program whose operations keep the relation. *)
Ltac keeping := repeat first
  [ progress intros
  | assumption
  | match goal with H : forall _, preserves _ _ |- preserves _ _ => solve [apply H] | H : forall _ _, preserves _ _ |- preserves _ _ => solve [apply H] end
  | apply preserves_ret; tc_solve | apply preserves_throw; tc_solve | apply preserves_of_result; tc_solve | apply preserves_read; tc_solve
  | apply preserves_try | apply preserves_wrapping | apply preserves_forM; [tc_solve|]
  | apply preserves_bind; [tc_solve| |]
  | match goal with |- preserves _ (match ?x with _ => _ end) => destruct x end ].

Section foreign.
Context {W : Type} `{Backend W, !Clock W, !Pg W, FilterLibs} (R : relation W) `{!PreOrder R}.
Hypothesis Hput : forall p, preserves R (be_Put p).
Hypothesis Hwrite : forall h p, preserves R (be_Write h p).
Hypothesis Hclose : forall h, preserves R (be_Close h).
Hypothesis Hcommit : forall t f, preserves R (be_Commit t f).
Hypothesis Hget : forall p, preserves R (be_Get p).
Hypothesis Hlist : forall p, preserves R (be_List p).
Hypothesis Hdelete : forall p, preserves R (be_Delete p).
Hypothesis Hsleep : forall d, preserves R (time_Sleep d).
Hypothesis Hswitch : preserves R pg_switch_wal.
Context (Now : W -> time).

Lemma onAddFile_keeps rc mb : preserves R (onAddFile Now rc mb).
Proof. unfold onAddFile, flush. keeping. Qed.

Lemma record_upload_keeps p e res : preserves R (record_upload Now p e res).
Proof.
  unfold record_upload. apply preserves_bind; [tc_solve|apply onAddFile_keeps|intros rc].
  match goal with |- preserves _ (match ?x with _ => _ end) => destruct x as [[start tli] mb] end. keeping.
Qed.

Lemma FindSegment_keeps tli name : preserves R (FindSegment tli name).
Proof. unfold FindSegment. keeping. Qed.

Lemma wait_loop_keeps fuel tli segs deadline delay w r w' : wait_loop fuel tli segs deadline delay w = Some (r, w') -> R w w'.
Proof.
  revert delay w. induction fuel as [|fuel IH]; intros delay w; cbn [wait_loop]; [done|].
  assert (Hm : preserves R (wrapping "WAL-wait" (missingSegments tli segs))).
  { unfold missingSegments. apply preserves_wrapping, preserves_forM; [tc_solve|]. intros out n _. apply preserves_bind; [tc_solve|apply FindSegment_keeps|keeping]. }
  specialize (Hm w). destruct (wrapping "WAL-wait" (missingSegments tli segs) w) as [[[|m ms]|e] w1]; cbn [snd] in Hm; [by intros [= _ <-]| |by intros [= _ <-]].
  destruct (deadline <? time_Now w1); [by intros [= _ <-]|]. pose proof (preserves_wrapping R "WAL-wait" _ (Hsleep delay) w1) as Hs.
  destruct (wrapping "WAL-wait" (time_Sleep delay) w1) as [[u|e] w2]; cbn [snd] in Hs; [|intros [= _ <-]; by etrans].
  intros Hrun. etrans; [exact Hm|]. etrans; [exact Hs|]. by eapply IH.
Qed.

Lemma WaitForWAL_keeps tli segs timeout : preserves R (WaitForWAL tli segs timeout).
Proof.
  intros w. unfold WaitForWAL. destruct (length segs =? 0)%nat; [done|]. destruct (wait_loop _ tli segs _ _ w) as [[r w1]|] eqn:E; [|done].
  by apply wait_loop_keeps in E.
Qed.

Lemma take_bracket_keeps opts segSize p : preserves R (take_bracket opts segSize p).
Proof.
  unfold take_bracket, switchAndCurrentLSN, AcquireBracketWAL, hashWALSegments. apply preserves_bind; [tc_solve|keeping|intros stop].
  apply preserves_bind; [tc_solve| |intros segs].
  { apply preserves_wrapping. repeat match goal with |- preserves _ (match ?x with _ => _ end) => destruct x end; keeping. apply WaitForWAL_keeps. }
  apply preserves_bind; [tc_solve| |keeping]. destruct (walRecordsNeeded _); [|keeping]. apply preserves_wrapping, preserves_forM; [tc_solve|]. intros out n _.
  apply preserves_bind; [tc_solve|apply preserves_wrapping, FindSegment_keeps|keeping].
Qed.
End foreign.

(** ** The run *)

Section run.
Context {W : Type} (st : nat -> Backend W) (laws : forall i, @BackendLaws W (st i)).
Hypothesis Hapart : forall i j, i <> j -> @apart W (st i) (st j) (laws j).

#[local] Instance first_storage : Backend W := st 0%nat.
#[local] Instance first_laws : BackendLaws W := laws 0%nat.

Context `{!Clock W, !ClockLaws W, !Pg W} (pg_laws : forall j, @PgLaws W (st j) (laws j) _ _).
Context `{!BaseBackup W} (bb_laws : forall j, @BaseBackupLaws W (st j) (laws j) _) `{FilterLibs, !Host W, !Disk W}.
Context (Now : W -> time) (sched : string -> tee -> move) (n : nat) (id : string).
Hypothesis Hid : own_id id.

Abbreviation view_at i := (@view W (st i) (laws i)).
Abbreviation same_at i := (@same_outside W (st i) (laws i)).
Abbreviation quiet_at i := (@untouched W (st i) (laws i)).

(** What happens in the first storage only is not seen in the others. *)
Lemma seen_at {A} (K : string -> Prop) (m : M W A) j : preserves (same_outside K) m -> (j <> 0%nat -> preserves (quiet_at j) m) -> preserves (same_at j K) m.
Proof.
  intros H0 Hj w. destruct j as [|j]; [apply H0|]. destruct (Hj (Nat.neq_succ_0 j) w) as [Hv _]. intros q _. by rewrite Hv.
Qed.

Lemma record_upload_at j p e res w : own_checkpoint id (l_rc p) -> same_at j (checkpoint_key id) w (snd (record_upload Now p e res w)).
Proof.
  intros Hrc. destruct j as [|j].
  - unfold record_upload. unfold bind. match goal with |- context [onAddFile Now ?rc ?mb] => destruct (onAddFile_outside Now id Hid rc mb w Hrc) as (rc' & w2 & -> & Hc & _) end.
    match goal with |- context [match ?x with _ => _ end] => destruct x as [[start tli] mb] end. exact Hc.
  - pose proof (Hapart 0%nat (S j) ltac:(done)) as [Fput Fwrite Fclose Fcommit Fget Fstat Flist Fdelete]. intros q _.
    exact (f_equal (lookup q) (proj1 (record_upload_keeps (quiet_at (S j)) Fput Fwrite Fclose Fcommit Fdelete Now p e res w))).
Qed.

Lemma take_bracket_at j opts segSize p w : same_at j wal_key w (snd (take_bracket opts segSize p w)).
Proof.
  destruct j as [|j]; [exact (take_bracket_quiet (PgLaws0:=pg_laws 0%nat) opts segSize p w)|].
  assert (Hq : forall A (m : M W A), preserves (quiet_at (S j)) m -> preserves (same_at (S j) wal_key) m).
  { intros A m Hm v q _. by destruct (Hm v) as [-> _]. }
  pose proof (Hapart 0%nat (S j) ltac:(done)) as [Fput Fwrite Fclose Fcommit Fget Fstat Flist Fdelete].
  refine (take_bracket_keeps (same_at (S j) wal_key) (fun p => Hq _ _ (Fget p)) (fun p => Hq _ _ (Flist p)) _ _ opts segSize p w).
  - intros d. apply (sleep_quiet (PgLaws:=pg_laws (S j))).
  - apply (switch_wal_quiet (PgLaws:=pg_laws (S j))).
Qed.

(** The files of [es] are noted, and in every storage that is alive. *)
Record taken (opts : BackupOptions) (es : list tar_entry) (d : progress * multiState (W:=W)) (w : W) : Prop := {
  tk_tracks : tracks st n (snd d);
  tk_noted : noted id es (fst d);
  tk_stored j : alive (snd d) j -> Forall (stored_entry id (bo_Filter opts) (view_at j w)) (regulars es);
}.

Lemma upload_multi_spec opts es p ms e w r w' : entry_ok e -> is_regular e = true -> te_Name e ∉ te_Name <$> regulars es -> Forall entry_ok (regulars es) ->
  taken opts es (p, ms) w -> upload_multi Now sched opts id p ms e w = (r, w') ->
  (forall j, same_at j (entry_keys id e) w w') /\ forall d, r = Ok d -> taken opts (es ++ [e]) d w'.
Proof.
  intros He Hreg Hnew Hes [Ht Hnt Hst] Hrun. cbn [fst snd] in *. pose proof (own_key id (te_Name e) Hid (eo_key e He)) as (_ & Hk & _).
  unfold upload_multi in Hrun. unfold bind at 1 in Hrun. destruct (store_multi sched (bo_Filter opts) ms (path_Join [id; te_Name e]) e w) as [rs w1] eqn:Es.
  destruct (store_multi_spec st laws Hapart sched _ _ e n ms w rs w1 Hk Ht Es) as [Hout Hok].
  assert (Hout1 : forall j, same_at j (entry_keys id e) w w1) by (intros j; eapply same_outside_mono; [|apply Hout]; intros q ->; by left).
  destruct rs as [[res ms1]|err]; [|by injection Hrun as <- <-]. destruct (Hok res ms1 eq_refl) as (Hfew & _ & stored & Henc & Hb & Hsha & Hv).
  unfold bind in Hrun. cbn [fst snd] in Hrun. pose proof (fun j => record_upload_at j p e res w1 (st_rc id es p Hnt)) as Hrec.
  destruct (record_upload Now p e res w1) as [[p1|err] w2] eqn:Er; cbn [snd] in Hrec; injection Hrun as <- <-.
  2:{ split; [|done]. intros j. etrans; [apply Hout1|]. eapply same_outside_mono; [|apply Hrec]. by right. }
  assert (Hout2 : forall j, same_at j (entry_keys id e) w w2).
  { intros j. etrans; [apply Hout1|]. eapply same_outside_mono; [|apply Hrec]. by right. }
  split; [done|]. intros d [= <-]. destruct (noted_upload Now id Hid es p e res w1 p1 w2 Hreg Hnt Hb Hsha Er) as [Hnt' _].
  split; cbn [fst snd]; [by eapply tracks_fewer|done|]. intros j Hj. destruct Hfew as (_ & _ & Hfew).
  apply (stored_upload (H:=st j) (H0:=laws j) id Hid _ es e w w2 Hes He Hreg Hnew); [apply Hout2|by apply Hst, Hfew|].
  apply (stored_entry_outside (H:=st j) (H0:=laws j) id (checkpoint_key id) _ _ w1 w2); [apply Hrec|by apply checkpoint_not_entry|].
  exists stored. rewrite (Hv j Hj). split; [apply lookup_insert_eq|done].
Qed.

Lemma take_multi_spec opts es e d w r w' : String.eqb (bo_Type opts) TypeIncremental = false -> stream_ok (es ++ [e]) -> taken opts es d w ->
  take_multi Now sched opts id None d e w = (r, w') ->
  (forall j, same_at j (hidden_key id) w w') /\ forall d', r = Ok d' -> taken opts (es ++ [e]) d' w'.
Proof.
  intros Hfull [Hes Hnd _] Htk. rewrite regulars_app in Hes, Hnd. apply Forall_app in Hes as [Hes He]. rewrite fmap_app in Hnd. apply NoDup_app in Hnd as (_ & Hnew & _).
  unfold take_multi. destruct d as [p ms]. rewrite Hfull, andb_false_r. cbn [option_bind mbind negb]. rewrite !andb_true_r.
  change (negb (Ascii.eqb (te_Typeflag e) TypeDir) && (Ascii.eqb (te_Typeflag e) "000" || Ascii.eqb (te_Typeflag e) "0")) with (is_regular e).
  destruct (is_regular e) eqn:Hreg; cbn [andb]; [destruct (Contains (te_Name e) ".." || HasPrefix (te_Name e) "/") eqn:Href; cbn [negb]|].
  - unfold take_entry, bind. unfold is_regular in Hreg. apply andb_true_iff in Hreg as [Hd%negb_true_iff Hr]. by rewrite Hd, <- negb_orb, Hr, Href; intros [= <- <-].
  - unfold regulars in He, Hnew. cbn [List.filter] in He, Hnew. rewrite Hreg in He, Hnew. rewrite Forall_singleton in He. intros Hrun.
    apply (upload_multi_spec opts es) in Hrun as [Hout Hok]; try done; [|intros Hin; apply (Hnew (te_Name e)); [done|by apply list_elem_of_singleton]].
    split; [|done]. intros j. eapply same_outside_mono; [|apply Hout]. intros q. by apply entry_keys_hidden.
  - assert (Hskip : forall p', l_mb p' = l_mb p -> l_fileCount p' = l_fileCount p -> l_dirs p' = l_dirs p ++ entry_dir e ->
      l_pgManifest p' = l_pgManifest p -> l_rc p' = l_rc p -> taken opts (es ++ [e]) (p', ms) w).
    { destruct Htk as [Ht Hnt Hst]. intros p' E1 E2 E3 E4 E5. split; cbn [fst snd] in *; [done|by eapply noted_skip|]. intros j Hj.
      rewrite regulars_app. unfold regulars at 2. cbn [List.filter]. rewrite Hreg, app_nil_r. by apply Hst. }
    unfold take_entry, bind. unfold is_regular in Hreg. unfold entry_dir in Hskip. destruct (Ascii.eqb (te_Typeflag e) TypeDir); cbn [negb andb] in Hreg.
    + intros [= <- <-]. split; [done|]. intros d' [= <-]. apply Hskip; try (by destruct (_ && _)). by destruct (_ && _); cbn [l_dirs]; rewrite ?app_nil_r.
    + rewrite <- negb_orb, Hreg. intros [= <- <-]. split; [done|]. intros d' [= <-]. apply Hskip; try done. by rewrite app_nil_r.
Qed.

Lemma take_all_spec opts l es d w r w' : String.eqb (bo_Type opts) TypeIncremental = false -> stream_ok (es ++ l) -> taken opts es d w ->
  forM l d (take_multi Now sched opts id None) w = (r, w') ->
  (forall j, same_at j (hidden_key id) w w') /\ forall d', r = Ok d' -> taken opts (es ++ l) d' w'.
Proof.
  intros Hfull. revert es d w. induction l as [|e l IH]; intros es d w Hok Htk; cbn [forM].
  - intros [= <- <-]. split; [done|]. intros d' [= <-]. by rewrite app_nil_r.
  - replace (es ++ e :: l) with ((es ++ [e]) ++ l) in * by by rewrite <- app_assoc. unfold bind.
    destruct (take_multi Now sched opts id None d e w) as [r1 w1] eqn:E1. pose proof (take_multi_spec opts es e d w r1 w1 Hfull (stream_ok_prefix _ _ Hok) Htk E1) as [Hh Hnext].
    destruct r1 as [d1|err]; [|by intros [= <- <-]]. intros Hrun. destruct (IH (es ++ [e]) d1 w1 Hok (Hnext _ eq_refl) Hrun) as [Hh2 Hrest].
    split; [|done]. intros j. etrans; [apply Hh|apply Hh2].
Qed.

(** *** Publishing *)

Abbreviation man := (path_Join [id; "backup_manifest"]).

(** The backup is whole in every storage but [partial] ones. *)
Definition whole_but (opts : BackupOptions) (sysID : Z) (es : list tar_entry) (partial : Z) (w : W) : Prop :=
  exists dead, length dead = n /\ partial = Z.of_nat (length (List.filter (fun d => d) dead)) /\ 0 <= partial < Z.of_nat n /\
    forall j, dead !! j = Some false -> complete_backup id opts sysID es (view_at j w).

Lemma dead_or_alive dead : length dead = (length (List.filter (fun d : bool => d) dead) + length (List.filter negb dead))%nat.
Proof. induction dead as [|[] dead IH]; cbn; lia. Qed.

Lemma kept_at j m (w w' : W) : m ∈ reserved_names -> same_at j (fun q => q = path_Join [id; m]) w w' -> same_at j (kept_key id) w w'.
Proof. intros Hm. apply same_outside_mono. intros q ->. by exists m. Qed.

Lemma other_at j a b (w w' : W) : valid_key a = true -> valid_key b = true -> b <> a -> same_at j (fun q => q = path_Join [id; a]) w w' ->
  view_at j w' !! path_Join [id; b] = view_at j w !! path_Join [id; b].
Proof. intros Ha Hb Hne Ho. by apply (own_file_other (H:=st j) (H0:=laws j) id a b _ w w'). Qed.

(** A storage that took the manifest, the sidecar and the commit. *)
Lemma published_at opts es sysID p stop now records j (w w1 w2 w3 : W) : stream_ok es -> String.eqb (bo_Type opts) TypeIncremental = false -> noted id es p ->
  Forall (stored_entry id (bo_Filter opts) (view_at j w)) (regulars es) -> Forall segment_ok records ->
  same_at j (fun q => q = path_Join [id; "backup_manifest.tmp"]) w w1 -> same_at j (fun q => q = path_Join [id; "Storage-Metadata.json"]) w1 w2 ->
  same_at j (fun q => q = path_Join [id; "backup_manifest.tmp"] \/ q = man) w2 w3 ->
  view_at j w2 !! path_Join [id; "Storage-Metadata.json"] = Some (MarshalIndent 0 (sidecar_json (backup_sidecar opts sysID p records))) ->
  view_at j w3 !! man = Some (manifest_bytes p stop now) -> complete_backup id opts sysID es (view_at j w3).
Proof.
  intros Hes Hfull Hnt Hst Hrec Ho1 Ho2 Ho3 Hside Hm.
  apply (published (H:=st j) (H0:=laws j) id opts es p w stop now sysID records w3 Hid Hes Hfull); [by split|done| | |done].
  - rewrite <- Hside. apply Ho3. intros [E|E]; by apply own_key_inj in E.
  - etrans; [apply (kept_at j "backup_manifest.tmp"); [unfold reserved_names; in_list|apply Ho1]|].
    etrans; [apply (kept_at j "Storage-Metadata.json"); [unfold reserved_names; in_list|apply Ho2]|].
    eapply same_outside_mono; [|apply Ho3]. intros q [->| ->]; [exists "backup_manifest.tmp"|exists "backup_manifest"]; (split; [unfold reserved_names; in_list|done]).
Qed.

Lemma publish_multi_spec opts ms es sysID p stop records w r w' : stream_ok es -> String.eqb (bo_Type opts) TypeIncremental = false ->
  taken opts es (p, ms) w -> Forall segment_ok records -> publish_multi Now sched opts ms id sysID p stop records w = (r, w') ->
  (forall j, view_at j w' !! man = view_at j w !! man \/ complete_backup id opts sysID es (view_at j w')) /\
  forall partial, r = Ok partial -> whole_but opts sysID es partial w'.
Proof.
  intros Hes Hfull [Ht Hnt Hst] Hrec. cbn [fst snd] in *. unfold publish_multi. unfold bind at 1, read. set (text := manifest_bytes p stop (Now w)).
  set (tmp := path_Join [id; "backup_manifest.tmp"]). set (side := path_Join [id; "Storage-Metadata.json"]).
  destruct (own_key id "backup_manifest.tmp" Hid eq_refl) as (_ & Hkt & _), (own_key id "Storage-Metadata.json" Hid eq_refl) as (_ & Hks & _), (own_key id "backup_manifest" Hid eq_refl) as (_ & Hkm & _).
  unfold bind at 1, wrapping at 1. destruct (writeMultiFileAtomic sched ms tmp text w) as [r1 w1] eqn:E1.
  destruct (writeMultiFileAtomic_spec st laws Hapart sched tmp text n ms w r1 w1 Hkt Ht E1) as [Ho1 Hok1].
  assert (Hm1 : forall j, view_at j w1 !! man = view_at j w !! man) by (intros j; by apply (other_at j "backup_manifest.tmp")).
  destruct r1 as [ms1|err]; cbn [map_error]; [|intros [= <- <-]; split; [intros j; by left|done]]. destruct (Hok1 ms1 eq_refl) as [Hf1 Hv1].
  unfold bind at 1, of_result. cbn [MarshalSidecar map_error]. set (sct := MarshalIndent 0 _).
  unfold bind at 1, wrapping at 1. destruct (writeMultiFileAtomic sched ms1 side sct w1) as [r2 w2] eqn:E2.
  destruct (writeMultiFileAtomic_spec st laws Hapart sched side sct n ms1 w1 r2 w2 Hks (tracks_fewer st n ms ms1 Ht Hf1) E2) as [Ho2 Hok2].
  assert (Hm2 : forall j, view_at j w2 !! man = view_at j w !! man) by (intros j; rewrite <- Hm1; by apply (other_at j "Storage-Metadata.json")).
  destruct r2 as [ms2|err]; cbn [map_error]; [|intros [= <- <-]; split; [intros j; by left|done]]. destruct (Hok2 ms2 eq_refl) as [Hf2 Hv2].
  pose proof (tracks_fewer st n ms ms2 Ht (fewer_trans _ _ _ Hf1 Hf2)) as [Hb2 Hl2].
  assert (Htmp2 : forall j, alive ms2 j -> view_at j w2 !! tmp = Some text).
  { intros j Hj. rewrite (Hv2 j Hj). assert (Hne : side <> tmp) by (intros E; by apply own_key_inj in E). rewrite lookup_insert_ne, Hv1, lookup_insert_eq by (done || by apply Hf2). done. }
  assert (Hne : tmp <> man) by (intros E; by apply own_key_inj in E).
  destruct (commit_all_spec st laws Hapart tmp man (seq 0 n) (ms_dead ms2) w2 Hkt Hkm (own_copyable id "backup_manifest.tmp" Hid eq_refl eq_refl) Hne (NoDup_seq 0 n))
    as (dead & last & w3 & Ec & Hld & Ho3 & Hr3 & Hc); [by rewrite length_seq| |].
  { intros k j [-> _]%lookup_seq Hk. rewrite Htmp2 by done. by eexists. }
  unfold bind at 1, commitMulti, bind. rewrite Hb2, Ec. unfold ret, throw. set (alive3 := Z.of_nat (length (List.filter negb dead))).
  assert (Hcomplete : forall j, alive ms2 j -> view_at j w3 !! man = view_at j w2 !! tmp -> complete_backup id opts sysID es (view_at j w3)).
  { intros j Hj Hm. assert (Haj : alive ms j) by by apply Hf1, Hf2. rewrite (Htmp2 j Hj) in Hm.
    by apply (published_at opts es sysID p stop (Now w) records j w w1 w2 w3); try done; [apply Hst|rewrite (Hv2 j Hj); apply lookup_insert_eq]. }
  assert (Hall : forall j, view_at j w3 !! man = view_at j w !! man \/ complete_backup id opts sysID es (view_at j w3)).
  { intros j. destruct (decide (j < n)%nat) as [Hj|Hj].
    - destruct (Hc j j) as [_ [Hsame|[Hal Hmoved]]]; [by apply lookup_seq|left; by rewrite Hsame|right; by apply Hcomplete].
    - left. rewrite <- Hm2, Hr3; [done|]. intros [_ ?]%elem_of_seq. lia. }
  destruct (Z.eqb_spec alive3 0) as [Hz|Hz]; intros [= <- <-]; (split; [done|]); [done|]. intros partial [= <-]. exists dead. pose proof (dead_or_alive dead) as Hda.
  split; [congruence|]. split; [done|]. unfold failedCount. cbn [ms_dead]. split; [lia|]. intros j Hj. pose proof (lookup_lt_Some _ _ _ Hj) as Hlt.
  destruct (Hc j j) as [Hok _]; [apply lookup_seq; lia|]. destruct (Hok Hj) as [Hal Hm]. by apply Hcomplete.
Qed.

(** *** From the stream to the end *)

Lemma hidden_man : ~ hidden_key id man.
Proof. by apply hidden_not_manifest. Qed.

Lemma wal_hidden j (w w' : W) : same_at j wal_key w w' -> same_at j (hidden_key id) w w'.
Proof. apply same_outside_mono. intros q Hq. by left. Qed.

(** What a storage may come to, and what a result says. *)
Definition multi_outcome (opts : BackupOptions) (sysID : Z) (es : list tar_entry) (err : option error) (w : W) (r : result (BackupResult * Z)) (w' : W) : Prop :=
  (forall j, view_at j w' !! man = view_at j w !! man \/ (err = None /\ complete_backup id opts sysID es (view_at j w'))) /\
  forall res partial, r = Ok (res, partial) -> err = None /\ br_BackupID res = id /\ br_Files res = Z.of_nat (length (regulars es)) /\ whole_but opts sysID es partial w'.

Lemma failed_outcome opts sysID es err e (w w' : W) : (forall j, same_at j (hidden_key id) w w') -> multi_outcome opts sysID es err w (Fail e) w'.
Proof. intros Hh. split; [|done]. intros j. left. apply Hh, hidden_man. Qed.

Lemma outcome_after opts sysID es err w0 w r w' : (forall j, same_at j (hidden_key id) w0 w) -> multi_outcome opts sysID es err w r w' -> multi_outcome opts sysID es err w0 r w'.
Proof. intros Hh [Hj Hr]. split; [|done]. intros j. rewrite <- (Hh j man hidden_man). apply Hj. Qed.

Lemma outcome_quiet opts sysID es err w r w' w'' : stream_ok es -> (forall j, same_at j wal_key w' w'') -> multi_outcome opts sysID es err w r w' -> multi_outcome opts sysID es err w r w''.
Proof.
  intros Hes Hq [Hj Hr]. assert (Hc : forall j, complete_backup id opts sysID es (view_at j w') -> complete_backup id opts sysID es (view_at j w'')).
  { intros j. by apply (complete_quiet (H:=st j) (H0:=laws j) id opts sysID es w' w''). }
  split.
  - intros j. destruct (Hj j) as [Hsame|[? ?]]; [left|right; by split; [|apply Hc]]. rewrite <- Hsame. apply Hq. by apply (own_key id "backup_manifest" Hid).
  - intros res partial E. destruct (Hr res partial E) as (? & ? & ? & dead & ? & ? & ? & Hd). split_and!; try done. exists dead. split_and!; try done; try lia. intros j ?. by apply Hc, Hd.
Qed.

Lemma finish_multi opts cid es err p ms w r w' : stream_ok es -> String.eqb (bo_Type opts) TypeIncremental = false -> taken opts es (p, ms) w ->
  (match err with Some err => throw (Errorf_w "backup: tar.Next" err) | None => ret tt end ;;;
   wrapping "backup: pg_basebackup" bb_Close ;;;
   if negb (l_labelSeen p) then throw (errors_New "backup: backup_label not present in tar")
   else b <- take_bracket opts (id_WALSegmentSize cid) p ;;
        partial <- publish_multi Now sched opts ms id (id_SystemIdentifier cid) p (fst b) (snd b) ;;
        ret ({| br_BackupID := id; br_StartLSN := l_startLSN p; br_StopLSN := fst b; br_Timeline := l_timeline p;
                br_Files := l_fileCount p; br_Bytes := l_bytesTotal p |}, partial)) w = (r, w') ->
  multi_outcome opts (id_SystemIdentifier cid) es err w r w'.
Proof.
  intros Hes Hfull Htk. destruct err as [err|]; [by intros [= <- <-]; apply failed_outcome|]. unfold bind at 1, ret at 1. unfold bind at 1.
  pose proof (fun j => preserves_wrapping _ "backup: pg_basebackup" _ (close_quiet (BaseBackupLaws:=bb_laws j)) w) as Hc.
  destruct (wrapping "backup: pg_basebackup" bb_Close w) as [[[]|e] w1]; cbn [snd] in Hc; [|intros [= <- <-]; apply failed_outcome; intros j; apply wal_hidden, Hc].
  destruct (negb (l_labelSeen p)); [intros [= <- <-]; apply failed_outcome; intros j; apply wal_hidden, Hc|]. unfold bind at 1.
  pose proof (fun j => take_bracket_at j opts (id_WALSegmentSize cid) p w1) as Hb. pose proof (take_bracket_records opts (id_WALSegmentSize cid) p w1) as Hrec.
  destruct (take_bracket opts (id_WALSegmentSize cid) p w1) as [[[stop records]|e] w2]; cbn [snd] in Hb.
  2:{ intros [= <- <-]. apply failed_outcome. intros j. etrans; apply wal_hidden; [apply Hc|apply Hb]. }
  assert (Htk2 : taken opts es (p, ms) w2).
  { destruct Htk as [Ht Hnt Hst]. split; [done..|]. intros j Hj. specialize (Hst j Hj). destruct Hes as [Hes _ _]. rewrite Forall_forall in *. intros e He.
    assert (Hnw : ~ wal_key (entry_key id e)) by (apply (own_key id (te_Name e) Hid), Hes, He).
    apply (stored_entry_outside (H:=st j) (H0:=laws j) id wal_key _ _ w w2); [|done|by apply Hst]. etrans; [apply Hc|apply Hb]. }
  unfold bind. cbn [fst snd]. destruct (publish_multi Now sched opts ms id (id_SystemIdentifier cid) p stop records w2) as [rp w3] eqn:Ep.
  apply (publish_multi_spec opts ms es) in Ep as [Hj Hok]; [|done..|by apply (Hrec stop _ w2)]. intros Hrun.
  apply (outcome_after _ _ _ _ w w2); [intros j; etrans; apply wal_hidden; [apply Hc|apply Hb]|].
  assert (w' = w3) as -> by (by destruct rp; injection Hrun). split.
  - intros j. destruct (Hj j) as [?|?]; [by left|by right].
  - destruct rp as [partial|err]; injection Hrun as <- ; [|done]. intros res partial' [= <- <-]. cbn. split_and!; try done; [apply Htk|by apply Hok].
Qed.

Lemma runSimple_multi_spec opts w cid w1 r w' : String.eqb (bo_Type opts) TypeIncremental = false ->
  prepare_backup Now opts (Now w) w = (Ok (cid, id, None), w1) -> runSimple_multi Now sched opts (map st (seq 0 n)) w = (r, w') ->
  (exists e w2, bb_Start "" (wal_method opts) w1 = (Fail e, w2) /\ isOk r = false /\ forall j, view_at j w' !! man = view_at j w1 !! man) \/
  exists es err w2, bb_Start "" (wal_method opts) w1 = (Ok (es, err), w2) /\ stream_ok es /\ multi_outcome opts (id_SystemIdentifier cid) es err w1 r w'.
Proof.
  intros Hfull Hprep. unfold runSimple_multi. unfold bind at 1, read. unfold bind at 1. rewrite Hprep, Hfull. cbn [fst snd]. unfold stream_multi. fold (wal_method opts).
  unfold bind at 1, wrapping at 1. pose proof (fun j => start_quiet (BaseBackupLaws:=bb_laws j) "" (wal_method opts) w1) as Hs.
  destruct (bb_Start "" (wal_method opts) w1) as [[[es err]|e] w2] eqn:Es; cbn [snd map_error] in *.
  2:{ intros [= <- <-]. left. exists e, w2. split_and!; [done|done|]. intros j. apply Hs. by apply (own_key id "backup_manifest" Hid). }
  pose proof (start_ok (BaseBackupLaws:=bb_laws 0%nat) _ _ _ _ _ Es) as Hes. intros Hrun. right. exists es, err, w2. split; [done|]. split; [done|].
  apply (outcome_after _ _ _ _ w1 w2); [intros j; apply wal_hidden, Hs|]. revert Hrun. cbn [fst snd]. unfold bind at 1, try at 1.
  match goal with |- context [bind (forM es ?d0 ?body) ?k] => destruct (bind (forM es d0 body) k w2) as [r1 w3] eqn:E1 end.
  pose proof (fun j => preserves_try _ _ (close_quiet (BaseBackupLaws:=bb_laws j)) w3) as Hc. unfold bind, of_result.
  destruct (try bb_Close w3) as [[rc|e] w4] eqn:E2; cbn [snd] in Hc; [|unfold try in E2; by destruct (bb_Close w3)].
  intros [= <- <-]. apply (outcome_quiet _ _ _ _ _ _ w3); [done|exact Hc|]. revert E1. unfold bind at 1.
  match goal with |- context [forM es ?d0 ?body w2] => destruct (forM es d0 body w2) as [ra w5] eqn:Ea end.
  apply (take_all_spec opts es []) in Ea as [Hh Hok]; [|done|done|].
  - destruct ra as [[p ms]|e]; [|by intros [= <- <-]; apply failed_outcome]. intros Hrest. apply (outcome_after _ _ _ _ w2 w5); [done|].
    by apply (finish_multi opts cid es err p ms w5 r1 w3 Hes Hfull (Hok _ eq_refl)).
  - split; [split; [done|cbn; by rewrite repeat_length, length_map, length_seq]|by apply (streamed_start (H:=st 0%nat) (H0:=laws 0%nat) id opts cid (Now w) w2)|].
    intros j _. by constructor.
Qed.
End run.

(** C8: a full backup that takes up no unfinished one ([prepare_backup] finds none to resume), into several storages
    that have nothing to do with each other: however the goroutines of the
    tees run and whichever operations fail, every storage's manifest is as it was or that storage has the whole
    backup; a run that succeeds leaves the whole backup in all storages but the number it reports as failed, which
    is less than all of them. *)
Theorem runSimple_multi_atomic {W : Type} (st : nat -> Backend W) (laws : forall j, @BackendLaws W (st j))
    (Hapart : forall i j, i <> j -> @apart W (st i) (st j) (laws j))
    `{!Clock W, @ClockLaws W (st 0%nat) _, !Pg W} (pg_laws : forall j, @PgLaws W (st j) (laws j) _ _)
    `{!BaseBackup W} (bb_laws : forall j, @BaseBackupLaws W (st j) (laws j) _) `{FilterLibs, !Host W, !Disk W}
    (Now : W -> time) sched n opts w cid id w1 r w' :
  String.eqb (bo_Type opts) TypeIncremental = false ->
  prepare_backup (H:=st 0%nat) Now opts (Now w) w = (Ok (cid, id, None), w1) ->
  runSimple_multi (H:=st 0%nat) Now sched opts (map st (seq 0 n)) w = (r, w') ->
  (forall j, @view W _ (laws j) w' !! path_Join [id; "backup_manifest"] = @view W _ (laws j) w1 !! path_Join [id; "backup_manifest"] \/
     exists es, complete_backup id opts (id_SystemIdentifier cid) es (@view W _ (laws j) w')) /\
  forall res partial, r = Ok (res, partial) -> exists es w2, bb_Start "" (wal_method opts) w1 = (Ok (es, None), w2) /\
    br_BackupID res = id /\ br_Files res = Z.of_nat (length (regulars es)) /\
    exists dead, length dead = n /\ partial = Z.of_nat (length (List.filter (fun d => d) dead)) /\ 0 <= partial < Z.of_nat n /\
      forall j, dead !! j = Some false -> complete_backup id opts (id_SystemIdentifier cid) es (@view W _ (laws j) w').
Proof.
  intros Hfull Hprep Hrun. pose proof (prepare_backup_fresh (H:=st 0%nat) _ _ _ _ _ _ _ Hprep) as Hid.
  destruct (runSimple_multi_spec st laws Hapart pg_laws bb_laws Now sched n id Hid opts w cid w1 r w' Hfull Hprep Hrun)
    as [(e & w2 & _ & Hr & Hm)|(es & err & w2 & Hs & _ & Hm & Hok)].
  - split; [intros j; by left|]. intros res partial ->. discriminate Hr.
  - split; [intros j; destruct (Hm j) as [?|[_ ?]]; [by left|right; by exists es]|].
    intros res partial Hr. destruct (Hok res partial Hr) as (-> & ? & ? & ?). by exists es, w2.
Qed.

(** ** Three storages, of which the second fails *)

#[local] Instance fleet_basebackup : BaseBackup fleet := { bb_Start _ _ := ret (sample_stream, None); bb_Close := ret tt }.

#[local] Instance fleet_basebackup_laws j : @BaseBackupLaws fleet (fleet_storage j) (fleet_laws j) _.
Proof.
  split; [intros; apply preserves_ret; tc_solve|apply preserves_ret; tc_solve|].
  intros wal w es err w' [= <- _ _]. apply sample_stream_ok.
Qed.

Definition fleet_now (w : fleet) : time := backup_now (w 0%nat).

(** The second storage refuses its sixth operation. *)
Definition three_storages : fleet := fun j => match j with
  | 0%nat => backup_world
  | 1%nat => start_world ∅ ∅ [false; false; false; false; false; true] []
  | _ => start_world ∅ ∅ [] []
  end.

(** The goroutines go on only where the caller cannot. *)
Definition caller_first (key : string) (t : tee) : move := MCaller true.

Definition fleet_prepared : fleet := snd (prepare_backup (H:=fleet_storage 0) (H5:=framing_libs) fleet_now backup_options (fleet_now three_storages) three_storages).
Definition fleet_backed_up : fleet :=
  snd (runSimple_multi (H:=fleet_storage 0) (H5:=framing_libs) fleet_now caller_first backup_options (map fleet_storage (seq 0 3)) three_storages).

Lemma fleet_prepares : prepare_backup (H:=fleet_storage 0) (H5:=framing_libs) fleet_now backup_options (fleet_now three_storages) three_storages =
  (Ok (backup_identity, "20260401T100000F", None), fleet_prepared).
Proof.
  refine (run_eq (prepare_backup (H:=fleet_storage 0) (H5:=framing_libs) fleet_now backup_options (fleet_now three_storages)) three_storages
    (Ok (backup_identity, "20260401T100000F", None)) _). vm_compute. reflexivity.
Qed.

Lemma fleet_runs : runSimple_multi (H:=fleet_storage 0) (H5:=framing_libs) fleet_now caller_first backup_options (map fleet_storage (seq 0 3)) three_storages =
  (Ok (backup_result, 1), fleet_backed_up).
Proof.
  refine (run_eq (runSimple_multi (H:=fleet_storage 0) (H5:=framing_libs) fleet_now caller_first backup_options (map fleet_storage (seq 0 3)))
    three_storages (Ok (backup_result, 1)) _). vm_compute. reflexivity.
Qed.

Lemma fleet_second_failed : @view fleet _ (fleet_laws 1) fleet_backed_up !! path_Join ["20260401T100000F"; "backup_manifest"] = None.
Proof. vm_compute. reflexivity. Qed.

(** The first and the third storage have the backup. *)
Lemma runSimple_multi_atomic_witness : exists es,
  complete_backup (H1:=framing_libs) "20260401T100000F" backup_options 7 es (@view fleet _ (fleet_laws 0) fleet_backed_up) /\
  complete_backup (H1:=framing_libs) "20260401T100000F" backup_options 7 es (@view fleet _ (fleet_laws 2) fleet_backed_up).
Proof.
  destruct (runSimple_multi_atomic (H0:=framing_libs) fleet_storage fleet_laws fleet_apart fleet_pg_laws fleet_basebackup_laws fleet_now caller_first 3
    backup_options three_storages backup_identity "20260401T100000F" fleet_prepared (Ok (backup_result, 1)) fleet_backed_up eq_refl fleet_prepares fleet_runs)
    as [_ Hok]. destruct (Hok backup_result 1 eq_refl) as (es & w2 & _ & _ & _ & dead & Hl & Hp & _ & Hc). exists es.
  destruct dead as [|d0 [|d1 [|d2 [|]]]]; try discriminate Hl. destruct d1.
  - destruct d0, d2; try discriminate Hp. split; [exact (Hc 0%nat eq_refl)|exact (Hc 2%nat eq_refl)].
  - destruct (Hc 1%nat eq_refl) as [[(text & files & Hm & _) _] _]. pose proof (eq_trans (eq_sym fleet_second_failed) Hm) as Hn. discriminate Hn.
Defined.
