(* ===== verification/Rpc.v ===== *)
(** * The RPC wire

    [internal/transport/rpc]: the frames of [dual_codec.go], the two codecs that [net/rpc] drives,
    and the messages of [rpc.go]. The bytes a connection still holds are its reader. *)

From S2P Require Import Prelude Sha256 Lsn Time Incremental.

(** ** Big-endian integers: [binary.BigEndian] *)

Fixpoint put_be (k : nat) (v : Z) : string :=
  match k with
  | O => ""
  | S k' => String (byte_of (v / 256 ^ Z.of_nat k')) (put_be k' v)
  end.

Fixpoint be_acc (acc : Z) (s : string) : Z :=
  match s with
  | "" => acc
  | String c s' => be_acc (acc * 256 + byte_val c) s'
  end.

Definition be_uint (s : string) : Z := be_acc 0 s.

(** ** Frames *)

Definition discJSON : ascii := "J".
Definition discGob : ascii := "G".
Definition kindRequest : ascii := "q".
Definition kindResponse : ascii := "r".

(** [frame] *)
Record frame := {
  f_disc : ascii;
  f_seq : Z;
  f_kind : ascii;
  f_method : string;
  f_errMsg : string;
  f_body : string;
}.

Definition zero_frame : frame :=
  {| f_disc := "000"; f_seq := 0; f_kind := "000"; f_method := ""; f_errMsg := ""; f_body := "" |}.

(** [writeLenPrefixed]: the length is that of [uint32]. *)
Definition writeLenPrefixed (p : string) : string := put_be 4 (u32 (Z.of_nat (slen p))) +:+ p.

(** The buffer [writeFrame] composes. *)
Definition frame_bytes (f : frame) : string :=
  String (f_disc f) (put_be 8 (f_seq f) +:+
  String (f_kind f) (writeLenPrefixed (f_method f) +:+ writeLenPrefixed (f_errMsg f) +:+ writeLenPrefixed (f_body f))).

(** [binary.Read] of a number of [k] bytes, and of one byte. *)
Definition read_be (k : nat) : M string Z := b <- io_ReadFull (Z.of_nat k) ;; ret (be_uint b).

Definition read_byte : M string ascii :=
  b <- io_ReadFull 1 ;; ret (match b with String c _ => c | "" => "000"%char end).

(** [readLenPrefixed] *)
Definition readLenPrefixed : M string string :=
  n <- read_be 4 ;;
  if n =? 0 then ret "" else io_ReadFull n.

(** [readFrame] *)
Definition readFrame : M string frame :=
  disc <- read_byte ;;
  if negb (Ascii.eqb disc discJSON) && negb (Ascii.eqb disc discGob)
  then throw (errors_New "dualcodec: bad discriminator")
  else
    seq <- read_be 8 ;;
    kind <- read_byte ;;
    if negb (Ascii.eqb kind kindRequest) && negb (Ascii.eqb kind kindResponse)
    then throw (errors_New "dualcodec: bad kind")
    else
      method <- readLenPrefixed ;;
      errMsg <- readLenPrefixed ;;
      body <- readLenPrefixed ;;
      ret {| f_disc := disc; f_seq := seq; f_kind := kind; f_method := method; f_errMsg := errMsg; f_body := body |}.

(** ** The codecs

    The two encodings of bodies are parameters: [encoding/json] and [encoding/gob] by reflection
    over the messages, of which [Body] is the sum. *)

Class Bodies (Body : Type) := {
  json_Marshal : Body -> result string;
  gob_Encode : Body -> result string;
  json_Unmarshal : string -> result Body;
  gob_Decode : string -> result Body;
}.

(** [rpc.Request] and [rpc.Response] *)
Record Request := { rq_ServiceMethod : string; rq_Seq : Z }.
Record Response := { rs_ServiceMethod : string; rs_Seq : Z; rs_Error : string }.

(** [serverCodec]: what its connection still holds, what was written to it, and the last request. *)
Record serverCodec := { sv_in : string; sv_out : string; sv_pending : frame }.

(** [clientCodec]; the methods that are sent in gob are constant. *)
Record clientCodec := { cl_in : string; cl_out : string; cl_pendingDisc : gmap Z ascii; cl_lastFrame : frame }.

(** [gobMethods] *)
Definition gobMethods : list string := ["WorkerService.StreamChunk"].

(** Runs a reader on the connection of a codec. *)
Definition on_in {S A} (get : S -> string) (set : string -> S -> S) (m : M string A) : M S A := fun s =>
  let '(r, rest) := m (get s) in (r, set rest s).

Definition set_sv_in (i : string) (c : serverCodec) : serverCodec := {| sv_in := i; sv_out := sv_out c; sv_pending := sv_pending c |}.
Definition set_cl_in (i : string) (c : clientCodec) : clientCodec :=
  {| cl_in := i; cl_out := cl_out c; cl_pendingDisc := cl_pendingDisc c; cl_lastFrame := cl_lastFrame c |}.

Section codecs.
Context {Body : Type} `{Bodies Body}.

(** [encodeBody] *)
Definition encodeBody (disc : ascii) (body : option Body) : result string :=
  match body with
  | None => Ok ""
  | Some b => if Ascii.eqb disc discJSON then json_Marshal b
              else if Ascii.eqb disc discGob then gob_Encode b
              else Fail (errors_New "dualcodec: encode: bad disc")
  end.

(** [decodeBody]; [None] leaves the caller's value as it is. *)
Definition decodeBody (disc : ascii) (payload : string) : result (option Body) :=
  if String.eqb payload "" then Ok None
  else if Ascii.eqb disc discJSON then map_result Some (json_Unmarshal payload)
  else if Ascii.eqb disc discGob then map_result Some (gob_Decode payload)
  else Fail (errors_New "dualcodec: decode: bad disc").

(** [serverCodec.ReadRequestHeader] *)
Definition ReadRequestHeader : M serverCodec Request :=
  f <- on_in sv_in set_sv_in readFrame ;;
  if negb (Ascii.eqb (f_kind f) kindRequest) then throw (errors_New "dualcodec server: expected request")
  else
    update (fun c => {| sv_in := sv_in c; sv_out := sv_out c; sv_pending := f |}) ;;;
    ret {| rq_ServiceMethod := f_method f; rq_Seq := f_seq f |}.

(** [serverCodec.ReadRequestBody] *)
Definition ReadRequestBody : M serverCodec (option Body) :=
  f <- read sv_pending ;;
  of_result (decodeBody (f_disc f) (f_body f)).

(** [serverCodec.WriteResponse]. The lock it takes is not that of [ReadRequestHeader], which sets [pending] without one while calls
    run: here the two take turns, so that a response sees one request or the other; the source has a data race on the field. *)
Definition WriteResponse (resp : Response) (body : option Body) : M serverCodec unit :=
  pending <- read sv_pending ;;
  bs <- (if String.eqb (rs_Error resp) "" then of_result (encodeBody (f_disc pending) body) else ret "") ;;
  let out := {| f_disc := f_disc pending; f_seq := rs_Seq resp; f_kind := kindResponse; f_method := rs_ServiceMethod resp;
                f_errMsg := rs_Error resp; f_body := bs |} in
  update (fun c => {| sv_in := sv_in c; sv_out := sv_out c +:+ frame_bytes out; sv_pending := sv_pending c |}).

(** [clientCodec.WriteRequest] *)
Definition WriteRequest (req : Request) (body : option Body) : M clientCodec unit :=
  let disc := if bool_decide (rq_ServiceMethod req ∈ gobMethods) then discGob else discJSON in
  bs <- of_result (encodeBody disc body) ;;
  let f := {| f_disc := disc; f_seq := rq_Seq req; f_kind := kindRequest; f_method := rq_ServiceMethod req; f_errMsg := ""; f_body := bs |} in
  update (fun c => {| cl_in := cl_in c; cl_out := cl_out c +:+ frame_bytes f;
                      cl_pendingDisc := <[rq_Seq req := disc]> (cl_pendingDisc c); cl_lastFrame := cl_lastFrame c |}).

(** [clientCodec.ReadResponseHeader] *)
Definition ReadResponseHeader : M clientCodec Response :=
  f <- on_in cl_in set_cl_in readFrame ;;
  if negb (Ascii.eqb (f_kind f) kindResponse) then throw (errors_New "dualcodec client: expected response")
  else
    update (fun c => {| cl_in := cl_in c; cl_out := cl_out c; cl_pendingDisc := cl_pendingDisc c; cl_lastFrame := f |}) ;;;
    ret {| rs_ServiceMethod := f_method f; rs_Seq := f_seq f; rs_Error := f_errMsg f |}.

(** [clientCodec.ReadResponseBody] *)
Definition ReadResponseBody : M clientCodec (option Body) :=
  c <- read (fun c => c) ;;
  let f := cl_lastFrame c in
  let disc := default (f_disc f) (cl_pendingDisc c !! f_seq f) in
  update (fun c => {| cl_in := cl_in c; cl_out := cl_out c; cl_pendingDisc := delete (f_seq f) (cl_pendingDisc c); cl_lastFrame := cl_lastFrame c |}) ;;;
  if negb (String.eqb (f_errMsg f) "") then ret None
  else of_result (decodeBody disc (f_body f)).
End codecs.

(** ** The server loop: [net/rpc]'s [ServeCodec]

    One goroutine reads requests; every call runs in a goroutine of its own and writes its response
    under a mutex. *)

(** The methods of [WorkerService] that [Serve] registers. *)
Definition workerMethods : list string :=
  (fun m => "WorkerService." +:+ m) <$>
    ["Hello"; "Configure"; "StreamFile"; "StreamChunk"; "WriteBlob"; "Commit"; "Done"; "Restore"; "ProbeStorage"].

Section serve.
Context {Body : Type} `{Bodies Body}.

(** A call that runs: the request it came with, and its argument. *)
Record call := { c_request : frame; c_arg : option Body }.
Record server := { se_codec : serverCodec; se_calls : list call }.

Inductive action :=
| Accept                                  (* the loop reads the next request *)
| Finish (i : nat) (reply : Body + string). (* the handler of the i-th call returned a reply or an error *)

(** [Server.sendResponse]; an error of the codec is only logged. *)
Definition sendResponse (req : Request) (reply : Body + string) (c : serverCodec) : serverCodec :=
  let resp := {| rs_ServiceMethod := rq_ServiceMethod req; rs_Seq := rq_Seq req;
                 rs_Error := match reply with inl _ => "" | inr err => err end |} in
  snd (WriteResponse resp (match reply with inl b => Some b | inr _ => None end) c).

Definition serve_step (a : action) (s : server) : option server :=
  match a with
  | Accept =>
      match ReadRequestHeader (se_codec s) with
      | (Fail _, _) => None
      | (Ok req, c) =>
          if negb (bool_decide (rq_ServiceMethod req ∈ workerMethods))
          then Some {| se_codec := sendResponse req (inr ("rpc: can't find method " +:+ rq_ServiceMethod req)) c; se_calls := se_calls s |}
          else match ReadRequestBody c with
               | (Fail err, c) => Some {| se_codec := sendResponse req (inr (err_msg err)) c; se_calls := se_calls s |}
               | (Ok arg, c) => Some {| se_codec := c; se_calls := se_calls s ++ [{| c_request := sv_pending c; c_arg := arg |}] |}
               end
      end
  | Finish i reply =>
      match se_calls s !! i with
      | None => None
      | Some k => Some {| se_codec := sendResponse {| rq_ServiceMethod := f_method (c_request k); rq_Seq := f_seq (c_request k) |} reply (se_codec s);
                          se_calls := delete i (se_calls s) |}
      end
  end.
End serve.

(** ** The messages: [rpc.go] *)

Definition Version : string := "phase3-v1".

Record HelloRequest := { hq_CallerVersion : string; hq_ProtocolVersion : string }.
Record HelloResponse := { hr_WorkerVersion : string; hr_ProtocolVersion : string; hr_OS : string; hr_NumCPU : Z; hr_PGDataPath : string }.
Record FileSpec := { fs_Path : string; fs_Size : Z }.
Record ConfigureRequest := {
  cq_BackupID : string; cq_StorageType : string; cq_StoragePath : string; cq_PGDataPath : string; cq_Credentials : string;
  cq_EncryptionDataKey : string; cq_AgeRecipients : list string; cq_CompressionCodec : string; cq_CompressionLevel : Z;
  cq_PageChecksumMode : Z; cq_Files : list FileSpec; cq_WorkerWritesDirectly : bool; cq_HTTPSProxy : string;
}.
Record StreamResponse := { sr_Path : string; sr_Bytes : Z; sr_SHA256 : string; sr_ModTime : time; sr_Body : string }.
Record WriteBlobRequest := { wq_RepoPath : string; wq_Body : string; wq_Filtered : bool }.
Record WriteBlobResponse := { wr_Bytes : Z; wr_SHA256 : string }.
Record DoneResponse := { dr_FileCount : Z; dr_BytesTotal : Z }.
Record ProbeStorageRequest := { pq_StorageType : string; pq_StoragePath : string; pq_Credentials : string }.
Record ProbeStorageResponse := { pr_Reachable : bool; pr_Error : string }.
Record RestoreRequest := {
  rr_BackupID : string; rr_StorageType : string; rr_Credentials : string; rr_AgeIdentities : list string; rr_TargetPath : string;
  rr_Workers : Z; rr_StandbyMode : bool; rr_RestoreCommand : string;
}.
Record RestoreResponse := { rp_BackupID : string; rp_Files : Z; rp_WAL : Z; rp_Bytes : Z; rp_Error : string }.

(** [IntegrityHash] *)
Definition IntegrityHash (h : HelloResponse) : string :=
  Sum256 (hr_WorkerVersion h +:+ "|" +:+ hr_ProtocolVersion h +:+ "|" +:+ hr_OS h).

(** ** The caller's side: [client.go] *)

Definition err_mismatch : error := errors_New "rpc: protocol version mismatch".

(** What [Client.Hello] makes of the answer of the worker. *)
Definition check_hello (r : result HelloResponse) : result HelloResponse :=
  match r with
  | Fail err => Fail (Errorf_w "rpc Hello" err)
  | Ok resp => if negb (String.eqb (hr_ProtocolVersion resp) Version) then Fail (Errorf_w "" err_mismatch) else Ok resp
  end.

(** What [Client.Configure] makes of it: the text in the answer is an error. *)
Definition check_configure (r : result string) : result unit :=
  match r with
  | Fail err => Fail (Errorf_w "rpc Configure" err)
  | Ok msg => if negb (String.eqb msg "") then Fail (errors_New ("rpc Configure: worker error: " +:+ msg)) else Ok tt
  end.

(** [helloOnlyWorker]: every other method is refused. *)
Definition helloOnly_Hello (version os pgdata : string) (numCPU : Z) : HelloResponse :=
  {| hr_WorkerVersion := version; hr_ProtocolVersion := Version; hr_OS := os; hr_NumCPU := numCPU; hr_PGDataPath := pgdata |}.
Definition errNotImplemented : error := errors_New "worker rpc: method not implemented in Hello-only build".
