(* ===== verification/RpcSpec.v ===== *)
(** * What the RPC wire promises

    Frames are read back as they were written, one after the other; a call reaches its handler with
    its argument and its answer reaches the caller; and the encodings of concurrent answers agree
    with those of their requests as long as calls of the two encodings do not overlap. *)

From S2P Require Import Prelude Sha256 Time Incremental Rpc.

(** ** Numbers *)

Lemma slen_put_be k v : slen (put_be k v) = k.
Proof. induction k; simpl; auto. Qed.

Lemma byte_val_byte_of v : byte_val (byte_of v) = v mod 256.
Proof.
  unfold byte_of, u8. change (2 ^ 8) with 256. pose proof (Z.mod_pos_bound v 256).
  rewrite <- (byte_val_of (v mod 256)) at 2 by lia. unfold byte_of, u8. change (2 ^ 8) with 256. by rewrite Z.mod_mod.
Qed.

Lemma be_acc_put k a v : be_acc a (put_be k v) = a * 256 ^ Z.of_nat k + v mod 256 ^ Z.of_nat k.
Proof.
  revert a. induction k as [|k IH]; intros a; cbn [put_be be_acc]; [rewrite Z.mod_1_r; lia|].
  rewrite IH, byte_val_byte_of, Nat2Z.inj_succ, Z.pow_succ_r by lia. set (p := 256 ^ Z.of_nat k).
  assert (Hp : 0 < p) by (unfold p; lia). rewrite (Z.mul_comm 256 p), Z.rem_mul_r by lia. lia.
Qed.

Lemma read_be_app k v rest : 0 <= v < 256 ^ Z.of_nat k -> read_be k (put_be k v +:+ rest) = (Ok v, rest).
Proof.
  intros Hv. unfold read_be, bind. rewrite io_ReadFull_app by by rewrite slen_put_be. unfold ret, be_uint.
  by rewrite be_acc_put, Z.mod_small by done.
Qed.

Lemma read_byte_app c rest : read_byte (String c rest) = (Ok c, rest).
Proof. unfold read_byte, bind. change (String c rest) with (String c "" +:+ rest). by rewrite io_ReadFull_app. Qed.

(** ** Frames *)

Definition fits (s : string) : Prop := Z.of_nat (slen s) < 2 ^ 32.

(** A frame a codec makes, whose texts are below 4 GiB. *)
Record frame_ok (f : frame) : Prop := {
  ok_disc : f_disc f = discJSON \/ f_disc f = discGob;
  ok_kind : f_kind f = kindRequest \/ f_kind f = kindResponse;
  ok_seq : is_u64 (f_seq f);
  ok_method : fits (f_method f);
  ok_err : fits (f_errMsg f);
  ok_body : fits (f_body f);
}.

Lemma readLenPrefixed_app p rest : fits p -> readLenPrefixed (writeLenPrefixed p +:+ rest) = (Ok p, rest).
Proof.
  unfold fits. intros Hp. unfold readLenPrefixed, writeLenPrefixed, bind. rewrite sapp_assoc, u32_id by (unfold is_u32; lia).
  rewrite read_be_app by (cbn; lia). destruct (Z.eqb_spec (Z.of_nat (slen p)) 0) as [E|_].
  - by destruct p.
  - by rewrite io_ReadFull_app.
Qed.

Lemma readFrame_app f rest : frame_ok f -> readFrame (frame_bytes f +:+ rest) = (Ok f, rest).
Proof.
  intros [Hd Hk Hs Hm He Hb]. unfold frame_bytes. cbn [String.append]. unfold readFrame, bind at 1. rewrite read_byte_app.
  assert (Hdb : negb (Ascii.eqb (f_disc f) discJSON) && negb (Ascii.eqb (f_disc f) discGob) = false) by by destruct Hd as [-> | ->].
  assert (Hkb : negb (Ascii.eqb (f_kind f) kindRequest) && negb (Ascii.eqb (f_kind f) kindResponse) = false) by by destruct Hk as [-> | ->].
  rewrite Hdb. unfold bind at 1. rewrite sapp_assoc, read_be_app by (unfold is_u64 in Hs; cbn; lia).
  unfold bind at 1. cbn [String.append]. rewrite read_byte_app, Hkb, !sapp_assoc. unfold bind.
  rewrite !readLenPrefixed_app by done. by destruct f.
Qed.

(** Reading [n] frames. *)
Definition readFrames (n : nat) : M string (list frame) := forM (seq 0 n) [] (fun fs _ => f <- readFrame ;; ret (fs ++ [f])).

Lemma readFrames_run fs acc start rest : Forall frame_ok fs ->
  forM (seq start (length fs)) acc (fun fs _ => f <- readFrame ;; ret (fs ++ [f])) (Join (frame_bytes <$> fs) "" +:+ rest) = (Ok (acc ++ fs), rest).
Proof.
  intros Hf. revert acc start. induction Hf as [|f fs Hf Hfs IH]; intros acc start; [by rewrite app_nil_r|].
  cbn [length seq forM]. rewrite fmap_cons, Join_cons, sapp_assoc. unfold bind at 1 2. rewrite readFrame_app by done.
  unfold ret at 1. by rewrite IH, <- app_assoc.
Qed.

(** The frames written to a connection are read back in order, each exactly as it was, and nothing
    of what follows is consumed, for any texts below 4 GiB. *)
Theorem readFrames_written fs rest : Forall frame_ok fs ->
  readFrames (length fs) (Join (frame_bytes <$> fs) "" +:+ rest) = (Ok fs, rest).
Proof. apply (readFrames_run fs [] 0). Qed.

(** The length of a text of 4 GiB is written as zero: its bytes are taken for the frames that follow. *)
Lemma huge_text_misread p rest : Z.of_nat (slen p) = 2 ^ 32 -> readLenPrefixed (writeLenPrefixed p +:+ rest) = (Ok "", p +:+ rest).
Proof.
  intros Hp. unfold readLenPrefixed, writeLenPrefixed, bind. rewrite Hp, sapp_assoc. change (u32 (2 ^ 32)) with 0.
  by rewrite read_be_app.
Qed.

(** A connection that breaks between two fields of a frame looks like one that was closed. *)
Lemma torn_frame_is_EOF :
  fst (readFrame (stake 10 (frame_bytes {| f_disc := discJSON; f_seq := 1; f_kind := kindRequest; f_method := "m"; f_errMsg := ""; f_body := "b" |})))
  = Fail (errors_Sentinel IoEOF "EOF").
Proof. reflexivity. Qed.

(** ** Calls that overlap *)

(** What the two encodings of a body promise: they are read back, and no body is encoded as nothing. [encoding/json] only keeps
    texts that are UTF-8: it puts U+FFFD for every other byte. *)
Class BodiesLaws (Body : Type) `{Bodies Body} := {
  utf8_texts : Body -> Prop;
  json_law b s : utf8_texts b -> json_Marshal b = Ok s -> s <> "" /\ json_Unmarshal s = Ok b;
  gob_law b s : gob_Encode b = Ok s -> s <> "" /\ gob_Decode s = Ok b;
}.

Section calls.
Context {Body : Type} `{BodiesLaws Body}.

(** A body the encoding keeps. *)
Definition survives (disc : ascii) (b : Body) : Prop := disc = discJSON -> utf8_texts b.

Lemma encode_decode disc b s : survives disc b -> encodeBody disc (Some b) = Ok s -> decodeBody disc s = Ok (Some b).
Proof.
  unfold encodeBody, decodeBody. intros Hu He. destruct (Ascii.eqb_spec disc discJSON) as [Hd|].
  - apply json_law in He as [Hne ->]; [|by apply Hu]. by destruct (String.eqb_spec s "").
  - destruct (Ascii.eqb disc discGob); [|done]. apply gob_law in He as [Hne ->]. by destruct (String.eqb_spec s "").
Qed.

(** Runs in which a request is only read while the calls that run have its encoding. *)
Inductive phased : server (Body:=Body) -> Prop :=
| phased_init input : phased {| se_codec := {| sv_in := input; sv_out := ""; sv_pending := zero_frame |}; se_calls := [] |}
| phased_accept s s' : phased s -> serve_step Accept s = Some s' ->
    Forall (fun k => f_disc (c_request k) = f_disc (sv_pending (se_codec s'))) (se_calls s) -> phased s'
| phased_finish s i reply s' : phased s -> serve_step (Finish i reply) s = Some s' -> phased s'.

Lemma WriteResponse_pending (resp : Response) (body : option Body) c : sv_pending (snd (WriteResponse resp body c)) = sv_pending c.
Proof.
  unfold WriteResponse, bind, read, update, of_result, ret. destruct (String.eqb (rs_Error resp) ""); [|done].
  by destruct (encodeBody (f_disc (sv_pending c)) body).
Qed.

Lemma sendResponse_pending req (reply : Body + string) c : sv_pending (sendResponse req reply c) = sv_pending c.
Proof. apply WriteResponse_pending. Qed.

Lemma ReadRequestBody_codec c : snd (ReadRequestBody (Body:=Body) c) = c.
Proof. unfold ReadRequestBody, bind, read, of_result. done. Qed.

Lemma phased_uniform s : phased s -> Forall (fun k => f_disc (c_request k) = f_disc (sv_pending (se_codec s))) (se_calls s).
Proof.
  induction 1 as [input|s s' Hs _ Hstep Hu|s i reply s' Hs IH Hstep]; [constructor|..].
  - unfold serve_step in Hstep. destruct (ReadRequestHeader (se_codec s)) as [[req|e] c]; [|done].
    destruct (negb _); [injection Hstep as <-; exact Hu|]. pose proof (ReadRequestBody_codec c) as Hc.
    destruct (ReadRequestBody c) as [[arg|e] c']; injection Hstep as <-; cbn [snd se_codec se_calls] in *; [|exact Hu].
    apply Forall_app. split; [exact Hu|]. by apply Forall_singleton.
  - cbn [serve_step] in Hstep. destruct (se_calls s !! i) as [k|]; [|done]. injection Hstep as <-.
    cbn [se_codec se_calls]. rewrite sendResponse_pending. by apply Forall_delete.
Qed.

(** The answer to a call: its frame has the sequence number, the method and the encoding of the request. *)
Definition answer (req : frame) (reply : Body + string) (bs : string) : frame :=
  {| f_disc := f_disc req; f_seq := f_seq req; f_kind := kindResponse; f_method := f_method req;
     f_errMsg := match reply with inl _ => "" | inr err => err end; f_body := bs |}.

(** What a handler returned, as the codec sees it: an error without a text counts as none. *)
Definition reply_bytes (req : frame) (reply : Body + string) : result string :=
  match reply with
  | inl b => encodeBody (f_disc req) (Some b)
  | inr _ => Ok ""
  end.

Lemma finish_writes s i k reply s' bs : phased s -> se_calls s !! i = Some k -> serve_step (Finish i reply) s = Some s' ->
  reply_bytes (c_request k) reply = Ok bs ->
  sv_out (se_codec s') = sv_out (se_codec s) +:+ frame_bytes (answer (c_request k) reply bs).
Proof.
  intros Hp Hk Hstep Hbs. apply phased_uniform in Hp. rewrite Forall_forall in Hp. specialize (Hp k (list_elem_of_lookup_2 _ _ _ Hk)).
  cbn [serve_step] in Hstep. rewrite Hk in Hstep. injection Hstep as <-. cbn [se_codec].
  unfold sendResponse, WriteResponse, bind, read, update, of_result, ret, answer. cbn [rs_Error rs_Seq rs_ServiceMethod rq_Seq rq_ServiceMethod].
  rewrite <- Hp. destruct reply as [b|err]; cbn [reply_bytes] in Hbs.
  - cbn [String.eqb]. by rewrite Hbs.
  - injection Hbs as <-. by destruct (String.eqb_spec err "") as [->|_].
Qed.

(** The two halves of [net/rpc]'s client that read an answer. *)
Definition ReadResponse : M clientCodec (Response * option Body) :=
  resp <- ReadResponseHeader ;;
  body <- ReadResponseBody ;;
  ret (resp, body).

Lemma ReadResponse_answer (c : clientCodec) req reply bs rest : frame_ok (answer req reply bs) ->
  cl_in c = frame_bytes (answer req reply bs) +:+ rest -> cl_pendingDisc c !! f_seq req = Some (f_disc req) ->
  reply_bytes req reply = Ok bs -> match reply with inl b => survives (f_disc req) b | inr err => err <> "" end ->
  ReadResponse c = (Ok ({| rs_ServiceMethod := f_method req; rs_Seq := f_seq req;
                           rs_Error := match reply with inl _ => "" | inr err => err end |},
                        match reply with inl b => Some b | inr _ => None end),
                    {| cl_in := rest; cl_out := cl_out c; cl_pendingDisc := delete (f_seq req) (cl_pendingDisc c);
                       cl_lastFrame := answer req reply bs |}).
Proof.
  intros Hok Hin Hd Hbs Herr. unfold ReadResponse, ReadResponseHeader, bind at 1 2, on_in. rewrite Hin, readFrame_app by done.
  cbn -[ReadResponseBody]. unfold bind, update, ret. cbn -[ReadResponseBody]. unfold ReadResponseBody, bind, read, update, ret, of_result. cbn.
  rewrite Hd. cbn [default]. destruct reply as [b|err]; cbn [reply_bytes] in Hbs.
  - cbn. by rewrite (encode_decode _ b bs Herr Hbs).
  - injection Hbs as <-. by destruct (String.eqb_spec err "") as [->|_].
Qed.
End calls.

Section roundtrip.
Context {Body : Type} `{BodiesLaws Body}.

(** The encoding the client picks for a method. *)
Definition disc_of (method : string) : ascii := if bool_decide (method ∈ gobMethods) then discGob else discJSON.

Lemma disc_of_ok method : disc_of method = discJSON \/ disc_of method = discGob.
Proof. unfold disc_of. case_bool_decide; auto. Qed.

(** The frame of a request. *)
Definition request_frame (method : string) (seq : Z) (bs : string) : frame :=
  {| f_disc := disc_of method; f_seq := seq; f_kind := kindRequest; f_method := method; f_errMsg := ""; f_body := bs |}.

Lemma WriteRequest_run (c : clientCodec) method seq (b : Body) bs : encodeBody (disc_of method) (Some b) = Ok bs ->
  WriteRequest {| rq_ServiceMethod := method; rq_Seq := seq |} (Some b) c =
    (Ok tt, {| cl_in := cl_in c; cl_out := cl_out c +:+ frame_bytes (request_frame method seq bs);
               cl_pendingDisc := <[seq := disc_of method]> (cl_pendingDisc c); cl_lastFrame := cl_lastFrame c |}).
Proof. intros He. unfold WriteRequest, bind, of_result. cbn [rq_ServiceMethod rq_Seq]. fold (disc_of method). by rewrite He. Qed.

Lemma Accept_run (s : server (Body:=Body)) method seq (b : Body) bs rest : frame_ok (request_frame method seq bs) ->
  survives (disc_of method) b -> encodeBody (disc_of method) (Some b) = Ok bs -> method ∈ workerMethods ->
  sv_in (se_codec s) = frame_bytes (request_frame method seq bs) +:+ rest ->
  serve_step Accept s = Some {| se_codec := {| sv_in := rest; sv_out := sv_out (se_codec s); sv_pending := request_frame method seq bs |};
                                se_calls := se_calls s ++ [{| c_request := request_frame method seq bs; c_arg := Some b |}] |}.
Proof.
  intros Hok Hu He Hm Hin. cbn [serve_step]. unfold ReadRequestHeader, bind at 1, on_in. rewrite Hin, readFrame_app by done.
  cbn -[ReadRequestBody]. rewrite bool_decide_eq_true_2 by done. unfold ReadRequestBody, bind, read, of_result. cbn.
  by rewrite (encode_decode _ b bs Hu He).
Qed.

(** C38: on a connection whose overlapping calls all have one encoding, a call over the wire is as good as a local one. The
    request the client writes is accepted with its argument; and in a [phased] run of the server, in which a request is only read while all calls that
    run have its encoding, the answer that is written for the call, whenever and in whatever order the calls return, gives the client that
    made it the reply, or the text of the error. Bodies in JSON have to be UTF-8 texts, and texts below 4 GiB. Without the condition on the run this is
    false ([overlapping_encodings_fail]): the server keeps the encoding of the last request it read, not of each request. *)
Theorem call_answered method seq (b : Body) bs : frame_ok (request_frame method seq bs) -> survives (disc_of method) b ->
  encodeBody (disc_of method) (Some b) = Ok bs -> method ∈ workerMethods ->
  (forall c s rest, sv_in (se_codec s) = frame_bytes (request_frame method seq bs) +:+ rest ->
     exists c' s', WriteRequest {| rq_ServiceMethod := method; rq_Seq := seq |} (Some b) c = (Ok tt, c') /\
       cl_out c' = cl_out c +:+ frame_bytes (request_frame method seq bs) /\
       cl_pendingDisc c' !! seq = Some (disc_of method) /\
       serve_step Accept s = Some s' /\ sv_in (se_codec s') = rest /\
       se_calls s' = se_calls s ++ [{| c_request := request_frame method seq bs; c_arg := Some b |}]) /\
  (forall s i arg reply s' out, phased s ->
     se_calls s !! i = Some {| c_request := request_frame method seq bs; c_arg := arg |} ->
     serve_step (Finish i reply) s = Some s' -> reply_bytes (request_frame method seq bs) reply = Ok out ->
     frame_ok (answer (request_frame method seq bs) reply out) ->
     match reply with inl r => survives (disc_of method) r | inr err => err <> "" end ->
     exists written, sv_out (se_codec s') = sv_out (se_codec s) +:+ written /\
       forall c rest, cl_in c = written +:+ rest -> cl_pendingDisc c !! seq = Some (disc_of method) ->
         exists c', ReadResponse c = (Ok ({| rs_ServiceMethod := method; rs_Seq := seq;
             rs_Error := match reply with inl _ => "" | inr err => err end |}, match reply with inl r => Some r | inr _ => None end), c') /\
           cl_in c' = rest).
Proof.
  intros Hok Hu He Hm. split.
  - intros c s rest Hin. eexists _, _. split_and!; [by apply WriteRequest_run| | |by eapply Accept_run|done|done]; [done|apply lookup_insert_eq].
  - intros s i arg reply s' out Hp Hk Hstep Hbs Hans Herr. exists (frame_bytes (answer (request_frame method seq bs) reply out)).
    split; [exact (finish_writes s i _ reply s' out Hp Hk Hstep Hbs)|]. intros c rest Hin Hd. eexists. split; [exact (ReadResponse_answer c (request_frame method seq bs) reply out rest Hans Hin Hd Hbs Herr)|done].
Qed.
End roundtrip.

(** ** Two concrete encodings *)

(** Bodies are texts; the two encodings mark them differently, and the first loses every byte that is not ASCII. *)
Definition is_ascii_byte (c : ascii) : bool := byte_val c <? 128.
Fixpoint to_ascii (s : string) : string := match s with "" => "" | String c s' => String (if is_ascii_byte c then c else "?") (to_ascii s') end.

#[export] Instance text_bodies : Bodies string := {
  json_Marshal b := Ok ("j" +:+ to_ascii b);
  gob_Encode b := Ok ("g" +:+ b);
  json_Unmarshal s := if HasPrefix s "j" then Ok (sdrop 1 s) else Fail (errors_New "json: invalid character");
  gob_Decode s := if HasPrefix s "g" then Ok (sdrop 1 s) else Fail (errors_New "gob: bad data");
}.

#[export] Instance text_bodies_laws : BodiesLaws string.
Proof. refine {| utf8_texts b := to_ascii b = b |}; [intros b s Hu [= <-]; rewrite Hu|intros b s [= <-]]; (split; [done|]); by destruct b. Defined.

Definition sample_frame : frame :=
  {| f_disc := discGob; f_seq := 2 ^ 64 - 1; f_kind := kindResponse; f_method := "WorkerService.StreamChunk"; f_errMsg := ""; f_body := "bytes" |}.

Lemma sample_frame_ok : frame_ok sample_frame.
Proof. split; try (unfold fits, is_u64; cbn; lia); cbn; auto. Qed.

Lemma readFrames_written_witness :
  readFrames 2 (Join (frame_bytes <$> [sample_frame; sample_frame]) "" +:+ "J") = (Ok [sample_frame; sample_frame], "J").
Proof. apply (readFrames_written [sample_frame; sample_frame] "J"). repeat (apply Forall_cons_2; [exact sample_frame_ok|]). apply Forall_nil_2. Defined.

Definition start_server (input : string) : server (Body:=string) := {| se_codec := {| sv_in := input; sv_out := ""; sv_pending := zero_frame |}; se_calls := [] |}.
Definition chunk_request (seq : Z) : frame := request_frame "WorkerService.StreamChunk" seq "ga".

Lemma chunk_request_ok : frame_ok (chunk_request 1).
Proof. split; try (unfold fits, is_u64; cbn; lia); cbn; auto. Qed.

Lemma call_answered_witness : exists s' written,
  serve_step Accept (start_server (frame_bytes (chunk_request 1))) = Some s' /\
  forall c rest, cl_in c = written +:+ rest -> cl_pendingDisc c !! 1 = Some discGob ->
    exists c', ReadResponse c = (Ok ({| rs_ServiceMethod := "WorkerService.StreamChunk"; rs_Seq := 1; rs_Error := "" |}, Some "data"), c').
Proof.
  destruct (@call_answered string text_bodies text_bodies_laws "WorkerService.StreamChunk" 1 "a" "ga" chunk_request_ok ltac:(done) ltac:(vm_compute; reflexivity) ltac:(cbn; in_list)) as [Hreq Hans].
  destruct (Hreq {| cl_in := ""; cl_out := ""; cl_pendingDisc := ∅; cl_lastFrame := zero_frame |} (start_server (frame_bytes (chunk_request 1))) ""
    ltac:(symmetry; apply sapp_nil_r)) as (c' & s' & _ & _ & _ & Hacc & _ & Hcalls).
  assert (Hp : phased s') by (apply (phased_accept _ _ (phased_init _) Hacc); apply Forall_nil_2).
  destruct (Hans s' 0%nat (Some "a") (inl "data") _ "gdata" Hp ltac:(rewrite Hcalls; reflexivity) ltac:(cbn [serve_step]; rewrite Hcalls; reflexivity)
    ltac:(vm_compute; reflexivity) ltac:(split; try (unfold fits, is_u64; cbn; lia); cbn; auto) ltac:(done)) as (written & _ & Hread).
  exists s', written. split; [exact Hacc|]. intros c rest Hin Hd. destruct (Hread c rest Hin Hd) as (c2 & Hr & _). by exists c2.
Defined.

(** The codec keeps only the last request: while a [StreamChunk] runs, a [Done] that is read makes the
    answer of the chunk go out in JSON, which its caller takes for gob. *)
Definition mixed_input : string := frame_bytes (chunk_request 1) +:+ frame_bytes (request_frame "WorkerService.Done" 2 "jd").

Definition mixed_run : option (server (Body:=string)) :=
  foldl (fun (o : option (server (Body:=string))) a => match o with Some s => serve_step a s | None => None end)
    (Some (start_server mixed_input)) [Accept; Accept; Finish 0 (inl "data")].

Lemma overlapping_encodings_fail :
  match mixed_run with
  | Some s => fst (ReadResponse (Body:=string) {| cl_in := sv_out (se_codec s); cl_out := ""; cl_pendingDisc := {[1 := discGob; 2 := discJSON]}; cl_lastFrame := zero_frame |})
  | None => Fail (errors_New "stuck")
  end = Fail (errors_New "gob: bad data").
Proof. vm_compute. reflexivity. Qed.
