(* ===== verification/Session.v ===== *)
(** * Sessions with a worker process

    [internal/transport]: the [Session] of session.go, which [local] implements with a process on
    this host and [ssh] with a client of OpenSSH: how one is started, and how any number of calls
    of [Close] and [Wait] end it. *)

From S2P Require Import Prelude Storage Host.

(** ** Starting the process *)

(** [local.Dial] and [ssh.Dial] differ in the command line and the names of their errors. *)
Inductive Kind := LocalSession | SSHSession.

#[export] Instance Kind_eq_dec : EqDecision Kind.
Proof. solve_decision. Defined.

(** [ErrTransport] and [ErrSSHTransport] *)
Definition ErrTransport_msg (k : Kind) : string :=
  match k with LocalSession => "local: transport error" | SSHSession => "ssh: transport error" end.

(** [ErrWorkerExit] and [ErrRemoteExit] *)
Definition ErrExit_msg (k : Kind) : string :=
  match k with LocalSession => "local: worker exited non-zero" | SSHSession => "ssh: remote command exited non-zero" end.

(** [errors.Join] of a base error and another one. *)
Definition errors_Join (base : string) (err : error) : error := Err (err_is err) (base +:+ nl +:+ err_msg err).

(** The [Options] of [ssh]. *)
Record SSHOptions := { ss_Target : string; ss_ExtraArgs : list string; ss_Command : list string }.

(** The arguments of [ssh]. *)
Definition ssh_args (opts : SSHOptions) : list string := ss_ExtraArgs opts ++ [ss_Target opts] ++ ss_Command opts.

(** What [Dial] uses of [os/exec]: a command, the ends of its pipes, and its start. *)
Class Exec (W : Type) := {
  Cmd : Type;
  Pipe : Type;
  exec_Command : string -> list string -> M W Cmd;
  cmd_StdinPipe : Cmd -> M W Pipe;
  cmd_StdoutPipe : Cmd -> M W Pipe;
  cmd_StderrPipe : Cmd -> M W Pipe;
  pipe_Close : Pipe -> M W unit;
  cmd_Start : Cmd -> M W unit;
}.

Section dial.
Context {W : Type} `{Exec W}.

(** The pipes of a session; [Stdin], [Stdout] and [Stderr]. *)
Record Pipes := { p_Stdin : Pipe; p_Stdout : Pipe; p_Stderr : Pipe }.

(** [if err != nil { clean-up; return nil, errors.Join(base, fmt.Errorf(...)) }] *)
Definition or_join {A B} (base msg : string) (m : M W A) (cleanup : M W unit) (k : A -> M W B) : M W B :=
  r <- try m ;;
  match r with
  | Fail err => try cleanup ;;; throw (errors_Join base (Errorf_w msg err))
  | Ok a => k a
  end.

(** The common end of the two [Dial]s. *)
Definition start_piped (k : Kind) (name : string) (args : list string) : M W Pipes :=
  cmd <- exec_Command name args ;;
  or_join (ErrTransport_msg k) "stdin pipe" (cmd_StdinPipe cmd) (ret tt) (fun stdin =>
  or_join (ErrTransport_msg k) "stdout pipe" (cmd_StdoutPipe cmd) (pipe_Close stdin) (fun stdout =>
  or_join (ErrTransport_msg k) "stderr pipe" (cmd_StderrPipe cmd) (pipe_Close stdin) (fun stderr =>
  or_join (ErrTransport_msg k) "start" (cmd_Start cmd) (ret tt) (fun _ =>
  ret {| p_Stdin := stdin; p_Stdout := stdout; p_Stderr := stderr |})))).

(** [local.Dial] *)
Definition local_Dial (command : list string) : M W Pipes :=
  match command with
  | [] => throw (errors_New (ErrTransport_msg LocalSession +:+ ": Command is required"))
  | name :: args => start_piped LocalSession name args
  end.

(** [ssh.Dial] *)
Definition ssh_Dial (opts : SSHOptions) : M W Pipes :=
  if String.eqb (ss_Target opts) "" then throw (errors_New (ErrTransport_msg SSHSession +:+ ": Target is required"))
  else if (length (ss_Command opts) =? 0)%nat then throw (errors_New (ErrTransport_msg SSHSession +:+ ": Command is required"))
  else start_piped SSHSession "ssh" (ssh_args opts).
End dial.

(** ** Ending it *)

(** How the process ended, as [cmd.Wait] tells it. *)
Inductive Ending :=
| Exited (code : Z)
| Signalled                      (* SIGKILL, of [kill] or of another *)
| WaitFailed (err : error).      (* an error of the pipes, of wait(2) or of the context *)

(** The error of the closure [wait]; [None] is [nil]. *)
Inductive WaitError := TransportError (cause : error) | ExitError (cause : string).

Definition wait_error (e : Ending) : option WaitError :=
  match e with
  | Exited 0 => None
  | Exited code => Some (ExitError ("exit status " +:+ FormatD code))
  | Signalled => Some (ExitError "signal: killed")
  | WaitFailed err => Some (TransportError err)
  end.

Inductive verb := Close | Wait.

#[export] Instance verb_eq_dec : EqDecision verb.
Proof. solve_decision. Defined.

Definition cleanExitGrace : Z := 2 * Second.
#[global] Arguments cleanExitGrace : simpl never.

Lemma grace_pos : 0 < cleanExitGrace.
Proof. done. Qed.

(** [closeOnce] with [waitErr]: nobody was inside yet; a call is, and for [Close] when its
    timer fires; it is done. *)
Inductive once :=
| Fresh
| Inside (who : nat) (v : verb) (timer : Z)
| Finished (r : option WaitError).

(** A goroutine that called [Close] or [Wait]. *)
Inductive caller := Calling (v : verb) | Returned (r : option WaitError).

Record session := Session {
  s_now : Z;
  s_once : once;
  s_stdin_closed : bool;
  s_cancelled : bool;              (* the context of [Dial] is done, which kills the process *)
  s_killed : bool;                 (* [s.kill()] was called *)
  s_ending : option Ending;        (* of the process, when it has ended *)
  s_callers : gmap nat caller;
}.

Definition dialled (now : Z) : session := Session now Fresh false false false None ∅.

Inductive action :=
| Call (who : nat) (v : verb)
| Ends (e : Ending)              (* the process ends *)
| Collect                        (* [s.wait()] returns to the call inside *)
| Timer                          (* [time.After(cleanExitGrace)] is chosen *)
| Return (who : nat)             (* [closeOnce.Do] returns *)
| Cancel
| Pass (d : Z).                  (* time passes *)

Definition set_caller (who : nat) (c : caller) (s : session) : session :=
  Session (s_now s) (s_once s) (s_stdin_closed s) (s_cancelled s) (s_killed s) (s_ending s) (<[who := c]> (s_callers s)).
Definition set_once (o : once) (s : session) : session :=
  Session (s_now s) o (s_stdin_closed s) (s_cancelled s) (s_killed s) (s_ending s) (s_callers s).

(** A [Close] inside [closeOnce] closes stdin and starts its timer; a [Wait] only waits. *)
Definition enter_once (who : nat) (v : verb) (s : session) : session :=
  Session (s_now s) (Inside who v (s_now s + cleanExitGrace)) (match v with Close => true | Wait => s_stdin_closed s end)
          (s_cancelled s) (s_killed s) (s_ending s) (<[who := Calling v]> (s_callers s)).

(** Whether a timer that is due holds time back: goroutines get to run. *)
Definition held_back (s : session) (now : Z) : bool :=
  match s_once s with
  | Inside _ Close timer => (timer <? now) && negb (s_killed s) && bool_decide (s_ending s = None)
  | _ => false
  end.

Definition exec (a : action) (s : session) : option session :=
  match a with
  | Call who v =>
      if decide (s_callers s !! who = None)
      then Some (match s_once s with Fresh => enter_once who v s | _ => set_caller who (Calling v) s end)
      else None
  | Ends e =>
      match s_ending s with
      | None => Some (Session (s_now s) (s_once s) (s_stdin_closed s) (s_cancelled s) (s_killed s) (Some e) (s_callers s))
      | Some _ => None
      end
  | Collect =>
      match s_once s, s_ending s with
      | Inside _ _ _, Some e => Some (set_once (Finished (wait_error e)) s)
      | _, _ => None
      end
  | Timer =>
      match s_once s with
      | Inside _ Close timer =>
          if (timer <=? s_now s) && negb (s_killed s)
          then Some (Session (s_now s) (s_once s) (s_stdin_closed s) (s_cancelled s) true (s_ending s) (s_callers s))
          else None
      | _ => None
      end
  | Return who =>
      match s_once s, s_callers s !! who with
      | Finished r, Some (Calling _) => Some (set_caller who (Returned r) s)
      | _, _ => None
      end
  | Cancel => Some (Session (s_now s) (s_once s) (s_stdin_closed s) true (s_killed s) (s_ending s) (s_callers s))
  | Pass d =>
      if (0 <? d) && negb (held_back s (s_now s + d))
      then Some (Session (s_now s + d) (s_once s) (s_stdin_closed s) (s_cancelled s) (s_killed s) (s_ending s) (s_callers s))
      else None
  end.

Inductive reachable (now : Z) : session -> Prop :=
| reachable_init : reachable now (dialled now)
| reachable_step s a s' : reachable now s -> exec a s = Some s' -> reachable now s'.

(** A run of several steps. *)
Fixpoint exec_all (l : list action) (s : session) : option session :=
  match l with [] => Some s | a :: l => match exec a s with Some s' => exec_all l s' | None => None end end.

(** ** What every run keeps *)

Definition inside_ok (s : session) (who : nat) (v : verb) (timer : Z) : Prop :=
  s_callers s !! who = Some (Calling v) /\
  match v with
  | Close => s_stdin_closed s = true /\ timer <= s_now s + cleanExitGrace /\
             (s_now s <= timer \/ s_killed s = true \/ s_ending s <> None) /\ (s_killed s = true -> timer <= s_now s)
  | Wait => s_stdin_closed s = false /\ s_killed s = false
  end.

Definition session_ok (s : session) : Prop :=
  (forall who r, s_callers s !! who = Some (Returned r) -> s_once s = Finished r) /\
  match s_once s with
  | Fresh => s_callers s = ∅ /\ s_stdin_closed s = false /\ s_killed s = false
  | Inside who v timer => inside_ok s who v timer
  | Finished r => exists e, s_ending s = Some e /\ r = wait_error e
  end.

Lemma enter_once_ok s who v : session_ok s -> s_once s = Fresh -> session_ok (enter_once who v s).
Proof.
  intros [Hret Ho] Hf. rewrite Hf in Ho. destruct Ho as (Hc & Hin & Hk). split; cbn.
  - intros i r [[_ Hi]|[_ Hi]]%lookup_insert_Some; [done|]. by rewrite Hc, lookup_empty in Hi.
  - unfold inside_ok. cbn. rewrite lookup_insert_eq. split; [done|]. pose proof grace_pos. destruct v; [|done].
    rewrite Hk. split_and!; [done|lia|left; lia|done].
Qed.

(** A later call waits for the one inside. *)
Lemma queue_ok s who v : session_ok s -> s_once s <> Fresh -> s_callers s !! who = None ->
  session_ok (set_caller who (Calling v) s).
Proof.
  intros [Hret Ho] Hf Hnew. split; cbn.
  - intros i r [[_ Hi]|[_ Hi]]%lookup_insert_Some; [done|]. by eapply Hret.
  - destruct (s_once s) as [|who' v' t|r]; [done| |done]. destruct Ho as [Hw Hrest]. split; [|done]. cbn.
    rewrite lookup_insert_ne; [done|]. intros ->. by rewrite Hnew in Hw.
Qed.

Lemma session_step_ok a s s' : session_ok s -> exec a s = Some s' -> session_ok s'.
Proof.
  intros Hs He. pose proof Hs as [Hret Ho]. destruct a as [who v|e| | |who| |d]; cbn [exec] in He.
  - case_decide as Hnew; [|done]. destruct (s_once s) as [|who' v' t|r] eqn:E; injection He as <-.
    + by apply enter_once_ok.
    + apply queue_ok; [done|by rewrite E|done].
    + apply queue_ok; [done|by rewrite E|done].
  - destruct (s_ending s) eqn:E; [done|]. injection He as <-. split; [done|]. cbn.
    destruct (s_once s) as [|who [] t|r]; [done| |done|by destruct Ho as (? & [=] & _)].
    destruct Ho as (Hw & Hc & Ht & _ & Hk). split; [done|]. cbn. split; [done|]. split; [done|]. split; [by right; right|done].
  - destruct (s_once s) as [|who v t|r] eqn:E; [done| |done]. destruct (s_ending s) as [e|] eqn:Ee; [|done].
    injection He as <-. split; cbn; [|by exists e]. intros i r Hi. by specialize (Hret i r Hi).
  - destruct (s_once s) as [|who [] t|r] eqn:E; [done| |done..]. destruct (_ && _) eqn:Hg; [|done]. injection He as <-.
    split; cbn; [done|]. destruct Ho as (Hw & Hc & Ht & _ & _). apply andb_true_iff in Hg as [Hg _]. apply Z.leb_le in Hg.
    split; [done|]. cbn. split_and!; auto.
  - destruct (s_once s) as [| |r] eqn:E; [done..|]. destruct (s_callers s !! who) as [[v|]|] eqn:Ew; try done. injection He as <-.
    split; cbn; rewrite E; [|done]. intros i r' [[<- [= <-]]|[_ Hi]]%lookup_insert_Some; [done|]. by apply (Hret i).
  - injection He as <-. by split.
  - destruct (_ && _) eqn:Hg; [|done]. injection He as <-. apply andb_true_iff in Hg as [Hd Hh]. apply Z.ltb_lt in Hd.
    split; cbn; [done|]. unfold held_back in Hh. destruct (s_once s) as [|who [] t|r]; [done| |done|done].
    destruct Ho as (Hw & Hc & Ht & Hor & Hk). split; [done|]. cbn. split; [done|]. split; [lia|]. split; [|intros Hk'; specialize (Hk Hk'); lia].
    apply negb_true_iff in Hh. destruct (t <? s_now s + d) eqn:Hlt; [|apply Z.ltb_ge in Hlt; auto].
    destruct (s_killed s); [by right; left|]. right; right. cbn in Hh. by apply bool_decide_eq_false in Hh.
Qed.

Lemma session_reachable now s : reachable now s -> session_ok s.
Proof.
  induction 1 as [|s a s' _ IH He]; [|by eapply session_step_ok]. split; [|done]. intros who r Hr. cbn in Hr. by rewrite lookup_empty in Hr.
Qed.

(** Every call that returned told how the process ended: all of them the same. *)
Lemma returned_ending now s who r : reachable now s -> s_callers s !! who = Some (Returned r) ->
  exists e, s_ending s = Some e /\ r = wait_error e.
Proof. intros [Hret Ho]%session_reachable Hr. apply Hret in Hr. by rewrite Hr in Ho. Qed.

(** The process is only killed when it had its time to end after the end of its input. *)
Lemma Timer_grace now s s' : reachable now s -> exec Timer s = Some s' ->
  exists who timer, s_once s = Inside who Close timer /\ s_stdin_closed s = true /\ timer <= s_now s.
Proof.
  intros [_ Ho]%session_reachable He. cbn [exec] in He. destruct (s_once s) as [|who [] t|r]; try done. exists who, t.
  destruct (t <=? s_now s) eqn:Hle; [|done]. apply Z.leb_le in Hle. by destruct Ho as (_ & -> & _).
Qed.

(** ** Close ends *)

(** Steps that need no help of the worker: a killed process ends. *)
Inductive unaided : relation session :=
| unaided_pass d s s' : exec (Pass d) s = Some s' -> unaided s s'
| unaided_timer s s' : exec Timer s = Some s' -> unaided s s'
| unaided_collect s s' : exec Collect s = Some s' -> unaided s s'
| unaided_return who s s' : exec (Return who) s = Some s' -> unaided s s'
| unaided_ends s s' : s_killed s = true -> exec (Ends Signalled) s = Some s' -> unaided s s'.

Lemma ended_returns s who v timer e : s_once s = Inside who v timer -> s_callers s !! who = Some (Calling v) ->
  s_ending s = Some e -> exists s', rtc unaided s s' /\ s_callers s' !! who = Some (Returned (wait_error e)) /\ s_now s' = s_now s.
Proof.
  intros Ho Hw He. exists (set_caller who (Returned (wait_error e)) (set_once (Finished (wait_error e)) s)).
  split; [|split; [apply lookup_insert_eq|done]]. eapply rtc_l; [apply unaided_collect; cbn [exec]; by rewrite Ho, He|].
  eapply rtc_once, (unaided_return who). cbn. by rewrite Hw.
Qed.

Lemma killed_returns s who timer : s_once s = Inside who Close timer -> s_callers s !! who = Some (Calling Close) ->
  s_killed s = true -> exists s' r, rtc unaided s s' /\ s_callers s' !! who = Some (Returned r) /\ s_now s' = s_now s.
Proof.
  intros Ho Hw Hk. destruct (s_ending s) as [e|] eqn:He.
  { destruct (ended_returns s who Close timer e) as (s' & ? & ? & ?); [done..|]. by exists s', (wait_error e). }
  pose (s1 := Session (s_now s) (s_once s) (s_stdin_closed s) (s_cancelled s) (s_killed s) (Some Signalled) (s_callers s)).
  destruct (ended_returns s1 who Close timer Signalled) as (s' & Hs' & ? & ?); [done..|]. exists s', (wait_error Signalled).
  split; [|done]. eapply rtc_l, Hs'. apply unaided_ends; [done|]. cbn [exec]. by rewrite He.
Qed.

Lemma due_returns s who timer : s_once s = Inside who Close timer -> s_callers s !! who = Some (Calling Close) ->
  timer <= s_now s -> exists s' r, rtc unaided s s' /\ s_callers s' !! who = Some (Returned r) /\ s_now s' = s_now s.
Proof.
  intros Ho Hw Ht. destruct (s_killed s) eqn:Hk; [by apply (killed_returns s who timer)|].
  pose (s1 := Session (s_now s) (s_once s) (s_stdin_closed s) (s_cancelled s) true (s_ending s) (s_callers s)).
  destruct (killed_returns s1 who timer) as (s' & r & Hs' & ? & ?); [done..|]. exists s', r. split; [|done].
  eapply rtc_l, Hs'. apply unaided_timer. unfold s1. cbn [exec]. by rewrite Ho, Hk, (proj2 (Z.leb_le _ _) Ht).
Qed.

(** A [Close] that gets into [closeOnce] returns whatever the worker does: it has closed the
    worker's input, and without any step of the worker but its death by SIGKILL there is a way to its
    return that takes no longer than the two seconds of grace. Meanwhile the clock cannot pass the
    end of the grace while the process is alive and was not killed. *)
Theorem Close_returns now s who timer : reachable now s -> s_once s = Inside who Close timer ->
  s_stdin_closed s = true /\ (s_now s <= timer \/ s_killed s = true \/ s_ending s <> None) /\
  exists s' r, rtc unaided s s' /\ s_callers s' !! who = Some (Returned r) /\ s_now s' <= s_now s + cleanExitGrace.
Proof.
  intros [_ Ho]%session_reachable E. rewrite E in Ho. destruct Ho as (Hw & Hin & Ht & Hor & _). split; [done|]. split; [done|].
  destruct (Z.le_gt_cases timer (s_now s)) as [Hle|Hgt].
  { destruct (due_returns s who timer) as (s' & r & Hs' & Hr' & Hn); [done..|]. exists s', r. pose proof grace_pos. rewrite Hn. split_and!; [done..|lia]. }
  pose (s1 := Session timer (s_once s) (s_stdin_closed s) (s_cancelled s) (s_killed s) (s_ending s) (s_callers s)).
  destruct (due_returns s1 who timer) as (s' & r & Hs' & ? & Hn); [done..|]. exists s', r. split_and!; [|done|rewrite Hn; cbn; lia].
  eapply rtc_l, Hs'. apply (unaided_pass (timer - s_now s)). unfold s1. cbn [exec]. unfold held_back. rewrite E.
  replace (s_now s + (timer - s_now s)) with timer by lia. rewrite Z.ltb_irrefl. cbn.
  rewrite (proj2 (Z.ltb_lt 0 (timer - s_now s))) by lia. done.
Qed.

(** ** A Wait that got in first *)

(** Steps of the session alone. *)
Definition own_step : relation session := fun s s' =>
  exists a, exec a s = Some s' /\ match a with Ends _ | Cancel => False | _ => True end.

(** It never closes the input, and a [Close] that comes later waits behind it for as long as
    the worker waits for the end of its input. *)
Lemma Wait_blocks_Close now s who timer s' : reachable now s -> s_once s = Inside who Wait timer -> s_ending s = None ->
  rtc own_step s s' -> s_once s' = Inside who Wait timer /\ s_stdin_closed s' = false /\ s_killed s' = false /\
  forall i r, s_callers s' !! i <> Some (Returned r).
Proof.
  intros Hr Ho Hn Hrun. revert Hr Ho Hn. induction Hrun as [s|s s1 s' (a & He & Ha) _ IH]; intros Hr Ho Hn.
  { apply session_reachable in Hr as [Hret Hok]. rewrite Ho in Hok. destruct Hok as (_ & Hin & Hk). split_and!; [done..|].
    intros i r Hi. apply Hret in Hi. by rewrite Ho in Hi. }
  assert (s_once s1 = s_once s /\ s_ending s1 = s_ending s) as [E1 E2].
  { destruct a; cbn [exec] in He; rewrite ?Ho, ?Hn in He; try done; repeat (case_decide || case_match); by simplify_eq/=. }
  apply IH; [by eapply reachable_step|by rewrite E1|by rewrite E2].
Qed.

(** ** Runs *)

(** A worker that ignores the end of its input is killed after two seconds, and a second [Close]
    and a [Wait] tell the same. *)
Definition stubborn_run : list action :=
  [Call 0 Close; Call 1 Wait; Pass cleanExitGrace; Timer; Ends Signalled; Collect; Return 1; Return 0; Call 2 Close; Return 2].

Example stubborn_session : exists s, exec_all stubborn_run (dialled 0) = Some s /\
  map (fun i => s_callers s !! i) [0; 1; 2]%nat = repeat (Some (Returned (Some (ExitError "signal: killed")))) 3.
Proof. eexists. split; [vm_compute; reflexivity|reflexivity]. Qed.

Lemma session_run_reachable now l s s' : reachable now s -> exec_all l s = Some s' -> reachable now s'.
Proof.
  revert s. induction l as [|a l IH]; intros s Hr He; cbn in He; [by injection He as <-|].
  destruct (exec a s) as [s1|] eqn:E; [|done]. eapply IH; [|done]. by eapply reachable_step.
Qed.

Lemma Close_returns_witness : exists s, s_once s = Inside 0 Close cleanExitGrace /\
  exists s' r, rtc unaided s s' /\ s_callers s' !! 0%nat = Some (Returned r) /\ s_now s' <= s_now s + cleanExitGrace.
Proof.
  exists (enter_once 0 Close (dialled 0)). split; [reflexivity|].
  exact (proj2 (proj2 (Close_returns 0 (enter_once 0 Close (dialled 0)) 0 cleanExitGrace
           (reachable_step 0 (dialled 0) (Call 0 Close) _ (reachable_init 0) eq_refl) eq_refl))).
Defined.
