(* ===== verification/Tunnel.v ===== *)
(** * The tunnel's server

    [internal/transport/sftptunnel]: the SFTP server that lives on the caller's loopback for one
    backup: its keys, its connections and sessions as interleaved steps, and its end. *)

From S2P Require Import Prelude Storage Host Config Creds Mint MintSpec Rpc.

(** ** Keys *)

(** What the server uses of [crypto/ed25519], [golang.org/x/crypto/ssh], [encoding/pem] and [net]. *)
Class TunnelKeys (W : Type) := {
  EdPublic : Type;
  EdPrivate : Type;
  SSHPublic : Type;
  PEMBlock : Type;
  Signer : Type;
  ed25519_GenerateKey : M W (EdPublic * EdPrivate);
  ssh_NewPublicKey : EdPublic -> result SSHPublic;
  ssh_MarshalPrivateKey : EdPrivate -> string -> result PEMBlock;
  ssh_NewSignerFromKey : EdPrivate -> result Signer;
  pem_EncodeToMemory : PEMBlock -> string;
  key_Marshal : SSHPublic -> string;
  net_Listen : string -> string -> M W Z;    (* the port the kernel picked *)
}.

(** [EphemeralServer], with what its [ServerConfig] has. *)
Record EphemeralServer := {
  es_port : Z;               (* LocalPort *)
  es_root : string;
  es_clientPrivPEM : string; (* ClientPrivateKeyPEM *)
  es_authorizedKey : string;
}.

Section start.
Context {W : Type} `{TunnelKeys W}.

(** [newHostKey] *)
Definition newHostKey : M W Signer :=
  kp <- ed25519_GenerateKey ;; of_result (ssh_NewSignerFromKey (snd kp)).

(** [newEd25519Keypair] *)
Definition newEd25519Keypair : M W (SSHPublic * string) :=
  kp <- ed25519_GenerateKey ;;
  sshPub <- of_result (ssh_NewPublicKey (fst kp)) ;;
  pemBlock <- of_result (ssh_MarshalPrivateKey (snd kp) "") ;;
  ret (sshPub, pem_EncodeToMemory pemBlock).

(** [StartEphemeralServer] *)
Definition StartEphemeralServer (root : string) : M W EphemeralServer :=
  client <- wrapping "sftptunnel: client keypair" newEd25519Keypair ;;
  _ <- wrapping "sftptunnel: host key" newHostKey ;;
  port <- wrapping "sftptunnel: listen" (net_Listen "tcp" "127.0.0.1:0") ;;
  ret {| es_port := port; es_root := root; es_clientPrivPEM := snd client; es_authorizedKey := key_Marshal (fst client) |}.

(** The server lets in the public half of the key it hands out, and no other. *)
Lemma Start_keys root w srv w' : StartEphemeralServer root w = (Ok srv, w') ->
  exists pub priv sshPub block, ssh_NewPublicKey pub = Ok sshPub /\ ssh_MarshalPrivateKey priv "" = Ok block /\
    (exists w1 w2, ed25519_GenerateKey w1 = (Ok (pub, priv), w2)) /\
    es_clientPrivPEM srv = pem_EncodeToMemory block /\ es_authorizedKey srv = key_Marshal sshPub /\ es_root srv = root.
Proof.
  unfold StartEphemeralServer, newEd25519Keypair, wrapping, bind, of_result, ret.
  destruct (ed25519_GenerateKey w) as [[[pub priv]|] w1] eqn:Eg; cbn; [|done].
  destruct (ssh_NewPublicKey pub) as [sshPub|] eqn:Ep; cbn; [|done].
  destruct (ssh_MarshalPrivateKey priv "") as [block|] eqn:Em; cbn; [|done].
  destruct (newHostKey w1) as [[signer|] w2]; cbn; [|done]. destruct (net_Listen _ _ w2) as [[port|] w3]; cbn; [|done].
  intros [= <- <-]. exists pub, priv, sshPub, block. split_and!; try done. by exists w, w1.
Qed.
End start.

(** ** Connections and sessions *)

(** A connection in [handleConn]: before the handshake is done, or with the key that its client
    proved to have. *)
Inductive connection := Greeting | Authenticated (key : string).

(** A session in [handleSession], with the key of its connection: waiting for requests, or in [runSFTP]. *)
Inductive sftp_session := Requesting (key : string) | Serving (key : string).

Record tunnel := Tunnel {
  t_listening : bool;
  t_accepting : bool;                    (* the goroutine of [serve] is there *)
  t_conns : gmap nat connection;
  t_sessions : gmap nat sftp_session;
  t_closing : bool;                      (* a call of [Close] is inside [closeOnce] *)
  t_closed : bool;                       (* it returned *)
}.

Definition started : tunnel := Tunnel true true ∅ ∅ false false.

Inductive action :=
| Accept (c : nat)
| AcceptFails                              (* [Accept] returns an error, which ends [serve] *)
| Handshake (c : nat) (key : option string)  (* [ssh.NewServerConn]; the key whose possession was proved *)
| NewChannel (c s : nat) (ty : string) (ok : bool)
| Requests (s : nat) (reqs : list ssh_request)  (* what comes on a session up to its end or to SFTP *)
| EndSession (s : nat)                     (* [runSFTP] returns *)
| Disconnect (c : nat)                     (* the channels of a connection end *)
| BeginClose
| EndClose.

(** [PublicKeyCallback] *)
Definition PublicKeyCallback (authorizedKey key : string) : bool := subtleByteEq key authorizedKey.

(** What the [WaitGroup] counts. *)
Definition pending (t : tunnel) : nat := ((if t_accepting t then 1 else 0) + size (t_conns t) + size (t_sessions t))%nat.

Definition set_conns (m : gmap nat connection) (t : tunnel) : tunnel :=
  Tunnel (t_listening t) (t_accepting t) m (t_sessions t) (t_closing t) (t_closed t).
Definition set_sessions (m : gmap nat sftp_session) (t : tunnel) : tunnel :=
  Tunnel (t_listening t) (t_accepting t) (t_conns t) m (t_closing t) (t_closed t).

Definition exec (authorizedKey : string) (a : action) (t : tunnel) : option tunnel :=
  match a with
  | Accept c =>
      if t_listening t && t_accepting t && bool_decide (t_conns t !! c = None)
      then Some (set_conns (<[c := Greeting]> (t_conns t)) t) else None
  | AcceptFails =>
      if t_accepting t then Some (Tunnel (t_listening t) false (t_conns t) (t_sessions t) (t_closing t) (t_closed t)) else None
  | Handshake c key =>
      match t_conns t !! c with
      | Some Greeting =>
          Some (set_conns (match key with
                           | Some k => if PublicKeyCallback authorizedKey k then <[c := Authenticated k]> (t_conns t) else delete c (t_conns t)
                           | None => delete c (t_conns t)
                           end) t)
      | _ => None
      end
  | NewChannel c s ty ok =>
      match t_conns t !! c with
      | Some (Authenticated k) =>
          if negb (String.eqb ty "session") || negb ok then Some t      (* rejected, or not accepted *)
          else if decide (t_sessions t !! s = None) then Some (set_sessions (<[s := Requesting k]> (t_sessions t)) t) else None
      | _ => None
      end
  | Requests s reqs =>
      match t_sessions t !! s with
      | Some (Requesting k) =>
          Some (set_sessions (if snd (handleSession reqs) then <[s := Serving k]> (t_sessions t) else delete s (t_sessions t)) t)
      | _ => None
      end
  | EndSession s =>
      match t_sessions t !! s with
      | Some (Serving _) => Some (set_sessions (delete s (t_sessions t)) t)
      | _ => None
      end
  | Disconnect c =>
      match t_conns t !! c with
      | Some (Authenticated _) => Some (set_conns (delete c (t_conns t)) t)
      | _ => None
      end
  | BeginClose =>
      if t_closing t || t_closed t then Some t
      else Some (Tunnel false (t_accepting t) (t_conns t) (t_sessions t) true (t_closed t))
  | EndClose =>
      if t_closing t && (pending t =? 0)%nat
      then Some (Tunnel (t_listening t) (t_accepting t) (t_conns t) (t_sessions t) false true) else None
  end.

Inductive reachable (authorizedKey : string) : tunnel -> Prop :=
| reachable_init : reachable authorizedKey started
| reachable_step t a t' : reachable authorizedKey t -> exec authorizedKey a t = Some t' -> reachable authorizedKey t'.

Definition conn_ok (authorizedKey : string) (_ : nat) (c : connection) : Prop :=
  match c with Greeting => True | Authenticated k => k = authorizedKey end.
Definition session_ok (authorizedKey : string) (_ : nat) (s : sftp_session) : Prop :=
  match s with Requesting k | Serving k => k = authorizedKey end.

Definition tunnel_ok (authorizedKey : string) (t : tunnel) : Prop :=
  map_Forall (conn_ok authorizedKey) (t_conns t) /\ map_Forall (session_ok authorizedKey) (t_sessions t) /\
  (t_closing t || t_closed t = true -> t_listening t = false) /\
  (t_closed t = true -> t_accepting t = false /\ t_conns t = ∅ /\ t_sessions t = ∅).

Lemma pending_zero t : pending t = 0%nat -> t_accepting t = false /\ t_conns t = ∅ /\ t_sessions t = ∅.
Proof.
  unfold pending. destruct (t_accepting t); [lia|]. intros E. split; [done|]. split; apply map_size_empty_inv; lia.
Qed.

(** While there is something to change the server was not closed. *)
Lemma open_conn key t c x : tunnel_ok key t -> t_conns t !! c = Some x -> t_closed t = false.
Proof. intros (_ & _ & _ & Hc) Hx. destruct (t_closed t); [|done]. destruct (Hc eq_refl) as (_ & E & _). by rewrite E, lookup_empty in Hx. Qed.
Lemma open_session key t s x : tunnel_ok key t -> t_sessions t !! s = Some x -> t_closed t = false.
Proof. intros (_ & _ & _ & Hc) Hx. destruct (t_closed t); [|done]. destruct (Hc eq_refl) as (_ & _ & E). by rewrite E, lookup_empty in Hx. Qed.

Lemma conns_ok key m t : tunnel_ok key t -> t_closed t = false -> map_Forall (conn_ok key) m -> tunnel_ok key (set_conns m t).
Proof. intros (_ & Hs & Hl & _) Hc Hm. split_and!; cbn; try done. by rewrite Hc. Qed.
Lemma sessions_ok key m t : tunnel_ok key t -> t_closed t = false -> map_Forall (session_ok key) m -> tunnel_ok key (set_sessions m t).
Proof. intros (Hs & _ & Hl & _) Hc Hm. split_and!; cbn; try done. by rewrite Hc. Qed.

Lemma tunnel_step_ok key a t t' : tunnel_ok key t -> exec key a t = Some t' -> tunnel_ok key t'.
Proof.
  intros Ht He. pose proof Ht as (Hcs & Hss & Hl & Hcl). destruct a as [c| |c k|c s ty ok|s reqs|s|c| |]; cbn [exec] in He.
  - destruct (t_listening t) eqn:El; [|done]. destruct (_ && _) eqn:Hg; [|done]. injection He as <-. apply conns_ok; [done| |by apply map_Forall_insert_2].
    destruct (t_closed t); [|done]. rewrite orb_true_r in Hl. by specialize (Hl eq_refl).
  - destruct (t_accepting t) eqn:Ea; [|done]. injection He as <-. split_and!; cbn; try done. intros Hc. by destruct (Hcl Hc).
  - destruct (t_conns t !! c) as [[]|] eqn:Ec; try done. injection He as <-. apply conns_ok; [done|by eapply open_conn|].
    destruct k as [k|]; [|by apply map_Forall_delete]. destruct (PublicKeyCallback key k) eqn:Hk; [|by apply map_Forall_delete].
    apply map_Forall_insert_2; [|done]. by apply subtleByteEq_eq in Hk.
  - destruct (t_conns t !! c) as [[|k]|] eqn:Ec; try done. destruct (_ || _); [by injection He as <-|]. case_decide; [|done]. injection He as <-.
    apply sessions_ok; [done|by eapply open_conn|]. apply map_Forall_insert_2; [by apply (Hcs c _ Ec)|done].
  - destruct (t_sessions t !! s) as [[k|]|] eqn:Es; try done. injection He as <-. apply sessions_ok; [done|by eapply open_session|].
    destruct (snd _); [|by apply map_Forall_delete]. apply map_Forall_insert_2; [by apply (Hss s _ Es)|done].
  - destruct (t_sessions t !! s) as [[|k]|] eqn:Es; try done. injection He as <-. apply sessions_ok; [done|by eapply open_session|by apply map_Forall_delete].
  - destruct (t_conns t !! c) as [[|k]|] eqn:Ec; try done. injection He as <-. apply conns_ok; [done|by eapply open_conn|by apply map_Forall_delete].
  - destruct (t_closing t || t_closed t); injection He as <-; [done|]. by split_and!.
  - destruct (t_closing t) eqn:Eg; [|done]. destruct (Nat.eqb_spec (pending t) 0) as [E|]; [|done]. injection He as <-.
    split_and!; cbn; try done. intros _. by apply pending_zero.
Qed.

Lemma tunnel_reachable key t : reachable key t -> tunnel_ok key t.
Proof. induction 1 as [|t a t' _ IH He]; [|by eapply tunnel_step_ok]. split_and!; cbn; [apply map_Forall_empty..|done|done]. Qed.

(** Files of the caller are only ever served to clients that proved to have the private half of the
    key this server handed out, and to none once [Close] has returned: nothing listens then,
    no connection is left and no session, whatever connections came and however they behaved. *)
Theorem tunnel_safe authorizedKey t : reachable authorizedKey t ->
  (forall s k, t_sessions t !! s = Some (Serving k) -> k = authorizedKey) /\
  (t_closed t = true -> t_listening t = false /\ t_accepting t = false /\ t_conns t = ∅ /\ t_sessions t = ∅).
Proof.
  intros (_ & Hs & Hl & Hc)%tunnel_reachable. split; [intros s k E; apply (Hs s _ E)|]. intros E. split; [|by apply Hc].
  apply Hl. by rewrite E, orb_true_r.
Qed.

(** [Close] has no means of its own against a client that is still there: it returns only when
    every connection has gone. *)
Lemma Close_waits key c x t t' : t_conns t !! c = Some x -> exec key EndClose t = Some t' -> False.
Proof.
  intros Hx He. cbn [exec] in He. destruct (t_closing t); [|done]. destruct (Nat.eqb_spec (pending t) 0) as [E|]; [|done].
  apply pending_zero in E as (_ & E & _). by rewrite E, lookup_empty in Hx.
Qed.

Fixpoint exec_all (key : string) (l : list action) (t : tunnel) : option tunnel :=
  match l with [] => Some t | a :: l => match exec key a t with Some t' => exec_all key l t' | None => None end end.

Lemma tunnel_run_reachable key l t t' : reachable key t -> exec_all key l t = Some t' -> reachable key t'.
Proof.
  revert t. induction l as [|a l IH]; intros t Hr He; cbn in He; [by injection He as <-|].
  destruct (exec key a t) as [t1|] eqn:E; [|done]. eapply IH; [|done]. by eapply reachable_step.
Qed.

(** A worker uses the tunnel, a stranger is refused, and the caller closes it. *)
Definition tunnel_run : list action :=
  [Accept 0; Accept 1; Handshake 1 (Some "other"); Handshake 0 (Some "key"); NewChannel 0 7 "session" true;
   Requests 7 [{| sq_Type := "subsystem"; sq_Payload := put_be 4 4 +:+ "sftp"; sq_WantReply := true |}]].

Definition tunnel_end : list action := tunnel_run ++ [BeginClose; EndSession 7; Disconnect 0; AcceptFails; EndClose].

Definition run_of (l : list action) : tunnel := match exec_all "key" l started with Some t => t | None => started end.

Example tunnel_serves : exec_all "key" tunnel_run started = Some (run_of tunnel_run) /\
  t_sessions (run_of tunnel_run) = {[7%nat := Serving "key"]} /\ t_conns (run_of tunnel_run) = {[0%nat := Authenticated "key"]}.
Proof. vm_compute. done. Qed.

Lemma tunnel_safe_witness : t_closed (run_of tunnel_end) = true /\ t_conns (run_of tunnel_end) = ∅ /\
  (forall s k, t_sessions (run_of tunnel_end) !! s = Some (Serving k) -> k = "key").
Proof.
  assert (Hr : reachable "key" (run_of tunnel_end)) by (apply (tunnel_run_reachable "key" tunnel_end started); [constructor|vm_compute; reflexivity]).
  pose proof (tunnel_safe "key" (run_of tunnel_end) Hr) as [Hs Hc]. split; [reflexivity|]. split; [|exact Hs]. by apply Hc.
Defined.
