(* ===== verification/PgSql.v ===== *)
(** * What a parallel backup asks of PostgreSQL

    [internal/pg/bracket]: the backup between [pg_backup_start] and [pg_backup_stop], which one
    session has to call; [internal/pg/walsummary]; and [internal/pg/readbinary]: the files of the
    cluster and their bytes, by SQL. *)

From S2P Require Import Prelude Lsn Wal Storage Host Bracket PageChecksum.

(** ** The bracket *)

(** A pool of connections and the two calls. The texts are those of the columns of the answer. *)
Class Sessions (W : Type) := {
  Conn : Type;
  pool_Acquire : M W Conn;
  conn_Release : Conn -> W -> W;
  (** With the flag, the functions of PostgreSQL 14 and before. *)
  pg_backup_start : bool -> Conn -> string -> bool -> M W (string * Z);
  pg_backup_stop : bool -> Conn -> M W (string * string * string);
}.

(** [StartInfo] and [StopInfo] *)
Record StartInfo := { si_LSN : LSN; si_Timeline : Z }.
Record StopInfo := { so_LSN : LSN; so_LabelFile : string; so_SpcMapFile : string }.

Section bracket.
Context {W : Type} `{Sessions W}.

(** [bracketModern] and [bracketLegacy]; the connection is there from [Start] to [Stop]. *)
Record bracket := { b_legacy : bool; b_conn : option Conn }.

(** [New] of bracket.go; [pool] says whether there is one. *)
Definition bracket_New (pool : bool) (pgVersion : Z) : result bracket :=
  if negb pool then Fail (errors_New "bracket: pool is required")
  else if 15 <=? pgVersion then Ok {| b_legacy := false; b_conn := None |}
  else if 13 <=? pgVersion then Ok {| b_legacy := true; b_conn := None |}
  else Fail (errors_New "bracket: PG not supported").

Definition bracket_msg (b : bracket) (msg : string) : string :=
  (if b_legacy b then "bracket(legacy): " else "bracket: ") +:+ msg.

(** [Start]: its error as a value, and the bracket after it. *)
Definition Start (label : string) (fast : bool) (b : bracket) : M W (result StartInfo * bracket) :=
  match b_conn b with
  | Some _ => ret (Fail (errors_New (bracket_msg b "Start already called")), b)
  | None =>
      c <- try (wrapping (bracket_msg b "acquire") pool_Acquire) ;;
      match c with
      | Fail err => ret (Fail err, b)
      | Ok c =>
          row <- try (wrapping (bracket_msg b "pg_backup_start") (pg_backup_start (b_legacy b) c label fast)) ;;
          match row with
          | Fail err => update (conn_Release c) ;;; ret (Fail err, b)
          | Ok (lsnText, timeline) =>
              match map_error (Errorf_w (bracket_msg b "parse start LSN")) (ParseLSN lsnText) with
              | Fail err => update (conn_Release c) ;;; ret (Fail err, b)
              | Ok lsn => ret (Ok {| si_LSN := lsn; si_Timeline := timeline |}, {| b_legacy := b_legacy b; b_conn := Some c |})
              end
          end
      end
  end.

(** [Stop]; the connection goes back to the pool whatever happens. *)
Definition Stop (b : bracket) : M W (result StopInfo * bracket) :=
  match b_conn b with
  | None => ret (Fail (errors_New (bracket_msg b "Stop without Start")), b)
  | Some c =>
      row <- try (wrapping (bracket_msg b "pg_backup_stop") (pg_backup_stop (b_legacy b) c)) ;;
      update (conn_Release c) ;;;
      let b' := {| b_legacy := b_legacy b; b_conn := None |} in
      match row with
      | Fail err => ret (Fail err, b')
      | Ok (lsnText, labelText, spcMapText) =>
          match map_error (Errorf_w (bracket_msg b "parse stop LSN")) (ParseLSN lsnText) with
          | Fail err => ret (Fail err, b')
          | Ok lsn => ret (Ok {| so_LSN := lsn; so_LabelFile := labelText; so_SpcMapFile := spcMapText |}, b')
          end
      end
  end.
End bracket.

(** What PostgreSQL documents of a session: [pg_backup_start] begins a backup in it or fails,
    [pg_backup_stop] ends it. The pool lends a connection that has none in progress to one user. *)
Class SessionLaws (W : Type) `{Sessions W} := {
  lent : W -> Conn -> Prop;
  backing_up : W -> Conn -> Prop;
  acquire_spec w c w' : pool_Acquire w = (Ok c, w') ->
    ~ lent w c /\ ~ backing_up w' c /\ (forall d, lent w' d <-> d = c \/ lent w d) /\
    forall d, d <> c -> backing_up w' d <-> backing_up w d;
  acquire_fails w e w' : pool_Acquire w = (Fail e, w') ->
    (forall d, lent w' d <-> lent w d) /\ forall d, backing_up w' d <-> backing_up w d;
  release_spec c w : (forall d, lent (conn_Release c w) d <-> d <> c /\ lent w d) /\
    forall d, backing_up (conn_Release c w) d <-> backing_up w d;
  backup_start_spec legacy c label fast w :
    (forall d, lent (snd (pg_backup_start legacy c label fast w)) d <-> lent w d) /\
    (forall d, d <> c -> backing_up (snd (pg_backup_start legacy c label fast w)) d <-> backing_up w d) /\
    (forall row w', pg_backup_start legacy c label fast w = (Ok row, w') -> ~ backing_up w c /\ backing_up w' c) /\
    (forall e w', pg_backup_start legacy c label fast w = (Fail e, w') -> backing_up w' c <-> backing_up w c);
  backup_stop_spec legacy c w :
    (forall d, lent (snd (pg_backup_stop legacy c w)) d <-> lent w d) /\
    (forall d, d <> c -> backing_up (snd (pg_backup_stop legacy c w)) d <-> backing_up w d) /\
    (forall row w', pg_backup_stop legacy c w = (Ok row, w') -> backing_up w c /\ ~ backing_up w' c);
  (** The text of a position is one. *)
  backup_start_text legacy c label fast w row w' : pg_backup_start legacy c label fast w = (Ok row, w') ->
    exists l, is_u64 l /\ fst row = LSN_String l;
}.

(** ** WAL summaries *)

Definition ErrUnsupported_msg : string := "walsummary: PG <17 has no WAL summarizer".

Record SummarizerState := { ss_TLI : Z; ss_LSN : LSN }.
Record SummaryRange := { sr_Timeline : Z; sr_StartLSN : LSN; sr_EndLSN : LSN }.
Record ChangedBlock := { cb_RelFileNode : Z; cb_ForkNumber : Z; cb_BlockNo : Z }.

(** The rows of the three functions. *)
Class Summaries (W : Type) := {
  pg_summarizer_state : M W (Z * string);
  pg_available_summaries : M W (list (Z * string * string));
  pg_summary_contents : Z -> string -> string -> M W (list (Z * Z * Z));
}.

Section walsummary.
Context {W : Type} `{Summaries W}.

(** [New] of walsummary.go *)
Definition walsummary_New (pool : bool) (pgVersion : Z) : result unit :=
  if pgVersion <? 17 then Fail (errors_New ErrUnsupported_msg)
  else if negb pool then Fail (errors_New "walsummary: pool is required") else Ok tt.

(** [summarizer.State] *)
Definition walsummary_State : M W SummarizerState :=
  row <- wrapping "walsummary: pg_get_wal_summarizer_state" pg_summarizer_state ;;
  lsn <- of_result (map_error (Errorf_w "walsummary: parse summarized_lsn") (ParseLSN (snd row))) ;;
  ret {| ss_TLI := fst row; ss_LSN := lsn |}.

Definition summary_range (row : Z * string * string) : result SummaryRange :=
  let '(tli, startText, endText) := row in
  match ParseLSN startText with
  | Fail err => Fail (Errorf_w "walsummary: parse start" err)
  | Ok startLSN =>
      match ParseLSN endText with
      | Fail err => Fail (Errorf_w "walsummary: parse end" err)
      | Ok endLSN => Ok {| sr_Timeline := tli; sr_StartLSN := startLSN; sr_EndLSN := endLSN |}
      end
  end.

(** [summarizer.Available] *)
Definition walsummary_Available : M W (list SummaryRange) :=
  rows <- wrapping "walsummary: pg_available_wal_summaries" pg_available_summaries ;;
  forM rows [] (fun out row => r <- of_result (summary_range row) ;; ret (out ++ [r])).

Definition changed_block (row : Z * Z * Z) : result ChangedBlock :=
  let '(rel, fork, blk) := row in
  if (fork <? 0) || (3 <? fork) then Fail (errors_New "walsummary: unexpected forknum")
  else if (blk <? 0) || (2 ^ 32 - 1 <? blk) then Fail (errors_New "walsummary: blocknum out of uint32 range")
  else Ok {| cb_RelFileNode := rel; cb_ForkNumber := u8 fork; cb_BlockNo := u32 blk |}.

(** [summarizer.Contents] *)
Definition walsummary_Contents (timeline : Z) (start stop : LSN) : M W (list ChangedBlock) :=
  rows <- wrapping "walsummary: pg_wal_summary_contents" (pg_summary_contents timeline (LSN_String start) (LSN_String stop)) ;;
  forM rows [] (fun out row => b <- of_result (changed_block row) ;; ret (out ++ [b])).
End walsummary.

(** ** The files of the cluster *)

(** What [pg_ls_dir] and [pg_stat_file] answer while a query runs, by the path below the data
    directory; [None] for the NULL of a file that is gone. *)
Record pgtree := { pg_ls_dir : string -> list string; pg_stat_file : string -> option (bool * Z) }.

Class Catalog (W : Type) := {
  pg_walk : M W pgtree;                                   (* one of the two queries *)
  pg_read_binary_file : string -> Z -> Z -> M W string;   (* nothing for a file that is gone *)
  pg_data_directory : M W string;
}.

(** One character, as a [LIKE] pattern's underscore takes it. *)
Fixpoint drop_continuation (s : string) : string :=
  match s with
  | String c s' => if (128 <=? byte_val c) && (byte_val c <? 192) then drop_continuation s' else s
  | "" => ""
  end.

(** [full_path LIKE 'pg_wal%'] *)
Definition like_pg_wal (s : string) : bool :=
  match s with
  | String a (String b (String _ rest)) =>
      Ascii.eqb a "p" && Ascii.eqb b "g" && HasPrefix (drop_continuation rest) "wal"
  | _ => false
  end.

Definition not_backed_up : list string := ["postmaster.pid"; "postmaster.opts"; "pg_internal.init"].

(** The conditions on a row of the two queries. *)
Definition excluded_file (p : string) : bool := like_pg_wal p || bool_decide (p ∈ not_backed_up).
Definition excluded_dir (p : string) : bool := like_pg_wal p.

(** A row of [walked]. *)
Record row := Row { r_path : string; r_depth : Z; r_isdir : bool; r_size : Z }.

Definition child_path (dir entry : string) : string := if String.eqb dir "" then entry else dir +:+ "/" +:+ entry.

Definition max_walk_depth : Z := 12.

(** The recursive part of the query, for one row. *)
Definition children (t : pgtree) (excluded : string -> bool) (r : row) : list row :=
  if r_isdir r && (r_depth r <? max_walk_depth) then
    omap (fun entry =>
      let full_path := child_path (r_path r) entry in
      match pg_stat_file t full_path with
      | Some (isdir, size) => if excluded full_path then None else Some (Row full_path (r_depth r + 1) isdir size)
      | None => None
      end) (pg_ls_dir t (r_path r))
  else [].

(** [WITH RECURSIVE]: rounds until one brings no row. *)
Fixpoint walked (fuel : nat) (t : pgtree) (excluded : string -> bool) (work : list row) : list row :=
  match fuel with
  | O => []
  | S fuel => match work with [] => [] | _ :: _ => work ++ walked fuel t excluded (mjoin (children t excluded <$> work)) end
  end.

Definition root_row : row := Row "" 0 true 0.

(** Every round goes one level down. *)
Definition walk_fuel : nat := Z.to_nat max_walk_depth + 2.

(** [FileEntry] *)
Record FileEntry := { fe_Path : string; fe_Size : Z }.

Definition file_of_row (r : row) : option FileEntry :=
  if negb (String.eqb (r_path r) "") && negb (r_isdir r) then Some {| fe_Path := r_path r; fe_Size := r_size r |} else None.

Definition dir_of_row (r : row) : option string :=
  if negb (String.eqb (r_path r) "") && r_isdir r then Some (r_path r) else None.

Section readbinary.
Context {W : Type} `{Catalog W}.

(** [ListPGData] *)
Definition ListPGData : M W (list FileEntry) :=
  t <- wrapping "readbinary: ListPGData query" pg_walk ;;
  ret (omap file_of_row (walked walk_fuel t excluded_file [root_row])).

(** [ListPGDataDirs]; [collate] is the order the database sorts text in. *)
Definition ListPGDataDirs (collate : list string -> list string) : M W (list string) :=
  t <- wrapping "readbinary: ListPGDataDirs query" pg_walk ;;
  ret (collate (omap dir_of_row (walked walk_fuel t excluded_dir [root_row]))).

(** [Reader] *)
Record Reader := {
  rd_path : string; rd_totalSize : Z; rd_chunkSize : Z; rd_offset : Z; rd_buf : string; rd_bufPos : nat; rd_done : bool;
}.

Definition DefaultChunkSize : Z := 64 * 1024 * 1024.

(** [NewReader] *)
Definition NewReader (path : string) (totalSize chunkSize : Z) : Reader :=
  {| rd_path := path; rd_totalSize := totalSize;
     rd_chunkSize := if chunkSize <=? 0 then DefaultChunkSize else chunkSize;
     rd_offset := 0; rd_buf := ""; rd_bufPos := 0; rd_done := false |}.

Definition set_rd (r : Reader) (offset : Z) (buf : string) (pos : nat) (done : bool) : Reader :=
  {| rd_path := rd_path r; rd_totalSize := rd_totalSize r; rd_chunkSize := rd_chunkSize r;
     rd_offset := offset; rd_buf := buf; rd_bufPos := pos; rd_done := done |}.

(** [fetchNext] *)
Definition fetchNext (r : Reader) : M W Reader :=
  if rd_totalSize r <=? rd_offset r then ret (set_rd r (rd_offset r) "" 0 (rd_done r))
  else
    let want := Z.min (rd_totalSize r - rd_offset r) (rd_chunkSize r) in
    chunk <- wrapping "readbinary: pg_read_binary_file" (pg_read_binary_file (rd_path r) (rd_offset r) want) ;;
    if (slen chunk =? 0)%nat && (rd_offset r <? rd_totalSize r) then throw (errors_New "readbinary: unexpected empty chunk")
    else ret (set_rd r (i64 (rd_offset r + Z.of_nat (slen chunk))) chunk 0 (rd_done r)).

(** How one [Read] ends. *)
Inductive read_end := More | AtEOF | Failed (err : error).

(** [Read] into a buffer of [n] bytes. *)
Definition Reader_Read (n : nat) (r : Reader) : M W (string * read_end * Reader) :=
  if (rd_bufPos r <? slen (rd_buf r))%nat then
    let out := stake n (sdrop (rd_bufPos r) (rd_buf r)) in
    ret (out, More, set_rd r (rd_offset r) (rd_buf r) (rd_bufPos r + slen out) (rd_done r))
  else if rd_done r then ret ("", AtEOF, r)
  else
    d <- try (fetchNext r) ;;
    match d with
    | Fail err => ret ("", Failed err, r)
    | Ok r =>
        if (slen (rd_buf r) =? 0)%nat then ret ("", AtEOF, set_rd r (rd_offset r) (rd_buf r) (rd_bufPos r) true)
        else let out := stake n (rd_buf r) in
             ret (out, More, set_rd r (rd_offset r) (rd_buf r) (slen out) (rd_done r))
    end.
End readbinary.

(** What is relied on: the queries write nothing to the storage (WAL may be archived meanwhile), leave
    what is being written alone, and no read returns more than it was asked for. *)
Class CatalogLaws (W : Type) `{BackendLaws W, Catalog W} := {
  walk_quiet : quiet pg_walk;
  data_directory_quiet : quiet pg_data_directory;
  read_file_quiet p off len : quiet (pg_read_binary_file p off len);
  read_file_pending p off len w h : pending (snd (pg_read_binary_file p off len w)) h = pending w h;
  read_file_length p off len w b w' : 0 <= len -> pg_read_binary_file p off len w = (Ok b, w') -> Z.of_nat (slen b) <= len;
}.

(** None of the calls of a bracket writes to the storage, and a text fits a Go string. *)
Class SessionsQuiet (W : Type) `{BackendLaws W, Sessions W} := {
  acquire_quiet : quiet pool_Acquire;
  backup_start_quiet legacy c label fast : quiet (pg_backup_start legacy c label fast);
  backup_stop_quiet legacy c : quiet (pg_backup_stop legacy c);
  release_view c w : view (conn_Release c w) = view w;
  backup_stop_fits legacy c w lsn label spcmap w' : pg_backup_stop legacy c w = (Ok (lsn, label, spcmap), w') ->
    is_i64 (Z.of_nat (slen label)) /\ is_i64 (Z.of_nat (slen spcmap));
}.
