(* ===== verification/PgSqlSpec.v ===== *)
(** * Brackets, listings and readers are right

    A bracket holds its session exactly from a start that worked to the stop, the listing of the
    data directory has every file but the excluded ones, and a reader comes to its end. *)

From S2P Require Import Prelude Lsn Wal Storage Host Worlds Bracket BracketSpec PageChecksum PgSql.

(** ** One session from start to stop *)

Section bracket_spec.
Context {W : Type} `{SessionLaws W}.

(** The pool lends what it lent before, and the connection of the bracket, which has the backup in
    progress. *)
Record bracket_inv (lent0 : Conn -> Prop) (b : bracket) (w : W) : Prop := {
  bi_lent d : lent w d <-> lent0 d \/ b_conn b = Some d;
  bi_own c : b_conn b = Some c -> ~ lent0 c /\ backing_up w c;
}.

Lemma release_inv (lent0 : Conn -> Prop) legacy c (w : W) : ~ lent0 c -> (forall d, lent w d <-> lent0 d \/ Some c = Some d) ->
  bracket_inv lent0 {| b_legacy := legacy; b_conn := None |} (conn_Release c w).
Proof.
  intros Hc Hl. split; [|done]. intros d. destruct (release_spec c w) as [Hr _]. rewrite Hr, Hl. cbn [b_conn]. split.
  - intros [Hne [?|[= ->]]]; [by left|done].
  - intros [?|[=]]. split; [by intros ->|by left].
Qed.

Lemma Start_inv lent0 label fast b w r b' w' : bracket_inv lent0 b w -> Start label fast b w = (Ok (r, b'), w') ->
  bracket_inv lent0 b' w' /\ (isOk r = true -> b_conn b = None /\ is_Some (b_conn b')) /\ (isOk r = false -> b_conn b' = b_conn b).
Proof.
  intros [Hl Ho]. unfold Start. destruct b as [legacy [c|]]; cbn [b_conn b_legacy] in *.
  { intros [= <- <- <-]. done. }
  unfold bind at 1, try at 1, wrapping at 1. destruct (pool_Acquire w) as [[c|e] w1] eqn:Ea; cbn [map_error].
  2:{ intros [= <- <- <-]. destruct (acquire_fails _ _ _ Ea) as [Hl1 _]. split; [|done]. split; [|done]. intros d. by rewrite Hl1, Hl. }
  destruct (acquire_spec _ _ _ Ea) as (Hnl & _ & Hl1 & _).
  assert (Hc : ~ lent0 c) by (intros Hc; apply Hnl, Hl; by left).
  unfold bind at 1, try at 1, wrapping at 1. destruct (backup_start_spec legacy c label fast w1) as (Hl2 & _ & Hok & _).
  destruct (pg_backup_start legacy c label fast w1) as [[[txt tli]|e] w2] eqn:Es; cbn [map_error snd] in *.
  - destruct (backup_start_text _ _ _ _ _ _ _ Es) as (l & Hr & E). cbn [fst] in E. rewrite E, (ParseLSN_String l Hr). cbn [map_error].
    intros [= <- <- <-]. destruct (Hok _ _ eq_refl) as [_ Hb]. split; [|done]. split.
    + intros d. rewrite Hl2, Hl1, Hl. cbn [b_conn]. split; [|naive_solver]. intros [->|[?|[=]]]; [by right|by left].
    + intros d [= <-]. done.
  - unfold bind, update, ret. intros [= <- <- <-]. split; [|done]. apply release_inv; [done|].
    intros d. rewrite Hl2, Hl1, Hl. split; [|naive_solver]. intros [->|[?|[=]]]; [by right|by left].
Qed.

Lemma Stop_inv lent0 b w r b' w' : bracket_inv lent0 b w -> Stop b w = (Ok (r, b'), w') ->
  bracket_inv lent0 b' w' /\ b_conn b' = None /\ (isOk r = true -> exists c, b_conn b = Some c /\ ~ backing_up w' c).
Proof.
  intros [Hl Ho]. unfold Stop. destruct b as [legacy [c|]]; cbn [b_conn b_legacy] in *.
  2:{ intros [= <- <- <-]. done. }
  destruct (Ho c eq_refl) as [Hc _]. unfold bind at 1, try at 1, wrapping at 1.
  destruct (backup_stop_spec legacy c w) as (Hl1 & _ & Hok).
  destruct (pg_backup_stop legacy c w) as [row w1] eqn:Es; cbn [snd] in *.
  assert (Hinv : bracket_inv lent0 {| b_legacy := legacy; b_conn := None |} (conn_Release c w1)).
  { apply release_inv; [done|]. intros d. by rewrite Hl1, Hl. }
  unfold bind, update. destruct (release_spec c w1) as [_ Hb].
  destruct row as [[[lsnText labelText] spcMapText]|e]; cbn [map_error].
  - destruct (Hok _ _ eq_refl) as [_ Hstop].
    destruct (ParseLSN lsnText) as [lsn|e]; cbn [map_error]; intros [= <- <- <-]; (split_and!; [done|done|]); [|done].
    intros _. exists c. split; [done|]. by rewrite Hb.
  - intros [= <- <- <-]. done.
Qed.

(** Any calls one after the other. *)
Inductive bracket_call := CallStart (label : string) (fast : bool) | CallStop.

Definition do_call (k : bracket_call) (b : bracket) : M W bracket :=
  match k with
  | CallStart label fast => d <- Start label fast b ;; ret (snd d)
  | CallStop => d <- Stop b ;; ret (snd d)
  end.

Lemma do_calls_inv lent0 (calls : list bracket_call) b w b' w' : bracket_inv lent0 b w ->
  forM calls b (fun b k => do_call k b) w = (Ok b', w') -> bracket_inv lent0 b' w'.
Proof.
  revert b w. induction calls as [|k calls IH]; intros b w Hb; cbn [forM]; [by intros [= <- <-]|].
  unfold bind at 1. destruct k as [label fast|]; unfold do_call at 1, bind at 1.
  - destruct (Start label fast b w) as [[[r b1]|e] w1] eqn:E; [|done]. apply IH. by eapply Start_inv.
  - destruct (Stop b w) as [[[r b1]|e] w1] eqn:E; [|done]. apply IH. by eapply Stop_inv.
Qed.
End bracket_spec.

(** Whatever calls are made on a bracket and whichever fail, the pool misses only the connection
    the bracket holds, that session has the backup in progress, and after a stop it misses none. *)
Theorem bracket_balanced {W : Type} `{SessionLaws W} legacy calls b w w1 w2 r b2 :
  forM calls {| b_legacy := legacy; b_conn := None |} (fun b k => do_call k b) w = (Ok b, w1) ->
  Stop b w1 = (Ok (r, b2), w2) ->
  (forall c, b_conn b = Some c -> backing_up w1 c /\ ~ lent w c) /\
  (forall d, lent w1 d <-> lent w d \/ b_conn b = Some d) /\
  b_conn b2 = None /\ (forall d, lent w2 d <-> lent w d) /\
  (isOk r = true -> exists c, b_conn b = Some c /\ ~ backing_up w2 c).
Proof.
  intros Hc Hs. assert (Hi0 : bracket_inv (lent w) {| b_legacy := legacy; b_conn := None |} w) by (split; [naive_solver|done]).
  pose proof (do_calls_inv _ _ _ _ _ _ Hi0 Hc) as Hi1. destruct (Stop_inv _ _ _ _ _ _ Hi1 Hs) as (Hi2 & Hn & Hok).
  destruct Hi1 as [Hl1 Ho1], Hi2 as [Hl2 _]. split_and!; [|done|done| |done].
  - intros c E. by destruct (Ho1 c E).
  - intros d. rewrite Hl2, Hn. naive_solver.
Qed.

(** ** The listing *)

(** What is below the data directory, by the functions of PostgreSQL, at its depth; nothing on the
    way is excluded. *)
Inductive on_disk (t : pgtree) (excluded : string -> bool) : string -> Z -> bool -> Z -> Prop :=
| on_disk_top entry d s : entry ∈ pg_ls_dir t "" -> pg_stat_file t entry = Some (d, s) -> excluded entry = false ->
    on_disk t excluded entry 1 d s
| on_disk_below dir n s0 entry d s : on_disk t excluded dir n true s0 -> entry ∈ pg_ls_dir t dir ->
    pg_stat_file t (dir +:+ "/" +:+ entry) = Some (d, s) -> excluded (dir +:+ "/" +:+ entry) = false ->
    on_disk t excluded (dir +:+ "/" +:+ entry) (n + 1) d s.

Section walk.
Context (t : pgtree) (excluded : string -> bool).

Definition next_rows (work : list row) : list row := mjoin (children t excluded <$> work).

Lemma next_rows_elem r work : r ∈ next_rows work <-> exists q, q ∈ work /\ r ∈ children t excluded q.
Proof.
  unfold next_rows. rewrite list_elem_of_join. split.
  - intros (l & Hr & (q & -> & Hq)%list_elem_of_fmap). by exists q.
  - intros (q & Hq & Hr). exists (children t excluded q). split; [done|by apply list_elem_of_fmap_2].
Qed.

Lemma children_elem r q : r ∈ children t excluded q <-> r_isdir q = true /\ r_depth q < max_walk_depth /\ exists entry,
  entry ∈ pg_ls_dir t (r_path q) /\ r_path r = child_path (r_path q) entry /\ r_depth r = r_depth q + 1 /\
  pg_stat_file t (r_path r) = Some (r_isdir r, r_size r) /\ excluded (r_path r) = false.
Proof.
  unfold children. split.
  - destruct (r_isdir q) eqn:Hd; [|by intros ?%not_elem_of_nil]. destruct (Z.ltb_spec (r_depth q) max_walk_depth) as [Hlt|]; [|by intros ?%not_elem_of_nil].
    cbn [andb]. intros (entry & Hin & Hr)%list_elem_of_omap. split_and!; [done|done|]. exists entry. revert Hr.
    destruct (pg_stat_file t (child_path (r_path q) entry)) as [[d s]|] eqn:Es; [|done].
    destruct (excluded _) eqn:Ex; [done|]. intros [= <-]. cbn. by rewrite Es.
  - intros (-> & Hlt & entry & Hin & Hp & Hdep & Hs & Hx). replace (r_depth q <? max_walk_depth) with true by (symmetry; by apply Z.ltb_lt).
    cbn [andb]. apply list_elem_of_omap. exists entry. split; [done|]. rewrite <- Hp, Hs, Hx. destruct r; cbn in *; by subst.
Qed.

Lemma next_rows_iter k work : Nat.iter (S k) next_rows work = Nat.iter k next_rows (next_rows work).
Proof. apply Nat.iter_succ_r. Qed.

Lemma next_rows_nil k : Nat.iter k next_rows [] = [].
Proof. induction k as [|k IH]; [done|]. by rewrite next_rows_iter. Qed.

Lemma walked_elem fuel work r : r ∈ walked fuel t excluded work <-> exists k, (k < fuel)%nat /\ r ∈ Nat.iter k next_rows work.
Proof.
  revert work. induction fuel as [|fuel IH]; intros work; cbn [walked].
  - split; [by intros ?%not_elem_of_nil|intros (k & ? & _); lia].
  - destruct work as [|q work].
    + split; [by intros ?%not_elem_of_nil|]. intros (k & _ & Hr). rewrite next_rows_nil in Hr. by apply not_elem_of_nil in Hr.
    + rewrite elem_of_app. fold (next_rows (q :: work)). rewrite IH. split.
      * intros [Hr|(k & Hk & Hr)]; [exists 0%nat; split; [lia|done]|exists (S k); split; [lia|by rewrite next_rows_iter]].
      * intros ([|k] & Hk & Hr); [by left|right; exists k; split; [lia|by rewrite <- next_rows_iter]].
Qed.

Hypothesis Hnames : forall d e, e ∈ pg_ls_dir t d -> e <> "".

Lemma on_disk_path p n d s : on_disk t excluded p n d s -> p <> "" /\ 1 <= n.
Proof.
  induction 1 as [e d s Hin _ _|dir n s0 e d s _ [IH ?] _ _ _]; [split; [by eapply Hnames|lia]|].
  split; [|lia]. by destruct dir.
Qed.

(** The rows of a round are what is on the disk at its depth. *)
Lemma round_rows k r : r ∈ Nat.iter (S k) next_rows [root_row] <->
  r_depth r = Z.of_nat (S k) /\ r_depth r <= max_walk_depth /\ on_disk t excluded (r_path r) (r_depth r) (r_isdir r) (r_size r).
Proof.
  revert r. induction k as [|k IH]; intros r; change (Nat.iter (S ?m) next_rows ?w) with (next_rows (Nat.iter m next_rows w)).
  - rewrite next_rows_elem. split.
    + intros (q & ->%list_elem_of_singleton & (_ & _ & e & Hin & Hp & Hdep & Hs & Hx)%children_elem).
      cbn in Hp, Hdep, Hin. unfold max_walk_depth. split_and!; [lia|lia|]. rewrite Hp in *. rewrite Hdep. by apply on_disk_top.
    + intros (Hd & _ & Hdisk). exists root_row. split; [by apply list_elem_of_singleton|]. apply children_elem. split_and!; [done|done|].
      inversion Hdisk as [e d s Hin Hs Hx Ep En|dir n s0 e d s Hup Hin Hs Hx Ep En]; subst.
      * exists (r_path r). split_and!; [done|done|cbn; lia|done|done].
      * apply on_disk_path in Hup as [_ ?]. lia.
  - rewrite next_rows_elem. split.
    + intros (q & (Hd & Hle & Hq)%IH & (Hdir & Hlt & e & Hin & Hp & Hdep & Hs & Hx)%children_elem).
      destruct (on_disk_path _ _ _ _ Hq) as [Hne _]. unfold child_path in Hp. apply String.eqb_neq in Hne. rewrite Hne in Hp.
      split_and!; [lia|lia|]. rewrite Hdep, Hp in *. rewrite Hdir in Hq. by eapply on_disk_below.
    + intros (Hd & Hle & Hdisk). inversion Hdisk as [e d s Hin Hs Hx Ep En|dir n s0 e d s Hup Hin Hs Hx Ep En]; subst; [lia|].
      exists (Row dir n true s0). split; [apply IH; cbn; split_and!; [lia|lia|done]|]. apply children_elem. cbn.
      split_and!; [done|lia|]. exists e. unfold child_path. destruct (on_disk_path _ _ _ _ Hup) as [Hne _]. apply String.eqb_neq in Hne. rewrite Hne, <- Ep.
      split_and!; [done|done|lia|done|done].
Qed.

(** The query has all there is, down to its depth. *)
Lemma walked_rows r : r_path r <> "" ->
  r ∈ walked walk_fuel t excluded [root_row] <->
  r_depth r <= max_walk_depth /\ on_disk t excluded (r_path r) (r_depth r) (r_isdir r) (r_size r).
Proof.
  intros Hne. rewrite walked_elem. split.
  - intros ([|k] & Hk & Hr); [apply list_elem_of_singleton in Hr as ->; done|]. by apply round_rows in Hr as (_ & ? & ?).
  - intros (Hle & Hd). destruct (on_disk_path _ _ _ _ Hd) as [_ Hpos]. exists (S (Z.to_nat (r_depth r - 1))). unfold walk_fuel, max_walk_depth in *.
    split; [lia|]. apply round_rows. split_and!; [lia|done|done].
Qed.
End walk.

(** C34: the listing has exactly the files below the data directory, up to twelve levels down, that are not
    excluded and not below something excluded, each with its size; one more round of the recursive
    query would bring nothing. *)
Theorem ListPGData_complete {W : Type} `{Catalog W} t w w' :
  pg_walk w = (Ok t, w') -> (forall d e, e ∈ pg_ls_dir t d -> e <> "") ->
  exists files, ListPGData w = (Ok files, w') /\
    (forall p s, {| fe_Path := p; fe_Size := s |} ∈ files <-> exists n, n <= max_walk_depth /\ on_disk t excluded_file p n false s) /\
    forall fuel, (walk_fuel <= fuel)%nat -> forall r, r ∈ walked fuel t excluded_file [root_row] <-> r ∈ walked walk_fuel t excluded_file [root_row].
Proof.
  intros Hw Hnames. unfold ListPGData, bind, wrapping. rewrite Hw. cbn [map_error]. eexists. split; [done|]. split.
  - intros p s. rewrite list_elem_of_omap. split.
    + intros (r & Hr & Hf). unfold file_of_row in Hf. destruct (String.eqb_spec (r_path r) "") as [|Hne]; [done|].
      destruct (r_isdir r) eqn:Hd; [done|]. injection Hf as <- <-. apply (walked_rows _ _ Hnames r Hne) in Hr as [Hle Hdisk].
      rewrite Hd in Hdisk. by exists (r_depth r).
    + intros (n & Hle & Hdisk). exists (Row p n false s). destruct (on_disk_path _ _ Hnames _ _ _ _ Hdisk) as [Hne _].
      split; [by apply walked_rows|]. unfold file_of_row. cbn. apply String.eqb_neq in Hne. by rewrite Hne.
  - intros fuel Hf r. rewrite !walked_elem. split; intros (k & Hk & Hr); exists k; (split; [|done]); [|lia].
    destruct k as [|k]; [unfold walk_fuel; lia|]. apply (round_rows _ _ Hnames) in Hr as (Hd & Hle & _). unfold walk_fuel, max_walk_depth in *. lia.
Qed.

(** ** The reader *)

Record reader_ok (r : Reader) : Prop := {
  rok_chunk : 0 < rd_chunkSize r;
  rok_total : rd_totalSize r < 2 ^ 63;
  rok_offset : 0 <= rd_offset r <= Z.max 0 (rd_totalSize r);
  rok_pos : (rd_bufPos r <= slen (rd_buf r))%nat;
  rok_done : rd_done r = true -> rd_totalSize r <= rd_offset r;
}.

(** The bytes that are still to come, if the file has not shrunk. *)
Definition left_bytes (r : Reader) : Z := Z.max 0 (rd_totalSize r) - rd_offset r + (Z.of_nat (slen (rd_buf r)) - Z.of_nat (rd_bufPos r)).

Lemma NewReader_ok p total chunk : total < 2 ^ 63 -> reader_ok (NewReader p total chunk) /\ left_bytes (NewReader p total chunk) = Z.max 0 total.
Proof.
  intros Ht. unfold left_bytes. split; [|cbn; lia]. split; cbn; try lia; try done.
  destruct (Z.leb_spec chunk 0); [unfold DefaultChunkSize; lia|lia].
Qed.

Section reader.
Context {W : Type} `{CatalogLaws W}.

(** Every read of the path gives the bytes [c] has there. *)
Definition steady (p c : string) : Prop := forall off len w b w', 0 <= off ->
  pg_read_binary_file p off len w = (Ok b, w') -> b = stake (Z.to_nat len) (sdrop (Z.to_nat off) c).

(** What the reader gave, and what it has in its buffer, is the file so far. *)
Definition gave (c : string) (r : Reader) (d : string) : Prop :=
  d +:+ sdrop (rd_bufPos r) (rd_buf r) = stake (Z.to_nat (rd_offset r)) c.

Definition untouched (w w' : W) : Prop := same_outside wal_key w w' /\ forall h, pending w' h = pending w h.

Lemma untouched_refl w : untouched w w.
Proof. by split. Qed.

Lemma untouched_trans w1 w2 w3 : untouched w1 w2 -> untouched w2 w3 -> untouched w1 w3.
Proof. intros [Hs1 Hp1] [Hs2 Hp2]. split; [by etrans|]. intros h. by rewrite Hp2, Hp1. Qed.

Lemma stake_stake_drop a b (c : string) : stake a c +:+ stake b (sdrop a c) = stake (a + b) c.
Proof.
  revert c. induction a as [|a IH]; intros c; [done|]. destruct c as [|x c]; cbn [stake sdrop Nat.add]; [by destruct b|].
  change (String x (stake a c) +:+ stake b (sdrop a c)) with (String x (stake a c +:+ stake b (sdrop a c))). by rewrite IH.
Qed.

Lemma stake_slen n (s : string) : stake (slen (stake n s)) s = stake n s.
Proof. revert s. induction n as [|n IH]; intros [|x s]; cbn [stake slen]; [done..|]. by rewrite IH. Qed.

Lemma fetchNext_spec r w : reader_ok r -> rd_bufPos r = slen (rd_buf r) -> exists d w', fetchNext r w = (d, w') /\ untouched w w' /\
  forall r', d = Ok r' -> reader_ok r' /\ rd_bufPos r' = 0%nat /\ left_bytes r' = left_bytes r /\
    (slen (rd_buf r') = 0%nat -> rd_totalSize r <= rd_offset r) /\ rd_path r' = rd_path r /\ rd_totalSize r' = rd_totalSize r /\
    (forall c d, steady (rd_path r) c -> gave c r d -> gave c r' d).
Proof.
  intros Hr Hpos. assert (Hg0 : forall c d, gave c r d -> d = stake (Z.to_nat (rd_offset r)) c).
  { intros c d. unfold gave. rewrite Hpos. rewrite <- (sapp_nil_r (rd_buf r)) at 2. rewrite sdrop_app. by rewrite sapp_nil_r. }
  unfold fetchNext. destruct Hr as [Hc Ht Ho Hp Hd]. destruct (Z.leb_spec (rd_totalSize r) (rd_offset r)) as [Hle|Hlt].
  - eexists _, w. split; [done|]. split; [apply untouched_refl|]. intros r' [= <-]. unfold left_bytes; cbn.
    split_and!; [split; cbn; try lia; done|done|rewrite Hpos; lia|done|done|done|]. intros c d _ Hg. unfold gave. cbn. rewrite sapp_nil_r. by apply Hg0.
  - set (want := Z.min _ _). unfold bind at 1, wrapping.
    pose proof (read_file_quiet (rd_path r) (rd_offset r) want w) as Hq. pose proof (read_file_pending (rd_path r) (rd_offset r) want w) as Hpe.
    destruct (pg_read_binary_file (rd_path r) (rd_offset r) want w) as [[chunk|e] w1] eqn:E; cbn [snd map_error] in *; [|by eexists _, w1].
    assert (Hwant : 0 <= want) by lia. pose proof (read_file_length _ _ _ _ _ _ Hwant E) as Hl. replace (rd_offset r <? rd_totalSize r) with true by (symmetry; by apply Z.ltb_lt). rewrite andb_true_r.
    destruct (Nat.eqb_spec (slen chunk) 0) as [|Hne]; [by eexists _, w1|]. eexists _, w1. split; [done|]. split; [done|]. intros r' [= <-].
    assert (Hi : i64 (rd_offset r + Z.of_nat (slen chunk)) = rd_offset r + Z.of_nat (slen chunk)) by (apply i64_id; unfold is_i64; lia).
    unfold left_bytes; cbn.
    rewrite Hi. split_and!; [split; cbn; try lia|done|rewrite Hpos; lia|lia|done|done|].
    + intros Hdone. specialize (Hd Hdone). lia.
    + intros c d Hs Hg. rewrite (Hg0 c d Hg). unfold gave. cbn. apply Hs in E; [|lia]. change (sdrop 0 chunk) with chunk.
      rewrite Z2Nat.inj_add by lia. rewrite Nat2Z.id. rewrite <- stake_stake_drop. f_equal.
      rewrite E at 2. by rewrite stake_slen.
Qed.

Lemma sdrop_stake_slen n (s : string) : stake n s +:+ sdrop (slen (stake n s)) s = s.
Proof. rewrite <- (stake_slen n s) at 1. apply stake_drop. Qed.

(** [Read] gives bytes of the file in their order, and never comes to an end without an error before
    the size it was made with. *)
Lemma Reader_Read_spec n r w : (0 < n)%nat -> reader_ok r -> exists out e r' w', Reader_Read n r w = (Ok (out, e, r'), w') /\
  untouched w w' /\ reader_ok r' /\ rd_path r' = rd_path r /\ rd_totalSize r' = rd_totalSize r /\
  match e with
  | More => out <> "" /\ left_bytes r' + Z.of_nat (slen out) = left_bytes r /\
            forall c d, steady (rd_path r) c -> gave c r d -> gave c r' (d +:+ out)
  | AtEOF => out = "" /\ left_bytes r = 0 /\ forall c d, gave c r d -> d = stake (Z.to_nat (rd_totalSize r)) c
  | Failed _ => out = ""
  end.
Proof.
  intros Hn Hr. assert (Htake : forall s, slen s <> 0%nat -> stake n s <> "" /\ (slen (stake n s) <= slen s)%nat).
  { intros s Hs. split; [|rewrite slen_take; lia]. intros E. apply (f_equal slen) in E. rewrite slen_take in E. cbn in E. lia. }
  unfold Reader_Read. destruct (Nat.ltb_spec (rd_bufPos r) (slen (rd_buf r))) as [Hlt|Hge].
  - set (out := stake n (sdrop (rd_bufPos r) (rd_buf r))). destruct (Htake (sdrop (rd_bufPos r) (rd_buf r))) as [Hne Hle]; [rewrite slen_drop; lia|].
    fold out in Hne, Hle. rewrite slen_drop in Hle. eexists out, More, _, w. split; [done|]. split; [apply untouched_refl|].
    destruct Hr as [Hc Ht Ho Hp Hd]. unfold left_bytes. cbn. split_and!; [split; cbn; done || lia|done|done|done|lia|].
    intros c d _ Hg. unfold gave in *. cbn. rewrite <- Hg, sapp_assoc. f_equal. rewrite <- sdrop_sdrop. apply sdrop_stake_slen.
  - assert (Hpos : rd_bufPos r = slen (rd_buf r)) by (destruct Hr; lia).
    destruct (rd_done r) eqn:Hdone.
    + eexists "", AtEOF, r, w. destruct Hr as [Hc Ht Ho Hp Hd]. specialize (Hd Hdone). split; [done|]. split; [apply untouched_refl|].
      split; [done|]. split_and!; [done|done|done|unfold left_bytes; lia|]. intros c d Hg. unfold gave in Hg.
      rewrite Hpos in Hg. rewrite <- (sapp_nil_r (rd_buf r)) in Hg at 2. rewrite sdrop_app, sapp_nil_r in Hg. rewrite Hg. f_equal. lia.
    + destruct (fetchNext_spec r w Hr Hpos) as (f & w1 & Hf & Hw & Hok). unfold bind, try. rewrite Hf.
      destruct f as [r1|err]; [|eexists "", (Failed err), r, w1; done].
      destruct (Hok r1 eq_refl) as (Hr1 & Hp1 & Hl1 & Hend & Ep & Et & Hg1).
      destruct (Nat.eqb_spec (slen (rd_buf r1)) 0) as [Hz|Hnz].
      * eexists "", AtEOF, _, w1. split; [done|]. split; [done|]. specialize (Hend Hz). destruct Hr1 as [Hc Ht Ho Hp Hd].
        assert (Hl : rd_offset r1 = Z.max 0 (rd_totalSize r1) /\ left_bytes r = 0).
        { unfold left_bytes in *. destruct Hr as [_ _ Ho0 Hp0 _]. lia. }
        split; [split; cbn; done || lia|]. split_and!; [done|done|done|lia|]. intros c d Hg. unfold gave in Hg.
        rewrite Hpos in Hg. rewrite <- (sapp_nil_r (rd_buf r)) in Hg at 2. rewrite sdrop_app, sapp_nil_r in Hg. rewrite Hg. f_equal.
        destruct Hr as [_ _ Ho0 _ _]. lia.
      * destruct (Htake _ Hnz) as [Hne Hle]. eexists _, More, _, w1. split; [done|]. split; [done|].
        destruct Hr1 as [Hc Ht Ho Hp Hd]. split; [split; cbn; done || lia|]. split_and!; [done|done|done|unfold left_bytes in *; cbn; lia|].
        intros c d Hs Hg. apply (Hg1 c d Hs) in Hg. unfold gave in *. cbn. rewrite Hp1 in Hg. change (sdrop 0 (rd_buf r1)) with (rd_buf r1) in Hg.
        rewrite <- Hg, sapp_assoc. f_equal. apply sdrop_stake_slen.
Qed.
End reader.

(** ** WAL summaries *)

(** A row of a summary, and the block it names. *)
Definition names_block (row : Z * Z * Z) (b : ChangedBlock) : Prop :=
  row = (cb_RelFileNode b, cb_ForkNumber b, cb_BlockNo b) /\ 0 <= cb_ForkNumber b <= 3 /\ is_u32 (cb_BlockNo b).

Lemma blocks_loop {W : Type} rows pre out (w : W) r w' : Forall2 names_block pre out ->
  forM rows out (fun out row => b <- of_result (changed_block row) ;; ret (out ++ [b])) w = (r, w') ->
  match r with
  | Ok blocks => Forall2 names_block (pre ++ rows) blocks
  | Fail _ => exists row, row ∈ pre ++ rows /\ forall b, ~ names_block row b
  end.
Proof.
  revert pre out w. induction rows as [|[[rel fork] blk] rows IH]; intros pre out w Hd; cbn [forM].
  { intros [= <- <-]. by rewrite app_nil_r. }
  unfold bind at 1, of_result, bind at 1, changed_block.
  destruct (Z.ltb_spec fork 0), (Z.ltb_spec 3 fork), (Z.ltb_spec blk 0), (Z.ltb_spec (2 ^ 32 - 1) blk); cbn [orb].
  all: try (intros [= <- <-]; exists (rel, fork, blk); split; [apply elem_of_app; right; constructor|]; intros b [E [Hfork Hb]]; injection E; intros; unfold is_u32 in Hb; lia).
  intros Hrun. replace (pre ++ (rel, fork, blk) :: rows) with ((pre ++ [(rel, fork, blk)]) ++ rows) by by rewrite <- app_assoc.
  eapply IH; [|exact Hrun]. apply Forall2_app; [done|]. constructor; [|constructor]. unfold names_block. cbn.
  assert (u8 fork = fork) as -> by (unfold u8; apply Z.mod_small; lia). rewrite (u32_id blk) by (unfold is_u32; lia). unfold is_u32. split_and!; lia || done.
Qed.

(** The blocks of a WAL summary are the rows of the server in their order, no number cut to its width:
    a fork or a block number that does not fit is an error. *)
Theorem walsummary_Contents_exact {W : Type} `{Summaries W} timeline start stop w rows w1 r w' :
  pg_summary_contents timeline (LSN_String start) (LSN_String stop) w = (Ok rows, w1) ->
  walsummary_Contents timeline start stop w = (r, w') ->
  match r with
  | Ok blocks => Forall2 names_block rows blocks
  | Fail _ => exists row, row ∈ rows /\ forall b, ~ names_block row b
  end.
Proof.
  intros Hrows. unfold walsummary_Contents. unfold bind at 1, wrapping. rewrite Hrows. cbn [map_error].
  apply (blocks_loop rows [] []). constructor.
Qed.

(** ** A pool of one connection *)

(** Whether it is lent, and whether it has a backup in progress. *)
Record pool := Pool { p_lent : bool; p_backing : bool }.

#[local] Instance pool_sessions : Sessions pool := {
  Conn := unit;
  pool_Acquire w := if p_lent w || p_backing w then (Fail (errors_New "no connection"), w) else (Ok tt, Pool true (p_backing w));
  conn_Release _ w := Pool false (p_backing w);
  pg_backup_start _ _ _ _ w :=
    if p_backing w then (Fail (errors_New "a backup is already in progress in this session"), w)
    else (Ok ("0/2000028", 1), Pool (p_lent w) true);
  pg_backup_stop _ _ w :=
    if p_backing w then (Ok ("0/2000100", "label", ""), Pool (p_lent w) false) else (Fail (errors_New "backup is not in progress"), w);
}.

#[local] Program Instance pool_session_laws : SessionLaws pool := {
  lent w _ := p_lent w = true;
  backing_up w _ := p_backing w = true;
}.
Next Obligation.
  intros [[] []] [] w'; intros [= <-]. cbn. split_and!; [done|done| |done].
  intros []. by split; [left|].
Qed.
Next Obligation. intros [[] []] e w'; by intros [= _ <-]. Qed.
Next Obligation. intros [] w. cbn. split; intros []; [split; [done|by intros [? _]]|done]. Qed.
Next Obligation.
  intros legacy [] label fast [l []]; cbn; (split_and!; [done|by intros []|..]); intros ? w' [= _ <-]; done.
Qed.
Next Obligation. intros legacy [] [l []]; cbn; (split_and!; [done|by intros []|]); intros ? w' [= _ <-]; done. Qed.
Next Obligation.
  intros legacy c label fast [l []] row w'; cbn; intros [= <- <-]. exists 0x2000028. split; [unfold is_u64; lia|reflexivity].
Qed.

Definition two_starts : list bracket_call := [CallStart "pgsafe" true; CallStart "again" true].
Definition busy_bracket : bracket (W:=pool) := {| b_legacy := false; b_conn := Some tt |}.

Lemma bracket_balanced_witness : exists r b2 w2, Stop busy_bracket (Pool true true) = (Ok (r, b2), w2) /\
  b_conn b2 = None /\ forall d, lent w2 d <-> lent (Pool false false) d.
Proof.
  eexists _, _, _. split; [reflexivity|].
  destruct (bracket_balanced false two_starts busy_bracket (Pool false false) (Pool true true) _ _ _ eq_refl eq_refl) as (_ & _ & Hb & Hl & _).
  split; [exact Hb|exact Hl].
Defined.

(** ** A small tree *)

Definition tree_of : pgtree := {|
  pg_ls_dir d := if String.eqb d "" then ["PG_VERSION"; "base"; "pg_wal"; "postmaster.pid"] else if String.eqb d "base" then ["1"] else [];
  pg_stat_file p := if String.eqb p "base" || String.eqb p "pg_wal" then Some (true, 0) else Some (false, 3) |}.

#[local] Instance tree_catalog : Catalog unit := {
  pg_walk := ret tree_of; pg_read_binary_file _ _ _ := ret "abc"; pg_data_directory := ret "/pgdata" }.

Lemma tree_names d e : e ∈ pg_ls_dir tree_of d -> e <> "".
Proof.
  cbn. repeat case_match; intros Hin ->; set_unfold in Hin; by destruct_or? Hin.
Qed.

Lemma ListPGData_complete_witness : exists files, ListPGData tt = (Ok files, tt) /\
  {| fe_Path := "base/1"; fe_Size := 3 |} ∈ files.
Proof.
  destruct (ListPGData_complete (H:=tree_catalog) tree_of tt tt eq_refl tree_names) as (files & E & Hiff & _). exists files. split; [exact E|].
  apply Hiff. exists 2. split; [unfold max_walk_depth; lia|].
  change "base/1" with ("base" +:+ "/" +:+ "1"). change 2 with (1 + 1). apply (on_disk_below _ _ _ _ 0); [|by left|reflexivity|reflexivity].
  apply on_disk_top; [right; by left|reflexivity|reflexivity].
Defined.
