(* ===== verification/Parallel.v ===== *)
(** * Backups over several connections

    [internal/backup/remoteparallel.go]: the files of the cluster are listed and read by SQL, each
    by one goroutine through the filter chain into the storage. The goroutines are a permutation of
    the files. *)

From S2P Require Import Prelude Sha256 Lsn Wal Storage Host Time Json Manifest Archive PageChecksum Filter Bracket Resume Backup PgSql.

(** [RemoteParallelOptions] *)
Record RemoteParallelOptions := {
  rp_HasPool : bool; rp_Workers : Z; rp_PGVersion : Z; rp_PageChecksumMode : PageChecksum.Mode;
}.

(** [workersDefault] on a host with that many processors *)
Definition workersDefault (NumCPU n : Z) : Z :=
  if 0 <? n then n
  else let w := if 8 <? NumCPU then 8 else NumCPU in if w <? 1 then 1 else w.

(** [isHeapFile] *)
Definition isHeapFile (rel : string) : bool := HasPrefix rel "base/" || HasPrefix rel "global/" || HasPrefix rel "pg_tblspc/".

(** What the goroutines share: the manifest and the two counters. *)
Record tally := Tally { tl_mb : Builder; tl_files : Z; tl_bytes : Z }.

Section parallel.
Context {W : Type} `{Backend W, Clock W, Pg W, FilterLibs, Sessions W, Catalog W}.
Context (Now : W -> time).

(** ** One file *)

(** A [Read] through the page validator, where there is one. *)
Definition src_Read (n : nat) (v : option Validator) (r : Reader) : M W (string * read_end * (option Validator * Reader)) :=
  d <- Reader_Read n r ;;
  let '(chunk, e, r) := d in
  match v with
  | None => ret (chunk, e, (None, r))
  | Some v =>
      let '(chunk, err, v) := PageChecksum.Read v chunk (match e with Failed err => Some err | _ => None end) in
      ret (chunk, match err with Some err => Failed err | None => e end, (Some v, r))
  end.

Definition copy_buffer : nat := Z.to_nat (32 * 1024).

(** [io.Copy] into the chain; a read of at least one byte is written before its error counts. *)
Fixpoint io_Copy (fuel : nat) (v : option Validator) (r : Reader) (cw : chainWriter) : M W (result unit * chainWriter) :=
  match fuel with
  | O => ret (Fail out_of_fuel, cw)
  | S fuel =>
      d <- src_Read copy_buffer v r ;;
      let '(chunk, e, (v, r)) := d in
      d <- (if (slen chunk =? 0)%nat then ret (Ok tt, cw) else Write chunk cw) ;;
      let '(wr, cw) := d in
      match wr with
      | Fail err => ret (Fail err, cw)
      | Ok _ =>
          match e with
          | More => io_Copy fuel v r cw
          | AtEOF => ret (Ok tt, cw)
          | Failed err => ret (Fail err, cw)
          end
      end
  end.

(** Every read brings a byte. *)
Definition copy_fuel (size : Z) : nat := (Z.to_nat size + 1)%nat.

(** A new file of the storage through the chain: its writer, what [copy] puts into it, and its [Close];
    the messages are those of the four steps. *)
Definition through_chain (chain : Chain) (key : string) (msgs : string * string * string * string)
    (copy : chainWriter -> M W (result unit * chainWriter)) : M W FilterResult :=
  let '(m_put, m_wrap, m_copy, m_close) := msgs in
  wc <- wrapping m_put (be_Put key) ;;
  chainW <- wrapping m_wrap (Wrap chain wc) ;;
  d <- copy chainW ;;
  let '(r, chainW) := d in
  match r with
  | Fail err => try (Close chainW) ;;; throw (Errorf_w m_copy err)
  | Ok _ =>
      d <- Close chainW ;;
      let '(r, chainW) := d in
      match r with Fail err => throw (Errorf_w m_close err) | Ok _ => ret (cw_res chainW) end
  end.

(** [streamOneFile] *)
Definition streamOneFile (rpOpts : RemoteParallelOptions) (f : FileEntry) (opts : BackupOptions) (backupID : string)
  : M W (Z * string * time) :=
  let rb := NewReader (fe_Path f) (fe_Size f) 0 in
  let src := if isHeapFile (fe_Path f) then Some (PageChecksum.New (rp_PageChecksumMode rpOpts) 0) else None in
  if Contains (fe_Path f) ".." || HasPrefix (fe_Path f) "/" then throw (errors_New "traversal-style path rejected")
  else
    res <- through_chain (bo_Filter opts) (path_Join [backupID; fe_Path f]) ("storage.Put", "filter.Wrap", "copy", "close")
             (io_Copy (copy_fuel (fe_Size f)) src rb) ;;
    now <- read Now ;;
    ret (res_Bytes res, res_SHA256 res, UTC now).

(** One goroutine, and the first error of the group. *)
Definition stream_step (rpOpts : RemoteParallelOptions) (opts : BackupOptions) (backupID : string)
    (acc : option error * tally) (f : FileEntry) : M W (option error * tally) :=
  let '(first, t) := acc in
  r <- try (wrapping ("file " +:+ fe_Path f) (streamOneFile rpOpts f opts backupID)) ;;
  match r with
  | Ok (n, sum, modTime) => ret (first, Tally (AddFile (tl_mb t) (fe_Path f) n sum modTime) (tl_files t + 1) (tl_bytes t + n))
  | Fail err => ret (match first with Some _ => first | None => Some err end, t)
  end.

Definition stream_files (rpOpts : RemoteParallelOptions) (opts : BackupOptions) (backupID : string) (files : list FileEntry) (mb : Builder)
  : M W tally :=
  d <- forM files (None, Tally mb 0 0) (stream_step rpOpts opts backupID) ;;
  match fst d with Some err => throw (Errorf_w "backup: workers" err) | None => ret (snd d) end.

(** [writeBlobThroughChain] *)
Definition writeBlobThroughChain (opts : BackupOptions) (backupID name body : string) (mb : Builder) : M W Builder :=
  res <- through_chain (bo_Filter opts) (path_Join [backupID; name])
           ("backup: storage.Put", "backup: filter.Wrap", "backup: write", "backup: close") (Write body) ;;
  now <- read Now ;;
  ret (AddFile mb name (res_Bytes res) (res_SHA256 res) (UTC now)).

(** ** The backup *)

(** [backup_label], and [tablespace_map] where there is one. *)
Definition write_labels (opts : BackupOptions) (backupID : string) (stop : StopInfo) (mb : Builder) : M W Builder :=
  mb <- writeBlobThroughChain opts backupID "backup_label" (so_LabelFile stop) mb ;;
  if (0 <? slen (so_SpcMapFile stop))%nat then writeBlobThroughChain opts backupID "tablespace_map" (so_SpcMapFile stop) mb
  else ret mb.

(** The sidecar of both parallel modes. *)
Definition parallel_sidecar (opts : BackupOptions) (sysID : Z) (dirs : list string) (walRecords : list WALSegmentRecord) : Sidecar :=
  {| sc_Version := SidecarVersion; sc_Server := bo_Server opts; sc_EncryptionRecipients := bo_Recipients opts;
     sc_Compression := bo_Compression opts; sc_StorageLayoutVersion := 1; sc_WALSegments := walRecords;
     sc_SystemIdentifier := sysID; sc_Directories := dirs; sc_Type := ""; sc_ParentBackupID := "";
     sc_Annotation := ""; sc_LockHeld := false |}.

(** What follows a bracket that was stopped. *)
Definition finish_parallel (opts : BackupOptions) (id : ClusterIdentity) (backupID : string) (start : StartInfo) (stop : StopInfo)
    (t : tally) : M W BackupResult :=
  mb <- write_labels opts backupID stop (tl_mb t) ;;
  segments <- wrapping "backup"
    (AcquireBracketWAL {| aq_Timeline := si_Timeline start; aq_StartLSN := si_LSN start; aq_StopLSN := so_LSN stop;
                          aq_SegSize := id_WALSegmentSize id; aq_Timeout := bo_WALTimeout opts; aq_WALSource := bo_WALSource opts |}) ;;
  walRecords <- wrapping "backup: hash WAL" (hashWALSegments (si_Timeline start) segments) ;;
  now <- read Now ;;
  publish_files backupID (Finalize mb {| be_StopLSN := so_LSN stop; be_StopTime := UTC now |})
    (parallel_sidecar opts (id_SystemIdentifier id) [] walRecords) ;;;
  ret {| br_BackupID := backupID; br_StartLSN := si_LSN start; br_StopLSN := so_LSN stop; br_Timeline := si_Timeline start;
         br_Files := tl_files t; br_Bytes := tl_bytes t |}.

(** The end of a bracket whose backup has failed: its own error is dropped. *)
Definition stop_with (b : bracket) (err : error) : M W (result BackupResult * bracket) :=
  d <- Stop b ;; ret (Fail err, snd d).

(** From [Start] on, with the bracket at the end. [sched] is the order the goroutines run in. *)
Definition parallel_backup (sched : list FileEntry -> list FileEntry) (rpOpts : RemoteParallelOptions) (opts : BackupOptions)
    (id : ClusterIdentity) (startedAt : time) (backupID : string) (b : bracket) : M W (result BackupResult * bracket) :=
  d <- Start (bo_Label opts) true b ;;
  let '(start, b) := d in
  match start with
  | Fail err => ret (Fail (Errorf_w "backup: bracket.Start" err), b)
  | Ok start =>
      files <- try (wrapping "backup: ListPGData" ListPGData) ;;
      match files with
      | Fail err => stop_with b err
      | Ok files =>
          t <- try (stream_files rpOpts opts backupID (sched files)
                      (NewBuilder {| bs_SystemIdentifier := id_SystemIdentifier id; bs_Timeline := si_Timeline start;
                                     bs_StartLSN := si_LSN start; bs_StartTime := UTC startedAt |})) ;;
          match t with
          | Fail err => stop_with b err
          | Ok t =>
              d <- Stop b ;;
              let '(stop, b) := d in
              match stop with
              | Fail err => ret (Fail (Errorf_w "backup: bracket.Stop" err), b)
              | Ok stop => r <- try (finish_parallel opts id backupID start stop t) ;; ret (r, b)
              end
          end
      end
  end.

(** The checks before the bracket. *)
Definition prepare_parallel (opts : BackupOptions) (startedAt : time) : M W (ClusterIdentity * string) :=
  backupID <- ChooseBackupID (bo_Type opts) startedAt ;;
  wrapping "backup" (ProbeArchive (bo_WALTimeout opts)) ;;;
  id <- wrapping "backup: identity" pg_identity ;;
  verifyClusterIdentity (id_SystemIdentifier id) ;;;
  wrapping "backup" InspectStandby ;;;
  ret (id, backupID).

(** [runRemoteParallel] *)
Definition runRemoteParallel (sched : list FileEntry -> list FileEntry) (opts : BackupOptions) (rpOpts : RemoteParallelOptions)
  : M W BackupResult :=
  if negb (rp_HasPool rpOpts) then throw (errors_New "backup: remote-parallel requires Pool")
  else if rp_PGVersion rpOpts <? 13 then throw (errors_New "backup: remote-parallel requires PGVersion >= 13")
  else
    startedAt <- read Now ;;
    d <- prepare_parallel opts startedAt ;;
    b <- of_result (map_error (Errorf_w "backup: bracket") (bracket_New (rp_HasPool rpOpts) (rp_PGVersion rpOpts))) ;;
    d <- parallel_backup sched rpOpts opts (fst d) startedAt (snd d) b ;;
    of_result (fst d).
End parallel.
