(* ===== verification/ParallelSpec.v ===== *)
(** * What a parallel backup leaves in the storage

    Files read by SQL end up in the storage whole or not at all, whatever order the goroutines run
    in, and the manifest only becomes visible with all of them. *)

From S2P Require Import Prelude Sha256 Lsn Wal Storage Keys Host Time Json JsonSpec Manifest ManifestSpec Worlds Archive PageChecksum Filter Incremental Verify VerifySpec Bracket BracketSpec Resume ResumeSpec Restore RestoreSpec Backup BackupSpec PgSql PgSqlSpec Parallel.

(** ** One file through the chain *)

Section through.
Context `{FilterLibs} {W : Type} `{BackendLaws W}.

Lemma chain_inv_moved key v e0 hd c0 chd lc cw (w w1 : W) : (forall h, pending w1 h = pending w h) ->
  chain_inv key v e0 hd c0 chd lc cw w -> chain_inv key (view w1) e0 hd c0 chd lc cw w1.
Proof.
  intros Hp (le & oc & [(Hs & Hb & _) He] & Hrest). exists le, oc. split; [|done]. split; [|done]. split_and!; [by rewrite Hp|done|done].
Qed.

(** What a copy into the chain promises: it leaves all but the archive alone and keeps the writer open,
    and when it succeeds it has put chunks with [P] through. *)
Record copies (P : list string -> Prop) (copy : chainWriter -> M W (result unit * chainWriter)) : Prop := {
  cp_silent key cw w : open_at key (cw_sink cw) w -> exists r cw' w', copy cw w = (Ok (r, cw'), w') /\
    same_outside wal_key w w' /\ cw_sink cw' = cw_sink cw /\ open_at key (cw_sink cw) w';
  cp_inv key v e0 hd c0 chd lc cw w cw' w' : chain_inv key v e0 hd c0 chd lc cw w -> copy cw w = (Ok (Ok tt, cw'), w') ->
    exists chunks, chain_inv key (view w') e0 hd c0 chd (lc ++ chunks) cw' w' /\ P chunks;
}.

Lemma chain_inv_same key v e0 hd c0 chd lc cw (w : W) : chain_inv key v e0 hd c0 chd lc cw w -> v = view w.
Proof. by intros (le & oc & [(_ & _ & <-) _] & _). Qed.

Lemma Write_copies body : copies (fun chunks => chunks = [body]) (Write (W:=W) body).
Proof.
  split.
  - intros key cw w Ho. destruct (Write_silent key body cw w Ho) as (r & cw' & w' & E & Hv & Hs & Ho'). exists r, cw', w'.
    split_and!; [done|by apply same_view_outside|done|done].
  - intros key v e0 hd c0 chd lc cw w cw' w' Hi Hw. exists [body]. split; [|done]. pose proof (Write_inv key v e0 hd c0 chd lc body cw w cw' w' Hi Hw) as Hi'.
    by rewrite <- (chain_inv_same _ _ _ _ _ _ _ _ _ Hi').
Qed.

(** A key or the archive. *)
Definition key_or_wal (key q : string) : Prop := q = key \/ wal_key q.

Lemma through_chain_outside P chain key msgs copy : valid_key key = true -> copies P copy ->
  preserves (same_outside (key_or_wal key)) (through_chain chain key msgs copy).
Proof.
  intros Hk Hc w. unfold through_chain. destruct msgs as [[[m1 m2] m3] m4]. unfold wrapping. unfold bind at 1.
  destruct (put_spec key w Hk) as [Hv Hp]. destruct (be_Put key w) as [[h|err] w1]; cbn [map_error snd] in *; [|by apply same_view_outside].
  assert (Ho : open_at key h w1) by (exists ""; by apply Hp). unfold bind at 1.
  destruct (Wrap_silent key chain h w1 Ho) as (Hv1 & Ho2 & Hok). destruct (Wrap chain h w1) as [[cw|err] w2]; cbn [map_error snd] in *;
    [|apply same_view_outside; unfold same_view; congruence].
  pose proof (Hok cw w2 eq_refl) as Hs. rewrite <- Hs in Ho2. unfold bind at 1.
  destruct (cp_silent _ _ Hc key cw w2 Ho2) as (r & cw3 & w3 & -> & Hq & Hs3 & Ho3). rewrite <- Hs3 in Ho3.
  pose proof (Close_outside key cw3 w3 Ho3) as Hcl.
  assert (Hout : forall w', same_outside (fun q => q = key) w3 w' -> same_outside (key_or_wal key) w w').
  { intros w' Hw q Hn. unfold key_or_wal in Hn. rewrite (Hw q), (Hq q), Hv1, Hv; tauto. }
  unfold bind, try, throw. destruct r as [[]|err]; destruct (Close cw3 w3) as [[[[[]|err'] cw4]|err'] w4]; cbn [snd] in *; by apply Hout.
Qed.

Lemma through_chain_Ok P chain key msgs copy w res w' : valid_key key = true -> ~ wal_key key -> copies P copy ->
  through_chain chain key msgs copy w = (Ok res, w') ->
  exists chunks stored, P chunks /\ encoded chain chunks stored /\ view w' !! key = Some stored /\
    res_Bytes res = Z.of_nat (slen (Join chunks "")) /\ res_SHA256 res = Sum256 (Join chunks "") /\
    res_RepoBytes res = Z.of_nat (slen stored) /\ res_RepoSHA256 res = Sum256 stored.
Proof.
  intros Hk Hnw Hc. unfold through_chain. destruct msgs as [[[m1 m2] m3] m4]. intros Hrun.
  apply bind_inv_Ok in Hrun as (h & w1 & Hput%wrapping_inv_Ok & Hrun). destruct (put_spec key w Hk) as [_ Hp]. specialize (Hp h w1 Hput).
  apply bind_inv_Ok in Hrun as (cw & w2 & Hwrap%wrapping_inv_Ok & Hrun).
  apply (Wrap_inv chain h key) in Hwrap as (e0 & hd & c0 & chd & He & Hcd & Hi & _); [|done].
  apply bind_inv_Ok in Hrun as ([r cw3] & w3 & Hcopy & Hrun). destruct r as [[]|err]; [|apply bind_inv_Ok in Hrun as (? & ? & _ & [=])].
  destruct (cp_inv _ _ Hc _ _ _ _ _ _ _ _ _ _ _ Hi Hcopy) as (chunks & Hi3 & HP). cbn [app] in Hi3.
  apply bind_inv_Ok in Hrun as ([r cw4] & w4 & Hclose & Hrun). destruct r as [[]|err]; [|done]. injection Hrun as <- <-.
  apply (Close_inv key (view w3) e0 hd c0 chd chunks) in Hclose as (stored & Hst & Hv & Hr); [|done].
  exists chunks, stored. rewrite Hr, Hv. split_and!; [done|by exists e0, hd, c0, chd|apply lookup_insert_eq|done..].
Qed.
End through.

(** ** Copying a file of the cluster *)

Section copy.
Context {W : Type} `{CatalogLaws W, FilterLibs}.

Lemma validated_Read v out err : exists err' v', PageChecksum.Read v out err = (out, err', v') /\ (err' = None -> err = None).
Proof.
  unfold PageChecksum.Read. case_match; [|by eexists _, _].
  destruct (validate_pages _ _) as [[cerr|] v']; by eexists _, _.
Qed.

Lemma src_Read_spec n v r w : (0 < n)%nat -> reader_ok r -> exists out e v' r' w', src_Read n v r w = (Ok (out, e, (v', r')), w') /\
  untouched w w' /\ reader_ok r' /\ rd_path r' = rd_path r /\ rd_totalSize r' = rd_totalSize r /\
  (e = More -> out <> "" /\ left_bytes r' + Z.of_nat (slen out) = left_bytes r /\
               forall c d, steady (rd_path r) c -> gave c r d -> gave c r' (d +:+ out)) /\
  (e = AtEOF -> out = "" /\ left_bytes r = 0 /\ forall c d, gave c r d -> d = stake (Z.to_nat (rd_totalSize r)) c).
Proof.
  intros Hn Hr. destruct (Reader_Read_spec n r w Hn Hr) as (out & e & r' & w' & E & Hw & Hr' & Ep & Et & He).
  unfold src_Read, bind. rewrite E. destruct v as [v|].
  2:{ exists out, e, None, r', w'. split_and!; try done; intros ->; done. }
  destruct (validated_Read v out (match e with Failed err => Some err | _ => None end)) as (err & v' & -> & Herr).
  exists out, (match err with Some err => Failed err | None => e end), (Some v'), r', w'.
  split_and!; try done; intros Ee; destruct err as [err|]; try done; subst e; done.
Qed.

Lemma copy_buffer_pos : (0 < copy_buffer)%nat.
Proof. unfold copy_buffer. lia. Qed.

(** What is read is what the chain gets. *)
Definition read_in_full (r : Reader) (chunks : list string) : Prop :=
  Z.of_nat (slen (Join chunks "")) = left_bytes r /\
  forall c d, steady (rd_path r) c -> gave c r d -> d +:+ Join chunks "" = stake (Z.to_nat (rd_totalSize r)) c.

Lemma io_Copy_silent fuel v r key cw w : reader_ok r -> open_at key (cw_sink cw) w -> exists res cw' w',
  io_Copy fuel v r cw w = (Ok (res, cw'), w') /\ same_outside wal_key w w' /\ cw_sink cw' = cw_sink cw /\ open_at key (cw_sink cw) w'.
Proof.
  revert v r cw w. induction fuel as [|fuel IH]; intros v r cw w Hr Ho; cbn [io_Copy]; [by eexists _, cw, w|].
  unfold bind at 1. destruct (src_Read_spec copy_buffer v r w copy_buffer_pos Hr) as (out & e & v' & r' & w1 & -> & [Hq Hp] & Hr' & _).
  assert (Ho1 : open_at key (cw_sink cw) w1) by (destruct Ho as [c Hc]; exists c; by rewrite Hp).
  assert (Hw : exists wr cw2 w2, (if (slen out =? 0)%nat then ret (Ok tt, cw) else Write out cw) w1 = (Ok (wr, cw2), w2) /\
    same_outside wal_key w w2 /\ cw_sink cw2 = cw_sink cw /\ open_at key (cw_sink cw) w2).
  { destruct (slen out =? 0)%nat; [by eexists _, cw, w1|]. destruct (Write_silent key out cw w1 Ho1) as (wr & cw2 & w2 & -> & Hv & Hs & Ho2).
    exists wr, cw2, w2. split_and!; [done| |done|done]. etrans; [exact Hq|by apply same_view_outside]. }
  destruct Hw as (wr & cw2 & w2 & E & Hq2 & Hs2 & Ho2). unfold bind. rewrite E.
  destruct wr as [[]|err]; [|by eexists _, cw2, w2]. destruct e; [|by eexists _, cw2, w2..].
  rewrite <- Hs2 in Ho2. destruct (IH v' r' cw2 w2 Hr' Ho2) as (res & cw3 & w3 & -> & Hq3 & Hs3 & Ho3). exists res, cw3, w3.
  rewrite Hs2 in *. split_and!; [done|by etrans|congruence|done].
Qed.

Lemma io_Copy_inv fuel v r key v0 e0 hd c0 chd lc cw w cw' w' : reader_ok r -> chain_inv key v0 e0 hd c0 chd lc cw w ->
  io_Copy fuel v r cw w = (Ok (Ok tt, cw'), w') ->
  exists chunks, chain_inv key (view w') e0 hd c0 chd (lc ++ chunks) cw' w' /\ read_in_full r chunks.
Proof.
  revert v r v0 lc cw w. induction fuel as [|fuel IH]; intros v r v0 lc cw w Hr Hi; cbn [io_Copy]; [done|].
  unfold bind at 1. destruct (src_Read_spec copy_buffer v r w copy_buffer_pos Hr) as (out & e & v' & r' & w1 & -> & [_ Hp] & Hr' & Ep & Et & Hmore & Heof).
  apply (chain_inv_moved _ _ _ _ _ _ _ _ w w1 Hp) in Hi. unfold bind. destruct e as [| |err].
  - destruct (Hmore eq_refl) as (Hne & Hl & Hg). destruct (Nat.eqb_spec (slen out) 0) as [Hz|_]; [by destruct out|].
    destruct (Write out cw w1) as [[[[[]|err] cw2]|err] w2] eqn:Ew; [|done..]. apply (Write_inv key (view w1) e0 hd c0 chd lc) in Ew; [|done].
    intros Hrun. destruct (IH _ _ _ _ _ _ Hr' Ew Hrun) as (chunks & Hi' & Hlen & Hsame). exists (out :: chunks).
    rewrite <- app_assoc in Hi'. split; [done|]. rewrite Ep, Et in Hsame. split; rewrite Join_cons.
    + rewrite slen_app. lia.
    + intros c d Hs Hd. rewrite <- sapp_assoc. apply Hsame; [done|by apply Hg].
  - destruct (Heof eq_refl) as (-> & Hl & Hg). cbn [slen String.length Nat.eqb]. intros [= <- <-]. exists []. rewrite app_nil_r. 
    split; [done|]. split; [cbn; lia|]. intros c d _ Hd. cbn. rewrite sapp_nil_r. by apply Hg.
  - destruct (slen out =? 0)%nat; [done|]. by destruct (Write out cw w1) as [[[[[]|e2] cw2]|e2] w2].
Qed.

Lemma io_Copy_copies fuel v r : reader_ok r -> copies (read_in_full r) (io_Copy fuel v r).
Proof.
  intros Hr. split.
  - intros key cw w Ho. by apply io_Copy_silent.
  - intros key v0 e0 hd c0 chd lc cw w cw' w' Hi Hrun. by eapply io_Copy_inv.
Qed.

(** More fuel than bytes changes nothing. *)
Lemma io_Copy_enough fuel more v r cw w : reader_ok r -> left_bytes r < Z.of_nat fuel ->
  io_Copy (fuel + more) v r cw w = io_Copy fuel v r cw w.
Proof.
  revert v r cw w. induction fuel as [|fuel IH]; intros v r cw w Hr Hf.
  - destruct Hr as [_ _ ? ? _]. unfold left_bytes in Hf. lia.
  - cbn [Nat.add io_Copy]. unfold bind. destruct (src_Read_spec copy_buffer v r w copy_buffer_pos Hr) as (out & e & v' & r' & w1 & -> & _ & Hr' & _ & _ & Hmore & _).
    destruct ((if (slen out =? 0)%nat then ret (Ok tt, cw) else Write out cw) w1) as [[[[[]|err] cw2]|err] w2]; [|done..].
    destruct e; [|done..]. destruct (Hmore eq_refl) as (Hne & Hl & _). apply IH; [done|]. destruct out; [done|]. cbn [slen String.length] in Hl. lia.
Qed.
End copy.

(** ** The files of the cluster *)

(** A file as if it had come in a stream. *)
Definition pg_entry (name : string) (chunks : list string) : tar_entry :=
  {| te_Name := name; te_Typeflag := "0"; te_chunks := chunks; te_err := None; te_ModTime := zero_time |}.

(** The names that come with the end of the bracket. *)
Definition label_names : list string := ["backup_label"; "tablespace_map"].

(** What is relied on in a listing: it names every file once and none by a name of the backup. *)
Record file_entry_ok (f : FileEntry) : Prop := {
  fo_key : valid_key (fe_Path f) = true;
  fo_free : fe_Path f ∉ reserved_names ++ label_names;
  fo_utf8 : valid_utf8 (fe_Path f) = true;
  fo_size : fe_Size f < 2 ^ 63;
}.

Definition listing_ok (files : list FileEntry) : Prop := Forall file_entry_ok files /\ NoDup (fe_Path <$> files).

Lemma listing_ok_perm files files' : files' ≡ₚ files -> listing_ok files -> listing_ok files'.
Proof. intros Hp [Hf Hn]. split; [by rewrite Hp|]. by rewrite Hp. Qed.

Section files.
Context {W : Type} `{CatalogLaws W, FilterLibs}.
Context (Now : W -> time) (id : string) (opts : BackupOptions) (rpOpts : RemoteParallelOptions).
Hypothesis Hid : own_id id.

(** What is stored of a file: bytes of the size it was listed with, and those of a file that does
    not change. *)
Record taken (f : FileEntry) (e : tar_entry) : Prop := {
  tk_name : te_Name e = fe_Path f;
  tk_flag : te_Typeflag e = "0"%char;
  tk_size : Z.of_nat (slen (content e)) = Z.max 0 (fe_Size f);
  tk_content c : steady (fe_Path f) c -> content e = stake (Z.to_nat (fe_Size f)) c;
}.

Lemma streamOneFile_outside f : file_entry_ok f ->
  preserves (same_outside (key_or_wal (path_Join [id; fe_Path f]))) (streamOneFile Now rpOpts f opts id).
Proof.
  intros [Hk _ _ Hs]. unfold streamOneFile. destruct (_ || _); [apply preserves_throw; tc_solve|].
  apply preserves_bind; [tc_solve| |intros; apply preserves_bind; [tc_solve|apply preserves_read; tc_solve|intros; apply preserves_ret; tc_solve]].
  eapply through_chain_outside; [by apply (own_key id)|]. apply io_Copy_copies. by apply (NewReader_ok (fe_Path f) (fe_Size f) 0).
Qed.

Lemma streamOneFile_Ok f w n sum t w' : file_entry_ok f -> streamOneFile Now rpOpts f opts id w = (Ok (n, sum, t), w') ->
  exists e, taken f e /\ stored_entry id (bo_Filter opts) (view w') e /\ n = Z.of_nat (slen (content e)) /\ sum = Sum256 (content e).
Proof.
  intros [Hk _ _ Hs]. unfold streamOneFile. destruct (_ || _); [done|]. intros Hrun. apply bind_inv_Ok in Hrun as (res & w1 & Hres & Hrun).
  destruct (NewReader_ok (fe_Path f) (fe_Size f) 0 Hs) as [Hr Hl]. destruct (own_key id (fe_Path f) Hid Hk) as (_ & Hkey & Hnw).
  destruct (through_chain_Ok _ _ _ _ _ _ _ _ Hkey Hnw (io_Copy_copies _ _ _ Hr) Hres) as (chunks & stored & [Hlen Hsame] & Henc & Hv & Hb & Hsha & _).
  unfold bind, read, ret in Hrun. injection Hrun as <- <- <- <-. exists (pg_entry (fe_Path f) chunks). split; [|split; [by exists stored|done]].
  split; [done|done|by rewrite <- Hl, <- Hlen|]. intros c Hc. unfold content. cbn [te_chunks pg_entry]. apply (Hsame c "" Hc). done.
Qed.

(** What the group knows of the files it is done with. *)
Definition tallied (files : list FileEntry) (acc : option error * tally) (w : W) : Prop :=
  fst acc = None -> exists es, Forall2 taken files es /\ Forall2 recorded es (b_files (tl_mb (snd acc))) /\
    Forall (stored_entry id (bo_Filter opts) (view w)) es /\ tl_files (snd acc) = Z.of_nat (length es).

Lemma taken_names files es : Forall2 taken files es -> te_Name <$> es = fe_Path <$> files.
Proof. induction 1 as [|f e files es Ht _ IH]; [done|]. cbn. by rewrite (tk_name _ _ Ht), IH. Qed.

Lemma file_key_hidden f q : file_entry_ok f -> key_or_wal (path_Join [id; fe_Path f]) q -> hidden_key id q.
Proof.
  intros [Hk Hfree _ _] [->|?]; [right|by left]. exists (fe_Path f). split_and!; [done| |done].
  intros E. rewrite E in Hfree. apply Hfree. unfold reserved_names. in_list.
Qed.

(** Entries with other names stay as they are. *)
Lemma stored_others name es (w w' : W) : valid_key name = true -> Forall (fun e => valid_key (te_Name e) = true) es ->
  name ∉ te_Name <$> es -> same_outside (key_or_wal (path_Join [id; name])) w w' ->
  Forall (stored_entry id (bo_Filter opts) (view w)) es -> Forall (stored_entry id (bo_Filter opts) (view w')) es.
Proof.
  intros Hk Hes Hni Hout. rewrite !Forall_forall in *. intros Hst e He. eapply stored_entry_outside; [exact Hout| |by apply Hst].
  intros [E|Hw]; [|by apply (own_key id (te_Name e) Hid (Hes e He))]. apply own_key_inj in E; [|done|by apply Hes|done].
  apply Hni. rewrite <- E. by apply list_elem_of_fmap_2.
Qed.

Lemma taken_keys files es : Forall2 taken files es -> Forall file_entry_ok files -> Forall (fun e => valid_key (te_Name e) = true) es.
Proof.
  induction 1 as [|f e files es Ht _ IH]; intros Hf; [constructor|]. apply Forall_cons in Hf as [Hf ?]. constructor; [|by apply IH].
  rewrite (tk_name _ _ Ht). apply Hf.
Qed.

Lemma b_files_AddFile b path size sha t : b_files (AddFile b path size sha t) = b_files b ++ [FileRec path size sha (UTC t) false 0 0 zero32].
Proof. done. Qed.

Lemma stream_step_spec files f acc w : listing_ok (files ++ [f]) -> tallied files acc w ->
  exists acc' w', stream_step Now rpOpts opts id acc f w = (Ok acc', w') /\
    same_outside (key_or_wal (path_Join [id; fe_Path f])) w w' /\ tallied (files ++ [f]) acc' w'.
Proof.
  intros [Hf Hnd] Ht. apply Forall_app in Hf as [Hfs Hf]. apply Forall_cons in Hf as [Hf _]. rewrite fmap_app in Hnd. apply NoDup_app in Hnd as (_ & Hnew & _).
  destruct acc as [first t]. unfold stream_step, bind, try, wrapping. pose proof (streamOneFile_outside f Hf w) as Hout.
  destruct (streamOneFile Now rpOpts f opts id w) as [[[[n sum] mt]|err] w1] eqn:E; cbn [snd map_error] in *; eexists _, w1; (split_and!; [done|done|]).
  - intros Hfirst. cbn in Hfirst. destruct (Ht Hfirst) as (es & Htk & Hrec & Hst & Hn).
    destruct (streamOneFile_Ok f w n sum mt w1 Hf E) as (e & Hte & Hse & -> & ->). exists (es ++ [e]). split_and!.
    + apply Forall2_app; [done|by constructor].
    + cbn [snd tl_mb]. rewrite b_files_AddFile. apply Forall2_app; [done|]. constructor; [|constructor]. unfold recorded. cbn. by rewrite (tk_name _ _ Hte).
    + apply Forall_app. split; [|by apply Forall_singleton]. eapply stored_others; [apply Hf|by eapply taken_keys| |exact Hout|done].
      rewrite (taken_names _ _ Htk). intros Hin. by apply (Hnew _ Hin), list_elem_of_singleton.
    + cbn in *. rewrite length_app, Hn. cbn. lia.
  - intros Hfirst. cbn in Hfirst. by destruct first.
Qed.

Lemma stream_loop files done acc w r w' : listing_ok (done ++ files) -> tallied done acc w ->
  forM files acc (stream_step Now rpOpts opts id) w = (r, w') ->
  same_outside (hidden_key id) w w' /\ forall acc', r = Ok acc' -> tallied (done ++ files) acc' w'.
Proof.
  revert done acc w. induction files as [|f files IH]; intros done acc w Hok Ht; cbn [forM].
  { intros [= <- <-]. rewrite app_nil_r in *. split; [done|]. by intros acc' [= <-]. }
  replace (done ++ f :: files) with ((done ++ [f]) ++ files) in * by by rewrite <- app_assoc.
  assert (Hok1 : listing_ok (done ++ [f])).
  { destruct Hok as [Hf Hnd]. apply Forall_app in Hf as [Hf _]. rewrite fmap_app in Hnd. by apply NoDup_app in Hnd as (? & _). }
  unfold bind. destruct (stream_step_spec done f acc w Hok1 Ht) as (acc1 & w1 & -> & Hout & Ht1). intros Hrun.
  destruct (IH _ _ _ Hok Ht1 Hrun) as [Hh Hres]. split; [|done]. etrans; [|exact Hh]. eapply same_outside_mono; [|exact Hout].
  intros q. apply file_key_hidden. destruct Hok1 as [Hf _]. apply Forall_app in Hf as [_ Hf]. by apply Forall_cons in Hf as [Hf _].
Qed.

Lemma stream_files_spec files mb w r w' : listing_ok files -> b_files mb = [] -> stream_files Now rpOpts opts id files mb w = (r, w') ->
  same_outside (hidden_key id) w w' /\ forall t, r = Ok t -> tallied files (None, t) w'.
Proof.
  intros Hok Hmb. unfold stream_files, bind. destruct (forM files _ _ w) as [d w1] eqn:E.
  apply (stream_loop files []) in E as [Hout Hd]; [|done|]. 2:{ intros _. exists []. cbn. rewrite Hmb. by split_and!. }
  destruct d as [[first t]|err]; [|intros [= <- <-]; by split]. cbn [fst snd]. destruct first as [err|]; intros [= <- <-]; (split; [done|]); [done|].
  intros t' [= <-]. by apply Hd.
Qed.
End files.

(** ** The end of the backup *)

Section finish.
Context {W : Type} `{BackendLaws W, !Clock W, !ClockLaws W, !Pg W, !PgLaws W, FilterLibs}.
Context (Now : W -> time) (id : string) (opts : BackupOptions).
Hypothesis Hid : own_id id.

(** The names and texts that come with the end of the bracket. *)
Definition labels_of (stop : StopInfo) : list (string * string) :=
  ("backup_label", so_LabelFile stop) :: if (0 <? slen (so_SpcMapFile stop))%nat then [("tablespace_map", so_SpcMapFile stop)] else [].

Definition label_entries (stop : StopInfo) : list tar_entry := (fun kv => pg_entry kv.1 [kv.2]) <$> labels_of stop.

Lemma writeBlob_outside name body mb : valid_key name = true ->
  preserves (same_outside (key_or_wal (path_Join [id; name]))) (writeBlobThroughChain Now opts id name body mb).
Proof.
  intros Hk. unfold writeBlobThroughChain.
  apply preserves_bind; [tc_solve| |intros; apply preserves_bind; [tc_solve|apply preserves_read; tc_solve|intros; apply preserves_ret; tc_solve]].
  eapply through_chain_outside; [by apply (own_key id)|]. apply Write_copies.
Qed.

Lemma writeBlob_Ok name body mb w mb' w' : valid_key name = true -> writeBlobThroughChain Now opts id name body mb w = (Ok mb', w') ->
  stored_entry id (bo_Filter opts) (view w') (pg_entry name [body]) /\
  exists f, b_files mb' = b_files mb ++ [f] /\ recorded (pg_entry name [body]) f.
Proof.
  intros Hk. unfold writeBlobThroughChain. intros Hrun. apply bind_inv_Ok in Hrun as (res & w1 & Hres & Hrun).
  destruct (own_key id name Hid Hk) as (_ & Hkey & Hnw).
  destruct (through_chain_Ok _ _ _ _ _ _ _ _ Hkey Hnw (Write_copies body) Hres) as (chunks & stored & -> & Henc & Hv & Hb & Hsha & _).
  unfold bind, read, ret in Hrun. injection Hrun as <- <-. split; [by exists stored|]. eexists. split; [apply b_files_AddFile|].
  unfold recorded. cbn. by rewrite Hb, Hsha.
Qed.

(** The files of the cluster and the labels, stored and in the manifest. *)
Definition all_stored (es : list tar_entry) (mb : Builder) (w : W) : Prop :=
  Forall2 recorded es (b_files mb) /\ Forall (stored_entry id (bo_Filter opts) (view w)) es.

Lemma writeBlob_stored es name body mb w r w' : valid_key name = true -> Forall (fun e => valid_key (te_Name e) = true) es ->
  name ∉ te_Name <$> es -> all_stored es mb w -> writeBlobThroughChain Now opts id name body mb w = (r, w') ->
  same_outside (key_or_wal (path_Join [id; name])) w w' /\
  forall mb', r = Ok mb' -> all_stored (es ++ [pg_entry name [body]]) mb' w'.
Proof.
  intros Hk Hes Hni [Hrec Hst] Hrun. pose proof (writeBlob_outside name body mb Hk w) as Hout. rewrite Hrun in Hout. cbn [snd] in Hout.
  split; [done|]. intros mb' ->. destruct (writeBlob_Ok _ _ _ _ _ _ Hk Hrun) as (Hse & f & Hf & Hr). split.
  - rewrite Hf. apply Forall2_app; [done|by constructor].
  - apply Forall_app. split; [|by apply Forall_singleton]. by eapply stored_others.
Qed.

Lemma label_key_hidden name q : name ∈ label_names -> key_or_wal (path_Join [id; name]) q -> hidden_key id q.
Proof.
  intros Hn [->|?]; [right|by left]. exists name. unfold label_names in Hn. set_unfold in Hn. by destruct_or! Hn; subst name.
Qed.

Lemma write_labels_spec es stop mb w r w' : Forall (fun e => valid_key (te_Name e) = true) es ->
  (forall n, n ∈ label_names -> n ∉ te_Name <$> es) -> all_stored es mb w -> write_labels Now opts id stop mb w = (r, w') ->
  same_outside (hidden_key id) w w' /\ forall mb', r = Ok mb' -> all_stored (es ++ label_entries stop) mb' w'.
Proof.
  intros Hes Hni Hst. unfold write_labels, bind, label_entries, labels_of.
  destruct (writeBlobThroughChain Now opts id "backup_label" (so_LabelFile stop) mb w) as [r1 w1] eqn:E1.
  apply (writeBlob_stored es) in E1 as [Hout1 Hok1]; [|done|done|apply Hni; unfold label_names; in_list|done].
  assert (Hh1 : same_outside (hidden_key id) w w1).
  { eapply same_outside_mono; [|exact Hout1]. intros q. apply label_key_hidden. unfold label_names. in_list. }
  destruct r1 as [mb1|err]; [|intros [= <- <-]; by split]. specialize (Hok1 _ eq_refl).
  destruct (0 <? slen (so_SpcMapFile stop))%nat; [|intros [= <- <-]; split; [done|]; by intros mb' [= <-]].
  intros E2. apply (writeBlob_stored (es ++ [pg_entry "backup_label" [so_LabelFile stop]])) in E2 as [Hout2 Hok2]; [|done| | |done].
  - split; [|intros mb' ->; specialize (Hok2 mb' eq_refl); by rewrite <- app_assoc in Hok2]. etrans; [exact Hh1|].
    eapply same_outside_mono; [|exact Hout2]. intros q. apply label_key_hidden. unfold label_names. in_list.
  - apply Forall_app. split; [done|by constructor].
  - rewrite fmap_app, elem_of_app. intros [Hin|Hin%list_elem_of_singleton]; [|done]. revert Hin. apply Hni. unfold label_names. in_list.
Qed.

(** What is visible in the end. *)
Record parallel_complete (sysID : Z) (dirs : list string) (es : list tar_entry) (v : gmap string string) : Prop := {
  pc_files : complete_files id (bo_Filter opts) es v;
  pc_sidecar : exists records, Forall segment_ok records /\
    v !! path_Join [id; "Storage-Metadata.json"] = Some (MarshalIndent 0 (sidecar_json (parallel_sidecar opts sysID dirs records)));
}.

Lemma regulars_all es : Forall (fun e => te_Typeflag e = "0"%char) es -> regulars es = es.
Proof.
  induction 1 as [|e es He _ IH]; [done|]. unfold regulars in *. cbn [List.filter]. unfold is_regular at 1. rewrite He. cbn. by rewrite IH.
Qed.

(** The manifest of files that are all stored. *)
Lemma publish_complete es mb stop sysID dirs records w r w' : Forall entry_ok es -> Forall (fun e => te_Typeflag e = "0"%char) es ->
  all_stored es mb w -> Forall segment_ok records ->
  publish_files id (Finalize mb stop) (parallel_sidecar opts sysID dirs records) w = (r, w') ->
  (view w' !! path_Join [id; "backup_manifest"] = view w !! path_Join [id; "backup_manifest"] /\ r <> Ok tt) \/
  parallel_complete sysID dirs es (view w').
Proof.
  intros Hes Hreg [Hrec Hst] Hseg Hrun. apply publish_files_spec in Hrun as [Hout [?|[Hman Hsc]]]; [by left| |done]. right.
  destruct (recorded_ok _ _ Hes Hrec) as [Hok Hl]. split; [split; rewrite regulars_all by done|by exists records].
  - eexists _, _. split; [exact Hman|]. split; [by apply restore_parses_Finalize|done].
  - rewrite Forall_forall in *. intros e He. eapply stored_entry_outside; [exact Hout|by apply entry_not_kept, Hes|by apply Hst].
Qed.

Lemma all_stored_quiet es mb w w' : Forall (fun e => valid_key (te_Name e) = true) es -> same_outside wal_key w w' ->
  all_stored es mb w -> all_stored es mb w'.
Proof.
  intros Hes Hq [Hrec Hst]. split; [done|]. rewrite Forall_forall in *. intros e He. eapply stored_entry_outside; [exact Hq| |by apply Hst].
  by apply (own_key id (te_Name e) Hid), Hes.
Qed.

Lemma finish_parallel_spec cid start stop t es w r w' : Forall entry_ok (es ++ label_entries stop) ->
  Forall (fun e => te_Typeflag e = "0"%char) es -> (forall n, n ∈ label_names -> n ∉ te_Name <$> es) ->
  all_stored es (tl_mb t) w -> finish_parallel Now opts cid id start stop t w = (r, w') ->
  (view w' !! path_Join [id; "backup_manifest"] = view w !! path_Join [id; "backup_manifest"] /\ isOk r = false) \/
  (parallel_complete (id_SystemIdentifier cid) [] (es ++ label_entries stop) (view w') /\
   forall res, r = Ok res -> br_BackupID res = id /\ br_Files res = tl_files t).
Proof.
  intros Hes Hreg Hni Hst. assert (Hkeys : Forall (fun e => valid_key (te_Name e) = true) (es ++ label_entries stop)).
  { eapply Forall_impl; [exact Hes|]. intros e He. apply He. }
  pose proof Hkeys as [Hk0 _]%Forall_app. pose proof (hidden_not_manifest id Hid) as Hman. unfold finish_parallel. unfold bind at 1.
  destruct (write_labels Now opts id stop (tl_mb t) w) as [r1 w1] eqn:E1. apply (write_labels_spec es) in E1 as [Hh1 Hok1]; [|done..].
  destruct r1 as [mb|err]; [|intros [= <- <-]; left; by rewrite (Hh1 _ Hman)]. specialize (Hok1 _ eq_refl).
  unfold bind at 1, wrapping at 1. match goal with |- context [AcquireBracketWAL ?aq w1] =>
    pose proof (AcquireBracketWAL_quiet aq w1) as Hq2; destruct (AcquireBracketWAL aq w1) as [[segs|err] w2] eqn:E2 end; cbn [snd map_error] in *.
  2:{ intros [= <- <-]. left. split; [|done]. rewrite Hq2; [by rewrite (Hh1 _ Hman)|intros Hw; apply Hman; by left]. }
  unfold bind at 1, wrapping at 1. pose proof (hashWALSegments_quiet (si_Timeline start) segs w2) as Hq3.
  destruct (hashWALSegments (si_Timeline start) segs w2) as [[recs|err] w3] eqn:E3; cbn [snd map_error] in *.
  all: assert (Hnw : ~ wal_key (path_Join [id; "backup_manifest"])) by (intros Hw; apply Hman; by left).
  all: assert (Hm3 : view w3 !! path_Join [id; "backup_manifest"] = view w !! path_Join [id; "backup_manifest"]) by by rewrite (Hq3 _ Hnw), (Hq2 _ Hnw), (Hh1 _ Hman).
  2:{ intros [= <- <-]. by left. }
  assert (Hseg : Forall segment_ok recs) by (eapply hashWALSegments_ok, E3; by eapply acquired_plain).
  assert (Hst3 : all_stored (es ++ label_entries stop) mb w3) by (eapply all_stored_quiet; [done|exact Hq3|]; by eapply all_stored_quiet).
  assert (Hreg' : Forall (fun e => te_Typeflag e = "0"%char) (es ++ label_entries stop)).
  { apply Forall_app. split; [done|]. unfold label_entries, labels_of. by repeat case_match; repeat constructor. }
  unfold bind at 1, read at 1. unfold bind. destruct (publish_files _ _ _ w3) as [rp w4] eqn:Ep.
  destruct (publish_complete _ mb _ _ _ _ _ _ _ Hes Hreg' Hst3 Hseg Ep) as [[Hsame Hne]|Hc].
  - destruct rp as [[]|err]; [done|]. intros [= <- <-]. left. by rewrite Hsame.
  - destruct rp as [[]|err]; intros [= <- <-]; right; (split; [done|]); [|done]. by intros res [= <-].
Qed.
End finish.

(** ** The whole backup *)

(** The files a query of the listing has. *)
Definition listed (t : pgtree) : list FileEntry := omap file_of_row (walked walk_fuel t excluded_file [root_row]).

(** A condition on the data directory, which the theorems about whole runs have as a hypothesis: none of its files
    is under a name the backup keeps for itself ([backup_manifest], [Storage-Metadata.json], [backup_label],
    and the other [reserved_names] and [label_names]). It is not a fact of every cluster: a directory that
    was restored by this program has a [backup_manifest] in it ([listed_manifest_left_behind]). *)
Definition plain_listings (W : Type) `{Catalog W} : Prop :=
  forall w t w', pg_walk w = (Ok t, w') -> listing_ok (listed t).

Existing Class plain_listings.

(** ** The bracket ends *)

Section ends.
Context {W : Type} `{Backend W, Clock W, Pg W, FilterLibs, Catalog W, Sessions W}.

Lemma Start_ends label fast b (w : W) : exists r b' w', Start label fast b w = (Ok (r, b'), w') /\ (isOk r = false -> b_conn b' = b_conn b).
Proof.
  unfold Start. destruct (b_conn b) eqn:Hb; [by eexists _, b, w|]. unfold bind, try, wrapping, update.
  destruct (pool_Acquire w) as [[c|e] w1]; cbn [map_error]; [|by eexists _, b, w1].
  destruct (pg_backup_start (b_legacy b) c label fast w1) as [[[txt tli]|e] w2]; cbn [map_error]; [|by eexists _, b, _].
  destruct (ParseLSN txt); cbn [map_error]; [by eexists _, _, w2|by eexists _, b, _].
Qed.

Lemma Stop_ends b (w : W) : exists r b' w', Stop b w = (Ok (r, b'), w') /\ b_conn b' = None.
Proof.
  unfold Stop. destruct (b_conn b) eqn:Hb; [|by eexists _, b, w]. unfold bind, try, wrapping, update.
  destruct (pg_backup_stop (b_legacy b) c w) as [[[[lsn label] spcmap]|e] w1]; cbn [map_error]; [|by eexists _, _, _].
  destruct (ParseLSN lsn); cbn [map_error]; by eexists _, _, _.
Qed.

Lemma stop_with_ends b err (w : W) : exists r b' w', stop_with b err w = (Ok (r, b'), w') /\ b_conn b' = None.
Proof.
  unfold stop_with, bind. destruct (Stop_ends b w) as (r & b' & w' & -> & Hb). by eexists _, b', w'.
Qed.

Lemma parallel_backup_ends (Now : W -> time) sched rpOpts opts cid startedAt id b w : exists r b' w',
  parallel_backup Now sched rpOpts opts cid startedAt id b w = (Ok (r, b'), w') /\ (b_conn b = None -> b_conn b' = None).
Proof.
  unfold parallel_backup. unfold bind at 1. destruct (Start_ends (bo_Label opts) true b w) as (start & b0 & w0 & -> & Hb0).
  destruct start as [start|err]; [|eexists _, b0, w0; split; [done|intros <-; by apply Hb0]]. unfold bind at 1, try at 1.
  destruct (wrapping "backup: ListPGData" ListPGData w0) as [[files|err] w1].
  2:{ destruct (stop_with_ends b0 err w1) as (r & b' & w' & -> & Hb). by eexists _, b', w'. }
  unfold bind at 1, try at 1. destruct (stream_files _ _ _ _ _ _ w1) as [[t|err] w2].
  2:{ destruct (stop_with_ends b0 err w2) as (r & b' & w' & -> & Hb). by eexists _, b', w'. }
  unfold bind at 1. destruct (Stop_ends b0 w2) as (stop & b3 & w3 & -> & Hb3). destruct stop as [stop|err]; [|by eexists _, b3, w3].
  unfold bind, try. destruct (finish_parallel _ _ _ _ _ _ _ w3) as [r4 w4]. by eexists _, b3, w4.
Qed.
End ends.

Section run_parallel.
Context {W : Type} `{BackendLaws W, !Clock W, !ClockLaws W, !Pg W, !PgLaws W, FilterLibs, !Catalog W, !CatalogLaws W, !plain_listings W, !Sessions W, !SessionsQuiet W}.
Context (Now : W -> time) (sched : list FileEntry -> list FileEntry).
Hypothesis Hsched : forall l, sched l ≡ₚ l.

Lemma Start_quiet label fast b : quiet (Start label fast b).
Proof.
  unfold Start. destruct (b_conn b); [apply preserves_ret; tc_solve|].
  assert (Hrel : forall c, quiet (W:=W) (update (conn_Release c))) by (intros c; apply preserves_update; intros w; apply same_view_outside; unfold same_view; apply release_view).
  apply preserves_bind; [tc_solve|apply preserves_try, preserves_wrapping, acquire_quiet|intros [c|err]; [|apply preserves_ret; tc_solve]].
  apply preserves_bind; [tc_solve|apply preserves_try, preserves_wrapping, backup_start_quiet|intros [[txt tli]|err]].
  - destruct (map_error _ _); [apply preserves_ret; tc_solve|]. apply preserves_bind; [tc_solve|apply Hrel|intros; apply preserves_ret; tc_solve].
  - apply preserves_bind; [tc_solve|apply Hrel|intros; apply preserves_ret; tc_solve].
Qed.

Lemma Stop_quiet b : quiet (Stop b).
Proof.
  unfold Stop. destruct (b_conn b) as [c|]; [|apply preserves_ret; tc_solve].
  apply preserves_bind; [tc_solve|apply preserves_try, preserves_wrapping, backup_stop_quiet|intros row].
  apply preserves_bind; [tc_solve|apply preserves_update; intros w; apply same_view_outside; unfold same_view; apply release_view|intros _].
  destruct row as [[[lsn label] spcmap]|err]; [destruct (map_error _ _)|]; apply preserves_ret; tc_solve.
Qed.

Lemma Stop_labels_ok b w stop b' w' : Stop b w = (Ok (Ok stop, b'), w') ->
  Forall entry_ok (label_entries stop).
Proof.
  unfold Stop. destruct (b_conn b) as [c|]; [|done]. unfold bind, try, wrapping, update.
  destruct (pg_backup_stop (b_legacy b) c w) as [[[[lsn label] spcmap]|err] w1] eqn:E; cbn [map_error]; [|done].
  destruct (backup_stop_fits _ _ _ _ _ _ _ E) as [Hl Hs]. destruct (ParseLSN lsn) as [l|err]; cbn [map_error]; [|done]. intros [= <- _ _].
  assert (Hok : forall n t, n ∈ label_names -> is_i64 (Z.of_nat (slen t)) -> entry_ok (pg_entry n [t])).
  { intros n t Hn Ht. unfold label_names in Hn. set_unfold in Hn.
    destruct_or! Hn; subst n; (split; [reflexivity|unfold reserved_names; by apply (bool_decide_unpack _)|reflexivity|done]). }
  unfold label_entries, labels_of. cbn [so_LabelFile so_SpcMapFile fmap list_fmap].
  constructor; [apply Hok; [unfold label_names; in_list|done]|]. case_match; [|constructor]. constructor; [|constructor].
  apply Hok; [unfold label_names; in_list|done].
Qed.

Lemma taken_ok files es : Forall2 taken files es -> listing_ok files ->
  Forall entry_ok es /\ Forall (fun e => te_Typeflag e = "0"%char) es /\ forall n, n ∈ label_names -> n ∉ te_Name <$> es.
Proof.
  intros Ht [Hf _]. split_and!.
  - induction Ht as [|f e files es Ht _ IH]; [constructor|]. apply Forall_cons in Hf as [[Hk Hfree Hu Hs] Hf]. constructor; [|by apply IH].
    destruct Ht as [Hn _ Hsz _]. split; rewrite ?Hn; [done| |done|].
    + intros Hin. apply Hfree. rewrite elem_of_app. by left.
    + unfold is_i64. lia.
  - clear Hf. induction Ht as [|f e files es Ht _ IH]; constructor; [apply Ht|done].
  - intros n Hn Hin. rewrite (taken_names _ _ Ht) in Hin. apply list_elem_of_fmap in Hin as (f & -> & Hin). rewrite Forall_forall in Hf.
    destruct (Hf f Hin) as [_ Hfree _ _]. apply Hfree. rewrite elem_of_app. by right.
Qed.

(** What a complete run has done. *)
Definition parallel_done (id : string) (opts : BackupOptions) (sysID : Z) (dirs : list string) (r : result BackupResult) (v : gmap string string) : Prop :=
  exists t wa wb stop es, pg_walk wa = (Ok t, wb) /\ listing_ok (listed t) /\ Forall2 taken (sched (listed t)) es /\
    Forall entry_ok (es ++ label_entries stop) /\ Forall (fun e => te_Typeflag e = "0"%char) (es ++ label_entries stop) /\
    parallel_complete id opts sysID dirs (es ++ label_entries stop) v /\
    forall res, r = Ok res -> br_BackupID res = id /\ br_Files res = Z.of_nat (length (listed t)).

Lemma parallel_backup_spec rpOpts opts cid startedAt id b w r b' w' : own_id id ->
  parallel_backup Now sched rpOpts opts cid startedAt id b w = (Ok (r, b'), w') ->
  (view w' !! path_Join [id; "backup_manifest"] = view w !! path_Join [id; "backup_manifest"] /\ isOk r = false) \/
  parallel_done id opts (id_SystemIdentifier cid) [] r (view w').
Proof.
  intros Hid. pose proof (hidden_not_manifest id Hid) as Hman. set (man := path_Join [id; "backup_manifest"]) in *.
  assert (Hnw : ~ wal_key man) by (intros Hw; apply Hman; by left).
  unfold parallel_backup. unfold bind at 1. pose proof (Start_quiet (bo_Label opts) true b w) as Hq0.
  destruct (Start (bo_Label opts) true b w) as [[[start b0]|err] w0] eqn:E0; cbn [snd] in Hq0; [|done].
  destruct start as [start|err]; [|intros [= <- <- <-]; left; by rewrite (Hq0 _ Hnw)].
  assert (Hend : forall bb ww e, same_outside wal_key w ww -> forall rr bb' ww', stop_with bb e ww = (Ok (rr, bb'), ww') -> view ww' !! man = view w !! man /\ isOk rr = false).
  { intros bb ww e Hs rr bb' ww'. unfold stop_with, bind. pose proof (Stop_quiet bb ww) as Hq. destruct (Stop bb ww) as [[[rs bs]|es] ws]; cbn [snd] in Hq; [|done].
    intros [= <- <- <-]. split; [|done]. by rewrite (Hq _ Hnw), (Hs _ Hnw). }
  unfold bind at 1, try at 1, wrapping at 1, ListPGData, bind at 1, wrapping at 1. pose proof (walk_quiet w0) as Hq1.
  destruct (pg_walk w0) as [[t|err] w1] eqn:E1; cbn [snd map_error] in *; [unfold ret at 1; cbn [map_error]|intros Hrun; left; eapply Hend, Hrun; by etrans].
  pose proof ((_ : plain_listings W) _ _ _ E1) as Hlist. fold (listed t).
  assert (Hperm : listing_ok (sched (listed t))) by (eapply listing_ok_perm; [apply Hsched|done]).
  unfold bind at 1, try at 1. destruct (stream_files Now rpOpts opts id (sched (listed t)) _ w1) as [r2 w2] eqn:E2.
  apply (stream_files_spec Now id opts rpOpts Hid) in E2 as [Hh2 Ht2]; [|done|done].
  assert (Hm2 : view w2 !! man = view w !! man) by by rewrite (Hh2 _ Hman), (Hq1 _ Hnw), (Hq0 _ Hnw).
  destruct r2 as [tl|err].
  2:{ intros Hrun. left. unfold stop_with, bind in Hrun. pose proof (Stop_quiet b0 w2) as Hq. destruct (Stop b0 w2) as [[[rs bs]|es] ws]; cbn [snd] in Hq; [|done].
      injection Hrun as <- <- <-. split; [|done]. by rewrite (Hq _ Hnw). }
  destruct (Ht2 tl eq_refl eq_refl) as (es & Htk & Hrec & Hst & Hn). cbn [snd] in *.
  unfold bind at 1. pose proof (Stop_quiet b0 w2) as Hq3. destruct (Stop b0 w2) as [[[stop b3]|err] w3] eqn:E3; cbn [snd] in Hq3; [|done].
  destruct stop as [stop|err]; [|intros [= <- <- <-]; left; by rewrite (Hq3 _ Hnw)].
  destruct (taken_ok _ _ Htk Hperm) as (Hes & Hreg & Hni). pose proof (Stop_labels_ok _ _ _ _ _ E3) as Hlab.
  unfold bind, try. destruct (finish_parallel Now opts cid id start stop tl w3) as [r4 w4] eqn:E4. intros [= <- <- <-].
  apply (finish_parallel_spec Now id opts Hid cid start stop tl es) in E4; [|by apply Forall_app|done|done|].
  2:{ eapply all_stored_quiet; [done|by eapply taken_keys; [exact Htk|apply Hperm]|exact Hq3|done]. }
  destruct E4 as [[Hsame Hf]|[Hc Hres]]; [fold man in Hsame; left; by rewrite Hsame, (Hq3 _ Hnw)|right].
  exists t, w0, w1, stop, es. split_and!; [done|done|done|by apply Forall_app| |done|].
  - apply Forall_app. split; [done|]. unfold label_entries, labels_of. by repeat case_match; repeat constructor.
  - intros res Hr. destruct (Hres res Hr) as [Hb Hfl]. split; [done|]. rewrite Hfl, Hn, <- (Forall2_length _ _ _ Htk). by rewrite Hsched.
Qed.

Lemma prepare_parallel_own opts startedAt w cid id w1 : prepare_parallel opts startedAt w = (Ok (cid, id), w1) -> own_id id.
Proof.
  unfold prepare_parallel. intros Hrun. apply bind_inv_Ok in Hrun as (bid & w2 & Hid & Hrun).
  repeat (apply bind_inv_Ok in Hrun as (? & ? & _ & Hrun)). injection Hrun as _ -> _.
  unfold ChooseBackupID in Hid. apply bind_inv_Ok in Hid as (latest & ? & _ & Hid).
  destruct (_ && _); [destruct (label_le _ _); [done|]|]; injection Hid as <- <-; apply FormatBackupID_own.
Qed.

Lemma runRemoteParallel_spec opts rpOpts w cid id w1 r w' :
  prepare_parallel opts (Now w) w = (Ok (cid, id), w1) -> runRemoteParallel Now sched opts rpOpts w = (r, w') -> rp_HasPool rpOpts = true ->
  13 <= rp_PGVersion rpOpts ->
  own_id id /\ ((view w' !! path_Join [id; "backup_manifest"] = view w1 !! path_Join [id; "backup_manifest"] /\ isOk r = false) \/
  parallel_done id opts (id_SystemIdentifier cid) [] r (view w')).
Proof.
  intros Hprep Hrun Hpool Hver. pose proof (prepare_parallel_own _ _ _ _ _ _ Hprep) as Hid. split; [done|]. revert Hrun. unfold runRemoteParallel.
  rewrite Hpool. cbn [negb]. destruct (Z.ltb_spec (rp_PGVersion rpOpts) 13); [lia|]. unfold bind at 1, read. unfold bind at 1. rewrite Hprep.
  unfold bind at 1, of_result at 1. destruct (bracket_New true (rp_PGVersion rpOpts)) as [b|err]; cbn [map_error fst snd].
  2:{ intros [= <- <-]. by left. }
  unfold bind. destruct (parallel_backup Now sched rpOpts opts cid (Now w) id b w1) as [[[r2 b2]|err] w2] eqn:E2.
  - unfold of_result. cbn [fst]. intros [= <- <-]. by apply (parallel_backup_spec rpOpts opts cid (Now w) id b w1 r2 b2 w2 Hid).
  - destruct (parallel_backup_ends Now sched rpOpts opts cid (Now w) id b w1) as (r2 & b2 & w3 & E & _). by rewrite E in E2.
Qed.
End run_parallel.

(** C5: a parallel backup of a data directory that has no file under one of the backup's own names (backup_manifest,
    the sidecar, backup_label and the like; [plain_listings]) is all or nothing: whatever fails, either its
    manifest is as it was and the run reports an error, or every listed file and the labels of the
    bracket are stored with what their chain makes of them, each file with exactly the bytes it was
    listed with, and manifest and sidecar describe them. The condition is needed
    ([listed_manifest_left_behind]): a cluster that this program restored breaks it. *)
Theorem runRemoteParallel_atomic {W : Type} `{BackendLaws W, !Clock W, !ClockLaws W, !Pg W, !PgLaws W, FilterLibs, !Catalog W, !CatalogLaws W, !Sessions W, !SessionsQuiet W}
    (Now : W -> time) sched opts rpOpts w cid id w1 r w' :
  plain_listings W -> (forall l, sched l ≡ₚ l) -> rp_HasPool rpOpts = true -> 13 <= rp_PGVersion rpOpts ->
  prepare_parallel opts (Now w) w = (Ok (cid, id), w1) -> runRemoteParallel Now sched opts rpOpts w = (r, w') ->
  (view w' !! path_Join [id; "backup_manifest"] = view w1 !! path_Join [id; "backup_manifest"] /\ isOk r = false) \/
  exists t wa wb stop es, pg_walk wa = (Ok t, wb) /\ Forall2 taken (sched (listed t)) es /\
    parallel_complete id opts (id_SystemIdentifier cid) [] (es ++ label_entries stop) (view w') /\
    forall res, r = Ok res -> br_BackupID res = id /\ br_Files res = Z.of_nat (length (listed t)).
Proof.
  intros Hplain Hsched Hpool Hver Hprep Hrun.
  destruct (runRemoteParallel_spec Now sched Hsched opts rpOpts w cid id w1 r w' Hprep Hrun Hpool Hver) as [_ [?|Hdone]]; [by left|right].
  destruct Hdone as (t & wa & wb & stop & es & Hw & _ & Htk & _ & _ & Hc & Hres). by exists t, wa, wb, stop, es.
Qed.

(** Copying a file of the cluster comes to its end: a round for every listed byte and one more are
    enough, whatever the server answers, and further rounds would change nothing. *)
Theorem io_Copy_terminates {W : Type} `{CatalogLaws W, FilterLibs} f more v cw (w : W) : fe_Size f < 2 ^ 63 ->
  io_Copy (copy_fuel (fe_Size f) + more) v (NewReader (fe_Path f) (fe_Size f) 0) cw w =
  io_Copy (copy_fuel (fe_Size f)) v (NewReader (fe_Path f) (fe_Size f) 0) cw w.
Proof.
  intros Hs. destruct (NewReader_ok (fe_Path f) (fe_Size f) 0 Hs) as [Hr Hl]. apply io_Copy_enough; [done|]. rewrite Hl. unfold copy_fuel. lia.
Qed.

Lemma parallel_sidecar_ok `{FilterLibs} (opts : BackupOptions) sysID dirs records : options_ok opts -> is_u64 sysID ->
  Forall (fun d => valid_utf8 d = true) dirs -> Forall segment_ok records -> sidecar_ok (parallel_sidecar opts sysID dirs records).
Proof.
  intros Ho Hs Hd Hr. unfold options_ok, valid_strings in *. cbn [app] in Ho.
  repeat match goal with H : Forall _ (_ :: _) |- _ => apply Forall_cons in H as [? H] end.
  split; cbn [parallel_sidecar sc_Version sc_StorageLayoutVersion sc_SystemIdentifier sc_WALSegments]; try (unfold is_i64, SidecarVersion; lia); try done.
  unfold valid_strings. cbn [app]. repeat (apply Forall_cons; split; [done|]). by apply Forall_app.
Qed.

Lemma entry_dirs_none es : Forall (fun e => te_Typeflag e = "0"%char) es -> List.concat (map entry_dir es) = [].
Proof. induction 1 as [|e es He _ IH]; [done|]. cbn [map List.concat]. unfold entry_dir at 1. by rewrite He, IH. Qed.

(** Names that were listed once, and the labels, are different. *)
Lemma taken_stream_ok {W : Type} `{CatalogLaws W} sched t es stop : (forall l, sched l ≡ₚ l) -> listing_ok (listed t) -> Forall2 taken (sched (listed t)) es ->
  Forall entry_ok (es ++ label_entries stop) -> Forall (fun e => te_Typeflag e = "0"%char) (es ++ label_entries stop) ->
  stream_ok (es ++ label_entries stop).
Proof.
  intros Hsched Hlist Htk Hes Hreg. split; rewrite ?regulars_all by done; [done| |by rewrite entry_dirs_none].
  assert (Hp : listing_ok (sched (listed t))) by (eapply listing_ok_perm; [apply Hsched|done]). destruct (taken_ok _ _ Htk Hp) as (_ & _ & Hni).
  rewrite fmap_app, (taken_names _ _ Htk). apply NoDup_app. split_and!; [apply Hp| |].
  - intros n Hn Hl. rewrite <- (taken_names _ _ Htk) in Hn. apply (Hni n); [|done]. unfold label_entries, labels_of in Hl.
    case_match; cbn in Hl; unfold label_names; set_unfold; tauto.
  - unfold label_entries, labels_of. case_match; cbn; repeat constructor; set_solver.
Qed.


(** ** A small cluster *)

(** Two files and an empty directory. *)
Definition sample_tree : pgtree := {|
  pg_ls_dir d := if String.eqb d "" then ["PG_VERSION"; "base"; "pg_notify"; "pg_wal"; "postmaster.pid"]
                 else if String.eqb d "base" then ["1"] else [];
  pg_stat_file p := if String.eqb p "PG_VERSION" then Some (false, 3) else if String.eqb p "base/1" then Some (false, 4)
                    else if String.eqb p "postmaster.pid" then Some (false, 9) else Some (true, 0) |}.

Definition sample_file (p : string) : string := if String.eqb p "base/1" then "abcd" else if String.eqb p "PG_VERSION" then "18" +:+ nl else "".

Definition sample_read (p : string) (off len : Z) : string := stake (Z.to_nat len) (sdrop (Z.to_nat off) (sample_file p)).

#[export] Instance sample_catalog : Catalog world := {
  pg_walk := ret sample_tree;
  pg_read_binary_file p off len := ret (sample_read p off len);
  pg_data_directory := ret "/pgdata";
}.


#[export] Instance sample_catalog_laws : CatalogLaws world.
Proof.
  split; try (intros; apply preserves_ret; tc_solve); [done|]. intros p off len w b w' Hl [= <- _]. unfold sample_read. rewrite slen_take. lia.
Qed.

Lemma sample_listed : listed sample_tree = [{| fe_Path := "PG_VERSION"; fe_Size := 3 |}; {| fe_Path := "base/1"; fe_Size := 4 |}].
Proof. reflexivity. Qed.

Lemma sample_plain_listings : plain_listings world.
Proof.
  intros w t w' [= <- _]. rewrite sample_listed.
  split; [|by apply (bool_decide_unpack _)].
  repeat (apply Forall_cons; split; [split; [reflexivity|unfold reserved_names, label_names; by apply (bool_decide_unpack _)|reflexivity|cbn; lia]|]). constructor.
Qed.

#[export] Instance sample_sessions : Sessions world := {
  Conn := unit;
  pool_Acquire := ret tt;
  conn_Release _ w := w;
  pg_backup_start _ _ _ _ := ret ("0/2000028", 1);
  pg_backup_stop _ _ := ret ("0/2000100", sample_label, "");
}.

#[export] Instance sample_sessions_quiet : SessionsQuiet world.
Proof.
  split; try (intros; apply preserves_ret; tc_solve); [done|]. intros legacy c w lsn label spcmap w' [= _ <- <- _]. unfold is_i64. split; vm_compute; split; discriminate || reflexivity.
Qed.

(** The goroutines end in the opposite order. *)
Definition sample_sched (l : list FileEntry) : list FileEntry := reverse l.

Lemma sample_sched_perm l : sample_sched l ≡ₚ l.
Proof. apply reverse_Permutation. Qed.

Definition rp_sample (mode : PageChecksum.Mode) : RemoteParallelOptions :=
  {| rp_HasPool := true; rp_Workers := 4; rp_PGVersion := 18; rp_PageChecksumMode := mode |}.

Definition parallel_prepared : world := snd (prepare_parallel (H2:=framing_libs) backup_options (backup_now backup_world) backup_world).
Definition parallel_world : world := snd (runRemoteParallel (H2:=framing_libs) backup_now sample_sched backup_options (rp_sample ModeOff) backup_world).
Definition parallel_result : BackupResult :=
  {| br_BackupID := "20260401T100000F"; br_StartLSN := 0x2000028; br_StopLSN := 0x2000100; br_Timeline := 1; br_Files := 2; br_Bytes := 7 |}.

Lemma parallel_prepares : prepare_parallel (H2:=framing_libs) backup_options (backup_now backup_world) backup_world =
  (Ok (backup_identity, "20260401T100000F"), parallel_prepared).
Proof.
  refine (run_eq (prepare_parallel (H2:=framing_libs) backup_options (backup_now backup_world)) backup_world
    (Ok (backup_identity, "20260401T100000F")) _). vm_compute. reflexivity.
Qed.

Lemma parallel_runs : runRemoteParallel (H2:=framing_libs) backup_now sample_sched backup_options (rp_sample ModeOff) backup_world = (Ok parallel_result, parallel_world).
Proof.
  refine (run_eq (runRemoteParallel (H2:=framing_libs) backup_now sample_sched backup_options (rp_sample ModeOff)) backup_world (Ok parallel_result) _). vm_compute. reflexivity.
Qed.

Lemma runRemoteParallel_atomic_witness : exists stop es,
  parallel_complete (H1:=framing_libs) "20260401T100000F" backup_options 7 [] (es ++ label_entries stop) (view parallel_world) /\
  length es = 2%nat.
Proof.
  destruct (runRemoteParallel_atomic (H1:=framing_libs) backup_now sample_sched backup_options (rp_sample ModeOff) backup_world backup_identity "20260401T100000F"
    parallel_prepared (Ok parallel_result) parallel_world sample_plain_listings sample_sched_perm eq_refl ltac:(vm_compute; discriminate) parallel_prepares parallel_runs)
    as [[_ Hf]|(t & wa & wb & stop & es & Hw & Htk & Hc & _)]; [discriminate Hf|].
  exists stop, es. split; [exact Hc|]. injection Hw as <- _. apply Forall2_length in Htk. rewrite <- Htk. reflexivity.
Defined.

Definition sample_writer : chainWriter (H:=framing_libs) (W:=world) := new_writer (H:=framing_libs) (W:=world) 0%nat tt tt.

Lemma io_Copy_terminates_witness :
  io_Copy (H2:=framing_libs) 8 None (NewReader "base/1" 4 0) sample_writer parallel_world =
  io_Copy (H2:=framing_libs) 5 None (NewReader "base/1" 4 0) sample_writer parallel_world.
Proof. exact (io_Copy_terminates (H3:=framing_libs) {| fe_Path := "base/1"; fe_Size := 4 |} 3 None sample_writer parallel_world ltac:(cbn; lia)). Defined.

Lemma parallel_restored_runs : isOk (fst (Restore.Run (H2:=framing_libs) id restored_options parallel_world)) = true.
Proof. vm_compute. reflexivity. Qed.

(** A read of a file of the small cluster. *)
Lemma sample_steady p : steady (W:=world) p (sample_file p).
Proof. intros off len w b w' Hoff [= <- _]. unfold sample_read. done. Qed.


(** ** What goes wrong *)

(** A relation that is truncated between the listing and its read costs the whole backup. *)
Definition truncated_catalog : Catalog world := {|
  pg_walk := ret sample_tree;
  pg_read_binary_file p off len := ret (if String.eqb p "base/1" then "" else sample_read p off len);
  pg_data_directory := ret "/pgdata" |}.

Lemma truncated_file_fails : fst (runRemoteParallel (H2:=framing_libs) (H4:=truncated_catalog) backup_now sample_sched backup_options (rp_sample ModeOff) backup_world) =
  Fail (Errorf_w "backup: workers" (Errorf_w "file base/1" (Errorf_w "copy" (errors_New "readbinary: unexpected empty chunk")))).
Proof. vm_compute. reflexivity. Qed.

(** The data directory of a cluster that was restored by this program: restore.go leaves the manifest of the backup
    in it, and the listing does not leave it out. *)
Definition restored_tree : pgtree := {|
  pg_ls_dir d := if String.eqb d "" then ["backup_manifest"; "base"] else if String.eqb d "base" then ["1"] else [];
  pg_stat_file p := if String.eqb p "backup_manifest" then Some (false, 2) else if String.eqb p "base/1" then Some (false, 4) else Some (true, 0) |}.

Definition restored_catalog : Catalog world := {|
  pg_walk := ret restored_tree;
  pg_read_binary_file p off len := ret (if String.eqb p "backup_manifest" then stake (Z.to_nat len) (sdrop (Z.to_nat off) "{}") else "");
  pg_data_directory := ret "/pgdata" |}.

(** A backup of it that fails leaves a manifest behind all the same, the old one, copied as a file of the cluster:
    to everything that looks for finished backups by their manifest this one is finished. *)
Lemma listed_manifest_left_behind : let id := "20260401T100000F" in
  let rw := runRemoteParallel (H2:=framing_libs) (H4:=restored_catalog) backup_now (fun l => l) backup_options (rp_sample ModeOff) backup_world in
  let manifest (w : world) : option string := view w !! path_Join [id; "backup_manifest"] in
  isOk (fst rw) = false /\ manifest backup_world = None /\ is_Some (manifest (snd rw)).
Proof. vm_compute. split_and!; [done|done|by eexists]. Qed.

(** [global/pg_control] counts as a heap file, and with the page validator on it never passes: where a page has its
    checksum, it has its version. *)
Definition control_file : string := repeat_byte 8 "x" +:+ String "020" (String "005" (repeat_byte 8182 "000")).

Lemma control_file_rejected : isHeapFile "global/pg_control" = true /\
  is_Some (PageChecksum.read_all (PageChecksum.New ModeStrict 0) [control_file]).
Proof. split; [reflexivity|]. vm_compute. by eexists. Qed.

(** The empty directories of the cluster are in no listing, and the sidecar of this mode names none: a restore
    has to do without them. *)
Lemma empty_directories_lost : omap dir_of_row (walked walk_fuel sample_tree excluded_dir [root_row]) = ["base"; "pg_notify"] /\
  match UnmarshalSidecar (default "" (view parallel_world !! "20260401T100000F/Storage-Metadata.json")) with
  | Ok sc => sc_Directories sc = [] | Fail _ => False end.
Proof. vm_compute. by split. Qed.

(** An incremental backup over several connections is a full one under the name of an incremental. *)
Definition incremental_opts : BackupOptions (H:=framing_libs) := {|
  bo_Filter := bo_Filter backup_options; bo_HasPool := true; bo_Server := "main"; bo_Label := "pgsafe-main"; bo_WALTimeout := 30 * Minute; bo_WALSource := "";
  bo_ResumeDisabled := false; bo_ResumeCheckpointEveryN := 2; bo_ResumeGracePeriod := 0; bo_PgsafeVersion := "1";
  bo_Recipients := ["age1"]; bo_Compression := "zstd:3"; bo_ScratchDir := ""; bo_TempDir := "/tmp"; bo_Type := "incremental";
  bo_ParentBackupID := "20260331T100000F" |}.

Lemma parallel_incremental_is_full :
  let w' := snd (runRemoteParallel (H2:=framing_libs) backup_now sample_sched incremental_opts (rp_sample ModeOff) backup_world) in
  match UnmarshalSidecar (default "" (view w' !! "20260401T100000I/Storage-Metadata.json")) with
  | Ok sc => sc_Type sc = "" /\ sc_ParentBackupID sc = "" | Fail _ => False end.
Proof. vm_compute. by split. Qed.

(** [pg_internal.init] is left out of the root, where there is none, but not where PostgreSQL keeps it. *)
Lemma internal_init_listed : excluded_file "pg_internal.init" = true /\ excluded_file "global/pg_internal.init" = false /\
  excluded_file "base/1/pg_internal.init" = false.
Proof. by vm_compute. Qed.
