(* ===== verification/Worker.v ===== *)
(** * The worker on the host of PostgreSQL

    [internal/worker/worker.go]: every method of the service. The state of a worker is a record that the
    handlers take and hand back; what they answer over the wire is a value, with the error of the
    method in it. The storage a worker opened is an instance of the interface of its own. *)

From S2P Require Import Prelude Sha256 Storage Host Time Archive PageChecksum Filter Config Creds Mint Restore Rpc Parallel.

(** The reads of an open file and how they end. *)
Definition file_reads : Type := list string * option error.

Class WorkerHost (W : Type) := {
  os_Open : string -> M W file_reads;
  os_Setenv : string -> string -> W -> W;
  runtime_GOOS : string;
  runtime_NumCPU : Z;
}.

(** The parsers of [age] keys. *)
Class AgeKeys `{FilterLibs} := {
  age_ParseX25519Recipient : string -> result Recipient;
  age_ParseIdentities : string -> result (list Identity);
}.

(** ** Copying reads through the validator *)

Section copying.
Context `{FilterLibs} {W : Type} `{Backend W}.

(** [io.Copy] from an open file, through the page validator where there is one. *)
Fixpoint copy_reads (v : option Validator) (chunks : list string) (last : option error) (cw : chainWriter) : M W (result unit * chainWriter) :=
  match chunks with
  | [] => ret (match last with Some err => Fail err | None => Ok tt end, cw)
  | c :: chunks =>
      let '(verr, v) := match v with
                        | None => (None, None)
                        | Some v => let '(_, err, v) := PageChecksum.Read v c None in (err, Some v)
                        end in
      d <- Write c cw ;;
      let '(r, cw) := d in
      match r, verr with
      | Fail err, _ | Ok _, Some err => ret (Fail err, cw)
      | Ok _, None => copy_reads v chunks last cw
      end
  end.

(** Bytes as they are into a new file. *)
Definition put_body (m_put m_write m_close key body : string) : M W unit :=
  wc <- wrapping m_put (be_Put key) ;;
  r <- try (be_Write wc body) ;;
  match r with
  | Fail err => try (be_Close wc) ;;; throw (Errorf_w m_write err)
  | Ok _ => wrapping m_close (be_Close wc)
  end.
End copying.

(** [writeCloseBuffer]: a buffer as the storage of one file. *)
Definition no_storage {A} : M string A := throw (errors_New "not a storage").
Definition buffer : Backend string := {|
  be_Writer := unit;
  be_Put _ := fun _ => (Ok tt, "");
  be_Write _ p := fun s => (Ok tt, s +:+ p);
  be_Close _ := ret tt;
  be_Commit _ _ := no_storage;
  be_Get _ := no_storage;
  be_Stat _ := no_storage;
  be_List _ := no_storage;
  be_Delete _ := no_storage;
|}.

(** [pagechecksum.Mode] of a number: all but the first validate. *)
Definition mode_of_int (z : Z) : PageChecksum.Mode := if z =? 0 then ModeOff else if z =? 1 then ModeStrict else ModeLax.

(** [isPostStopWALPath] *)
Definition isPostStopWALPath (rel : string) : bool :=
  if negb (HasPrefix rel "pg_wal/") then false
  else if Contains rel ".." then false
  else IsArchivableFile (sdrop 7 rel).

Section worker.
Context {W : Type} `{Dialing W, WorkerHost W, Host W, Disk W, FilterLibs, !AgeKeys}.
Context (Now : W -> time).

(** [Worker]; the lock is that of its records, which the handlers only read after [Configure]. *)
Record Worker := {
  w_version : string; w_pgDataPath : string; w_configured : bool; w_backupID : string; w_chain : option Chain;
  w_backend : option rb; w_cleanup : option (M W unit); w_pageMode : PageChecksum.Mode; w_files : gmap string FileSpec;
  w_workerWritesDirectly : bool; w_fileCount : Z; w_bytesTotal : Z;
}.

(** [New] *)
Definition worker_New (version pgDataPath : string) : Worker :=
  {| w_version := version; w_pgDataPath := pgDataPath; w_configured := false; w_backupID := ""; w_chain := None; w_backend := None;
     w_cleanup := None; w_pageMode := ModeOff; w_files := ∅; w_workerWritesDirectly := false; w_fileCount := 0; w_bytesTotal := 0 |}.

(** A method: its answer and the worker after it. *)
Definition method (A : Type) : Type := Worker -> M W (A * Worker).

(** [Hello] *)
Definition worker_Hello : method HelloResponse := fun w =>
  ret ({| hr_WorkerVersion := w_version w; hr_ProtocolVersion := Version; hr_OS := runtime_GOOS; hr_NumCPU := runtime_NumCPU;
          hr_PGDataPath := w_pgDataPath w |}, w).

(** [parseRecipients] *)
Fixpoint parseRecipients (strs : list string) : result (list Recipient) :=
  match strs with
  | [] => Ok []
  | s :: strs =>
      match age_ParseX25519Recipient s with
      | Fail err => Fail (Errorf_w "recipient[i]" err)
      | Ok r => map_result (cons r) (parseRecipients strs)
      end
  end.

(** Opening the storage of [Configure] and of [ProbeStorage]; they differ in what they say before the
    error of the driver. *)
Definition open_storage (wrap : error -> error) (storageType storagePath credentials : string) : M W (result opened) :=
  if String.eqb storageType "posix" then
    if String.eqb storagePath "" then ret (Fail (errors_New "StorageType=posix requires StoragePath"))
    else r <- try (openWorkerPOSIX storagePath) ;; ret (map_error wrap r)
  else if bool_decide (storageType ∈ ["s3"; "azure"; "gcs"; "sftp"]) then
    match cred_Unmarshal credentials with
    | Fail err => ret (Fail (Errorf_w "creds" err))
    | Ok cred => r <- try (OpenBackendFromCredential cred) ;; ret (map_error wrap r)
    end
  else ret (Fail (errors_New "unsupported StorageType")).

Definition set_backend (o : option opened) (direct : bool) (w : Worker) : Worker :=
  {| w_version := w_version w; w_pgDataPath := w_pgDataPath w; w_configured := w_configured w; w_backupID := w_backupID w; w_chain := w_chain w;
     w_backend := match o with Some o => Some (fst o) | None => w_backend w end;
     w_cleanup := match o with Some o => Some (snd o) | None => w_cleanup w end;
     w_pageMode := w_pageMode w; w_files := w_files w; w_workerWritesDirectly := direct; w_fileCount := w_fileCount w; w_bytesTotal := w_bytesTotal w |}.

(** The last part of [Configure]: the chain and the list of files. *)
Definition configure_chain (req : ConfigureRequest) (w : Worker) : string * Worker :=
  match parseRecipients (cq_AgeRecipients req) with
  | Fail err => ("parse age recipients: " +:+ err_msg err, w)
  | Ok rcpts =>
      match NewChain {| o_Codec := cq_CompressionCodec req; o_Level := cq_CompressionLevel req; o_Recipients := rcpts |} with
      | Fail err => ("filter chain: " +:+ err_msg err, w)
      | Ok chain =>
          ("", {| w_version := w_version w; w_pgDataPath := if String.eqb (cq_PGDataPath req) "" then w_pgDataPath w else cq_PGDataPath req;
                  w_configured := true; w_backupID := cq_BackupID req; w_chain := Some chain; w_backend := w_backend w; w_cleanup := w_cleanup w;
                  w_pageMode := mode_of_int (cq_PageChecksumMode req);
                  w_files := list_to_map (reverse ((fun f => (fs_Path f, f)) <$> cq_Files req));
                  w_workerWritesDirectly := w_workerWritesDirectly w; w_fileCount := w_fileCount w; w_bytesTotal := w_bytesTotal w |})
      end
  end.

(** [Configure]; its errors are a text in the answer. The credentials are only parsed where the worker
    has a storage, before the kind of it is looked at. *)
Definition Configure (req : ConfigureRequest) : method string := fun w =>
  if w_configured w then ret ("Configure called twice on the same worker", w)
  else
    (if String.eqb (cq_HTTPSProxy req) "" then ret tt
     else update (os_Setenv "HTTPS_PROXY" (cq_HTTPSProxy req)) ;;; update (os_Setenv "HTTP_PROXY" (cq_HTTPSProxy req))) ;;;
    if cq_WorkerWritesDirectly req then
      match cred_Unmarshal (cq_Credentials req) with
      | Fail err => ret ("creds: " +:+ err_msg err, w)
      | Ok _ =>
          o <- open_storage (Errorf_w (if String.eqb (cq_StorageType req) "posix" then "open posix" else "open backend"))
                 (cq_StorageType req) (cq_StoragePath req) (cq_Credentials req) ;;
          match o with
          | Fail err => ret (err_msg err, w)
          | Ok o => ret (configure_chain req (set_backend (Some o) true w))
          end
      end
    else ret (configure_chain req (set_backend None false w)).

(** ** Streaming *)

(** The checks of [StreamFile] and [StreamChunk] on a path. *)
Definition check_path (what : string) (w : Worker) (path : string) : result unit :=
  if negb (bool_decide (is_Some (w_files w !! path))) && negb (isPostStopWALPath path)
  then Fail (errors_New (what +:+ ": path not in Configure's file list"))
  else if Contains path ".." || HasPrefix path "/" then Fail (errors_New (what +:+ ": path escapes $PGDATA"))
  else Ok tt.

(** The file behind a path, and the validator for it. *)
Definition open_source (w : Worker) (path : string) : M W (option Validator * file_reads) :=
  src <- wrapping "open" (os_Open (path_Join [w_pgDataPath w; path])) ;;
  ret (if isHeapFile path then Some (PageChecksum.New (w_pageMode w) 0) else None, src).

Definition count_file (n : Z) (w : Worker) : Worker :=
  {| w_version := w_version w; w_pgDataPath := w_pgDataPath w; w_configured := w_configured w; w_backupID := w_backupID w; w_chain := w_chain w;
     w_backend := w_backend w; w_cleanup := w_cleanup w; w_pageMode := w_pageMode w; w_files := w_files w;
     w_workerWritesDirectly := w_workerWritesDirectly w; w_fileCount := w_fileCount w + 1; w_bytesTotal := w_bytesTotal w + n |}.

Definition answer (path body : string) (res : FilterResult) : M W StreamResponse :=
  now <- read Now ;;
  ret {| sr_Path := path; sr_Bytes := res_Bytes res; sr_SHA256 := res_SHA256 res; sr_ModTime := UTC now; sr_Body := body |}.

(** The counters go up when the file is done. *)
Definition counted (w : Worker) (m : M W StreamResponse) : M W (result StreamResponse * Worker) :=
  r <- try m ;;
  ret (r, match r with Ok resp => count_file (sr_Bytes resp) w | Fail _ => w end).

(** The file of a path through the chain into a new file of the storage. *)
Definition stream_to (b : rb) (chain : Chain) (key : string) (src : option Validator * file_reads) : M W FilterResult :=
  let B := rb_Backend b in
  through_chain chain key ("backend.Put", "filter.Wrap", "copy", "close") (copy_reads (fst src) (fst (snd src)) (snd (snd src))).

(** [StreamFile] *)
Definition StreamFile (path : string) : method (result StreamResponse) := fun w =>
  if negb (w_configured w) then ret (Fail (errors_New "StreamFile before Configure"), w)
  else match check_path "StreamFile" w path with
       | Fail err => ret (Fail err, w)
       | Ok _ =>
           counted w (
             src <- open_source w path ;;
             b <- deref_or_panic (w_backend w) ;;
             chain <- deref_or_panic (w_chain w) ;;
             res <- stream_to b chain (path_Join [w_backupID w; path]) src ;;
             answer path "" res)
       end.

(** The same into a buffer. *)
Definition stream_buffer (chain : Chain) (src : option Validator * file_reads) : result (FilterResult * string) :=
  let B := buffer in
  match through_chain chain "" ("", "filter.Wrap", "copy", "close") (copy_reads (fst src) (fst (snd src)) (snd (snd src))) "" with
  | (Ok res, body) => Ok (res, body)
  | (Fail err, _) => Fail err
  end.

(** [StreamChunk] *)
Definition StreamChunk (path : string) : method (result StreamResponse) := fun w =>
  if negb (w_configured w) then ret (Fail (errors_New "StreamChunk before Configure"), w)
  else if w_workerWritesDirectly w then ret (Fail (errors_New "StreamChunk called but Configure said WorkerWritesDirectly=true"), w)
  else match check_path "StreamChunk" w path with
       | Fail err => ret (Fail err, w)
       | Ok _ =>
           counted w (
             src <- open_source w path ;;
             chain <- deref_or_panic (w_chain w) ;;
             d <- of_result (stream_buffer chain src) ;;
             answer path (snd d) (fst d))
       end.

(** ** Blobs, the commit and the end *)

Definition write_plain (b : rb) (key body : string) : M W unit :=
  let B := rb_Backend b in put_body "WriteBlob backend.Put" "WriteBlob plaintext write" "WriteBlob close" key body.

Definition write_filtered (b : rb) (chain : Chain) (key body : string) : M W FilterResult :=
  let B := rb_Backend b in
  through_chain chain key ("WriteBlob backend.Put", "WriteBlob filter.Wrap", "WriteBlob write", "WriteBlob close") (Write body).

(** [WriteBlob]; a plain blob is not counted. *)
Definition worker_WriteBlob (req : WriteBlobRequest) : method (result WriteBlobResponse) := fun w =>
  if negb (w_configured w) then ret (Fail (errors_New "WriteBlob before Configure"), w)
  else if wq_Filtered req then
    r <- try (b <- deref_or_panic (w_backend w) ;; chain <- deref_or_panic (w_chain w) ;; write_filtered b chain (wq_RepoPath req) (wq_Body req)) ;;
    ret (map_result (fun res => {| wr_Bytes := res_Bytes res; wr_SHA256 := res_SHA256 res |}) r,
         match r with Ok res => count_file (res_Bytes res) w | Fail _ => w end)
  else
    r <- try (b <- deref_or_panic (w_backend w) ;; write_plain b (wq_RepoPath req) (wq_Body req)) ;;
    ret (map_result (fun _ => {| wr_Bytes := Z.of_nat (slen (wq_Body req)); wr_SHA256 := Sum256 (wq_Body req) |}) r, w).

(** [Commit] *)
Definition worker_Commit (tmp final : string) : method (result unit) := fun w =>
  if negb (w_configured w) then ret (Fail (errors_New "Commit before Configure"), w)
  else
    r <- try (b <- deref_or_panic (w_backend w) ;; let B := rb_Backend b in wrapping "Commit" (be_Commit tmp final)) ;;
    ret (r, w).

(** [ProbeStorage]: the storage is opened and let go. *)
Definition worker_ProbeStorage (req : ProbeStorageRequest) : method ProbeStorageResponse := fun w =>
  if String.eqb (pq_StorageType req) "" then ret ({| pr_Reachable := true; pr_Error := "" |}, w)
  else
    o <- open_storage (fun err => err) (pq_StorageType req) (pq_StoragePath req) (pq_Credentials req) ;;
    match o with
    | Fail err => ret ({| pr_Reachable := false; pr_Error := err_msg err |}, w)
    | Ok o => try (snd o) ;;; ret ({| pr_Reachable := true; pr_Error := "" |}, w)
    end.

(** [parseIdentitiesPEM] *)
Fixpoint parseIdentitiesPEM (blobs : list string) : result (list Identity) :=
  match blobs with
  | [] => Ok []
  | b :: blobs =>
      match age_ParseIdentities b with
      | Fail err => Fail err
      | Ok ids => map_result (app ids) (parseIdentitiesPEM blobs)
      end
  end.

(** [runRestoreOnWorker] of cmd/pgsafe *)
Definition runRestoreOnWorker (sched : list ManifestFile -> list ManifestFile) (b : rb) (req : RestoreRequest) (identities : list Identity)
  : M W RestoreResult :=
  let B := rb_Backend b in
  Restore.Run sched {| ro_Target := rr_TargetPath req; ro_Identities := identities; ro_BackupID := Rpc.rr_BackupID req; ro_TablespaceRemap := ∅;
    ro_StandbyMode := rr_StandbyMode req; ro_RestoreCommand := rr_RestoreCommand req; ro_TargetTime := None; ro_TargetXID := None;
    ro_TargetLSN := None; ro_TargetName := ""; ro_TargetAction := "" |}.

Definition restore_failed (msg : string) : RestoreResponse := {| rp_BackupID := ""; rp_Files := 0; rp_WAL := 0; rp_Bytes := 0; rp_Error := msg |}.

(** [Restore]; the clean-up of the storage is deferred. *)
Definition worker_Restore (sched : list ManifestFile -> list ManifestFile) (req : RestoreRequest) : method RestoreResponse := fun w =>
  match cred_Unmarshal (rr_Credentials req) with
  | Fail err => ret (restore_failed ("creds: " +:+ err_msg err), w)
  | Ok cred =>
      o <- try (OpenBackendFromCredential cred) ;;
      match o with
      | Fail err => ret (restore_failed ("open backend: " +:+ err_msg err), w)
      | Ok (b, cleanup) =>
          resp <- match parseIdentitiesPEM (rr_AgeIdentities req) with
                  | Fail err => ret (restore_failed ("parse identities: " +:+ err_msg err))
                  | Ok identities =>
                      r <- try (runRestoreOnWorker sched b req identities) ;;
                      ret (match r with
                           | Fail err => restore_failed (err_msg err)
                           | Ok res => {| rp_BackupID := Restore.rr_BackupID res; rp_Files := rr_Files res; rp_WAL := rr_WAL res;
                                          rp_Bytes := rr_Bytes res; rp_Error := "" |}
                           end)
                  end ;;
          try cleanup ;;;
          ret (resp, w)
      end
  end.

(** [Done] *)
Definition worker_Done : method DoneResponse := fun w =>
  let resp := {| dr_FileCount := w_fileCount w; dr_BytesTotal := w_bytesTotal w |} in
  let w' := {| w_version := w_version w; w_pgDataPath := w_pgDataPath w; w_configured := w_configured w; w_backupID := w_backupID w;
               w_chain := w_chain w; w_backend := w_backend w; w_cleanup := None; w_pageMode := w_pageMode w; w_files := w_files w;
               w_workerWritesDirectly := w_workerWritesDirectly w; w_fileCount := w_fileCount w; w_bytesTotal := w_bytesTotal w |} in
  match w_cleanup w with None => ret tt | Some cleanup => try cleanup ;;; ret tt end ;;;
  ret (resp, w').
End worker.
