(* ===== verification/WorkerSpec.v ===== *)
(** * What a worker does

    Whatever it is asked, a configured worker reads below the data directory only and never uses a storage
    it does not have; what it streams is stored as the chain encodes it. *)

From S2P Require Import Prelude Sha256 Wal Storage Keys FileSystem Posix PosixSpec Host Time Json Manifest Worlds Archive PageChecksum Filter Config Creds Mint Restore Rpc Backup BackupSpec PgSql Parallel ParallelSpec Worker.

(** ** Copying from an open file *)

Section copying.
Context `{FilterLibs} {W : Type} `{BackendLaws W}.

Lemma copy_reads_silent key v chunks last cw w : open_at key (cw_sink cw) w -> exists r cw' w',
  copy_reads v chunks last cw w = (Ok (r, cw'), w') /\ view w' = view w /\ cw_sink cw' = cw_sink cw /\ open_at key (cw_sink cw) w'.
Proof.
  revert v cw w. induction chunks as [|c chunks IH]; intros v cw w Ho; cbn [copy_reads]; [by eexists _, cw, w|].
  destruct (match v with Some v => _ | None => _ end) as [verr v'].
  unfold bind. destruct (Write_silent key c cw w Ho) as (r & cw1 & w1 & -> & Hv & Hs & Ho1).
  destruct r as [[]|err]; [|by eexists _, cw1, w1]. destruct verr as [err|]; [by eexists _, cw1, w1|].
  rewrite <- Hs in Ho1. destruct (IH v' cw1 w1 Ho1) as (r & cw2 & w2 & -> & Hv2 & Hs2 & Ho2).
  exists r, cw2, w2. rewrite Hs in *. split_and!; [done|congruence|congruence|done].
Qed.

(** A file that was read to its end without an error. *)
Definition read_whole (src : file_reads) (chunks : list string) : Prop := chunks = fst src /\ snd src = None.

Lemma copy_reads_inv key v0 e0 hd c0 chd lc v chunks last cw w cw' w' : chain_inv key v0 e0 hd c0 chd lc cw w ->
  copy_reads v chunks last cw w = (Ok (Ok tt, cw'), w') -> chain_inv key v0 e0 hd c0 chd (lc ++ chunks) cw' w' /\ last = None.
Proof.
  revert v lc cw w. induction chunks as [|c chunks IH]; intros v lc cw w Hi; cbn [copy_reads].
  { rewrite app_nil_r. destruct last; [done|]. by intros [= <- <-]. }
  destruct (match v with Some v => _ | None => _ end) as [verr v'].
  unfold bind. destruct (Write c cw w) as [[[[[]|err] cw1]|err] w1] eqn:E; [|done..].
  apply (Write_inv key v0 e0 hd c0 chd lc) in E; [|done]. destruct verr; [done|]. intros Hrun.
  destruct (IH _ _ _ _ E Hrun) as [Hi' Hl]. by rewrite <- app_assoc in Hi'.
Qed.

Lemma copy_reads_copies v src : copies (read_whole src) (copy_reads v (fst src) (snd src)).
Proof.
  split.
  - intros key cw w Ho. destruct (copy_reads_silent key v (fst src) (snd src) cw w Ho) as (r & cw' & w' & E & Hv & Hs & Ho').
    exists r, cw', w'. split_and!; [done|by apply same_view_outside|done|done].
  - intros key v0 e0 hd c0 chd lc cw w cw' w' Hi Hrun. destruct (copy_reads_inv _ _ _ _ _ _ _ _ _ _ _ _ _ _ Hi Hrun) as [Hi' Hl].
    exists (fst src). split; [|done]. by rewrite <- (chain_inv_same _ _ _ _ _ _ _ _ _ Hi').
Qed.
End copying.

(** ** The buffer of [StreamChunk]

    A storage of one file in memory obeys the laws; without its bookkeeping it is the buffer. *)

Record desk := Desk { dk_name : string; dk_bytes : string; dk_view : gmap string string }.

Definition no_desk {A} : M desk A := throw (errors_New "not a storage").

#[local] Instance desk_backend : Backend desk := {|
  be_Writer := unit;
  be_Put p := fun d => (Ok tt, Desk p "" (dk_view d));
  be_Write _ p := fun d => (Ok tt, Desk (dk_name d) (dk_bytes d +:+ p) (dk_view d));
  be_Close _ := fun d => (Ok tt, Desk (dk_name d) (dk_bytes d) (<[dk_name d := dk_bytes d]> (dk_view d)));
  be_Commit _ _ := no_desk;
  be_Get _ := no_desk;
  be_Stat _ := no_desk;
  be_List _ := no_desk;
  be_Delete _ := no_desk;
|}.

#[local] Instance desk_laws : BackendLaws desk.
Proof.
  refine {| view := dk_view; pending d _ := Some (dk_name d, dk_bytes d) |}; try done.
  - intros p w _. split; [done|]. by intros h w' [= _ <-].
  - intros h b w p c [= <- <-]. split; [done|]. exists (dk_bytes w +:+ b). by split.
  - intros h w p c [= <- <-]. split; [intros q Hq; cbn; by rewrite lookup_insert_ne|]. by intros w' [= <-].
  - intros tmp final w _ _ _ _ _. split_and!; [done|done| |]; intros e w' [= <- <-]; [by left|done].
  - intros p w _. split_and!; [done|done|]. by intros e w' [= <- <-].
  - intros p w _. split_and!; [done|done|]. by intros e w' [= <- <-].
  - intros prefix w e w' p [= <- <-]. done.
  - intros p w _. split_and!; [done|done| |]; intros e w' [= <- <-]; [by left|done].
Defined.

Section buffer.
Context `{FilterLibs}.

Definition off_desk (cw : chainWriter (H0:=desk_backend)) : chainWriter (H0:=buffer) :=
  ChainWriter (H0:=buffer) tt (cw_repo cw) (cw_repoBytes cw) (cw_enc cw) (cw_comp cw) (cw_hashed cw) (cw_bytes cw) (cw_res cw) (cw_closed cw).

(** A run beside the bookkeeping. *)
Definition beside {A B} (f : A -> B) (run : result A * desk) : result B * string := (map_result f (fst run), dk_bytes (snd run)).
Definition writer_off (p : result unit * chainWriter (H0:=desk_backend)) : result unit * chainWriter (H0:=buffer) := (fst p, off_desk (snd p)).

Lemma beside_bind {A B A' B'} (f : A -> A') (g : B -> B') (m : M desk A) (m' : M string A') (k : A -> M desk B) (k' : A' -> M string B') d :
  m' (dk_bytes d) = beside f (m d) -> (forall a d, k' (f a) (dk_bytes d) = beside g (k a d)) -> bind m' k' (dk_bytes d) = beside g (bind m k d).
Proof. intros Hm Hk. unfold bind. rewrite Hm. destruct (m d) as [[a|err] d']; [apply Hk|done]. Qed.

Lemma off_repo_Write x cw d : repo_Write (H0:=buffer) x (off_desk cw) (dk_bytes d) = beside writer_off (repo_Write x cw d).
Proof. done. Qed.

Lemma off_enc_Write x cw d : enc_Write (H0:=buffer) x (off_desk cw) (dk_bytes d) = beside writer_off (enc_Write x cw d).
Proof. unfold enc_Write, off_desk. cbn [cw_enc]. destruct (age_write (cw_enc cw) x) as [e out]. apply (off_repo_Write out (set_enc e cw)). Qed.

Lemma off_Write x cw d : Write (H0:=buffer) x (off_desk cw) (dk_bytes d) = beside writer_off (Write x cw d).
Proof.
  unfold Write. change (cw_closed (off_desk cw)) with (cw_closed cw). destruct (cw_closed cw); [done|]. unfold hashed_Write, comp_Write.
  change (cw_comp (off_desk cw)) with (cw_comp cw). destruct (codec_write (cw_comp cw) x) as [c out].
  eapply beside_bind; [apply (off_enc_Write out (set_comp c cw))|].
  by intros [[[]|err] cw1] d1.
Qed.

Lemma off_Close cw d : Close (H0:=buffer) (off_desk cw) (dk_bytes d) = beside writer_off (Close cw d).
Proof.
  unfold Close. change (cw_closed (off_desk cw)) with (cw_closed cw). destruct (cw_closed cw); [done|].
  eapply beside_bind; [apply (off_enc_Write _ (set_closed cw))|]. by intros [[[]|err] cw1] d1.
Qed.

Lemma off_Wrap ch d : Wrap (H0:=buffer) ch tt (dk_bytes d) = beside off_desk (Wrap (H0:=desk_backend) ch tt d).
Proof.
  unfold Wrap. eapply (beside_bind id); [by destruct (encryption_NewWriter (ch_recipients ch))|]. intros [e hd] d1. cbn [id].
  destruct (codec_NewWriter _ _) as [[c chd]|err]; [|done].
  eapply beside_bind; [apply (off_repo_Write hd (new_writer (H0:=desk_backend) tt e c))|]. intros [[[]|err] cw1] d2; [|done].
  eapply (beside_bind id); [done|]. intros _ d3. eapply beside_bind; [apply (off_enc_Write chd cw1)|]. by intros [[[]|err] cw2] d4.
Qed.

Lemma off_copy_reads v chunks last cw d :
  copy_reads (H0:=buffer) v chunks last (off_desk cw) (dk_bytes d) = beside writer_off (copy_reads v chunks last cw d).
Proof.
  revert v cw d. induction chunks as [|c chunks IH]; intros v cw d; cbn [copy_reads]; [done|].
  destruct (match v with Some v => _ | None => _ end) as [verr v'].
  eapply beside_bind; [apply off_Write|]. intros [[[]|err] cw1] d1; [|done]. destruct verr; [done|]. apply IH.
Qed.

Lemma stream_buffer_desk ch src v : stream_buffer ch src =
  match through_chain (H:=desk_backend) ch "body" ("", "filter.Wrap", "copy", "close") (copy_reads (fst src) (fst (snd src)) (snd (snd src))) (Desk "" "" v) with
  | (Ok res, d') => Ok (res, dk_bytes d')
  | (Fail err, _) => Fail err
  end.
Proof.
  unfold stream_buffer. set (copy := copy_reads (H0:=desk_backend) (fst src) (fst (snd src)) (snd (snd src))).
  assert (E : through_chain (H:=buffer) ch "" ("", "filter.Wrap", "copy", "close") (copy_reads (H0:=buffer) (fst src) (fst (snd src)) (snd (snd src))) (dk_bytes (Desk "" "" v)) =
    beside id (through_chain (H:=desk_backend) ch "body" ("", "filter.Wrap", "copy", "close") copy (Desk "" "" v))).
  { unfold through_chain. eapply (beside_bind (fun _ => tt)); [done|]. intros [] d1.
    eapply (beside_bind off_desk); [unfold wrapping; rewrite off_Wrap; by destruct (Wrap (H0:=desk_backend) ch tt d1) as [[cw|err] d2]|]. intros cw d2.
    eapply beside_bind; [apply off_copy_reads|]. intros [[[]|err] cw1] d3; cbn [writer_off fst snd].
    - eapply beside_bind; [apply off_Close|]. by intros [[[]|err] cw2] d4.
    - eapply (beside_bind (map_result writer_off)); [unfold try; rewrite off_Close; by destruct (Close cw1 d3) as [[p|e] d4]|done].
  }
  cbn [dk_bytes] in E. rewrite E. unfold beside, id.
  clear E. by destruct (through_chain _ _ _ _ _) as [[res|err] d].
Qed.

(** The file is in place with the bytes of the buffer when the writer is closed. *)
Lemma desk_Close (cw : chainWriter (H0:=desk_backend)) d cw' d' : cw_closed cw = false -> Close cw d = (Ok (Ok tt, cw'), d') ->
  dk_view d' !! dk_name d = Some (dk_bytes d').
Proof.
  unfold Close. intros ->. unfold comp_Close, enc_Write. destruct (age_write _ _) as [e out]. cbn. intros [= _ <-]. apply lookup_insert_eq.
Qed.

Lemma desk_chain ch v src res d : through_chain (H:=desk_backend) ch "body" ("", "filter.Wrap", "copy", "close") (copy_reads v (fst src) (snd src)) (Desk "" "" ∅) = (Ok res, d) ->
  dk_view d !! "body" = Some (dk_bytes d).
Proof.
  intros Hrun. apply bind_inv_Ok in Hrun as (h & w1 & [= _ <-] & Hrun).
  apply bind_inv_Ok in Hrun as (cw & w2 & Hwrap%wrapping_inv_Ok & Hrun).
  apply (Wrap_inv ch h "body") in Hwrap as (e0 & hd & c0 & chd & He & Hcd & Hi & _); [|done].
  apply bind_inv_Ok in Hrun as ([r cw3] & w3 & Hcopy & Hrun). destruct r as [[]|err]; [|apply bind_inv_Ok in Hrun as (? & ? & _ & [=])].
  destruct (copy_reads_inv _ _ _ _ _ _ _ _ _ _ _ _ _ _ Hi Hcopy) as [(le & oc & [((Hp & _) & _) (_ & _ & _ & _ & Hcl)]) _].
  apply bind_inv_Ok in Hrun as ([r cw4] & w4 & Hclose & Hrun). destruct r as [[]|err]; [|done]. injection Hrun as _ <-.
  cbn in Hp. injection Hp as Hn _. rewrite <- Hn. by eapply desk_Close.
Qed.

(** What comes back is what the chain stores. *)
Lemma stream_buffer_Ok ch v src res body : stream_buffer ch (v, src) = Ok (res, body) ->
  exists chunks, read_whole src chunks /\ encoded ch chunks body /\
    res_Bytes res = Z.of_nat (slen (Join chunks "")) /\ res_SHA256 res = Sum256 (Join chunks "").
Proof.
  rewrite (stream_buffer_desk ch (v, src) ∅). cbn [fst snd].
  destruct (through_chain _ _ _ _ _) as [[r|err] d] eqn:E; [|done]. intros [= -> <-]. pose proof (desk_chain _ _ _ _ _ E) as Hd.
  destruct (through_chain_Ok (H1:=desk_laws) _ _ "body" _ _ _ _ _ eq_refl ltac:(by intros [=]) (copy_reads_copies v src) E)
    as (chunks & stored & HP & Henc & Hv & Hb & Hs & _).
  cbn in Hv. rewrite Hd in Hv. injection Hv as ->. by exists chunks.
Qed.
End buffer.

(** ** Paths below the data directory *)

Lemma Contains_Join_dots l : Contains (Join l "/") ".." = false -> no_dotdot l.
Proof.
  induction l as [|x l IH]; [constructor|]. intros Hc.
  assert (Hx : Contains x ".." = false /\ Contains (Join l "/") ".." = false).
  { destruct l as [|y l]; [done|]. rewrite Join_cons2 in Hc. change ("/" +:+ Join (y :: l) "/") with (String "/" (Join (y :: l) "/")) in Hc.
    rewrite Contains_sep in Hc by done. by apply orb_false_iff in Hc. }
  destruct Hx as [Hx Hl]. constructor; [|by apply IH]. by intros ->.
Qed.

(** At a directory or below it. *)
Definition at_or_below (dir p : string) : Prop := p = dir \/ HasPrefix p (dir +:+ "/") = true.

Lemma no_dots_below dir path : clean_target dir -> Contains path ".." = false -> at_or_below dir (path_Join [dir; path]).
Proof.
  intros (t & Hp & ->) Hc.
  assert (HL : Split t "/" <> []) by (destruct (Split_cons_not_nil t "/") as (? & ? & ->); done).
  assert (Hj : "/" +:+ t = "/" +:+ Join (Split t "/") "/") by (f_equal; symmetry; apply Join_Split).
  unfold at_or_below. destruct (decide (path = "")) as [->|Hne].
  - left. change (path_Join ["/" +:+ t; ""]) with (Clean ("/" +:+ t)). unfold Clean. rewrite HasPrefix_app.
    change (Split ("/" +:+ t) "/") with (Split ("" +:+ String "/" t) "/"). rewrite Split_app by done. cbn [clean_go String.eqb orb].
    rewrite (plain_seg_clean true [] (Split t "/")) by done. by symmetry.
  - rewrite Hj, sapp_assoc. apply walk_below; [done|done|done|].
    rewrite <- (Join_Split path "/") in Hc. apply Contains_Join_dots in Hc.
    pose proof (clean_go_no_dotdot [] (Split path "/") ltac:(constructor) Hc) as Hd.
    destruct (clean_go false [] (Split path "/")) as [|x l]; [done|]. by apply Forall_cons in Hd as [? _].
Qed.

(** ** The methods *)

Section methods.
Context {W : Type} `{Dialing W, WorkerHost W, Host W, Disk W, FilterLibs, !AgeKeys}.
Context (Now : W -> time).

Lemma check_path_Ok what w path : check_path what w path = Ok tt ->
  (is_Some (w_files w !! path) \/ isPostStopWALPath path = true) /\ Contains path ".." = false /\ HasPrefix path "/" = false.
Proof.
  unfold check_path. destruct (negb _ && negb _) eqn:E; [done|]. destruct (_ || _) eqn:E2; [done|]. intros _.
  apply orb_false_iff in E2. split; [|done]. apply andb_false_iff in E as [E%negb_false_iff|E%negb_false_iff]; [left; by apply bool_decide_eq_true_1 in E|by right].
Qed.

Lemma check_path_result what w path : check_path what w path = Ok tt \/ exists err, check_path what w path = Fail err.
Proof. destruct (check_path what w path) as [[]|err]; [by left|right; by exists err]. Qed.

(** What a method that reads a file needs before it opens it. *)
Definition may_read (w : Worker) (path : string) : Prop :=
  w_configured w = true /\ (is_Some (w_files w !! path) \/ isPostStopWALPath path = true) /\
  (clean_target (w_pgDataPath w) -> at_or_below (w_pgDataPath w) (path_Join [w_pgDataPath w; path])).

Lemma check_path_may_read what w path : w_configured w = true -> check_path what w path = Ok tt -> may_read w path.
Proof. intros Hc (Hl & Hd & _)%check_path_Ok. split_and!; [done|done|]. intros Ht. by apply no_dots_below. Qed.

Lemma StreamFile_refuses path w s : may_read w path \/ exists err, StreamFile Now path w s = (Ok (Fail err, w), s).
Proof.
  unfold StreamFile. destruct (w_configured w) eqn:Hc; [|right; by eexists]. cbn [negb].
  destruct (check_path_result "StreamFile" w path) as [Hp|[err Hp]]; [left; by eapply check_path_may_read|right]. rewrite Hp. by eexists.
Qed.

Lemma StreamChunk_refuses path w s : (may_read w path /\ w_workerWritesDirectly w = false) \/ exists err, StreamChunk Now path w s = (Ok (Fail err, w), s).
Proof.
  unfold StreamChunk. destruct (w_configured w) eqn:Hc; [|right; by eexists]. cbn [negb].
  destruct (w_workerWritesDirectly w) eqn:Hd; [right; by eexists|].
  destruct (check_path_result "StreamChunk" w path) as [Hp|[err Hp]]; [left; split; [by eapply check_path_may_read|done]|right]. rewrite Hp. by eexists.
Qed.

(** *** Any sequence of calls *)

Inductive worker_call :=
| CallHello
| CallConfigure (req : ConfigureRequest)
| CallStreamFile (path : string)
| CallStreamChunk (path : string)
| CallWriteBlob (req : WriteBlobRequest)
| CallCommit (tmp final : string)
| CallProbeStorage (req : ProbeStorageRequest)
| CallRestore (sched : list ManifestFile -> list ManifestFile) (req : RestoreRequest)
| CallDone.

Definition after {A} (m : M W (A * Worker)) : M W Worker := d <- m ;; ret (snd d).

Definition worker_do (w : Worker) (k : worker_call) : M W Worker :=
  match k with
  | CallHello => after (worker_Hello w)
  | CallConfigure req => after (Configure req w)
  | CallStreamFile path => after (StreamFile Now path w)
  | CallStreamChunk path => after (StreamChunk Now path w)
  | CallWriteBlob req => after (worker_WriteBlob req w)
  | CallCommit tmp final => after (worker_Commit tmp final w)
  | CallProbeStorage req => after (worker_ProbeStorage req w)
  | CallRestore sched req => after (worker_Restore sched req w)
  | CallDone => after (worker_Done w)
  end.

(** The worker of a configuration it accepted. *)
Record configured_by (pgdata0 : string) (req : ConfigureRequest) (w : Worker) : Prop := {
  cb_configured : w_configured w = true;
  cb_id : w_backupID w = cq_BackupID req;
  cb_files path : is_Some (w_files w !! path) <-> path ∈ fs_Path <$> cq_Files req;
  cb_pgdata : w_pgDataPath w = if String.eqb (cq_PGDataPath req) "" then pgdata0 else cq_PGDataPath req;
  cb_chain : exists rcpts chain, parseRecipients (cq_AgeRecipients req) = Ok rcpts /\
    NewChain {| o_Codec := cq_CompressionCodec req; o_Level := cq_CompressionLevel req; o_Recipients := rcpts |} = Ok chain /\ w_chain w = Some chain;
  cb_direct : w_workerWritesDirectly w = cq_WorkerWritesDirectly req;
  cb_backend : cq_WorkerWritesDirectly req = true -> is_Some (w_backend w);
}.

(** Everything but the counters, the clean-up and what is configured. *)
Record same_setup (w w' : Worker) : Prop := {
  ss_configured : w_configured w' = w_configured w;
  ss_id : w_backupID w' = w_backupID w;
  ss_files : w_files w' = w_files w;
  ss_pgdata : w_pgDataPath w' = w_pgDataPath w;
  ss_chain : w_chain w' = w_chain w;
  ss_direct : w_workerWritesDirectly w' = w_workerWritesDirectly w;
  ss_backend : w_backend w' = w_backend w;
}.

Lemma same_setup_refl w : same_setup w w.
Proof. done. Qed.

Lemma counted_setup w (m : M W StreamResponse) s r w' s' : counted w m s = (Ok (r, w'), s') -> same_setup w w'.
Proof. unfold counted, bind, try, ret. destruct (m s) as [[resp|err] s1]; by intros [= _ <- _]. Qed.

Lemma configured_by_setup pgdata0 req w w' : same_setup w w' -> configured_by pgdata0 req w -> configured_by pgdata0 req w'.
Proof. intros [E1 E2 E3 E4 E5 E6 E7] []. split; rewrite ?E1, ?E2, ?E3, ?E4, ?E5, ?E6, ?E7; done. Qed.

Lemma files_of_list (fs : list FileSpec) path :
  is_Some ((list_to_map (reverse ((fun f => (fs_Path f, f)) <$> fs)) : gmap string FileSpec) !! path) <-> path ∈ fs_Path <$> fs.
Proof.
  rewrite <- not_eq_None_Some, <- not_elem_of_list_to_map, fmap_reverse, elem_of_reverse, <- list_fmap_compose. split; [apply dec_stable|tauto].
Qed.

Lemma configure_chain_spec req w msg w' : configure_chain req w = (msg, w') ->
  (cq_WorkerWritesDirectly req = true -> is_Some (w_backend w)) -> w_workerWritesDirectly w = cq_WorkerWritesDirectly req ->
  (msg <> "" /\ w' = w) \/ (msg = "" /\ configured_by (w_pgDataPath w) req w').
Proof.
  intros E Hb Hd. unfold configure_chain in E. destruct (parseRecipients (cq_AgeRecipients req)) as [rcpts|err] eqn:Ep; [|injection E as <- <-; by left].
  destruct (NewChain _) as [chain|err] eqn:Ec; [|injection E as <- <-; by left]. injection E as <- <-. right. split; [done|].
  split; try done; [apply files_of_list|by exists rcpts, chain].
Qed.

Lemma open_storage_fails wrap ty path cred s err s' : (forall err, err_msg (wrap err) <> "") ->
  open_storage wrap ty path cred s = (Ok (Fail err), s') -> err_msg err <> "".
Proof.
  intros Hw. unfold open_storage. destruct (String.eqb ty "posix"); [destruct (String.eqb path "")|destruct (bool_decide _); [destruct (cred_Unmarshal cred) as [c|]|]];
    unfold bind, try, ret; try by intros [= <- _].
  - destruct (openWorkerPOSIX path s) as [[o|e] s1]; intros [= <- _]. apply Hw.
  - destruct (OpenBackendFromCredential c s) as [[o|e] s1]; intros [= <- _]. apply Hw.
Qed.

(** [Configure] accepts a worker's first configuration or says why not. *)
Lemma Configure_spec req w s msg w' s' : Configure req w s = (Ok (msg, w'), s') ->
  (msg <> "" /\ w_configured w' = w_configured w /\ (w_configured w = true -> w' = w) /\ w_pgDataPath w' = w_pgDataPath w) \/
  (msg = "" /\ w_configured w = false /\ configured_by (w_pgDataPath w) req w').
Proof.
  unfold Configure. destruct (w_configured w) eqn:Hc; [intros [= <- <- _]; by left|]. unfold bind at 1.
  match goal with |- context [match ?m s with _ => _ end] => destruct (m s) as [[[]|e] s1] end; [|done].
  assert (Hend : forall o d, d = cq_WorkerWritesDirectly req -> (d = true -> is_Some o) -> forall msg w', configure_chain req (set_backend o d w) = (msg, w') ->
    (msg <> "" /\ w_configured w' = false /\ (false = true -> w' = w) /\ w_pgDataPath w' = w_pgDataPath w) \/ (msg = "" /\ false = false /\ configured_by (w_pgDataPath w) req w')).
  { intros o d Hd Ho m w1 E. apply configure_chain_spec in E as [[? ->]|[? ?]]; [left|by right| |by rewrite <- Hd].
    - split_and!; [done|by destruct o|done|done].
    - rewrite <- Hd. intros Ht. destruct (Ho Ht) as [? ->]. by eexists. }
  destruct (cq_WorkerWritesDirectly req) eqn:Hd.
  2:{ intros [= E _]. eapply (Hend None false); [done|done|exact E]. }
  destruct (cred_Unmarshal (cq_Credentials req)) as [cred|err]; [|intros [= <- <- _]; by left]. unfold bind.
  destruct (open_storage _ _ _ _ s1) as [[[o|err]|err] s2] eqn:Eo; [| |done].
  - intros [= E _]. eapply (Hend (Some o) true); [done|by eexists|exact E].
  - intros [= <- <- _]. left. split_and!; [|done..]. eapply open_storage_fails, Eo. by destruct (String.eqb _ _).
Qed.

(** What becomes of a worker that was asked [calls]. *)
Definition worker_state (pgdata0 : string) (calls : list worker_call) (w : Worker) : Prop :=
  (w_configured w = false /\ w_pgDataPath w = pgdata0) \/ exists req, CallConfigure req ∈ calls /\ configured_by pgdata0 req w.

Lemma worker_do_setup w k s w' s' : (forall req, k <> CallConfigure req) -> worker_do w k s = (Ok w', s') -> same_setup w w'.
Proof.
  intros Hk. destruct k as [|req|path|path|req|tmp final|req|sched req|]; cbn [worker_do]; unfold after; intros Hrun; apply bind_inv_Ok in Hrun as ([a w1] & s1 & Hrun & [= <- _]); cbn [snd].
  - injection Hrun as _ <- _. apply same_setup_refl.
  - by destruct (Hk req).
  - unfold StreamFile in Hrun. destruct (negb _); [injection Hrun as _ <- _; apply same_setup_refl|].
    destruct (check_path _ _ _); [by eapply counted_setup|injection Hrun as _ <- _; apply same_setup_refl].
  - unfold StreamChunk in Hrun. destruct (negb _); [injection Hrun as _ <- _; apply same_setup_refl|].
    destruct (w_workerWritesDirectly w); [injection Hrun as _ <- _; apply same_setup_refl|].
    destruct (check_path _ _ _); [by eapply counted_setup|injection Hrun as _ <- _; apply same_setup_refl].
  - unfold worker_WriteBlob in Hrun. destruct (negb _); [injection Hrun as _ <- _; apply same_setup_refl|].
    destruct (wq_Filtered req); apply bind_inv_Ok in Hrun as (r & s2 & _ & [= _ <- _]); [|apply same_setup_refl]. by destruct r.
  - unfold worker_Commit in Hrun. destruct (negb _); [injection Hrun as _ <- _; apply same_setup_refl|].
    apply bind_inv_Ok in Hrun as (r & s2 & _ & [= _ <- _]). apply same_setup_refl.
  - unfold worker_ProbeStorage in Hrun. destruct (String.eqb _ _); [injection Hrun as _ <- _; apply same_setup_refl|].
    apply bind_inv_Ok in Hrun as (r & s2 & _ & Hrun). destruct r as [o|err]; [apply bind_inv_Ok in Hrun as (? & ? & _ & Hrun)|]; injection Hrun as _ <- _; apply same_setup_refl.
  - unfold worker_Restore in Hrun. destruct (cred_Unmarshal _); [|injection Hrun as _ <- _; apply same_setup_refl].
    apply bind_inv_Ok in Hrun as (r & s2 & _ & Hrun). destruct r as [[b cleanup]|err]; [|injection Hrun as _ <- _; apply same_setup_refl].
    repeat (apply bind_inv_Ok in Hrun as (? & ? & _ & Hrun)). injection Hrun as _ <- _. apply same_setup_refl.
  - unfold worker_Done in Hrun. apply bind_inv_Ok in Hrun as (? & ? & _ & [= _ <- _]). done.
Qed.

Lemma worker_do_state pgdata0 calls w k s w' s' : worker_state pgdata0 calls w -> worker_do w k s = (Ok w', s') ->
  worker_state pgdata0 (calls ++ [k]) w'.
Proof.
  intros Hs Hrun. assert (Hk : (exists req, k = CallConfigure req) \/ forall req, k <> CallConfigure req) by (destruct k; try (by right); left; by eexists).
  destruct Hk as [[req ->]|Hk].
  - cbn [worker_do] in Hrun. unfold after in Hrun. apply bind_inv_Ok in Hrun as ([msg w1] & s1 & Hrun & [= <- _]). cbn [snd].
    apply Configure_spec in Hrun as [(_ & Hc & Hsame & Hpg)|(_ & Hc & Hby)].
    + destruct Hs as [[Hf Hp]|(req' & Hin & Hby)]; [left; by rewrite Hc, Hpg|right]. exists req'. split; [set_solver|].
      by rewrite (Hsame (cb_configured _ _ _ Hby)).
    + destruct Hs as [[Hf <-]|(req' & Hin & [])]; [|congruence]. right. exists req. split; [set_solver|done].
  - apply worker_do_setup in Hrun; [|done]. destruct Hs as [[Hf Hp]|(req & Hin & Hby)].
    + left. by rewrite (ss_configured _ _ Hrun), (ss_pgdata _ _ Hrun).
    + right. exists req. split; [set_solver|by eapply configured_by_setup].
Qed.

Lemma worker_calls_state pgdata0 done calls w s w' s' : worker_state pgdata0 done w ->
  forM calls w worker_do s = (Ok w', s') -> worker_state pgdata0 (done ++ calls) w'.
Proof.
  revert done w s. induction calls as [|k calls IH]; intros done w s Hs; cbn [forM].
  { intros [= <- _]. by rewrite app_nil_r. }
  intros Hrun. apply bind_inv_Ok in Hrun as (w1 & s1 & Hk & Hrun). replace (done ++ k :: calls) with ((done ++ [k]) ++ calls) by by rewrite <- app_assoc.
  eapply IH, Hrun. by eapply worker_do_state.
Qed.

Lemma worker_state_new version pgdata0 calls s w s1 : forM calls (worker_New version pgdata0) worker_do s = (Ok w, s1) -> worker_state pgdata0 calls w.
Proof. apply (worker_calls_state pgdata0 []). by left. Qed.

(** A worker that is configured has its chain, and its storage where it was told to write directly. *)
Lemma worker_has_parts version pgdata0 calls s w s1 : forM calls (worker_New version pgdata0) worker_do s = (Ok w, s1) -> w_configured w = true ->
  exists chain, w_chain w = Some chain /\ (w_workerWritesDirectly w = true -> is_Some (w_backend w)).
Proof.
  intros Hcalls Hc. apply worker_state_new in Hcalls as [[? _]|(req & _ & [_ _ _ _ (rcpts & chain & _ & _ & Hch) Hd Hb])]; [congruence|].
  exists chain. split; [done|]. by rewrite Hd.
Qed.
End methods.

(** Only the file behind the path is opened: another host with the same file there gives the same. *)
Lemma StreamFile_opens {W : Type} `{Dialing W, A : WorkerHost W, FilterLibs} (B : WorkerHost W) (Now : W -> time) path w :
  @os_Open W B (path_Join [w_pgDataPath w; path]) = @os_Open W A (path_Join [w_pgDataPath w; path]) ->
  @StreamFile W _ B _ Now path w = @StreamFile W _ A _ Now path w /\ @StreamChunk W _ B _ Now path w = @StreamChunk W _ A _ Now path w.
Proof. intros E. unfold StreamFile, StreamChunk, open_source. by rewrite E. Qed.

(** C24: a worker only reads what it was set up for: whatever calls it got before, [StreamFile] and [StreamChunk]
    either refuse without touching anything, or the worker accepted one of the configurations it
    was sent, the path is in the list of files of that one or a name of WAL in pg_wal, and the only file
    the call opens is the one at that path below the data directory: it is at the data directory of that
    configuration or below it, however the path is written, and on any host whose file there is the same the
    call does the same, whatever else that host has. (Links inside the data directory are followed.) *)
Theorem worker_confined {W : Type} `{Dialing W, A : WorkerHost W, Host W, Disk W, FilterLibs, !AgeKeys} (Now : W -> time)
    version pgdata0 calls s w s1 path r w2 s2 :
  forM calls (worker_New version pgdata0) (worker_do Now) s = (Ok w, s1) ->
  StreamFile Now path w s1 = (Ok (r, w2), s2) \/ StreamChunk Now path w s1 = (Ok (r, w2), s2) ->
  (isOk r = false /\ w2 = w /\ s2 = s1) \/
  exists req, CallConfigure req ∈ calls /\ configured_by pgdata0 req w /\
    (path ∈ fs_Path <$> cq_Files req \/ isPostStopWALPath path = true) /\
    let file := path_Join [w_pgDataPath w; path] in
    (clean_target (w_pgDataPath w) -> at_or_below (w_pgDataPath w) file) /\
    forall B : WorkerHost W, @os_Open W B file = @os_Open W A file ->
      @StreamFile W _ B _ Now path w s1 = StreamFile Now path w s1 /\ @StreamChunk W _ B _ Now path w s1 = StreamChunk Now path w s1.
Proof.
  intros Hcalls%worker_state_new Hstream. rename Hcalls into Hs.
  assert (Hread : may_read w path \/ isOk r = false /\ w2 = w /\ s2 = s1).
  { destruct Hstream as [E|E].
    - destruct (StreamFile_refuses Now path w s1) as [?|[err Hf]]; [by left|]. rewrite E in Hf. injection Hf as -> -> ->. by right.
    - destruct (StreamChunk_refuses Now path w s1) as [[? _]|[err Hf]]; [by left|]. rewrite E in Hf. injection Hf as -> -> ->. by right. }
  destruct Hread as [(Hc & Hl & Hb)|?]; [right|by left]. destruct Hs as [[? _]|(req & Hin & Hby)]; [congruence|]. exists req.
  cbv zeta. split; [done|]. split; [done|]. split; [|split; [done|]].
  - destruct Hl as [Hl|?]; [left; by apply (cb_files _ _ _ Hby)|by right].
  - intros B HB. destruct (StreamFile_opens B Now path w HB) as [-> ->]. done.
Qed.

(** ** A worker beside the small cluster *)

#[export] Instance sample_dialing : Dialing world := {
  rb := unit;
  rb_Backend _ := _;
  S3Client := unit;
  s3_NewFromConfig _ := throw (errors_New "no cloud");
  s3_driver _ _ _ := ret tt;
  AzureClient := unit;
  azblob_NewClientWithNoCredential _ _ := throw (errors_New "no cloud");
  azure_driver _ _ := ret tt;
  GCSClient := unit;
  gcs_NewClient _ := throw (errors_New "no cloud");
  gcs_CloseClient _ := ret tt;
  gcs_driver _ _ _ := ret tt;
  ssh_ParsePrivateKey _ := Ok tt;
  ssh_ParseAuthorizedKey _ := Ok tt;
  SSHConn := unit;
  SFTPClient := unit;
  ssh_Dial _ _ _ _ := ret tt;
  ssh_CloseConn _ := ret tt;
  sftp_NewClient _ := ret tt;
  sftp_CloseClient _ := ret tt;
  sftp_driver _ _ := ret tt;
  posix_driver _ := ret tt;
}.

(** The files of the host of the database, a segment of WAL among them, in two reads. *)
Definition sample_os_file (p : string) : result file_reads :=
  let c := if String.eqb p "/pgdata/pg_wal/000000010000000000000002" then "wal2" else sample_file (sdrop 8 p) in
  if negb (HasPrefix p "/pgdata/") || String.eqb c "" then Fail (errors_Sentinel OsErrNotExist "open") else Ok ([stake 1 c; sdrop 1 c], None).

#[export] Instance sample_worker_host : WorkerHost world := {
  os_Open p := of_result (sample_os_file p);
  os_Setenv _ _ w := w;
  runtime_GOOS := "linux";
  runtime_NumCPU := 4;
}.

#[export] Instance sample_age_keys : AgeKeys (H:=framing_libs) := {
  age_ParseX25519Recipient s := if String.eqb s "age1" then Ok 7%nat else Fail (errors_New "malformed recipient");
  age_ParseIdentities s := if String.eqb s "AGE-SECRET-KEY-1" then Ok [7%nat] else Fail (errors_New "malformed secret key");
}.

Definition sample_configure (direct : bool) : ConfigureRequest := {|
  cq_BackupID := "20260401T100000F"; cq_StorageType := "posix"; cq_StoragePath := "/storage"; cq_PGDataPath := "/pgdata";
  cq_Credentials := default "" (match cred_Marshal none_credential with Ok s => Some s | Fail _ => None end); cq_EncryptionDataKey := "";
  cq_AgeRecipients := ["age1"]; cq_CompressionCodec := "zstd"; cq_CompressionLevel := 3; cq_PageChecksumMode := 0;
  cq_Files := [{| fs_Path := "PG_VERSION"; fs_Size := 3 |}; {| fs_Path := "base/1"; fs_Size := 4 |}];
  cq_WorkerWritesDirectly := direct; cq_HTTPSProxy := "" |}.

(** A greeting, a configuration and a second one that is refused. *)
Definition sample_calls : list worker_call :=
  [CallHello; CallConfigure (sample_configure true); CallConfigure (sample_configure false)].
Definition sample_worker_run := forM sample_calls (worker_New (H3:=framing_libs) "1" "") (worker_do (H3:=framing_libs) backup_now) backup_world.

Lemma worker_confined_witness : exists w s1 r w2 s2, sample_worker_run = (Ok w, s1) /\
  StreamFile (H3:=framing_libs) backup_now "base/1" w s1 = (Ok (r, w2), s2) /\ isOk r = true /\
  at_or_below (w_pgDataPath w) (path_Join [w_pgDataPath w; "base/1"]).
Proof.
  assert (Hok : match sample_worker_run with
                | (Ok w, s1) => w_pgDataPath w = "/pgdata" /\ match StreamFile (H3:=framing_libs) backup_now "base/1" w s1 with (Ok (r, _), _) => isOk r = true | _ => False end
                | _ => False end) by (vm_compute; split; reflexivity).
  destruct sample_worker_run as [[w|e] s1] eqn:Hrun; [|destruct Hok]. destruct Hok as [Hpg Hok].
  destruct (StreamFile (H3:=framing_libs) backup_now "base/1" w s1) as [[[r w2]|e] s2] eqn:Hs; [|destruct Hok].
  exists w, s1, r, w2, s2. split_and!; [reflexivity|exact Hs|exact Hok|].
  destruct (worker_confined (H2:=framing_libs) backup_now "1" "" sample_calls backup_world w s1 "base/1" r w2 s2 Hrun (or_introl Hs))
    as [(Hf & _)|(req & _ & _ & _ & Hb & _)]; [rewrite Hok in Hf; discriminate Hf|].
  apply Hb. rewrite Hpg. exists "pgdata". split; reflexivity.
Defined.

(** ** What goes wrong *)

(** In the mode in which the caller writes, the methods of the other mode are not refused: they use a storage that
    is not there, which ends the process of the worker. *)
Lemma direct_methods_without_storage {W : Type} `{Dialing W, WorkerHost W, FilterLibs} (Now : W -> time) w s : w_configured w = true -> w_backend w = None ->
  (exists s', worker_Commit "a" "b" w s = (Ok (Fail nil_panic, w), s')) /\
  (exists s', worker_WriteBlob {| wq_RepoPath := "a"; wq_Body := "b"; wq_Filtered := false |} w s = (Ok (Fail nil_panic, w), s')) /\
  forall path src s', check_path "StreamFile" w path = Ok tt -> open_source w path s = (Ok src, s') ->
    StreamFile Now path w s = (Ok (Fail nil_panic, w), s').
Proof.
  intros Hc Hb. split_and!.
  - unfold worker_Commit, bind, try. rewrite Hc, Hb. by eexists.
  - unfold worker_WriteBlob, bind, try. rewrite Hc, Hb. by eexists.
  - intros path src s' Hp Ho. unfold StreamFile. rewrite Hc, Hp. unfold counted, try, bind at 1 2. cbn [negb]. rewrite Ho, Hb. done.
Qed.

(** Names of WAL are let through in any directory below pg_wal. *)
Lemma nested_wal_allowed : isPostStopWALPath "pg_wal/archive_status/000000010000000000000001" = true.
Proof. reflexivity. Qed.

(** A storage that was opened by a [Configure] that failed after it stays open: [Done] may let it go, but a second
    [Configure] replaces it and its clean-up. *)
Lemma failed_Configure_keeps_storage : let req := {|
    cq_BackupID := "i"; cq_StorageType := "posix"; cq_StoragePath := "/storage"; cq_PGDataPath := "/pgdata"; cq_Credentials := cq_Credentials (sample_configure true);
    cq_EncryptionDataKey := ""; cq_AgeRecipients := ["ssh-rsa"]; cq_CompressionCodec := "zstd"; cq_CompressionLevel := 3; cq_PageChecksumMode := 0;
    cq_Files := []; cq_WorkerWritesDirectly := true; cq_HTTPSProxy := "" |} in
  match fst (Configure (H3:=framing_libs) req (worker_New (H3:=framing_libs) "1" "") backup_world) with
  | Ok (msg, w) => msg <> "" /\ w_configured w = false /\ match w_backend w, w_cleanup w with Some _, Some _ => True | _, _ => False end
  | Fail _ => False
  end.
Proof. vm_compute. split; [discriminate|by split]. Qed.
