(* ===== verification/WorkerBackup.v ===== *)
(** * Backups through a worker

    [internal/backup/pgsafe_worker.go], and [preProbeStorage] of proxy.go: the caller brackets the backup, finds
    a way for the worker to the storage, drives it over the wire and publishes what it wrote. *)

From S2P Require Import Prelude Sha256 Lsn Wal Storage Host Time Json Manifest Archive PageChecksum Filter Config Creds Mint Restore Rpc Bracket Resume Backup PgSql Parallel Worker.

(** [WorkerOptions] *)
Record WorkerOptions := {
  wo_HasPool : bool; wo_PGVersion : Z; wo_SSHTarget : string; wo_SSHExtraArgs : list string; wo_RemoteCommand : list string;
  wo_Storage : StorageConfig; wo_PageChecksumMode : PageChecksum.Mode; wo_Workers : Z; wo_WorkerWritesDirectly : bool;
  wo_StorageReach : string; wo_ConfirmProxy : bool;
}.

Definition int_of_mode (m : PageChecksum.Mode) : Z := match m with ModeOff => 0 | ModeStrict => 1 | ModeLax => 2 end.

(** Processes and the wire to them. A dialled worker tells its version and the [PGDATA] of its
    environment; a message may be lost on its way to the worker and on its way back. *)
Class Transport (W : Type) := {
  os_Executable : M W string;
  ssh_DialCommand : string -> list string -> list string -> M W (string * string);   (* target, arguments, command *)
  local_Dial : list string -> M W (string * string);
  sess_Close : M W unit;
  wire_send : string -> M W unit;
  wire_receive : string -> M W unit;
  sftpd_Start : string -> M W (Z * string);      (* StartEphemeralServer: its port and the key of the client *)
  sftpd_Close : M W unit;
  tty_confirm : M W (result unit * result string * bool);
}.

(** Runs [close] when [m], which hands its error back as a value, is done. *)
Definition finally {W A} (close : M W unit) (m : M W A) : M W A := a <- m ;; try close ;;; ret a.

Section worker_backup.
Context {W : Type} `{Backend W, Host W, Disk W, Clock W, Pg W, FilterLibs, Sessions W, Catalog W, Minting W, Dialing W, WorkerHost W, !AgeKeys, Transport W}.
Context (Now : W -> time).

(** ** The worker over the wire *)

(** [dialWorker] *)
Definition dialWorker (wOpts : WorkerOptions) : M W Worker :=
  d <- (if negb (String.eqb (wo_SSHTarget wOpts) "") then
          ssh_DialCommand (wo_SSHTarget wOpts) (wo_SSHExtraArgs wOpts)
            (if (length (wo_RemoteCommand wOpts) =? 0)%nat then ["pgsafe"; "worker"; "stdio"] else wo_RemoteCommand wOpts)
        else
          cmd <- (if (length (wo_RemoteCommand wOpts) =? 0)%nat
                  then exe <- wrapping "pgsafe-worker local: os.Executable" os_Executable ;; ret [exe; "worker"; "stdio"]
                  else ret (wo_RemoteCommand wOpts)) ;;
          local_Dial cmd) ;;
  ret (worker_New (fst d) (snd d)).

(** [rpc.Client.Call]: the answer, or an error of the wire. *)
Definition call {A} (name : string) (h : method A) : method (result A) := fun w =>
  s <- try (wire_send name) ;;
  match s with
  | Fail err => ret (Fail err, w)
  | Ok _ =>
      d <- h w ;;
      let '(a, w) := d in
      r <- try (wire_receive name) ;;
      ret (match r with Fail err => Fail err | Ok _ => Ok a end, w)
  end.

(** The error of a method comes back as its text. *)
Definition remote {A} (r : result (result A)) : result A :=
  match r with Fail err => Fail err | Ok (Fail err) => Fail (errors_New (err_msg err)) | Ok (Ok a) => Ok a end.

Definition checked {A B} (f : result A -> result B) (m : M W (result A * Worker)) : M W (B * Worker) :=
  d <- m ;; b <- of_result (f (fst d)) ;; ret (b, snd d).

(** The methods of [Client] *)
Definition cli_Hello (w : Worker) : M W (HelloResponse * Worker) := checked check_hello (call "WorkerService.Hello" worker_Hello w).
Definition cli_Configure (req : ConfigureRequest) (w : Worker) : M W (unit * Worker) :=
  checked check_configure (call "WorkerService.Configure" (Configure req) w).
Definition cli_StreamFile (path : string) (w : Worker) : M W (StreamResponse * Worker) :=
  checked (fun r => map_error (Errorf_w ("rpc StreamFile " +:+ path)) (remote r)) (call "WorkerService.StreamFile" (StreamFile Now path) w).
Definition cli_StreamChunk (path : string) (w : Worker) : M W (StreamResponse * Worker) :=
  checked (fun r => map_error (Errorf_w ("rpc StreamChunk " +:+ path)) (remote r)) (call "WorkerService.StreamChunk" (StreamChunk Now path) w).
Definition cli_WriteBlob (req : WriteBlobRequest) (w : Worker) : M W (WriteBlobResponse * Worker) :=
  checked (fun r => map_error (Errorf_w ("rpc WriteBlob " +:+ wq_RepoPath req)) (remote r)) (call "WorkerService.WriteBlob" (worker_WriteBlob req) w).
Definition cli_Commit (tmp final : string) (w : Worker) : M W (unit * Worker) :=
  checked (fun r => map_error (Errorf_w "rpc Commit") (remote r)) (call "WorkerService.Commit" (worker_Commit tmp final) w).
Definition cli_ProbeStorage (req : ProbeStorageRequest) (w : Worker) : M W (ProbeStorageResponse * Worker) :=
  checked (map_error (Errorf_w "rpc ProbeStorage")) (call "WorkerService.ProbeStorage" (worker_ProbeStorage req) w).
Definition cli_Done (w : Worker) : M W (DoneResponse * Worker) :=
  checked (map_error (Errorf_w "rpc Done")) (call "WorkerService.Done" worker_Done w).

(** ** Whether the worker reaches the storage *)

Definition probe_request (wOpts : WorkerOptions) (credBytes : string) : ProbeStorageRequest :=
  {| pq_StorageType := st_Type (wo_Storage wOpts); pq_StoragePath := st_Path (wo_Storage wOpts); pq_Credentials := credBytes |}.

(** [preProbeStorage] *)
Definition preProbeStorage (wOpts : WorkerOptions) : M W bool :=
  cred <- wrapping "mint" (mintForBackend Now (wo_Storage wOpts)) ;;
  credBytes <- of_result (map_error (Errorf_w "marshal") (cred_Marshal cred)) ;;
  w <- wrapping "dial" (dialWorker wOpts) ;;
  r <- try (d <- wrapping "rpc.Hello" (cli_Hello w) ;;
            d <- wrapping "ProbeStorage" (cli_ProbeStorage (probe_request wOpts credBytes) (snd d)) ;;
            ret (pr_Reachable (fst d))) ;;
  try sess_Close ;;;
  of_result r.

Definition set_reach (reach : string) (o : WorkerOptions) : WorkerOptions :=
  {| wo_HasPool := wo_HasPool o; wo_PGVersion := wo_PGVersion o; wo_SSHTarget := wo_SSHTarget o; wo_SSHExtraArgs := wo_SSHExtraArgs o;
     wo_RemoteCommand := wo_RemoteCommand o; wo_Storage := wo_Storage o; wo_PageChecksumMode := wo_PageChecksumMode o; wo_Workers := wo_Workers o;
     wo_WorkerWritesDirectly := wo_WorkerWritesDirectly o; wo_StorageReach := reach; wo_ConfirmProxy := wo_ConfirmProxy o |}.

(** The gate of [storage_reach=auto]. *)
Definition pre_probe_gate (wOpts : WorkerOptions) : M W WorkerOptions :=
  if wo_WorkerWritesDirectly wOpts && negb (String.eqb (wo_SSHTarget wOpts) "") && String.eqb (wo_StorageReach wOpts) "auto" &&
     (String.eqb (st_Type (wo_Storage wOpts)) "sftp" || isCloudStorageType (st_Type (wo_Storage wOpts)))
  then
    reachable <- wrapping "backup: pre-probe" (preProbeStorage wOpts) ;;
    if reachable then ret wOpts
    else if wo_ConfirmProxy wOpts then
      d <- tty_confirm ;;
      let '(prompt, line, eof) := d in
      ok <- of_result (map_error (Errorf_w "backup: confirm-proxy") (confirmProxyFallback prompt line eof)) ;;
      if negb ok then throw (errors_New "backup: storage_reach=auto + --confirm-proxy declined; aborting")
      else ret (set_reach "via_caller" wOpts)
    else ret (set_reach "via_caller" wOpts)
  else ret wOpts.

(** The checks before the bracket, and what is resumed. *)
Definition prepare_worker (opts : BackupOptions) (wOpts : WorkerOptions) (startedAt : time)
  : M W (WorkerOptions * ClusterIdentity * string * option reusablePlan) :=
  backupID <- ChooseBackupID (bo_Type opts) startedAt ;;
  wOpts <- pre_probe_gate wOpts ;;
  wrapping "backup" (ProbeArchive (bo_WALTimeout opts)) ;;;
  id <- wrapping "backup: identity" pg_identity ;;
  verifyClusterIdentity (id_SystemIdentifier id) ;;;
  wrapping "backup" InspectStandby ;;;
  resumedFrom <- try (tryResume Now (resume_of opts) (id_SystemIdentifier id)) ;;
  match resumedFrom with
  | Ok (Some cp) => plan <- cleanResumable cp ;; ret (wOpts, id, cp_BackupID cp, Some plan)
  | Ok None | Fail _ => ret (wOpts, id, backupID, None)
  end.

(** ** The way to the storage *)

(** A step between the start and the end of the bracket: its error ends the bracket. *)
Definition or_stop {A} (b : bracket) (msg : string) (m : M W A) (k : A -> M W (result BackupResult * bracket)) : M W (result BackupResult * bracket) :=
  r <- try (wrapping msg m) ;;
  match r with Fail err => stop_with b err | Ok a => k a end.

Definition set_storage (args : list string) (sc : StorageConfig) (o : WorkerOptions) : WorkerOptions :=
  {| wo_HasPool := wo_HasPool o; wo_PGVersion := wo_PGVersion o; wo_SSHTarget := wo_SSHTarget o; wo_SSHExtraArgs := args ++ wo_SSHExtraArgs o;
     wo_RemoteCommand := wo_RemoteCommand o; wo_Storage := sc; wo_PageChecksumMode := wo_PageChecksumMode o; wo_Workers := wo_Workers o;
     wo_WorkerWritesDirectly := true; wo_StorageReach := wo_StorageReach o; wo_ConfirmProxy := wo_ConfirmProxy o |}.

Definition sftp_storage (c : SFTPConfig) : StorageConfig :=
  {| st_Type := "sftp"; st_Path := ""; st_S3 := None; st_Azure := None; st_GCS := None; st_SFTP := Some c |}.

(** The storage of the caller behind the tunnel. *)
Definition tunnel_config (port : Z) (basePath : string) : SFTPConfig :=
  {| sftp_Host := "127.0.0.1"; sftp_Port := port; sftp_Username := "pgsafe"; sftp_Password := ""; sftp_PrivateKeyFile := "";
     sftp_BasePath := basePath; sftp_HostKey := ""; sftp_InsecureIgnoreHostKey := true |}.
Definition tunnel_key (port : Z) (pem basePath : string) : SFTPKeyCredential :=
  {| scs_Host := "127.0.0.1"; scs_Port := port; scs_Username := "pgsafe"; scs_PrivateKeyPEM := pem; scs_BasePath := basePath; scs_HostKey := "";
     scs_InsecureIgnoreHostKey := true |}.

Definition proxied (port : Z) (c : SFTPConfig) : SFTPConfig :=
  {| sftp_Host := "127.0.0.1"; sftp_Port := port; sftp_Username := sftp_Username c; sftp_Password := sftp_Password c;
     sftp_PrivateKeyFile := sftp_PrivateKeyFile c; sftp_BasePath := sftp_BasePath c; sftp_HostKey := sftp_HostKey c;
     sftp_InsecureIgnoreHostKey := sftp_InsecureIgnoreHostKey c |}.

Definition minted (sc : StorageConfig) : M W string := cred <- mintForBackend Now sc ;; of_result (cred_Marshal cred).

(** The four ways, and the fifth where the caller writes; [k] gets the options, the credential and the
    proxy of the worker. *)
Definition with_reach (b : bracket) (wOpts : WorkerOptions) (k : WorkerOptions -> string -> string -> M W (result BackupResult * bracket))
  : M W (result BackupResult * bracket) :=
  let st := wo_Storage wOpts in
  if negb (wo_WorkerWritesDirectly wOpts) && String.eqb (st_Type st) "posix" then
    or_stop b "backup: sftptunnel start" (sftpd_Start (st_Path st)) (fun d =>
      let '(localPort, pem) := d in
      finally sftpd_Close (
        or_stop b "backup: pick remote port" PickRemotePort (fun remotePort =>
          or_stop b "backup: marshal sftp tunnel creds" (of_result (cred_Marshal (sftp_credential (tunnel_key remotePort pem (st_Path st))))) (fun cred =>
            k (set_storage (ReverseForwardArgs remotePort localPort) (sftp_storage (tunnel_config remotePort (st_Path st))) wOpts) cred ""))))
  else if wo_WorkerWritesDirectly wOpts && isCloudStorageType (st_Type st) && wantsCloudProxy (wo_StorageReach wOpts) (wo_SSHTarget wOpts) then
    or_stop b "backup: pick socks port" PickRemotePort (fun socksPort =>
      or_stop b "backup: mint cloud-proxy creds" (minted st) (fun cred =>
        k (set_storage ["-o"; "ExitOnForwardFailure=yes"; "-R"; FormatD socksPort] st wOpts) cred ("socks5h://127.0.0.1:" +:+ FormatD socksPort)))
  else if wo_WorkerWritesDirectly wOpts && String.eqb (st_Type st) "sftp" && wantsSFTPProxy (wo_StorageReach wOpts) (wo_SSHTarget wOpts) then
    match st_SFTP st with
    | None => stop_with b (errors_New "backup: storage_reach=via_caller for sftp requires storage.sftp config")
    | Some c =>
        let storagePort := if sftp_Port c =? 0 then 22 else sftp_Port c in
        or_stop b "backup: pick remote port" PickRemotePort (fun remotePort =>
          or_stop b "backup: mint sftp-proxy creds" (minted (sftp_storage (proxied remotePort c))) (fun cred =>
            k (set_storage ["-o"; "ExitOnForwardFailure=yes"; "-R"; FormatD remotePort +:+ ":" +:+ sftp_Host c +:+ ":" +:+ FormatD storagePort]
                 (sftp_storage (proxied remotePort c)) wOpts) cred ""))
    end
  else if wo_WorkerWritesDirectly wOpts then
    or_stop b "backup: mint creds" (minted st) (fun cred => k wOpts cred "")
  else k wOpts "" "".

(** ** The files *)

Definition configure_request (opts : BackupOptions) (wOpts : WorkerOptions) (backupID pgDataPath credBytes proxy : string) (files : list FileEntry)
  : ConfigureRequest :=
  {| cq_BackupID := backupID; cq_StorageType := st_Type (wo_Storage wOpts); cq_StoragePath := st_Path (wo_Storage wOpts); cq_PGDataPath := pgDataPath;
     cq_Credentials := credBytes; cq_EncryptionDataKey := ""; cq_AgeRecipients := bo_Recipients opts;
     cq_CompressionCodec := codecFromString (bo_Compression opts); cq_CompressionLevel := levelFromString (bo_Compression opts);
     cq_PageChecksumMode := int_of_mode (wo_PageChecksumMode wOpts);
     cq_Files := (fun f => {| fs_Path := fe_Path f; Rpc.fs_Size := fe_Size f |}) <$> files;
     cq_WorkerWritesDirectly := wo_WorkerWritesDirectly wOpts; cq_HTTPSProxy := proxy |}.

Definition add_reused (reused : ResumeFileEntry) (t : tally) : tally :=
  Tally (SetLatestRepoChecksum (AddFile (tl_mb t) (rf_Path reused) (rf_Size reused) (rf_SHA256 reused) (rf_ModTime reused)) (rf_RepoSize reused) (rf_RepoSHA256 reused))
    (tl_files t + 1) (tl_bytes t + rf_Size reused).

Definition add_streamed (resp : StreamResponse) (t : tally) : tally :=
  Tally (AddFile (tl_mb t) (sr_Path resp) (sr_Bytes resp) (sr_SHA256 resp) (sr_ModTime resp)) (tl_files t + 1) (tl_bytes t + sr_Bytes resp).

(** A file by either way: what the worker says of it. The messages are those of its five steps. *)
Definition fetch_by_mode (msgs : string * string * string * string * string) (direct : bool) (backupID path : string) (w : Worker)
  : M W (StreamResponse * Worker) :=
  let '(m_file, m_chunk, m_put, m_write, m_close) := msgs in
  if direct then wrapping m_file (cli_StreamFile path w)
  else
    d <- wrapping m_chunk (cli_StreamChunk path w) ;;
    put_body m_put m_write m_close (path_Join [backupID; path]) (sr_Body (fst d)) ;;;
    ret d.

Definition fetch_file : bool -> string -> string -> Worker -> M W (StreamResponse * Worker) :=
  fetch_by_mode ("backup: StreamFile", "backup: StreamChunk", "backup: orch.Put", "backup: orch.Write", "backup: orch.Close").

(** One goroutine. [late] are the files whose goroutine looks at the context before the first error
    has cancelled it. *)
Definition fetch_step (late : string -> bool) (direct : bool) (backupID : string) (plan : option reusablePlan)
    (acc : option error * tally * Worker) (f : FileEntry) : M W (option error * tally * Worker) :=
  let '(first, t, w) := acc in
  if bool_decide (is_Some first) && negb (late (fe_Path f)) then ret acc
  else match plan ≫= fun plan => plan !! fe_Path f with
       | Some reused => ret (first, add_reused reused t, w)
       | None =>
           r <- try (fetch_file direct backupID (fe_Path f) w) ;;
           match r with
           | Ok (resp, w) => ret (first, add_streamed resp t, w)
           | Fail err => ret (match first with Some _ => first | None => Some err end, t, w)
           end
       end.

Definition fetch_files (late : string -> bool) (direct : bool) (backupID : string) (plan : option reusablePlan) (files : list FileEntry) (mb : Builder)
    (w : Worker) : M W (tally * Worker) :=
  d <- forM files (None, Tally mb 0 0, w) (fetch_step late direct backupID plan) ;;
  let '(first, t, w) := d in
  match first with Some err => throw err | None => ret (t, w) end.

(** ** The blobs of the caller *)

(** A blob through the chain of the caller; the writer is closed where the chain cannot be set up. *)
Definition put_filtered (chain : Chain) (repoPath body : string) : M W FilterResult :=
  wc <- wrapping "orch.Put" (be_Put repoPath) ;;
  r <- try (wrapping "filter.Wrap" (Wrap chain wc)) ;;
  match r with
  | Fail err => try (be_Close wc) ;;; throw err
  | Ok chainW =>
      d <- Write body chainW ;;
      let '(r, chainW) := d in
      match r with
      | Fail err => try (Close chainW) ;;; throw (Errorf_w "orch.filtered.Write" err)
      | Ok _ =>
          d <- Close chainW ;;
          let '(r, chainW) := d in
          match r with Fail err => throw (Errorf_w "orch.filtered.Close" err) | Ok _ => ret (cw_res chainW) end
      end
  end.

(** [writeBlobByMode] *)
Definition writeBlobByMode (direct : bool) (chain : Chain) (repoPath body : string) (filtered : bool) (w : Worker) : M W (Z * string * Worker) :=
  if direct then
    d <- cli_WriteBlob {| wq_RepoPath := repoPath; wq_Body := body; wq_Filtered := filtered |} w ;;
    ret (wr_Bytes (fst d), wr_SHA256 (fst d), snd d)
  else if filtered then
    res <- put_filtered chain repoPath body ;; ret (res_Bytes res, res_SHA256 res, w)
  else
    put_body "orch.Put" "orch.plain.Write" "orch.plain.Close" repoPath body ;;; ret (Z.of_nat (slen body), Sum256 body, w).

(** A label into the storage and the manifest. *)
Definition add_label (direct : bool) (opts : BackupOptions) (backupID name body : string) (d : Builder * Worker) : M W (Builder * Worker) :=
  let '(mb, w) := d in
  d <- wrapping ("backup: " +:+ name) (writeBlobByMode direct (bo_Filter opts) (path_Join [backupID; name]) body true w) ;;
  let '(n, sum, w) := d in
  now <- read Now ;;
  ret (AddFile mb name n sum (UTC now), w).

Definition add_labels (direct : bool) (opts : BackupOptions) (backupID : string) (stop : StopInfo) (d : Builder * Worker) : M W (Builder * Worker) :=
  d <- add_label direct opts backupID "backup_label" (so_LabelFile stop) d ;;
  if (0 <? slen (so_SpcMapFile stop))%nat then add_label direct opts backupID "tablespace_map" (so_SpcMapFile stop) d else ret d.

(** The segments of the bracket out of [pg_wal], one after the other. *)
Definition grab_segment (direct : bool) (backupID : string) (d : Builder * Worker) (seg : string) : M W (Builder * Worker) :=
  let '(mb, w) := d in
  d <- fetch_by_mode ("backup: walgrab StreamFile", "backup: walgrab StreamChunk", "backup: walgrab Put", "backup: walgrab write", "backup: walgrab close")
         direct backupID ("pg_wal/" +:+ seg) w ;;
  let '(resp, w) := d in
  ret (AddFile mb (sr_Path resp) (sr_Bytes resp) (sr_SHA256 resp) (sr_ModTime resp), w).

(** The manifest under its temporary name, the sidecar and the commit, by either way. *)
Definition publish_by_mode (direct : bool) (opts : BackupOptions) (backupID manifestBytes : string) (sc : Sidecar) (w : Worker) : M W Worker :=
  let tmp := path_Join [backupID; "backup_manifest.tmp"] in
  let final := path_Join [backupID; "backup_manifest"] in
  d <- wrapping "backup: manifest.tmp" (writeBlobByMode direct (bo_Filter opts) tmp manifestBytes false w) ;;
  scBytes <- of_result (map_error (Errorf_w "backup: marshal sidecar") (MarshalSidecar sc)) ;;
  d <- wrapping "backup: sidecar" (writeBlobByMode direct (bo_Filter opts) (path_Join [backupID; "Storage-Metadata.json"]) scBytes false (snd d)) ;;
  if direct then d <- wrapping "backup: rpc.Commit manifest" (cli_Commit tmp final (snd d)) ;; ret (snd d)
  else wrapping "backup: orch.Commit manifest" (be_Commit tmp final) ;;; ret (snd d).

(** What follows a bracket that was stopped. *)
Definition finish_worker (direct : bool) (opts : BackupOptions) (id : ClusterIdentity) (backupID : string) (dirs : list string)
    (start : StartInfo) (stop : StopInfo) (t : tally) (w : Worker) : M W BackupResult :=
  d <- add_labels direct opts backupID stop (tl_mb t, w) ;;
  segments <- wrapping "backup"
    (AcquireBracketWAL {| aq_Timeline := si_Timeline start; aq_StartLSN := si_LSN start; aq_StopLSN := so_LSN stop;
                          aq_SegSize := id_WALSegmentSize id; aq_Timeout := bo_WALTimeout opts; aq_WALSource := bo_WALSource opts |}) ;;
  d <- (if String.eqb (bo_WALSource opts) WALSourceWalgrab then forM segments d (grab_segment direct backupID) else ret d) ;;
  walRecords <- (if walRecordsNeeded (bo_WALSource opts)
                 then wrapping "backup: hash WAL" (hashWALSegments (si_Timeline start) segments) else ret []) ;;
  now <- read Now ;;
  w <- publish_by_mode direct opts backupID (Finalize (fst d) {| be_StopLSN := so_LSN stop; be_StopTime := UTC now |})
         (parallel_sidecar opts (id_SystemIdentifier id) dirs walRecords) (snd d) ;;
  wrapping "backup: rpc.Done" (cli_Done w) ;;;
  ret {| br_BackupID := backupID; br_StartLSN := si_LSN start; br_StopLSN := so_LSN stop; br_Timeline := si_Timeline start;
         br_Files := tl_files t; br_Bytes := tl_bytes t |}.

(** ** The backup *)

(** A worker that was dialled: greeting, probe, configuration, the files, the end of the bracket. *)
Definition drive (sched : list FileEntry -> list FileEntry) (late : string -> bool) (opts : BackupOptions) (wOpts : WorkerOptions)
    (id : ClusterIdentity) (startedAt : time) (backupID pgDataPath credBytes proxy : string) (files : list FileEntry) (dirs : list string)
    (plan : option reusablePlan) (start : StartInfo) (b : bracket) (w : Worker) : M W (result BackupResult * bracket) :=
  let direct := wo_WorkerWritesDirectly wOpts in
  or_stop b "backup: rpc.Hello" (cli_Hello w) (fun d =>
  or_stop b "backup: rpc.ProbeStorage"
    (if direct then
       p <- cli_ProbeStorage (probe_request wOpts credBytes) (snd d) ;;
       if negb (pr_Reachable (fst p)) && String.eqb (wo_StorageReach wOpts) "native_only"
       then throw (errors_New "backup: storage_reach=native_only and worker UNREACHABLE") else ret (snd p)
     else ret (snd d)) (fun w =>
  or_stop b "backup: rpc.Configure" (cli_Configure (configure_request opts wOpts backupID pgDataPath credBytes proxy files) w) (fun d =>
  or_stop b "backup"
    (fetch_files late direct backupID plan (sched files)
       (NewBuilder {| bs_SystemIdentifier := id_SystemIdentifier id; bs_Timeline := si_Timeline start; bs_StartLSN := si_LSN start;
                      bs_StartTime := UTC startedAt |}) (snd d)) (fun d =>
  s <- Stop b ;;
  let '(stop, b) := s in
  match stop with
  | Fail err => ret (Fail (Errorf_w "backup: bracket.Stop" err), b)
  | Ok stop => r <- try (finish_worker direct opts id backupID dirs start stop (fst d) (snd d)) ;; ret (r, b)
  end)))).

(** From [Start] on. [collate] is the order the database sorts text in, [sched] the one the goroutines run in. *)
Definition worker_backup (collate : list string -> list string) (sched : list FileEntry -> list FileEntry) (late : string -> bool) (opts : BackupOptions) (wOpts : WorkerOptions)
    (id : ClusterIdentity) (startedAt : time) (backupID : string) (plan : option reusablePlan) (b : bracket) : M W (result BackupResult * bracket) :=
  d <- Start (bo_Label opts) true b ;;
  let '(start, b) := d in
  match start with
  | Fail err => ret (Fail (Errorf_w "backup: bracket.Start" err), b)
  | Ok start =>
      or_stop b "backup: ListPGData" ListPGData (fun files =>
      or_stop b "backup: ListPGDataDirs" (ListPGDataDirs collate) (fun dirs =>
      or_stop b "backup: query data_directory" pg_data_directory (fun pgDataPath =>
      with_reach b wOpts (fun wOpts credBytes proxy =>
      or_stop b "backup: dialWorker" (dialWorker wOpts) (fun w =>
      finally sess_Close (drive sched late opts wOpts id startedAt backupID pgDataPath credBytes proxy files dirs plan start b w))))))
  end.

(** [runWorkerBackup] *)
Definition runWorkerBackup (collate : list string -> list string) (sched : list FileEntry -> list FileEntry) (late : string -> bool) (opts : BackupOptions) (wOpts : WorkerOptions) : M W BackupResult :=
  if negb (wo_HasPool wOpts) then throw (errors_New "backup: pgsafe-worker requires Pool")
  else if wo_PGVersion wOpts <? 13 then throw (errors_New "backup: pgsafe-worker requires PGVersion >= 13")
  else
    startedAt <- read Now ;;
    d <- prepare_worker opts wOpts startedAt ;;
    let '(wOpts, id, backupID, plan) := d in
    b <- of_result (map_error (Errorf_w "backup: bracket") (bracket_New (wo_HasPool wOpts) (wo_PGVersion wOpts))) ;;
    d <- worker_backup collate sched late opts wOpts id startedAt backupID plan b ;;
    of_result (fst d).
End worker_backup.
