(* ===== verification/WorkerBackupSpec.v ===== *)
(** * What a backup through a worker leaves in the storage

    The worker reads and encodes, the caller brackets and describes; whichever of them writes, the manifest only
    becomes visible with all of the files, and the bracket ends on every path. *)

From S2P Require Import Prelude Sha256 Lsn Wal Storage Keys Host Time Json JsonSpec Manifest ManifestSpec Worlds Archive PageChecksum Filter Verify VerifySpec Config Creds Mint Restore RestoreSpec Rpc Bracket BracketSpec Resume Backup BackupSpec PgSql PgSqlSpec Parallel ParallelSpec Worker WorkerSpec WorkerBackup.

(** ** Writing a file in one piece *)

Section sinks.
Context `{FilterLibs} {W : Type} `{BackendLaws W}.

Lemma put_body_outside m1 m2 m3 key body : valid_key key = true -> preserves (same_outside (fun q => q = key)) (put_body m1 m2 m3 key body).
Proof.
  intros Hk s q Hq. unfold put_body, wrapping, bind, try, throw. destruct (put_spec key s Hk) as [Hv Hp].
  destruct (be_Put key s) as [[h|e] s1]; cbn [map_error snd] in *; [|by rewrite Hv]. specialize (Hp h s1 eq_refl).
  destruct (write_spec h body s1 key "" Hp) as [Hv2 (c' & Hp2 & _)]. destruct (be_Write h body s1) as [[[]|e] s2]; cbn [snd map_error] in *;
    destruct (close_spec h s2 key c' Hp2) as [Hc _]; destruct (be_Close h s2) as [[[]|e2] s3]; cbn [snd map_error] in *; rewrite Hc by done; congruence.
Qed.

Lemma put_body_Ok m1 m2 m3 key body s s' : valid_key key = true -> put_body m1 m2 m3 key body s = (Ok tt, s') -> view s' !! key = Some body.
Proof.
  intros Hk Hrun. apply bind_inv_Ok in Hrun as (h & s1 & Hput%wrapping_inv_Ok & Hrun). destruct (put_spec key s Hk) as [_ Hp]. specialize (Hp h s1 Hput).
  unfold bind, try in Hrun. destruct (write_spec h body s1 key "" Hp) as [_ (c' & Hp2 & Hc)].
  destruct (be_Write h body s1) as [[[]|e] s2]; cbn [snd] in *; [|by destruct (be_Close h s2)]. specialize (Hc s2 eq_refl). cbn in Hc. subst c'.
  apply wrapping_inv_Ok in Hrun. destruct (close_spec h s2 key body Hp2) as [_ Hcl]. rewrite (Hcl s' Hrun). apply lookup_insert_eq.
Qed.

Lemma put_filtered_outside ch key body : valid_key key = true -> preserves (same_outside (fun q => q = key)) (put_filtered ch key body).
Proof.
  intros Hk s. unfold put_filtered, wrapping. unfold bind at 1. destruct (put_spec key s Hk) as [Hv Hp].
  destruct (be_Put key s) as [[h|err] s1]; cbn [map_error snd] in *; [|by apply same_view_outside].
  assert (Ho : open_at key h s1) by (exists ""; by apply Hp). unfold bind at 1, try at 1.
  destruct (Wrap_silent key ch h s1 Ho) as (Hv1 & Ho2 & Hok). destruct (Wrap ch h s1) as [[cw|err] s2] eqn:Ew; cbn [map_error snd] in *.
  2:{ unfold bind, try, throw. pose proof (be_Close_outside key h s2 Ho2) as Hc. destruct (be_Close h s2) as [r s3]. cbn [snd] in *.
      intros q Hq. rewrite (Hc q Hq). congruence. }
  pose proof (Hok cw s2 eq_refl) as Hs. rewrite <- Hs in Ho2. unfold bind at 1.
  destruct (Write_silent key body cw s2 Ho2) as (r & cw3 & s3 & -> & Hv3 & Hs3 & Ho3). rewrite <- Hs3 in Ho3.
  pose proof (Close_outside key cw3 s3 Ho3) as Hcl. intros q Hq.
  unfold bind, try, throw. destruct r as [[]|err]; destruct (Close cw3 s3) as [[[[[]|err'] cw4]|err'] s4]; cbn [snd] in *; rewrite Hcl by done; congruence.
Qed.

Lemma put_filtered_Ok ch key body s res s' : valid_key key = true -> put_filtered ch key body s = (Ok res, s') ->
  exists stored, encoded ch [body] stored /\ view s' !! key = Some stored /\ res_Bytes res = Z.of_nat (slen body) /\ res_SHA256 res = Sum256 body.
Proof.
  intros Hk Hrun. apply bind_inv_Ok in Hrun as (h & s1 & Hput%wrapping_inv_Ok & Hrun). destruct (put_spec key s Hk) as [_ Hp]. specialize (Hp h s1 Hput).
  unfold bind at 1, try at 1, wrapping at 1 in Hrun. destruct (Wrap ch h s1) as [[cw|err] s2] eqn:Ew; cbn [map_error] in Hrun;
    [|apply bind_inv_Ok in Hrun as (? & ? & _ & [=])].
  apply (Wrap_inv ch h key) in Ew as (e0 & hd & c0 & chd & He & Hcd & Hi & _); [|done].
  apply bind_inv_Ok in Hrun as ([r cw3] & s3 & Hw & Hrun). destruct r as [[]|err]; [|apply bind_inv_Ok in Hrun as (? & ? & _ & [=])].
  apply (Write_inv key (view s1) e0 hd c0 chd []) in Hw; [|done]. cbn [app] in Hw.
  apply bind_inv_Ok in Hrun as ([r cw4] & s4 & Hclose & Hrun). destruct r as [[]|err]; [|done]. injection Hrun as <- <-.
  apply (Close_inv key (view s1) e0 hd c0 chd [body]) in Hclose as (stored & Hst & Hv & Hr); [|done].
  exists stored. rewrite Hr, Hv. split_and!; [by exists e0, hd, c0, chd|apply lookup_insert_eq|done..].
Qed.

(** A commit that was tried: what is under the name is as it was and the caller hears of it, or it is what was committed. *)
Lemma commit_tried tmp final c w r w' : valid_key tmp = true -> valid_key final = true -> copyable tmp = true -> tmp <> final ->
  view w !! tmp = Some c -> be_Commit tmp final w = (r, w') ->
  same_outside (fun q => q = tmp \/ q = final) w w' /\
  ((view w' !! final = view w !! final /\ isOk r = false) \/ view w' !! final = Some c).
Proof.
  intros Ht Hf Hc Hne Htmp Hrun. destruct (commit_spec tmp final w Ht Hf Hc Hne (ex_intro _ _ Htmp)) as (Ho & Hok & Hfail & _). rewrite Hrun in *. cbn [snd] in Ho.
  split; [intros q Hq; apply Ho; tauto|]. destruct r as [[]|e].
  - right. destruct (Hok w' eq_refl) as (_ & c' & Hc' & ->). rewrite lookup_insert_eq. congruence.
  - destruct (Hfail e w' eq_refl) as [[? _]|[_ ?]]; [by left|right; congruence].
Qed.
End sinks.

(** ** What is relied on

    The storage a worker opens is that of the backup, its host only gives it files, and neither the wire nor the
    processes nor the clients of the storages write to it by themselves. *)

Class SharedStorage (W : Type) `{BackendLaws W, Dialing W} := {
  rb_laws b : BackendLaws (H:=rb_Backend b) W;
  rb_view b w : view (BackendLaws:=rb_laws b) w = view w;
}.

Class WorkerHostLaws (W : Type) `{BackendLaws W, WorkerHost W} : Prop := {
  os_open_quiet p : quiet (os_Open p);
  setenv_quiet k v w : view (os_Setenv k v w) = view w;
  (** A file fits its size. *)
  os_open_fits p w src w' : os_Open p w = (Ok src, w') -> is_i64 (Z.of_nat (slen (Join (fst src) "")));
}.

Class DialingQuiet (W : Type) `{BackendLaws W, Dialing W} : Prop := {
  s3_config_quiet c : quiet (s3_NewFromConfig c);
  s3_driver_quiet c b p : quiet (s3_driver c b p);
  azure_client_quiet u c : quiet (azblob_NewClientWithNoCredential u c);
  azure_driver_quiet c p : quiet (azure_driver c p);
  gcs_client_quiet c : quiet (gcs_NewClient c);
  gcs_close_quiet c : quiet (gcs_CloseClient c);
  gcs_driver_quiet c b p : quiet (gcs_driver c b p);
  ssh_dial_quiet a u k h : quiet (ssh_Dial a u k h);
  ssh_close_quiet c : quiet (ssh_CloseConn c);
  sftp_client_quiet c : quiet (sftp_NewClient c);
  sftp_close_quiet c : quiet (sftp_CloseClient c);
  sftp_driver_quiet c p : quiet (sftp_driver c p);
  posix_driver_quiet p : quiet (posix_driver p);
}.

Class TransportQuiet (W : Type) `{BackendLaws W, Transport W} : Prop := {
  executable_quiet : quiet os_Executable;
  ssh_session_quiet t a c : quiet (ssh_DialCommand t a c);
  local_session_quiet c : quiet (local_Dial c);
  session_close_quiet : quiet sess_Close;
  send_quiet n : quiet (wire_send n);
  receive_quiet n : quiet (wire_receive n);
  tunnel_start_quiet r : quiet (sftpd_Start r);
  tunnel_close_quiet : quiet sftpd_Close;
}.

Class MintingQuiet (W : Type) `{BackendLaws W, Minting W} : Prop := {
  aws_config_quiet r k : quiet (aws_LoadDefaultConfig r k);
  sts_quiet c e r s p d : quiet (sts_AssumeRole c e r s p d);
  iam_client_quiet f : quiet (iam_NewClient f);
  iam_token_quiet c n s l : quiet (iam_GenerateAccessToken c n s l);
  iam_close_quiet c : quiet (iam_Close c);
}.

#[export] Hint Resolve os_open_quiet s3_config_quiet s3_driver_quiet azure_client_quiet azure_driver_quiet gcs_client_quiet gcs_close_quiet
  gcs_driver_quiet ssh_dial_quiet ssh_close_quiet sftp_client_quiet sftp_close_quiet sftp_driver_quiet posix_driver_quiet executable_quiet
  ssh_session_quiet local_session_quiet session_close_quiet send_quiet receive_quiet tunnel_start_quiet tunnel_close_quiet aws_config_quiet
  sts_quiet iam_client_quiet iam_token_quiet iam_close_quiet : go.

(** Goes through a program that only uses quiet operations. *)
Ltac quietly := repeat first
  [ progress intros
  | match goal with |- quiet ?m => change (preserves (same_outside wal_key) m) end
  | match goal with |- preserves _ ?m => solve [change (quiet m); eauto 2 with go] end
  | apply preserves_ret; tc_solve | apply preserves_throw; tc_solve | apply preserves_of_result; tc_solve | apply preserves_read; tc_solve
  | apply preserves_try | apply preserves_wrapping
  | apply preserves_bind; [tc_solve| |]
  | match goal with |- preserves _ (match ?x with _ => _ end) => destruct x end ].

Section quiet_parts.
Context {W : Type} `{BackendLaws W, !Host W, !HostLaws W, FilterLibs, !Minting W, !MintingQuiet W, !Dialing W, !DialingQuiet W, !WorkerHost W, !WorkerHostLaws W,
  !AgeKeys, !Transport W, !TransportQuiet W}.
Context (Now : W -> time).

Lemma with_cleanup_quiet (c : M W unit) m : quiet c -> quiet m -> quiet (with_cleanup c m).
Proof. intros. unfold with_cleanup. quietly; assumption. Qed.

Lemma OpenBackend_quiet cred : quiet (OpenBackendFromCredential (W:=W) cred).
Proof.
  unfold OpenBackendFromCredential, openS3STS, openAzureSAS, openGCSToken, openSFTPKey, deref_or_panic. quietly; try apply with_cleanup_quiet; quietly.
Qed.

#[local] Hint Resolve OpenBackend_quiet : go.

Lemma open_storage_quiet wrap ty path cred : quiet (open_storage (W:=W) wrap ty path cred).
Proof. unfold open_storage, openWorkerPOSIX. quietly. Qed.

Lemma readfile_quiet p : quiet (os_ReadFile (W:=W) p).
Proof. intros w. apply same_view_outside. apply (read_file_spec p w). Qed.

Lemma rand_quiet n : quiet (rand_Read (W:=W) n).
Proof. intros w. apply same_view_outside. apply (rand_spec n w). Qed.

#[local] Hint Resolve readfile_quiet rand_quiet : go.

Lemma mint_quiet sc : quiet (mintForBackend (W:=W) Now sc).
Proof.
  unfold mintForBackend, MintS3STS, MintAzureSAS, MintGCSToken, MintSFTPKey, deref_or_panic. quietly.
Qed.

Lemma dialWorker_quiet wOpts : quiet (dialWorker (W:=W) wOpts).
Proof. unfold dialWorker. quietly. Qed.

Lemma PickRemotePort_quiet : quiet (PickRemotePort (W:=W)).
Proof. unfold PickRemotePort. quietly. Qed.
End quiet_parts.

#[export] Hint Resolve OpenBackend_quiet open_storage_quiet readfile_quiet rand_quiet mint_quiet dialWorker_quiet PickRemotePort_quiet : go.

(** ** The methods of a configured worker *)

Section serving.
Context {W : Type} `{BackendLaws W, !Host W, !HostLaws W, FilterLibs, !Dialing W, !DialingQuiet W, !SharedStorage W, !WorkerHost W, !WorkerHostLaws W,
  !AgeKeys, !Transport W, !TransportQuiet W}.
Context (Now : W -> time) (direct : bool) (id dir : string) (ch : Chain).
Hypothesis Hid : own_id id.

(** A worker that was configured for the backup. *)
Record serving (w : Worker (W:=W)) : Prop := {
  sv_configured : w_configured w = true;
  sv_id : w_backupID w = id;
  sv_dir : w_pgDataPath w = dir;
  sv_chain : w_chain w = Some ch;
  sv_direct : w_workerWritesDirectly w = direct;
  sv_backend : direct = true -> is_Some (w_backend w);
  sv_cleanup c : w_cleanup w = Some c -> quiet c;
}.

Lemma serving_count n w : serving w -> serving (count_file n w).
Proof. by intros []. Qed.

Lemma rb_outside b K s s' : @same_outside W (rb_Backend b) (rb_laws b) K s s' -> same_outside K s s'.
Proof. intros Hs q Hq. specialize (Hs q Hq). by rewrite !rb_view in Hs. Qed.

Lemma rb_preserves b K {A} (m : M W A) : preserves (@same_outside W (rb_Backend b) (rb_laws b) K) m -> preserves (same_outside K) m.
Proof. intros Hm s. apply (rb_outside b), Hm. Qed.

(** The file of the host behind a path, read to its end. *)
Definition from_host (path : string) (chunks : list string) : Prop :=
  exists s src s', os_Open (path_Join [dir; path]) s = (Ok src, s') /\ read_whole src chunks.

Lemma from_host_fits path chunks : from_host path chunks -> is_i64 (Z.of_nat (slen (Join chunks ""))).
Proof. intros (s & src & s' & Ho & -> & _). by eapply os_open_fits. Qed.

Lemma quiet_key key s s' : same_outside wal_key s s' -> same_outside (key_or_wal key) s s'.
Proof. apply same_outside_mono. intros q Hq. by right. Qed.

Lemma preserves_quiet_key key {A} (m : M W A) : quiet m -> preserves (same_outside (key_or_wal key)) m.
Proof. intros Hm s. apply quiet_key, Hm. Qed.

Lemma only_key key s s' : same_outside (fun q => q = key) s s' -> same_outside (key_or_wal key) s s'.
Proof. apply same_outside_mono. intros q Hq. by left. Qed.

Lemma open_source_quiet w path : quiet (open_source w path).
Proof. unfold open_source. quietly. Qed.

Lemma open_source_Ok w path s v src s' : serving w -> open_source w path s = (Ok (v, src), s') ->
  exists s1, os_Open (path_Join [dir; path]) s = (Ok src, s1).
Proof.
  intros [_ _ <- _ _ _ _] Hrun. apply bind_inv_Ok in Hrun as (src' & s1 & Ho%wrapping_inv_Ok & [= _ <- _]). by exists s1.
Qed.

Lemma stream_to_outside b key v src : valid_key key = true -> preserves (same_outside (key_or_wal key)) (stream_to b ch key (v, src)).
Proof.
  intros Hk. apply (rb_preserves b). unfold stream_to.
  eapply (through_chain_outside (H1:=rb_laws b)); [done|]. apply (copy_reads_copies (H1:=rb_laws b)).
Qed.

Lemma stream_to_Ok b key v src s res s' : valid_key key = true -> ~ wal_key key -> stream_to b ch key (v, src) s = (Ok res, s') ->
  exists chunks stored, read_whole src chunks /\ encoded ch chunks stored /\ view s' !! key = Some stored /\
    res_Bytes res = Z.of_nat (slen (Join chunks "")) /\ res_SHA256 res = Sum256 (Join chunks "").
Proof.
  intros Hk Hw Hrun. unfold stream_to in Hrun. cbn [fst snd] in Hrun.
  destruct (through_chain_Ok (H1:=rb_laws b) _ _ _ _ _ _ _ _ Hk Hw (copy_reads_copies (H1:=rb_laws b) v src) Hrun) as (chunks & stored & HP & Henc & Hv & Hb & Hs & _).
  exists chunks, stored. by rewrite rb_view in Hv.
Qed.

(** What a file that was fetched has left: the entry in the storage and the answer about it. *)
Definition answered (path : string) (chunks : list string) (resp : StreamResponse) : Prop :=
  sr_Path resp = path /\ sr_Bytes resp = Z.of_nat (slen (Join chunks "")) /\ sr_SHA256 resp = Sum256 (Join chunks "").

Lemma counted_inv w (m : M W StreamResponse) s r w' s' : counted w m s = (Ok (r, w'), s') ->
  (exists resp, m s = (Ok resp, s') /\ r = Ok resp /\ w' = count_file (sr_Bytes resp) w) \/ (exists err, r = Fail err /\ w' = w).
Proof. unfold counted, bind, try, ret. destruct (m s) as [[resp|err] s1]; intros [= <- <- <-]; [left|right]; by eexists. Qed.

Lemma StreamFile_outside w path : serving w -> valid_key path = true -> preserves (same_outside (key_or_wal (path_Join [id; path]))) (StreamFile Now path w).
Proof.
  intros Hsv Hk. destruct (own_key id path Hid Hk) as (_ & Hkey & _). unfold StreamFile. destruct (negb _); [apply preserves_ret; tc_solve|].
  destruct (check_path _ _ _); [|apply preserves_ret; tc_solve]. unfold counted, deref_or_panic. rewrite (sv_id _ Hsv), (sv_chain _ Hsv).
  apply preserves_bind; [tc_solve| |intros r; apply preserves_ret; tc_solve]. apply preserves_try.
  apply preserves_bind; [tc_solve|apply preserves_quiet_key, open_source_quiet|intros [v src]].
  apply preserves_bind; [tc_solve|destruct (w_backend w); [apply preserves_ret|apply preserves_throw]; tc_solve|intros b].
  rewrite bind_ret_l. apply preserves_bind; [tc_solve|by apply stream_to_outside|intros res; apply preserves_quiet_key; unfold answer; quietly].
Qed.

Lemma StreamFile_Ok w path s resp w' s' : serving w -> valid_key path = true -> StreamFile Now path w s = (Ok (Ok resp, w'), s') ->
  exists chunks, from_host path chunks /\ stored_entry id ch (view s') (pg_entry path chunks) /\ answered path chunks resp /\ serving w'.
Proof.
  intros Hsv Hk. destruct (own_key id path Hid Hk) as (_ & Hkey & Hnw). unfold StreamFile. destruct (negb _); [done|].
  destruct (check_path _ _ _); [|done]. intros Hrun. apply counted_inv in Hrun as [(resp' & Hrun & [= <-] & ->)|(err & [=] & _)].
  rewrite (sv_id _ Hsv), (sv_chain _ Hsv) in Hrun.
  apply bind_inv_Ok in Hrun as ([v src] & s1 & Hopen & Hrun). apply (open_source_Ok w) in Hopen as (s0 & Hopen); [|done].
  apply bind_inv_Ok in Hrun as (b & s2 & _ & Hrun). cbn [deref_or_panic] in Hrun. rewrite bind_ret_l in Hrun.
  apply bind_inv_Ok in Hrun as (res & s3 & Hst & Hrun).
  destruct (stream_to_Ok b _ v src _ _ _ Hkey Hnw Hst) as (chunks & stored & Hread & Henc & Hv & Hb & Hs).
  unfold answer, bind, read, ret in Hrun. injection Hrun as <- <-. exists chunks. split_and!; [by exists s, src, s0|by exists stored|done|by apply serving_count].
Qed.

Lemma StreamChunk_outside w path : serving w -> quiet (StreamChunk Now path w).
Proof.
  intros Hsv. unfold StreamChunk, counted, answer, deref_or_panic. destruct (negb _); [quietly|]. destruct (w_workerWritesDirectly w); [quietly|].
  destruct (check_path _ _ _); [|quietly]. pose proof (open_source_quiet w path). quietly.
Qed.

Lemma StreamChunk_Ok w path s resp w' s' : serving w -> StreamChunk Now path w s = (Ok (Ok resp, w'), s') ->
  exists chunks, from_host path chunks /\ encoded ch chunks (sr_Body resp) /\ answered path chunks resp /\ serving w'.
Proof.
  intros Hsv. unfold StreamChunk. destruct (negb _); [done|]. destruct (w_workerWritesDirectly w); [done|].
  destruct (check_path _ _ _); [|done]. intros Hrun. apply counted_inv in Hrun as [(resp' & Hrun & [= <-] & ->)|(err & [=] & _)].
  rewrite (sv_chain _ Hsv) in Hrun.
  apply bind_inv_Ok in Hrun as ([v src] & s1 & Hopen & Hrun). apply (open_source_Ok w) in Hopen as (s0 & Hopen); [|done].
  cbn [deref_or_panic] in Hrun. rewrite bind_ret_l in Hrun. apply bind_inv_Ok in Hrun as ([res body] & s2 & Hbuf & Hrun).
  unfold of_result in Hbuf. destruct (stream_buffer ch (v, src)) as [d|err] eqn:Eb; [|done]. injection Hbuf as -> ->.
  destruct (stream_buffer_Ok ch v src res body Eb) as (chunks & Hread & Henc & Hb & Hs).
  unfold answer, bind, read, ret in Hrun. injection Hrun as <- <-. exists chunks. split_and!; [by exists s, src, s0|done|done|by apply serving_count].
Qed.

(** *** Blobs *)

Lemma write_filtered_outside b key body : valid_key key = true -> preserves (same_outside (key_or_wal key)) (write_filtered b ch key body).
Proof. intros Hk. apply (rb_preserves b). eapply (through_chain_outside (H1:=rb_laws b)); [done|]. apply (Write_copies (H1:=rb_laws b)). Qed.

Lemma write_plain_outside b key body : valid_key key = true -> preserves (same_outside (key_or_wal key)) (write_plain b key body).
Proof. intros Hk s. apply only_key, (rb_outside b), (put_body_outside (H1:=rb_laws b)), Hk. Qed.

Lemma worker_WriteBlob_outside w req : serving w -> valid_key (wq_RepoPath req) = true ->
  preserves (same_outside (key_or_wal (wq_RepoPath req))) (worker_WriteBlob req w).
Proof.
  intros Hsv Hk. unfold worker_WriteBlob. destruct (negb _); [apply preserves_ret; tc_solve|].
  assert (Hb : forall (K : string -> Prop), preserves (same_outside K) (deref_or_panic (W:=W) (w_backend w))).
  { intros K. unfold deref_or_panic. destruct (w_backend w); [apply preserves_ret|apply preserves_throw]; tc_solve. }
  destruct (wq_Filtered req); (apply preserves_bind; [tc_solve|apply preserves_try|intros r; apply preserves_ret; tc_solve]);
    (apply preserves_bind; [tc_solve|apply Hb|intros b]); [|by apply write_plain_outside].
  rewrite (sv_chain _ Hsv). cbn [deref_or_panic]. rewrite bind_ret_l. by apply write_filtered_outside.
Qed.

Lemma worker_WriteBlob_Ok w req s resp w' s' : serving w -> valid_key (wq_RepoPath req) = true -> ~ wal_key (wq_RepoPath req) ->
  worker_WriteBlob req w s = (Ok (Ok resp, w'), s') ->
  serving w' /\ if wq_Filtered req
  then exists stored, encoded ch [wq_Body req] stored /\ view s' !! wq_RepoPath req = Some stored /\
         wr_Bytes resp = Z.of_nat (slen (wq_Body req)) /\ wr_SHA256 resp = Sum256 (wq_Body req)
  else view s' !! wq_RepoPath req = Some (wq_Body req).
Proof.
  intros Hsv Hk Hnw. unfold worker_WriteBlob. destruct (negb _); [done|]. destruct (wq_Filtered req); intros Hrun.
  - apply bind_inv_Ok in Hrun as (r & s1 & Htry & Hrun). unfold try in Htry. injection Hrun as Er <- <-.
    match type of Htry with (let '(_, _) := ?m in _) = _ => destruct m as [[res|err] s2] eqn:E end; injection Htry as <- <-; [|done].
    apply bind_inv_Ok in E as (b & s3 & _ & E). rewrite (sv_chain _ Hsv) in E. cbn [deref_or_panic] in E. rewrite bind_ret_l in E.
    destruct (through_chain_Ok (H1:=rb_laws b) _ _ _ _ _ _ _ _ Hk Hnw (Write_copies (H1:=rb_laws b) (wq_Body req)) E) as (chunks & stored & -> & Henc & Hv & Hb & Hs & _).
    cbn in Er. injection Er as <-. split; [by apply serving_count|]. exists stored. rewrite rb_view in Hv. cbn [wr_Bytes wr_SHA256]. rewrite Hb, Hs. done.
  - apply bind_inv_Ok in Hrun as (r & s1 & Htry & Hrun). unfold try in Htry. injection Hrun as Er <- <-.
    match type of Htry with (let '(_, _) := ?m in _) = _ => destruct m as [[[]|err] s2] eqn:E end; injection Htry as <- <-; [|done].
    apply bind_inv_Ok in E as (b & s3 & _ & E). apply (put_body_Ok (H1:=rb_laws b)) in E; [|done]. split; [done|]. by rewrite rb_view in E.
Qed.

(** *** Over the wire *)

Lemma call_preserves K {A} name (h : method A) w : (forall q, wal_key q -> K q) -> preserves (same_outside K) (h w) -> preserves (same_outside K) (call name h w).
Proof.
  intros HK Hh. assert (Hq : forall B (m : M W B), quiet m -> preserves (same_outside K) m) by (intros B m Hm s; eapply same_outside_mono, Hm; done).
  unfold call. apply preserves_bind; [tc_solve|apply preserves_try, Hq, send_quiet|intros [u|err]; [|apply preserves_ret; tc_solve]].
  apply preserves_bind; [tc_solve|done|intros [a w']].
  apply preserves_bind; [tc_solve|apply preserves_try, Hq, receive_quiet|intros r; apply preserves_ret; tc_solve].
Qed.

Lemma call_quiet {A} name (h : method A) w : quiet (h w) -> quiet (call name h w).
Proof. apply call_preserves. done. Qed.

Lemma call_inv {A} name (h : method A) w s a w' s' : call name h w s = (Ok (Ok a, w'), s') ->
  exists s1 s2, same_outside wal_key s s1 /\ h w s1 = (Ok (a, w'), s2) /\ same_outside wal_key s2 s'.
Proof.
  unfold call. intros Hrun. apply bind_inv_Ok in Hrun as (r & s1 & Hsend & Hrun). destruct r as [u|err]; [|done].
  apply bind_inv_Ok in Hrun as ([a1 w1] & s2 & Hh & Hrun). apply bind_inv_Ok in Hrun as (r2 & s3 & Hrec & Hrun).
  exists s1, s2. pose proof (preserves_try _ _ (send_quiet name) s) as Hq1. pose proof (preserves_try _ _ (receive_quiet name) s2) as Hq2.
  rewrite Hsend in Hq1. rewrite Hrec in Hq2. destruct r2 as [u2|err]; [|done]. by injection Hrun as -> <- <-.
Qed.

Lemma call_cases {A} name (h : method A) w s r s' : call name h w s = (r, s') ->
  (exists err, r = Ok (Fail err, w) /\ same_outside wal_key s s') \/
  exists s1 s2 rh, same_outside wal_key s s1 /\ h w s1 = (rh, s2) /\ same_outside wal_key s2 s' /\
    match rh with Fail e => r = Fail e | Ok (a, w') => exists rr, r = Ok (rr, w') /\ forall a', rr = Ok a' -> a' = a end.
Proof.
  unfold call. unfold bind at 1, try at 1. pose proof (send_quiet name s) as Hq1. destruct (wire_send name s) as [[u|err] s1]; cbn [snd] in Hq1.
  2:{ intros [= <- <-]. left. by exists err. }
  intros Hrun. right. unfold bind in Hrun. destruct (h w s1) as [rh s2] eqn:Eh. exists s1.
  destruct rh as [[a w']|e]; [|injection Hrun as <- <-; by exists s2, (Fail e)].
  unfold try in Hrun. pose proof (receive_quiet name s2) as Hq2. destruct (wire_receive name s2) as [r2 s3]; cbn [snd] in Hq2. injection Hrun as <- <-.
  exists s2, (Ok (a, w')). split_and!; [done..|]. eexists. split; [done|]. intros a'. destruct r2; [by intros [= ->]|done].
Qed.

Lemma checked_preserves R `{!PreOrder R} {A B} (f : result A -> result B) m : preserves R m -> preserves R (checked f m).
Proof. intros Hm. unfold checked. apply preserves_bind; [tc_solve|done|intros d]. apply preserves_bind; [tc_solve|apply preserves_of_result; tc_solve|intros b; apply preserves_ret; tc_solve]. Qed.

Lemma checked_inv {A B} (f : result A -> result B) m s b w' s' : checked f m s = (Ok (b, w'), s') -> exists r, m s = (Ok (r, w'), s') /\ f r = Ok b.
Proof.
  intros Hrun. apply bind_inv_Ok in Hrun as ([r w1] & s1 & Hm & Hrun). unfold bind, of_result, ret in Hrun. cbn [fst snd] in Hrun.
  exists r. destruct (f r) as [b'|err]; [|done]. by injection Hrun as -> <- <-.
Qed.

(** A method whose error is part of its answer. *)
Lemma remote_inv {A} msg name (h : method (result A)) w s a w' s' :
  checked (fun r => map_error (Errorf_w msg) (remote r)) (call name h w) s = (Ok (a, w'), s') ->
  exists s1 s2, same_outside wal_key s s1 /\ h w s1 = (Ok (Ok a, w'), s2) /\ same_outside wal_key s2 s'.
Proof.
  intros (r & Hcall & Hr)%checked_inv. destruct r as [[a'|err]|err]; cbn in Hr; [injection Hr as ->|done..]. by apply call_inv in Hcall.
Qed.

Lemma stored_entry_quiet name chunks s s' : valid_key name = true -> same_outside wal_key s s' ->
  stored_entry id ch (view s) (pg_entry name chunks) -> stored_entry id ch (view s') (pg_entry name chunks).
Proof. intros Hk Hq. eapply stored_entry_outside; [exact Hq|]. by apply (own_key id name Hid Hk). Qed.

Lemma key_of_wal key q : wal_key q -> key_or_wal key q.
Proof. by right. Qed.

Lemma cli_StreamFile_outside w path : serving w -> valid_key path = true -> preserves (same_outside (key_or_wal (path_Join [id; path]))) (cli_StreamFile Now path w).
Proof. intros. apply checked_preserves; [tc_solve|]. apply call_preserves; [apply key_of_wal|]. by apply StreamFile_outside. Qed.

Lemma cli_StreamFile_Ok w path s resp w' s' : serving w -> valid_key path = true -> cli_StreamFile Now path w s = (Ok (resp, w'), s') ->
  exists chunks, from_host path chunks /\ stored_entry id ch (view s') (pg_entry path chunks) /\ answered path chunks resp /\ serving w'.
Proof.
  intros Hsv Hk (s1 & s2 & _ & Hrun & Hq)%remote_inv. apply StreamFile_Ok in Hrun as (chunks & Hf & Hst & Ha & Hsv'); [|done..].
  exists chunks. split_and!; [done|by eapply stored_entry_quiet|done|done].
Qed.

Lemma cli_StreamChunk_outside w path : serving w -> quiet (cli_StreamChunk Now path w).
Proof. intros. apply checked_preserves; [tc_solve|]. apply call_quiet. by apply StreamChunk_outside. Qed.

Lemma cli_StreamChunk_Ok w path s resp w' s' : serving w -> cli_StreamChunk Now path w s = (Ok (resp, w'), s') ->
  exists chunks, from_host path chunks /\ encoded ch chunks (sr_Body resp) /\ answered path chunks resp /\ serving w'.
Proof. intros Hsv (s1 & s2 & _ & Hrun & _)%remote_inv. by apply StreamChunk_Ok in Hrun. Qed.

(** *** A file by either way *)

Lemma fetch_by_mode_outside msgs w path : serving w -> valid_key path = true ->
  preserves (same_outside (key_or_wal (path_Join [id; path]))) (fetch_by_mode Now msgs direct id path w).
Proof.
  intros Hsv Hk. destruct (own_key id path Hid Hk) as (_ & Hkey & _). destruct msgs as [[[[m1 m2] m3] m4] m5]. unfold fetch_by_mode.
  destruct direct; [by apply preserves_wrapping; try tc_solve; apply cli_StreamFile_outside|].
  apply preserves_bind; [tc_solve|apply preserves_quiet_key, preserves_wrapping, cli_StreamChunk_outside, Hsv|intros d].
  apply preserves_bind; [tc_solve|intros s; apply only_key; by apply put_body_outside|intros; apply preserves_ret; tc_solve].
Qed.

Lemma fetch_by_mode_Ok msgs w path s resp w' s' : serving w -> valid_key path = true -> fetch_by_mode Now msgs direct id path w s = (Ok (resp, w'), s') ->
  exists chunks, from_host path chunks /\ stored_entry id ch (view s') (pg_entry path chunks) /\ answered path chunks resp /\ serving w'.
Proof.
  intros Hsv Hk. destruct (own_key id path Hid Hk) as (_ & Hkey & _). destruct msgs as [[[[m1 m2] m3] m4] m5]. unfold fetch_by_mode. destruct direct eqn:Hd; intros Hrun.
  { apply wrapping_inv_Ok in Hrun. by apply cli_StreamFile_Ok in Hrun. }
  apply bind_inv_Ok in Hrun as ([resp' w1] & s1 & Hc%wrapping_inv_Ok & Hrun). cbn [fst snd] in Hrun.
  apply cli_StreamChunk_Ok in Hc as (chunks & Hf & Henc & Ha & Hsv'); [|done].
  apply bind_inv_Ok in Hrun as ([] & s2 & Hp & [= -> -> <-]). apply put_body_Ok in Hp; [|done].
  exists chunks. split_and!; [done|by eexists|done|done].
Qed.

(** *** A blob by either way *)

Lemma writeBlobByMode_outside w key body filtered : serving w -> valid_key key = true ->
  preserves (same_outside (key_or_wal key)) (writeBlobByMode direct ch key body filtered w).
Proof.
  intros Hsv Hk. unfold writeBlobByMode, cli_WriteBlob. destruct direct eqn:Hd; [|destruct filtered]; (apply preserves_bind; [tc_solve| |intros; apply preserves_ret; tc_solve]).
  - apply checked_preserves; [tc_solve|]. apply call_preserves; [apply key_of_wal|].
    by apply (worker_WriteBlob_outside w {| wq_RepoPath := key; wq_Body := body; wq_Filtered := filtered |}).
  - intros s. apply only_key. by apply put_filtered_outside.
  - intros s. apply only_key. by apply put_body_outside.
Qed.

Lemma writeBlobByMode_Ok w key body filtered s n sum w' s' : serving w -> valid_key key = true -> ~ wal_key key ->
  writeBlobByMode direct ch key body filtered w s = (Ok (n, sum, w'), s') ->
  serving w' /\ if filtered
  then exists stored, encoded ch [body] stored /\ view s' !! key = Some stored /\ n = Z.of_nat (slen body) /\ sum = Sum256 body
  else view s' !! key = Some body.
Proof.
  intros Hsv Hk Hnw. unfold writeBlobByMode, cli_WriteBlob. destruct direct eqn:Hd; [|destruct filtered]; intros Hrun.
  - apply bind_inv_Ok in Hrun as ([resp w1] & s0 & Hc & Hrun). injection Hrun as <- <- <- <-.
    apply remote_inv in Hc as (s1 & s2 & _ & Hw & Hq). apply worker_WriteBlob_Ok in Hw as [Hsv' Hv]; [|done..]. split; [done|]. cbn [wq_Filtered wq_RepoPath wq_Body] in Hv.
    destruct filtered; [|by rewrite Hq]. destruct Hv as (stored & He & Hv & Hb & Hs). exists stored. by rewrite Hq.
  - apply bind_inv_Ok in Hrun as (res & s1 & Hp & Hrun). injection Hrun as <- <- <- <-.
    apply put_filtered_Ok in Hp as (stored & ? & ? & ? & ?); [|done]. split; [done|]. by exists stored.
  - apply bind_inv_Ok in Hrun as ([] & s1 & Hp & Hrun). injection Hrun as <- <- <- <-. apply put_body_Ok in Hp; done.
Qed.

(** *** The manifest by either way *)

Lemma worker_Commit_tried w tmp final c s r s' : valid_key tmp = true -> valid_key final = true -> copyable tmp = true -> tmp <> final ->
  view s !! tmp = Some c -> worker_Commit tmp final w s = (r, s') ->
  same_outside (fun q => q = tmp \/ q = final) s s' /\
  ((view s' !! final = view s !! final /\ forall w', r <> Ok (Ok tt, w')) \/ view s' !! final = Some c) /\ forall a w', r = Ok (a, w') -> w' = w.
Proof.
  intros Ht Hf Hc Hne Htmp. unfold worker_Commit. destruct (negb _); [intros [= <- <-]; split_and!; [done|by left|by intros a w' [= _ <-]]|].
  unfold bind, try, wrapping. destruct (w_backend w) as [b|]; cbn [deref_or_panic]; [|intros [= <- <-]; split_and!; [done|by left|by intros a w' [= _ <-]]].
  unfold ret at 1. destruct (be_Commit tmp final s) as [rc s1] eqn:E. destruct (commit_tried (H1:=rb_laws b) tmp final c s rc s1) as [Ho Hv]; try done; [by rewrite rb_view|].
  rewrite !rb_view in Hv. apply rb_outside in Ho. destruct rc as [[]|e]; cbn [map_error]; intros [= <- <-]; (split_and!; [done| |by intros a w' [= _ <-]]); [right|].
  - by destruct Hv as [[_ ?]|?].
  - destruct Hv as [[? _]|?]; [by left|by right].
Qed.

Lemma cli_Commit_tried w tmp final c s r s' : serving w -> valid_key tmp = true -> valid_key final = true -> copyable tmp = true -> tmp <> final ->
  ~ wal_key tmp -> ~ wal_key final -> view s !! tmp = Some c -> cli_Commit tmp final w s = (r, s') ->
  same_outside (fun q => q = tmp \/ q = final \/ wal_key q) s s' /\
  ((view s' !! final = view s !! final /\ isOk r = false) \/ view s' !! final = Some c) /\ forall a w', r = Ok (a, w') -> w' = w.
Proof.
  intros Hsv Ht Hf Hc Hne Hnt Hnf Htmp. unfold cli_Commit, checked. unfold bind at 1. destruct (call _ _ w s) as [rc s1] eqn:E.
  assert (Hmono : forall (K : string -> Prop) s1 s2, (forall q, K q -> q = tmp \/ q = final \/ wal_key q) -> same_outside K s1 s2 -> same_outside (fun q => q = tmp \/ q = final \/ wal_key q) s1 s2).
  { intros K s2 s3 HK. by apply same_outside_mono. }
  intros Hrun. assert (Es : s' = s1 /\ (isOk r = true -> exists a w', rc = Ok (Ok (Ok tt), w') /\ r = Ok (a, w'))).
  { destruct rc as [[rr w']|e]; [|by injection Hrun as <- <-]. unfold bind, of_result, ret in Hrun.
    destruct rr as [[[]|e]|e]; cbn in Hrun; injection Hrun as <- <-; (split; [done|]); intros; try done. by eexists _, _. }
  destruct Es as [-> Hr]. clear Hrun. apply call_cases in E as [(err & -> & Hq)|(s2 & s3 & rh & Hq1 & Eh & Hq2 & Hrc)].
  - split_and!; [eapply Hmono, Hq; tauto|left; split; [by apply Hq|]|intros a w' ->; by destruct Hr as (? & ? & ? & _)].
    destruct (isOk r) eqn:Er; [|done]. by destruct (Hr eq_refl) as (? & ? & ? & _).
  - apply worker_Commit_tried with (c:=c) in Eh as (Ho & Hv & Hw); [|done..|by rewrite Hq1]. split_and!.
    + etrans; [eapply Hmono, Hq1; tauto|]. etrans; [eapply Hmono, Ho; tauto|]. eapply Hmono, Hq2; tauto.
    + rewrite (Hq2 _ Hnf). destruct Hv as [[Hv Hno]|?]; [left|by right]. rewrite Hv, (Hq1 _ Hnf). split; [done|].
      destruct (isOk r) eqn:Er; [|done]. destruct (Hr eq_refl) as (a & w' & -> & _). destruct rh as [[a' w1]|e]; [|done].
      destruct Hrc as (rr & [= <- <-] & Ha). specialize (Ha _ eq_refl). subst a'. by destruct (Hno w').
    + intros a w' ->. destruct (Hr eq_refl) as (a1 & w1 & -> & [= _ <-]). destruct rh as [[a' w2]|e]; [|done]. destruct Hrc as (rr & [= _ <-] & _). by eapply Hw.
Qed.
End serving.
