(* ===== verification/WorkerRunSpec.v ===== *)
(** * A backup through a worker, from its start to its end

    The files, the labels and the manifest that end up in the storage when the caller drives a worker over
    the wire, by either way of writing, and the bracket around them. *)

From S2P Require Import Prelude Sha256 Lsn Wal Storage Keys Host Time Json JsonSpec Manifest ManifestSpec Worlds Archive PageChecksum Filter Verify VerifySpec Config Creds Mint Restore RestoreSpec Rpc Bracket BracketSpec Resume Backup BackupSpec PgSql PgSqlSpec Parallel ParallelSpec Worker WorkerSpec WorkerBackup WorkerBackupSpec.

Section driving.
Context {W : Type} `{BackendLaws W, !Host W, !HostLaws W, !Clock W, !ClockLaws W, !Pg W, !PgLaws W, FilterLibs, !Dialing W, !DialingQuiet W, !SharedStorage W,
  !WorkerHost W, !WorkerHostLaws W, !AgeKeys, !Transport W, !TransportQuiet W}.
Context (Now : W -> time) (direct : bool) (id dir : string) (opts : BackupOptions).
Hypothesis Hid : own_id id.

(** A worker that was configured for this backup. *)
Definition ready (w : Worker) : Prop := serving direct id dir (bo_Filter opts) w.

(** ** Files of the host *)

(** What is stored of a file: what the host had under its path, read to its end. *)
Record fetched (path : string) (e : tar_entry) : Prop := {
  ft_name : te_Name e = path;
  ft_flag : te_Typeflag e = "0"%char;
  ft_read : from_host dir path (te_chunks e);
}.

Lemma fetched_names paths es : Forall2 fetched paths es -> te_Name <$> es = paths.
Proof. induction 1 as [|f e paths es Hf _ IH]; [done|]. cbn. by rewrite (ft_name _ _ Hf), IH. Qed.

(** A path that may be the name of a file in the manifest. *)
Record path_ok (path : string) : Prop := {
  po_key : valid_key path = true;
  po_free : path ∉ reserved_names;
  po_utf8 : valid_utf8 path = true;
}.

Lemma fetched_ok paths es : Forall path_ok paths -> Forall2 fetched paths es -> Forall entry_ok es /\ Forall (fun e => te_Typeflag e = "0"%char) es.
Proof.
  intros Hp. induction 1 as [|path e paths es [Hn Hfl Hr] _ IH]; [by split|]. apply Forall_cons in Hp as [[Hk Hfree Hu] Hp].
  destruct (IH Hp) as [Hes Hreg]. split; (constructor; [|done]); [|done]. split; rewrite ?Hn; [done..|]. by eapply from_host_fits.
Qed.

(** One more file. *)
Lemma one_more es mb (s s' : W) name chunks resp : valid_key name = true -> Forall (fun e => valid_key (te_Name e) = true) es -> name ∉ te_Name <$> es ->
  all_stored id opts es mb s -> same_outside (key_or_wal (path_Join [id; name])) s s' ->
  stored_entry id (bo_Filter opts) (view s') (pg_entry name chunks) -> answered name chunks resp ->
  all_stored id opts (es ++ [pg_entry name chunks]) (AddFile mb (sr_Path resp) (sr_Bytes resp) (sr_SHA256 resp) (sr_ModTime resp)) s'.
Proof.
  intros Hk Hes Hni [Hrec Hst] Hout Hse (-> & -> & ->). split.
  - rewrite b_files_AddFile. apply Forall2_app; [done|]. by constructor.
  - apply Forall_app. split; [by apply (stored_others id opts Hid name es s s')|by apply Forall_singleton].
Qed.

Lemma name_key_hidden name q : valid_key name = true -> name <> "backup_manifest" -> key_or_wal (path_Join [id; name]) q -> hidden_key id q.
Proof. intros Hk Hne [->|?]; [right|by left]. by exists name. Qed.

(** What is known of the files that are done. *)
Definition gathered (paths : list string) (acc : option error * tally * Worker) (s : W) : Prop :=
  ready (snd acc) /\
  (fst (fst acc) = None -> exists es, Forall2 fetched paths es /\ all_stored id opts es (tl_mb (snd (fst acc))) s /\ tl_files (snd (fst acc)) = Z.of_nat (length es)).

Lemma fetch_step_spec late files f acc s : listing_ok (files ++ [f]) -> gathered (fe_Path <$> files) acc s ->
  exists acc' s', fetch_step Now late direct id None acc f s = (Ok acc', s') /\
    same_outside (hidden_key id) s s' /\ gathered (fe_Path <$> files ++ [f]) acc' s'.
Proof.
  intros [Hf Hnd] [Hr Ht]. apply Forall_app in Hf as [Hfs Hf]. apply Forall_cons in Hf as [[Hk Hfree _ _] _]. rewrite fmap_app in Hnd. apply NoDup_app in Hnd as (_ & Hnew & _).
  assert (Hne : fe_Path f <> "backup_manifest").
  { intros E. rewrite E in Hfree. apply Hfree. unfold reserved_names. in_list. }
  destruct acc as [[first t] w]. cbn [fst snd] in *. unfold fetch_step. destruct (bool_decide (is_Some first) && _) eqn:Eb.
  { eexists _, s. split_and!; [done|done|]. split; [done|]. cbn [fst snd]. intros ->. done. }
  cbn [mbind option_bind]. unfold bind, try. unfold fetch_file. match goal with |- context [fetch_by_mode Now ?m _ _ _ _] => set (msgs := m) end.
  pose proof (fetch_by_mode_outside Now direct id dir (bo_Filter opts) Hid msgs w (fe_Path f) Hr Hk s) as Hout.
  destruct (fetch_by_mode Now msgs direct id (fe_Path f) w s) as [[[resp w1]|err] s1] eqn:E; cbn [snd] in Hout; eexists _, s1; (split_and!; [done|eapply same_outside_mono, Hout; intros q; by apply name_key_hidden|]).
  - apply (fetch_by_mode_Ok Now direct id dir (bo_Filter opts)) in E as (chunks & Hfrom & Hst & Ha & Hr1); [|done..]. split; [done|]. cbn [fst snd]. intros Hfirst.
    destruct (Ht Hfirst) as (es & Htk & Has & Hn). exists (es ++ [pg_entry (fe_Path f) chunks]). rewrite fmap_app. split_and!.
    + apply Forall2_app; [done|by constructor].
    + eapply one_more; [done| | |done..].
      * apply (Forall_fmap te_Name (fun n => valid_key n = true)). rewrite (fetched_names _ _ Htk), Forall_fmap. eapply Forall_impl; [exact Hfs|]. intros g Hg. apply Hg.
      * rewrite (fetched_names _ _ Htk). intros Hin. by apply (Hnew _ Hin), list_elem_of_singleton.
    + cbn [add_streamed tl_files]. rewrite length_app, Hn. cbn. lia.
  - split; [done|]. cbn [fst snd]. by destruct first.
Qed.

Lemma fetch_loop late files done acc s r s' : listing_ok (done ++ files) -> gathered (fe_Path <$> done) acc s ->
  forM files acc (fetch_step Now late direct id None) s = (r, s') ->
  same_outside (hidden_key id) s s' /\ forall acc', r = Ok acc' -> gathered (fe_Path <$> done ++ files) acc' s'.
Proof.
  revert done acc s. induction files as [|f files IH]; intros done acc s Hok Ht; cbn [forM].
  { intros [= <- <-]. rewrite app_nil_r in *. split; [done|]. by intros acc' [= <-]. }
  replace (done ++ f :: files) with ((done ++ [f]) ++ files) in * by by rewrite <- app_assoc.
  assert (Hok1 : listing_ok (done ++ [f])).
  { destruct Hok as [Hf Hnd]. apply Forall_app in Hf as [Hf _]. rewrite fmap_app in Hnd. by apply NoDup_app in Hnd as (? & _). }
  unfold bind. destruct (fetch_step_spec late done f acc s Hok1 Ht) as (acc1 & s1 & -> & Hout & Ht1). intros Hrun.
  destruct (IH _ _ _ Hok Ht1 Hrun) as [Hh Hres]. split; [by etrans|done].
Qed.

(** Either all the files are stored, or there is an error. *)
Lemma fetch_files_spec late files mb w s r s' : listing_ok files -> b_files mb = [] -> ready w ->
  fetch_files Now late direct id None files mb w s = (r, s') ->
  same_outside (hidden_key id) s s' /\
  forall t w', r = Ok (t, w') -> ready w' /\
    exists es, Forall2 fetched (fe_Path <$> files) es /\ all_stored id opts es (tl_mb t) s' /\ tl_files t = Z.of_nat (length es).
Proof.
  intros Hok Hmb Hr. unfold fetch_files, bind. destruct (forM files _ _ s) as [d s1] eqn:E.
  apply (fetch_loop late files []) in E as [Hout Hd]; [|done|].
  2:{ split; [done|]. intros _. exists []. cbn. split_and!; [done| |done]. split; [by rewrite Hmb|done]. }
  destruct d as [[[first t] w1]|err]; [|intros [= <- <-]; by split]. destruct (Hd _ eq_refl) as [Hr1 Ht1]. cbn [fst snd] in *.
  destruct first as [err|]; intros [= <- <-]; (split; [done|]); [done|]. intros t' w' [= <- <-]. split; [done|by apply Ht1].
Qed.

(** ** The labels *)

Lemma label_names_valid name : name ∈ label_names -> valid_key name = true.
Proof. intros Hn. unfold label_names in Hn. set_unfold in Hn. by destruct_or! Hn; subst name. Qed.

Lemma add_label_spec es name body mb w s r s' : ready w -> name ∈ label_names -> Forall (fun e => valid_key (te_Name e) = true) es ->
  name ∉ te_Name <$> es -> all_stored id opts es mb s -> add_label Now direct opts id name body (mb, w) s = (r, s') ->
  same_outside (hidden_key id) s s' /\
  forall mb' w', r = Ok (mb', w') -> ready w' /\ all_stored id opts (es ++ [pg_entry name [body]]) mb' s'.
Proof.
  intros Hr Hname Hes Hni Hst Hrun. pose proof (label_names_valid name Hname) as Hk. destruct (own_key id name Hid Hk) as (_ & Hkey & Hnw).
  pose proof (writeBlobByMode_outside direct id dir (bo_Filter opts) w (path_Join [id; name]) body true Hr Hkey s) as Hout.
  unfold add_label, bind at 1, wrapping in Hrun.
  destruct (writeBlobByMode direct (bo_Filter opts) (path_Join [id; name]) body true w s) as [[[[n sum] w1]|err] s1] eqn:E; cbn [map_error snd] in *.
  2:{ injection Hrun as <- <-. split; [|done]. eapply same_outside_mono, Hout. intros q. by apply label_key_hidden. }
  unfold bind, read, ret in Hrun. injection Hrun as <- <-. split; [eapply same_outside_mono, Hout; intros q; by apply label_key_hidden|].
  intros mb' w' [= <- <-]. apply (writeBlobByMode_Ok direct id dir) in E as (Hr' & stored & Henc & Hv & -> & ->); [|done..]. split; [done|].
  destruct Hst as [Hrec Hst]. split.
  - rewrite b_files_AddFile. apply Forall2_app; [done|]. constructor; [|constructor]. done.
  - apply Forall_app. split; [by apply (stored_others id opts Hid name es s s1)|]. apply Forall_singleton. exists stored. by split.
Qed.

Lemma add_labels_spec es stop d s r s' : ready (snd d) -> Forall (fun e => valid_key (te_Name e) = true) es ->
  (forall n, n ∈ label_names -> n ∉ te_Name <$> es) -> all_stored id opts es (fst d) s -> add_labels Now direct opts id stop d s = (r, s') ->
  same_outside (hidden_key id) s s' /\ forall mb' w', r = Ok (mb', w') -> ready w' /\ all_stored id opts (es ++ label_entries stop) mb' s'.
Proof.
  destruct d as [mb w]. intros Hr Hes Hni Hst. unfold add_labels, bind, label_entries, labels_of.
  destruct (add_label Now direct opts id "backup_label" (so_LabelFile stop) (mb, w) s) as [r1 s1] eqn:E1.
  apply (add_label_spec es) in E1 as [Hh1 Hok1]; [|done|unfold label_names; in_list|done|apply Hni; unfold label_names; in_list|done].
  destruct r1 as [[mb1 w1]|err]; [|intros [= <- <-]; by split]. destruct (Hok1 _ _ eq_refl) as [Hr1 Hst1].
  destruct (0 <? slen (so_SpcMapFile stop))%nat; [|intros [= <- <-]; split; [done|]; by intros mb' w' [= <- <-]].
  intros E2. apply (add_label_spec (es ++ [pg_entry "backup_label" [so_LabelFile stop]])) in E2 as [Hh2 Hok2]; [|done|unfold label_names; in_list| | |done].
  - split; [by etrans|]. intros mb' w' ->. specialize (Hok2 _ _ eq_refl). by rewrite <- app_assoc in Hok2.
  - apply Forall_app. split; [done|by constructor].
  - rewrite fmap_app, elem_of_app. intros [Hin|Hin%list_elem_of_singleton]; [|done]. revert Hin. apply Hni. unfold label_names. in_list.
Qed.

(** ** The manifest *)

(** A file of the backup or the archive. *)
Definition kept_or_wal (q : string) : Prop := kept_key id q \/ wal_key q.

Lemma plain_blob msg n body w s r s' : ready w -> n ∈ reserved_names ->
  wrapping msg (writeBlobByMode direct (bo_Filter opts) (path_Join [id; n]) body false w) s = (r, s') ->
  same_outside (key_or_wal (path_Join [id; n])) s s' /\ forall a w', r = Ok (a, w') -> ready w' /\ view s' !! path_Join [id; n] = Some body.
Proof.
  intros Hr Hn. assert (Hkn : valid_key n = true) by (unfold reserved_names in Hn; set_unfold in Hn; by destruct_or! Hn; subst n).
  destruct (own_key id n Hid Hkn) as (_ & Hkey & Hnw). unfold wrapping.
  pose proof (writeBlobByMode_outside direct id dir (bo_Filter opts) w (path_Join [id; n]) body false Hr Hkey s) as Hout.
  destruct (writeBlobByMode _ _ _ _ _ w s) as [[[[m sum] w1]|err] s1] eqn:E; cbn [map_error snd] in *; intros [= <- <-]; (split; [done|]); [|done].
  intros a w' [= _ <-]. by apply (writeBlobByMode_Ok direct id dir) in E.
Qed.

Lemma kept_other n q (s s' : W) : valid_key n = true -> valid_key q = true -> q <> n ->
  same_outside (key_or_wal (path_Join [id; n])) s s' -> view s' !! path_Join [id; q] = view s !! path_Join [id; q].
Proof. intros Hn Hq Hne Ho. apply Ho. intros [E|Hw]; [by apply own_key_inj in E|by apply (own_key id q Hid Hq)]. Qed.

Lemma kept_mono n (s s' : W) : n ∈ reserved_names -> same_outside (key_or_wal (path_Join [id; n])) s s' -> same_outside kept_or_wal s s'.
Proof. intros Hn. apply same_outside_mono. intros q [->|?]; [left; by exists n|by right]. Qed.

(** The commit of the manifest by the caller or by the worker. *)
Definition commit_by_mode (w : Worker) : M W Worker :=
  let tmp := path_Join [id; "backup_manifest.tmp"] in
  let final := path_Join [id; "backup_manifest"] in
  if direct then d <- wrapping "backup: rpc.Commit manifest" (cli_Commit tmp final w) ;; ret (snd d)
  else wrapping "backup: orch.Commit manifest" (be_Commit tmp final) ;;; ret w.

Lemma commit_by_mode_tried w man s r s' : ready w -> view s !! path_Join [id; "backup_manifest.tmp"] = Some man -> commit_by_mode w s = (r, s') ->
  same_outside (fun q => q = path_Join [id; "backup_manifest.tmp"] \/ q = path_Join [id; "backup_manifest"] \/ wal_key q) s s' /\
  ((view s' !! path_Join [id; "backup_manifest"] = view s !! path_Join [id; "backup_manifest"] /\ isOk r = false) \/
   view s' !! path_Join [id; "backup_manifest"] = Some man) /\ forall w', r = Ok w' -> ready w'.
Proof.
  intros Hr Htmp. destruct (own_key id "backup_manifest.tmp" Hid eq_refl) as (_ & Hkt & Hnt). destruct (own_key id "backup_manifest" Hid eq_refl) as (_ & Hkm & Hnm).
  pose proof (own_copyable id "backup_manifest.tmp" Hid eq_refl eq_refl) as Hcp.
  assert (Hne : path_Join [id; "backup_manifest.tmp"] <> path_Join [id; "backup_manifest"]) by (intros E; by apply own_key_inj in E).
  unfold commit_by_mode. destruct direct eqn:Hd; unfold bind, wrapping.
  - destruct (cli_Commit _ _ w s) as [rc s1] eqn:E. apply (cli_Commit_tried Now direct id dir (bo_Filter opts)) with (c:=man) in E as (Ho & Hv & Hw); try done.
    destruct rc as [[[] w1]|err]; cbn [map_error snd]; intros [= <- <-]; (split_and!; [done|destruct Hv as [[? ?]|?]; [by left|by right]|]); [|done].
    intros w' [= <-]. by rewrite (Hw tt w1 eq_refl).
  - destruct (be_Commit _ _ s) as [rc s1] eqn:E. apply commit_tried with (c:=man) in E as (Ho & Hv); try done.
    destruct rc as [[]|err]; cbn [map_error]; intros [= <- <-]; (split_and!; [eapply same_outside_mono, Ho; tauto|destruct Hv as [[? ?]|?]; [by left|by right]|]); [|done].
    by intros w' [= <-].
Qed.

(** Whatever fails, the manifest is as it was and the caller hears of it, or it is in place with its sidecar. *)
Lemma publish_by_mode_spec man sc w s r s' : ready w -> publish_by_mode direct opts id man sc w s = (r, s') ->
  same_outside kept_or_wal s s' /\
  ((view s' !! path_Join [id; "backup_manifest"] = view s !! path_Join [id; "backup_manifest"] /\ isOk r = false) \/
   (view s' !! path_Join [id; "backup_manifest"] = Some man /\ view s' !! path_Join [id; "Storage-Metadata.json"] = Some (MarshalIndent 0 (sidecar_json sc)))) /\
  forall w', r = Ok w' -> ready w'.
Proof.
  intros Hr. unfold publish_by_mode. unfold bind at 1. destruct (wrapping "backup: manifest.tmp" _ s) as [r1 s1] eqn:E1.
  apply plain_blob in E1 as [Ho1 Hd1]; [|done|unfold reserved_names; in_list].
  pose proof (kept_other "backup_manifest.tmp" "backup_manifest" s s1 eq_refl eq_refl ltac:(done) Ho1) as Hm1.
  apply kept_mono in Ho1; [|unfold reserved_names; in_list]. destruct r1 as [[[n1 sum1] w1]|e]; [|intros [= <- <-]; split_and!; [done|by left|done]].
  destruct (Hd1 _ _ eq_refl) as [Hr1 Hv1]. unfold bind at 1, of_result at 1. cbn [MarshalSidecar map_error snd].
  unfold bind at 1. destruct (wrapping "backup: sidecar" _ s1) as [r2 s2] eqn:E2. apply plain_blob in E2 as [Ho2 Hd2]; [|done|unfold reserved_names; in_list].
  pose proof (kept_other "Storage-Metadata.json" "backup_manifest" s1 s2 eq_refl eq_refl ltac:(done) Ho2) as Hm2.
  pose proof (kept_other "Storage-Metadata.json" "backup_manifest.tmp" s1 s2 eq_refl eq_refl ltac:(done) Ho2) as Ht2.
  apply kept_mono in Ho2; [|unfold reserved_names; in_list]. assert (Ho : same_outside kept_or_wal s s2) by by etrans.
  destruct r2 as [[[n2 sum2] w2]|e]; [|intros [= <- <-]; split_and!; [done|left; split; [congruence|done]|done]].
  destruct (Hd2 _ _ eq_refl) as [Hr2 Hv2]. cbn [snd]. change (commit_by_mode w2 s2 = (r, s') -> 
    same_outside kept_or_wal s s' /\
    ((view s' !! path_Join [id; "backup_manifest"] = view s !! path_Join [id; "backup_manifest"] /\ isOk r = false) \/
     (view s' !! path_Join [id; "backup_manifest"] = Some man /\ view s' !! path_Join [id; "Storage-Metadata.json"] = Some (MarshalIndent 0 (sidecar_json sc)))) /\
    forall w', r = Ok w' -> ready w').
  intros E3. apply commit_by_mode_tried with (man:=man) in E3 as (Ho3 & Hv3 & Hw3); [|done|congruence]. split_and!.
  - etrans; [exact Ho|]. eapply same_outside_mono, Ho3. intros q [->|[->|?]]; [left; exists "backup_manifest.tmp"|left; exists "backup_manifest"|by right]; (split; [unfold reserved_names; in_list|done]).
  - destruct Hv3 as [[Hv3 Hf]|Hv3]; [left; split; [congruence|done]|right; split; [done|]]. rewrite Ho3; [done|].
    intros [E|[E|E]]; [by apply own_key_inj in E..|by apply (own_key id "Storage-Metadata.json" Hid eq_refl)].
  - done.
Qed.

(** The manifest of files that are all stored. *)
Lemma publish_by_mode_complete es mb stop sysID dirs records w s r s' : ready w -> Forall entry_ok es -> Forall (fun e => te_Typeflag e = "0"%char) es ->
  all_stored id opts es mb s -> Forall segment_ok records ->
  publish_by_mode direct opts id (Finalize mb stop) (parallel_sidecar opts sysID dirs records) w s = (r, s') ->
  ((view s' !! path_Join [id; "backup_manifest"] = view s !! path_Join [id; "backup_manifest"] /\ isOk r = false) \/
   parallel_complete id opts sysID dirs es (view s')) /\ forall w', r = Ok w' -> ready w'.
Proof.
  intros Hr Hes Hreg [Hrec Hst] Hseg Hrun. apply publish_by_mode_spec in Hrun as (Hout & Hv & Hw); [|done]. split; [|done].
  destruct Hv as [?|[Hman Hsc]]; [by left|right]. destruct (recorded_ok _ _ Hes Hrec) as [Hok Hl].
  split; [split; rewrite regulars_all by done|by exists records].
  - eexists _, _. split; [exact Hman|]. split; [by apply restore_parses_Finalize|done].
  - rewrite Forall_forall in *. intros e He. eapply stored_entry_outside; [exact Hout| |by apply Hst].
    intros [Hk|Hk]; [by eapply entry_not_kept; [|by apply Hes|]|]. by apply (own_key id (te_Name e) Hid (eo_key _ (Hes e He))).
Qed.

(** ** The segments of the bracket *)

Definition pg_wal_path (seg : string) : string := "pg_wal/" +:+ seg.

(** Paths that may follow the files [es]. *)
Record fresh_paths (es : list tar_entry) (paths : list string) : Prop := {
  fp_ok : Forall path_ok paths;
  fp_nodup : NoDup paths;
  fp_fresh p : p ∈ paths -> p ∉ te_Name <$> es;
}.

Lemma path_ok_not_manifest p : path_ok p -> p <> "backup_manifest".
Proof. intros [_ Hf _] ->. apply Hf. unfold reserved_names. in_list. Qed.

Lemma grab_loop segs es d s r s' : ready (snd d) -> Forall entry_ok es -> fresh_paths es (pg_wal_path <$> segs) -> all_stored id opts es (fst d) s ->
  forM segs d (grab_segment Now direct id) s = (r, s') ->
  same_outside (hidden_key id) s s' /\
  forall mb' w', r = Ok (mb', w') -> ready w' /\ exists gs, Forall2 fetched (pg_wal_path <$> segs) gs /\ all_stored id opts (es ++ gs) mb' s'.
Proof.
  revert es d s. induction segs as [|seg segs IH]; intros es [mb w] s Hr Hes [Hp Hn Hfr] Hst; cbn [forM].
  { intros [= <- <-]. split; [done|]. intros mb' w' [= <- <-]. split; [done|]. exists []. by rewrite app_nil_r. }
  cbn [fmap list_fmap fst snd] in *. apply Forall_cons in Hp as [Hp1 Hp]. apply NoDup_cons in Hn as [Hn1 Hn].
  unfold grab_segment at 1. fold (pg_wal_path seg). unfold bind at 1 2. match goal with |- context [fetch_by_mode Now ?m _ _ _ _ _] => set (msgs := m) end.
  pose proof (fetch_by_mode_outside Now direct id dir (bo_Filter opts) Hid msgs w (pg_wal_path seg) Hr (po_key _ Hp1) s) as Hout.
  assert (Hh : forall s1, same_outside (key_or_wal (path_Join [id; pg_wal_path seg])) s s1 -> same_outside (hidden_key id) s s1).
  { intros s1. apply same_outside_mono. intros q. apply name_key_hidden; [apply Hp1|by apply path_ok_not_manifest]. }
  destruct (fetch_by_mode Now msgs direct id (pg_wal_path seg) w s) as [[[resp w1]|err] s1] eqn:E; cbn [snd] in Hout; [|intros [= <- <-]; split; [by apply Hh|done]].
  apply (fetch_by_mode_Ok Now direct id dir (bo_Filter opts)) in E as (chunks & Hfrom & Hse & Ha & Hr1); [|done..|apply Hp1]. unfold ret at 1. intros Hrun.
  assert (Hst1 : all_stored id opts (es ++ [pg_entry (pg_wal_path seg) chunks]) (AddFile mb (sr_Path resp) (sr_Bytes resp) (sr_SHA256 resp) (sr_ModTime resp)) s1).
  { apply (one_more es mb s s1); [apply Hp1| |apply Hfr; in_list|done..]. eapply Forall_impl; [exact Hes|]. intros e He. apply He. }
  destruct (fetched_ok [pg_wal_path seg] [pg_entry (pg_wal_path seg) chunks]) as [Hes1 _]; [by constructor|by constructor|].
  assert (Hfr1 : fresh_paths (es ++ [pg_entry (pg_wal_path seg) chunks]) (pg_wal_path <$> segs)).
  { split; [done|done|]. intros p Hin. rewrite fmap_app. intros [Hi|Hi%list_elem_of_singleton]%elem_of_app; [revert Hi; apply Hfr; by right|]. cbn in Hi. by subst p. }
  assert (Hes2 : Forall entry_ok (es ++ [pg_entry (pg_wal_path seg) chunks])) by by apply Forall_app.
  match type of Hrun with forM _ ?d _ _ = _ => destruct (IH _ d s1 Hr1 Hes2 Hfr1 Hst1 Hrun) as [Hq Hok] end.
  split; [etrans; [by apply Hh|done]|]. intros mb' w' ->. destruct (Hok _ _ eq_refl) as (Hr' & gs & Hf & Has). split; [done|].
  exists (pg_entry (pg_wal_path seg) chunks :: gs). split; [by constructor|]. by rewrite <- app_assoc in Has.
Qed.

(** The segments that were taken along. *)
Definition grabs : bool := String.eqb (bo_WALSource opts) WALSourceWalgrab.
Definition bracket_paths (cid : ClusterIdentity) (start : StartInfo) (stop : StopInfo) : list string :=
  pg_wal_path <$> WALSegmentsBetween (si_Timeline start) (si_LSN start) (so_LSN stop) (id_WALSegmentSize cid).
Definition grabbed (cid : ClusterIdentity) (start : StartInfo) (stop : StopInfo) (gs : list tar_entry) : Prop :=
  if grabs then Forall2 fetched (bracket_paths cid start stop) gs else gs = [].

Lemma AcquireBracketWAL_Ok aq (s : W) segs s' : AcquireBracketWAL aq s = (Ok segs, s') ->
  segs = WALSegmentsBetween (aq_Timeline aq) (aq_StartLSN aq) (aq_StopLSN aq) (aq_SegSize aq).
Proof.
  unfold AcquireBracketWAL. repeat match goal with |- context [if ?b then _ else _] => destruct b end; try done;
    intros Hrun; try (apply bind_inv_Ok in Hrun as (? & ? & _ & Hrun)); by injection Hrun as <- _.
Qed.

Lemma grab_segments_spec cid start stop es d s r s' : ready (snd d) -> Forall entry_ok es ->
  (grabs = true -> fresh_paths es (bracket_paths cid start stop)) -> all_stored id opts es (fst d) s ->
  (if grabs then forM (WALSegmentsBetween (si_Timeline start) (si_LSN start) (so_LSN stop) (id_WALSegmentSize cid)) d (grab_segment Now direct id) else ret d) s = (r, s') ->
  same_outside (hidden_key id) s s' /\
  forall mb' w', r = Ok (mb', w') -> ready w' /\ exists gs, grabbed cid start stop gs /\ all_stored id opts (es ++ gs) mb' s'.
Proof.
  intros Hr Hes Hfr Hst. unfold grabbed. destruct grabs; [apply grab_loop; [done|done|by apply Hfr|done]|]. intros [= <- <-]. split; [done|].
  intros mb' w' [= ->]. split; [done|]. exists []. by rewrite app_nil_r.
Qed.

(** ** The end *)

Lemma worker_Done_quiet w : ready w -> quiet (worker_Done w).
Proof.
  intros Hr. unfold worker_Done. apply preserves_bind; [tc_solve| |intros; apply preserves_ret; tc_solve].
  destruct (w_cleanup w) as [c|] eqn:Ec; [|apply preserves_ret; tc_solve].
  apply preserves_bind; [tc_solve|apply preserves_try, (sv_cleanup _ _ _ _ _ Hr c Ec)|intros; apply preserves_ret; tc_solve].
Qed.

Lemma cli_Done_quiet w : ready w -> quiet (cli_Done w).
Proof. intros Hr. apply checked_preserves; [tc_solve|]. apply call_quiet. by apply worker_Done_quiet. Qed.

Lemma parallel_complete_quiet sysID dirs es (s s' : W) : Forall entry_ok es -> Forall (fun e => te_Typeflag e = "0"%char) es -> same_outside wal_key s s' ->
  parallel_complete id opts sysID dirs es (view s) -> parallel_complete id opts sysID dirs es (view s').
Proof.
  intros Hes Hreg Hq [[(text & files & Hm & Hp) Hst] (records & Hseg & Hsc)].
  assert (Hnw : forall n, valid_key n = true -> ~ wal_key (path_Join [id; n])) by (intros n Hn; by apply (own_key id n Hid)).
  split; [split|].
  - exists text, files. by rewrite (Hq _ (Hnw "backup_manifest" eq_refl)).
  - rewrite regulars_all in * by done. rewrite Forall_forall in *. intros e He. eapply stored_entry_outside; [exact Hq|apply Hnw, Hes, He|by apply Hst].
  - exists records. by rewrite (Hq _ (Hnw "Storage-Metadata.json" eq_refl)).
Qed.

Lemma entries_ok_keys es : Forall entry_ok es -> Forall (fun e => valid_key (te_Name e) = true) es.
Proof. intros Hes. eapply Forall_impl; [exact Hes|]. intros e He. apply He. Qed.

Lemma label_entries_regular stop : Forall (fun e => te_Typeflag e = "0"%char) (label_entries stop).
Proof. unfold label_entries, labels_of. by repeat case_match; repeat constructor. Qed.

Lemma grabbed_ok cid start stop es gs : (grabs = true -> fresh_paths es (bracket_paths cid start stop)) -> grabbed cid start stop gs ->
  Forall entry_ok gs /\ Forall (fun e => te_Typeflag e = "0"%char) gs.
Proof. unfold grabbed. destruct grabs; [|by intros _ ->]. intros Hfr Hg. eapply fetched_ok; [|exact Hg]. by apply Hfr. Qed.

Lemma wal_records_spec tl names (s : W) : Forall (fun n => sall plain_char n = true) names ->
  let run := (if walRecordsNeeded (bo_WALSource opts) then wrapping "backup: hash WAL" (hashWALSegments tl names) else ret []) s in
  same_outside wal_key s (snd run) /\ forall recs, fst run = Ok recs -> Forall segment_ok recs.
Proof.
  intros Hn. destruct (walRecordsNeeded _); [|split; [done|]; by intros recs [= <-]]. unfold wrapping. pose proof (hashWALSegments_quiet tl names s) as Hq.
  destruct (hashWALSegments tl names s) as [[recs|e] s1] eqn:E; cbn [snd fst map_error] in *; (split; [done|]); [|done].
  intros recs' [= <-]. by eapply hashWALSegments_ok.
Qed.

(** The manifest of this backup is as it was, or the backup is complete. *)
Definition unpublished {A} (s s' : W) (r : result A) : Prop :=
  view s' !! path_Join [id; "backup_manifest"] = view s !! path_Join [id; "backup_manifest"] /\ isOk r = false.

Lemma publish_and_done {A} (a : A) cid dirs es mb stop records w s r s' : ready w -> Forall entry_ok es -> Forall (fun e => te_Typeflag e = "0"%char) es ->
  all_stored id opts es mb s -> Forall segment_ok records ->
  (w <- publish_by_mode direct opts id (Finalize mb stop) (parallel_sidecar opts (id_SystemIdentifier cid) dirs records) w ;;
   wrapping "backup: rpc.Done" (cli_Done w) ;;; ret a) s = (r, s') ->
  unpublished s s' r \/ (parallel_complete id opts (id_SystemIdentifier cid) dirs es (view s') /\ forall x, r = Ok x -> x = a).
Proof.
  intros Hr Hes Hreg Hst Hseg. unfold bind at 1. destruct (publish_by_mode _ _ _ _ _ w s) as [rp s1] eqn:Ep.
  apply (publish_by_mode_complete es) in Ep as [Hp Hw]; [|done..]. destruct rp as [w1|e].
  2:{ intros [= <- <-]. destruct Hp as [?|?]; [by left|by right]. }
  specialize (Hw w1 eq_refl). pose proof (preserves_wrapping _ "backup: rpc.Done" _ (cli_Done_quiet w1 Hw) s1) as Hq. unfold bind.
  destruct (wrapping "backup: rpc.Done" (cli_Done w1) s1) as [rd s2]; cbn [snd] in Hq. destruct Hp as [[_ ?]|Hp]; [done|].
  destruct rd as [d|e]; intros [= <- <-]; right; (split; [by eapply parallel_complete_quiet|]); [by intros x [= ->]|done].
Qed.

Lemma finish_worker_spec cid dirs start stop t es w s r s' : ready w -> Forall entry_ok (es ++ label_entries stop) ->
  Forall (fun e => te_Typeflag e = "0"%char) es -> (forall n, n ∈ label_names -> n ∉ te_Name <$> es) ->
  (grabs = true -> fresh_paths (es ++ label_entries stop) (bracket_paths cid start stop)) ->
  all_stored id opts es (tl_mb t) s -> finish_worker Now direct opts cid id dirs start stop t w s = (r, s') ->
  unpublished s s' r \/
  exists gs, grabbed cid start stop gs /\ parallel_complete id opts (id_SystemIdentifier cid) dirs (es ++ label_entries stop ++ gs) (view s') /\
    forall res, r = Ok res -> br_BackupID res = id /\ br_Files res = tl_files t.
Proof.
  intros Hr Hes Hreg Hni Hfr Hst. pose proof (hidden_not_manifest id Hid) as Hman. unfold unpublished. set (man := path_Join [id; "backup_manifest"]) in *.
  assert (Hnw : ~ wal_key man) by (intros Hw; apply Hman; by left). unfold finish_worker. unfold bind at 1.
  destruct (add_labels Now direct opts id stop (tl_mb t, w) s) as [r1 s1] eqn:E1.
  apply (add_labels_spec es) in E1 as [Hh1 Hok1]; [|done|by apply entries_ok_keys; apply Forall_app in Hes as [? _]|done..].
  destruct r1 as [[mb1 w1]|err]; [|intros [= <- <-]; left; by rewrite (Hh1 _ Hman)]. destruct (Hok1 _ _ eq_refl) as [Hr1 Hst1].
  unfold bind at 1, wrapping at 1. match goal with |- context [AcquireBracketWAL ?aq s1] =>
    pose proof (AcquireBracketWAL_quiet aq s1) as Hq2; pose proof (AcquireBracketWAL_Ok aq s1) as Hsegs; pose proof (acquired_plain aq s1) as Hplain;
    destruct (AcquireBracketWAL aq s1) as [[segs|err] s2] eqn:E2 end; cbn [snd map_error] in *.
  2:{ intros [= <- <-]. left. by rewrite (Hq2 _ Hnw), (Hh1 _ Hman). }
  specialize (Hsegs _ _ eq_refl). specialize (Hplain _ _ eq_refl). cbn in Hsegs. rewrite Hsegs in Hplain |- *. clear Hsegs segs E2.
  apply (all_stored_quiet id opts Hid _ _ s1 s2) in Hst1; [|by apply entries_ok_keys|done].
  unfold bind at 1. fold grabs. match goal with |- context [match ?m s2 with _ => _ end] => destruct (m s2) as [r3 s3] eqn:E3 end.
  apply (grab_segments_spec cid start stop (es ++ label_entries stop)) in E3 as [Hh3 Hok3]; [|done..].
  assert (Hm3 : view s3 !! man = view s !! man) by by rewrite (Hh3 _ Hman), (Hq2 _ Hnw), (Hh1 _ Hman).
  destruct r3 as [[mb3 w3]|err]; [|intros [= <- <-]; by left]. destruct (Hok3 _ _ eq_refl) as (Hr3 & gs & Hg & Hst3).
  destruct (grabbed_ok cid start stop (es ++ label_entries stop) gs Hfr Hg) as [Hgok Hgreg].
  rewrite <- app_assoc in Hst3. assert (Hall : Forall entry_ok (es ++ label_entries stop ++ gs)) by by rewrite app_assoc; apply Forall_app.
  assert (Hallreg : Forall (fun e => te_Typeflag e = "0"%char) (es ++ label_entries stop ++ gs)).
  { repeat (apply Forall_app; split); [done|apply label_entries_regular|done]. }
  unfold bind at 1. pose proof (wal_records_spec (si_Timeline start) _ s3 Hplain) as [Hq4 Hrec].
  match goal with |- context [match ?m s3 with _ => _ end] => destruct (m s3) as [r4 s4] end; cbn [fst snd] in Hq4, Hrec.
  assert (Hm4 : view s4 !! man = view s !! man) by by rewrite (Hq4 _ Hnw).
  destruct r4 as [recs|err]; [|intros [= <- <-]; by left]. specialize (Hrec recs eq_refl).
  apply (all_stored_quiet id opts Hid _ _ s3 s4) in Hst3; [|by apply entries_ok_keys|done].
  unfold bind at 1, read at 1. intros Hrun. apply (publish_and_done _ cid dirs (es ++ label_entries stop ++ gs)) in Hrun as [[Hp Hf]|[Hp Hres]]; [|..|done]; [left|right|done..].
  - split; [|done]. fold man in Hp. by rewrite Hp.
  - exists gs. split_and!; [done|done|]. by intros res ->%Hres.
Qed.
End driving.

(** ** The names of segments *)

Lemma segment_path_ok seg : slen seg = 24%nat -> sall is_hexdigit seg = true -> path_ok (pg_wal_path seg).
Proof.
  intros Hl Hx. assert (Hne : seg <> "") by by intros ->. pose proof (plain_seg_path _ (hex_plain seg Hne Hx)) as Hp. split.
  - unfold pg_wal_path. change ("pg_wal/" +:+ seg) with ("pg_wal" +:+ "/" +:+ seg). rewrite valid_key_slash by done. by rewrite (Contains_byte seg tmp_marker "g") by (done || by apply hex_no_byte).
  - unfold pg_wal_path, reserved_names. intros Hin. set_unfold in Hin. by destruct_or! Hin.
  - apply plain_utf8. unfold pg_wal_path. rewrite sall_app. by rewrite (hexdigits_plain seg Hx).
Qed.

Lemma segment_name_hex t a b : sall is_hexdigit (XLogFileName t a b) = true.
Proof. unfold XLogFileName. by rewrite !sall_app, !Format0X_hex. Qed.

Lemma walked_included t excluded fuel r : r ∈ walked fuel t excluded [root_row] -> r = root_row \/ excluded (r_path r) = false.
Proof.
  intros ([|k] & _ & Hr)%walked_elem; [left; by apply list_elem_of_singleton in Hr|right].
  change (Nat.iter (S k) ?f ?w) with (f (Nat.iter k f w)) in Hr. apply next_rows_elem in Hr as (q & _ & Hr). by apply children_elem in Hr as (_ & _ & e & _ & _ & _ & _ & ?).
Qed.

(** What is below [pg_wal] is not listed. *)
Lemma listed_not_wal t f seg : f ∈ listed t -> fe_Path f <> pg_wal_path seg.
Proof.
  intros (r & Hr & Hf)%list_elem_of_omap E. unfold file_of_row in Hf. destruct (_ && _) eqn:Eb; [|done]. injection Hf as <-. cbn in E.
  apply walked_included in Hr as [->|Hx]; [done|]. by rewrite E in Hx.
Qed.

Lemma elem_of_segments s t (start stop : LSN) seg : is_u32 t -> seg ∈ WALSegmentsBetween t start stop s -> slen seg = 24%nat /\ sall is_hexdigit seg = true.
Proof.
  intros Ht. unfold WALSegmentsBetween. destruct (_ || _); [by intros ?%elem_of_nil|].
  match goal with |- context [walSegments_go ?fuel t ?k ?n ?last] => generalize fuel as rounds; intros rounds; generalize n as first; intros first; generalize k as per; generalize last as final end.
  intros final per. revert first. induction rounds as [|rounds IH]; intros first; cbn [walSegments_go]; [by intros ?%elem_of_nil|].
  destruct (first <=? final); [|by intros ?%elem_of_nil]. intros [->|Hin]%elem_of_cons; [|by eapply IH].
  split; [apply slen_XLogFileName; [done|apply u32_range..]|apply segment_name_hex].
Qed.

Lemma bracket_paths_fresh es cid start stop t : is_u32 (si_Timeline start) -> is_u64 (si_LSN start) -> is_u64 (so_LSN stop) -> seg_size_ok (id_WALSegmentSize cid) ->
  (forall n, n ∈ te_Name <$> es -> n ∈ fe_Path <$> listed t) -> fresh_paths (es ++ label_entries stop) (bracket_paths cid start stop).
Proof.
  intros Ht Ha Hb Hs Hes. unfold bracket_paths. split.
  - apply Forall_fmap, Forall_forall. intros seg Hin. apply elem_of_segments in Hin as [? ?]; [|done]. by apply segment_path_ok.
  - apply NoDup_fmap_2; [|by apply WALSegmentsBetween_NoDup]. intros x y E. by injection E.
  - intros p (seg & -> & _)%list_elem_of_fmap. rewrite fmap_app. intros [Hin|Hin]%elem_of_app.
    + apply Hes in Hin as (f & E & Hin)%list_elem_of_fmap. by eapply listed_not_wal.
    + unfold label_entries, labels_of in Hin. case_match; cbn in Hin; set_unfold in Hin; by destruct_or? Hin.
Qed.

(** ** Setting a worker up *)

Section setup.
Context {W : Type} `{BackendLaws W, !Host W, !HostLaws W, !Disk W, FilterLibs, !Dialing W, !DialingQuiet W, !Minting W, !MintingQuiet W,
  !WorkerHost W, !WorkerHostLaws W, !AgeKeys, !Transport W, !TransportQuiet W}.

(** What holds of the values a program ends with. *)
Definition yields {A} (P : A -> Prop) (m : M W A) : Prop := forall s a s', m s = (Ok a, s') -> P a.

Lemma yields_bind {A B} (P : B -> Prop) (m : M W A) k : (forall a, yields P (k a)) -> yields P (bind m k).
Proof. intros Hk s b s' Hrun. apply bind_inv_Ok in Hrun as (a & s1 & _ & Hrun). by eapply Hk. Qed.

Lemma yields_ret {A} (P : A -> Prop) a : P a -> yields P (ret a).
Proof. by intros Ha s b s' [= <- _]. Qed.

Lemma yields_throw {A} (P : A -> Prop) e : yields P (throw e).
Proof. by intros s b s'. Qed.

(** What an opener leaves to be called in the end. *)
Definition tidy (o : opened) : Prop := quiet (snd o).

Lemma with_cleanup_tidy (c : M W unit) m : quiet c -> yields tidy (with_cleanup c m).
Proof. intros Hc. apply yields_bind. intros [b|err]; [by apply yields_ret|]. apply yields_bind. intros. apply yields_throw. Qed.

Lemma OpenBackend_tidy cred : yields tidy (OpenBackendFromCredential (W:=W) cred).
Proof.
  unfold OpenBackendFromCredential, openS3STS, openAzureSAS, openGCSToken, openSFTPKey.
  repeat first [apply yields_bind; intros|apply yields_throw|apply with_cleanup_tidy; quietly|apply yields_ret; unfold tidy; cbn [snd]; quietly|match goal with |- yields _ (match ?x with _ => _ end) => destruct x end].
Qed.

Lemma open_storage_tidy wrap ty path cred : yields (fun r => forall o, r = Ok o -> tidy o) (open_storage (W:=W) wrap ty path cred).
Proof.
  assert (Hw : forall (m : M W opened), yields tidy m -> yields (fun r => forall o, r = Ok o -> tidy o) (r <- try m ;; ret (map_error wrap r))).
  { intros m Hm s r s' Hrun. apply bind_inv_Ok in Hrun as (r1 & s1 & Htry & Hrun). unfold try in Htry. injection Hrun as <- _.
    destruct (m s) as [[o|e] s2] eqn:E; injection Htry as <- _; [|done]. intros o' [= <-]. by eapply Hm. }
  unfold open_storage. destruct (String.eqb ty "posix"); [destruct (String.eqb path ""); [by apply yields_ret|apply Hw]|].
  - unfold openWorkerPOSIX. apply yields_bind. intros b. apply yields_ret. unfold tidy. cbn [snd]. quietly.
  - destruct (bool_decide _); [|by apply yields_ret]. destruct (cred_Unmarshal cred); [apply Hw, OpenBackend_tidy|by apply yields_ret].
Qed.

(** The chain a worker sets up is that of the backup. *)
Definition same_chain (opts : BackupOptions) : Prop := forall rcpts chain, parseRecipients (bo_Recipients opts) = Ok rcpts ->
  NewChain {| o_Codec := codecFromString (bo_Compression opts); o_Level := levelFromString (bo_Compression opts); o_Recipients := rcpts |} = Ok chain ->
  chain = bo_Filter opts.

Lemma configure_chain_cleanup req w : w_cleanup (snd (configure_chain req w)) = w_cleanup w.
Proof. unfold configure_chain. destruct (parseRecipients _); [|done]. by destruct (NewChain _). Qed.

Lemma Configure_tidy req w : w_cleanup w = None -> yields (fun d => forall c, w_cleanup (snd d) = Some c -> quiet c) (Configure req w).
Proof.
  intros Hc. unfold Configure. destruct (w_configured w); [apply yields_ret; cbn; by rewrite Hc|]. apply yields_bind. intros _.
  destruct (cq_WorkerWritesDirectly req).
  2:{ apply yields_ret. rewrite configure_chain_cleanup. cbn. by rewrite Hc. }
  destruct (cred_Unmarshal _); [|apply yields_ret; cbn; by rewrite Hc]. intros s d s' Hrun. apply bind_inv_Ok in Hrun as (o & s1 & Ho & Hrun).
  apply open_storage_tidy in Ho. destruct o as [o|err]; injection Hrun as <- _; [|cbn; by rewrite Hc].
  rewrite configure_chain_cleanup. cbn. intros c [= <-]. by apply Ho.
Qed.

Lemma Configure_ready opts wOpts id pgDataPath cred proxy files version pgdata0 s w' s' : same_chain opts ->
  Configure (configure_request opts wOpts id pgDataPath cred proxy files) (worker_New version pgdata0) s = (Ok ("", w'), s') ->
  ready (wo_WorkerWritesDirectly wOpts) id (if String.eqb pgDataPath "" then pgdata0 else pgDataPath) opts w'.
Proof.
  intros Hsame Hrun. pose proof (Configure_tidy _ (worker_New version pgdata0) eq_refl s _ _ Hrun) as Hc.
  apply Configure_spec in Hrun as [[? _]|(_ & _ & [Hcf Hi _ Hp (rcpts & chain & Hr & Hn & Hch) Hd Hb])]; [done|].
  split; try done. by rewrite Hch, (Hsame _ _ Hr Hn).
Qed.

Lemma Configure_quiet req w : quiet (Configure req w).
Proof.
  unfold Configure. assert (Hset : forall k v, quiet (W:=W) (update (os_Setenv k v))).
  { intros k v. apply preserves_update. intros s. apply same_view_outside. apply setenv_quiet. }
  quietly; apply Hset.
Qed.

Lemma cli_Configure_quiet req w : quiet (cli_Configure req w).
Proof. apply checked_preserves; [tc_solve|]. apply call_quiet, Configure_quiet. Qed.

Lemma cli_Hello_quiet w : quiet (cli_Hello w).
Proof. apply checked_preserves; [tc_solve|]. apply call_quiet. apply preserves_ret. tc_solve. Qed.

Lemma worker_ProbeStorage_quiet req w : quiet (worker_ProbeStorage req w).
Proof.
  unfold worker_ProbeStorage. destruct (String.eqb _ _); [quietly|]. intros s. unfold bind at 1.
  pose proof (open_storage_quiet (fun err => err) (pq_StorageType req) (pq_StoragePath req) (pq_Credentials req) s) as Hq.
  pose proof (open_storage_tidy (fun err => err) (pq_StorageType req) (pq_StoragePath req) (pq_Credentials req) s) as Ht.
  destruct (open_storage _ _ _ _ s) as [[[o|err]|err] s1]; cbn [snd] in Hq; [|done..].
  etrans; [exact Hq|]. specialize (Ht _ _ eq_refl o eq_refl). unfold tidy in Ht.
  refine (preserves_bind (same_outside wal_key) _ _ _ _ s1); [by apply preserves_try|intros; apply preserves_ret; tc_solve].
Qed.

Lemma cli_ProbeStorage_quiet req w : quiet (cli_ProbeStorage req w).
Proof. apply checked_preserves; [tc_solve|]. apply call_quiet, worker_ProbeStorage_quiet. Qed.

(** A method that leaves the worker as it is. *)
Lemma checked_call_same {A B} (f : result A -> result B) name (h : method A) w : (forall s a w' s', h w s = (Ok (a, w'), s') -> w' = w) ->
  yields (fun d => snd d = w) (checked f (call name h w)).
Proof.
  intros Hh s [b w'] s' (r & Hcall & _)%checked_inv. cbn [snd]. apply call_cases in Hcall as [(err & [= _ <-] & _)|(s1 & s2 & rh & _ & Eh & _ & Hr)]; [done|].
  destruct rh as [[a w1]|e]; [|done]. destruct Hr as (rr & [= _ <-] & _). by eapply Hh.
Qed.

Lemma cli_Hello_same w : yields (fun d => snd d = w) (cli_Hello w).
Proof. apply checked_call_same. by intros s a w' s' [= _ <- _]. Qed.

Lemma cli_ProbeStorage_same req w : yields (fun d => snd d = w) (cli_ProbeStorage req w).
Proof.
  apply checked_call_same. intros s a w' s'. unfold worker_ProbeStorage. destruct (String.eqb _ _); [by intros [= _ <- _]|].
  intros Hrun. apply bind_inv_Ok in Hrun as ([o|err] & s1 & _ & Hrun); [|by injection Hrun as _ <- _].
  apply bind_inv_Ok in Hrun as (u & s2 & _ & Hrun). by injection Hrun as _ <- _.
Qed.

Lemma cli_Configure_inv req w s u w' s' : cli_Configure req w s = (Ok (u, w'), s') ->
  exists s1 s2, Configure req w s1 = (Ok ("", w'), s2).
Proof.
  intros (r & Hcall & Hr)%checked_inv. destruct r as [msg|err]; [|done]. apply call_inv in Hcall as (s1 & s2 & _ & Hc & _).
  exists s1, s2. unfold check_configure in Hr. cbn in Hr. destruct (String.eqb_spec msg ""); [by subst|done].
Qed.

Lemma dialWorker_new wOpts : yields (fun w => exists version pgdata0, w = worker_New version pgdata0) (dialWorker (W:=W) wOpts).
Proof. apply yields_bind. intros [v p]. apply yields_ret. by exists v, p. Qed.
End setup.
