(* ===== verification/WorkerOutcome.v ===== *)
(** * What a run through a worker comes to

    The rules by which a run of [runWorkerBackup] is gone through, for what it leaves in the storage and for
    the end of its bracket, and the theorems on the whole of it. *)

From S2P Require Import Prelude Sha256 Lsn Wal Storage Keys Host Time Json JsonSpec Manifest ManifestSpec Worlds Archive PageChecksum Filter Verify VerifySpec Config Creds Mint Restore RestoreSpec Rpc Bracket BracketSpec Resume Backup BackupSpec PgSql PgSqlSpec Parallel ParallelSpec Worker WorkerSpec WorkerBackup WorkerBackupSpec WorkerRunSpec.

(** The server numbers its timelines in 32 bits. *)
Class TimelineLaw (W : Type) `{Sessions W} : Prop :=
  start_timeline legacy c label fast w lsn tli w' : pg_backup_start legacy c label fast w = (Ok (lsn, tli), w') -> is_u32 tli.

(** ** The bracket ends *)

Section ends.
Context {W : Type} `{Backend W, Host W, Disk W, Clock W, Pg W, FilterLibs, Sessions W, Catalog W, Minting W, Dialing W, WorkerHost W, !AgeKeys, Transport W}.
Context (Now : W -> time).

(** However it goes, there is an answer and no bracket is open. *)
Definition ends (m : M W (result BackupResult * bracket)) : Prop := forall s, exists r b s', m s = (Ok (r, b), s') /\ b_conn b = None.

Lemma ends_stop_with b err : ends (stop_with b err).
Proof. intros s. apply stop_with_ends. Qed.

Lemma ends_or_stop {A} b msg (m : M W A) k : (forall a, ends (k a)) -> ends (or_stop b msg m k).
Proof.
  intros Hk s. unfold or_stop, bind, try. destruct (wrapping msg m s) as [[a|err] s1]; [apply Hk|apply ends_stop_with].
Qed.

Lemma ends_finally close (m : M W (result BackupResult * bracket)) : ends m -> ends (finally close m).
Proof.
  intros Hm s. destruct (Hm s) as (r & b & s1 & E & Hb). unfold finally, bind, try. rewrite E. destruct (close s1) as [rc s2]. by eexists _, _, _.
Qed.

Lemma ends_with_reach b wOpts k : (forall wOpts cred proxy, ends (k wOpts cred proxy)) -> ends (with_reach Now b wOpts k).
Proof.
  intros Hk. unfold with_reach. repeat match goal with |- ends (if ?c then _ else _) => destruct c end; [..|apply Hk].
  - apply ends_or_stop. intros [port pem]. apply ends_finally. do 2 (apply ends_or_stop; intros). apply Hk.
  - do 2 (apply ends_or_stop; intros). apply Hk.
  - destruct (st_SFTP _); [|apply ends_stop_with]. do 2 (apply ends_or_stop; intros). apply Hk.
  - apply ends_or_stop; intros. apply Hk.
Qed.

Lemma ends_drive sched late opts wOpts cid startedAt id pgdata cred proxy files dirs plan start b w :
  ends (drive Now sched late opts wOpts cid startedAt id pgdata cred proxy files dirs plan start b w).
Proof.
  unfold drive. do 4 (apply ends_or_stop; intros). intros s. unfold bind at 1.
  destruct (Stop_ends b s) as (stop & b1 & s1 & -> & Hb). destruct stop as [stop|err]; [|by eexists _, _, _].
  unfold bind, try. match goal with |- context [match ?m s1 with _ => _ end] => destruct (m s1) as [r2 s2] end. by eexists _, _, _.
Qed.

Lemma worker_backup_ends collate sched late opts wOpts cid startedAt id plan b s : exists r b' s',
  worker_backup Now collate sched late opts wOpts cid startedAt id plan b s = (Ok (r, b'), s') /\ (b_conn b = None -> b_conn b' = None).
Proof.
  unfold worker_backup. unfold bind at 1. destruct (Start_ends (bo_Label opts) true b s) as (start & b0 & s0 & -> & Hb0).
  destruct start as [start|err]; [|eexists _, b0, s0; split; [done|intros <-; by apply Hb0]].
  match goal with |- context [or_stop b0 "backup: ListPGData" _ ?k] => assert (He : ends (or_stop b0 "backup: ListPGData" ListPGData k)) end.
  { do 3 (apply ends_or_stop; intros). apply ends_with_reach. intros. apply ends_or_stop. intros. apply ends_finally, ends_drive. }
  destruct (He s0) as (r & b' & s' & E & Hb). by exists r, b', s'.
Qed.
End ends.

(** ** Every file, or an error *)

Section settling.
Context {W : Type} `{BackendLaws W, !Host W, !HostLaws W, !Disk W, !Clock W, !ClockLaws W, !Pg W, !PgLaws W, FilterLibs, !Catalog W, !CatalogLaws W,
  !plain_listings W, !Sessions W, !SessionsQuiet W, !TimelineLaw W, !Minting W, !MintingQuiet W, !Dialing W, !DialingQuiet W, !SharedStorage W,
  !WorkerHost W, !WorkerHostLaws W, !AgeKeys, !Transport W, !TransportQuiet W}.
Context (Now : W -> time) (id : string).
Hypothesis Hid : own_id id.

(** What a run may come to: the manifest is as it was and there is an error, or there is what is [Done]. *)
Definition settles (Done : result BackupResult -> gmap string string -> Prop) (m : M W (result BackupResult * bracket)) : Prop :=
  forall s r b s', m s = (Ok (r, b), s') -> unpublished id s s' r \/ Done r (view s').

Section rules.
Context (Done : result BackupResult -> gmap string string -> Prop).

Lemma unpublished_after {A} (r : result A) s s1 s' : same_outside (hidden_key id) s s1 -> unpublished id s1 s' r -> unpublished id s s' r.
Proof. intros Hq [Hv Hf]. split; [|done]. rewrite Hv. by apply Hq, hidden_not_manifest. Qed.

Lemma quiet_hidden (s s1 : W) : same_outside wal_key s s1 -> same_outside (hidden_key id) s s1.
Proof. apply same_outside_mono. intros q Hq. by left. Qed.

Lemma settles_stop_with b err : settles Done (stop_with b err).
Proof.
  intros s r b' s'. unfold stop_with, bind. pose proof (Stop_quiet b s) as Hq. destruct (Stop b s) as [[d|e] s1]; cbn [snd] in Hq; [|done].
  intros [= <- <- <-]. left. split; [|done]. by apply Hq, (own_key id "backup_manifest" Hid).
Qed.

(** A step that hides its traces, and what follows it. *)
Lemma settles_step {A} b msg (m : M W A) k : preserves (same_outside (hidden_key id)) m ->
  (forall s a s1 r b' s', m s = (Ok a, s1) -> k a s1 = (Ok (r, b'), s') -> unpublished id s1 s' r \/ Done r (view s')) -> settles Done (or_stop b msg m k).
Proof.
  intros Hm Hk s r b' s'. unfold or_stop, bind, try, wrapping. pose proof (Hm s) as Hq. destruct (m s) as [[a|err] s1] eqn:E; cbn [snd map_error] in *; intros Hrun.
  - destruct (Hk s a s1 r b' s' E Hrun) as [Hu|?]; [left; by eapply unpublished_after|by right].
  - apply settles_stop_with in Hrun as [Hu|?]; [left; by eapply unpublished_after|by right].
Qed.

Lemma settles_or_stop {A} b msg (m : M W A) k : quiet m -> (forall s a s1, m s = (Ok a, s1) -> settles Done (k a)) -> settles Done (or_stop b msg m k).
Proof. intros Hm Hk. apply settles_step; [intros s; apply quiet_hidden, Hm|]. intros s a s1 r b' s' E Hrun. by eapply Hk. Qed.

Hypothesis Hstable : forall r s s', same_outside wal_key s s' -> Done r (view s) -> Done r (view s').

Lemma settles_finally close m : quiet close -> settles Done m -> settles Done (finally close m).
Proof.
  intros Hc Hm s r b s'. unfold finally, bind, try. destruct (m s) as [[[r1 b1]|e] s1] eqn:E; [|done]. pose proof (Hc s1) as Hq.
  destruct (close s1) as [rc s2]; cbn [snd] in Hq. intros [= <- <- <-].
  apply Hm in E as [[Hv Hf]|Hd]; [left|right; by eapply Hstable]. split; [|done]. rewrite <- Hv. by apply Hq, (own_key id "backup_manifest" Hid).
Qed.

Lemma settles_with_reach b wOpts k : (forall wOpts cred proxy, settles Done (k wOpts cred proxy)) -> settles Done (with_reach Now b wOpts k).
Proof.
  intros Hk. assert (Hmint : forall sc, quiet (minted (W:=W) Now sc)) by (intros sc; unfold minted; quietly).
  unfold with_reach. repeat match goal with |- settles _ (if ?c then _ else _) => destruct c end; [..|apply Hk].
  - apply settles_or_stop; [apply tunnel_start_quiet|]. intros _ [port pem] _ _. apply settles_finally; [apply tunnel_close_quiet|].
    apply settles_or_stop; [apply PickRemotePort_quiet|intros]. apply settles_or_stop; [apply preserves_of_result; tc_solve|intros; apply Hk].
  - apply settles_or_stop; [apply PickRemotePort_quiet|intros]. apply settles_or_stop; [apply Hmint|intros; apply Hk].
  - destruct (st_SFTP _); [|apply settles_stop_with].
    apply settles_or_stop; [apply PickRemotePort_quiet|intros]. apply settles_or_stop; [apply Hmint|intros; apply Hk].
  - apply settles_or_stop; [apply Hmint|intros; apply Hk].
Qed.
End rules.

(** *** From the configuration to the end of the bracket *)

Context (opts : BackupOptions) (cid : ClusterIdentity) (collate : list string -> list string) (sched : list FileEntry -> list FileEntry).
Hypothesis Hsched : forall l, sched l ≡ₚ l.
Hypothesis Hchain : same_chain opts.
Hypothesis Hsize : seg_size_ok (id_WALSegmentSize cid).

(** The data directory the files are read from is the one the server names. *)
Definition data_directory (dir : string) : Prop := exists s p s', pg_data_directory (W:=W) s = (Ok p, s') /\ (p <> "" -> dir = p).

(** A complete run: the files of the listing out of the data directory [dir], the labels, and the segments of
    the bracket where they are taken along. *)
Record delivered (t : pgtree) (dirs : list string) (dir : string) (stop : StopInfo) (es gs : list tar_entry) (r : result BackupResult) (v : gmap string string) : Prop := {
  dl_dir : data_directory dir;
  dl_files : Forall2 (fetched dir) (fe_Path <$> sched (listed t)) es;
  dl_grabbed : exists start, grabbed dir opts cid start stop gs;
  dl_stream : stream_ok (es ++ label_entries stop ++ gs);
  dl_regular : Forall (fun e => te_Typeflag e = "0"%char) (es ++ label_entries stop ++ gs);
  dl_complete : parallel_complete id opts (id_SystemIdentifier cid) dirs (es ++ label_entries stop ++ gs) v;
  dl_result res : r = Ok res -> br_BackupID res = id /\ br_Files res = Z.of_nat (length (listed t));
}.

Definition worker_done (r : result BackupResult) (v : gmap string string) : Prop :=
  exists t wa wb wc dirs wd dir stop es gs, pg_walk wa = (Ok t, wb) /\ ListPGDataDirs collate wc = (Ok dirs, wd) /\
    delivered t dirs dir stop es gs r v.

Lemma worker_done_stable r (s s' : W) : same_outside wal_key s s' -> worker_done r (view s) -> worker_done r (view s').
Proof.
  intros Hq (t & wa & wb & wc & dirs & wd & dir & stop & es & gs & Hw & Hd & [Hdd Hf Hg Hs Hr Hc Hres]).
  exists t, wa, wb, wc, dirs, wd, dir, stop, es, gs. split_and!; [done|done|]. split; try done.
  eapply parallel_complete_quiet; [done| |done|exact Hq|done]. destruct Hs as [Hes _ _]. by rewrite regulars_all in Hes.
Qed.

Lemma Stop_lsn b s stop b' (s' : W) : Stop b s = (Ok (Ok stop, b'), s') -> is_u64 (so_LSN stop).
Proof.
  unfold Stop. destruct (b_conn b) as [c|]; [|done]. unfold bind, try, wrapping, update.
  destruct (pg_backup_stop _ c s) as [[[[lsn label] spcmap]|err] s1]; cbn [map_error]; [|done].
  destruct (ParseLSN lsn) as [l|err] eqn:E; cbn [map_error]; [|done]. intros [= <- _ _]. by eapply ParseLSN_is_u64.
Qed.

Lemma Start_start label fast b s start b' (s' : W) : Start label fast b s = (Ok (Ok start, b'), s') -> is_u64 (si_LSN start) /\ is_u32 (si_Timeline start).
Proof.
  unfold Start. destruct (b_conn b) as [c|]; [done|]. unfold bind, try, wrapping, update.
  destruct (pool_Acquire s) as [[c|e] s1]; cbn [map_error]; [|done]. destruct (pg_backup_start _ c label fast s1) as [[[txt tli]|e] s2] eqn:E; cbn [map_error]; [|done].
  destruct (ParseLSN txt) as [l|err] eqn:El; cbn [map_error]; [|done]. intros [= <- _ _]. split; [by eapply ParseLSN_is_u64|by eapply start_timeline].
Qed.

Lemma listed_path_ok f : file_entry_ok f -> path_ok (fe_Path f).
Proof. intros [Hk Hf Hu _]. split; [done| |done]. intros Hin. apply Hf. rewrite elem_of_app. by left. Qed.

Lemma grabbed_names dir start stop gs : grabbed dir opts cid start stop gs -> forall n, n ∈ te_Name <$> gs -> grabs opts = true /\ n ∈ bracket_paths cid start stop.
Proof. unfold grabbed. destruct (grabs opts); [|by intros -> n ?%elem_of_nil]. intros Hg n. by rewrite (fetched_names _ _ _ Hg). Qed.

(** The names of all that is stored differ. *)
Lemma all_stream_ok t dir es start stop gs : listing_ok (sched (listed t)) -> Forall2 (fetched dir) (fe_Path <$> sched (listed t)) es ->
  Forall entry_ok (es ++ label_entries stop ++ gs) -> Forall (fun e => te_Typeflag e = "0"%char) (es ++ label_entries stop ++ gs) ->
  (grabs opts = true -> fresh_paths (es ++ label_entries stop) (bracket_paths cid start stop)) -> grabbed dir opts cid start stop gs ->
  stream_ok (es ++ label_entries stop ++ gs).
Proof.
  intros [Hf Hnd] Htk Hes Hreg Hfr Hg. split; rewrite ?regulars_all by done; [done| |by rewrite entry_dirs_none].
  rewrite app_assoc, fmap_app. apply NoDup_app. split_and!.
  - rewrite fmap_app, (fetched_names _ _ _ Htk). apply NoDup_app. split_and!; [done| |].
    + intros n (f & -> & Hin)%list_elem_of_fmap Hl. rewrite Forall_forall in Hf. destruct (Hf f Hin) as [_ Hfree _ _]. apply Hfree. rewrite elem_of_app. right.
      unfold label_entries, labels_of in Hl. case_match; cbn in Hl; unfold label_names; set_unfold; tauto.
    + unfold label_entries, labels_of. case_match; cbn; repeat constructor; set_solver.
  - intros n Hin Hg'. apply (grabbed_names _ _ _ _ Hg) in Hg' as [Hgr Hp]. by eapply (fp_fresh _ _ (Hfr Hgr)).
  - unfold grabbed in Hg. destruct (grabs opts) eqn:Eg; [|subst gs; constructor]. rewrite (fetched_names _ _ _ Hg). by apply Hfr.
Qed.

Section one_run.
Context (t : pgtree) (wa wb wc : W) (dirs : list string) (wd : W) (start : StartInfo).
Hypotheses (Hwalk : pg_walk wa = (Ok t, wb)) (Hdirs : ListPGDataDirs collate wc = (Ok dirs, wd)).
Hypotheses (Hstart : is_u64 (si_LSN start)) (Htimeline : is_u32 (si_Timeline start)).

Lemma finish_settles direct dir stop tl es w s r s' : data_directory dir -> ready direct id dir opts w -> is_u64 (so_LSN stop) -> Forall entry_ok (label_entries stop) ->
  Forall2 (fetched dir) (fe_Path <$> sched (listed t)) es -> all_stored id opts es (tl_mb tl) s -> tl_files tl = Z.of_nat (length es) ->
  finish_worker Now direct opts cid id dirs start stop tl w s = (r, s') -> unpublished id s s' r \/ worker_done r (view s').
Proof.
  intros Hdd Hr Hlsn Hlab Htk Hst Hn Hrun. pose proof ((_ : plain_listings W) _ _ _ Hwalk) as Hlist.
  assert (Hperm : listing_ok (sched (listed t))) by (eapply listing_ok_perm; [apply Hsched|done]). pose proof Hperm as [Hfs _].
  destruct (fetched_ok dir (fe_Path <$> sched (listed t)) es) as [Hes Hreg]; [|done|].
  { apply Forall_fmap. eapply Forall_impl; [exact Hfs|]. apply listed_path_ok. }
  assert (Hnames : forall n, n ∈ te_Name <$> es -> n ∈ fe_Path <$> listed t).
  { intros n. rewrite (fetched_names _ _ _ Htk). by rewrite Hsched. }
  assert (Hfr : grabs opts = true -> fresh_paths (es ++ label_entries stop) (bracket_paths cid start stop)) by (intros _; by eapply bracket_paths_fresh).
  apply (finish_worker_spec Now direct id dir opts Hid cid dirs start stop tl es) in Hrun as [?|(gs & Hg & Hc & Hres)]; [by left|right|done| |done| |done|done].
  - destruct (grabbed_ok dir opts cid start stop (es ++ label_entries stop) gs Hfr Hg) as [Hgok Hgreg].
    exists t, wa, wb, wc, dirs, wd, dir, stop, es, gs. split_and!; [done|done|].
    assert (Hall : Forall entry_ok (es ++ label_entries stop ++ gs)) by (repeat (apply Forall_app; split); done).
    assert (Hallreg : Forall (fun e => te_Typeflag e = "0"%char) (es ++ label_entries stop ++ gs)) by (repeat (apply Forall_app; split); [done|apply label_entries_regular|done]).
    split; [done|done|by exists start|by apply (all_stream_ok t dir es start)|done|done|].
    intros res Hr1. destruct (Hres res Hr1) as [? ->]. split; [done|]. by rewrite Hn, <- (Forall2_length _ _ _ Htk), length_fmap, Hsched.
  - by apply Forall_app.
  - intros n Hn1 Hin%Hnames. apply list_elem_of_fmap in Hin as (f & -> & Hin). destruct Hlist as [Hf _]. rewrite Forall_forall in Hf.
    destruct (Hf f Hin) as [_ Hfree _ _]. apply Hfree. rewrite elem_of_app. by right.
Qed.

Lemma drive_settles late wOpts startedAt pgdata cred proxy b w ws ws' : pg_data_directory ws = (Ok pgdata, ws') -> (exists version pgdata0, w = worker_New version pgdata0) ->
  settles worker_done (drive Now sched late opts wOpts cid startedAt id pgdata cred proxy (listed t) dirs None start b w).
Proof.
  intros Hdir (version & pgdata0 & ->). unfold drive. apply settles_or_stop; [apply cli_Hello_quiet|]. intros s1 [hr w1] s2 Hh%cli_Hello_same. cbn [snd] in Hh. subst w1.
  apply settles_or_stop; [destruct (wo_WorkerWritesDirectly wOpts); [|quietly]; apply preserves_bind; [tc_solve|apply cli_ProbeStorage_quiet|quietly]|]. intros s3 w1 s4 Hp.
  assert (w1 = worker_New version pgdata0) as ->.
  { destruct (wo_WorkerWritesDirectly wOpts); [|by injection Hp as <- _]. apply bind_inv_Ok in Hp as ([pr w2] & s5 & Hp1%cli_ProbeStorage_same & Hp). cbn [fst snd] in *. subst w2.
    destruct (_ && _); [done|]. by injection Hp as <- _. }
  apply settles_or_stop; [apply cli_Configure_quiet|]. intros s5 [u w2] s6 Hc. cbn [snd].
  apply cli_Configure_inv in Hc as (s7 & s8 & Hc). apply Configure_ready in Hc; [|done].
  assert (Hdd : data_directory (if String.eqb pgdata "" then pgdata0 else pgdata)) by (exists ws, pgdata, ws'; split; [done|]; by intros ->%String.eqb_neq).
  set (dir := if String.eqb pgdata "" then pgdata0 else pgdata) in *. set (direct := wo_WorkerWritesDirectly wOpts) in *.
  pose proof ((_ : plain_listings W) _ _ _ Hwalk) as Hlist. assert (Hperm : listing_ok (sched (listed t))) by (eapply listing_ok_perm; [apply Hsched|done]).
  pose proof (fun mb (Hmb : b_files mb = []) s r s' => fetch_files_spec Now direct id dir opts Hid late (sched (listed t)) mb w2 s r s' Hperm Hmb Hc) as Hspec.
  apply settles_step.
  { intros s. match goal with |- context [fetch_files Now late direct id None _ ?mb w2 s] => specialize (Hspec mb eq_refl s) end.
    destruct (fetch_files _ _ _ _ _ _ _ _ s) as [rf sf]. by apply (Hspec rf sf). }
  intros s [tl w3] s9 r b' s' Hfetch. apply Hspec in Hfetch as [_ Hok]; [|done]. destruct (Hok tl w3 eq_refl) as (Hr3 & es & Htk & Hst & Hn).
  unfold bind at 1. pose proof (Stop_quiet b s9) as Hq. destruct (Stop b s9) as [[[stop b3]|err] s10] eqn:Es; cbn [snd] in Hq; [|done].
  destruct stop as [stop|err]; [|intros [= <- <- <-]; left; split; [by apply Hq, (own_key id "backup_manifest" Hid)|done]].
  unfold bind, try. destruct (finish_worker _ _ _ _ _ _ _ _ _ _ s10) as [rf sf] eqn:Ef. intros [= <- <- <-].
  apply (finish_settles direct dir stop tl es) in Ef as [Hu|?]; [left; eapply unpublished_after; [by apply quiet_hidden|done]|by right|..].
  all: try done. all: try by eapply Stop_lsn. all: try by eapply Stop_labels_ok.
  eapply all_stored_quiet; [done| |exact Hq|done]. destruct (fetched_ok dir (fe_Path <$> sched (listed t)) es) as [Hes _]; [|done|by apply entries_ok_keys].
  apply Forall_fmap. destruct Hperm as [Hf _]. eapply Forall_impl; [exact Hf|]. apply listed_path_ok.
Qed.
End one_run.

(** *** From the start *)

Lemma ret_inv {A} (a b : A) (s s' : W) : ret a s = (Ok b, s') -> b = a /\ s' = s.
Proof. by intros [= <- <-]. Qed.

Lemma ListPGData_listed (s : W) files s' : ListPGData s = (Ok files, s') -> exists t, pg_walk s = (Ok t, s') /\ files = listed t.
Proof.
  unfold ListPGData, bind, wrapping. destruct (pg_walk s) as [[t|err] s1]; cbn [map_error]; [|done].
  intros E. apply ret_inv in E as [-> ->]. by exists t.
Qed.

Lemma worker_backup_spec late wOpts startedAt b s r b' s' :
  worker_backup Now collate sched late opts wOpts cid startedAt id None b s = (Ok (r, b'), s') ->
  unpublished id s s' r \/ worker_done r (view s').
Proof.
  unfold worker_backup. unfold bind at 1. pose proof (Start_quiet (bo_Label opts) true b s) as Hq0.
  destruct (Start (bo_Label opts) true b s) as [[[start b0]|err] s0] eqn:E0; cbn [snd] in Hq0; [|done].
  destruct start as [start|err]; [|intros [= <- <- <-]; left; split; [by apply Hq0, (own_key id "backup_manifest" Hid)|done]].
  apply Start_start in E0 as [Ha Ht]. intros Hrun. cut (unpublished id s0 s' r \/ worker_done r (view s')).
  { intros [Hu|?]; [left; eapply unpublished_after; [by apply quiet_hidden|done]|by right]. }
  revert Hrun. match goal with |- ?m s0 = _ -> _ => cut (settles worker_done m); [intros Hm Hrun; by eapply Hm|] end.
  assert (Hlistq : quiet (ListPGData (W:=W))) by (unfold ListPGData; apply preserves_bind; [tc_solve|apply preserves_wrapping, walk_quiet|quietly]).
  assert (Hdirq : quiet (ListPGDataDirs (W:=W) collate)) by (unfold ListPGDataDirs; apply preserves_bind; [tc_solve|apply preserves_wrapping, walk_quiet|quietly]).
  apply settles_or_stop; [done|]. intros wa files wb (t & Hwalk & ->)%ListPGData_listed.
  apply settles_or_stop; [done|]. intros wc dirs wd Hdirs. apply settles_or_stop; [apply data_directory_quiet|]. intros s5 pgdata s6 Hdir.
  apply settles_with_reach; [by apply worker_done_stable|]. intros wOpts' cred proxy.
  apply settles_or_stop; [apply dialWorker_quiet|]. intros s7 w s8 Hnew%dialWorker_new.
  apply settles_finally; [by apply worker_done_stable|apply session_close_quiet|]. by eapply drive_settles.
Qed.
End settling.

Section whole.
Context {W : Type} `{BackendLaws W, !Host W, !HostLaws W, !Disk W, !Clock W, !ClockLaws W, !Pg W, !PgLaws W, FilterLibs, !Catalog W, !CatalogLaws W,
  !plain_listings W, !Sessions W, !SessionsQuiet W, !TimelineLaw W, !Minting W, !MintingQuiet W, !Dialing W, !DialingQuiet W, !SharedStorage W,
  !WorkerHost W, !WorkerHostLaws W, !AgeKeys, !Transport W, !TransportQuiet W}.
Context (Now : W -> time).

Lemma prepare_worker_own opts wOpts startedAt (w : W) wOpts' cid id w1 : prepare_worker Now opts wOpts startedAt w = (Ok (wOpts', cid, id, None), w1) -> own_id id.
Proof.
  unfold prepare_worker. intros Hrun. apply bind_inv_Ok in Hrun as (bid & w2 & Hid & Hrun).
  do 6 (apply bind_inv_Ok in Hrun as (? & ? & _ & Hrun)).
  match type of Hrun with context [match ?x with _ => _ end] => destruct x as [[cp|]|e] end;
    [apply bind_inv_Ok in Hrun as (? & ? & _ & [=])|injection Hrun as _ _ -> _..].
  all: unfold ChooseBackupID in Hid; apply bind_inv_Ok in Hid as (latest & ? & _ & Hid);
    destruct (_ && _); [destruct (label_le _ _); [done|]|]; injection Hid as <- <-; apply FormatBackupID_own.
Qed.

Lemma runWorkerBackup_spec collate sched late opts wOpts w wOpts' cid id w1 r w' :
  (forall l, sched l ≡ₚ l) -> same_chain opts -> seg_size_ok (id_WALSegmentSize cid) -> wo_HasPool wOpts = true -> 13 <= wo_PGVersion wOpts ->
  prepare_worker Now opts wOpts (Now w) w = (Ok (wOpts', cid, id, None), w1) -> runWorkerBackup Now collate sched late opts wOpts w = (r, w') ->
  own_id id /\ (unpublished id w1 w' r \/ worker_done id opts cid collate sched r (view w')).
Proof.
  intros Hsched Hchain Hsize Hpool Hver Hprep. pose proof (prepare_worker_own _ _ _ _ _ _ _ _ Hprep) as Hid. unfold runWorkerBackup.
  rewrite Hpool. cbn [negb]. destruct (Z.ltb_spec (wo_PGVersion wOpts) 13); [lia|]. unfold bind at 1, read. unfold bind at 1. rewrite Hprep.
  unfold bind at 1, of_result at 1. destruct (bracket_New _ _) as [b|err]; cbn [map_error].
  2:{ intros [= <- <-]. split; [done|]. by left. }
  unfold bind. destruct (worker_backup_ends Now collate sched late opts wOpts' cid (Now w) id None b w1) as (r2 & b2 & w3 & E & _). rewrite E.
  unfold of_result. cbn [fst]. intros [= <- <-]. split; [done|]. by eapply worker_backup_spec.
Qed.
End whole.


(** The database is in an encoding whose names are UTF-8. *)
Definition directories_utf8 {W} `{Catalog W} (collate : list string -> list string) : Prop :=
  forall w dirs w', ListPGDataDirs (W:=W) collate w = (Ok dirs, w') -> Forall (fun d => valid_utf8 d = true) dirs.


(** C27: whatever happens between its start and its end, on every way to the storage and in every mode, the bracket of
    a backup through a worker is closed when the run is over. *)
Theorem worker_bracket_closed {W : Type} `{Backend W, Host W, Disk W, Clock W, Pg W, FilterLibs, Sessions W, Catalog W, Minting W, Dialing W, WorkerHost W, !AgeKeys, Transport W}
    (Now : W -> time) collate sched late opts wOpts cid startedAt id plan b s :
  bracket_New (wo_HasPool wOpts) (wo_PGVersion wOpts) = Ok b ->
  exists r b' s', worker_backup Now collate sched late opts wOpts cid startedAt id plan b s = (Ok (r, b'), s') /\ b_conn b' = None.
Proof.
  intros Hnew. destruct (worker_backup_ends Now collate sched late opts wOpts cid startedAt id plan b s) as (r & b' & s' & E & Hb).
  exists r, b', s'. split; [done|]. apply Hb. unfold bracket_New in Hnew. by repeat case_match; simplify_eq.
Qed.

(** ** A worker beside the small cluster *)

#[export] Instance sample_minting : Minting world := {
  os_Getenv _ _ := "";
  AwsConfig := unit;
  aws_LoadDefaultConfig _ _ := ret tt;
  sts_AssumeRole _ _ _ _ _ _ := throw (errors_New "no cloud");
  SharedKey := unit;
  azblob_NewSharedKeyCredential _ _ := Fail (errors_New "no cloud");
  sas_Sign _ _ := Fail (errors_New "no cloud");
  url_Parse _ := Ok tt;
  IamClient := unit;
  iam_NewClient _ := throw (errors_New "no cloud");
  iam_GenerateAccessToken _ _ _ _ := throw (errors_New "no cloud");
  iam_Close _ := ret tt;
}.

#[export] Instance sample_transport : Transport world := {
  os_Executable := ret "/usr/bin/pgsafe";
  ssh_DialCommand _ _ _ := ret ("1", "/var/lib/pgsql");
  local_Dial _ := ret ("1", "");
  sess_Close := ret tt;
  wire_send _ := ret tt;
  wire_receive _ := ret tt;
  sftpd_Start _ := ret (2222, "PEM");
  sftpd_Close := ret tt;
  tty_confirm := ret (Ok tt, Ok "y", false);
}.

Ltac all_quiet := split; intros; first [apply preserves_ret; tc_solve | apply preserves_throw; tc_solve].

#[export] Instance sample_minting_quiet : MintingQuiet world.
Proof. all_quiet. Qed.
#[export] Instance sample_transport_quiet : TransportQuiet world.
Proof. all_quiet. Qed.
#[export] Instance sample_dialing_quiet : DialingQuiet world.
Proof. all_quiet. Qed.
#[export] Instance sample_shared_storage : SharedStorage world.
Proof. by refine {| rb_laws _ := world_laws |}. Defined.

Lemma sample_os_file_small p src : sample_os_file p = Ok src -> (slen (Join (fst src) "") <= 4)%nat.
Proof.
  unfold sample_os_file. set (c := if String.eqb p _ then _ else _). destruct (_ || _); [done|]. intros Ho.
  assert (src = ([stake 1 c; sdrop 1 c], None)) as -> by congruence.
  change (Join (fst ([stake 1 c; sdrop 1 c], @None error)) "") with (stake 1 c +:+ sdrop 1 c). rewrite stake_drop. unfold c, sample_file.
  destruct (String.eqb p _); [vm_compute; lia|]. repeat case_match; vm_compute; lia.
Qed.

#[export] Instance sample_worker_host_laws : WorkerHostLaws world.
Proof.
  split; [intros; apply preserves_of_result; tc_solve|done|]. intros p w src w' [= Ho%sample_os_file_small _]. unfold is_i64. lia.
Qed.

#[export] Instance sample_timeline : TimelineLaw world.
Proof. intros legacy c label fast w lsn tli w' [= _ <- _]. unfold is_u32. lia. Qed.

Definition reach_options (ty : string) (direct : bool) : WorkerOptions := {|
  wo_HasPool := true; wo_PGVersion := 18; wo_SSHTarget := "db1"; wo_SSHExtraArgs := []; wo_RemoteCommand := [];
  wo_Storage := {| st_Type := ty; st_Path := "/storage"; st_S3 := None; st_Azure := None; st_GCS := None; st_SFTP := None |};
  wo_PageChecksumMode := ModeOff; wo_Workers := 4; wo_WorkerWritesDirectly := direct; wo_StorageReach := "auto"; wo_ConfirmProxy := false |}.

(** The options of the backup, with the segments of the bracket taken along. *)
Definition walgrab_options : BackupOptions (H:=framing_libs) := {|
  bo_Filter := bo_Filter backup_options; bo_HasPool := true; bo_Server := "main"; bo_Label := "pgsafe-main"; bo_WALTimeout := 30 * Minute; bo_WALSource := "walgrab";
  bo_ResumeDisabled := false; bo_ResumeCheckpointEveryN := 2; bo_ResumeGracePeriod := 0; bo_PgsafeVersion := "1";
  bo_Recipients := ["age1"]; bo_Compression := "zstd:3"; bo_ScratchDir := ""; bo_TempDir := "/tmp"; bo_Type := "full"; bo_ParentBackupID := "" |}.

Definition worker_run (opts : BackupOptions (H:=framing_libs)) (wOpts : WorkerOptions) :=
  runWorkerBackup (H4:=framing_libs) backup_now id sample_sched (fun _ => true) opts wOpts.

Lemma sample_same_chain opts : bo_Recipients opts = ["age1"] -> bo_Compression opts = "zstd:3" -> bo_Filter opts = bo_Filter backup_options ->
  same_chain (H1:=framing_libs) opts.
Proof. intros Hr Hc Hf rcpts chain. unfold same_chain. rewrite Hr, Hc, Hf. by intros [= <-] [= <-]. Qed.

Definition worker_prepared (opts : BackupOptions (H:=framing_libs)) (wOpts : WorkerOptions) : world :=
  snd (prepare_worker (H4:=framing_libs) backup_now opts wOpts (backup_now backup_world) backup_world).
Definition worker_world (opts : BackupOptions (H:=framing_libs)) (wOpts : WorkerOptions) : world := snd (worker_run opts wOpts backup_world).

(** Without a way of its own, the worker writes through a tunnel to the caller and takes the segments along. *)
Definition tunnel_options : WorkerOptions := reach_options "posix" false.
(** The caller writes what the worker sends. *)
Definition caller_options : WorkerOptions := reach_options "s3" false.

Lemma tunnel_prepares : prepare_worker (H4:=framing_libs) backup_now walgrab_options tunnel_options (backup_now backup_world) backup_world =
  (Ok (tunnel_options, backup_identity, "20260401T100000F", None), worker_prepared walgrab_options tunnel_options).
Proof.
  refine (run_eq (prepare_worker (H4:=framing_libs) backup_now walgrab_options tunnel_options (backup_now backup_world)) backup_world
    (Ok (tunnel_options, backup_identity, "20260401T100000F", None)) _). vm_compute. reflexivity.
Qed.

Lemma tunnel_runs : worker_run walgrab_options tunnel_options backup_world = (Ok parallel_result, worker_world walgrab_options tunnel_options).
Proof. refine (run_eq (worker_run walgrab_options tunnel_options) backup_world (Ok parallel_result) _). vm_compute. reflexivity. Qed.


Lemma caller_prepares : prepare_worker (H4:=framing_libs) backup_now backup_options caller_options (backup_now backup_world) backup_world =
  (Ok (caller_options, backup_identity, "20260401T100000F", None), worker_prepared backup_options caller_options).
Proof.
  refine (run_eq (prepare_worker (H4:=framing_libs) backup_now backup_options caller_options (backup_now backup_world)) backup_world
    (Ok (caller_options, backup_identity, "20260401T100000F", None)) _). vm_compute. reflexivity.
Qed.

Lemma caller_runs : worker_run backup_options caller_options backup_world = (Ok parallel_result, worker_world backup_options caller_options).
Proof. refine (run_eq (worker_run backup_options caller_options) backup_world (Ok parallel_result) _). vm_compute. reflexivity. Qed.

Lemma sample_directories : directories_utf8 (W:=world) id.
Proof.
  intros w dirs w' Hrun. assert (dirs = ["base"; "pg_notify"]) as -> by (revert Hrun; vm_compute; congruence). by repeat constructor.
Qed.

Lemma worker_restored_runs : isOk (fst (Restore.Run (H2:=framing_libs) id restored_options (worker_world backup_options caller_options))) = true.
Proof. vm_compute. reflexivity. Qed.

(** The only content a whole read of [base/1] has. *)
Lemma sample_from_host chunks : from_host (W:=world) "/pgdata" "base/1" chunks -> Join chunks "" = "abcd".
Proof. intros (s & src & s' & [= <- _] & -> & _). reflexivity. Qed.

Lemma sample_data_directory dir : data_directory (W:=world) dir -> dir = "/pgdata".
Proof. intros (s & p & s' & [= <- _] & Hd). by apply Hd. Qed.


(** A worker that is not reached, with the bracket open. *)
Definition no_worker : Transport world := {|
  os_Executable := ret "/usr/bin/pgsafe"; ssh_DialCommand _ _ _ := throw (errors_New "connection refused"); local_Dial _ := ret ("1", ""); sess_Close := ret tt;
  wire_send _ := ret tt; wire_receive _ := ret tt; sftpd_Start _ := ret (2222, "PEM"); sftpd_Close := ret tt; tty_confirm := ret (Ok tt, Ok "y", false) |}.

Definition unreached_run (b : bracket) :=
  worker_backup (H4:=framing_libs) (H11:=no_worker) backup_now id sample_sched (fun _ => true) walgrab_options tunnel_options backup_identity
    (backup_now backup_world) "20260401T100000F" None b backup_world.

Lemma worker_bracket_closed_witness : exists b r b' s', bracket_New true 18 = Ok b /\ unreached_run b = (Ok (r, b'), s') /\ b_conn b' = None.
Proof.
  destruct (bracket_New (wo_HasPool tunnel_options) (wo_PGVersion tunnel_options)) as [b|e] eqn:Hnew; [|vm_compute in Hnew; discriminate Hnew].
  destruct (worker_bracket_closed (H4:=framing_libs) (H11:=no_worker) backup_now id sample_sched (fun _ => true) walgrab_options tunnel_options backup_identity
    (backup_now backup_world) "20260401T100000F" None b backup_world Hnew) as (r & b' & s' & E & Hb).
  exists b, r, b', s'. split_and!; [exact Hnew|exact E|exact Hb].
Defined.

(** That run ends with the error of the connection, and the bracket had been opened. *)
Lemma unreached_run_fails : match bracket_New true 18 with
  | Ok b => match fst (unreached_run b) with Ok (r, _) => isOk r = false | Fail _ => False end
  | Fail _ => False end.
Proof. vm_compute. reflexivity. Qed.
