(* ===== verification/WorkerRestore.v ===== *)
(** * A restore through a worker

    [internal/restore/pgsafe_worker.go]: the caller shows its storage to the worker through a tunnel, sends
    the identities along and lets the worker restore on its own host. *)

From S2P Require Import Prelude Sha256 Lsn Wal Storage Keys Host Time Json JsonSpec Manifest ManifestSpec Worlds Archive PageChecksum Filter Verify VerifySpec Config Creds Mint MintSpec Restore RestoreSpec Rpc Bracket BracketSpec Resume Backup BackupSpec PgSql PgSqlSpec Parallel ParallelSpec Worker WorkerSpec WorkerBackup WorkerBackupSpec WorkerRunSpec WorkerOutcome.

(** [WorkerOptions] *)
Record RestoreWorkerOptions := { rw_SSHTarget : string; rw_SSHExtraArgs : list string; rw_RemoteCommand : list string; rw_CallerStorage : StorageConfig }.

(** The text of an identity, where it is an X25519 one. *)
Class AgeTexts `{FilterLibs} := age_IdentityText : Identity -> option string.

(** Runs [close] when [m] is done, and ends as [m] does. *)
Definition deferring {W A} (close : M W unit) (m : M W A) : M W A := r <- try m ;; try close ;;; of_result r.

Section worker_restore.
Context {W : Type} `{Backend W, Host W, Disk W, FilterLibs, !AgeTexts, Minting W, Dialing W, WorkerHost W, !AgeKeys, Transport W}.

(** The loop over the identities. *)
Fixpoint identity_blobs (ids : list Identity) : result (list string) :=
  match ids with
  | [] => Ok []
  | i :: ids =>
      match age_IdentityText i with
      | None => Fail (errors_New "restore: unsupported identity type")
      | Some s => map_result (cons s) (identity_blobs ids)
      end
  end.

(** [Client.Restore] *)
Definition cli_Restore (sched : list ManifestFile -> list ManifestFile) (req : RestoreRequest) (w : Worker) : M W (RestoreResponse * Worker) :=
  checked (map_error (Errorf_w "rpc Restore")) (call "WorkerService.Restore" (worker_Restore sched req) w).

Definition restore_request (opts : Restore.Options) (workers : Z) (credBytes : string) (idBlobs : list string) : RestoreRequest :=
  {| Rpc.rr_BackupID := ro_BackupID opts; rr_StorageType := "sftp"; rr_Credentials := credBytes; rr_AgeIdentities := idBlobs;
     rr_TargetPath := ro_Target opts; rr_Workers := workers; rr_StandbyMode := ro_StandbyMode opts; rr_RestoreCommand := ro_RestoreCommand opts |}.

Definition check_restore (resp : RestoreResponse) : result RestoreResult :=
  if negb (String.eqb (rp_Error resp) "") then Fail (errors_New ("restore: worker: " +:+ rp_Error resp))
  else Ok {| Restore.rr_BackupID := rp_BackupID resp; rr_Files := rp_Files resp; rr_WAL := rp_WAL resp; rr_Bytes := rp_Bytes resp |}.

(** What follows once the worker is there. *)
Definition drive_restore (sched : list ManifestFile -> list ManifestFile) (opts : Restore.Options) (workers : Z) (st : StorageConfig) (remotePort : Z) (pem : string)
    (w : Worker) : M W RestoreResult :=
  d <- wrapping "restore: rpc.Hello" (cli_Hello w) ;;
  credBytes <- of_result (map_error (Errorf_w "restore: marshal sftp tunnel creds") (cred_Marshal (sftp_credential (tunnel_key remotePort pem (st_Path st))))) ;;
  idBlobs <- of_result (identity_blobs (ro_Identities opts)) ;;
  d <- wrapping "restore: rpc.Restore" (cli_Restore sched (restore_request opts workers credBytes idBlobs) (snd d)) ;;
  of_result (check_restore (fst d)).

(** [runWorkerRestore]; the client closes the session too. *)
Definition runWorkerRestore (sched : list ManifestFile -> list ManifestFile) (opts : Restore.Options) (workers : Z) (wo : RestoreWorkerOptions)
  : M W RestoreResult :=
  let st := rw_CallerStorage wo in
  if String.eqb (rw_SSHTarget wo) "" then throw (errors_New "restore: Worker.SSHTarget required")
  else if negb (String.eqb (st_Type st) "posix") then throw (errors_New "restore: pgsafe-worker only supports posix caller storage")
  else
    d <- wrapping "restore: sftptunnel start" (sftpd_Start (st_Path st)) ;;
    let '(localPort, pem) := d in
    deferring sftpd_Close (
      remotePort <- wrapping "restore: pick remote port" PickRemotePort ;;
      v <- wrapping "restore: ssh.Dial"
             (ssh_DialCommand (rw_SSHTarget wo) (ReverseForwardArgs remotePort localPort ++ rw_SSHExtraArgs wo)
                (if (length (rw_RemoteCommand wo) =? 0)%nat then ["pgsafe"; "worker"; "stdio"] else rw_RemoteCommand wo)) ;;
      deferring sess_Close (deferring sess_Close (drive_restore sched opts workers st remotePort pem (worker_New (fst v) (snd v))))).

(** [Run], up to where the ways part. *)
Definition Run_through (sched : list ManifestFile -> list ManifestFile) (opts : Restore.Options) (workers : Z) (worker : option RestoreWorkerOptions)
  : M W RestoreResult :=
  if String.eqb (ro_Target opts) "" then throw (errors_New "restore: Target is required")
  else if negb (HasPrefix (ro_Target opts) "/") then throw (errors_New "restore: Target must be absolute")
  else if (length (ro_Identities opts) =? 0)%nat then throw (errors_New "restore: Identities required")
  else match worker with
       | Some wo => runWorkerRestore sched opts workers wo
       | None => Restore.Run sched opts
       end.

(** What the worker restores with: the caller's options without the map of tablespaces and the targets of recovery. *)
Definition worker_options (opts : Restore.Options) : Restore.Options :=
  {| ro_Target := ro_Target opts; ro_Identities := ro_Identities opts; ro_BackupID := ro_BackupID opts; ro_TablespaceRemap := ∅;
     ro_StandbyMode := ro_StandbyMode opts; ro_RestoreCommand := ro_RestoreCommand opts; ro_TargetTime := None; ro_TargetXID := None;
     ro_TargetLSN := None; ro_TargetName := ""; ro_TargetAction := "" |}.
End worker_restore.

(** ** Errors have a text *)

Section loud.
Context {W : Type}.

(** The worker tells an error by its text: one without a text would pass for success. *)
Definition loud {A} (m : M W A) : Prop := forall s e s', m s = (Fail e, s') -> err_msg e <> "".

Lemma loud_ret {A} (a : A) : loud (ret a).
Proof. by intros s e s'. Qed.

Lemma loud_new {A} msg : msg <> "" -> loud (throw (A:=A) (errors_New msg)).
Proof. by intros Hm s e s' [= <- _]. Qed.

Lemma Errorf_w_text msg e : err_msg (Errorf_w msg e) <> "".
Proof. cbn. by destruct msg. Qed.

Lemma loud_wrap {A} msg e : loud (throw (A:=A) (Errorf_w msg e)).
Proof. intros s e' s' [= <- _]. apply Errorf_w_text. Qed.

Lemma loud_wrapping {A} msg (m : M W A) : loud (wrapping msg m).
Proof. intros s e s'. unfold wrapping. destruct (m s) as [[a|e1] s1]; cbn [map_error]; [done|]. intros [= <- _]. apply Errorf_w_text. Qed.

Lemma loud_of_wrapped {A} msg (r : result A) : loud (of_result (map_error (Errorf_w msg) r)).
Proof. intros s e s'. unfold of_result. destruct r as [a|e1]; cbn [map_error]; [done|]. intros [= <- _]. apply Errorf_w_text. Qed.

Lemma loud_try {A} (m : M W A) : loud (try m).
Proof. intros s e s'. unfold try. by destruct (m s). Qed.

Lemma loud_bind {A B} (m : M W A) (k : A -> M W B) : loud m -> (forall a, loud (k a)) -> loud (bind m k).
Proof.
  intros Hm Hk s e s'. unfold bind. destruct (m s) as [[a|e1] s1] eqn:E; [apply Hk|]. intros [= <- _]. by eapply Hm.
Qed.

Lemma loud_forM {A B} (l : list A) (b : B) f : (forall b a, loud (f b a)) -> loud (forM l b f).
Proof. intros Hf. revert b. induction l as [|a l IH]; intros b; cbn [forM]; [apply loud_ret|]. apply loud_bind; [apply Hf|apply IH]. Qed.
End loud.

#[export] Hint Resolve loud_ret loud_wrap loud_wrapping loud_of_wrapped loud_try : go.

Ltac loudly := repeat first
  [ progress intros | solve [auto with go] | apply loud_new; discriminate | apply loud_forM | apply loud_bind
  | progress cbv beta
  | match goal with |- loud (match ?x with _ => _ end _) => destruct x | |- loud (match ?x with _ => _ end) => destruct x end ].

Section run_loud.
Context {W : Type} `{Backend W, Host W, Disk W, FilterLibs}.

Lemma restore_step_loud codec ids id target f first c s d s1 : (forall e, first = Some e -> err_msg e <> "") ->
  restore_step (W:=W) codec ids id target (first, c) f s = (d, s1) -> exists first' c', d = Ok (first', c') /\ forall e, first' = Some e -> err_msg e <> "".
Proof.
  intros Hf. destruct c as [count bytes]. unfold restore_step, bind, try, wrapping. destruct (restoreOneFile _ _ _ _ _ s) as [[n|err] s2]; cbn [map_error]; intros [= <- <-].
  - eexists first, _. by split.
  - eexists _, _. split; [done|]. destruct first as [e0|]; [done|]. intros e [= <-]. apply Errorf_w_text.
Qed.

Lemma restore_loop_loud codec ids id target files first c s d s1 : (forall e, first = Some e -> err_msg e <> "") ->
  forM files (first, c) (restore_step (W:=W) codec ids id target) s = (d, s1) -> exists first' c', d = Ok (first', c') /\ forall e, first' = Some e -> err_msg e <> "".
Proof.
  revert first c s. induction files as [|f files IH]; intros first c s Hf; cbn [forM]; [intros [= <- _]; by exists first, c|].
  unfold bind. destruct (restore_step codec ids id target (first, c) f s) as [r s2] eqn:E. apply restore_step_loud in E as (first' & c' & -> & Hf'); [|done]. by apply IH.
Qed.

Lemma restore_files_loud codec ids id target files : loud (restore_files (W:=W) codec ids id target files).
Proof.
  intros s e s'. unfold restore_files, bind. destruct (forM files _ _ s) as [d s1] eqn:E. apply restore_loop_loud in E as (first & c & -> & Hf); [|done].
  cbn [fst snd]. destruct first as [err|]; [|done]. intros [= <- _]. by apply Hf.
Qed.

#[local] Hint Resolve restore_files_loud : go.

Lemma build_chain_loud depth id chain : loud (build_chain (W:=W) depth id chain).
Proof. revert id chain. induction depth as [|depth IH]; intros id chain; cbn [build_chain]; loudly. Qed.

Lemma loud_cleaned {A B} (m : M W A) (c : M W B) : loud m -> loud (r <- try m ;; try c ;;; of_result r).
Proof.
  intros Hm s e s'. unfold bind, try, of_result. destruct (m s) as [r s1] eqn:E. destruct (c s1) as [rc s2]. intros [= -> _]. by eapply Hm.
Qed.

Lemma finishRestore_loud opts id : loud (finishRestore (W:=W) opts id).
Proof. unfold finishRestore, copy_wal. loudly. Qed.

Lemma runCombineChain_loud sched opts codec id : loud (runCombineChain (W:=W) sched opts codec id).
Proof. unfold runCombineChain. repeat (apply loud_bind; [loudly|intros]). destruct (_ <? _)%nat; [loudly|]. apply loud_bind; [loudly|intros]. apply loud_cleaned. loudly. Qed.

#[local] Hint Resolve finishRestore_loud runCombineChain_loud : go.

Lemma Run_loud sched opts : loud (Restore.Run (W:=W) sched opts).
Proof.
  unfold Restore.Run, findLatestBackup. repeat match goal with |- loud (if ?c then _ else _) => destruct c; [loudly|] end.
  apply loud_bind; [|intros; loudly]. intros s e s'. unfold of_result, validatePITRExclusive. repeat case_match; by intros [= <- _].
Qed.
End run_loud.

(** ** What the worker does *)

(** The text of an identity is parsed to it. *)
Class AgeTextsLaw `{AgeTexts, !AgeKeys} : Prop := identity_text i s : age_IdentityText i = Some s -> age_ParseIdentities s = Ok [i].

Section through.
Context {W : Type} `{BackendLaws W, !Host W, !HostLaws W, !Disk W, FilterLibs, !AgeTexts, !AgeKeys, !AgeTextsLaw, !Minting W, !Dialing W, !DialingQuiet W, !WorkerHost W,
  !WorkerHostLaws W, !Transport W, !TransportQuiet W}.

Lemma identity_blobs_parse ids blobs : identity_blobs ids = Ok blobs -> parseIdentitiesPEM blobs = Ok ids.
Proof.
  revert blobs. induction ids as [|i ids IH]; intros blobs; cbn [identity_blobs]; [by intros [= <-]|].
  destruct (age_IdentityText i) as [s|] eqn:Ei; [|done]. destruct (identity_blobs ids) as [bs|err]; cbn [map_result]; [|done]. intros [= <-].
  cbn [parseIdentitiesPEM]. by rewrite (identity_text i s Ei), (IH bs eq_refl).
Qed.

Lemma tunnel_credential_ok port pem path : 49152 <= port <= 65535 -> valid_utf8 path = true -> credential_ok (sftp_credential (tunnel_key port pem path)).
Proof.
  intros Hp Hu. split; try done. split; [|unfold is_i64; cbn; lia]. unfold valid_strings. repeat (apply Forall_cons; split; [done|]). constructor.
Qed.

Lemma deferring_Ok {A} close (m : M W A) s a s' : deferring close m s = (Ok a, s') -> exists s1, m s = (Ok a, s1).
Proof. unfold deferring, bind, try, of_result. destruct (m s) as [r s1]. destruct (close s1) as [rc s2]. intros [= -> _]. by exists s1. Qed.

Lemma PickRemotePort_range (s : W) port s' : PickRemotePort s = (Ok port, s') -> 49152 <= port <= 65535.
Proof. intros Hrun. apply bind_inv_Ok in Hrun as (b & s1 & _ & [= <- _]). apply port_of_range. Qed.

(** A restore the worker reports no error of. *)
Lemma worker_Restore_Ok sched req w s resp w' s' : worker_Restore sched req w s = (Ok (resp, w'), s') -> rp_Error resp = "" ->
  exists cred b cleanup s1 ids res s2, cred_Unmarshal (rr_Credentials req) = Ok cred /\ OpenBackendFromCredential cred s = (Ok (b, cleanup), s1) /\
    parseIdentitiesPEM (rr_AgeIdentities req) = Ok ids /\ runRestoreOnWorker sched b req ids s1 = (Ok res, s2) /\
    resp = {| rp_BackupID := Restore.rr_BackupID res; rp_Files := rr_Files res; rp_WAL := rr_WAL res; rp_Bytes := rr_Bytes res; rp_Error := "" |}.
Proof.
  unfold worker_Restore. destruct (cred_Unmarshal _) as [cred|err]; [|by intros [= <- _ _]]. unfold bind at 1, try at 1.
  destruct (OpenBackendFromCredential cred s) as [[[b cleanup]|err] s1] eqn:Eo; [|by intros [= <- _ _]]. unfold bind at 1.
  destruct (parseIdentitiesPEM _) as [ids|err] eqn:Ei; [|intros Hrun Herr; apply bind_inv_Ok in Hrun as (? & ? & _ & [= <- _ _]); done].
  unfold bind at 1, try at 1. destruct (runRestoreOnWorker sched b req ids s1) as [r s2] eqn:Er. unfold ret at 1.
  intros Hrun Herr. apply bind_inv_Ok in Hrun as (? & ? & _ & [= <- _ _]). destruct r as [res|err].
  - by exists cred, b, cleanup, s1, ids, res, s2.
  - cbn in Herr. unfold runRestoreOnWorker in Er. by destruct (Run_loud (H:=rb_Backend b) _ _ _ _ _ Er Herr).
Qed.

Lemma drive_restore_Ok sched opts workers st port pem w s res s' : 49152 <= port <= 65535 -> valid_utf8 (st_Path st) = true ->
  drive_restore sched opts workers st port pem w s = (Ok res, s') ->
  exists b cleanup s1 s2 s3, same_outside wal_key s s1 /\ OpenBackendFromCredential (sftp_credential (tunnel_key port pem (st_Path st))) s1 = (Ok (b, cleanup), s2) /\
    Restore.Run (H:=rb_Backend b) sched (worker_options opts) s2 = (Ok res, s3).
Proof.
  intros Hp Hu. destruct (cred_text_parses _ (tunnel_credential_ok port pem (st_Path st) Hp Hu)) as (text & Hm & Hun).
  unfold drive_restore. unfold bind at 1. pose proof (preserves_wrapping _ "restore: rpc.Hello" _ (cli_Hello_quiet w) s) as Hq1.
  destruct (wrapping "restore: rpc.Hello" (cli_Hello w) s) as [[[hr w1]|err] s1]; cbn [snd] in *; [|done]. rewrite Hm. unfold of_result at 1. cbn [map_error]. unfold bind at 1.
  unfold of_result at 1. destruct (identity_blobs (ro_Identities opts)) as [blobs|err] eqn:Ei; unfold bind at 1; [|done].
  intros Hrun. apply bind_inv_Ok in Hrun as ([resp w2] & s2 & Hc%wrapping_inv_Ok & Hrun). unfold of_result, check_restore in Hrun. cbn [fst] in Hrun.
  destruct (String.eqb_spec (rp_Error resp) "") as [He|]; [|done]. injection Hrun as <- <-.
  apply checked_inv in Hc as (rr & Hc & Hrr). destruct rr as [resp'|err]; [|done]. injection Hrr as ->. apply call_inv in Hc as (s3 & s4 & Hq3 & Hw & _).
  apply worker_Restore_Ok in Hw as (cred & b & cleanup & s5 & ids & res & s6 & Hcu & Ho & Hids & Hrun & ->); [|done].
  cbn in Hcu, Hids. rewrite Hun in Hcu. injection Hcu as <-. rewrite (identity_blobs_parse _ _ Ei) in Hids. injection Hids as <-.
  exists b, cleanup, s3, s5, s6. split; [by etrans|]. split; [done|]. cbn. unfold runRestoreOnWorker in Hrun. destruct res. exact Hrun.
Qed.
End through.

(** C25: a successful restore through a worker is a restore of the worker's own: the storage it opened is the tunnel to
    the caller's, nothing but WAL was written to the storage before, the identities are those of
    the caller, and the result is that of [Run] with the caller's options, except that the map of
    tablespaces and every target of recovery are left out. *)
Theorem worker_restore_is_Run {W : Type} `{BackendLaws W, !Host W, !HostLaws W, !Disk W, FilterLibs, !AgeTexts, !AgeKeys, !AgeTextsLaw, !Minting W, !Dialing W,
    !DialingQuiet W, !WorkerHost W, !WorkerHostLaws W, !Transport W, !TransportQuiet W} sched opts workers wo (s : W) res s' :
  valid_utf8 (st_Path (rw_CallerStorage wo)) = true -> Run_through sched opts workers (Some wo) s = (Ok res, s') ->
  exists port pem b cleanup s1 s2 s3, 49152 <= port <= 65535 /\ same_outside wal_key s s1 /\
    OpenBackendFromCredential (sftp_credential (tunnel_key port pem (st_Path (rw_CallerStorage wo)))) s1 = (Ok (b, cleanup), s2) /\
    Restore.Run (H:=rb_Backend b) sched (worker_options opts) s2 = (Ok res, s3).
Proof.
  intros Hu. unfold Run_through, runWorkerRestore. repeat match goal with |- (if ?c then _ else _) s = _ -> _ => destruct c; [done|] end.
  unfold bind at 1. pose proof (preserves_wrapping _ "restore: sftptunnel start" _ (tunnel_start_quiet (st_Path (rw_CallerStorage wo))) s) as Hq1.
  destruct (wrapping "restore: sftptunnel start" _ s) as [[[lport pem]|err] s1]; cbn [snd] in Hq1; [|done]. intros (s2 & Hrun)%deferring_Ok.
  unfold bind at 1 in Hrun. pose proof (preserves_wrapping _ "restore: pick remote port" _ PickRemotePort_quiet s1) as Hq2.
  destruct (wrapping "restore: pick remote port" PickRemotePort s1) as [[port|err] s3] eqn:Ep; cbn [snd] in Hq2; [|done]. apply wrapping_inv_Ok in Ep.
  unfold bind at 1 in Hrun. match type of Hrun with context [wrapping "restore: ssh.Dial" ?m] => pose proof (preserves_wrapping _ "restore: ssh.Dial" _ (ssh_session_quiet _ _ _ : quiet m) s3) as Hq3;
    destruct (wrapping "restore: ssh.Dial" m s3) as [[v|err] s4]; cbn [snd] in Hq3; [|done] end.
  apply deferring_Ok in Hrun as (s5 & Hrun). apply deferring_Ok in Hrun as (s6 & Hrun).
  pose proof (PickRemotePort_range _ _ _ Ep) as Hrange. apply drive_restore_Ok in Hrun as (b & cleanup & s7 & s8 & s9 & Hq & Ho & Hr); [|done|done].
  exists port, pem, b, cleanup, s7, s8, s9. split_and!; [lia|lia| |done|done]. etrans; [exact Hq1|]. etrans; [exact Hq2|]. etrans; [exact Hq3|exact Hq].
Qed.

(** ** A worker on the host to restore on *)

#[export] Instance sample_texts : AgeTexts (H:=framing_libs) := fun i : nat => if (i =? 7)%nat then Some "AGE-SECRET-KEY-1" else None.

#[export] Instance sample_texts_law : AgeTextsLaw (H:=framing_libs).
Proof. intros i s. unfold age_IdentityText, sample_texts. destruct (Nat.eqb_spec i 7) as [->|]; [|done]. by intros [= <-]. Qed.

Definition restore_through : RestoreWorkerOptions :=
  {| rw_SSHTarget := "db2"; rw_SSHExtraArgs := []; rw_RemoteCommand := []; rw_CallerStorage := wo_Storage tunnel_options |}.

Definition stored_world : world := worker_world backup_options caller_options.
#[local] Abbreviation restore_run opts := (Run_through (H2:=framing_libs) id opts 4 (Some restore_through) stored_world).

Lemma worker_restore_is_Run_witness : exists res s' b s2 s3, restore_run restored_options = (Ok res, s') /\
  Restore.Run (H:=rb_Backend (W:=world) b) (H2:=framing_libs) id (worker_options (H2:=framing_libs) restored_options) s2 = (Ok res, s3).
Proof.
  assert (Hok : isOk (fst (restore_run restored_options)) = true) by (vm_compute; reflexivity).
  destruct (restore_run restored_options) as [[res|e] s'] eqn:Hrun; [|discriminate Hok].
  destruct (worker_restore_is_Run (H1:=framing_libs) id restored_options 4 restore_through stored_world res s' eq_refl Hrun)
    as (port & pem & b & cleanup & s1 & s2 & s3 & _ & _ & _ & Hr).
  exists res, s', b, s2, s3. split; [reflexivity|exact Hr].
Defined.

(** ** What goes wrong *)

(** Restoring to a point in time: two targets and an action that does not exist. *)
Definition targeted_options : Restore.Options (H:=framing_libs) :=
  {| ro_Target := "/data"; ro_Identities := [7%nat] : list (Identity (FilterLibs:=framing_libs)); ro_BackupID := "20260401T100000F";
     ro_TablespaceRemap := {[16385 := "/mnt/ts"]}; ro_StandbyMode := false; ro_RestoreCommand := "cp /wal/%f %p"; ro_TargetTime := None;
     ro_TargetXID := Some 7; ro_TargetLSN := None; ro_TargetName := "before"; ro_TargetAction := "stop" |}.

(** Through a worker the targets are neither checked nor sent: the restore succeeds and recovery runs to the end of the WAL. *)
Lemma worker_restore_drops_targets :
  isOk (fst (Run_through (H2:=framing_libs) id targeted_options 4 None stored_world)) = false /\
  let '(r, s') := restore_run targeted_options in
  isOk r = true /\ match host_files s' !! "/data/postgresql.auto.conf" with Some c => Contains c "recovery_target" = false | None => False end.
Proof. vm_compute. repeat split. Qed.
