(* ===== verification/Check.v ===== *)
(** * The diagnosis battery

    [internal/check/check.go]: the probes of [pgsafe check], and what a report without a failure
    says about the storage. *)

From S2P Require Import Prelude Wal Storage Keys Host Time Json Manifest ManifestSpec Info InfoSpec Worlds Archive Bracket BracketSpec RestoreSpec.

(** ** The probes *)

(** [Probe], [Report] and [Options] *)
Record Probe := { pr_Name : string; pr_OK : bool; pr_Detail : string }.
Record Report := { rp_Probes : list Probe }.
Record CheckOptions := { co_Backend : bool; co_Pool : bool }.

(** [Report.AllOK] *)
Definition AllOK (r : Report) : bool := forallb pr_OK (rp_Probes r).

(** [Warning.String] *)
Definition Warning_String (w : Warning) : string := "warning: backup " +:+ wn_BackupID w +:+ ": " +:+ err_msg (wn_Err w).

(** [errors.Is(err, errNotExist{})]: no other package can make an error of this private type. *)
Definition is_errNotExist (err : error) : bool := false.

(** The incrementals without a parent in the listing. *)
Definition orphans (records : list BackupRecord) : list string :=
  let have := r_BackupID <$> records in
  omap (fun r =>
    if negb (String.eqb (r_Type r) BackupTypeIncremental) then None
    else if String.eqb (r_ParentBackupID r) "" then Some (r_BackupID r +:+ " (no parent recorded)")
    else if bool_decide (r_ParentBackupID r ∈ have) then None
    else Some (r_BackupID r +:+ " → " +:+ r_ParentBackupID r)) records.

Section check.
Context {W : Type} `{Backend W, Clock W, Pg W}.

Definition probe (name : string) (ok : bool) (detail : string) : M W Probe :=
  ret {| pr_Name := name; pr_OK := ok; pr_Detail := detail |}.

(** [probeStorageReachable] *)
Definition probeStorageReachable (backend : bool) : M W Probe :=
  let name := "storage_reachable" in
  if negb backend then probe name true "(skipped: no backend)"
  else
    r <- try (be_List "") ;;
    match r with
    | Fail err => probe name false (err_msg err)
    | Ok _ => probe name true ("List(ctx, " +:+ quoted "" +:+ ") OK")
    end.

(** [probeInfoDecodable] *)
Definition probeInfoDecodable (backend : bool) : M W Probe :=
  let name := "info_decodable" in
  if negb backend then probe name true "(skipped: no backend)"
  else
    r <- try Info.List ;;
    match r with
    | Fail err => probe name false (err_msg err)
    | Ok (_, []) => probe name true "every sidecar decodes"
    | Ok (_, (first :: _) as warnings) =>
        probe name false (FormatD (Z.of_nat (length warnings)) +:+ " sidecar(s) failed to decode: " +:+ Warning_String first)
    end.

(** [probeChainIntegrity] *)
Definition probeChainIntegrity (backend : bool) : M W Probe :=
  let name := "chain_integrity" in
  if negb backend then probe name true "(skipped: no backend)"
  else
    r <- try Info.List ;;
    match r with
    | Fail err => probe name false (err_msg err)
    | Ok (records, _) =>
        let orphans := orphans records in
        if (0 <? length orphans)%nat
        then probe name false (FormatD (Z.of_nat (length orphans)) +:+ " orphan(s): [" +:+ Join orphans " " +:+ "]")
        else probe name true "every incremental traces to a present full"
    end.

(** [probeWALExpected] *)
Definition probeWALExpected (backend : bool) : M W Probe :=
  let name := "wal_expected" in
  if negb backend then probe name true "(skipped: no backend)"
  else
    r <- try Info.List ;;
    match r with
    | Fail err => probe name false (err_msg err)
    | Ok (records, _) =>
        entries <- try (be_List "wal") ;;
        match entries with
        | Fail err =>
            if is_errNotExist err then probe name true "no wal/ subdir yet (fresh storage)" else probe name false (err_msg err)
        | Ok walEntries =>
            if (length records =? 0)%nat then probe name true "no backups yet"
            else if (length walEntries =? 0)%nat then probe name false "wal/ is empty but the storage has backups"
            else probe name true (FormatD (Z.of_nat (length walEntries)) +:+ " WAL segments archived")
        end
    end.

(** [probeArchiveCommand] *)
Definition probeArchiveCommand (opts : CheckOptions) : M W Probe :=
  let name := "archive_command" in
  if negb (co_Pool opts) then probe name true "(skipped: no pool)"
  else if negb (co_Backend opts) then probe name true "(skipped: no backend)"
  else
    r <- try (ProbeArchive (30 * Second)) ;;
    match r with
    | Fail err => probe name false (err_msg err)
    | Ok _ => probe name true "archive_command delivers to storage"
    end.

(** [probeStandbyCoordination] *)
Definition probeStandbyCoordination (opts : CheckOptions) : M W Probe :=
  let name := "standby_coordination" in
  if negb (co_Pool opts) then probe name true "(skipped: no pool)"
  else
    r <- try InspectStandby ;;
    match r with
    | Fail err => probe name false (err_msg err)
    | Ok _ => probe name true "PG state allows backup"
    end.

(** [Run] *)
Definition Run (opts : CheckOptions) : M W Report :=
  p1 <- probeStorageReachable (co_Backend opts) ;;
  p2 <- probeInfoDecodable (co_Backend opts) ;;
  p3 <- probeChainIntegrity (co_Backend opts) ;;
  p4 <- probeWALExpected (co_Backend opts) ;;
  p5 <- probeArchiveCommand opts ;;
  p6 <- probeStandbyCoordination opts ;;
  ret {| rp_Probes := [p1; p2; p3; p4; p5; p6] |}.

(** The exit status of [runCheck]. *)
Definition check_exit (r : Report) : Z := if AllOK r then 0 else 5.
End check.

(** ** What a report says *)

Section check_spec.
Context {W : Type} `{BackendLaws W, !Clock W, !ClockLaws W, !Pg W}.

(** Every probe of the storage leaves it alone and returns. *)
Definition reads (m : M W Probe) : Prop := forall w, exists p w', m w = (Ok p, w') /\ view w' = view w.

Lemma try_List w : exists r w', Info.List w = (r, w') /\ view w' = view w.
Proof. destruct (Info.List w) as [r w'] eqn:E. exists r, w'. split; [done|]. by apply List_spec in E as [? _]. Qed.

Lemma storage_reachable_reads b : reads (probeStorageReachable b).
Proof.
  intros w. unfold probeStorageReachable, bind, try, probe, ret. destruct (negb b); [by eexists _, w|]. pose proof (list_view "" w) as Hv.
  destruct (be_List "" w) as [[l|e] w1]; by eexists _, w1.
Qed.

Lemma info_decodable_spec b w : exists p w', probeInfoDecodable b w = (Ok p, w') /\ view w' = view w /\
  (b = true -> pr_OK p = true -> forall id, backup_at (view w) id -> exists sc, sidecar_at (view w) id sc).
Proof.
  unfold probeInfoDecodable, bind, try, probe, ret. destruct b; cbn [negb]; [|by eexists _, w].
  destruct (Info.List w) as [[[recs ws]|e] w1] eqn:E; destruct (List_spec _ _ _ E) as [Hv Hl]; [|eexists _, w1; by split_and!].
  destruct ws as [|wn ws]; eexists _, w1; split_and!; try done. intros _ _ id Hid. destruct (Hl recs [] eq_refl) as [Hr Hall].
  destruct (Hall id Hid) as [Hin|[]%elem_of_nil]. apply list_elem_of_fmap in Hin as (r & -> & Hin). rewrite Forall_forall in Hr.
  destruct (Hr r Hin) as (_ & sc & Hsc & _). by exists sc.
Qed.

Lemma orphans_nil records r : orphans records = [] -> r ∈ records -> r_Type r = BackupTypeIncremental ->
  r_ParentBackupID r <> "" /\ exists p, p ∈ records /\ r_BackupID p = r_ParentBackupID r.
Proof.
  intros Ho Hr Ht. unfold orphans in Ho. set (f := fun r => _) in Ho.
  assert (Hf : f r = None).
  { destruct (f r) as [s|] eqn:E; [|done]. assert (Hin : s ∈ omap f records) by (apply list_elem_of_omap; by exists r).
    rewrite Ho in Hin. by apply elem_of_nil in Hin. }
  unfold f in Hf. rewrite Ht, String.eqb_refl in Hf. cbn [negb] in Hf. destruct (String.eqb_spec (r_ParentBackupID r) ""); [done|].
  split; [done|]. destruct (bool_decide (r_ParentBackupID r ∈ r_BackupID <$> records)) eqn:Eb; [|done].
  apply bool_decide_eq_true, list_elem_of_fmap in Eb as (p & E & Hp). by exists p.
Qed.

(** The parent an incremental record names. *)
Definition parent_at (v : gmap string string) (r : BackupRecord) : Prop :=
  r_Type r = BackupTypeIncremental -> r_ParentBackupID r <> "" /\ exists sc, sidecar_at v (r_ParentBackupID r) sc.

(** Over the parents listed in [recs] a record leads to a backup that is not incremental. *)
Inductive traced (recs : list BackupRecord) (r : BackupRecord) : Prop :=
| traced_full : r_Type r <> BackupTypeIncremental -> traced recs r
| traced_incremental p : p ∈ recs -> r_BackupID p = r_ParentBackupID r -> traced recs p -> traced recs r.

(** Parents come before their incrementals, by the measure [rank] of an ID (the time in it, say). *)
Definition parents_older (rank : string -> nat) (recs : list BackupRecord) : Prop :=
  Forall (fun r => r_Type r = BackupTypeIncremental -> (rank (r_ParentBackupID r) < rank (r_BackupID r))%nat) recs.

Lemma orphans_traced records rank : orphans records = [] -> parents_older rank records -> Forall (traced records) records.
Proof.
  intros Ho Hold. unfold parents_older in Hold. rewrite Forall_forall in Hold. apply Forall_forall. intros r. remember (rank (r_BackupID r)) as n eqn:En.
  revert r En. induction n as [n IH] using lt_wf_ind. intros r -> Hr.
  destruct (decide (r_Type r = BackupTypeIncremental)) as [Ht|]; [|by apply traced_full].
  destruct (orphans_nil records r Ho Hr Ht) as [_ (p & Hp & E)]. apply (traced_incremental _ _ p Hp E). eapply IH; [|done|done].
  rewrite E. by apply Hold.
Qed.

Lemma chain_integrity_spec b w : exists p w', probeChainIntegrity b w = (Ok p, w') /\ view w' = view w /\
  (b = true -> pr_OK p = true -> exists recs ws, Info.List w = (Ok (recs, ws), w') /\ Forall (parent_at (view w)) recs /\
     forall rank, parents_older rank recs -> Forall (traced recs) recs).
Proof.
  unfold probeChainIntegrity, bind, try, probe, ret. destruct b; cbn [negb]; [|by eexists _, w].
  destruct (Info.List w) as [[[recs ws]|e] w1] eqn:E; destruct (List_spec _ _ _ E) as [Hv Hl]; [|eexists _, w1; by split_and!].
  destruct (Hl recs ws eq_refl) as [Hr _]. destruct (Nat.ltb_spec 0 (length (orphans recs))) as [Ho|Ho]; eexists _, w1; split_and!; try done.
  intros _ _. exists recs, ws. split; [done|]. assert (Hnil : orphans recs = []) by (destruct (orphans recs); [done|cbn in Ho; lia]).
  split; [|intros rank; by apply orphans_traced]. apply Forall_forall. intros r Hin Ht. destruct (orphans_nil recs r Hnil Hin Ht) as [Hne (p & Hp & E')]. split; [done|].
  rewrite Forall_forall in Hr. destruct (Hr p Hp) as (_ & sc & Hsc & _). exists sc. by rewrite <- E'.
Qed.

(** The listing [recs] of a storage with backups goes with some WAL. *)
Definition wal_at (v : gmap string string) (recs : list BackupRecord) : Prop :=
  recs <> [] -> exists q, is_Some (v !! q) /\ inside "wal" q = true.

Lemma wal_expected_spec b w : exists p w', probeWALExpected b w = (Ok p, w') /\ view w' = view w /\
  (b = true -> pr_OK p = true -> exists recs ws w1, Info.List w = (Ok (recs, ws), w1) /\ wal_at (view w) recs).
Proof.
  unfold probeWALExpected, bind, try, probe, ret. destruct b; cbn [negb]; [|by eexists _, w].
  destruct (Info.List w) as [[[recs ws]|e] w1] eqn:E; destruct (List_spec _ _ _ E) as [Hv _]; [|eexists _, w1; by split_and!].
  destruct (list_spec "wal" w1) as [Hv2 Hl]. destruct (be_List "wal" w1) as [[entries|e] w2] eqn:El; cbn [snd is_errNotExist] in *;
    [|eexists _, w2; split_and!; [done|congruence|done]].
  assert (Hv3 : view w2 = view w) by congruence. destruct (Hl entries w2 eq_refl) as [_ Hin].
  destruct recs as [|r recs]; [eexists _, w2; split_and!; [done|done|]; intros _ _; exists [], ws, w1; split; [done|]; intros Hne; by destruct Hne|]. cbn [length Nat.eqb].
  destruct entries as [|fi entries]; [eexists _, w2; by split_and!|]. eexists _, w2. split_and!; [done|done|]. intros _ _.
  exists (r :: recs), ws, w1. split; [done|]. intros _. destruct (Hin fi) as (_ & c & Hc & Hi & _); [by constructor|].
  exists (fi_Path fi). rewrite <- Hv. split; [by exists c|by apply Hi].
Qed.

Lemma archive_command_spec `{!PgLaws W} opts w : exists p w', probeArchiveCommand opts w = (Ok p, w') /\ same_outside wal_key w w'.
Proof.
  unfold probeArchiveCommand, bind, try, probe, ret. destruct (negb (co_Pool opts)); [by eexists _, w|].
  destruct (negb (co_Backend opts)); [by eexists _, w|]. pose proof (ProbeArchive_quiet (30 * Second) w) as Hq.
  destruct (ProbeArchive (30 * Second) w) as [[[]|e] w1]; by eexists _, w1.
Qed.

Lemma standby_coordination_spec `{!PgLaws W} opts w : exists p w', probeStandbyCoordination opts w = (Ok p, w') /\ same_outside wal_key w w'.
Proof.
  unfold probeStandbyCoordination, bind, try, probe, ret. destruct (negb (co_Pool opts)); [by eexists _, w|].
  pose proof (InspectStandby_quiet w) as Hq. destruct (InspectStandby w) as [[[]|e] w1]; by eexists _, w1.
Qed.
End check_spec.

(** C37: a check of a storage always ends in a report and changes nothing but the WAL others archive meanwhile; a report without a failure
    means three things, each of the storage as it is. Every backup in it has a sidecar that decodes. Every incremental that the listing of the
    probe could read has the parent it names in the storage, and where parents are older than their incrementals (by any measure of their IDs) each leads
    over listed parents to a backup that is not incremental. And there is some WAL when that listing has a backup. This is less than the
    texts of [check.go] say: no start segment is looked for, and sidecars that name each other as parents pass ([check_accepts_cycle]). *)
Theorem check_sound {W : Type} `{BackendLaws W, !Clock W, !ClockLaws W, !Pg W, !PgLaws W} opts w :
  co_Backend opts = true -> exists report w', Run opts w = (Ok report, w') /\ same_outside wal_key w w' /\
    (AllOK report = true ->
       (forall id, backup_at (view w) id -> exists sc, sidecar_at (view w) id sc) /\
       (exists recs ws w1 w2, view w1 = view w /\ Info.List w1 = (Ok (recs, ws), w2) /\ Forall (parent_at (view w)) recs /\
          forall rank, parents_older rank recs -> Forall (traced recs) recs) /\
       (exists recs ws w1 w2, view w1 = view w /\ Info.List w1 = (Ok (recs, ws), w2) /\ wal_at (view w) recs)).
Proof.
  intros Hb. destruct (storage_reachable_reads (co_Backend opts) w) as (p1 & w1 & E1 & Hv1).
  destruct (info_decodable_spec (co_Backend opts) w1) as (p2 & w2 & E2 & Hv2 & H2).
  destruct (chain_integrity_spec (co_Backend opts) w2) as (p3 & w3 & E3 & Hv3 & H3).
  destruct (wal_expected_spec (co_Backend opts) w3) as (p4 & w4 & E4 & Hv4 & H4).
  destruct (archive_command_spec opts w4) as (p5 & w5 & E5 & Hq5). destruct (standby_coordination_spec opts w5) as (p6 & w6 & E6 & Hq6).
  exists {| rp_Probes := [p1; p2; p3; p4; p5; p6] |}, w6. split; [|split].
  - unfold Run, bind. by rewrite E1, E2, E3, E4, E5, E6.
  - etrans; [|etrans; [exact Hq5|exact Hq6]]. apply same_view_outside. unfold same_view. congruence.
  - unfold AllOK. cbn [rp_Probes forallb]. rewrite !andb_true_iff. intros (_ & O2 & O3 & O4 & _). rewrite Hb in *.
    assert (Hw2 : view w2 = view w) by congruence. assert (Hw3 : view w3 = view w) by congruence. split_and!.
    + intros id Hid. rewrite Hv1 in H2. by apply H2.
    + destruct (H3 eq_refl O3) as (recs & ws & Hl & Hp). exists recs, ws, w2, w3. rewrite <- Hw2. do 2 (split; [done|]). exact Hp.
    + destruct (H4 eq_refl O4) as (recs & ws & wl & Hl & Hp). exists recs, ws, w3, wl. rewrite <- Hw3. split_and!; [done|done|done].
Qed.

(** ** A storage with a full backup and an incremental *)

Definition checked_files : gmap string string :=
  {["20260401T100000F/backup_manifest" := "{}"; "20260401T100000F/Storage-Metadata.json" := sidecar_text (zstd_sidecar "full" "");
    "20260401T100000F_20260402T100000I/Storage-Metadata.json" := sidecar_text (zstd_sidecar "incremental" "20260401T100000F");
    SegmentKey 1 "000000010000000000000001" (Sha256.Sum256 "x") := "x"]}.
Definition checked_world : world := start_world checked_files ∅ [] [].
Definition check_options : CheckOptions := {| co_Backend := true; co_Pool := true |}.

Lemma check_passes : match fst (Run check_options checked_world) with Ok r => AllOK r | Fail _ => false end = true.
Proof. vm_compute. reflexivity. Qed.

Lemma check_sound_witness : exists report w', Run check_options checked_world = (Ok report, w') /\ AllOK report = true /\
  exists sc, sidecar_at (view checked_world) "20260401T100000F_20260402T100000I" sc.
Proof.
  destruct (check_sound check_options checked_world eq_refl) as (report & w' & Hrun & _ & Hall). pose proof check_passes as Hok.
  rewrite Hrun in Hok. cbn [fst] in Hok. exists report, w'. split; [exact Hrun|]. split; [exact Hok|].
  destruct (Hall Hok) as [Hsc _]. apply Hsc. exists "20260401T100000F_20260402T100000I/Storage-Metadata.json".
  split; [eexists; vm_compute; reflexivity|]. split; [reflexivity|]. split; reflexivity.
Defined.

(** Without its full backup the incremental is an orphan. *)
Lemma check_finds_orphan :
  match fst (Run check_options (start_world (delete "20260401T100000F/backup_manifest" (delete "20260401T100000F/Storage-Metadata.json" checked_files)) ∅ [] [])) with
  | Ok r => check_exit r
  | Fail _ => 0
  end = 5.
Proof. vm_compute. reflexivity. Qed.

(** Two incrementals that name each other as parents pass, though there is no full backup at all. *)
Definition cyclic_files : gmap string string :=
  {["20260402T100000I/backup_manifest" := "{}"; "20260402T100000I/Storage-Metadata.json" := sidecar_text (zstd_sidecar "incremental" "20260403T100000I");
    "20260403T100000I/backup_manifest" := "{}"; "20260403T100000I/Storage-Metadata.json" := sidecar_text (zstd_sidecar "incremental" "20260402T100000I");
    SegmentKey 1 "000000010000000000000001" (Sha256.Sum256 "x") := "x"]}.

Lemma check_accepts_cycle :
  match fst (Run check_options (start_world cyclic_files ∅ [] [])) with Ok r => AllOK r | Fail _ => false end = true.
Proof. vm_compute. reflexivity. Qed.
