(* ===== verification/Azure.v ===== *)
(** * The Azure driver

    [internal/storage/azure]: every operation of the driver over the calls of the SDK, and the proof
    that they make the storage interface. *)

From S2P Require Import Prelude Storage ObjectStore Cloud.

(** [errors.As] to [azcore.ResponseError]: its error code and the status of the response. *)
Class AzureErrors := { ResponseError : error -> option (string * Z) }.

Section driver.
Context `{AzureErrors}.

(** [isNotFound] *)
Definition isNotFound (err : error) : bool :=
  match ResponseError err with
  | None => false
  | Some (code, _) => String.eqb code "BlobNotFound" || String.eqb code "ContainerNotFound"
  end.

(** [isPreconditionFailed] *)
Definition isPreconditionFailed (err : error) : bool :=
  match ResponseError err with
  | None => false
  | Some (code, status) => (status =? 412) || String.eqb code "ConditionNotMet"
  end.

(** [Options] and [Backend]; of the client whether there is one, and its container. *)
Record Options := { o_ContainerClient : option string; o_Prefix : string }.
Record container := { z_cc : string; z_prefix : string }.

(** [New] *)
Definition New (opts : Options) : result container :=
  match o_ContainerClient opts with
  | None => Fail (errors_New "azure: ContainerClient is required")
  | Some cc => Ok {| z_cc := cc; z_prefix := TrimSuffix (o_Prefix opts) "/" |}
  end.

Context {S : Type} `{ObjectSDK S} (r : container).

(** [Open] *)
Definition Open : M S unit := wrapping "azure: GetProperties" (sdk_Reach (z_cc r)).

(** [blobName] *)
Definition blobName (relPath : string) : string :=
  if String.eqb (z_prefix r) "" then relPath else z_prefix r +:+ "/" +:+ relPath.

(** [Put] *)
Definition Put (relPath : string) : M (store S) nat :=
  if String.eqb relPath "" then throw (errors_New "azure: relPath is required")
  else open_pipe (z_cc r) (blobName relPath).

(** [writeCloser.Write] and [writeCloser.Close] *)
Definition Write (h : nat) (p : string) : M (store S) unit := pipe_Write h p.
Definition Close (h : nat) : M (store S) unit := pipe_Close "azure: upload" h.

(** [Commit] *)
Definition Commit (tmp final : string) : M S unit :=
  st <- try (sdk_Head (z_cc r) (blobName final)) ;;
  match st with
  | Ok _ => throw (errors_Sentinel OsErrExist "azure: Commit refuses to overwrite existing")
  | Fail err =>
      if negb (isNotFound err) then throw (Errorf_w "azure: GetProperties(final)" err)
      else
        copied <- try (sdk_Copy (z_cc r) (sdk_URL (z_cc r) (blobName tmp)) (blobName final) true) ;;
        match copied with
        | Fail err =>
            if isPreconditionFailed err then throw (errors_Sentinel OsErrExist "azure: Commit refuses to overwrite existing")
            else throw (Errorf_w "azure: CopyFromURL" err)
        | Ok _ => wrapping "azure: Delete(tmp)" (sdk_Delete (z_cc r) (blobName tmp))
        end
  end.

(** [Get] *)
Definition Get (relPath : string) : M S string :=
  resp <- try (sdk_Get (z_cc r) (blobName relPath)) ;;
  match resp with
  | Fail err => if isNotFound err then throw (errors_Sentinel OsErrNotExist "azure: Get") else throw (Errorf_w "azure: DownloadStream" err)
  | Ok body => of_result body
  end.

(** [Stat] *)
Definition Stat (relPath : string) : M S FileInfo :=
  resp <- try (sdk_Head (z_cc r) (blobName relPath)) ;;
  match resp with
  | Fail err => if isNotFound err then throw (errors_Sentinel OsErrNotExist "azure: Stat") else throw (Errorf_w "azure: GetProperties" err)
  | Ok resp => ret {| fi_Path := relPath; fi_Size := default 0 (at_Size resp); fi_ModTime := default 0 (at_Updated resp) |}
  end.

(** [stripPrefix] *)
Definition stripPrefix (repoPrefix name : string) : string :=
  if String.eqb repoPrefix "" then name else TrimPrefix name (repoPrefix +:+ "/").

(** [List] *)
Definition List (prefix : string) : M S (list FileInfo) :=
  let name := blobName prefix in
  let listPrefix := if negb (String.eqb name "") && negb (HasSuffix name "/") && negb (String.eqb prefix "") then name +:+ "/" else name in
  let pager := sdk_Pager (z_cc r) listPrefix in
  left <- read (fun s => sdk_left s pager) ;;
  list_pages "azure: ListBlobsFlat" (z_prefix r) left pager [].

(** [Delete] *)
Definition Delete (relPath : string) : M S unit :=
  resp <- try (sdk_Delete (z_cc r) (blobName relPath)) ;;
  match resp with
  | Fail err => if isNotFound err then throw (errors_Sentinel OsErrNotExist "azure: Delete") else throw (Errorf_w "azure: Delete" err)
  | Ok _ => ret tt
  end.

#[export] Instance azure_backend : Backend (store S) := {
  be_Writer := nat;
  be_Put := Put;
  be_Write := Write;
  be_Close := Close;
  be_Commit t f := on_sdk (Commit t f);
  be_Get p := on_sdk (Get p);
  be_Stat p := on_sdk (Stat p);
  be_List p := on_sdk (List p);
  be_Delete p := on_sdk (Delete p);
}.
End driver.

(** ** The driver is a storage *)

(** No retry of a copy depends on the service. *)
Definition never (err : error) : bool := false.

Section laws.
Context `{AzureErrors} {S : Type} (r : container) `{L : ObjectLaws S (z_cc r) isNotFound isPreconditionFailed never}.

Hypothesis source_named : forall k, names (sdk_URL (z_cc r) k) = Some k.
(** Under its prefix the container holds what pgSafe wrote. *)
Hypothesis own_names : forall s p, is_Some (objects s !! blobName r p) -> valid_key p = true.

Lemma azure_serves : serves (fun s => shown (z_prefix r) (objects s)) (Commit r) (Get r) (Stat r) (List r) (Delete r).
Proof.
  split.
  - intros t f s _ _ _ Hne. apply (commit_shape (z_prefix r) "azure: Commit refuses to overwrite existing" "azure: GetProperties(final)"
      "azure: CopyFromURL" "azure: Delete(tmp)" t f (sdk_Copy (z_cc r) (sdk_URL (z_cc r) (blobName r t)) (blobName r f) true) s Hne).
    apply (copy_v (z_prefix r)); [|done]. apply source_named.
  - intros p s _. apply (get_shape (z_prefix r)).
  - intros p s _. apply (stat_shape (z_prefix r)).
  - intros d s. apply (lists_spec (z_prefix r)); [exact own_names|]. apply (list_shape (z_prefix r)).
  - intros p s _. apply (delete_shape (z_prefix r)).
Qed.
End laws.

(** The Azure driver is a storage over a container that behaves as documented. *)
Theorem azure_implements `{AzureErrors} {S : Type} (r : container) `{L : ObjectLaws S (z_cc r) isNotFound isPreconditionFailed never} :
  (forall k, names (sdk_URL (z_cc r) k) = Some k) -> (forall s p, is_Some (objects s !! blobName r p) -> valid_key p = true) ->
  exists laws : @BackendLaws (store S) (azure_backend r), @FlatLaws _ _ laws /\
    forall w p, @view _ _ laws w !! p = objects (d_sdk w) !! blobName r p.
Proof.
  intros Hsource Hown.
  exists (pipe_laws (z_prefix r) "azure: upload" "azure: relPath is required" _ _ _ _ _ (azure_serves r Hsource Hown)).
  split; [apply pipe_flat|]. intros w p. apply shown_lookup.
Qed.

(** ** A container in memory *)

#[export] Instance cloud_azure_errors : AzureErrors := {
  ResponseError err :=
    if String.eqb (err_msg err) "NotFound" then Some ("BlobNotFound", 404)
    else if String.eqb (err_msg err) "Precondition Failed" then Some ("ConditionNotMet", 412) else None;
}.

#[local] Instance sample_sdk : ObjectSDK cloud := cloud_sdk "connection reset".
Definition sample_store : container := {| z_cc := cloud_bucket; z_prefix := cloud_prefix |}.

(** An upload whose first bytes are refused: the writer hands on the error, and nothing shows. *)
Definition torn_session : M (store cloud) (result unit * result unit) :=
  h <- Put sample_store "a" ;;
  written <- try (Write h "one") ;;
  closed <- try (Close h) ;;
  ret (written, closed).

Lemma azure_implements_witness : exists laws : @BackendLaws _ (azure_backend (S:=cloud) sample_store),
  (forall w p, @view _ _ laws w !! p = cloud_files (d_sdk w) !! blobName sample_store p) /\
  match torn_session (store_with "connection reset" [] [Refused]) with
  | (Ok (Fail _, Fail _), w) => map_to_list (cloud_files (d_sdk w)) = []
  | _ => False
  end.
Proof.
  assert (Hreads : cloud_reads "connection reset" isNotFound isPreconditionFailed never) by (split_and!; reflexivity).
  destruct (@azure_implements _ cloud sample_store _ (cloud_laws _ _ _ _ Hreads)) as (laws & _ & Hlaws).
  - intros k. apply cloud_source.
  - exact cloud_own.
  - exists laws. split; [exact Hlaws|vm_compute; reflexivity].
Defined.
