(* ===== verification/Gcs.v ===== *)
(** * The Google Cloud Storage driver

    [internal/storage/gcs]: every operation of the driver over the calls of the SDK, and the proof that
    they make the storage interface as long as the driver reads the errors of a copy rightly. It does
    not always: a push of WAL can report success for a segment that is nowhere. *)

From S2P Require Import Prelude Sha256 Storage Host Archive ObjectStore Cloud.

(** ** The parts of this SDK *)

(** [errors.Is(err, storage.ErrObjectNotExist)] and [errors.Is(err, iterator.Done)]. *)
Class GCSErrors := { ErrObjectNotExist : error -> bool; IteratorDone : error -> bool }.

(** [ObjectIterator.Next] *)
Class ObjectIterator (S : Type) `{ObjectSDK S} := { sdk_Next : Pager -> M S (Attrs * Pager) }.

Class IteratorLaws (S : Type) {bucket : string} {nf pf ni : error -> bool} `{GCSErrors, L : ObjectLaws S bucket nf pf ni, !ObjectIterator S} := {
  next_spec pg s : objects (snd (sdk_Next pg s)) = objects s /\
    (forall a pg', fst (sdk_Next pg s) = Ok (a, pg') ->
       pager_rest s pg = a :: pager_rest (snd (sdk_Next pg s)) pg' /\
       (sdk_left (snd (sdk_Next pg s)) pg' < sdk_left s pg)%nat) /\
    (forall e, fst (sdk_Next pg s) = Fail e ->
       plain_error e /\ (IteratorDone e = true -> pager_rest s pg = []));
}.

Section driver.
Context `{GCSErrors}.

(** [isPreconditionFailed]: by the text of the error. *)
Definition isPreconditionFailed (err : error) : bool :=
  let msg := err_msg err in
  Contains msg "Precondition Failed" || Contains msg "conditionNotMet" || Contains msg "412".

(** [Options] and [Backend]; of the client only whether there is one. *)
Record Options := { o_Client : bool; o_Bucket : string; o_Prefix : string }.
Record bucket_store := { g_bucket : string; g_prefix : string }.

(** [New] *)
Definition New (opts : Options) : result bucket_store :=
  if negb (o_Client opts) then Fail (errors_New "gcs: Client is required")
  else if String.eqb (o_Bucket opts) "" then Fail (errors_New "gcs: Bucket is required")
  else Ok {| g_bucket := o_Bucket opts; g_prefix := TrimSuffix (o_Prefix opts) "/" |}.

Context {S : Type} `{ObjectSDK S, !ObjectIterator S} (r : bucket_store).

(** [Open] *)
Definition Open : M S unit := wrapping "gcs: Bucket.Attrs" (sdk_Reach (g_bucket r)).

(** [objectName]; [obj] is the handle of that name. *)
Definition objectName (relPath : string) : string :=
  if String.eqb (g_prefix r) "" then relPath else g_prefix r +:+ "/" +:+ relPath.

(** [Put]: the writer is the SDK's. *)
Definition Put (relPath : string) : M S Upload :=
  if String.eqb relPath "" then throw (errors_New "gcs: relPath is required")
  else fun s => let '(w, s) := sdk_Start (g_bucket r) (objectName relPath) s in (Ok w, s).

(** [Commit] *)
Definition Commit (tmp final : string) : M S unit :=
  st <- try (sdk_Head (g_bucket r) (objectName final)) ;;
  match st with
  | Ok _ => throw (errors_Sentinel OsErrExist "gcs: Commit refuses to overwrite existing")
  | Fail err =>
      if negb (ErrObjectNotExist err) then throw (Errorf_w "gcs: Attrs(final)" err)
      else
        copied <- try (sdk_Copy (g_bucket r) (sdk_URL (g_bucket r) (objectName tmp)) (objectName final) true) ;;
        match copied with
        | Fail err =>
            if isPreconditionFailed err then throw (errors_Sentinel OsErrExist "gcs: Commit refuses to overwrite existing")
            else throw (Errorf_w "gcs: Copier.Run" err)
        | Ok _ => wrapping "gcs: Delete(tmp)" (sdk_Delete (g_bucket r) (objectName tmp))
        end
  end.

(** [Get] *)
Definition Get (relPath : string) : M S string :=
  rc <- try (sdk_Get (g_bucket r) (objectName relPath)) ;;
  match rc with
  | Fail err => if ErrObjectNotExist err then throw (errors_Sentinel OsErrNotExist "gcs: Get") else throw (Errorf_w "gcs: NewReader" err)
  | Ok body => of_result body
  end.

(** [Stat] *)
Definition Stat (relPath : string) : M S FileInfo :=
  attrs <- try (sdk_Head (g_bucket r) (objectName relPath)) ;;
  match attrs with
  | Fail err => if ErrObjectNotExist err then throw (errors_Sentinel OsErrNotExist "gcs: Stat") else throw (Errorf_w "gcs: Attrs" err)
  | Ok attrs => ret {| fi_Path := relPath; fi_Size := default 0 (at_Size attrs); fi_ModTime := default 0 (at_Updated attrs) |}
  end.

(** [stripPrefix] *)
Definition stripPrefix (repoPrefix name : string) : string :=
  if String.eqb repoPrefix "" then name else TrimPrefix name (repoPrefix +:+ "/").

(** The loop of [List], with the requests that are left as the measure. *)
Fixpoint iterate (n : nat) (it : Pager) (out : list FileInfo) : M S (list FileInfo) :=
  attrs <- try (sdk_Next it) ;;
  match attrs with
  | Fail err => if IteratorDone err then ret out else throw (Errorf_w "gcs: Objects iterator" err)
  | Ok (attrs, it) =>
      match n with
      | O => throw (errors_New "more objects than are left")
      | Datatypes.S n' =>
          iterate n' it (out ++ [{| fi_Path := stripPrefix (g_prefix r) (at_Name attrs); fi_Size := default 0 (at_Size attrs);
                                    fi_ModTime := default 0 (at_Updated attrs) |}])
      end
  end.

(** [List] *)
Definition List (prefix : string) : M S (list FileInfo) :=
  let name := objectName prefix in
  let listPrefix := if negb (String.eqb name "") && negb (HasSuffix name "/") && negb (String.eqb prefix "") then name +:+ "/" else name in
  let it := sdk_Pager (g_bucket r) listPrefix in
  left <- read (fun s => sdk_left s it) ;;
  iterate left it [].

(** [Delete] *)
Definition Delete (relPath : string) : M S unit :=
  err <- try (sdk_Delete (g_bucket r) (objectName relPath)) ;;
  match err with
  | Fail err => if ErrObjectNotExist err then throw (errors_Sentinel OsErrNotExist "gcs: Delete") else throw (Errorf_w "gcs: Delete" err)
  | Ok _ => ret tt
  end.

#[export] Instance gcs_backend : Backend S := {
  be_Writer := Upload;
  be_Put := Put;
  be_Write := sdk_Feed;
  be_Close := sdk_Finish;
  be_Commit := Commit;
  be_Get := Get;
  be_Stat := Stat;
  be_List := List;
  be_Delete := Delete;
}.
End driver.

(** ** The driver is a storage *)

(** No retry of a copy depends on the service. *)
Definition never (err : error) : bool := false.

Section laws.
Context {S : Type} (r : bucket_store) `{GCSErrors, L : ObjectLaws S (g_bucket r) ErrObjectNotExist isPreconditionFailed never}.
Context `{!ObjectIterator S, !IteratorLaws S}.

Hypothesis source_named : forall k, names (sdk_URL (g_bucket r) k) = Some k.
(** Under its prefix the bucket holds what pgSafe wrote. *)
Hypothesis own_names : forall s p, is_Some (objects s !! objectName r p) -> valid_key p = true.

Lemma iterate_run n it out s : (sdk_left s it <= n)%nat ->
  objects (snd (iterate r n it out s)) = objects s /\
  (forall l, fst (iterate r n it out s) = Ok l -> l = out ++ (object_info (g_prefix r) <$> pager_rest s it)) /\
  (forall e, fst (iterate r n it out s) = Fail e -> plain_error e).
Proof.
  revert it out s. induction n as [|n IH]; intros it out s Hn; cbn [iterate]; munfold; destruct (next_spec it s) as (Hv & Hok & Hfail);
    destruct (sdk_Next it s) as [[[a it']|e] s1]; cbn [fst snd] in *.
  - destruct (Hok a it' eq_refl) as [_ Hl]. lia.
  - destruct (Hfail e eq_refl) as [Hp Hd]. destruct (IteratorDone e); cbn [fst snd]; (split_and!; [done|..]); try done.
    + intros l [= <-]. by rewrite Hd, app_nil_r.
    + by intros e' [= <-].
  - destruct (Hok a it' eq_refl) as [Hr Hl]. destruct (IH it' (out ++ [object_info (g_prefix r) a]) s1) as (Hv2 & Hok2 & Hf2); [lia|].
    split_and!; [by rewrite <- Hv| |done]. intros l Hrun. rewrite (Hok2 l Hrun), Hr. by rewrite <- app_assoc.
  - destruct (Hfail e eq_refl) as [Hp Hd]. destruct (IteratorDone e); cbn [fst snd]; (split_and!; [done|..]); try done.
    + intros l [= <-]. by rewrite Hd, app_nil_r.
    + by intros e' [= <-].
Qed.

Lemma gcs_serves : serves (fun s => shown (g_prefix r) (objects s)) (Commit r) (Get r) (Stat r) (List r) (Delete r).
Proof.
  split.
  - intros t f s _ _ _ Hne. apply (commit_shape (g_prefix r) "gcs: Commit refuses to overwrite existing" "gcs: Attrs(final)"
      "gcs: Copier.Run" "gcs: Delete(tmp)" t f (sdk_Copy (g_bucket r) (sdk_URL (g_bucket r) (objectName r t)) (objectName r f) true) s Hne).
    apply (copy_v (g_prefix r)); [|done]. apply source_named.
  - intros p s _. apply (get_shape (g_prefix r)).
  - intros p s _. apply (stat_shape (g_prefix r)).
  - intros d s. apply (lists_spec (g_prefix r)); [exact own_names|]. intros s'. by apply (iterate_run _ _ [] s').
  - intros p s _. apply (delete_shape (g_prefix r)).
Qed.

(** An open writer: its key and what the upload has got. *)
Definition gcs_pending (s : S) (u : Upload) : option (string * string) :=
  match uploading s u with
  | Some (k, c) => if owned (g_prefix r) k then Some (unrooted (g_prefix r) k, c) else None
  | None => None
  end.

Lemma gcs_pending_inv s u p c : gcs_pending s u = Some (p, c) -> uploading s u = Some (objectName r p, c).
Proof.
  unfold gcs_pending. destruct (uploading s u) as [[k c']|]; [|done]. destruct (owned (g_prefix r) k) eqn:Eo; [|done].
  intros [= <- <-]. pose proof (rooted_unrooted _ _ Eo) as E. unfold rooted in E. unfold objectName. by rewrite E.
Qed.

Lemma gcs_pending_key s u p c : uploading s u = Some (objectName r p, c) -> gcs_pending s u = Some (p, c).
Proof.
  unfold gcs_pending. intros ->. change (objectName r p) with (rooted (g_prefix r) p).
  by rewrite (proj2 (owned_spec (g_prefix r) _) (ex_intro _ p eq_refl)), unrooted_rooted.
Qed.

#[program] Definition gcs_laws : @BackendLaws S (gcs_backend r) := {|
  view s := shown (g_prefix r) (objects s);
  pending := gcs_pending;
|}.
Next Obligation.
  intros p s Hp. cbn [be_Put gcs_backend]. unfold Put. destruct (String.eqb_spec p "") as [->|_]; [by vm_compute in Hp|].
  destruct (sdk_Start _ _ s) as [u s'] eqn:E. apply start_spec in E as [Ho Hu]. cbn [snd]. rewrite Ho. split; [done|].
  intros h w' [= <- <-]. by apply gcs_pending_key.
Qed.
Next Obligation.
  intros u b s p c Hp%gcs_pending_inv. cbn [be_Write gcs_backend]. destruct (feed_spec u b s _ c Hp) as [Hv (c' & Hu & Hok)]. rewrite Hv.
  split; [done|]. exists c'. split; [by apply gcs_pending_key|]. intros w' E. apply Hok. by rewrite E.
Qed.
Next Obligation.
  intros u s p c Hp%gcs_pending_inv. cbn [be_Close gcs_backend]. destruct (finish_spec u s _ c Hp) as [Hout Hok]. split.
  - intros q Hq. rewrite !shown_lookup. apply Hout. intros E. by apply (inj (rooted (g_prefix r))) in E.
  - intros w' E. rewrite E in Hok. cbn [fst snd] in Hok. rewrite Hok by done. apply (shown_insert (g_prefix r)).
Qed.
Next Obligation.
  intros t f w Ht Hf Hc Hne _. destruct (serves_commit _ _ _ _ _ _ gcs_serves t f w Ht Hf Hc Hne) as (? & ? & ? & Hex).
  split_and!; [done..|]. intros e w' Hrun Hi. by apply (Hex _ _ Hrun Hi).
Qed.
Next Obligation. intros p w Hp. by apply (serves_get _ _ _ _ _ _ gcs_serves). Qed.
Next Obligation.
  intros p w Hp. destruct (serves_stat _ _ _ _ _ _ gcs_serves p w Hp) as (? & Hok & ?). split_and!; [done| |done].
  intros fi w' Hrun. by destruct (Hok fi w' Hrun) as (? & _ & ?).
Qed.
Next Obligation.
  intros d w. destruct (serves_list _ _ _ _ _ _ gcs_serves d w) as (? & Hok & _). split; [done|].
  intros l w' Hrun. by destruct (Hok l w' Hrun) as (? & ? & _).
Qed.
Next Obligation.
  intros d w l w' p Hrun Hp Hk Hu. destruct (serves_list _ _ _ _ _ _ gcs_serves d w) as (_ & Hok & _).
  destruct (Hok l w' Hrun) as (_ & _ & Hall). by apply Hall.
Qed.
Next Obligation.
  intros d w e w' p Hrun Hi. destruct (serves_list _ _ _ _ _ _ gcs_serves d w) as (_ & _ & Hfail). by rewrite (Hfail e w' Hrun) in Hi.
Qed.
Next Obligation. intros p w Hp. by apply (serves_delete _ _ _ _ _ _ gcs_serves). Qed.
End laws.

(** The Google driver is a storage over a bucket that behaves as documented, where in
    particular an error of a copy mentions a failed precondition only if there was one. *)
Theorem gcs_implements {S : Type} (r : bucket_store) `{GCSErrors, L : ObjectLaws S (g_bucket r) ErrObjectNotExist isPreconditionFailed never}
  `{!ObjectIterator S, !IteratorLaws S} :
  (forall k, names (sdk_URL (g_bucket r) k) = Some k) -> (forall s p, is_Some (objects s !! objectName r p) -> valid_key p = true) ->
  exists laws : @BackendLaws S (gcs_backend r), @FlatLaws _ _ laws /\ forall s p, @view _ _ laws s !! p = objects s !! objectName r p.
Proof.
  intros Hsource Hown. exists (gcs_laws r Hsource Hown). split; [|intros s p; apply shown_lookup].
  split.
  - intros p s fi s' Hp Hrun. destruct (serves_stat _ _ _ _ _ _ (gcs_serves r Hsource Hown) p s Hp) as (_ & Hok & _).
    by destruct (Hok fi s' Hrun) as (_ & ? & _).
  - intros t f s e s' Ht Hf Hc Hne Hrun Hi. destruct (serves_commit _ _ _ _ _ _ (gcs_serves r Hsource Hown) t f s Ht Hf Hc Hne) as (_ & _ & _ & Hex).
    by apply (Hex _ _ Hrun).
Qed.

(** ** A bucket in memory *)

Definition cloud_done : error := errors_New "no more items in iterator".

#[export] Instance cloud_gcs_errors : GCSErrors := {
  ErrObjectNotExist err := String.eqb (err_msg err) "NotFound";
  IteratorDone err := String.eqb (err_msg err) "no more items in iterator";
}.

Section cloud.
Context (failure : string).
#[local] Instance the_sdk : ObjectSDK cloud := cloud_sdk failure.

#[export] Instance cloud_iterator : @ObjectIterator cloud the_sdk := {
  sdk_Next pg := cloud_op failure (fun s =>
    match (if cp_more pg then skipn (cp_given pg) (cloud_listing (cp_prefix pg) s) else []) with
    | [] => (Fail cloud_done, s)
    | a :: _ => (Ok (a, {| cp_prefix := cp_prefix pg; cp_given := cp_given pg + 1; cp_more := true |}), s)
    end);
}.

Lemma cloud_iterator_laws nf pf ni (reads : cloud_reads failure nf pf ni) : failure <> "no more items in iterator" ->
  @IteratorLaws cloud cloud_bucket nf pf ni _ the_sdk (cloud_laws failure nf pf ni reads) cloud_iterator.
Proof.
  intros Hf. assert (Hi : IteratorDone (injected failure) = false) by by apply String.eqb_neq.
  split. intros pg s. cbn [objects pager_rest cloud_laws sdk_Next cloud_iterator].
  match goal with |- context [cloud_op failure ?f s] => destruct (cloud_op_cases failure f s) as (s' & Ho & _ & [E|[E|E]]) end;
    rewrite E; cbn beta iota zeta delta [fst snd]; assert (Hs : cloud_files s' = cloud_files s) by (unfold cloud_files; by rewrite Ho);
    assert (Hl : cloud_listing (cp_prefix pg) s' = cloud_listing (cp_prefix pg) s) by (unfold cloud_listing; by rewrite Hs); rewrite ?Hl in *.
  - split_and!; [done|done|]. intros e [= <-]. split; [done|]. by rewrite Hi.
  - split_and!; [by destruct (if cp_more pg then _ else _)|done|]. intros e [= <-]. split; [done|]. by rewrite Hi.
  - destruct (cp_more pg) eqn:Em; cbn [fst snd]; [|split_and!; [done|done|]; by intros e [= <-]].
    set (l := cloud_listing (cp_prefix pg) s) in *. destruct (skipn (cp_given pg) l) as [|a rest] eqn:Ed; cbn [fst snd].
    { split_and!; [done|done|]. by intros e [= <-]. }
    split_and!; [done| |done]. intros a' pg' [= <- <-]. cbn [cp_more cp_given cp_prefix]. rewrite Hl. fold l.
    assert (Hlen : (cp_given pg < length l)%nat).
    { destruct (Nat.lt_ge_cases (cp_given pg) (length l)) as [|Hge]; [done|]. by rewrite skipn_all2 in Ed. }
    split; [|cbn [sdk_left cloud_sdk the_sdk cp_more cp_prefix cp_given]; rewrite Em, Hl; fold l; lia].
    rewrite Nat.add_1_r. f_equal. change (Datatypes.S (cp_given pg)) with (1 + cp_given pg)%nat. rewrite <- skipn_skipn, Ed. done.
Qed.
End cloud.

Definition sample_store : bucket_store := {| g_bucket := cloud_bucket; g_prefix := cloud_prefix |}.

Lemma gcs_implements_witness : exists laws : @BackendLaws cloud (@gcs_backend _ _ (cloud_sdk "connection reset") (cloud_iterator _) sample_store),
  @FlatLaws _ _ laws /\ forall s p, @view _ _ laws s !! p = cloud_files s !! objectName sample_store p.
Proof.
  assert (Hreads : cloud_reads "connection reset" ErrObjectNotExist isPreconditionFailed never) by (split_and!; reflexivity).
  apply (@gcs_implements cloud sample_store _ _ (cloud_laws _ _ _ _ Hreads) _ (cloud_iterator_laws _ _ _ _ Hreads ltac:(done))).
  - intros k. apply cloud_source.
  - exact cloud_own.
Defined.

(** ** An error that mentions 412

    The URL of a request is part of its error, and the names of WAL segments in the storage carry
    digests: when the connection breaks during the copy of a segment whose name has these digits, the
    driver reports that the segment exists, and the archiver takes that for success. *)

Definition lost_body : string := "segment 53".
Definition lost_key : string := SegmentKey 1 "000000010000000000000001" (Sum256 lost_body).
Definition lost_failure : string :=
  "Post https://storage.googleapis.com/storage/v1/b/bkt/o/srv/" +:+ lost_key +:+ "/rewriteTo: connection reset by peer".

#[local] Instance lost_sdk : ObjectSDK cloud := cloud_sdk lost_failure.
#[local] Instance lost_iterator : ObjectIterator cloud := cloud_iterator lost_failure.
#[local] Instance lost_backend : Backend cloud := gcs_backend sample_store.

(** The host that pushes. *)
#[local] Instance lost_host : Host cloud := {
  os_ReadFile _ := ret lost_body;
  os_OpenFile _ := ret ([lost_body], None);
  os_WriteFile _ _ := ret tt;
  rand_Read n := ret (repeat_byte n "a");
}.

(** The push reports success and nothing is stored, not even the staged copy. *)
Lemma push_lost :
  let '(r, s) := Push 1 "/pgdata/pg_wal/000000010000000000000001" (cloud_with [] [Fine; Fine; Fine; Fine; Fine; Refused]) in
  r = Ok tt /\ map_to_list (cloud_files s) = [].
Proof. vm_compute. done. Qed.
