(* ===== verification/Sftp.v ===== *)
(** * The SFTP driver

    [internal/storage/sftp]: every operation of the driver over the calls of its client, and the proof
    that they make the storage interface for a base path that is written plainly. *)

From S2P Require Import Prelude Storage Keys ObjectStore.

(** ** The client *)

(** A step of [Client.Walk]. *)
Record step := { st_Err : option error; st_Path : string; st_IsDir : bool; st_Size : Z; st_ModTime : Z }.

(** [sftp.Client] and [sftp.File] over the state of the server and of the open files. *)
Class SFTPClient (S : Type) := {
  Handle : Type;
  ftp_Stat : string -> M S (bool * Z * Z);      (* IsDir, Size, ModTime *)
  ftp_MkdirAll : string -> M S unit;
  ftp_Create : string -> M S Handle;
  ftp_FileWrite : Handle -> string -> M S unit;
  ftp_FileSync : Handle -> M S unit;
  ftp_FileClose : Handle -> M S unit;
  ftp_Rename : string -> string -> M S unit;
  ftp_Remove : string -> M S unit;
  ftp_Open : string -> M S (result string);     (* Open, then the file read to the end *)
  ftp_Walk : string -> M S (list step);
}.

(** ** The driver *)

(** [Options] and [Backend]; of the client only whether there is one. *)
Record Options := { o_Client : bool; o_BasePath : string }.
Record server := { r_base : string }.

(** [New] *)
Definition New (opts : Options) : result server :=
  if negb (o_Client opts) then Fail (errors_New "sftp: Client is required")
  else if String.eqb (o_BasePath opts) "" then Fail (errors_New "sftp: BasePath is required")
  else Ok {| r_base := TrimSuffix (o_BasePath opts) "/" |}.

(** [relativeTo] *)
Definition relativeTo (base p : string) : result string :=
  if negb (HasPrefix p (base +:+ "/")) then
    if String.eqb p base then Ok "" else Fail (errors_New "sftp: path is outside base")
  else Ok (TrimPrefix p (base +:+ "/")).

Section driver.
Context {S : Type} `{SFTPClient S} (r : server).

(** [writeCloser]; the writers are kept beside the state of the client. *)
Record writeCloser := { wc_f : Handle; wc_tmpPath : string; wc_finalPath : string; wc_closed : bool }.
Record session := { d_client : S; d_writers : gmap nat writeCloser; d_next : nat }.

Definition on_client {A} (m : M S A) : M session A := fun w =>
  let '(x, s) := m (d_client w) in (x, {| d_client := s; d_writers := d_writers w; d_next := d_next w |}).

Definition set_writer (h : nat) (wc : writeCloser) (w : session) : session :=
  {| d_client := d_client w; d_writers := <[h := wc]> (d_writers w); d_next := d_next w |}.

(** [Open] *)
Definition Open : M S unit :=
  st <- try (ftp_Stat (r_base r)) ;;
  match st with
  | Fail err =>
      if errors_Is err OsErrNotExist then wrapping "sftp: MkdirAll" (ftp_MkdirAll (r_base r))
      else throw (Errorf_w "sftp: Stat base" err)
  | Ok (isDir, _, _) => if negb isDir then throw (errors_New "sftp: BasePath is not a directory") else ret tt
  end.

(** [abs] *)
Definition abs (relPath : string) : string := path_Join [r_base r; relPath].

Definition new_writer (wc : writeCloser) : M session nat := fun w =>
  (Ok (d_next w), {| d_client := d_client w; d_writers := <[d_next w := wc]> (d_writers w); d_next := Datatypes.S (d_next w) |}).

(** [Put] *)
Definition Put (relPath : string) : M session nat :=
  if String.eqb relPath "" then throw (errors_New "sftp: relPath is required")
  else
    let full := abs relPath in
    wrapping "sftp: MkdirAll" (on_client (ftp_MkdirAll (path_Dir full))) ;;;
    let tmp := full +:+ ".pgsafe-tmp" in
    f <- wrapping "sftp: Create" (on_client (ftp_Create tmp)) ;;
    new_writer {| wc_f := f; wc_tmpPath := tmp; wc_finalPath := full; wc_closed := false |}.

Definition bad_handle : error := errors_New "no such writer".

(** [writeCloser.Write] *)
Definition Write (h : nat) (p : string) : M session unit :=
  wc <- read (fun w => d_writers w !! h) ;;
  match wc with
  | None => throw bad_handle
  | Some wc => on_client (ftp_FileWrite (wc_f wc) p)
  end.

(** [writeCloser.Close] *)
Definition Close (h : nat) : M session unit :=
  wc <- read (fun w => d_writers w !! h) ;;
  match wc with
  | None => throw bad_handle
  | Some wc =>
      if wc_closed wc then ret tt
      else
        update (set_writer h {| wc_f := wc_f wc; wc_tmpPath := wc_tmpPath wc; wc_finalPath := wc_finalPath wc; wc_closed := true |}) ;;;
        try (on_client (ftp_FileSync (wc_f wc))) ;;;
        wrapping "sftp: close tmp" (on_client (ftp_FileClose (wc_f wc))) ;;;
        renamed <- try (on_client (ftp_Rename (wc_tmpPath wc) (wc_finalPath wc))) ;;
        match renamed with
        | Fail err => try (on_client (ftp_Remove (wc_tmpPath wc))) ;;; throw (Errorf_w "sftp: rename tmp to final" err)
        | Ok _ => ret tt
        end
  end.

(** [Commit] *)
Definition Commit (tmp final : string) : M S unit :=
  let tmpAbs := abs tmp in
  let finalAbs := abs final in
  st <- try (ftp_Stat finalAbs) ;;
  match st with
  | Ok _ => throw (errors_Sentinel OsErrExist "sftp: Commit refuses to overwrite existing")
  | Fail err =>
      if negb (errors_Is err OsErrNotExist) then throw (Errorf_w "sftp: Stat(final)" err)
      else wrapping "sftp: Commit rename" (ftp_Rename tmpAbs finalAbs)
  end.

(** [Get] *)
Definition Get (relPath : string) : M S string :=
  f <- try (ftp_Open (abs relPath)) ;;
  match f with
  | Fail err => if errors_Is err OsErrNotExist then throw (errors_Sentinel OsErrNotExist "sftp: Get") else throw (Errorf_w "sftp: Open" err)
  | Ok body => of_result body
  end.

(** [Stat] *)
Definition Stat (relPath : string) : M S FileInfo :=
  fi <- try (ftp_Stat (abs relPath)) ;;
  match fi with
  | Fail err => if errors_Is err OsErrNotExist then throw (errors_Sentinel OsErrNotExist "sftp: Stat") else throw (Errorf_w "sftp: Stat" err)
  | Ok (_, size, mtime) => ret {| fi_Path := relPath; fi_Size := size; fi_ModTime := mtime |}
  end.

(** The loop of [List] over the steps of the walk. *)
Fixpoint collect (steps : list step) (out : list FileInfo) : result (list FileInfo) :=
  match steps with
  | [] => Ok out
  | st :: steps =>
      match st_Err st with
      | Some err => Fail (Errorf_w "sftp: walk" err)
      | None =>
          if st_IsDir st then collect steps out
          else if Contains (path_Base (st_Path st)) ".pgsafe-tmp" then collect steps out
          else match relativeTo (r_base r) (st_Path st) with
               | Fail err => Fail err
               | Ok rel => collect steps (out ++ [{| fi_Path := rel; fi_Size := st_Size st; fi_ModTime := st_ModTime st |}])
               end
      end
  end.

(** [List] *)
Definition List (prefix : string) : M S (list FileInfo) :=
  let rootAbs := if String.eqb prefix "" then r_base r else abs prefix in
  st <- try (ftp_Stat rootAbs) ;;
  match st with
  | Fail err => if errors_Is err OsErrNotExist then ret [] else throw err
  | Ok _ => steps <- ftp_Walk rootAbs ;; of_result (collect steps [])
  end.

(** [Delete] *)
Definition Delete (relPath : string) : M S unit :=
  err <- try (ftp_Remove (abs relPath)) ;;
  match err with
  | Fail err => if errors_Is err OsErrNotExist then throw (errors_Sentinel OsErrNotExist "sftp: Delete") else throw (Errorf_w "sftp: Delete" err)
  | Ok _ => ret tt
  end.

#[export] Instance sftp_backend : Backend session := {
  be_Writer := nat;
  be_Put := Put;
  be_Write := Write;
  be_Close := Close;
  be_Commit t f := on_client (Commit t f);
  be_Get p := on_client (Get p);
  be_Stat p := on_client (Stat p);
  be_List p := on_client (List p);
  be_Delete p := on_client (Delete p);
}.
End driver.
Arguments session S {_}.
Arguments writeCloser S {_}.
