(* ===== verification/SftpSpec.v ===== *)
(** * The SFTP driver is a storage

    What SFTP servers do, as laws, and the contract of the interface from them; then what the driver
    makes of base paths and names that are not written plainly, and of a second write. *)

From S2P Require Import Prelude Storage Keys ObjectStore Sftp.

(** The client documents: a rename does not replace a file; an error is [os.ErrNotExist] where the
    server says so. The bytes of an open file are only known once it is closed. *)
Class SFTPLaws (S : Type) `{SFTPClient S} := {
  files : S -> gmap string string;
  open_at : S -> Handle -> option (string * string);

  stat_law p s : files (snd (ftp_Stat p s)) = files s /\
    (forall d n m, fst (ftp_Stat p s) = Ok (d, n, m) -> forall c, files s !! p = Some c -> n = Z.of_nat (slen c)) /\
    (forall e, fst (ftp_Stat p s) = Fail e -> errors_Is e OsErrNotExist = true ->
       files s !! p = None /\ forall q, HasPrefix q (p +:+ "/") = true -> files s !! q = None);
  mkdir_law p s : files (snd (ftp_MkdirAll p s)) = files s;
  create_law p s : (forall q, q <> p -> files (snd (ftp_Create p s)) !! q = files s !! q) /\
    (forall h, fst (ftp_Create p s) = Ok h -> open_at (snd (ftp_Create p s)) h = Some (p, ""));
  write_law h b p c s : open_at s h = Some (p, c) ->
    (forall q, q <> p -> files (snd (ftp_FileWrite h b s)) !! q = files s !! q) /\
    exists c', open_at (snd (ftp_FileWrite h b s)) h = Some (p, c') /\ (fst (ftp_FileWrite h b s) = Ok tt -> c' = c +:+ b);
  sync_law h p c s : open_at s h = Some (p, c) ->
    (forall q, q <> p -> files (snd (ftp_FileSync h s)) !! q = files s !! q) /\ open_at (snd (ftp_FileSync h s)) h = Some (p, c);
  fclose_law h p c s : open_at s h = Some (p, c) ->
    (forall q, q <> p -> files (snd (ftp_FileClose h s)) !! q = files s !! q) /\
    (fst (ftp_FileClose h s) = Ok tt -> files (snd (ftp_FileClose h s)) !! p = Some c);
  rename_law p q c s : p <> q -> files s !! p = Some c ->
    let moved := files s !! q = None /\ files (snd (ftp_Rename p q s)) = <[q := c]> (delete p (files s)) in
    (fst (ftp_Rename p q s) = Ok tt -> moved) /\
    (forall e, fst (ftp_Rename p q s) = Fail e ->
       (files (snd (ftp_Rename p q s)) = files s \/ moved) /\
       (errors_Is e OsErrExist = true -> is_Some (files s !! q) /\ files (snd (ftp_Rename p q s)) = files s));
  remove_law p s :
    (fst (ftp_Remove p s) = Ok tt -> files (snd (ftp_Remove p s)) = delete p (files s)) /\
    (forall e, fst (ftp_Remove p s) = Fail e ->
       (files (snd (ftp_Remove p s)) = files s \/ files (snd (ftp_Remove p s)) = delete p (files s)) /\
       (errors_Is e OsErrNotExist = true -> files s !! p = None));
  open_law p s : files (snd (ftp_Open p s)) = files s /\
    (forall c, fst (ftp_Open p s) = Ok (Ok c) -> files s !! p = Some c) /\
    (forall e, fst (ftp_Open p s) = Ok (Fail e) -> errors_Is e OsErrNotExist = false) /\
    (forall e, fst (ftp_Open p s) = Fail e -> errors_Is e OsErrNotExist = true -> files s !! p = None);
  walk_law root s : files (snd (ftp_Walk root s)) = files s /\
    (forall e, fst (ftp_Walk root s) = Fail e -> errors_Is e OsErrNotExist = false) /\
    (forall l, fst (ftp_Walk root s) = Ok l ->
       NoDup (st_Path <$> l) /\
       (forall st, st ∈ l -> match st_Err st with
          | Some e => errors_Is e OsErrNotExist = false
          | None => st_IsDir st = false ->
              (st_Path st = root \/ HasPrefix (st_Path st) (root +:+ "/") = true) /\
              exists c, files s !! st_Path st = Some c /\ st_Size st = Z.of_nat (slen c)
          end) /\
       (Forall (fun st => st_Err st = None) l -> forall q, is_Some (files s !! q) -> HasPrefix q (root +:+ "/") = true ->
          exists st, st ∈ l /\ st_Path st = q /\ st_IsDir st = false));
}.

Section laws.
Context {S : Type} `{SFTPLaws S} (r : server).

Abbreviation base := (r_base r).

Hypothesis base_plain : clean_target base.
(** The base path is a directory, and what is in it is named as pgSafe names its files. *)
Hypothesis base_dir : forall s, files s !! base = None.
Hypothesis own_names : forall s p, is_Some (files s !! rooted base p) -> Contains (path_Base (rooted base p)) ".pgsafe-tmp" = false -> valid_key p = true.

Lemma base_nonempty : String.eqb base "" = false.
Proof. destruct base_plain as (p & _ & ->). done. Qed.

Lemma sftp_abs_rooted p : plain_path p = true -> abs r p = rooted base p.
Proof. intros Hp. unfold abs, rooted. rewrite base_nonempty. by apply target_Join. Qed.

Lemma abs_key p : valid_key p = true -> abs r p = rooted base p.
Proof. intros Hp. by apply sftp_abs_rooted, valid_key_plain. Qed.

(** What a reader of the storage sees: the files of the base path but the temporary ones. *)
Definition sview (s : S) : gmap string string := base.filter (fun kc => valid_key kc.1 = true) (shown base (files s)).

Lemma sview_lookup s p : sview s !! p = if valid_key p then files s !! rooted base p else None.
Proof.
  unfold sview. apply option_eq. intros c. rewrite map_lookup_filter_Some, shown_lookup. cbn [fst]. destruct (valid_key p); naive_solver.
Qed.

Lemma sview_key s p : valid_key p = true -> sview s !! p = files s !! rooted base p.
Proof. intros Hp. by rewrite sview_lookup, Hp. Qed.

Lemma sview_eq s s' : files s' = files s -> sview s' = sview s.
Proof. unfold sview. by intros ->. Qed.

(** A change of one file that is not a key of the storage does not show. *)
Lemma sview_outside (t : string) s s' : (forall p, valid_key p = true -> rooted base p <> t) ->
  (forall q, q <> t -> files s' !! q = files s !! q) -> sview s' = sview s.
Proof.
  intros Ht Hs. apply map_eq. intros p. rewrite !sview_lookup. destruct (valid_key p) eqn:Hp; [|done]. apply Hs. by apply Ht.
Qed.

Lemma sview_insert s s' p c : valid_key p = true -> files s' = <[rooted base p := c]> (files s) -> sview s' = <[p := c]> (sview s).
Proof.
  intros Hp Hs. apply map_eq. intros q. rewrite sview_lookup, Hs. destruct (decide (q = p)) as [->|Hn].
  - by rewrite Hp, !lookup_insert_eq.
  - rewrite (lookup_insert_ne _ p q), sview_lookup by done. destruct (valid_key q); [|done]. rewrite lookup_insert_ne; [done|]. by intros E%(inj (rooted base)).
Qed.

Lemma sview_delete s s' p : valid_key p = true -> files s' = delete (rooted base p) (files s) -> sview s' = delete p (sview s).
Proof.
  intros Hp Hs. apply map_eq. intros q. rewrite sview_lookup, Hs. destruct (decide (q = p)) as [->|Hn].
  - by rewrite Hp, !lookup_delete_eq.
  - rewrite (lookup_delete_ne _ p q), sview_lookup by done. destruct (valid_key q); [|done]. rewrite lookup_delete_ne; [done|]. by intros E%(inj (rooted base)).
Qed.

(** The temporary file of a key is not a key. *)
Lemma tmp_not_key p q : valid_key p = true -> rooted base p <> rooted base q +:+ ".pgsafe-tmp".
Proof.
  intros Hp E. rewrite <- rooted_app in E. apply (inj (rooted base)) in E. subst p. unfold valid_key in Hp.
  apply andb_true_iff in Hp as [_ Hc]. apply negb_true_iff in Hc. unfold Contains, tmp_marker in Hc.
  destruct (Index (q +:+ ".pgsafe-tmp") ".pgsafe-tmp") eqn:Ei; [done|]. clear Hc.
  induction q as [|c q IH]; [done|]. change (String c q +:+ ".pgsafe-tmp") with (String c (q +:+ ".pgsafe-tmp")) in Ei. cbn [Index] in Ei.
  destruct (HasPrefix _ _); [done|]. apply IH. by destruct (Index (q +:+ ".pgsafe-tmp") _).
Qed.

(** ** Writers *)

(** The key and the bytes of an open writer. *)
Definition spending (w : session S) (h : nat) : option (string * string) :=
  match d_writers w !! h with
  | None => None
  | Some wc =>
      match open_at (d_client w) (wc_f wc) with
      | None => None
      | Some (t, c) =>
          let p := unrooted base (wc_finalPath wc) in
          if negb (wc_closed wc) && String.eqb t (wc_tmpPath wc) && String.eqb t (rooted base p +:+ ".pgsafe-tmp") &&
             String.eqb (wc_finalPath wc) (rooted base p) && valid_key p
          then Some (p, c) else None
      end
  end.

Definition opened (w : session S) (h : nat) (p c : string) (wc : writeCloser S) : Prop :=
  d_writers w !! h = Some wc /\ wc_closed wc = false /\ wc_finalPath wc = rooted base p /\
  wc_tmpPath wc = rooted base p +:+ ".pgsafe-tmp" /\ valid_key p = true /\
  open_at (d_client w) (wc_f wc) = Some (rooted base p +:+ ".pgsafe-tmp", c).

Lemma spending_spec w h p c : spending w h = Some (p, c) <-> exists wc, opened w h p c wc.
Proof.
  unfold spending, opened. split.
  - destruct (d_writers w !! h) as [wc|]; [|done]. destruct (open_at _ _) as [[t c']|] eqn:Eo; [|done].
    destruct (wc_closed wc) eqn:Ec; [done|]. destruct (_ && _) eqn:E; [|done]. intros [= <- <-]. exists wc.
    cbn [negb andb] in E. rewrite !andb_true_iff, !String.eqb_eq in E. destruct E as [[[Et Et2] Ef] Hk]. rewrite Eo. split_and!; congruence.
  - intros (wc & Hw & Hc & Hf & Ht & Hk & Ho). by rewrite Hw, Ho, Hc, Hf, unrooted_rooted, Ht, !String.eqb_refl, Hk.
Qed.

Lemma put_sftp p w : valid_key p = true ->
  sview (d_client (snd (Put r p w))) = sview (d_client w) /\ forall h w', Put r p w = (Ok h, w') -> spending w' h = Some (p, "").
Proof.
  intros Hp. unfold Put. destruct (String.eqb_spec p "") as [->|_]; [by vm_compute in Hp|]. rewrite (abs_key p Hp).
  munfold. unfold on_client. pose proof (mkdir_law (path_Dir (rooted base p)) (d_client w)) as Hm.
  destruct (ftp_MkdirAll _ _) as [[[]|e] s1]; cbn [fst snd map_error d_client d_writers d_next] in *; [|split; [by apply sview_eq|done]].
  destruct (create_law (rooted base p +:+ ".pgsafe-tmp") s1) as [Hout Hok].
  assert (Hv : sview (snd (ftp_Create (rooted base p +:+ ".pgsafe-tmp") s1)) = sview (d_client w)).
  { rewrite <- (sview_eq _ _ Hm). eapply sview_outside, Hout. intros q Hq. by apply tmp_not_key. }
  destruct (ftp_Create _ s1) as [[f|e] s2]; cbn [fst snd map_error d_client d_writers d_next] in *; [|split; [done|done]]. split; [done|].
  intros h w' [= <- <-]. apply spending_spec. eexists. unfold opened. cbn [d_writers d_client]. rewrite lookup_insert_eq. split_and!; try done. by apply Hok.
Qed.

Lemma write_sftp h b w p c : spending w h = Some (p, c) ->
  sview (d_client (snd (Write h b w))) = sview (d_client w) /\
  exists c', spending (snd (Write h b w)) h = Some (p, c') /\ forall w', Write h b w = (Ok tt, w') -> c' = c +:+ b.
Proof.
  intros (wc & Hw & Hc & Hf & Ht & Hk & Ho)%spending_spec. unfold Write. munfold. rewrite Hw. unfold on_client.
  destruct (write_law (wc_f wc) b _ c (d_client w) Ho) as [Hout (c' & Ho' & Hok)].
  assert (Hv : sview (snd (ftp_FileWrite (wc_f wc) b (d_client w))) = sview (d_client w)).
  { eapply sview_outside, Hout. intros q Hq. by apply tmp_not_key. }
  destruct (ftp_FileWrite _ _ _) as [x s']; cbn [fst snd d_client] in *. split; [done|]. exists c'. split.
  - apply spending_spec. exists wc. by split_and!.
  - intros w' [= -> _]. by apply Hok.
Qed.

Lemma close_sftp h w p c : spending w h = Some (p, c) ->
  (forall q, q <> p -> sview (d_client (snd (Close h w))) !! q = sview (d_client w) !! q) /\
  forall w', Close h w = (Ok tt, w') -> sview (d_client w) !! p = None /\ sview (d_client w') = <[p := c]> (sview (d_client w)).
Proof.
  intros (wc & Hw & Hc & Hf & Ht & Hk & Ho)%spending_spec. unfold Close. munfold. rewrite Hw, Hc. unfold on_client, set_writer. cbn [d_client d_writers d_next].
  set (tmp := rooted base p +:+ ".pgsafe-tmp") in *.
  assert (Htmp : forall q, valid_key q = true -> rooted base q <> tmp) by (intros q Hq; by apply tmp_not_key).
  destruct (sync_law _ _ c (d_client w) Ho) as [Hs Ho1]. destruct (ftp_FileSync _ _) as [rs s1]; cbn [fst snd d_client d_writers d_next] in *.
  pose proof (sview_outside tmp _ _ Htmp Hs) as Hv1.
  destruct (fclose_law _ _ c s1 Ho1) as [Hcl Hcok]. pose proof (sview_outside tmp _ _ Htmp Hcl) as Hv2. rewrite Hv1 in Hv2.
  destruct (ftp_FileClose _ _) as [[[]|e] s2]; cbn [fst snd map_error d_client d_writers d_next] in *; [|split; [by intros q _; rewrite Hv2|done]].
  specialize (Hcok eq_refl). rewrite Ht, Hf. destruct (rename_law tmp (rooted base p) c s2 (not_eq_sym (Htmp p Hk)) Hcok) as [Hok Hfail].
  assert (Hmove : forall s3, files s3 = <[rooted base p := c]> (delete tmp (files s2)) -> sview s3 = <[p := c]> (sview (d_client w))).
  { intros s3 H3. rewrite <- Hv2. assert (Hd : forall s', files s' = delete tmp (files s2) -> sview s' = sview s2).
    { intros s' Hs'. apply (sview_outside tmp); [done|]. intros q Hq. by rewrite Hs', lookup_delete_ne. }
    apply map_eq. intros q. rewrite sview_lookup, H3. destruct (decide (q = p)) as [->|Hn]; [by rewrite Hk, !lookup_insert_eq|].
    rewrite (lookup_insert_ne _ p q), sview_lookup by done. destruct (valid_key q) eqn:Hq; [|done].
    rewrite lookup_insert_ne, lookup_delete_ne; [done|by apply not_eq_sym, Htmp|]. by intros E%(inj (rooted base)). }
  destruct (ftp_Rename tmp _ s2) as [[[]|e] s3]; cbn [fst snd d_client d_writers d_next] in *.
  - destruct (Hok eq_refl) as [Hnone H3]. rewrite (Hmove s3 H3). split; [intros q Hq; by rewrite lookup_insert_ne|].
    intros w' [= <-]. cbn [d_client]. split; [|by apply Hmove]. by rewrite <- Hv2, sview_key.
  - destruct (Hfail e eq_refl) as [Hcase _].
    assert (H3 : forall q, q <> p -> sview s3 !! q = sview (d_client w) !! q).
    { intros q Hq. destruct Hcase as [E|[_ E]]; [by rewrite (sview_eq _ _ E), Hv2|]. by rewrite (Hmove s3 E), lookup_insert_ne. }
    destruct (remove_law tmp s3) as [Hrok Hrfail]. assert (H4 : sview (snd (ftp_Remove tmp s3)) = sview s3).
    { apply (sview_outside tmp); [done|]. intros q Hq. destruct (ftp_Remove tmp s3) as [[[]|e2] s4]; cbn [fst snd] in *.
      - by rewrite Hrok, lookup_delete_ne.
      - destruct (Hrfail e2 eq_refl) as [[->| ->] _]; [done|by rewrite lookup_delete_ne]. }
    destruct (ftp_Remove tmp s3) as [rr s4]; cbn [fst snd d_client] in *. split; [|done]. intros q Hq. by rewrite H4, H3.
Qed.

(** ** The other calls *)

Lemma on_client_eq {A} (m : M S A) w x w' : on_client m w = (x, w') -> m (d_client w) = (x, d_client w').
Proof. unfold on_client. destruct (m (d_client w)). by intros [= <- <-]. Qed.

Lemma on_client_snd {A} (m : M S A) w : d_client (snd (on_client m w)) = snd (m (d_client w)).
Proof. unfold on_client. by destruct (m (d_client w)). Qed.

Lemma commit_sftp t f s : valid_key t = true -> valid_key f = true -> t <> f -> is_Some (sview s !! t) ->
  (forall q, q <> t -> q <> f -> sview (snd (Commit r t f s)) !! q = sview s !! q) /\
  (forall s', Commit r t f s = (Ok tt, s') -> sview s !! f = None /\ exists c, sview s !! t = Some c /\ sview s' = <[f := c]> (delete t (sview s))) /\
  (forall e s', Commit r t f s = (Fail e, s') ->
     (sview s' !! f = sview s !! f /\ sview s' !! t = sview s !! t) \/ (sview s !! f = None /\ sview s' !! f = sview s !! t)) /\
  (forall e s', Commit r t f s = (Fail e, s') -> errors_Is e OsErrExist = true -> sview s' = sview s).
Proof.
  intros Ht Hf Hne [c Hc]. unfold Commit. munfold. rewrite (abs_key t Ht), (abs_key f Hf).
  destruct (stat_law (rooted base f) s) as (Hs & Hok & Hfail). pose proof (sview_eq _ _ Hs) as Hv.
  destruct (ftp_Stat (rooted base f) s) as [[[[d n] m]|e] s1]; cbn [fst snd] in *.
  { rewrite Hv. split_and!; [done|done|intros e s' [= <- <-]; rewrite Hv; by left|by intros e s' [= <- <-]]. }
  destruct (errors_Is e OsErrNotExist) eqn:Ei; cbn [negb snd].
  2:{ rewrite Hv. split_and!; [done|done|intros e' s' [= <- <-]; rewrite Hv; by left|by intros e' s' [= <- <-]]. }
  assert (Hc1 : files s1 !! rooted base t = Some c) by by rewrite Hs, <- sview_key.
  assert (Hroot : rooted base t <> rooted base f) by by intros E%(inj (rooted base)).
  destruct (rename_law _ _ c s1 Hroot Hc1) as [Hrok Hrfail]. rewrite Hs in *.
  assert (Hmove : forall s2, files s2 = <[rooted base f := c]> (delete (rooted base t) (files s)) -> sview s2 = <[f := c]> (delete t (sview s))).
  { intros s2 H2. apply map_eq. intros q. rewrite sview_lookup, H2. destruct (decide (q = f)) as [->|Hq]; [by rewrite Hf, !lookup_insert_eq|].
    rewrite (lookup_insert_ne _ f q) by done. destruct (decide (q = t)) as [->|Hq2].
    - by rewrite Ht, lookup_insert_ne, !lookup_delete_eq by done.
    - rewrite (lookup_delete_ne _ t q), sview_lookup by done. destruct (valid_key q); [|done].
      rewrite lookup_insert_ne, lookup_delete_ne; [done|by intros E%(inj (rooted base))..]. }
  destruct (ftp_Rename _ _ s1) as [[[]|e2] s2]; cbn [fst snd map_error] in *.
  - destruct (Hrok eq_refl) as [Hnone H2]. rewrite (Hmove s2 H2). split_and!; [|intros s' [= <-]|done|done].
    + intros q Hq1 Hq2. by rewrite lookup_insert_ne, lookup_delete_ne.
    + split; [by rewrite sview_key|]. exists c. split; [done|]. by apply Hmove.
  - destruct (Hrfail e2 eq_refl) as [Hcase Hex]. split_and!; [|done| |].
    + intros q Hq1 Hq2. destruct Hcase as [E|[_ E]]; [by rewrite (sview_eq _ _ E)|]. by rewrite (Hmove s2 E), lookup_insert_ne, lookup_delete_ne.
    + intros e' s' [= <- <-]. destruct Hcase as [E|[Hnone E]]; [left; by rewrite (sview_eq _ _ E)|right].
      rewrite (Hmove s2 E), lookup_insert_eq. split; [by rewrite sview_key|done].
    + intros e' s' [= <- <-] Hi. destruct (Hex Hi) as [_ E]. by apply sview_eq.
Qed.

Lemma get_sftp p s : valid_key p = true ->
  sview (snd (Get r p s)) = sview s /\ (forall c s', Get r p s = (Ok c, s') -> sview s !! p = Some c) /\
  (forall e s', Get r p s = (Fail e, s') -> errors_Is e OsErrNotExist = true -> sview s !! p = None).
Proof.
  intros Hp. unfold Get. munfold. rewrite (abs_key p Hp), (sview_key s p Hp). destruct (open_law (rooted base p) s) as (Hs & Hok & Hbody & Hfail).
  pose proof (sview_eq _ _ Hs) as Hv. destruct (ftp_Open _ s) as [[[c|e]|e] s1]; cbn [fst snd] in *.
  - split_and!; [done| |done]. intros c' s' [= <- <-]. auto.
  - split_and!; [done|done|]. intros e' s' [= <- <-] Hi. by rewrite Hbody in Hi.
  - specialize (Hfail e eq_refl). destruct (errors_Is e OsErrNotExist) eqn:Ei; cbn [snd]; (split_and!; [done|done|]); intros e' s' [= <- <-] Hi; [auto|].
    unfold errors_Is in *. cbn in Hi. congruence.
Qed.

Lemma stat_sftp p s : valid_key p = true ->
  sview (snd (Stat r p s)) = sview s /\
  (forall fi s', Stat r p s = (Ok fi, s') -> fi_Path fi = p /\ forall c, sview s !! p = Some c -> fi_Size fi = Z.of_nat (slen c)) /\
  (forall e s', Stat r p s = (Fail e, s') -> errors_Is e OsErrNotExist = true -> sview s !! p = None).
Proof.
  intros Hp. unfold Stat. munfold. rewrite (abs_key p Hp), (sview_key s p Hp). destruct (stat_law (rooted base p) s) as (Hs & Hok & Hfail).
  pose proof (sview_eq _ _ Hs) as Hv. destruct (ftp_Stat _ s) as [[[[d n] m]|e] s1]; cbn [fst snd] in *.
  - split_and!; [done| |done]. intros fi s' [= <- <-]. split; [done|]. by apply (Hok d n m).
  - specialize (Hfail e eq_refl). destruct (errors_Is e OsErrNotExist) eqn:Ei; cbn [snd]; (split_and!; [done|done|]); intros e' s' [= <- <-] Hi.
    + exact (proj1 (Hfail eq_refl)).
    + unfold errors_Is in *. cbn in Hi. congruence.
Qed.

Lemma delete_sftp p s : valid_key p = true ->
  (forall q, q <> p -> sview (snd (Delete r p s)) !! q = sview s !! q) /\
  (forall s', Delete r p s = (Ok tt, s') -> sview s' = delete p (sview s)) /\
  (forall e s', Delete r p s = (Fail e, s') -> sview s' = sview s \/ sview s' = delete p (sview s)) /\
  (forall e s', Delete r p s = (Fail e, s') -> errors_Is e OsErrNotExist = true -> sview s !! p = None).
Proof.
  intros Hp. unfold Delete. munfold. rewrite (abs_key p Hp), (sview_key s p Hp). destruct (remove_law (rooted base p) s) as (Hok & Hfail).
  destruct (ftp_Remove _ s) as [[[]|e] s1]; cbn [fst snd] in *.
  - rewrite (sview_delete s s1 p Hp) by auto. split_and!; [|intros s' [= <-]; by apply sview_delete; auto|done|done]. intros q Hq. by rewrite lookup_delete_ne.
  - destruct (Hfail e eq_refl) as [Hcase Hn].
    assert (Hv : sview s1 = sview s \/ sview s1 = delete p (sview s)) by (destruct Hcase; [left; by apply sview_eq|right; by apply sview_delete]).
    assert (Hout : forall q, q <> p -> sview s1 !! q = sview s !! q) by (intros q Hq; destruct Hv as [->| ->]; [done|by rewrite lookup_delete_ne]).
    destruct (errors_Is e OsErrNotExist) eqn:Ei; cbn [snd]; (split_and!; [done|done|by intros e' s' [= <- <-]|]); intros e' s' [= <- <-] Hi; [auto|].
    unfold errors_Is in *. cbn in Hi. congruence.
Qed.

(** ** Listing *)

Definition kept (st : step) : bool := negb (st_IsDir st) && negb (Contains (path_Base (st_Path st)) ".pgsafe-tmp").

Definition rel_of (p : string) : string := match relativeTo base p with Ok rel => rel | Fail _ => "" end.

Definition info (st : step) : FileInfo := {| fi_Path := rel_of (st_Path st); fi_Size := st_Size st; fi_ModTime := st_ModTime st |}.

Lemma collect_run l out :
  (forall res, collect r l out = Ok res -> Forall (fun st => st_Err st = None) l /\
     (forall st, st ∈ l -> kept st = true -> isOk (relativeTo base (st_Path st)) = true) /\ res = out ++ (info <$> base.filter kept l)) /\
  (forall e, collect r l out = Fail e -> (forall st e', st ∈ l -> st_Err st = Some e' -> errors_Is e' OsErrNotExist = false) -> errors_Is e OsErrNotExist = false).
Proof.
  revert out. induction l as [|st l IH]; intros out; cbn [collect].
  { split; [|done]. intros res [= <-]. split_and!; [constructor|intros st []%elem_of_nil|by rewrite app_nil_r]. }
  destruct (st_Err st) as [e|] eqn:Ee.
  { split; [done|]. intros e' [= <-] Hall. specialize (Hall st e ltac:(by left) Ee). by unfold errors_Is in *. }
  assert (Hskip : kept st = false -> forall res, collect r l out = Ok res -> Forall (fun st => st_Err st = None) (st :: l) /\
     (forall st', st' ∈ st :: l -> kept st' = true -> isOk (relativeTo base (st_Path st')) = true) /\ res = out ++ (info <$> base.filter kept (st :: l))).
  { intros Hk res Hres. destruct (proj1 (IH out) res Hres) as (H1 & H2 & ->). split_and!; [by constructor| |].
    - intros st' [->|Hin]%elem_of_cons Hk'; [congruence|by apply H2].
    - rewrite filter_cons_False; [done|]. rewrite Hk. by intros []. }
  assert (Htail : forall e' st', st' ∈ l -> st_Err st' = Some e' -> st' ∈ st :: l) by (intros; by right).
  unfold kept in Hskip. destruct (st_IsDir st) eqn:Ed; [split; [by apply Hskip|intros e He Hall; apply (proj2 (IH out) e He); eauto]|].
  destruct (Contains _ _) eqn:Ec; [split; [by apply Hskip|intros e He Hall; apply (proj2 (IH out) e He); eauto]|]. clear Hskip.
  destruct (relativeTo base (st_Path st)) as [rel|e] eqn:Er.
  2:{ split; [done|]. intros e' [= <-] _. unfold relativeTo in Er. destruct (negb _); [|done]. destruct (String.eqb _ _); [done|]. by injection Er as <-. }
  specialize (IH (out ++ [{| fi_Path := rel; fi_Size := st_Size st; fi_ModTime := st_ModTime st |}])). destruct IH as [IH1 IH2]. split; [|eauto].
  intros res Hres. destruct (IH1 res Hres) as (H1 & H2 & ->). split_and!; [by constructor| |].
  - intros st' [->|Hin]%elem_of_cons Hk'; [by rewrite Er|by apply H2].
  - rewrite filter_cons_True by (unfold kept; by rewrite Ed, Ec). rewrite fmap_cons, <- app_assoc. unfold info, rel_of at 2. by rewrite Er.
Qed.

Lemma rel_of_root p : isOk (relativeTo base p) = true -> p <> base -> rooted base (rel_of p) = p.
Proof.
  unfold rel_of, relativeTo, rooted. rewrite base_nonempty. destruct (HasPrefix p (base +:+ "/")) eqn:E; cbn [negb].
  - intros _ _. apply HasPrefix_spec in E as [t ->]. by rewrite TrimPrefix_app, sapp_assoc.
  - by destruct (String.eqb_spec p base).
Qed.

Lemma base_of_key p : valid_key p = true -> Contains (path_Base (rooted base p)) ".pgsafe-tmp" = false.
Proof.
  intros Hv. pose proof (valid_key_plain p Hv) as Hp. unfold valid_key in Hv. apply andb_true_iff in Hv as [_ Hc%negb_true_iff].
  unfold rooted. rewrite base_nonempty. destruct (last_slash p) as [Hn|(a & b & -> & Hb)].
  - rewrite path_Base_app; [done| |done]. by apply plain_path_nonempty.
  - change (a +:+ String "/" b) with (a +:+ "/" +:+ b) in *. destruct (plain_path_split a b Hp) as [_ Hpb].
    replace (base +:+ "/" +:+ a +:+ "/" +:+ b) with ((base +:+ "/" +:+ a) +:+ "/" +:+ b) by by rewrite !sapp_assoc.
    rewrite path_Base_app by (done || by apply plain_path_nonempty). change ("/" +:+ b) with (String "/" b) in Hc.
    rewrite Contains_sep in Hc by done. by apply orb_false_iff in Hc as [_ ?].
Qed.

(** What a successful walk from [root] gives. *)
Lemma walked root s steps s1 l : ftp_Walk root s = (Ok steps, s1) -> collect r steps [] = Ok l ->
  NoDup (fi_Path <$> l) /\
  (forall fi, fi ∈ l -> valid_key (fi_Path fi) = true /\
     (rooted base (fi_Path fi) = root \/ HasPrefix (rooted base (fi_Path fi)) (root +:+ "/") = true) /\
     exists c, sview s !! fi_Path fi = Some c /\ fi_Size fi = Z.of_nat (slen c)) /\
  (forall p, is_Some (sview s !! p) -> HasPrefix (rooted base p) (root +:+ "/") = true -> p ∈ (fi_Path <$> l)).
Proof.
  intros Hw Hc. destruct (walk_law root s) as (_ & _ & Hwalk). rewrite Hw in Hwalk. destruct (Hwalk steps eq_refl) as (Hnd & Hst & Hall).
  destruct (proj1 (collect_run steps []) l Hc) as (Hok & Hrel & ->). cbn [app]. clear Hwalk Hw Hc.
  assert (Hkept : forall st, st ∈ steps -> kept st = true -> rooted base (rel_of (st_Path st)) = st_Path st /\ valid_key (rel_of (st_Path st)) = true /\
     (st_Path st = root \/ HasPrefix (st_Path st) (root +:+ "/") = true) /\ exists c, files s !! st_Path st = Some c /\ st_Size st = Z.of_nat (slen c)).
  { intros st Hin Hk. specialize (Hst st Hin). rewrite Forall_forall in Hok. rewrite (Hok st Hin) in Hst. pose proof (Hrel st Hin Hk) as Hr.
    unfold kept in Hk. apply andb_true_iff in Hk as [Hd%negb_true_iff Hm%negb_true_iff]. destruct (Hst Hd) as (Hp & c & Hfc & Hs).
    assert (Hroot : rooted base (rel_of (st_Path st)) = st_Path st) by (apply rel_of_root; [done|]; intros E; by rewrite E, base_dir in Hfc).
    split_and!; [done| |done|by exists c]. apply (own_names s); rewrite Hroot; [by rewrite Hfc|done]. }
  assert (Hin : forall fi, fi ∈ info <$> base.filter kept steps -> exists st, st ∈ steps /\ kept st = true /\ fi = info st).
  { intros fi Hfi. apply list_elem_of_fmap in Hfi as (st & -> & [Hk Hin]%list_elem_of_filter). exists st. split_and!; [done|by apply Is_true_true|done]. }
  split_and!.
  - assert (Hnk : NoDup (st_Path <$> base.filter kept steps)) by by apply NoDup_fmap_bfilter.
    assert (Hr2 : forall st, st ∈ base.filter kept steps -> rooted base (rel_of (st_Path st)) = st_Path st).
    { intros st [Hk Hs]%list_elem_of_filter. apply Hkept; [done|by apply Is_true_true]. }
    clear -Hnk Hr2. induction (base.filter kept steps) as [|st l IH]; [apply NoDup_nil_2|]. rewrite !fmap_cons in *. apply NoDup_cons in Hnk as [Hn Hnk].
    apply NoDup_cons. split; [|apply IH; [done|intros; apply Hr2; by right]]. intros Hi. apply Hn.
    apply list_elem_of_fmap in Hi as (fi & E & Hi). apply list_elem_of_fmap in Hi as (st2 & -> & Hi). apply list_elem_of_fmap. exists st2. split; [|done].
    cbn in E. rewrite <- (Hr2 st), E, Hr2; [done|by right|by left].
  - intros fi Hfi. destruct (Hin fi Hfi) as (st & Hs & Hk & ->). destruct (Hkept st Hs Hk) as (Hroot & Hv & Hp & c & Hc & Hsz). cbn [info fi_Path fi_Size].
    rewrite Hroot, sview_key, Hroot by done. eauto.
  - intros p Hp Hpre. rewrite sview_lookup in Hp. destruct (valid_key p) eqn:Hv; [|by destruct Hp]. destruct (Hall Hok _ Hp Hpre) as (st & Hs & Ep & Hd).
    assert (Hk : kept st = true). { unfold kept. rewrite Hd, Ep. cbn [negb andb]. rewrite negb_true_iff. by apply base_of_key. }
    apply list_elem_of_fmap. exists (info st). destruct (Hkept st Hs Hk) as (Hroot & _). rewrite Ep in Hroot.
    split; [cbn; apply (inj (rooted base)); by rewrite Ep, Hroot|]. apply list_elem_of_fmap. exists st. split; [done|]. apply list_elem_of_filter. by rewrite Hk.
Qed.

Abbreviation list_root d := (if String.eqb d "" then base else abs r d).

Lemma list_run d s :
  sview (snd (List r d s)) = sview s /\
  (forall l s', List r d s = (Ok l, s') ->
     (l = [] /\ forall q, HasPrefix q (list_root d +:+ "/") = true -> files s !! q = None) \/
     (exists s1 steps s2, sview s1 = sview s /\ ftp_Walk (list_root d) s1 = (Ok steps, s2) /\ collect r steps [] = Ok l)) /\
  (forall e s', List r d s = (Fail e, s') -> errors_Is e OsErrNotExist = false).
Proof.
  unfold List. munfold. destruct (stat_law (list_root d) s) as (Hs & _ & Hfail). pose proof (sview_eq _ _ Hs) as Hv.
  destruct (ftp_Stat _ s) as [[x|e] s1]; cbn [fst snd] in *.
  - destruct (walk_law (list_root d) s1) as (Hs2 & Hwfail & Hst). pose proof (sview_eq _ _ Hs2) as Hv2.
    destruct (ftp_Walk _ s1) as [[steps|e] s2] eqn:Ew; cbn [fst snd] in *; (split_and!; [congruence| |]); try done.
    + intros l s' [= Hc <-]. right. by exists s1, steps, s2.
    + intros e s' [= Hc <-]. apply (proj2 (collect_run steps []) e Hc). intros st e' Hin He. destruct (Hst steps eq_refl) as (_ & Hall & _).
      specialize (Hall st Hin). by rewrite He in Hall.
    + intros e' s' [= <- <-]. auto.
  - destruct (errors_Is e OsErrNotExist) eqn:Ei; cbn [snd]; (split_and!; [done| |]); try done.
    + intros l s' [= <- <-]. left. split; [done|]. by apply (Hfail e).
    + by intros e' s' [= <- <-].
Qed.

Lemma list_root_plain d : plain_path d = true -> list_root d = rooted base d /\ d <> "".
Proof.
  intros Hd. pose proof (plain_path_nonempty d Hd) as Hne. rewrite (sftp_abs_rooted d Hd). by destruct (String.eqb_spec d "").
Qed.

#[program] Definition sftp_laws : @BackendLaws (session S) (sftp_backend r) := {|
  view w := sview (d_client w);
  pending := spending;
  put_spec := put_sftp;
  write_spec := write_sftp;
|}.
Next Obligation. intros h w p c Hp. destruct (close_sftp h w p c Hp) as [Hout Hok]. split; [done|]. intros w' Hc. by apply Hok. Qed.
Next Obligation.
  intros t f w Ht Hf _ Hne Hs. cbn [be_Commit sftp_backend]. rewrite on_client_snd.
  destruct (commit_sftp t f (d_client w) Ht Hf Hne Hs) as (? & ? & ? & ?). split_and!; [done|..]; intros *; intros ?%on_client_eq; eauto.
Qed.
Next Obligation.
  intros p w Hp. cbn [be_Get sftp_backend]. rewrite on_client_snd.
  destruct (get_sftp p (d_client w) Hp) as (? & ? & ?). split_and!; [done|..]; intros *; intros ?%on_client_eq; eauto.
Qed.
Next Obligation.
  intros p w Hp. cbn [be_Stat sftp_backend]. rewrite on_client_snd.
  destruct (stat_sftp p (d_client w) Hp) as (? & ? & ?). split_and!; [done|..]; intros *; intros ?%on_client_eq; eauto.
Qed.
Next Obligation.
  intros d w. cbn [be_List sftp_backend]. rewrite on_client_snd. destruct (list_run d (d_client w)) as (Hv & Hok & _). split; [done|].
  intros l w' Hrun%on_client_eq. destruct (Hok _ _ Hrun) as [[-> _]|(s1 & steps & s2 & Hv1 & Hw & Hc)].
  { split; [apply NoDup_nil_2|]. by intros fi Hfi%elem_of_nil. }
  destruct (walked _ _ _ _ _ Hw Hc) as (Hnd & Hall & _). split; [done|]. intros fi Hfi. destruct (Hall fi Hfi) as (Hk & Hroot & c & Hcv & Hsz).
  split; [done|]. exists c. split_and!; [by rewrite <- Hv1| |done]. intros Hd. destruct (list_root_plain d Hd) as [E Hne]. rewrite E in Hroot.
  unfold inside. destruct (String.eqb_spec d ""); [done|]. destruct Hroot as [Er%(inj (rooted base))|Hp]; [by rewrite Er, String.eqb_refl|].
  rewrite <- rooted_app, HasPrefix_rooted in Hp. by rewrite Hp, orb_true_r.
Qed.
Next Obligation.
  intros d w l w' p Hrun%on_client_eq Hs Hk Hu. cbn beta in Hs. destruct (list_run d (d_client w)) as (Hv & Hok & _).
  assert (Hpre : HasPrefix (rooted base p) (list_root d +:+ "/") = true).
  { unfold under in Hu. destruct (String.eqb_spec d "") as [->|Hne].
    - unfold rooted. rewrite base_nonempty, <- sapp_assoc. apply HasPrefix_app.
    - pose proof Hu as Hu2. apply HasPrefix_spec in Hu2 as [t ->]. rewrite sapp_assoc in Hk. apply valid_key_dir in Hk.
      rewrite (abs_key d Hk), <- rooted_app, HasPrefix_rooted. done. }
  destruct (Hok _ _ Hrun) as [[-> Hnone]|(s1 & steps & s2 & Hv1 & Hw & Hc)].
  - rewrite (sview_key _ p Hk), (Hnone _ Hpre) in Hs. by destruct Hs.
  - destruct (walked _ _ _ _ _ Hw Hc) as (_ & _ & Hall). apply Hall; [by rewrite Hv1|done].
Qed.
Next Obligation.
  intros d w e w' p Hrun%on_client_eq Hi. destruct (list_run d (d_client w)) as (_ & _ & Hfail). by rewrite (Hfail e _ Hrun) in Hi.
Qed.
Next Obligation.
  intros p w Hp. cbn [be_Delete sftp_backend]. rewrite on_client_snd.
  destruct (delete_sftp p (d_client w) Hp) as (? & ? & ? & ?). split_and!; [done|..]; intros *; intros ?%on_client_eq; eauto.
Qed.
End laws.

(** C40: the SFTP driver is a storage over an absolute base path that is written plainly: its
    operations keep the contract of the interface, where the files are those of the base path that
    are not temporary; and a file is only ever written under a name that was free. *)
Theorem sftp_implements {S : Type} `{SFTPLaws S} (r : server) :
  clean_target (r_base r) -> (forall s, files s !! r_base r = None) ->
  (forall s p, is_Some (files s !! rooted (r_base r) p) -> Contains (path_Base (rooted (r_base r) p)) ".pgsafe-tmp" = false -> valid_key p = true) ->
  exists laws : @BackendLaws (session S) (sftp_backend r),
    (forall w p, valid_key p = true -> @view _ _ laws w !! p = files (d_client w) !! abs r p) /\
    (forall h w w' p c, @pending _ _ laws w h = Some (p, c) -> Close h w = (Ok tt, w') -> @view _ _ laws w !! p = None).
Proof.
  intros Hb Hd Ho. exists (sftp_laws r Hb Hd Ho). split.
  - intros w p Hp. rewrite (abs_key r Hb p Hp). by apply sview_key.
  - intros h w w' p c Hp Hc. exact (proj1 (proj2 (close_sftp r h w p c Hp) w' Hc)).
Qed.

(** ** A server in memory *)

Record remote := Remote { m_files : gmap string string; m_handles : gmap nat string; m_next : nat }.

Definition remote_base : string := "/srv/backups".

(** The names the server takes. *)
Definition remote_name (q : string) : bool :=
  negb (String.eqb q remote_base) &&
  (negb (owned remote_base q) || valid_key (unrooted remote_base q) || Contains (path_Base q) ".pgsafe-tmp").

Definition remote_files (s : remote) : gmap string string := base.filter (fun kc => remote_name kc.1 = true) (m_files s).
Definition remote_set (m : gmap string string) (s : remote) : remote := Remote m (m_handles s) (m_next s).

Definition no_such_file : error := errors_Sentinel OsErrNotExist "no such file".
Definition failure_code : error := errors_New "sftp: failure".

Definition remote_below (root : string) (s : remote) : list (string * string) :=
  base.filter (fun kc => String.eqb kc.1 root || HasPrefix kc.1 (root +:+ "/")) (map_to_list (remote_files s)).

#[export] Instance remote_client : SFTPClient remote := {
  Handle := nat;
  ftp_Stat p := fun s =>
    match remote_files s !! p with
    | Some c => (Ok (false, Z.of_nat (slen c), 0), s)
    | None => match remote_below p s with [] => (Fail no_such_file, s) | _ => (Ok (true, 0, 0), s) end
    end;
  ftp_MkdirAll _ := ret tt;
  ftp_Create p := fun s =>
    if remote_name p then (Ok (m_next s), Remote (<[p := ""]> (remote_files s)) (<[m_next s := p]> (m_handles s)) (S (m_next s)))
    else (Fail failure_code, s);
  ftp_FileWrite h b := fun s =>
    match m_handles s !! h with
    | Some p => match remote_files s !! p with Some c => (Ok tt, remote_set (<[p := c +:+ b]> (remote_files s)) s) | None => (Fail failure_code, s) end
    | None => (Fail failure_code, s)
    end;
  ftp_FileSync _ := throw (errors_New "SSH_FX_OP_UNSUPPORTED");
  ftp_FileClose _ := ret tt;
  ftp_Rename p q := fun s =>
    match remote_files s !! p, remote_files s !! q with
    | Some c, None => if remote_name q then (Ok tt, remote_set (<[q := c]> (delete p (remote_files s))) s) else (Fail failure_code, s)
    | None, _ => (Fail no_such_file, s)
    | _, _ => (Fail failure_code, s)
    end;
  ftp_Remove p := fun s =>
    match remote_files s !! p with Some _ => (Ok tt, remote_set (delete p (remote_files s)) s) | None => (Fail no_such_file, s) end;
  ftp_Open p := fun s => match remote_files s !! p with Some c => (Ok (Ok c), s) | None => (Fail no_such_file, s) end;
  ftp_Walk root := fun s =>
    (Ok ((fun kc => {| st_Err := None; st_Path := kc.1; st_IsDir := false; st_Size := Z.of_nat (slen kc.2); st_ModTime := 0 |}) <$> remote_below root s), s);
}.

Lemma remote_files_set m h n : (forall q c, m !! q = Some c -> remote_name q = true) -> remote_files (Remote m h n) = m.
Proof.
  intros Hm. unfold remote_files. cbn [m_files]. apply map_eq. intros q. apply option_eq. intros c.
  rewrite map_lookup_filter_Some. cbn [fst]. split; [by intros [? _]|]. intros Hq. split; [done|by eapply Hm].
Qed.

Lemma remote_files_named s q c : remote_files s !! q = Some c -> remote_name q = true.
Proof. unfold remote_files. by intros [_ ?]%map_lookup_filter_Some. Qed.

Lemma remote_insert p c s h n : remote_name p = true -> remote_files (Remote (<[p := c]> (remote_files s)) h n) = <[p := c]> (remote_files s).
Proof.
  intros Hp. apply remote_files_set. intros q c'. destruct (decide (q = p)) as [->|]; [done|].
  rewrite lookup_insert_ne by done. apply remote_files_named.
Qed.

Lemma remote_delete p s h n : remote_files (Remote (delete p (remote_files s)) h n) = delete p (remote_files s).
Proof. apply remote_files_set. intros q c' [_ Hq]%lookup_delete_Some. by eapply remote_files_named. Qed.

Definition remote_open (s : remote) (h : nat) : option (string * string) :=
  match m_handles s !! h with
  | Some p => match remote_files s !! p with Some c => Some (p, c) | None => None end
  | None => None
  end.

Lemma remote_open_spec s h p c : remote_open s h = Some (p, c) <-> m_handles s !! h = Some p /\ remote_files s !! p = Some c.
Proof.
  unfold remote_open. split.
  - destruct (m_handles s !! h) as [p'|]; [|done]. destruct (remote_files s !! p') eqn:E; [|done]. by intros [= <- <-].
  - by intros [-> ->].
Qed.

Lemma remote_below_spec root s kc : kc ∈ remote_below root s <->
  remote_files s !! kc.1 = Some kc.2 /\ (kc.1 = root \/ HasPrefix kc.1 (root +:+ "/") = true).
Proof.
  unfold remote_below. rewrite list_elem_of_filter, Is_true_true, orb_true_iff, String.eqb_eq. destruct kc as [k c]. rewrite elem_of_map_to_list. cbn. tauto.
Qed.

#[program] Definition remote_laws : SFTPLaws remote := {| files := remote_files; open_at := remote_open |}.
Next Obligation.
  intros p s. cbn [ftp_Stat remote_client]. destruct (remote_files s !! p) as [c|] eqn:E; cbn [fst snd].
  { split_and!; [done| |done]. by intros d n m [= <- <- <-] c' [= <-]. }
  destruct (remote_below p s) as [|kc l] eqn:Eb; cbn [fst snd]; (split_and!; [done| |]); try done. intros e [= <-] _. split; [done|].
  intros q Hq. destruct (remote_files s !! q) as [c|] eqn:Eq; [|done]. assert (Hin : (q, c) ∈ remote_below p s) by (apply remote_below_spec; cbn; auto).
  rewrite Eb in Hin. by apply elem_of_nil in Hin.
Qed.
Next Obligation. done. Qed.
Next Obligation.
  intros p s. cbn [ftp_Create remote_client]. destruct (remote_name p) eqn:Ep; cbn [fst snd]; [|done].
  rewrite remote_insert by done. split; [intros q Hq; by rewrite lookup_insert_ne|]. intros h [= <-]. unfold remote_open. cbn [m_handles].
  by rewrite lookup_insert_eq, remote_insert, lookup_insert_eq.
Qed.
Next Obligation.
  intros h b p c s Ho. apply remote_open_spec in Ho as [Eh Ep]. cbn [ftp_FileWrite remote_client]. rewrite Eh, Ep. cbn [fst snd]. unfold remote_set.
  rewrite remote_insert by by eapply remote_files_named. split; [intros q Hq; by rewrite lookup_insert_ne|]. exists (c +:+ b). split; [|done].
  apply remote_open_spec. cbn [m_handles]. split; [done|]. rewrite remote_insert by by eapply remote_files_named. apply lookup_insert_eq.
Qed.
Next Obligation. intros h p c s Ho. by split. Qed.
Next Obligation. intros h p c s Ho. apply remote_open_spec in Ho as [_ Ep]. by split. Qed.
Next Obligation.
  intros p q c s Hne Hp. cbn [ftp_Rename remote_client]. rewrite Hp. destruct (remote_files s !! q) as [cq|] eqn:Eq; cbn [fst snd].
  { split; [done|]. intros e [= <-]. split; [by left|done]. }
  destruct (remote_name q) eqn:En; cbn [fst snd]; (split; [|try done]); [|done|].
  - intros _. split; [done|]. unfold remote_set. rewrite remote_files_set; [done|]. intros x c' [[<- _]|[_ Hx]]%lookup_insert_Some; [done|].
    apply lookup_delete_Some in Hx as [_ Hx]. by eapply remote_files_named.
  - intros e [= <-]. split; [by left|done].
Qed.
Next Obligation.
  intros p s. cbn [ftp_Remove remote_client]. destruct (remote_files s !! p) as [c|] eqn:E; cbn [fst snd]; (split; [|try done]); [|done|].
  - intros _. unfold remote_set. apply remote_delete.
  - intros e [= <-]. split; [by left|done].
Qed.
Next Obligation.
  intros p s. cbn [ftp_Open remote_client]. destruct (remote_files s !! p) as [c|] eqn:E; cbn [fst snd]; (split_and!; [done|..]); try done. by intros c' [= <-].
Qed.
Next Obligation.
  intros root s. cbn [ftp_Walk remote_client fst snd]. split_and!; [done|done|]. intros l [= <-]. split_and!.
  - rewrite <- list_fmap_compose. change (st_Path ∘ _) with (fst : string * string -> string).
    eapply sublist_NoDup; [apply (NoDup_fst_map_to_list (remote_files s))|]. apply fmap_sublist, sublist_filter.
  - intros st Hst. apply list_elem_of_fmap in Hst as (kc & -> & Hin). cbn. intros _. apply remote_below_spec in Hin as [Hc Hp]. split; [done|]. by exists kc.2.
  - intros _ q [c Hc] Hp. eexists. split; [apply list_elem_of_fmap; exists (q, c); split; [done|]|done]. apply remote_below_spec. cbn. auto.
Qed.

Definition sample_server : server := {| r_base := remote_base |}.
Definition remote_session (files : list (string * string)) : @session remote remote_client :=
  {| d_client := Remote (list_to_map files) ∅ 0; d_writers := ∅; d_next := 0 |}.

(** Writes a file under a name. *)
Definition write_file (p body : string) : M (@session remote remote_client) unit :=
  h <- Put sample_server p ;; Write h body ;;; Close h.

Lemma sftp_implements_witness : exists laws : @BackendLaws _ (sftp_backend (S:=remote) sample_server),
  (forall w p, valid_key p = true -> @view _ _ laws w !! p = remote_files (d_client w) !! abs sample_server p) /\
  match (write_file "F1/a.tmp" "one" ;;; on_client (Commit sample_server "F1/a.tmp" "F1/a") ;;; on_client (List sample_server "F1")) (remote_session []) with
  | (Ok l, w) => fi_Path <$> l = ["F1/a"] /\ remote_files (d_client w) !! "/srv/backups/F1/a" = Some "one"
  | _ => False
  end.
Proof.
  destruct (@sftp_implements remote _ remote_laws sample_server) as (laws & Hview & _).
  - exists "srv/backups". by split.
  - intros s. cbn [files remote_laws]. destruct (remote_files s !! r_base sample_server) eqn:E; [|done]. by apply remote_files_named in E.
  - intros s p [c Hc] Hm. apply remote_files_named in Hc. unfold remote_name in Hc. change (r_base sample_server) with remote_base in *.
    rewrite Hm, orb_false_r, unrooted_rooted, (proj2 (owned_spec remote_base (rooted remote_base p)) (ex_intro _ p eq_refl)) in Hc.
    by apply andb_true_iff in Hc as [_ Hc].
  - exists laws. split; [exact Hview|]. vm_compute. split; reflexivity.
Defined.

(** ** What the driver makes of other names *)

(** A file is never written again: the rename is refused, and the new bytes are removed with it. *)
Lemma second_write_fails :
  match (write_file "F1/a" "one" ;;; write_file "F1/a" "two") (remote_session []) with
  | (Fail _, w) => map_to_list (remote_files (d_client w)) = [("/srv/backups/F1/a", "one")]
  | _ => False
  end.
Proof. vm_compute. done. Qed.

(** Dots lead out of the base path; the POSIX driver refuses them. *)
Lemma abs_escapes : abs sample_server "../other/x" = "/srv/other/x".
Proof. reflexivity. Qed.

(** The base path [/] becomes empty, and every path relative to the directory of the login. *)
Lemma root_base_is_login :
  match New {| o_Client := true; o_BasePath := "/" |} with Ok r => abs r "wal/x" = "wal/x" | Fail _ => False end.
Proof. reflexivity. Qed.

(** Under a base path that is not clean, a walk gives cleaned paths and the listing fails on the first file. *)
Lemma unclean_base_not_listed : isOk (relativeTo "./backups" (path_Join ["./backups"; "F1"; "a"])) = false.
Proof. reflexivity. Qed.
