(* ===== verification/Cli.v ===== *)
(** * The commands

    [cmd/pgsafe]: what the subcommands do with a configuration, the storage and the lock of the
    server, and the exit status they end with. Flags are read into records; what is printed is
    left out. *)

From S2P Require Import Prelude Lsn Storage Host Time Json Manifest Info Retention Archive Prune Config Lock.

(** ** [shellsplit.go] *)

Inductive quoting := Bare | InSingle | InDouble.

Definition single_quote : ascii := "'".

(** What a backslash escapes between double quotes. *)
Definition escapable (n : ascii) : bool :=
  Ascii.eqb n dq || Ascii.eqb n "\" || Ascii.eqb n "$" || Ascii.eqb n "`" || Ascii.eqb n "010".

(** The closure [flush] *)
Definition flush (inToken : bool) (cur : string) (out : list string) : list string :=
  if inToken then out ++ [cur] else out.

(** The loop of [shellSplit] and its end. *)
Fixpoint shell_go (q : quoting) (inToken : bool) (cur : string) (out : list string) (s : string) : result (list string) :=
  match s with
  | "" => match q with
          | Bare => Ok (flush inToken cur out)
          | _ => Fail (errors_New "unmatched quote")
          end
  | String c s' =>
      match q with
      | InSingle =>
          if Ascii.eqb c single_quote then shell_go Bare inToken cur out s'
          else shell_go InSingle inToken (cur +:+ String c "") out s'
      | InDouble =>
          if Ascii.eqb c dq then shell_go Bare inToken cur out s'
          else if Ascii.eqb c "\" then
            match s' with
            | String n s'' => if escapable n then shell_go InDouble inToken (cur +:+ String n "") out s''
                              else shell_go InDouble inToken (cur +:+ String c "") out s'
            | "" => shell_go InDouble inToken cur out s'
            end
          else shell_go InDouble inToken (cur +:+ String c "") out s'
      | Bare =>
          if Ascii.eqb c " " || Ascii.eqb c "009" || Ascii.eqb c "010"
          then shell_go Bare false (if inToken then "" else cur) (flush inToken cur out) s'
          else if Ascii.eqb c single_quote then shell_go InSingle true cur out s'
          else if Ascii.eqb c dq then shell_go InDouble true cur out s'
          else if Ascii.eqb c "\" then
            match s' with
            | String n s'' => shell_go Bare true (cur +:+ String n "") out s''
            | "" => shell_go Bare inToken cur out s'
            end
          else shell_go Bare true (cur +:+ String c "") out s'
      end
  end.

(** [shellSplit] *)
Definition shellSplit (s : string) : result (list string) := shell_go Bare false "" [] s.

(** ** [shape.go] and [ssh_reach.go] *)

Definition ModeSimple : string := "simple".
Definition ModeRemoteParallel : string := "remote-parallel".
Definition ModeWorker : string := "worker".

(** [inferBackupMode] *)
Definition inferBackupMode (sshTarget : string) (workers : Z) (workersExplicit : bool) : string :=
  if negb (String.eqb sshTarget "") then ModeWorker
  else if workersExplicit && (1 <? workers) then ModeRemoteParallel
  else ModeSimple.

(** [resolveSSHReach]; a flag that was given is [Some]. *)
Definition resolveSSHReach (sshTarget sshExtraArgs : option string) (cfg : Config) : string * string :=
  (default (pg_Host (c_PG cfg)) sshTarget, default (pg_SSHExtraArgs (c_PG cfg)) sshExtraArgs).

(** ** Exit statuses and configurations: [root.go] *)

Definition sidecarFilename : string := "Storage-Metadata.json".

(** What a command returns: nothing, an [ExitError], or any other error. *)
Inductive outcome := Done | ExitError (code : Z) | Other.

Definition errCfg : outcome := ExitError 2.

(** [errExit] *)
Definition errExit (o : outcome) : Z := match o with Done => 0 | ExitError c => c | Other => 2 end.

(** The flags a configuration can be built from. *)
Record Flags := {
  fl_server : string; fl_pg_conn_string : string; fl_pg_version : Z; fl_pg_host : string; fl_storage_type : string;
  fl_storage_path : string; fl_recipients : list string; fl_codec : string; fl_level : Z; fl_log_level : string; fl_log_format : string;
}.

Section config.
Context {Key : Type} (ParseX25519Recipient : string -> result Key) (yaml_Decode : string -> result Config).

(** [resolveConfigFromFlags] *)
Definition resolveConfigFromFlags (fl : Flags) : Config + outcome :=
  let storageType := if String.eqb (fl_storage_type fl) "" then "posix" else fl_storage_type fl in
  if negb (String.eqb storageType "posix") then inr errCfg
  else if String.eqb (fl_server fl) "" || String.eqb (fl_pg_conn_string fl) "" || String.eqb (fl_storage_path fl) "" ||
          (length (fl_recipients fl) =? 0)%nat then inr errCfg
  else
    let cfg := applyDefaults {|
      c_Server := fl_server fl;
      c_PG := {| pg_ConnString := fl_pg_conn_string fl; pg_Version := fl_pg_version fl; pg_Host := fl_pg_host fl;
                 pg_SSHExtraArgs := ""; pg_StorageReach := "" |};
      c_Storages := [{| st_Type := storageType; st_Path := fl_storage_path fl; st_S3 := None; st_Azure := None; st_GCS := None; st_SFTP := None |}];
      c_Compression := {| cm_Codec := fl_codec fl; cm_Level := fl_level fl |};
      c_Encryption := {| en_Recipients := fl_recipients fl |};
      c_Log := {| lg_Format := fl_log_format fl; lg_Level := fl_log_level fl |};
      c_Backup := {| bc_ArchiveTimeout := 0; bc_ScratchDir := ""; bc_Resume := None; bc_ResumeCheckpointEveryN := 0; bc_ResumeGracePeriod := 0 |} |} in
    match Config.Validate ParseX25519Recipient cfg with
    | Fail _ => inr errCfg
    | Ok _ => inl cfg
    end.

(** The flags laid over a configuration from a file. *)
Definition overlay (fl : Flags) (cfg : Config) : Config :=
  let pick v old := if negb (String.eqb v "") then v else old in
  {| c_Server := pick (fl_server fl) (c_Server cfg); c_PG := c_PG cfg; c_Storages := c_Storages cfg;
     c_Compression := c_Compression cfg; c_Encryption := c_Encryption cfg;
     c_Log := {| lg_Format := pick (fl_log_format fl) (lg_Format (c_Log cfg)); lg_Level := pick (fl_log_level fl) (lg_Level (c_Log cfg)) |};
     c_Backup := c_Backup cfg |}.

(** [resolveConfig]; [file] is the file of [--config], if it is given. *)
Definition resolveConfig (file : option (result string)) (fl : Flags) : Config + outcome :=
  match file with
  | None => resolveConfigFromFlags fl
  | Some (Fail _) => inr errCfg
  | Some (Ok text) =>
      match Load yaml_Decode text with
      | Fail _ => inr errCfg
      | Ok cfg =>
          let cfg := overlay fl cfg in
          match Config.Validate ParseX25519Recipient cfg with
          | Fail _ => inr errCfg
          | Ok _ => inl cfg
          end
      end
  end.
End config.

(** ** The commands that use the storage *)

(** The lock of the server and the opening of a backend, which clients of several drivers do. *)
Class Shell (W : Type) := {
  lock_Acquire : string -> Mode -> Z -> M W unit;
  lock_Release : string -> M W unit;
  openBackend : StorageConfig -> M W unit;
  cleanup_backend : M W unit;
}.

Section commands.
Context {W : Type} `{Backend W, Host W, Shell W}.

(** [if err != nil { return &ExitError{Code: code} }] *)
Definition or_exit {A} (code : error -> Z) (m : M W A) (k : A -> M W outcome) : M W outcome :=
  r <- try m ;;
  match r with Fail err => ret (ExitError (code err)) | Ok a => k a end.

(** [acquireServerLock] and the deferred release. *)
Definition with_server_lock (cfg : Config) (st : StorageConfig) (mode : Mode) (timeout : Z) (k : M W outcome) : M W outcome :=
  let path := serverLockPath st (c_Server cfg) in
  or_exit lock_exit (lock_Acquire path mode timeout) (fun _ =>
    o <- k ;;
    try (lock_Release path) ;;;
    ret o).

(** [openBackend] and the deferred cleanup. *)
Definition with_backend (st : StorageConfig) (k : M W outcome) : M W outcome :=
  or_exit (fun _ => 4) (openBackend st) (fun _ =>
    o <- k ;;
    try cleanup_backend ;;;
    ret o).

(** [readSidecar] of [annotate.go] and [readRootSidecar] *)
Definition readSidecar (key : string) : M W Sidecar :=
  body <- be_Get key ;;
  of_result (UnmarshalSidecar body).

Definition readRootSidecar : M W Sidecar := readSidecar sidecarFilename.

(** [atomicReplaceSidecar] *)
Definition atomicReplaceSidecar (key body : string) : M W unit :=
  let tmp := key +:+ ".tmp" in
  wc <- wrapping "put" (be_Put tmp) ;;
  r <- try (be_Write wc body) ;;
  match r with
  | Fail err => try (be_Close wc) ;;; throw (Errorf_w "write" err)
  | Ok _ =>
      wrapping "close" (be_Close wc) ;;;
      wrapping "delete" (be_Delete key) ;;;
      wrapping "commit" (be_Commit tmp key)
  end.

Definition set_annotation (note : string) (sc : Sidecar) : Sidecar :=
  {| sc_Version := sc_Version sc; sc_Server := sc_Server sc; sc_EncryptionRecipients := sc_EncryptionRecipients sc;
     sc_Compression := sc_Compression sc; sc_StorageLayoutVersion := sc_StorageLayoutVersion sc; sc_WALSegments := sc_WALSegments sc;
     sc_SystemIdentifier := sc_SystemIdentifier sc; sc_Directories := sc_Directories sc; sc_Type := sc_Type sc;
     sc_ParentBackupID := sc_ParentBackupID sc; sc_Annotation := note; sc_LockHeld := sc_LockHeld sc |}.

(** What [runAnnotate] does under the lock. *)
Definition annotateSidecar (backupID note : string) : M W outcome :=
  let key := path_Join [backupID; "Storage-Metadata.json"] in
  or_exit (fun _ => 4) (readSidecar key) (fun sc =>
  or_exit (fun _ => 1) (of_result (MarshalSidecar (set_annotation note sc))) (fun scBytes =>
  or_exit (fun _ => 4) (atomicReplaceSidecar key scBytes) (fun _ => ret Done))).

(** [runAnnotate] *)
Definition runAnnotate (cfg : Config) (st : StorageConfig) (backupID note : string) (lockTimeout : Z) : M W outcome :=
  with_server_lock cfg st Exclusive lockTimeout (with_backend st (annotateSidecar backupID note)).

(** The codec and the level, as the sidecar has them. *)
Definition compression_string (c : CompressionConfig) : string := cm_Codec c +:+ ":" +:+ FormatD (cm_Level c).

(** What [runServerAdd] does with the storage. *)
Definition addServer (cfg : Config) : M W outcome :=
  found <- try (be_Stat sidecarFilename) ;;
  match found with
  | Ok _ => ret errCfg
  | Fail err =>
      if negb (errors_Is err OsErrNotExist) then ret (ExitError 4)
      else
        or_exit (fun _ => 1) (of_result (MarshalSidecar
          {| sc_Version := SidecarVersion; sc_Server := c_Server cfg; sc_EncryptionRecipients := en_Recipients (c_Encryption cfg);
             sc_Compression := compression_string (c_Compression cfg); sc_StorageLayoutVersion := 1; sc_WALSegments := [];
             sc_SystemIdentifier := 0; sc_Directories := []; sc_Type := ""; sc_ParentBackupID := ""; sc_Annotation := "";
             sc_LockHeld := false |})) (fun data =>
        or_exit (fun _ => 4) (be_Put sidecarFilename) (fun wc =>
          r <- try (be_Write wc data) ;;
          match r with
          | Fail _ => try (be_Close wc) ;;; ret (ExitError 4)
          | Ok _ => or_exit (fun _ => 4) (be_Close wc) (fun _ => ret Done)
          end))
  end.

(** [runServerAdd] *)
Definition runServerAdd (cfg : Config) (st : StorageConfig) : M W outcome := with_backend st (addServer cfg).

Definition set_compression (recipients : list string) (compression : string) (sc : Sidecar) : Sidecar :=
  {| sc_Version := sc_Version sc; sc_Server := sc_Server sc; sc_EncryptionRecipients := recipients;
     sc_Compression := compression; sc_StorageLayoutVersion := sc_StorageLayoutVersion sc; sc_WALSegments := sc_WALSegments sc;
     sc_SystemIdentifier := sc_SystemIdentifier sc; sc_Directories := sc_Directories sc; sc_Type := sc_Type sc;
     sc_ParentBackupID := sc_ParentBackupID sc; sc_Annotation := sc_Annotation sc; sc_LockHeld := sc_LockHeld sc |}.

(** What [runServerUpgrade] does under the lock. *)
Definition upgradeServer (cfg : Config) : M W outcome :=
  or_exit (fun _ => 4) readRootSidecar (fun sc =>
  if negb (String.eqb (sc_Server sc) (c_Server cfg)) then ret errCfg
  else
    or_exit (fun _ => 1) (of_result (MarshalSidecar
      (set_compression (en_Recipients (c_Encryption cfg)) (compression_string (c_Compression cfg)) sc))) (fun scBytes =>
    or_exit (fun _ => 4) (atomicReplaceSidecar sidecarFilename scBytes) (fun _ => ret Done))).

(** [runServerUpgrade] *)
Definition runServerUpgrade (cfg : Config) (st : StorageConfig) (lockTimeout : Z) : M W outcome :=
  with_server_lock cfg st Exclusive lockTimeout (with_backend st (upgradeServer cfg)).

(** The loops of [runServerDelete]: the files of every backup, one by one. *)
Definition delete_backup (deleted : Z) (id : string) : M W Z :=
  files <- wrapping "server delete: list" (be_List id) ;;
  forM files deleted (fun deleted fi => wrapping "server delete: delete" (be_Delete (fi_Path fi)) ;;; ret (deleted + 1)).

(** What [runServerDelete] does under the lock. *)
Definition deleteServer (server : string) (force : bool) : M W outcome :=
  or_exit (fun _ => 4) Info.List (fun '(records, _) =>
  let ours := r_BackupID <$> base.filter (fun r => String.eqb (r_Server r) server) records in
  if (0 <? length ours)%nat && negb force then ret errCfg
  else
    or_exit (fun _ => 4) (forM ours 0 delete_backup) (fun _ =>
      r <- try (be_Delete sidecarFilename) ;;
      match r with
      | Ok _ => ret Done
      | Fail err => if errors_Is err OsErrNotExist then ret Done else ret (ExitError 4)
      end)).

(** [runServerDelete] *)
Definition runServerDelete (cfg : Config) (st : StorageConfig) (force : bool) (lockTimeout : Z) : M W outcome :=
  with_server_lock cfg st Exclusive lockTimeout (with_backend st (deleteServer (c_Server cfg) force)).

(** The servers [runServerList] prints, with the number of their backups. *)
Definition server_counts (records : list BackupRecord) (root : option Sidecar) : gmap string Z :=
  let counts := foldl (fun m r => if String.eqb (r_Server r) "" then m else <[r_Server r := default 0 (m !! r_Server r) + 1]> m) ∅ records in
  match root with
  | Some sc => if negb (String.eqb (sc_Server sc) "") && bool_decide (counts !! sc_Server sc = None)
               then <[sc_Server sc := 0]> counts else counts
  | None => counts
  end.

(** What [runServerList] hands to its printer, sorted by name. *)
Definition listServers : M W (list (string * Z)) :=
  l <- Info.List ;;
  root <- try readRootSidecar ;;
  let counts := server_counts (fst l) (match root with Ok sc => Some sc | Fail _ => None end) in
  ret ((fun s => (s, default 0 (counts !! s))) <$> sort_strings (map_to_list counts).*1).

(** [runServerList]; an error of the printer is that of the command. *)
Definition runServerList (print : list (string * Z) -> M W unit) (st : StorageConfig) : M W outcome :=
  with_backend st (or_exit (fun _ => 4) listServers (fun servers =>
    r <- try (print servers) ;;
    ret (match r with Ok _ => Done | Fail _ => Other end))).

(** What [runPrune] does under the lock. *)
Definition pruneServer (range : forall (n : nat) (A : Type), gmap string A -> list (string * A)) (wall : W -> time) (policy : Policy) (dryRun : bool) : M W outcome :=
  or_exit (fun _ => 4) Info.List (fun '(records, _) =>
  now <- read wall ;;
  match Evaluate range now records policy with
  | Fail err => ret (ExitError (if errors_Is err ErrEmptyPolicy then 8 else 1))
  | Ok plan =>
      or_exit (fun _ => 4) (Prune plan dryRun) (fun '(_, err) =>
        match err with Some _ => ret (ExitError 4) | None => ret Done end)
  end).

(** [runPrune] *)
Definition runPrune (range : forall (n : nat) (A : Type), gmap string A -> list (string * A)) (wall : W -> time) (cfg : Config) (st : StorageConfig)
    (policy : Policy) (dryRun : bool) (lockTimeout : Z) : M W outcome :=
  with_server_lock cfg st Exclusive lockTimeout (with_backend st (pruneServer range wall policy dryRun)).

(** What [archive-push] and [archive-get] do with the storage. *)
Definition pushSegment (segPath : string) : M W outcome :=
  match TimelineFromSegment (path_Base segPath) with
  | Fail _ => ret errCfg
  | Ok tli => or_exit (fun _ => 4) (Push tli segPath) (fun _ => ret Done)
  end.

Definition getSegment (segName destPath : string) : M W outcome :=
  match TimelineFromSegment segName with
  | Fail _ => ret errCfg
  | Ok tli =>
      r <- try (Archive.Get tli segName destPath) ;;
      ret (match r with Ok _ => Done | Fail _ => Other end)
  end.

(** [archive-push] and [archive-get] *)
Definition archivePush (st : StorageConfig) (segPath : string) : M W outcome := with_backend st (pushSegment segPath).
Definition archiveGet (st : StorageConfig) (segName destPath : string) : M W outcome := with_backend st (getSegment segName destPath).

End commands.

(** The exit status [runBackup] gives an error of the backup. *)
Definition backup_exit (err : error) : Z :=
  if errors_Is err ErrArchiveUnreachable || errors_Is err ErrWALWait then 5
  else if errors_Is err ErrPGProtocol then 3
  else if errors_Is err ErrStorage then 4
  else 1.
