(* ===== verification/CliSpec.v ===== *)
(** * What the commands promise

    A quoted word is split off as it was; replacing a sidecar never loses both versions; deleting a
    server touches nothing of the others. *)

From S2P Require Import Prelude Sha256 Wal Storage Keys Host Time Json JsonSpec Manifest ManifestSpec Info InfoSpec Retention Worlds Archive Prune Config Lock RestoreSpec Cli.

(** ** Splitting a command line *)

(** The bytes that have to be escaped between double quotes. *)
Definition special (c : ascii) : bool := Ascii.eqb c dq || Ascii.eqb c "\" || Ascii.eqb c "$" || Ascii.eqb c "`".

Fixpoint escape (s : string) : string :=
  match s with
  | "" => ""
  | String c s' => if special c then String "\" (String c (escape s')) else String c (escape s')
  end.

(** A word as an operator writes it between double quotes. *)
Definition quote_word (s : string) : string := quoted (escape s).

Lemma shell_go_escape cur out s rest :
  shell_go InDouble true cur out (escape s +:+ String dq rest) = shell_go Bare true (cur +:+ s) out rest.
Proof.
  revert cur. induction s as [|c s IH]; intros cur.
  - cbn. by rewrite sapp_nil_r.
  - cbn [escape]. destruct (special c) eqn:Hc.
    + assert (He : escapable c = true) by (unfold escapable; unfold special in Hc; by rewrite Hc). 
      change (String "\" (String c (escape s)) +:+ String dq rest) with (String "\" (String c (escape s +:+ String dq rest))).
      cbn [shell_go]. rewrite He. cbn -[shell_go]. rewrite IH, sapp_assoc. done.
    + unfold special in Hc. rewrite !orb_false_iff in Hc. destruct Hc as [[[Hq Hb] _] _].
      change (String c (escape s) +:+ String dq rest) with (String c (escape s +:+ String dq rest)).
      cbn [shell_go]. rewrite Hq, Hb, IH, sapp_assoc. done.
Qed.

Lemma shell_go_word out s rest :
  shell_go Bare false "" out (quote_word s +:+ rest) = shell_go Bare true s out rest.
Proof.
  unfold quote_word, quoted. change (String dq (escape s +:+ String dq "") +:+ rest) with (String dq ((escape s +:+ String dq "") +:+ rest)).
  rewrite sapp_assoc. cbn -[shell_go escape]. change (shell_go Bare false "" out (String dq ?x)) with (shell_go InDouble true "" out x).
  apply (shell_go_escape "").
Qed.

Lemma shell_go_words out ws : shell_go Bare false "" out (Join (quote_word <$> ws) " ") = Ok (out ++ ws).
Proof.
  revert out. induction ws as [|w ws IH]; intros out; [cbn; by rewrite app_nil_r|].
  destruct ws as [|w' ws].
  - change (Join (quote_word <$> [w]) " ") with (quote_word w). by rewrite <- (sapp_nil_r (quote_word w)), shell_go_word.
  - rewrite !fmap_cons, Join_cons2, shell_go_word. cbn [String.append]. change (shell_go Bare true w out (String " " ?x)) with (shell_go Bare false "" (out ++ [w]) x).
    rewrite <- !fmap_cons, IH, <- app_assoc. done.
Qed.

(** Whatever the words of a command are, quoted and joined by blanks they are split into the same
    words; no byte is lost, and no word is joined to another. *)
Theorem shellSplit_quoted ws : shellSplit (Join (quote_word <$> ws) " ") = Ok ws.
Proof. apply shell_go_words. Qed.

(** A backslash at the end of the line is dropped. *)
Lemma shellSplit_drops_backslash : shellSplit "a\" = Ok ["a"].
Proof. reflexivity. Qed.

(** ** Replacing a sidecar *)

(** What a command relies on: the lock of a server is one file at the root of the storage, or none of its
    files, and opening a backend writes nothing. *)
Definition lock_key (q : string) : Prop := HasPrefix q ".pgsafe-server-" = true /\ no_byte "/" q = true.

Class ShellLaws (W : Type) `{BackendLaws W, Shell W} := {
  lock_outside st server mode timeout : no_byte "/" server = true ->
    preserves (same_outside lock_key) (lock_Acquire (serverLockPath st server) mode timeout);
  unlock_outside st server : no_byte "/" server = true ->
    preserves (same_outside lock_key) (lock_Release (serverLockPath st server));
  open_view st : preserves same_view (openBackend st);
  cleanup_view : preserves same_view cleanup_backend;
}.

Section replace.
Context {W : Type} `{BackendLaws W}.

(** How far a replacement got: the old file is there, or the new one, or the new one is still beside it. *)
Definition replaced (key body : string) (v v' : gmap string string) : Prop :=
  v' !! key = v !! key \/ v' !! key = Some body \/ (v' !! key = None /\ v' !! (key +:+ ".tmp") = Some body).

Lemma tmp_ne key : key +:+ ".tmp" <> key.
Proof. intros E. apply (f_equal slen) in E. rewrite slen_app in E. cbn in E. lia. Qed.

Lemma atomicReplaceSidecar_spec key body w r w' : valid_key key = true -> valid_key (key +:+ ".tmp") = true -> copyable key = true ->
  atomicReplaceSidecar key body w = (r, w') ->
  same_outside (fun q => q = key \/ q = key +:+ ".tmp") w w' /\ replaced key body (view w) (view w') /\
  (r = Ok tt -> view w' !! key = Some body).
Proof.
  intros Hk Ht Hcp. unfold atomicReplaceSidecar. pose proof (tmp_ne key) as Hne. set (tmp := key +:+ ".tmp") in *. unfold replaced. fold tmp.
  assert (Hin : forall v v' : gmap string string, v' = v -> v' !! key = v !! key) by by intros ? ? ->.
  unfold bind at 1, wrapping at 1. destruct (put_spec tmp w Ht) as [Hv1 Hp]. destruct (be_Put tmp w) as [[h|e] w1]; cbn [snd map_error] in *;
    [|intros [= <- <-]; split_and!; [intros q _; by rewrite Hv1|left; by apply Hin|done]]. specialize (Hp h w1 eq_refl).
  unfold bind at 1, try at 1. destruct (write_spec h body w1 tmp "" Hp) as [Hv2 (c & Hp2 & Hok)]. destruct (be_Write h body w1) as [r2 w2]; cbn [snd] in *.
  destruct (close_spec h w2 tmp c Hp2) as [Hc Hcok]. assert (Hout : forall q, q <> tmp -> view (snd (be_Close h w2)) !! q = view w !! q) by (intros q Hq; by rewrite Hc, Hv2, Hv1).
  destruct r2 as [[]|e].
  2:{ unfold bind, try, throw. destruct (be_Close h w2) as [r3 w3]; cbn [snd] in *. intros [= <- <-].
      split_and!; [intros q Hq; apply Hout; naive_solver|left; by apply Hout, not_eq_sym|done]. }
  rewrite (Hok w2 eq_refl) in Hcok. unfold bind at 1, wrapping at 1. destruct (be_Close h w2) as [[[]|e] w3]; cbn [snd map_error] in *;
    [|intros [= <- <-]; split_and!; [intros q Hq; apply Hout; naive_solver|left; by apply Hout, not_eq_sym|done]].
  specialize (Hcok w3 eq_refl). cbn in Hcok. unfold bind at 1, wrapping at 1. destruct (delete_spec key w3 Hk) as (Hd & Hdok & Hdfail & _).
  destruct (be_Delete key w3) as [[[]|e] w4]; cbn [snd map_error] in *.
  2:{ intros [= <- <-]. destruct (Hdfail e w4 eq_refl) as [Hf|Hf].
      - split_and!; [intros q Hq; rewrite Hf; apply Hout; naive_solver|left; rewrite Hf; by apply Hout, not_eq_sym|done].
      - split_and!; [intros q Hq; rewrite Hf, lookup_delete_ne by naive_solver; apply Hout; naive_solver| |done].
        right; right. by rewrite Hf, lookup_delete_eq, lookup_delete_ne, Hcok, lookup_insert_eq by done. }
  specialize (Hdok w4 eq_refl). assert (H4 : view w4 !! tmp = Some body) by (rewrite Hdok, lookup_delete_ne, Hcok, lookup_insert_eq by done; done).
  destruct (commit_spec tmp key w4 Ht Hk ltac:(unfold tmp; by rewrite copyable_app, Hcp) Hne (ex_intro _ body H4)) as (Hcf & HcOk & HcFail & _). unfold wrapping. destruct (be_Commit tmp key w4) as [r5 w5]; cbn [snd] in Hcf.
  intros [= <- <-]. split; [intros q Hq; rewrite Hcf, Hdok, lookup_delete_ne by naive_solver; apply Hout; naive_solver|]. destruct r5 as [[]|e]; cbn [map_error].
  - destruct (HcOk w5 eq_refl) as (_ & c' & Hc' & Hv5). rewrite Hv5, lookup_insert_eq. split; [|congruence]. right. left. congruence.
  - split; [|done]. destruct (HcFail e w5 eq_refl) as [[Hsame Hsame2]|[_ Hmoved]]; right; [right|left; congruence].
    split; [rewrite Hsame, Hdok; apply lookup_delete_eq|congruence].
Qed.
End replace.

(** ** Configurations *)

Section configs.
Context {Key : Type} (parse : string -> result Key) (yaml_Decode : string -> result Config).

(** A command only starts with a configuration that is well formed. *)
Lemma resolveConfig_valid file fl cfg : resolveConfig parse yaml_Decode file fl = inl cfg -> config_valid parse cfg.
Proof.
  assert (Hv : forall c (o : Config + outcome), o = inl cfg ->
    o = match Config.Validate parse c with Fail _ => inr errCfg | Ok _ => inl c end -> config_valid parse cfg).
  { intros c o -> Hc. destruct (Config.Validate parse c) as [[]|e] eqn:E; [|done]. injection Hc as ->. by apply Validate_iff. }
  unfold resolveConfig, resolveConfigFromFlags. destruct file as [[text|e]|]; [destruct (Load yaml_Decode text) as [c|e]|..]; try done.
  - intros Hr. by apply (Hv (overlay fl c) _ Hr).
  - destruct (negb _); [done|]. destruct (_ || _); [done|]. intros Hr. by eapply (Hv _ _ Hr).
Qed.

(** Without [--pg-version], which its help says to leave at 0, there is no configuration from flags. *)
Lemma pg_version_zero_refused fl : fl_pg_version fl = 0 -> resolveConfig parse yaml_Decode None fl = inr errCfg.
Proof.
  intros Hz. destruct (resolveConfig parse yaml_Decode None fl) as [cfg|o] eqn:E.
  - exfalso. pose proof E as E'. apply resolveConfig_valid in E. destruct E. unfold resolveConfig, resolveConfigFromFlags in E'.
    destruct (negb _); [done|]. destruct (_ || _); [done|]. destruct (Config.Validate parse _); [|done]. injection E' as <-.
    cbn [applyDefaults c_PG pg_Version] in *. lia.
  - unfold resolveConfig, resolveConfigFromFlags in E. destruct (negb _); [by injection E as <-|]. destruct (_ || _); [by injection E as <-|].
    destruct (Config.Validate parse _); [done|by injection E as <-].
Qed.
End configs.

(** A name of several components moves the lock out of the storage. *)
Lemma lock_path_escapes st : st_Type st = "posix" -> st_Path st = "/srv/pgsafe" -> serverLockPath st "/../../x" = "/srv/x.lock".
Proof. unfold serverLockPath. intros -> ->. reflexivity. Qed.

(** ** Under the lock of the server *)

Section session.
Context {W : Type} `{BackendLaws W, !Host W, !Shell W, !ShellLaws W}.

(** The command comes back with an exit status, whatever fails. *)
Definition ends (m : M W outcome) : Prop := forall w, exists o w', m w = (Ok o, w').

Lemma or_exit_run {A} code (m : M W A) k w : (forall a, ends (k a)) ->
  exists o w', or_exit code m k w = (Ok o, w') /\
    ((exists e, m w = (Fail e, w') /\ o = ExitError (code e)) \/ exists a w1, m w = (Ok a, w1) /\ k a w1 = (Ok o, w')).
Proof.
  intros Hk. unfold or_exit, bind, try. destruct (m w) as [[a|e] w1] eqn:E.
  - destruct (Hk a w1) as (o & w' & Hr). exists o, w'. split; [done|]. right. by exists a, w1.
  - exists (ExitError (code e)), w1. split; [done|]. left. by exists e.
Qed.

Lemma or_exit_ends {A} code (m : M W A) k : (forall a, ends (k a)) -> ends (or_exit code m k).
Proof. intros Hk w. destruct (or_exit_run code m k w Hk) as (o & w' & Hr & _). by exists o, w'. Qed.

Lemma ret_ends o : ends (ret o).
Proof. intros w. by exists o, w. Qed.

Lemma with_backend_run st k w : ends k -> exists o w', with_backend st k w = (Ok o, w') /\
  ((o = ExitError 4 /\ same_view w w') \/
   exists w1 w2, same_view w w1 /\ k w1 = (Ok o, w2) /\ same_view w2 w').
Proof.
  intros Hk. unfold with_backend, or_exit, bind, try, ret. pose proof (open_view st w) as Ho.
  destruct (openBackend st w) as [[[]|e] w1]; cbn [snd] in Ho; [|exists (ExitError 4), w1; by split; [|left]].
  destruct (Hk w1) as (o & w2 & Hr). rewrite Hr. pose proof (cleanup_view w2) as Hc.
  destruct (cleanup_backend w2) as [rc w3]; cbn [snd] in Hc. exists o, w3. split; [done|]. right. by exists w1, w2.
Qed.

Lemma session_run cfg st mode t k w : no_byte "/" (c_Server cfg) = true -> ends k ->
  exists o w', with_server_lock cfg st mode t (with_backend st k) w = (Ok o, w') /\
  ((o <> Done /\ same_outside lock_key w w') \/
   exists w1 w2, same_outside lock_key w w1 /\ k w1 = (Ok o, w2) /\ same_outside lock_key w2 w').
Proof.
  intros Hs Hk. unfold with_server_lock, or_exit, bind, try, ret. pose proof (lock_outside st (c_Server cfg) mode t Hs w) as Hl.
  destruct (lock_Acquire (serverLockPath st (c_Server cfg)) mode t w) as [[[]|e] w1]; cbn [snd] in Hl; [|exists (ExitError (lock_exit e)), w1; by split; [|left]].
  destruct (with_backend_run st k w1 Hk) as (o & w2 & Hr & Hcases). rewrite Hr. pose proof (unlock_outside st (c_Server cfg) Hs w2) as Hu.
  destruct (lock_Release (serverLockPath st (c_Server cfg)) w2) as [ru w3]; cbn [snd] in Hu. exists o, w3. split; [done|].
  destruct Hcases as [[-> Hv]|(wa & wb & Hva & Hka & Hvb)]; [left|right].
  - split; [done|]. etrans; [exact Hl|]. etrans; [by apply same_view_outside|exact Hu].
  - exists wa, wb. split_and!; [etrans; [exact Hl|by apply same_view_outside]|done|etrans; [by apply same_view_outside|exact Hu]].
Qed.

Lemma readSidecar_inv key w sc w' : valid_key key = true -> Cli.readSidecar key w = (Ok sc, w') ->
  view w' = view w /\ exists text, view w !! key = Some text /\ UnmarshalSidecar text = Ok sc.
Proof.
  intros Hk Hr. apply bind_inv_Ok in Hr as (text & w1 & Hg & Hu). destruct (get_spec key w Hk) as (Hv & Hok & _). rewrite Hg in Hv, Hok.
  unfold of_result in Hu. injection Hu as Hu <-. split; [done|]. exists text. split; [by apply (Hok text w1)|done].
Qed.

Lemma readSidecar_view key : valid_key key = true -> preserves same_view (Cli.readSidecar key).
Proof. intros Hk. apply preserves_bind; [tc_solve|by apply get_view|intros b; apply preserves_of_result; tc_solve]. Qed.

(** ** Annotating *)

(** What [annotate] does once it has the lock. *)
Lemma annotated id note w : valid_key id = true -> copyable id = true -> let k := path_Join [id; "Storage-Metadata.json"] in
  exists o w', annotateSidecar id note w = (Ok o, w') /\
  same_outside (fun q => q = k \/ q = k +:+ ".tmp") w w' /\
  ((o <> Done /\ view w' !! k = view w !! k) \/
   exists sc text, sidecar_at (view w) id sc /\ MarshalSidecar (set_annotation note sc) = Ok text /\
     replaced k text (view w) (view w') /\ (o = Done -> view w' !! k = Some text)).
Proof.
  intros Hid Hcp key. destruct (valid_key_join id "Storage-Metadata.json" Hid eq_refl) as [Hj Hk]. fold key in Hj, Hk.
  assert (Hck : copyable key = true) by by rewrite Hj, copyable_app, Hcp.
  destruct (valid_key_join id "Storage-Metadata.json.tmp" Hid eq_refl) as [Hjt Ht]. rewrite Hjt in Ht.
  replace (id +:+ "/" +:+ "Storage-Metadata.json.tmp") with (key +:+ ".tmp") in Ht by by rewrite Hj, !sapp_assoc.
  unfold annotateSidecar. fold key. pose proof (readSidecar_view key Hk w) as Hv.
  unfold or_exit at 1, bind at 1, try at 1. destruct (Cli.readSidecar key w) as [[sc|e] w1] eqn:E1; cbn [snd] in Hv; unfold same_view in Hv.
  2:{ exists (ExitError 4), w1. split_and!; [done|intros q _; by rewrite Hv|left; by rewrite Hv]. }
  apply readSidecar_inv in E1 as (_ & old & Hold & Hu); [|done].
  unfold or_exit at 1, bind at 1, try at 1, of_result. destruct (MarshalSidecar (set_annotation note sc)) as [text|e] eqn:Em.
  2:{ exists (ExitError 1), w1. split_and!; [done|intros q _; by rewrite Hv|left; by rewrite Hv]. }
  unfold or_exit, bind, try. destruct (atomicReplaceSidecar key text w1) as [r w2] eqn:E2.
  destruct (atomicReplaceSidecar_spec key text w1 r w2 Hk Ht Hck E2) as (Hout & Hrep & Hok).
  assert (Hsc : sidecar_at (view w) id sc) by by exists old. rewrite <- Hv in Hsc |- *.
  assert (Hout' : same_outside (fun q => q = key \/ q = key +:+ ".tmp") w w2) by (etrans; [by apply same_view_outside|exact Hout]).
  destruct r as [[]|e]; [exists Done, w2|exists (ExitError 4), w2]; (split_and!; [done|done|right; exists sc, text; split_and!; try done]).
  intros _. by apply Hok.
Qed.
End session.

(** An annotation always ends in an exit status and touches no file but the sidecar, its temporary copy
    and the lock; whatever fails, the backup keeps its old sidecar or has the new one, or the new
    one is complete in the temporary copy; and after a success the backup has the sidecar it had
    with the note in it. *)
Theorem runAnnotate_safe {W : Type} `{BackendLaws W, !Host W, !Shell W, !ShellLaws W} cfg st id note t w :
  no_byte "/" (c_Server cfg) = true -> valid_key id = true -> copyable id = true ->
  let key := path_Join [id; "Storage-Metadata.json"] in
  exists o w', runAnnotate cfg st id note t w = (Ok o, w') /\
  (forall q, q <> key -> q <> key +:+ ".tmp" -> ~ lock_key q -> view w' !! q = view w !! q) /\
  ((o <> Done /\ view w' !! key = view w !! key) \/
   exists sc text, sidecar_at (view w) id sc /\ replaced key text (view w) (view w') /\
     (o = Done -> view w' !! key = Some text) /\
     (sidecar_ok (set_annotation note sc) -> UnmarshalSidecar text = Ok (set_annotation note sc))).
Proof.
  intros Hs Hid Hcp key. destruct (valid_key_join id "Storage-Metadata.json" Hid eq_refl) as [Hj _]. fold key in Hj.
  assert (Hdir : forall q, q = key \/ q = key +:+ ".tmp" -> ~ lock_key q).
  { intros q Hq [_ Hn]. assert (Hf : no_byte "/" key = false) by (rewrite Hj, no_byte_app; cbn; apply andb_false_r).
    destruct Hq as [->| ->]; [congruence|]. by rewrite no_byte_app, Hf in Hn. }
  destruct (session_run cfg st Exclusive t (annotateSidecar id note) w Hs ltac:(intros w0; destruct (annotated id note w0 Hid Hcp) as (o & w' & Hr & _); by exists o, w'))
    as (o & w' & Hrun & Hcases). exists o, w'. split; [exact Hrun|]. clear Hrun.
  destruct Hcases as [[Ho Hout]|(w1 & w2 & Hl & Hr & Hu)]; [split; [intros q _ _; apply Hout|left; split; [done|apply Hout; auto]]|].
  destruct (annotated id note w1 Hid Hcp) as (o' & w2' & Hr' & Hout & Hsc). fold key in Hout, Hsc. rewrite Hr' in Hr. injection Hr as -> ->.
  assert (Hi : view w1 !! key = view w !! key) by (apply Hl; auto).
  assert (Hf1 : view w' !! key = view w2 !! key) by (apply Hu; auto). assert (Hf2 : view w' !! (key +:+ ".tmp") = view w2 !! (key +:+ ".tmp")) by (apply Hu; auto).
  split; [intros q H1 H2 H3; rewrite Hu, Hout, Hl by naive_solver; done|]. destruct Hsc as [[Ho Hsame]|(sc & text & Hat & [= <-] & Hrep & Hok)]; [left; split; [done|congruence]|right].
  exists sc, (MarshalIndent 0 (sidecar_json (set_annotation note sc))). split_and!; [|by unfold replaced; rewrite Hf1, Hf2, <- Hi|by rewrite Hf1|apply sidecar_text_parses].
  destruct Hat as (old & Hold & Hun). exists old. split; [exact (eq_trans (eq_sym Hi) Hold)|done].
Qed.

(** ** Deleting a server *)

Section delete_server.
Context {W : Type} `{BackendLaws W}.

#[local] Instance shrinks_order : PreOrder (shrinks (W:=W)).
Proof. apply shrinks_preorder. Qed.

Definition delete_one (d : Z) (fi : FileInfo) : M W Z := wrapping "server delete: delete" (be_Delete (fi_Path fi)) ;;; ret (d + 1).

Lemma delete_one_outside (K : string -> Prop) d fi : valid_key (fi_Path fi) = true -> K (fi_Path fi) -> preserves (same_outside K) (delete_one d fi).
Proof.
  intros Hk HK. apply preserves_bind; [tc_solve| |intros _; apply preserves_ret; tc_solve]. apply preserves_wrapping.
  intros w. eapply same_outside_mono, delete_outside, Hk. by intros q ->.
Qed.

Lemma delete_backup_outside (K : string -> Prop) d id :
  (forall q, listed_in id q -> K q) -> preserves (same_outside K) (delete_backup d id).
Proof.
  intros HK w. unfold delete_backup, bind, wrapping at 1. destruct (list_spec id w) as [Hv Hl].
  destruct (be_List id w) as [[l|e] w1]; cbn [snd map_error] in *; (etrans; [apply same_view_outside; exact Hv|]); [|done].
  destruct (Hl l w1 eq_refl) as [_ Hin]. apply (preserves_forM _ l d delete_one).
  intros n fi Hfi. destruct (Hin fi Hfi) as (Hk & _ & _ & Hi & _). by apply delete_one_outside; [|apply HK].
Qed.

Lemma delete_files_gone l d w n w' : (forall fi, fi ∈ l -> valid_key (fi_Path fi) = true) ->
  forM l d delete_one w = (Ok n, w') -> shrinks w w' /\ forall fi, fi ∈ l -> view w' !! fi_Path fi = None.
Proof.
  revert d w. induction l as [|fi l IH]; intros d w Hl; cbn [forM].
  - intros [= <- <-]. split; [done|]. intros fi []%elem_of_nil.
  - intros Hrun. apply bind_inv_Ok in Hrun as (d' & w1 & Hone & Hrun). apply bind_inv_Ok in Hone as ([] & w2 & Hd%wrapping_inv_Ok & [= <- <-]).
    assert (Hk : valid_key (fi_Path fi) = true) by (apply Hl; by left). pose proof (delete_shrinks _ Hk w) as Hs. rewrite Hd in Hs. cbn [snd] in Hs.
    apply IH in Hrun as [Hs2 Hgone]; [|intros; apply Hl; by right]. split; [by etrans|]. intros fi' [->|Hin]%elem_of_cons; [|by apply Hgone].
    apply (shrinks_absent w2); [done|]. destruct (delete_spec (fi_Path fi) w Hk) as (_ & Hok & _). rewrite (Hok w2 Hd). apply lookup_delete_eq.
Qed.

Lemma delete_backups_gone ids d w n w' : forM ids d delete_backup w = (Ok n, w') ->
  shrinks w w' /\ forall id q, id ∈ ids -> valid_key q = true -> under id q = true -> view w' !! q = None.
Proof.
  revert d w. induction ids as [|id ids IH]; intros d w; cbn [forM]; [intros [= <- <-]; split; [done|]; intros id q []%elem_of_nil|].
  intros Hrun. apply bind_inv_Ok in Hrun as (d' & w2 & Hone & Hrun). apply bind_inv_Ok in Hone as (l & w1 & Hl%wrapping_inv_Ok & Hone).
  destruct (list_spec id w) as [Hv Hok]. rewrite Hl in Hv. destruct (Hok l w1 Hl) as [_ Hin]. cbn [snd] in Hv.
  apply delete_files_gone in Hone as [Hs1 Hgone]; [|intros fi Hfi; by apply Hin]. apply IH in Hrun as [Hs2 Hgone2].
  assert (Hs0 : shrinks w w1) by by apply same_view_shrinks. split; [etrans; [exact Hs0|by etrans]|].
  intros id' q [->|Hid]%elem_of_cons Hq Hu; [|by apply (Hgone2 id')]. apply (shrinks_absent w2); [done|]. destruct (view w !! q) eqn:E.
  - assert (Hlist : q ∈ (fi_Path <$> l)) by (eapply list_complete; [exact Hl|by rewrite E|done..]).
    apply list_elem_of_fmap in Hlist as (fi & -> & Hfi). by apply Hgone.
  - apply (shrinks_absent w1); [done|]. by apply (shrinks_absent w).
Qed.

Lemma delete_backups_outside (K : string -> Prop) d ids :
  (forall id q, id ∈ ids -> listed_in id q -> K q) -> preserves (same_outside K) (forM ids d delete_backup).
Proof. intros HK. apply preserves_forM; [tc_solve|]. intros n id Hid. apply delete_backup_outside. intros q. by apply HK. Qed.

End delete_server.

Section delete_spec.
Context {W : Type} `{BackendLaws W}.

(** What a deletion may touch: the root sidecar and, with [--force], the backups whose sidecar names the server. *)
Definition doomed (server : string) (force : bool) (v : gmap string string) (q : string) : Prop :=
  q = sidecarFilename \/
  (force = true /\ exists id sc, valid_key id = true /\ sidecar_at v id sc /\ sc_Server sc = server /\ inside id q = true).

(** What is left of a backup after a deletion that reports success. *)
Definition accounted (server : string) (force : bool) (v v' : gmap string string) (ws : list Warning) (id : string) : Prop :=
  id ∈ (wn_BackupID <$> ws) \/ (exists sc, sidecar_at v id sc /\ sc_Server sc <> server) \/
  (force = true /\ forall q, valid_key q = true -> ~ lock_key q -> under id q = true -> v' !! q = None).

Lemma delete_sidecar_run w : exists o w',
  (r <- try (be_Delete sidecarFilename) ;;
   match r with Ok _ => ret Done | Fail err => if errors_Is err OsErrNotExist then ret Done else ret (ExitError 4) end) w = (Ok o, w') /\
  same_outside (fun q => q = sidecarFilename) w w' /\ shrinks w w' /\ (o = Done -> view w' !! sidecarFilename = None).
Proof.
  unfold bind, try, ret. assert (Hk : valid_key sidecarFilename = true) by reflexivity.
  destruct (delete_spec _ w Hk) as (Hout & Hok & Hfail & Habs). pose proof (delete_shrinks _ Hk w) as Hs.
  destruct (be_Delete sidecarFilename w) as [[[]|e] w1]; cbn [snd] in *.
  - exists Done, w1. split_and!; [done|done|done|]. intros _. rewrite (Hok w1 eq_refl). apply lookup_delete_eq.
  - specialize (Hfail e w1 eq_refl). specialize (Habs e w1 eq_refl).
    destruct (errors_Is e OsErrNotExist); eexists _, w1; split_and!; try done; intros _; destruct Hfail as [->| ->]; rewrite ?lookup_delete_eq; [by apply Habs|done].
Qed.

Lemma ours_doomed server w recs id : Forall (record_of (view w)) recs ->
  id ∈ (r_BackupID <$> base.filter (fun r => String.eqb (r_Server r) server) recs) ->
  exists sc, valid_key id = true /\ sidecar_at (view w) id sc /\ sc_Server sc = server.
Proof.
  intros Hr Hid. apply list_elem_of_fmap in Hid as (r & -> & Hin). apply elem_of_bfilter in Hin as [Hin Hs%String.eqb_eq].
  rewrite Forall_forall in Hr. destruct (Hr r Hin) as (Hk & sc & Hsc & E & _). exists sc. by rewrite <- E.
Qed.

Lemma deleteServer_spec server force w : exists o w', deleteServer server force w = (Ok o, w') /\
  same_outside (doomed server force (view w)) w w' /\
  (o = Done -> view w' !! sidecarFilename = None /\ exists recs ws wl, Info.List w = (Ok (recs, ws), wl) /\
     forall id, backup_at (view w) id -> accounted server force (view w) (view w') ws id).
Proof.
  unfold deleteServer. unfold or_exit at 1, bind at 1, try at 1. destruct (Info.List w) as [[[recs ws]|e] w1] eqn:El;
    destruct (List_spec _ _ _ El) as [Hv Hl]; [|exists (ExitError 4), w1; split_and!; [done|by intros q _; rewrite Hv|done]].
  destruct (Hl recs ws eq_refl) as [Hrec Hall]. set (ours := r_BackupID <$> _).
  assert (Hours : forall id, id ∈ ours -> exists sc, valid_key id = true /\ sidecar_at (view w) id sc /\ sc_Server sc = server)
    by (intros id; by apply (ours_doomed server w recs)).
  destruct (_ && negb force) eqn:Ef; [eexists _, w1; split_and!; [done|by intros q _; rewrite Hv|done]|].
  assert (Hforce : forall id, id ∈ ours -> force = true).
  { intros id Hid. destruct force; [done|]. rewrite andb_true_r in Ef. by destruct ours; [apply elem_of_nil in Hid|]. }
  assert (Hout : same_outside (doomed server force (view w)) w1 (snd (forM ours 0 delete_backup w1))).
  { apply delete_backups_outside. intros id q Hid Hi. right. split; [by apply (Hforce id)|]. destruct (Hours id Hid) as (sc & Hk & ? & ?). exists id, sc. split_and!; [done..|]. by apply Hi, valid_key_plain. }
  unfold or_exit at 1, bind at 1, try at 1. destruct (forM ours 0 delete_backup w1) as [[n|e] w2] eqn:Ed; cbn [snd] in Hout;
    assert (Hout2 : same_outside (doomed server force (view w)) w w2) by (etrans; [by apply same_view_outside|exact Hout]);
    [|exists (ExitError 4), w2; by split_and!].
  apply delete_backups_gone in Ed as [Hs2 Hgone]. destruct (delete_sidecar_run w2) as (o & w3 & Hr & Hout3 & Hs3 & Hok).
  exists o, w3. split_and!; [exact Hr|etrans; [exact Hout2|]; eapply same_outside_mono, Hout3; by left|].
  intros Ho. split; [by apply Hok|]. exists recs, ws, w1. split; [done|]. intros id Hb.
  assert (Hk : valid_key id = true) by (destruct Hb as (p & _ & Hp & _ & Hd); by eapply backup_dir_key). destruct (Hall id Hb) as [Hin|Hw]; [|by left].
  right. apply list_elem_of_fmap in Hin as (r & -> & Hin). pose proof Hrec as Hrec'. rewrite Forall_forall in Hrec'. destruct (Hrec' r Hin) as (_ & sc & Hsc & Es & _).
  destruct (String.eqb_spec (r_Server r) server) as [E|E]; [right|left; exists sc; by rewrite <- Es].
  assert (Ho2 : r_BackupID r ∈ ours) by (apply list_elem_of_fmap; exists r; split; [done|]; apply elem_of_bfilter; by rewrite E, String.eqb_refl).
  split; [by apply (Hforce (r_BackupID r))|]. intros q Hq _ Hi. apply (shrinks_absent w2); [done|]. apply (Hgone (r_BackupID r)); done.
Qed.
End delete_spec.

(** ** The lock file does not matter *)

Lemma joined_not_lock id name : valid_key id = true -> valid_key name = true -> ~ lock_key (path_Join [id; name]).
Proof.
  intros Hid Hn [_ Hs]. destruct (valid_key_join id name Hid Hn) as [E _]. rewrite E, no_byte_app in Hs. cbn in Hs.
  by rewrite andb_false_r in Hs.
Qed.

Lemma sidecar_at_away (v v' : gmap string string) id sc : (forall q, ~ lock_key q -> v' !! q = v !! q) -> valid_key id = true ->
  sidecar_at v' id sc <-> sidecar_at v id sc.
Proof. intros Ha Hid. unfold sidecar_at. by rewrite Ha by by apply joined_not_lock. Qed.

Lemma backup_at_away (v v' : gmap string string) id : (forall q, ~ lock_key q -> v' !! q = v !! q) -> backup_at v id -> backup_at v' id.
Proof.
  intros Ha (p & Hp & Hk & Hu & Hd). exists p. split_and!; try done. rewrite Ha; [done|]. intros [_ Hs].
  unfold backup_dir in Hd. destruct (Cut p "/") as [[a b]|] eqn:E; [|done]. apply Cut_Some in E as [-> _].
  rewrite no_byte_app in Hs. cbn in Hs. by rewrite andb_false_r in Hs.
Qed.

Section delete_command.
Context {W : Type} `{BackendLaws W, !Host W, !Shell W, !ShellLaws W}.

Lemma doomed_away server force (w w1 : W) q : same_outside lock_key w w1 -> doomed server force (view w1) q -> doomed server force (view w) q.
Proof.
  intros Ha [->|(Hf & id & sc & Hid & Hsc & Hs & Hi)]; [by left|right]. split; [done|]. exists id, sc. split_and!; try done.
  by apply (sidecar_at_away _ (view w1)).
Qed.

Lemma accounted_away server force (w w1 : W) v v' ws id : same_outside lock_key w w1 -> (forall q, ~ lock_key q -> v' !! q = v !! q) ->
  valid_key id = true -> accounted server force (view w1) v ws id -> accounted server force (view w) v' ws id.
Proof.
  intros Ha Hv Hid [Hw|[(sc & Hsc & Hs)|[Hf Hgone]]]; [by left|right; left|right; right].
  - exists sc. split; [|done]. by apply (sidecar_at_away _ (view w1)).
  - split; [done|]. intros q Hq Hl Hi. rewrite Hv by done. by apply Hgone.
Qed.

(** C35: deleting a server always ends in an exit status and touches, besides the root sidecar, only backups whose sidecar names that server,
    and those only with [--force]. When it reports success the root sidecar is gone, and every backup of the storage whose sidecar the
    listing of the command could read was deleted with all its files, or has the sidecar of another server. A backup whose sidecar it could not
    read is only known by a warning, which the command drops: it may be the server's and is left behind ([server_delete_not_resumed] is
    such a backup, which an interrupted deletion makes and the next one does not take up, whatever the comment in the source says). *)
Theorem runServerDelete_safe cfg st force t w : no_byte "/" (c_Server cfg) = true ->
  exists o w', runServerDelete cfg st force t w = (Ok o, w') /\
  (forall q, ~ lock_key q -> ~ doomed (c_Server cfg) force (view w) q -> view w' !! q = view w !! q) /\
  (o = Done -> view w' !! sidecarFilename = None /\ exists recs ws w1 w2, same_outside lock_key w w1 /\
     Info.List w1 = (Ok (recs, ws), w2) /\
     forall id, backup_at (view w) id -> accounted (c_Server cfg) force (view w) (view w') ws id).
Proof.
  intros Hs. destruct (session_run cfg st Exclusive t (deleteServer (c_Server cfg) force) w Hs
    ltac:(intros w0; destruct (deleteServer_spec (c_Server cfg) force w0) as (o & w' & Hr & _); by exists o, w')) as (o & w' & Hrun & Hcases).
  exists o, w'. split; [exact Hrun|]. clear Hrun. destruct Hcases as [[Ho Hout]|(w1 & w2 & Hl & Hr & Hu)]; [split; [intros q Hq _; by apply Hout|done]|].
  destruct (deleteServer_spec (c_Server cfg) force w1) as (o' & w2' & Hr' & Hout & Hok). rewrite Hr' in Hr. injection Hr as -> ->. split.
  - intros q Hq Hd. rewrite Hu, Hout, Hl; [done|done| |done]. contradict Hd. by eapply doomed_away.
  - intros Ho. destruct (Hok Ho) as (Hroot & recs & ws & wl & Hlist & Hall). split; [rewrite Hu; [done|by intros [[=] _]]|].
    exists recs, ws, w1, wl. split_and!; [done|done|]. intros id Hb.
    assert (Hk : valid_key id = true) by (destruct Hb as (p & _ & Hp & _ & Hd); by eapply backup_dir_key).
    eapply accounted_away; [exact Hl|exact Hu|done|]. apply Hall. by apply (backup_at_away (view w)).
Qed.
End delete_command.

(** ** Pruning *)

Section prune_command.
Context {W : Type} `{BackendLaws W, !Host W, !Shell W, !ShellLaws W}.
Context (range : forall (n : nat) (A : Type), gmap string A -> list (string * A)) (wall : W -> time).

Lemma pruneServer_spec policy dryRun w : exists o w', pruneServer range wall policy dryRun w = (Ok o, w') /\
  (same_view w w' \/ (dryRun = false /\ exists recs ws w1 plan, Info.List w = (Ok (recs, ws), w1) /\
     Evaluate range (wall w1) recs policy = Ok plan /\ same_outside (prunable plan) w w')).
Proof.
  unfold pruneServer, or_exit, bind, try, read, ret. destruct (Info.List w) as [[[recs ws]|e] w1] eqn:El;
    destruct (List_spec _ _ _ El) as [Hv _]; [|exists (ExitError 4), w1; split; [done|by left]].
  destruct (Evaluate range (wall w1) recs policy) as [plan|e] eqn:Ee; [|eexists _, w1; split; [done|by left]].
  pose proof (Prune_outside plan dryRun w1) as Hout. assert (Hdry : dryRun = true -> same_view w1 (snd (Prune plan dryRun w1))) by (intros ->; apply dry_view).
  assert (Hres : same_view w (snd (Prune plan dryRun w1)) \/ (dryRun = false /\ same_outside (prunable plan) w (snd (Prune plan dryRun w1)))).
  { destruct dryRun; [left; unfold same_view in *; rewrite Hdry by done; done|right; split; [done|]]. etrans; [by apply same_view_outside|exact Hout]. }
  destruct (Prune plan dryRun w1) as [[[res [err|]]|e] w2]; cbn [snd] in Hres; eexists _, w2; (split; [done|]);
    (destruct Hres as [Hs|[Hd Hs]]; [by left|right; split; [done|by exists recs, ws, w1, plan]]).
Qed.

(** [prune] always ends in an exit status and only removes what the plan made from the listing calls for. *)
Lemma runPrune_safe cfg st policy dryRun t w : no_byte "/" (c_Server cfg) = true ->
  exists o w', runPrune range wall cfg st policy dryRun t w = (Ok o, w') /\
  (same_outside lock_key w w' \/
   (dryRun = false /\ exists recs ws w1 w2 plan, same_outside lock_key w w1 /\ Info.List w1 = (Ok (recs, ws), w2) /\
      Evaluate range (wall w2) recs policy = Ok plan /\ same_outside (fun q => lock_key q \/ prunable plan q) w w')).
Proof.
  intros Hs. destruct (session_run cfg st Exclusive t (pruneServer range wall policy dryRun) w Hs
    ltac:(intros w0; destruct (pruneServer_spec policy dryRun w0) as (o & w' & Hr & _); by exists o, w')) as (o & w' & Hrun & Hcases).
  exists o, w'. split; [exact Hrun|]. destruct Hcases as [[Ho Hout]|(w1 & w2 & Hl & Hr & Hu)]; [by left|].
  destruct (pruneServer_spec policy dryRun w1) as (o' & w2' & Hr' & Hc). rewrite Hr' in Hr. injection Hr as -> ->.
  destruct Hc as [Hv|(Hd & recs & ws & w3 & plan & Hlist & He & Hout)].
  - left. etrans; [exact Hl|]. etrans; [by apply same_view_outside|exact Hu].
  - right. split; [done|]. exists recs, ws, w1, w3, plan. split_and!; [done..|]. intros q Hq.
    rewrite Hu, Hout, Hl by tauto. done.
Qed.
End prune_command.

(** ** On the concrete world *)

(** The lock file is a file of the host; opening the storage does nothing. *)
#[export] Instance world_shell : Shell world := {
  lock_Acquire path _ _ := os_WriteFile path "";
  lock_Release path := ret tt;
  openBackend _ := ret tt;
  cleanup_backend := ret tt;
}.

#[export] Instance world_shell_laws : ShellLaws world.
Proof. split; intros; try (apply preserves_ret; tc_solve). intros w q _. done. Qed.

Definition cli_storage : StorageConfig := {| st_Type := "posix"; st_Path := "/srv/pgsafe"; st_S3 := None; st_Azure := None; st_GCS := None; st_SFTP := None |}.
Definition cli_config (server : string) : Config :=
  {| c_Server := server; c_PG := {| pg_ConnString := "postgres://"; pg_Version := 17; pg_Host := ""; pg_SSHExtraArgs := ""; pg_StorageReach := "" |};
     c_Storages := [cli_storage]; c_Compression := {| cm_Codec := "zstd"; cm_Level := 3 |}; c_Encryption := {| en_Recipients := [] |};
     c_Log := {| lg_Format := "json"; lg_Level := "info" |};
     c_Backup := {| bc_ArchiveTimeout := 0; bc_ScratchDir := ""; bc_Resume := None; bc_ResumeCheckpointEveryN := 0; bc_ResumeGracePeriod := 0 |} |}.

Definition named_sidecar (server : string) : Sidecar :=
  {| sc_Version := 1; sc_Server := server; sc_EncryptionRecipients := []; sc_Compression := "zstd:3"; sc_StorageLayoutVersion := 1;
     sc_WALSegments := []; sc_SystemIdentifier := 7; sc_Directories := []; sc_Type := "full"; sc_ParentBackupID := "";
     sc_Annotation := ""; sc_LockHeld := false |}.

(** Two servers share the storage. *)
Definition shared_files : gmap string string :=
  {["Storage-Metadata.json" := sidecar_text (named_sidecar "a");
    "20260401T100000F/Storage-Metadata.json" := sidecar_text (named_sidecar "a"); "20260401T100000F/base/1" := "one";
    "20260402T100000F/Storage-Metadata.json" := sidecar_text (named_sidecar "b"); "20260402T100000F/base/1" := "two"]}.
Definition shared_world (script : list bool) : world := start_world shared_files ∅ script [].

Lemma runServerDelete_safe_witness :
  exists w', runServerDelete (cli_config "a") cli_storage true 0 (shared_world []) = (Ok Done, w') /\ view w' !! sidecarFilename = None /\
  exists ws, accounted "a" true (view (shared_world [])) (view w') ws "20260401T100000F".
Proof.
  destruct (runServerDelete_safe (cli_config "a") cli_storage true 0 (shared_world []) eq_refl) as (o & w' & Hrun & _ & Hdone).
  assert (Ho : o = Done).
  { assert (E : fst (runServerDelete (cli_config "a") cli_storage true 0 (shared_world [])) = Ok Done) by (vm_compute; reflexivity).
    rewrite Hrun in E. cbn [fst] in E. by injection E. }
  subst o. exists w'. split; [exact Hrun|]. destruct (Hdone eq_refl) as (Hroot & recs & ws & w1 & w2 & _ & _ & Hall). split; [exact Hroot|].
  exists ws.
  apply Hall. exists "20260401T100000F/base/1". split; [eexists; vm_compute; reflexivity|]. split_and!; reflexivity.
Defined.

(** The sidecar of a backup may go first: a deletion that fails after it is not taken up again, and the
    next one reports success and leaves the other files. *)
Definition interrupted_world : world :=
  snd (runServerDelete (cli_config "a") cli_storage true 0 (shared_world [false; false; false; false; false; false; false; true])).

Lemma server_delete_not_resumed :
  fst (runServerDelete (cli_config "a") cli_storage true 0 interrupted_world) = Ok Done /\
  view (snd (runServerDelete (cli_config "a") cli_storage true 0 interrupted_world)) !! "20260401T100000F/base/1" = Some "one".
Proof. split; vm_compute; reflexivity. Qed.

Lemma runAnnotate_safe_witness :
  exists w' text, runAnnotate (cli_config "a") cli_storage "20260401T100000F" "keep" 0 (shared_world []) = (Ok Done, w') /\
  view w' !! "20260401T100000F/Storage-Metadata.json" = Some text /\ view w' !! "20260401T100000F/base/1" = Some "one".
Proof.
  destruct (runAnnotate_safe (cli_config "a") cli_storage "20260401T100000F" "keep" 0 (shared_world []) eq_refl eq_refl eq_refl) as (o & w' & Hrun & Hout & Hcases).
  assert (Ho : o = Done).
  { assert (E : fst (runAnnotate (cli_config "a") cli_storage "20260401T100000F" "keep" 0 (shared_world [])) = Ok Done) by (vm_compute; reflexivity).
    rewrite Hrun in E. cbn [fst] in E. by injection E. }
  subst o. destruct Hcases as [[[] _]|(sc & text & _ & _ & Hok & _)]; [reflexivity|]. exists w', text. split; [exact Hrun|]. split; [exact (Hok eq_refl)|].
  rewrite Hout; [vm_compute; reflexivity|discriminate..|]. intros [[=] _].
Defined.

(** Between the deletion of the old sidecar and the renaming of the new one the backup has none. *)
Lemma annotate_may_leave_no_sidecar :
  let w' := snd (runAnnotate (cli_config "a") cli_storage "20260401T100000F" "keep" 0 (shared_world [false; false; false; false; false; true])) in
  view w' !! "20260401T100000F/Storage-Metadata.json" = None /\ is_Some (view w' !! "20260401T100000F/Storage-Metadata.json.tmp").
Proof. vm_compute. split; [reflexivity|]. by eexists. Qed.

(** A segment that is not in the archive yet: [archive-get] ends with status 2. *)
Lemma archive_get_exit : 
  match fst (archiveGet cli_storage "000000010000000000000001" "/pgdata/pg_wal/RECOVERYXLOG" (shared_world [])) with
  | Ok o => errExit o
  | Fail _ => 0
  end = 2.
Proof. vm_compute. reflexivity. Qed.
