(* ===== verification/Open.v ===== *)
(** * Opening the storages of a configuration

    [cmd/pgsafe/storage.go] with [s3_client.go], [azure_client.go], [gcs_client.go] and [sftp_client.go]: the
    clients the commands build from the configuration, the drivers on them, and what is closed when one of
    several storages cannot be opened. The clients of the SDKs are parameters. *)

From S2P Require Import Prelude Storage Filter Host Config Creds Mint Worker.

(** ** The options of the clients *)

(** [aws.RequestChecksumCalculation] and [aws.ResponseChecksumValidation] *)
Inductive ChecksumMode := WhenSupported | WhenRequired.

(** [awss3.Options], as far as it is set. *)
Record S3ClientOptions := {
  so_BaseEndpoint : option string; so_UsePathStyle : bool; so_RequestChecksumCalculation : ChecksumMode; so_ResponseChecksumValidation : ChecksumMode;
}.

(** [option.ClientOption] *)
Inductive ClientOption := WithCredentialsFile (path : string) | WithoutAuthentication.

(** [ssh.AuthMethod], [ssh.HostKeyCallback] and [ssh.ClientConfig] *)
Inductive AuthMethod := Password (secret : string) | PublicKeys (pem : string).
Inductive HostKeyCallback := AnyHostKey | FixedHostKey (key : string).
Record ClientConfig := { cc_User : string; cc_Auth : list AuthMethod; cc_HostKeyCallback : HostKeyCallback }.

Class Clients (W : Type) `{Dialing W, Minting W} := {
  awss3_NewFromConfig : AwsConfig -> S3ClientOptions -> S3Client;
  AzureService : Type;
  azblob_NewClientFromConnectionString : string -> result AzureService;
  azblob_NewClientWithSharedKeyCredential : string -> SharedKey -> result AzureService;
  azblob_NewServiceWithNoCredential : string -> result AzureService;
  azblob_NewContainerClient : AzureService -> string -> AzureClient;
  gcsstorage_NewClient : list ClientOption -> M W GCSClient;
  ssh_DialTCP : string -> ClientConfig -> M W SSHConn;
}.

Section open.
Context {W : Type} `{Backend W, Host W, Dialing W, Minting W, !Clients W, WorkerHost W}.

(** [newS3Client] *)
Definition newS3Client (c : S3Config) : M W S3Client :=
  let static := if negb (String.eqb (s3_AccessKeyID c) "") && negb (String.eqb (s3_SecretAccessKey c) "")
                then Some (s3_AccessKeyID c, s3_SecretAccessKey c) else None in
  awsCfg <- wrapping "storage s3: aws config" (aws_LoadDefaultConfig (s3_Region c) static) ;;
  ret (awss3_NewFromConfig awsCfg
    {| so_BaseEndpoint := if negb (String.eqb (s3_Endpoint c) "") then Some (s3_Endpoint c) else None;
       so_UsePathStyle := s3_UsePathStyle c; so_RequestChecksumCalculation := WhenRequired; so_ResponseChecksumValidation := WhenRequired |}).

(** The URL of the account, where the configuration has none. *)
Definition azure_serviceURL (c : AzureConfig) : string :=
  if String.eqb (az_BlobEndpoint c) "" then "https://" +:+ az_AccountName c +:+ ".blob.core.windows.net/" else az_BlobEndpoint c.

(** [newAzureContainerClient] *)
Definition newAzureContainerClient (c : AzureConfig) : result AzureClient :=
  let container svc := azblob_NewContainerClient svc (az_Container c) in
  if negb (String.eqb (az_ConnectionString c) "") then map_result container (azblob_NewClientFromConnectionString (az_ConnectionString c))
  else if negb (String.eqb (az_AccountKey c) "") then
    match azblob_NewSharedKeyCredential (az_AccountName c) (az_AccountKey c) with
    | Fail err => Fail err
    | Ok cred => map_result container (azblob_NewClientWithSharedKeyCredential (azure_serviceURL c) cred)
    end
  else if negb (String.eqb (az_SASToken c) "") then
    map_result container (azblob_NewServiceWithNoCredential (azure_serviceURL c +:+ "?" +:+ az_SASToken c))
  else Fail (errors_New "azure: no credentials supplied").

(** [stripScheme] *)
Definition stripScheme (s : string) : string :=
  let strip p := (slen p <? slen s)%nat && HasPrefix s p in
  if strip "http://" then sdrop 7 s else if strip "https://" then sdrop 8 s else s.

(** [newGCSClientOptions]; the variable of the environment is set on the way. *)
Definition newGCSClientOptions (c : GCSConfig) : M W (list ClientOption) :=
  let file := if negb (String.eqb (gcs_CredentialsFile c) "") then [WithCredentialsFile (gcs_CredentialsFile c)] else [] in
  if negb (String.eqb (gcs_Endpoint c) "") then
    update (os_Setenv "STORAGE_EMULATOR_HOST" (stripScheme (gcs_Endpoint c))) ;;;
    ret (file ++ [WithoutAuthentication])
  else ret file.

(** [newGCSClient] *)
Definition newGCSClient (c : GCSConfig) : M W (GCSClient * M W unit) :=
  clientOpts <- newGCSClientOptions c ;;
  client <- wrapping "storage gcs: client" (gcsstorage_NewClient clientOpts) ;;
  ret (client, try (gcs_CloseClient client) ;;; ret tt).

(** [newSSHClientConfig] *)
Definition newSSHClientConfig (c : SFTPConfig) : M W ClientConfig :=
  let auths := if negb (String.eqb (sftp_Password c) "") then [Password (sftp_Password c)] else [] in
  auths <- (if negb (String.eqb (sftp_PrivateKeyFile c) "") then
              key <- wrapping "storage sftp: read key" (os_ReadFile (sftp_PrivateKeyFile c)) ;;
              of_result (map_error (Errorf_w "storage sftp: parse key") (ssh_ParsePrivateKey key)) ;;;
              ret (auths ++ [PublicKeys key])
            else ret auths) ;;
  if (length auths =? 0)%nat then throw (errors_New "storage sftp: no auth method (set password or private_key_file)")
  else
    hostKeyCb <- (if sftp_InsecureIgnoreHostKey c then ret AnyHostKey
                  else if String.eqb (sftp_HostKey c) "" then throw (errors_New "storage sftp: host_key required (or set insecure_ignore_host_key)")
                  else
                    of_result (map_error (Errorf_w "storage sftp: parse host_key") (ssh_ParseAuthorizedKey (sftp_HostKey c))) ;;;
                    ret (FixedHostKey (sftp_HostKey c))) ;;
    ret {| cc_User := sftp_Username c; cc_Auth := auths; cc_HostKeyCallback := hostKeyCb |}.

(** ** The storages *)

(** [openPosix] *)
Definition openPosix (cfg : StorageConfig) : M W opened := b <- posix_driver (st_Path cfg) ;; ret (b, ret tt).

(** [openS3] *)
Definition openS3 (cfg : StorageConfig) : M W opened :=
  c <- deref_or_panic (st_S3 cfg) ;;
  client <- newS3Client c ;;
  b <- s3_driver client (s3_Bucket c) (s3_Prefix c) ;;
  ret (b, ret tt).

(** [openAzure] *)
Definition openAzure (cfg : StorageConfig) : M W opened :=
  c <- deref_or_panic (st_Azure cfg) ;;
  cc <- of_result (map_error (Errorf_w "storage azure") (newAzureContainerClient c)) ;;
  b <- azure_driver cc (az_Prefix c) ;;
  ret (b, ret tt).

(** [openGCS] *)
Definition openGCS (cfg : StorageConfig) : M W opened :=
  c <- deref_or_panic (st_GCS cfg) ;;
  client <- newGCSClient c ;;
  with_cleanup (snd client) (gcs_driver (fst client) (gcs_Bucket c) (gcs_Prefix c)).

(** [openSFTP] *)
Definition openSFTP (cfg : StorageConfig) : M W opened :=
  c <- deref_or_panic (st_SFTP cfg) ;;
  let port := if sftp_Port c =? 0 then 22 else sftp_Port c in
  sshCfg <- newSSHClientConfig c ;;
  sshConn <- wrapping "storage sftp: dial" (ssh_DialTCP (sftp_Host c +:+ ":" +:+ FormatD port) sshCfg) ;;
  r <- try (wrapping "storage sftp: sftp.NewClient" (sftp_NewClient sshConn)) ;;
  match r with
  | Fail err => try (ssh_CloseConn sshConn) ;;; throw err
  | Ok sftpClient =>
      with_cleanup (try (sftp_CloseClient sftpClient) ;;; try (ssh_CloseConn sshConn) ;;; ret tt) (sftp_driver sftpClient (sftp_BasePath c))
  end.

(** [openBackend] *)
Definition openBackend (cfg : StorageConfig) : M W opened :=
  let ty := st_Type cfg in
  if String.eqb ty "posix" then openPosix cfg
  else if String.eqb ty "s3" then openS3 cfg
  else if String.eqb ty "azure" then openAzure cfg
  else if String.eqb ty "gcs" then openGCS cfg
  else if String.eqb ty "sftp" then openSFTP cfg
  else throw (errors_New ("storage: unknown type " +:+ quoted ty)).

(** The closure [combined]: what was opened last is closed first. *)
Definition combined (cleanups : list (M W unit)) : M W unit := forM (rev cleanups) tt (fun _ cleanup => cleanup).

(** The loop of [openBackends] *)
Fixpoint open_all (cfgs : list StorageConfig) (backends : list rb) (cleanups : list (M W unit)) : M W (list rb * M W unit) :=
  match cfgs with
  | [] => ret (backends, combined cleanups)
  | cfg :: cfgs =>
      r <- try (openBackend cfg) ;;
      match r with
      | Fail err => combined cleanups ;;; throw (Errorf_w ("storage: open " +:+ quoted (st_Type cfg) +:+ " backend") err)
      | Ok (b, cleanup) => open_all cfgs (backends ++ [b]) (cleanups ++ [cleanup])
      end
  end.

(** [openBackends] *)
Definition openBackends (cfgs : list StorageConfig) : M W (list rb * M W unit) := open_all cfgs [] [].
End open.

(** [storageLocation]; [None] where a nil section is followed. *)
Definition storageLocation (c : StorageConfig) : option string :=
  let ty := st_Type c in
  if String.eqb ty "posix" then Some (st_Path c)
  else if String.eqb ty "s3" then (fun s => "s3://" +:+ s3_Bucket s) <$> st_S3 c
  else if String.eqb ty "azure" then (fun a => "azure://" +:+ az_AccountName a +:+ "/" +:+ az_Container a) <$> st_Azure c
  else if String.eqb ty "gcs" then (fun g => "gs://" +:+ gcs_Bucket g) <$> st_GCS c
  else if String.eqb ty "sftp" then (fun s => "sftp://" +:+ sftp_Username s +:+ "@" +:+ sftp_Host s +:+ sftp_BasePath s) <$> st_SFTP c
  else Some ty.

(** ** What an open storage holds *)

(** A connection or a client that has to be closed. *)
Inductive handle {W : Type} `{Dialing W} := HGcs (c : GCSClient) | HSsh (c : SSHConn) | HSftp (c : SFTPClient).

Section handles.
Context {W : Type} `{Host W, Dialing W, Minting W, !Clients W, WorkerHost W}.

(** A call that opens a handle or fails, and one that closes it whatever it returns. *)
Definition acquires {A} (held : W -> list handle) (h : A -> handle) (m : M W A) : Prop :=
  forall w, match m w with (Ok a, w') => held w' = h a :: held w | (Fail _, w') => held w' = held w end.
Definition releases {A} (held : W -> list handle) (hs : list handle) (m : M W A) : Prop :=
  forall w l, held w ≡ₚ hs ++ l -> held (snd (m w)) ≡ₚ l.

(** Clients hold a connection until they are closed, and nothing else does. *)
Class HandleLaws := {
  held : W -> list handle;
  held_gcs_new opts : acquires held HGcs (gcsstorage_NewClient opts);
  held_gcs_close c : releases held [HGcs c] (gcs_CloseClient c);
  held_ssh_dial a cfg : acquires held HSsh (ssh_DialTCP a cfg);
  held_ssh_close c : releases held [HSsh c] (ssh_CloseConn c);
  held_sftp_new c : acquires held HSftp (sftp_NewClient c);
  held_sftp_close c : releases held [HSftp c] (sftp_CloseClient c);
  held_read p w : held (snd (os_ReadFile p w)) = held w;
  held_aws r k w : held (snd (aws_LoadDefaultConfig r k w)) = held w;
  held_setenv k v w : held (os_Setenv k v w) = held w;
  held_s3 c b p w : held (snd (s3_driver c b p w)) = held w;
  held_azure c p w : held (snd (azure_driver c p w)) = held w;
  held_gcs c b p w : held (snd (gcs_driver c b p w)) = held w;
  held_sftp c p w : held (snd (sftp_driver c p w)) = held w;
  held_posix p w : held (snd (posix_driver p w)) = held w;
}.

Context `{!HandleLaws}.

(** A clean-up does not fail. *)
Definition tidies (hs : list handle) (cleanup : M W unit) : Prop :=
  forall w l, held w ≡ₚ hs ++ l -> exists w', cleanup w = (Ok tt, w') /\ held w' ≡ₚ l.

(** What [m] leaves open is what its second component closes. *)
Definition balanced {A} (m : M W (A * M W unit)) : Prop := forall w,
  match m w with
  | (Ok (_, cleanup), w') => exists hs, held w' ≡ₚ hs ++ held w /\ tidies hs cleanup
  | (Fail _, w') => held w' ≡ₚ held w
  end.

Definition keeps {A} (m : M W A) : Prop := forall w, held (snd (m w)) = held w.

#[local] Instance same_held : PreOrder (fun w w' : W => held w' = held w).
Proof. split; [by intros w|]. intros a b c; congruence. Qed.

Lemma keeps_preserves {A} (m : M W A) : keeps m <-> preserves (fun w w' => held w' = held w) m.
Proof. done. Qed.

Lemma balanced_bind {A B} (m : M W A) (k : A -> M W (B * M W unit)) : keeps m -> (forall a, balanced (k a)) -> balanced (bind m k).
Proof.
  intros Hm Hk w. unfold bind. specialize (Hm w). destruct (m w) as [[a|e] w1]; cbn [snd] in Hm; [|by rewrite Hm]. specialize (Hk a w1).
  destruct (k a w1) as [[[b c]|e] w2]; by rewrite <- Hm.
Qed.

Lemma balanced_nothing (m : M W rb) : keeps m -> balanced (b <- m ;; ret (b, ret tt)).
Proof.
  intros Hm w. unfold bind. specialize (Hm w). destruct (m w) as [[b|e] w1]; cbn [snd] in Hm; cbn; [|by rewrite Hm].
  exists []. split; [by rewrite Hm|]. intros w2 l Hl. by exists w2.
Qed.

Lemma tidies_try hs (m : M W unit) : releases held hs m -> tidies hs (try m ;;; ret tt).
Proof. intros Hm w l Hl. specialize (Hm w l Hl). unfold bind, try. destruct (m w) as [r w1]. by exists w1. Qed.

Lemma tidies_seq hs1 hs2 (m1 m2 : M W unit) : releases held hs1 m1 -> tidies hs2 m2 -> tidies (hs1 ++ hs2) (try m1 ;;; m2).
Proof.
  intros Hm1 Hm2 w l Hl. rewrite <- app_assoc in Hl. specialize (Hm1 w _ Hl). unfold bind, try. destruct (m1 w) as [r w1]. by apply Hm2.
Qed.

(** The driver cannot be opened, or its storage owns what was opened for it. *)
Lemma with_cleanup_held hs cleanup (m : M W rb) l w : tidies hs cleanup -> keeps m -> held w ≡ₚ hs ++ l ->
  match with_cleanup cleanup m w with
  | (Ok (_, c), w') => c = cleanup /\ held w' ≡ₚ hs ++ l
  | (Fail _, w') => held w' ≡ₚ l
  end.
Proof.
  intros Hc Hm Hl. unfold with_cleanup, bind, try. specialize (Hm w). destruct (m w) as [[b|e] w1]; cbn [snd] in Hm; cbn; [by rewrite Hm|].
  rewrite <- Hm in Hl. by destruct (Hc w1 l Hl) as (w2 & -> & ?).
Qed.

(** Reads, settings and checks hold nothing. *)
Ltac holding := repeat first
  [ progress intros
  | match goal with |- keeps ?m => apply (keeps_preserves m) end
  | match goal with |- preserves _ _ => first [exact (fun w => held_read _ w)|exact (fun w => held_aws _ _ w)|exact (fun w => held_setenv _ _ w)
      |exact (fun w => held_s3 _ _ _ w)|exact (fun w => held_azure _ _ w)|exact (fun w => held_gcs _ _ _ w)|exact (fun w => held_sftp _ _ w)|exact (fun w => held_posix _ w)] end
  | apply preserves_ret; tc_solve | apply preserves_throw; tc_solve | apply preserves_of_result; tc_solve
  | apply preserves_try | apply preserves_wrapping
  | apply preserves_bind; [tc_solve| |]
  | match goal with |- preserves _ (match ?x with _ => _ end) => destruct x end ].

Lemma deref_keeps {A} (o : option A) : keeps (deref_or_panic o : M W A).
Proof. unfold deref_or_panic. holding. Qed.

Lemma openPosix_balanced cfg : balanced (openPosix cfg).
Proof. apply balanced_nothing. holding. Qed.

Lemma openS3_balanced cfg : balanced (openS3 cfg).
Proof.
  apply balanced_bind; [apply deref_keeps|]. intros c. apply balanced_bind; [unfold newS3Client; holding|].
  intros client. apply balanced_nothing. holding.
Qed.

Lemma openAzure_balanced cfg : balanced (openAzure cfg).
Proof.
  apply balanced_bind; [apply deref_keeps|]. intros c. apply balanced_bind; [holding|]. intros cc. apply balanced_nothing. holding.
Qed.

Lemma openGCS_balanced cfg : balanced (openGCS cfg).
Proof.
  apply balanced_bind; [apply deref_keeps|]. intros c w. unfold newGCSClient.
  assert (Ho : keeps (newGCSClientOptions c)).
  { unfold newGCSClientOptions. holding. }
  unfold bind, wrapping. specialize (Ho w). destruct (newGCSClientOptions c w) as [[opts|e] w1]; cbn [snd] in Ho; [|by rewrite Ho].
  pose proof (held_gcs_new opts w1) as Hn. destruct (gcsstorage_NewClient opts w1) as [[client|e] w2]; cbn [map_error fst snd]; [|by rewrite Hn, Ho].
  pose proof (tidies_try _ _ (held_gcs_close client)) as Hr.
  pose proof (with_cleanup_held [HGcs client] _ (gcs_driver client (gcs_Bucket c) (gcs_Prefix c)) (held w) w2 Hr) as Hw. unfold ret. cbn [fst snd].
  destruct (with_cleanup _ _ w2) as [[[b cl]|e] w3]; [|apply Hw; [holding|by rewrite Hn, Ho]].
  destruct Hw as [-> Hh]; [holding|by rewrite Hn, Ho|]. by exists [HGcs client].
Qed.

Lemma newSSHClientConfig_keeps c : keeps (newSSHClientConfig c).
Proof. unfold newSSHClientConfig. holding. Qed.

Lemma openSFTP_balanced cfg : balanced (openSFTP cfg).
Proof.
  apply balanced_bind; [apply deref_keeps|]. intros c. apply balanced_bind; [apply newSSHClientConfig_keeps|]. intros sshCfg w. set (addr := _ +:+ _).
  unfold bind at 1, wrapping at 1. pose proof (held_ssh_dial addr sshCfg w) as Hd. destruct (ssh_DialTCP addr sshCfg w) as [[conn|e] w1]; cbn [map_error]; [|by rewrite Hd].
  unfold bind at 1, try at 1, wrapping. pose proof (held_sftp_new conn w1) as Hn. destruct (sftp_NewClient conn w1) as [[client|e] w2]; cbn [map_error].
  - set (cleanup := try (sftp_CloseClient client) ;;; try (ssh_CloseConn conn) ;;; ret tt).
    assert (Hr : tidies ([HSftp client] ++ [HSsh conn]) cleanup) by (apply tidies_seq; [apply held_sftp_close|apply tidies_try, held_ssh_close]).
    pose proof (with_cleanup_held _ cleanup (sftp_driver client (sftp_BasePath c)) (held w) w2 Hr) as Hw.
    destruct (with_cleanup _ _ w2) as [[[b cl]|e] w3]; [|apply Hw; [holding|by rewrite Hn, Hd]].
    destruct Hw as [-> Hh]; [holding|by rewrite Hn, Hd|]. by exists ([HSftp client] ++ [HSsh conn]).
  - pose proof (held_ssh_close conn w2 (held w)) as Hc. unfold bind, try, throw. destruct (ssh_CloseConn conn w2) as [r w3]. apply Hc. by rewrite Hn, Hd.
Qed.

Lemma openBackend_balanced cfg : balanced (openBackend cfg).
Proof.
  unfold openBackend. repeat case_match; [apply openPosix_balanced|apply openS3_balanced|apply openAzure_balanced|apply openGCS_balanced|apply openSFTP_balanced|].
  intros w. cbn. reflexivity.
Qed.

Lemma combined_snoc hs1 hs2 cs c : tidies hs1 (combined cs) -> tidies hs2 c -> tidies (hs2 ++ hs1) (combined (cs ++ [c])).
Proof.
  intros Hcs Hc w l Hl. unfold combined. rewrite rev_app_distr. cbn [rev app forM]. rewrite <- app_assoc in Hl.
  destruct (Hc w _ Hl) as (w1 & Hw & Hl1). unfold bind. rewrite Hw. by apply Hcs.
Qed.

Lemma open_all_balanced cfgs bs cs hs w0 w : tidies hs (combined cs) -> held w ≡ₚ hs ++ held w0 ->
  match open_all cfgs bs cs w with
  | (Ok (bs', cleanup), w') => length bs' = (length bs + length cfgs)%nat /\ exists hs', held w' ≡ₚ hs' ++ held w0 /\ tidies hs' cleanup
  | (Fail _, w') => held w' ≡ₚ held w0
  end.
Proof.
  revert bs cs hs w. induction cfgs as [|cfg cfgs IH]; intros bs cs hs w Hcs Hh; cbn [open_all].
  - split; [cbn; lia|]. by exists hs.
  - unfold bind at 1, try. pose proof (openBackend_balanced cfg w) as Hb. destruct (openBackend cfg w) as [[[b c]|e] w1].
    + destruct Hb as (hs1 & Hh1 & Hc). specialize (IH (bs ++ [b]) (cs ++ [c]) (hs1 ++ hs) w1 (combined_snoc _ _ _ _ Hcs Hc)).
      destruct (open_all cfgs _ _ w1) as [[[bs' cl]|e] w2].
      * destruct IH as [Hl Hx]; [by rewrite Hh1, Hh, app_assoc|]. split; [|done]. rewrite Hl, length_app. cbn. lia.
      * apply IH. by rewrite Hh1, Hh, app_assoc.
    + unfold bind. destruct (Hcs w1 (held w0)) as (w2 & -> & ?); [by rewrite Hb|done].
Qed.
End handles.

(** C30: opening the storages of a configuration leaks no connection: when any of them cannot be opened, whatever was
    opened on the way is closed again, the storages before it included; otherwise there is a storage for every entry,
    and the clean-up that comes with them closes exactly what was opened. *)
Theorem openBackends_balanced {W : Type} `{Host W, Dialing W, Minting W, !Clients W, WorkerHost W, !HandleLaws} cfgs (w : W) :
  match openBackends cfgs w with
  | (Ok (backends, cleanup), w') =>
      length backends = length cfgs /\ exists hs, held w' ≡ₚ hs ++ held w /\ forall w2 l, held w2 ≡ₚ hs ++ l -> held (snd (cleanup w2)) ≡ₚ l
  | (Fail _, w') => held w' ≡ₚ held w
  end.
Proof.
  pose proof (open_all_balanced cfgs [] [] [] w w) as Hb. unfold openBackends. destruct (open_all cfgs [] [] w) as [[[bs c]|e] w'].
  - destruct Hb as (Hl & hs & Hh & Hc); [by intros w2 l Hl; exists w2|done|]. split; [done|]. exists hs. split; [done|]. intros w2 l Hl2.
    by destruct (Hc w2 l Hl2) as (w3 & -> & ?).
  - apply Hb; [by intros w2 l Hl; exists w2|done].
Qed.

(** A server of SFTP is only dialled with a way to log in, and with a key it has to show unless the operator waived it. *)
Lemma newSSHClientConfig_strict {W : Type} `{Host W, Dialing W} c (w : W) cfg w' : newSSHClientConfig c w = (Ok cfg, w') ->
  cc_Auth cfg <> [] /\ (sftp_InsecureIgnoreHostKey c = false -> cc_HostKeyCallback cfg = FixedHostKey (sftp_HostKey c) /\ sftp_HostKey c <> "").
Proof.
  unfold newSSHClientConfig. intros Hrun. apply bind_inv_Ok in Hrun as (auths & w1 & _ & Hrun). destruct auths as [|a auths]; cbn [length Nat.eqb] in Hrun; [done|].
  apply bind_inv_Ok in Hrun as (cb & w2 & Hcb & Hrun). injection Hrun as <- <-. split; [done|]. intros Hi. rewrite Hi in Hcb.
  destruct (String.eqb_spec (sftp_HostKey c) "") as [|Hne]; [done|]. apply bind_inv_Ok in Hcb as (? & ? & _ & Hcb). by injection Hcb as <- <-.
Qed.

(** A valid configuration always has a location to print. *)
Lemma valid_location c : storage_valid c -> exists loc, storageLocation c = Some loc.
Proof. intros []; by eexists. Qed.

(** ** What a validated configuration never runs into *)

Section blame.
Context {W : Type} `{Backend W, Host W, Dialing W, Minting W, !Clients W, WorkerHost W} (P : error -> Prop).

(** Where [m] fails, its error is one of [P]. *)
Definition blames {A} (m : M W A) : Prop := forall w e w', m w = (Fail e, w') -> P e.
Definition blames_result {A} (r : result A) : Prop := forall e, r = Fail e -> P e.

(** The errors of everything outside the program: the host, the SDKs and the drivers on them. *)
Record outside : Prop := {
  ou_read p : blames (os_ReadFile p);
  ou_aws r k : blames (aws_LoadDefaultConfig r k);
  ou_connection_string s : blames_result (azblob_NewClientFromConnectionString s);
  ou_shared_key n k : blames_result (azblob_NewSharedKeyCredential n k);
  ou_with_shared_key u k : blames_result (azblob_NewClientWithSharedKeyCredential u k);
  ou_no_credential u : blames_result (azblob_NewServiceWithNoCredential u);
  ou_gcs opts : blames (gcsstorage_NewClient opts);
  ou_private_key k : blames_result (ssh_ParsePrivateKey k);
  ou_host_key k : blames_result (ssh_ParseAuthorizedKey k);
  ou_dial a cfg : blames (ssh_DialTCP a cfg);
  ou_sftp c : blames (sftp_NewClient c);
  ou_posix_driver p : blames (posix_driver p);
  ou_s3_driver c b p : blames (s3_driver c b p);
  ou_azure_driver c p : blames (azure_driver c p);
  ou_gcs_driver c b p : blames (gcs_driver c b p);
  ou_sftp_driver c p : blames (sftp_driver c p);
}.

Hypotheses (Hwrap : forall msg e, P e -> P (Errorf_w msg e)) (Hout : outside).

Lemma blames_ret {A} (a : A) : blames (ret a).
Proof. by intros w e w'. Qed.

Lemma blames_try {A} (m : M W A) : blames (try m).
Proof. intros w e w'. unfold try. by destruct (m w). Qed.

Lemma blames_wrapping {A} msg (m : M W A) : blames m -> blames (wrapping msg m).
Proof. intros Hm w e w'. unfold wrapping. destruct (m w) as [[a|err] w1] eqn:E; intros [= <- _]. eapply Hwrap, Hm, E. Qed.

Lemma blames_of_result {A} (r : result A) : blames_result r -> blames (of_result r).
Proof. intros Hr w e w' [= E _]. by apply Hr. Qed.

Lemma blames_mapped {A} msg (r : result A) : blames_result r -> blames_result (map_error (Errorf_w msg) r).
Proof. intros Hr e. destruct r as [a|err]; cbn; [done|]. intros [= <-]. by apply Hwrap, Hr. Qed.

Lemma blames_after {A B} (Q : A -> Prop) (m : M W A) (k : A -> M W B) :
  blames m -> (forall w a w', m w = (Ok a, w') -> Q a) -> (forall a, Q a -> blames (k a)) -> blames (bind m k).
Proof.
  intros Hm HQ Hk w e w'. unfold bind. destruct (m w) as [[a|err] w1] eqn:E; [by apply (Hk a (HQ _ _ _ E))|]. intros [= <- _]. by eapply Hm.
Qed.

Lemma blames_bind {A B} (m : M W A) (k : A -> M W B) : blames m -> (forall a, blames (k a)) -> blames (bind m k).
Proof. intros Hm Hk. apply (blames_after (fun _ => True)); auto. Qed.

Lemma blames_cleanup (cleanup : M W unit) m : blames cleanup -> blames m -> blames (with_cleanup cleanup m).
Proof.
  intros Hc Hm w e w'. unfold with_cleanup, bind, try. destruct (m w) as [[b|err] w1] eqn:E; [done|].
  destruct (cleanup w1) as [[[]|err'] w2] eqn:Ec; intros [= <- _]; [by eapply Hm|by eapply Hc].
Qed.

Ltac blaming := repeat first
  [ progress intros | apply blames_ret | apply blames_try | apply blames_wrapping | apply blames_cleanup
  | apply (ou_read Hout) | apply (ou_aws Hout) | apply (ou_gcs Hout) | apply (ou_dial Hout) | apply (ou_sftp Hout) | apply (ou_posix_driver Hout)
  | apply (ou_s3_driver Hout) | apply (ou_azure_driver Hout) | apply (ou_gcs_driver Hout) | apply (ou_sftp_driver Hout)
  | apply blames_of_result | apply blames_mapped | apply (ou_private_key Hout) | apply (ou_host_key Hout)
  | apply blames_bind ].

Lemma blames_update f : blames (update f : M W unit).
Proof. by intros w e w'. Qed.

Lemma openGCS_blames g prefix : blames (client <- newGCSClient g ;; with_cleanup (snd client) (gcs_driver (fst client) (gcs_Bucket g) prefix)).
Proof.
  apply (blames_after (fun client => blames (snd client))).
  - unfold newGCSClient, newGCSClientOptions. apply blames_bind; [destruct (negb _); [apply blames_bind; [apply blames_update|]|]|]; blaming.
  - unfold newGCSClient. intros w a w' Hrun. apply bind_inv_Ok in Hrun as (? & ? & _ & Hrun). apply bind_inv_Ok in Hrun as (? & ? & _ & Hrun).
    injection Hrun as <- _. cbn [snd]. blaming.
  - intros client Hc. by blaming.
Qed.

(** The credentials of a valid storage of Azure are enough for a client. *)
Lemma newAzure_blames a : (az_AccountKey a <> "" \/ az_SASToken a <> "" \/ az_ConnectionString a <> "") -> blames_result (newAzureContainerClient a).
Proof.
  intros Hcred e. unfold newAzureContainerClient, map_result. destruct (String.eqb_spec (az_ConnectionString a) "") as [Hc|_]; cbn [negb].
  2:{ destruct (azblob_NewClientFromConnectionString _) eqn:E; intros [= <-]. by eapply (ou_connection_string Hout). }
  destruct (String.eqb_spec (az_AccountKey a) "") as [Hk|_]; cbn [negb].
  2:{ destruct (azblob_NewSharedKeyCredential _ _) eqn:E; [|intros [= <-]; by eapply (ou_shared_key Hout)].
      destruct (azblob_NewClientWithSharedKeyCredential _ _) eqn:E2; intros [= <-]. by eapply (ou_with_shared_key Hout). }
  destruct (String.eqb_spec (az_SASToken a) "") as [Hs|_]; cbn [negb]; [naive_solver|].
  destruct (azblob_NewServiceWithNoCredential _) eqn:E; intros [= <-]. by eapply (ou_no_credential Hout).
Qed.

(** A valid storage of SFTP has a way to log in and a host key, or does without it on purpose. *)
Lemma newSSHClientConfig_blames c : (sftp_Password c <> "" \/ sftp_PrivateKeyFile c <> "") -> (sftp_HostKey c <> "" \/ sftp_InsecureIgnoreHostKey c = true) ->
  blames (newSSHClientConfig c).
Proof.
  intros Hauth Hhost. unfold newSSHClientConfig. apply (blames_after (fun auths => auths <> [])).
  - destruct (negb (String.eqb (sftp_PrivateKeyFile c) "")); blaming.
  - intros w a w'. destruct (String.eqb_spec (sftp_PrivateKeyFile c) "") as [Hf|_]; cbn [negb].
    + intros [= <- _]. destruct (String.eqb_spec (sftp_Password c) ""); [naive_solver|done].
    + intros Hrun. do 2 apply bind_inv_Ok in Hrun as (? & ? & _ & Hrun). injection Hrun as <- _. by destruct (negb _).
  - intros auths Hne. destruct auths as [|x auths]; [done|]. cbn [length Nat.eqb]. apply blames_bind; [|blaming].
    destruct (sftp_InsecureIgnoreHostKey c); [blaming|]. destruct (String.eqb_spec (sftp_HostKey c) ""); [naive_solver|]. blaming.
Qed.

Lemma openBackend_blames st : storage_valid st -> blames (openBackend st).
Proof.
  intros [path _ _|s _ _|a _ _ Hcred|g _|s _ _ _ Hauth Hhost]; unfold openBackend; cbn [st_Type String.eqb Ascii.eqb Bool.eqb].
  - unfold openPosix. blaming.
  - unfold openS3, newS3Client, deref_or_panic. cbn [st_S3]. blaming.
  - unfold openAzure, deref_or_panic. cbn [st_Azure]. rewrite bind_ret_l. apply blames_bind; [|blaming]. apply blames_of_result, blames_mapped. by apply newAzure_blames.
  - unfold openGCS, deref_or_panic. cbn [st_GCS]. rewrite bind_ret_l. apply openGCS_blames.
  - unfold openSFTP, deref_or_panic. cbn [st_SFTP]. rewrite bind_ret_l. apply blames_bind; [by apply newSSHClientConfig_blames|]. intros cfg.
    apply blames_bind; [blaming|]. intros conn. apply (blames_after (fun r => blames_result r)); [blaming| |].
    + intros w r w'. unfold try, wrapping. destruct (sftp_NewClient conn w) as [[x|err] w1] eqn:E; intros [= <- _]; intros e; [done|]. cbn. intros [= <-].
      eapply Hwrap, (ou_sftp Hout), E.
    + intros [client|err] Hr; [blaming|]. apply blames_bind; [blaming|]. intros _ w e w' [= <- _]. by apply Hr.
Qed.
End blame.

(** C32: a configuration that passes [Validate] is fit for use: its recipients are keys and make a filter chain of its codec, and
    where opening one of its storages fails, the error is one of the host, of an SDK or of a driver on it (any set [P] of
    errors that is closed under wrapping and has all of those has this one too). So no command that opens them follows a
    section that is not there, meets an unknown type of storage, or lacks credentials, a way to log in or a host key. *)
Theorem valid_config_usable {W : Type} `{Backend W, Host W, Dialing W, Minting W, !Clients W, WorkerHost W, FilterLibs} (parse : string -> result Recipient)
    (P : error -> Prop) c :
  Validate parse c = Ok tt -> (forall msg e, P e -> P (Errorf_w msg e)) -> outside (W:=W) P ->
  (exists ks chain, parseAgeRecipients parse (en_Recipients (c_Encryption c)) = Ok ks /\
     NewChain {| o_Codec := cm_Codec (c_Compression c); o_Level := cm_Level (c_Compression c); o_Recipients := ks |} = Ok chain /\
     codec_Name (ch_codec chain) = cm_Codec (c_Compression c)) /\
  Forall (fun st => is_Some (storageLocation st) /\ forall w e w', openBackend (W:=W) st w = (Fail e, w') -> P e) (c_Storages c).
Proof.
  intros Hv Hwrap Hout. split.
  - destruct (valid_config_chain parse c Hv) as (ks & chain & ? & ? & ? & _). by exists ks, chain.
  - apply Validate_iff in Hv as []. eapply Forall_impl; [exact v_storage|]. intros st Hst. split; [|by apply openBackend_blames].
    destruct (valid_location st Hst) as [loc ->]. by exists loc.
Qed.

(** ** A host that counts its connections *)

Inductive ticket := TGcs (n : nat) | TSsh (n : nat) | TSftp (n : nat).

#[export] Instance ticket_eq_dec : EqDecision ticket.
Proof. solve_decision. Defined.

Fixpoint drop_one (t : ticket) (l : list ticket) : list ticket :=
  match l with [] => [] | x :: l => if decide (x = t) then l else x :: drop_one t l end.

Lemma drop_one_perm t l : t ∈ l -> l ≡ₚ t :: drop_one t l.
Proof.
  induction l as [|x l IH]; intros Hin; [by apply not_elem_of_nil in Hin|]. cbn. destruct (decide (x = t)) as [->|Hne]; [done|].
  apply elem_of_cons in Hin as [->|Hin]; [done|]. rewrite (IH Hin) at 1. constructor.
Qed.

Definition desk : Type := list ticket.
Definition take_ticket {A} (t : nat -> ticket) (a : nat -> A) : M desk A := fun w => (Ok (a (length w)), t (length w) :: w).
Definition give_back (t : ticket) : M desk unit := update (drop_one t).

#[local] Instance desk_host : Host desk := { os_ReadFile _ := ret "key"; os_OpenFile _ := ret (["key"], None); os_WriteFile _ _ := ret tt; rand_Read _ := ret "" }.
#[local] Instance desk_worker_host : WorkerHost desk := { os_Open _ := throw (errors_New "open"); os_Setenv _ _ w := w; runtime_GOOS := "linux"; runtime_NumCPU := 1 }.

Definition desk_backend : Backend desk := {|
  be_Writer := unit; be_Put _ := ret tt; be_Write _ _ := ret tt; be_Close _ := ret tt; be_Commit _ _ := ret tt;
  be_Get _ := throw (errors_New "get"); be_Stat _ := throw (errors_New "stat"); be_List _ := ret []; be_Delete _ := ret tt |}.

(** A bucket named [gone] cannot be opened. *)
#[local] Instance desk_dialing : Dialing desk := {
  rb := unit; rb_Backend _ := desk_backend;
  S3Client := unit; s3_NewFromConfig _ := ret tt;
  s3_driver _ b _ := if String.eqb b "gone" then throw (errors_New "HeadBucket: 404") else ret tt;
  AzureClient := unit; azblob_NewClientWithNoCredential _ _ := ret tt; azure_driver _ _ := ret tt;
  GCSClient := nat; gcs_NewClient _ := throw (errors_New "no token"); gcs_CloseClient n := give_back (TGcs n); gcs_driver _ _ _ := ret tt;
  ssh_ParsePrivateKey _ := Ok tt; ssh_ParseAuthorizedKey _ := Ok tt;
  SSHConn := nat; SFTPClient := nat; ssh_Dial _ _ _ _ := throw (errors_New "no key"); ssh_CloseConn n := give_back (TSsh n);
  sftp_NewClient _ := take_ticket TSftp (fun n => n); sftp_CloseClient n := give_back (TSftp n); sftp_driver _ _ := ret tt; posix_driver _ := ret tt;
}.

#[local] Instance desk_minting : Minting desk := {
  os_Getenv _ _ := ""; AwsConfig := unit; aws_LoadDefaultConfig _ _ := ret tt; sts_AssumeRole _ _ _ _ _ _ := ret None;
  SharedKey := unit; azblob_NewSharedKeyCredential _ _ := Ok tt; sas_Sign _ _ := Ok ""; url_Parse _ := Ok tt;
  IamClient := unit; iam_NewClient _ := ret tt; iam_GenerateAccessToken _ _ _ _ := ret ("", None); iam_Close _ := ret tt }.

#[local] Instance desk_clients : Clients desk := {
  awss3_NewFromConfig _ _ := tt : S3Client;
  AzureService := unit; azblob_NewClientFromConnectionString _ := Ok tt; azblob_NewClientWithSharedKeyCredential _ _ := Ok tt;
  azblob_NewServiceWithNoCredential _ := Ok tt; azblob_NewContainerClient _ _ := tt : AzureClient;
  gcsstorage_NewClient _ := take_ticket TGcs (fun n => n : GCSClient); ssh_DialTCP _ _ := take_ticket TSsh (fun n => n : SSHConn) }.

Definition handle_of (t : ticket) : handle (W:=desk) := match t with TGcs n => HGcs n | TSsh n => HSsh n | TSftp n => HSftp n end.

#[local] Instance handle_of_inj : Inj (=) (=) handle_of.
Proof. by intros [] [] [= ->]. Qed.

Lemma give_back_releases t : releases (fmap handle_of) [handle_of t] (give_back t).
Proof.
  intros w l Hl. cbn. assert (Hin : t ∈ w).
  { apply (list_elem_of_fmap_inj handle_of). rewrite Hl. by left. }
  rewrite (drop_one_perm t w Hin) in Hl. cbn in Hl. by apply Permutation_cons_inv in Hl.
Qed.

#[local] Instance desk_handles : HandleLaws (W:=desk).
Proof.
  refine {| held := fmap handle_of |}; try (intros; reflexivity); try (intros ? w; reflexivity).
  - exact (fun c => give_back_releases (TGcs c)).
  - intros a cfg w. reflexivity.
  - exact (fun c => give_back_releases (TSsh c)).
  - exact (fun c => give_back_releases (TSftp c)).
  - intros c b p w. cbn. by case_match.
Defined.

Definition cloud_storage (ty : string) (s3 : option S3Config) (gcs : option GCSConfig) (sftp : option SFTPConfig) : StorageConfig :=
  {| st_Type := ty; st_Path := ""; st_S3 := s3; st_Azure := None; st_GCS := gcs; st_SFTP := sftp |}.

Definition desk_storages (bucket : string) : list StorageConfig :=
  [cloud_storage "gcs" None (Some {| gcs_Bucket := "b"; gcs_CredentialsFile := ""; gcs_Endpoint := ""; gcs_Prefix := "" |}) None;
   cloud_storage "sftp" None None (Some {| sftp_Host := "h"; sftp_Port := 0; sftp_Username := "u"; sftp_Password := "p"; sftp_PrivateKeyFile := "";
     sftp_BasePath := "/b"; sftp_HostKey := "ssh-ed25519 A"; sftp_InsecureIgnoreHostKey := false |});
   cloud_storage "s3" (Some {| s3_Bucket := bucket; s3_Region := "r"; s3_Endpoint := ""; s3_UsePathStyle := false; s3_AccessKeyID := "";
     s3_SecretAccessKey := ""; s3_Prefix := "" |}) None None].

(** Three connections are open while the bucket is looked up; none is left when that fails. *)
Example desk_opens : snd (openBackends (desk_storages "b") []) = [TSftp 2; TSsh 1; TGcs 0] /\ openBackends (desk_storages "gone") [] =
  (Fail (errors_New ("storage: open " +:+ quoted "s3" +:+ " backend: HeadBucket: 404")), []).
Proof. split; vm_compute; reflexivity. Qed.

(** The errors of the desk: the bucket that is gone, under what the program says of it. *)
Inductive desk_error : error -> Prop :=
  | desk_gone : desk_error (errors_New "HeadBucket: 404")
  | desk_wrapped msg e : desk_error e -> desk_error (Errorf_w msg e).

Lemma desk_outside : outside (W:=desk) desk_error.
Proof. split; intros; try (by intros ? ? ?); try (by intros ?). intros w e w'. cbn. case_match; [intros [= <- _]; constructor|done]. Qed.

Definition desk_config : Config :=
  {| c_Server := c_Server sample_config; c_PG := c_PG sample_config; c_Storages := desk_storages "gone"; c_Compression := c_Compression sample_config;
     c_Encryption := c_Encryption sample_config; c_Log := c_Log sample_config; c_Backup := c_Backup sample_config |}.

Lemma valid_config_usable_witness :
  (exists ks chain, parseAgeRecipients sample_parse ["age1key"] = Ok ks /\
     NewChain {| o_Codec := "zstd"; o_Level := 3; o_Recipients := ks |} = Ok chain /\ codec_Name (ch_codec chain) = "zstd") /\
  Forall (fun st => is_Some (storageLocation st) /\ forall w e w', openBackend (W:=desk) st w = (Fail e, w') -> desk_error e) (desk_storages "gone").
Proof.
  apply (valid_config_usable (W:=desk) (H:=desk_backend) (H4:=framing_libs) sample_parse desk_error desk_config);
    [vm_compute; reflexivity|exact desk_wrapped|exact desk_outside].
Defined.
