(* ===== verification/BackupCmd.v ===== *)
(** * The backup command

    [Run] of [internal/backup/backup.go], which picks the driver, [internal/pg/conn], and [cmd/pgsafe/backup.go]:
    the request the flags make, the options of the run, and the exit status. *)

From S2P Require Import Prelude Lsn Storage Host Time Manifest Config Lock Cli Filter Bracket Resume Backup Multi MultiBackup PageChecksum PgSql Parallel Creds Mint Worker WorkerBackup Open.

(** ** Connections: [conn.go] *)

(** [pgxpool.Config], as far as it is used. *)
Record PoolConfig := { pc_DSN : string; pc_RuntimeParams : gmap string string; pc_TLSConfig : bool; pc_ConnectTimeout : Z }.

Class Pools (W : Type) := {
  Pool : Type;
  pgxpool_ParseConfig : string -> result PoolConfig;
  pgxpool_NewWithConfig : PoolConfig -> M W Pool;
  pool_Ping : Pool -> M W unit;
  pool_Close : Pool -> M W unit;
}.

Definition DefaultConnectTimeout : Z := 10 * Second.

(** What [Connect] makes of the parsed configuration. *)
Definition connect_config (dsn : string) (cfg : PoolConfig) : PoolConfig :=
  {| pc_DSN := pc_DSN cfg;
     pc_RuntimeParams := if negb (pc_TLSConfig cfg) && negb (Contains dsn "sslmode=") then <["sslmode" := "prefer"]> (pc_RuntimeParams cfg) else pc_RuntimeParams cfg;
     pc_TLSConfig := pc_TLSConfig cfg;
     pc_ConnectTimeout := if pc_ConnectTimeout cfg =? 0 then DefaultConnectTimeout else pc_ConnectTimeout cfg |}.

(** [Connect] *)
Definition Connect {W : Type} `{Pools W} (dsn : string) : M W Pool :=
  cfg <- of_result (map_error (Errorf_w ("conn: parse " +:+ quoted dsn)) (pgxpool_ParseConfig dsn)) ;;
  pool <- wrapping "conn: open pool" (pgxpool_NewWithConfig (connect_config dsn cfg)) ;;
  r <- try (pool_Ping pool) ;;
  match r with
  | Fail err => try (pool_Close pool) ;;; throw (Errorf_w "conn: ping" err)
  | Ok _ => ret pool
  end.

(** ** The drivers: [Run] *)

(** The source of the WAL a mode cannot have. *)
Definition walSource_error (mode walSource : string) : option error :=
  if String.eqb walSource "" || String.eqb walSource WALSourceArchive then None
  else if String.eqb walSource WALSourceStream then
    if negb (String.eqb mode ModeSimple) then Some (errors_New ("backup: WALSource=stream requires Mode=simple (got " +:+ quoted mode +:+ ")")) else None
  else if String.eqb walSource WALSourceWalgrab then
    if negb (String.eqb mode ModeWorker) then Some (errors_New ("backup: WALSource=walgrab requires Mode=worker (got " +:+ quoted mode +:+ ")")) else None
  else Some (errors_New ("backup: unknown WALSource " +:+ quoted walSource)).

Definition mode_or_default (mode : string) : string := if String.eqb mode "" then ModeSimple else mode.
Definition walTimeout_or_default (d : Z) : Z := if d =? 0 then 30 * Minute else d.

Definition set_walTimeout `{FilterLibs} (d : Z) (opts : BackupOptions) : BackupOptions := {|
  bo_Filter := bo_Filter opts; bo_HasPool := bo_HasPool opts; bo_Server := bo_Server opts; bo_Label := bo_Label opts; bo_WALTimeout := d;
  bo_WALSource := bo_WALSource opts; bo_ResumeDisabled := bo_ResumeDisabled opts; bo_ResumeCheckpointEveryN := bo_ResumeCheckpointEveryN opts;
  bo_ResumeGracePeriod := bo_ResumeGracePeriod opts; bo_PgsafeVersion := bo_PgsafeVersion opts; bo_Recipients := bo_Recipients opts;
  bo_Compression := bo_Compression opts; bo_ScratchDir := bo_ScratchDir opts; bo_TempDir := bo_TempDir opts; bo_Type := bo_Type opts;
  bo_ParentBackupID := bo_ParentBackupID opts |}.

Section run.
Context {W : Type} `{Backend W, Host W, Disk W, Clock W, Pg W, BaseBackup W, FilterLibs, Sessions W, Catalog W, Minting W, Dialing W, WorkerHost W, !AgeKeys, Transport W}.
Context (Now : W -> time) (tees : string -> tee -> move) (collate : list string -> list string) (sched : list FileEntry -> list FileEntry) (late : string -> bool).

(** [Run]; [present] says that the options have a cluster, a storage and a chain. What it prints of the free space is
    left out. *)
Definition Run (present : bool) (mode : string) (opts : BackupOptions) (backends : list (Backend W)) (rpOpts : RemoteParallelOptions)
    (wOpts : WorkerOptions) : M W (BackupResult * Z) :=
  let mode := mode_or_default mode in
  let opts := set_walTimeout (walTimeout_or_default (bo_WALTimeout opts)) opts in
  if negb present then throw (errors_New "backup: Cluster, Storage, Filter required")
  else
    match walSource_error mode (bo_WALSource opts) with
    | Some err => throw err
    | None =>
        if String.eqb mode ModeSimple then runSimple_all Now tees opts backends
        else if String.eqb mode ModeRemoteParallel then r <- runRemoteParallel Now sched opts rpOpts ;; ret (with_none r)
        else if String.eqb mode ModeWorker then r <- runWorkerBackup Now collate sched late opts wOpts ;; ret (with_none r)
        else throw (errors_New ("backup: mode " +:+ quoted mode +:+ " not implemented"))
    end.
End run.

(** ** The request: [newBackupCmd] *)

(** The flags of the command; one whose presence matters is [Some] where it was given. *)
Record BackupFlags := {
  bf_type : string; bf_parent : string; bf_lock_timeout : Z; bf_ssh_target : option string; bf_ssh_extra_args : option string;
  bf_remote_command : option string; bf_workers : option Z; bf_direct_write : option bool; bf_confirm_proxy : option bool;
  bf_wal_source : string; bf_standalone : bool; bf_no_resume : bool;
}.

(** The arguments of [runBackup] *)
Record BackupRequest := {
  rq_Type : string; rq_Parent : string; rq_LockTimeout : Z; rq_Mode : string; rq_SSHTarget : string; rq_SSHExtraArgs : list string;
  rq_RemoteCommand : list string; rq_Workers : Z; rq_WorkerWritesDirectly : bool; rq_ConfirmProxy : bool; rq_WALSource : string;
  rq_Standalone : bool; rq_NoResume : bool;
}.

(** What [--standalone] makes of the source of the WAL. *)
Definition standalone_source (mode : string) (standalone : bool) (walSource : string) : option string :=
  if standalone then
    let inferred := if String.eqb mode ModeWorker then "walgrab" else "stream" in
    if negb (String.eqb walSource "") && negb (String.eqb walSource inferred) then None else Some inferred
  else Some walSource.

(** The body of [RunE] up to [runBackup]. *)
Definition backup_request (cfg : Config) (fl : BackupFlags) : BackupRequest + outcome :=
  let '(sshTarget, sshExtraArgsRaw) := resolveSSHReach (bf_ssh_target fl) (bf_ssh_extra_args fl) cfg in
  match shellSplit sshExtraArgsRaw, shellSplit (default "" (bf_remote_command fl)) with
  | Fail _, _ | _, Fail _ => inr errCfg
  | Ok sshExtraArgs, Ok remoteCommand =>
      let workers := default 4 (bf_workers fl) in
      let mode := inferBackupMode sshTarget workers (negb (is_nil (bf_workers fl))) in
      if negb (String.eqb mode ModeWorker) &&
         (negb (is_nil (bf_remote_command fl)) || negb (is_nil (bf_direct_write fl)) || negb (is_nil (bf_confirm_proxy fl))) then inr errCfg
      else
        match standalone_source mode (bf_standalone fl) (bf_wal_source fl) with
        | None => inr errCfg
        | Some walSource =>
            let request btype parent :=
              {| rq_Type := btype; rq_Parent := parent; rq_LockTimeout := bf_lock_timeout fl; rq_Mode := mode; rq_SSHTarget := sshTarget;
                 rq_SSHExtraArgs := sshExtraArgs; rq_RemoteCommand := remoteCommand; rq_Workers := workers;
                 rq_WorkerWritesDirectly := default true (bf_direct_write fl); rq_ConfirmProxy := default false (bf_confirm_proxy fl);
                 rq_WALSource := walSource; rq_Standalone := bf_standalone fl; rq_NoResume := bf_no_resume fl |} in
            if String.eqb (bf_type fl) "full" then
              if negb (String.eqb (bf_parent fl) "") then inr errCfg else inl (request TypeFull "")
            else if String.eqb (bf_type fl) "incr" then
              if String.eqb (bf_parent fl) "" then inr errCfg else inl (request TypeIncremental (bf_parent fl))
            else inr errCfg
        end
  end.

(** ** The run: [runBackup] *)

(** The options of the run; the version of the program and the directory for temporary files are given. *)
Definition backup_options `{FilterLibs} (version tempDir : string) (cfg : Config) (rq : BackupRequest) (chain : Chain) : BackupOptions := {|
  bo_Filter := chain; bo_HasPool := true; bo_Server := c_Server cfg; bo_Label := "pgsafe-" +:+ c_Server cfg;
  bo_WALTimeout := bc_ArchiveTimeout (c_Backup cfg); bo_WALSource := rq_WALSource rq;
  bo_ResumeDisabled := rq_NoResume rq || match bc_Resume (c_Backup cfg) with Some r => negb r | None => false end;
  bo_ResumeCheckpointEveryN := bc_ResumeCheckpointEveryN (c_Backup cfg); bo_ResumeGracePeriod := bc_ResumeGracePeriod (c_Backup cfg);
  bo_PgsafeVersion := version; bo_Recipients := en_Recipients (c_Encryption cfg); bo_Compression := compression_string (c_Compression cfg);
  bo_ScratchDir := bc_ScratchDir (c_Backup cfg); bo_TempDir := tempDir; bo_Type := rq_Type rq; bo_ParentBackupID := rq_Parent rq |}.

Definition parallel_options (cfg : Config) (rq : BackupRequest) : RemoteParallelOptions :=
  {| rp_HasPool := true; rp_Workers := rq_Workers rq; rp_PGVersion := pg_Version (c_PG cfg); rp_PageChecksumMode := ModeOff |}.

Definition worker_options (cfg : Config) (rq : BackupRequest) (st : StorageConfig) : WorkerOptions := {|
  wo_HasPool := true; wo_PGVersion := pg_Version (c_PG cfg); wo_SSHTarget := rq_SSHTarget rq; wo_SSHExtraArgs := rq_SSHExtraArgs rq;
  wo_RemoteCommand := rq_RemoteCommand rq; wo_Storage := st; wo_PageChecksumMode := ModeOff; wo_Workers := rq_Workers rq;
  wo_WorkerWritesDirectly := rq_WorkerWritesDirectly rq; wo_StorageReach := pg_StorageReach (c_PG cfg); wo_ConfirmProxy := rq_ConfirmProxy rq |}.

Definition index_panic : error := errors_New "panic: index out of range [0] with length 0".

Section command.
Context {W : Type} `{Host W, Disk W, Clock W, Pg W, BaseBackup W, FilterLibs, Sessions W, Catalog W, Minting W, Dialing W, !Clients W, WorkerHost W, !AgeKeys, Transport W, Pools W, Shell W}.
Context (Now : W -> time) (tees : string -> tee -> move) (collate : list string -> list string) (sched : list FileEntry -> list FileEntry) (late : string -> bool).
Context (version tempDir : string).

(** What [runBackup] does with the storages. *)
Definition run_with (cfg : Config) (st : StorageConfig) (rq : BackupRequest) (backends : list rb) : M W outcome :=
  match parseAgeRecipients age_ParseX25519Recipient (en_Recipients (c_Encryption cfg)) with
  | Fail _ => ret errCfg
  | Ok recipients =>
      match NewChain {| o_Codec := cm_Codec (c_Compression cfg); o_Level := cm_Level (c_Compression cfg); o_Recipients := recipients |} with
      | Fail _ => ret errCfg
      | Ok chain =>
          match backends with
          | [] => throw index_panic
          | backend :: _ =>
              or_exit backup_exit
                (Run (H:=rb_Backend backend) Now tees collate sched late true (rq_Mode rq) (backup_options version tempDir cfg rq chain) (map rb_Backend backends)
                   (parallel_options cfg rq) (worker_options cfg rq st)) (fun _ => ret Done)
          end
      end
  end.

(** [runBackup]; the pool of the cluster is one of its own. *)
Definition runBackup (cfg : Config) (rq : BackupRequest) : M W outcome :=
  match PrimaryStorage cfg with
  | None => throw index_panic
  | Some st =>
      with_server_lock cfg st Exclusive (rq_LockTimeout rq) (
      or_exit (fun _ => 3) (Connect (pg_ConnString (c_PG cfg))) (fun pool => finally (pool_Close pool) (
      or_exit (fun _ => 3) (Connect (pg_ConnString (c_PG cfg))) (fun cluster => finally (pool_Close cluster) (
      or_exit (fun _ => 4) (openBackends (c_Storages cfg)) (fun '(backends, cleanup) => finally cleanup (
      run_with cfg st rq backends)))))))
  end.

(** [newBackupCmd] *)
Definition backupCmd (yaml_Decode : string -> result Config) (file : option (result string)) (fl : Flags) (bf : BackupFlags) : M W outcome :=
  match resolveConfig age_ParseX25519Recipient yaml_Decode file fl with
  | inr o => ret o
  | inl cfg => match backup_request cfg bf with inr o => ret o | inl rq => runBackup cfg rq end
  end.
End command.
