(* ===== verification/RestoreCmd.v ===== *)
(** * The commands that read the storage

    [restore] of [cmd/pgsafe/root.go] with the options its flags make, [info], [verify] and [check]. What they print is
    handed to a parameter. *)

From S2P Require Import Prelude Lsn Storage Host Time Manifest Info Config Lock Cli Filter Bracket Restore Verify Check Creds Mint Worker WorkerBackup Open BackupCmd.

(** ** Restoring *)

(** [fmt.Sscanf(s, "%d", &v)] with an unsigned number of 64 bits: what follows the digits is ignored. *)
Definition Sscanf_u64 (s : string) : option Z :=
  match fst (span is_digit (skip_blanks s)) with
  | "" => None
  | digits => match dec_acc 0 digits with Some v => if v <? 2 ^ 64 then Some v else None | None => None end
  end.

(** The flags of the command; that of [--standby] is [Some] where it was given. *)
Record RestoreFlags := {
  rx_target : string; rx_identity_file : string; rx_backup_id : string; rx_standby : option bool; rx_restore_command : string;
  rx_tablespaces : list string; rx_target_time : string; rx_target_xid : string; rx_target_lsn : string; rx_target_name : string;
  rx_target_action : string;
}.

(** The loop over [--tablespace] *)
Fixpoint tablespace_remap (m : gmap Z string) (l : list string) : result (gmap Z string) :=
  match l with
  | [] => Ok m
  | kv :: l =>
      match Cut kv "=" with
      | None | Some ("", _) => Fail (errors_New ("--tablespace " +:+ quoted kv +:+ " must be OID=PATH"))
      | Some (k, v) =>
          match Sscanf_u64 k with
          | None => Fail (errors_New ("--tablespace " +:+ quoted kv +:+ ": parse OID"))
          | Some oid => tablespace_remap (<[oid := v]> m) l
          end
      end
  end.

(** A target that was given is parsed. *)
Definition parse_target {A} (flag : string) (parse : string -> option A) (v : string) : result (option A) :=
  if String.eqb v "" then Ok None
  else match parse v with Some a => Ok (Some a) | None => Fail (errors_New (flag +:+ " " +:+ quoted v)) end.

Definition given {A} (o : option A) : Z := match o with Some _ => 1 | None => 0 end.

(** Goes on with what was parsed. *)
Definition and_then {A B} (r : result A) (k : A -> result B) : result B := match r with Ok a => k a | Fail err => Fail err end.

Section options.
Context `{FilterLibs}.

(** [buildRestoreOptions] *)
Definition buildRestoreOptions (fl : RestoreFlags) (identities : list Identity) : result Restore.Options :=
  and_then (tablespace_remap ∅ (rx_tablespaces fl)) (fun remap =>
  and_then (parse_target "--target-time" ParseRFC3339 (rx_target_time fl)) (fun time =>
  and_then (parse_target "--target-xid" Sscanf_u64 (rx_target_xid fl)) (fun xid =>
  and_then (parse_target "--target-lsn" (fun v => match ParseLSN v with Ok l => Some l | Fail _ => None end) (rx_target_lsn fl)) (fun lsn =>
  if 1 <? given time + given xid + given lsn + (if String.eqb (rx_target_name fl) "" then 0 else 1)
  then Fail (errors_New "at most one of --target-time / --target-xid / --target-lsn / --target-name may be set")
  else Ok {| ro_Target := rx_target fl; ro_Identities := identities; ro_BackupID := rx_backup_id fl; ro_TablespaceRemap := remap;
             ro_StandbyMode := default false (rx_standby fl); ro_RestoreCommand := rx_restore_command fl; ro_TargetTime := time;
             ro_TargetXID := xid; ro_TargetLSN := lsn; ro_TargetName := rx_target_name fl; ro_TargetAction := rx_target_action fl |})))).
End options.

(** ** The commands *)

Section commands.
Context {W : Type} `{Host W, Disk W, Clock W, Pg W, FilterLibs, Minting W, Dialing W, !Clients W, WorkerHost W, !AgeKeys, Shell W}.

(** [LoadIdentityFile] *)
Definition LoadIdentityFile (path : string) : M W (list Identity) :=
  data <- wrapping "identity-file" (os_ReadFile path) ;;
  ids <- of_result (map_error (Errorf_w "identity-file: parse") (age_ParseIdentities data)) ;;
  if (length ids =? 0)%nat then throw (errors_New "identity-file: no identities found") else ret ids.

(** [readIdentities] *)
Definition readIdentities (file : string) : M W (list Identity) :=
  if String.eqb file "" then ret []
  else data <- os_ReadFile file ;; of_result (age_ParseIdentities data).

(** [openBackend] with status 4 and the deferred clean-up. *)
Definition with_opened (st : StorageConfig) (k : rb -> M W outcome) : M W outcome :=
  or_exit (fun _ => 4) (openBackend st) (fun '(b, cleanup) => finally cleanup (k b)).

(** The first storage of the configuration. *)
Definition with_primary (cfg : Config) (k : StorageConfig -> M W outcome) : M W outcome :=
  match PrimaryStorage cfg with None => throw index_panic | Some st => k st end.

(** [runRestore] *)
Definition runRestore (sched : list Restore.ManifestFile -> list Restore.ManifestFile) (cfg : Config) (fl : RestoreFlags) : M W outcome :=
  with_primary cfg (fun st => with_opened st (fun b =>
  or_exit (fun _ => 2) (LoadIdentityFile (rx_identity_file fl)) (fun identities =>
  match buildRestoreOptions fl identities with
  | Fail _ => ret errCfg
  | Ok opts => or_exit (fun _ => 4) (Restore.Run (H:=rb_Backend b) sched opts) (fun _ => ret Done)
  end))).

(** What [newRestoreCmd] asks for first. *)
Definition restoreCmd (sched : list Restore.ManifestFile -> list Restore.ManifestFile) (cfg : Config) (fl : RestoreFlags) : M W outcome :=
  if String.eqb (rx_target fl) "" || String.eqb (rx_identity_file fl) "" then ret errCfg else runRestore sched cfg fl.

(** The records [runInfo] shows. *)
Definition server_records (serverFilter : string) (records : list BackupRecord) : list BackupRecord :=
  if negb (String.eqb serverFilter "") then base.filter (fun r => r_Server r = serverFilter) records else records.

(** [runInfo]; an error of the printer is returned as it is. *)
Definition runInfo (print : list BackupRecord -> list Warning -> M W unit) (cfg : Config) (serverFilter : string) (lockTimeout : Z) : M W outcome :=
  with_primary cfg (fun st => with_server_lock cfg st Shared lockTimeout (with_opened st (fun b =>
  or_exit (fun _ => 4) (@Info.List _ (rb_Backend b)) (fun '(records, warnings) =>
    r <- try (print (server_records serverFilter records) warnings) ;;
    ret (match r with Ok _ => Done | Fail _ => Other end))))).

(** [runVerify] *)
Definition runVerify (print : list VerifyResult -> M W unit) (order : list string -> list string) (sched : list task -> list task) (cfg : Config)
    (backupID identityFile : string) (lockTimeout : Z) : M W outcome :=
  with_primary cfg (fun st => with_server_lock cfg st Shared lockTimeout (
  or_exit (fun _ => 2) (readIdentities identityFile) (fun identities => with_opened st (fun b =>
  or_exit (fun _ => 4) (Verify (H:=rb_Backend b) order sched backupID identities) (fun results =>
  or_exit (fun _ => 1) (print results) (fun _ =>
    ret (if forallb Verify.AllOK results then Done else ExitError 5))))))).

(** [runCheck]; without a pool, whatever the configuration says of the cluster. *)
Definition runCheck (asJSON : bool) (print : Report -> M W unit) (cfg : Config) (lockTimeout : Z) : M W outcome :=
  with_primary cfg (fun st => with_server_lock cfg st Shared lockTimeout (with_opened st (fun b =>
    report <- Check.Run (H:=rb_Backend b) {| co_Backend := true; co_Pool := false |} ;;
    r <- try (print report) ;;
    ret (match r with
         | Fail _ => if asJSON then ExitError 1 else Other
         | Ok _ => if Check.AllOK report then Done else ExitError 5
         end)))).
End commands.
