(* ===== verification/Cluster.v ===== *)
(** * The cluster behind a backup

    [internal/pg]: the identity that SQL functions give, [pg_basebackup] as a process with a stream of entries, and the
    handle on both. What the queries and the process answer are parameters. *)

From S2P Require Import Prelude Lsn Storage Host Bracket Backup Open BackupCmd.

(** ** The identity: [identity.go] *)

(** [Identity] *)
Record Identity := {
  ci_SystemIdentifier : Z; ci_PGControlVersion : Z; ci_CatalogVersion : Z; ci_Timeline : Z; ci_CheckpointLSN : LSN; ci_WALSegmentSize : Z; ci_IsInRecovery : bool;
}.

(** The rows, scanned into numbers of their width. *)
Class Queries (W : Type) := {
  q_control_system : M W (Z * Z * Z);
  q_control_checkpoint : M W (Z * string);
  q_control_init : M W Z;
  q_is_in_recovery : M W bool;
}.

(** [Read] *)
Definition identity_Read {W : Type} `{Queries W} : M W Identity :=
  sys <- wrapping "identity: pg_control_system" q_control_system ;;
  cp <- wrapping "identity: pg_control_checkpoint" q_control_checkpoint ;;
  lsn <- of_result (map_error (Errorf_w ("identity: parse checkpoint_lsn " +:+ quoted (snd cp))) (ParseLSN (snd cp))) ;;
  size <- wrapping "identity: pg_control_init" q_control_init ;;
  rec <- wrapping "identity: pg_is_in_recovery" q_is_in_recovery ;;
  ret {| ci_SystemIdentifier := fst (fst sys); ci_PGControlVersion := snd (fst sys); ci_CatalogVersion := snd sys; ci_Timeline := fst cp;
         ci_CheckpointLSN := lsn; ci_WALSegmentSize := size; ci_IsInRecovery := rec |}.

(** What the drivers use of it. *)
Definition cluster_identity (i : Identity) : ClusterIdentity :=
  {| id_SystemIdentifier := ci_SystemIdentifier i; id_Timeline := ci_Timeline i; id_CheckpointLSN := ci_CheckpointLSN i; id_WALSegmentSize := ci_WALSegmentSize i |}.

(** ** [pg_basebackup]: [basebackup.go] *)

(** [Options] *)
Record BasebackupOptions := { ao_DSN : string; ao_Label : string; ao_IncrementalManifestPath : string; ao_WALMethod : string }.

(** The standard output of a started process is the entries of its tar and how they end; waiting for it gives its error
    with what it wrote to the standard error. *)
Class Processes (W : Type) := {
  exec_Start : string -> list string -> M W (list tar_entry * option error);
  exec_Wait : M W (option string);
}.

(** [Stream]; once it is closed it keeps the error. *)
Record Stream := { s_tar : list tar_entry; s_end : option error; s_closed : option (option error) }.

Definition EOF : error := errors_Sentinel IoEOF "EOF".

Section stream.
Context {W : Type} `{Processes W, Disk W}.

(** [Start] *)
Definition basebackup_Start (opts : BasebackupOptions) : M W Stream :=
  if String.eqb (ao_DSN opts) "" then throw (errors_New "basebackup: DSN is required")
  else
    let label := if String.eqb (ao_Label opts) "" then "pgsafe" else ao_Label opts in
    wrapping "basebackup: pg_basebackup not found on PATH" (exec_LookPath "pg_basebackup") ;;;
    args <- of_result (buildArgs (ao_DSN opts) label (ao_IncrementalManifestPath opts) (ao_WALMethod opts)) ;;
    out <- wrapping "basebackup: start" (exec_Start "pg_basebackup" args) ;;
    ret {| s_tar := fst out; s_end := snd out; s_closed := None |}.

(** [Stream.Next] *)
Definition Next (s : Stream) : result tar_entry * Stream :=
  match s_tar s with
  | e :: rest => (Ok e, {| s_tar := rest; s_end := s_end s; s_closed := s_closed s |})
  | [] => (Fail (match s_end s with Some err => err | None => EOF end), s)
  end.

(** [Stream.Close]: what is left is read and dropped, and the process waited for, the first time only. *)
Definition Stream_Close (s : Stream) : M W (option error * Stream) :=
  match s_closed s with
  | Some err => ret (err, s)
  | None =>
      status <- exec_Wait ;;
      let err := (fun st => errors_New ("basebackup: pg_basebackup exit: " +:+ st)) <$> status in
      ret (err, {| s_tar := []; s_end := s_end s; s_closed := Some err |})
  end.

(** The loop of a driver over the entries, until [io.EOF] or another error. *)
Fixpoint entries (fuel : nat) (s : Stream) : list tar_entry * option error :=
  match fuel with
  | O => ([], Some out_of_fuel)
  | S fuel =>
      match Next s with
      | (Ok e, s) => let '(l, err) := entries fuel s in (e :: l, err)
      | (Fail err, _) => ([], if errors_Is err IoEOF then None else Some err)
      end
  end.
End stream.

(** ** The handle: [cluster.go] *)

(** [RealCluster] *)
Record RealCluster {W : Type} `{Pools W} := { rc_pool : option Pool }.

Section cluster.
Context {W : Type} `{Pools W}.

(** [Open] *)
Definition cluster_Open (dsn : string) : M W RealCluster := pool <- Connect dsn ;; ret {| rc_pool := Some pool |}.

(** [RealCluster.Close] *)
Definition cluster_Close (c : RealCluster) : M W RealCluster :=
  match rc_pool c with
  | Some pool => try (pool_Close pool) ;;; ret {| rc_pool := None |}
  | None => ret c
  end.
End cluster.

(** ** What they promise *)

(** The position of the last checkpoint is the one the server printed, and fits 64 bits. *)
Lemma identity_Read_lsn {W : Type} `{Queries W} (w : W) i w' : identity_Read w = (Ok i, w') ->
  is_u64 (ci_CheckpointLSN i) /\ exists text, ParseLSN text = Ok (ci_CheckpointLSN i).
Proof.
  unfold identity_Read. intros Hrun. apply bind_inv_Ok in Hrun as (sys & w1 & _ & Hrun). apply bind_inv_Ok in Hrun as (cp & w2 & _ & Hrun).
  apply bind_inv_Ok in Hrun as (lsn & w3 & Hl & Hrun). unfold of_result in Hl. destruct (ParseLSN (snd cp)) as [l|e] eqn:El; cbn in Hl; [|done]. injection Hl as -> _.
  apply bind_inv_Ok in Hrun as (size & w4 & _ & Hrun). apply bind_inv_Ok in Hrun as (rec & w5 & _ & Hrun). injection Hrun as <- _. cbn.
  split; [by apply ParseLSN_is_u64 in El|by exists (snd cp)].
Qed.

(** Reading a stream to its end gives the entries it was started with and the error it ends with: the drivers see a stream
    as this pair. *)
Lemma entries_all s fuel : (length (s_tar s) < fuel)%nat -> (forall err, s_end s = Some err -> errors_Is err IoEOF = false) ->
  entries fuel s = (s_tar s, s_end s).
Proof.
  revert s. induction fuel as [|fuel IH]; intros [tar fin cl] Hf He; cbn in *; [lia|]. unfold Next. cbn. destruct tar as [|e tar].
  - destruct fin as [err|]; [by rewrite (He err eq_refl)|done].
  - rewrite IH; [done|cbn in *; lia|done].
Qed.

(** A stream can be closed again, and says the same without waiting for the process. *)
Lemma Stream_Close_again {W : Type} `{Processes W} s (w : W) err s' w' : Stream_Close s w = (Ok (err, s'), w') -> forall w2, Stream_Close s' w2 = (Ok (err, s'), w2).
Proof.
  unfold Stream_Close. destruct (s_closed s) as [e|] eqn:Ec.
  - intros [= <- <- _] w2. by rewrite Ec.
  - intros Hrun w2. apply bind_inv_Ok in Hrun as (st & w1 & _ & Hrun). by injection Hrun as <- <- _.
Qed.

(** A cluster can be closed again. *)
Lemma cluster_Close_again {W : Type} `{Pools W} c (w : W) c' w' : cluster_Close c w = (Ok c', w') -> forall w2, cluster_Close c' w2 = (Ok c', w2).
Proof.
  unfold cluster_Close. destruct (rc_pool c) as [pool|] eqn:Ep.
  - intros Hrun w2. apply bind_inv_Ok in Hrun as (u & w1 & _ & Hrun). by injection Hrun as <- _.
  - intros [= <- _] w2. by rewrite Ep.
Qed.
