(* ===== verification/CmdSpec.v ===== *)
(** * From the command line to the restored files

    What a status of 0 promises: the configuration that passed validation gives the options the theorems about the
    drivers ask for, so that a backup and a restore by the commands put every file back. *)

From S2P Require Import Prelude Lsn Storage Keys Host Time Manifest ManifestSpec Info InfoSpec Worlds Config Lock Cli CliSpec Archive Filter Bracket BracketSpec Resume Restore RestoreSpec Backup BackupSpec Multi MultiBackup PageChecksum PgSql Parallel ParallelSpec Creds Mint Worker WorkerSpec WorkerBackup WorkerBackupSpec WorkerRunSpec WorkerOutcome Open BackupCmd RestoreCmd.

(** ** What is relied on *)

(** The storage is changed at most in its WAL, the host not at all. *)
Definition aside {W} `{HostLaws W} : relation W := fun w w' => same_outside wal_key w w' /\ host_files w' = host_files w.

#[export] Instance aside_preorder {W} `{HostLaws W} : PreOrder aside.
Proof. split; [by intros w|]. intros w1 w2 w3 [Hv Hh] [Hv' Hh']. split; [by etrans|congruence]. Qed.

(** Clients and pools are connections: opening and closing them writes nothing. *)
Class ClientLaws (W : Type) `{HostLaws W, Dialing W, Minting W, !Clients W, WorkerHost W, Pools W} : Prop := {
  the_storage b : rb_Backend b = H;
  aws_aside r k : preserves aside (aws_LoadDefaultConfig r k);
  setenv_aside k v : preserves aside (update (os_Setenv k v));
  gcs_new_aside opts : preserves aside (gcsstorage_NewClient opts);
  gcs_close_aside c : preserves aside (gcs_CloseClient c);
  ssh_dial_aside a cfg : preserves aside (ssh_DialTCP a cfg);
  ssh_close_aside c : preserves aside (ssh_CloseConn c);
  sftp_new_aside c : preserves aside (sftp_NewClient c);
  sftp_close_aside c : preserves aside (sftp_CloseClient c);
  s3_aside c b p : preserves aside (s3_driver c b p);
  azure_aside c p : preserves aside (azure_driver c p);
  gcs_aside c b p : preserves aside (gcs_driver c b p);
  sftp_aside c p : preserves aside (sftp_driver c p);
  posix_aside p : preserves aside (posix_driver p);
  pool_new_aside cfg : preserves aside (pgxpool_NewWithConfig cfg);
  pool_ping_aside p : preserves aside (pool_Ping p);
  pool_close_aside p : preserves aside (pool_Close p);
}.

Lemma read_aside {W} `{HostLaws W} p : preserves aside (os_ReadFile p).
Proof. intros w. destruct (read_file_spec p w) as (Hv & Hh & _). split; [|done]. intros q _. by rewrite Hv. Qed.

#[export] Hint Resolve read_aside aws_aside setenv_aside gcs_new_aside gcs_close_aside ssh_dial_aside ssh_close_aside sftp_new_aside sftp_close_aside
  s3_aside azure_aside gcs_aside sftp_aside posix_aside pool_new_aside pool_ping_aside pool_close_aside : go.

(** Goes through a program that only uses such calls. *)
Ltac asiding := repeat first
  [ progress intros
  | match goal with |- preserves _ _ => solve [eauto 2 with go] end
  | apply preserves_ret; tc_solve | apply preserves_throw; tc_solve | apply preserves_of_result; tc_solve
  | apply preserves_try | apply preserves_wrapping
  | apply preserves_bind; [tc_solve| |]
  | match goal with |- preserves _ (match ?x with _ => _ end) => destruct x end ].

Section opening.
Context {W : Type} `{BackendLaws W, !Host W, !HostLaws W, !Dialing W, !Minting W, !Clients W, !WorkerHost W, !Pools W, !ClientLaws W}.

Definition tidies_aside (o : opened (W:=W)) : Prop := preserves aside (snd o).

Lemma deref_aside {A} (o : option A) : preserves aside (deref_or_panic o : M W A).
Proof. unfold deref_or_panic. asiding. Qed.

Lemma newSSHClientConfig_aside c : preserves aside (newSSHClientConfig c).
Proof. unfold newSSHClientConfig. asiding. Qed.

Lemma newGCSClientOptions_aside c : preserves aside (newGCSClientOptions c).
Proof. unfold newGCSClientOptions. asiding. Qed.

#[local] Hint Resolve deref_aside newSSHClientConfig_aside newGCSClientOptions_aside : go.

(** An opener, and what it leaves to be called in the end. *)
Definition opens_aside {A} (m : M W (A * M W unit)) : Prop := preserves aside m /\ yields (fun o => preserves aside (snd o)) m.

Lemma opens_bind {A B} (m : M W A) (k : A -> M W (B * M W unit)) : preserves aside m -> (forall a, opens_aside (k a)) -> opens_aside (bind m k).
Proof. intros Hm Hk. split; [apply preserves_bind; [tc_solve|done|intros a; apply Hk]|apply yields_bind; intros a; apply Hk]. Qed.

Lemma opens_after {A B} (m : M W (A * M W unit)) (k : A * M W unit -> M W (B * M W unit)) :
  opens_aside m -> (forall a, preserves aside (snd a) -> opens_aside (k a)) -> opens_aside (bind m k).
Proof.
  intros [Hm Hy] Hk. split.
  - intros w. unfold bind. specialize (Hm w). destruct (m w) as [[a|e] w1] eqn:E; [|done]. etrans; [exact Hm|]. apply Hk. by eapply Hy.
  - intros w b w' Hrun. apply bind_inv_Ok in Hrun as (a & w1 & Ha & Hrun). eapply Hk; [by eapply Hy|exact Hrun].
Qed.

Lemma opens_ret {A} (a : A) c : preserves aside c -> opens_aside (ret (a, c)).
Proof. intros Hc. split; [apply preserves_ret; tc_solve|by apply yields_ret]. Qed.

Lemma opens_throw {A} e : opens_aside (throw e : M W (A * M W unit)).
Proof. split; [apply preserves_throw; tc_solve|apply yields_throw]. Qed.

Lemma opens_with_cleanup c (m : M W rb) : preserves aside c -> preserves aside m -> opens_aside (with_cleanup c m).
Proof.
  intros Hc Hm. apply opens_bind; [by apply preserves_try|]. intros [b|err]; [by apply opens_ret|]. apply opens_bind; [done|]. intros. apply opens_throw.
Qed.

Lemma openBackend_aside cfg : opens_aside (openBackend cfg).
Proof.
  unfold openBackend, openPosix, openS3, openAzure, openGCS, openSFTP, newS3Client, newGCSClient.
  repeat first [progress intros|progress asiding|apply opens_throw|apply opens_ret|apply opens_with_cleanup
    |match goal with |- opens_aside (bind ?m _) => first [apply opens_after|apply opens_bind; [solve [asiding]|]] end
    |match goal with |- opens_aside (match ?x with _ => _ end) => destruct x end].
Qed.

Lemma open_all_aside cfgs bs cs : Forall (fun c => preserves aside c) cs -> opens_aside (open_all cfgs bs cs).
Proof.
  assert (Hcombined : forall cs, Forall (fun c => preserves aside c) cs -> preserves aside (combined (W:=W) cs)).
  { intros l Hl. unfold combined. apply Forall_rev in Hl. induction Hl as [|c l' Hc _ IH]; cbn [forM]; [apply preserves_ret; tc_solve|].
    apply preserves_bind; [tc_solve|done|]. by intros []. }
  revert bs cs. induction cfgs as [|cfg cfgs IH]; intros bs cs Hcs; cbn [open_all]; [by apply opens_ret, Hcombined|].
  destruct (openBackend_aside cfg) as [Ho Hy]. split.
  - intros w. unfold bind, try. specialize (Ho w). destruct (openBackend cfg w) as [[[b c]|e] w1] eqn:E; cbn [snd] in Ho.
    + etrans; [exact Ho|]. apply IH. apply Forall_app. split; [done|]. apply Forall_singleton. exact (Hy _ _ _ E).
    + etrans; [exact Ho|]. pose proof (Hcombined cs Hcs w1) as Hc. by destruct (combined cs w1) as [[u|e2] w2].
  - intros w o w' Hrun. apply bind_inv_Ok in Hrun as (r & w1 & Ht & Hrun). unfold try in Ht. destruct (openBackend cfg w) as [[[b c]|e] w2] eqn:E; injection Ht as <- <-.
    + refine (proj2 (IH _ _ _) _ _ _ Hrun). apply Forall_app. split; [done|]. apply Forall_singleton. exact (Hy _ _ _ E).
    + by apply bind_inv_Ok in Hrun as (? & ? & _ & [=]).
Qed.

Lemma openBackends_aside cfgs : opens_aside (openBackends cfgs).
Proof. by apply open_all_aside. Qed.

Lemma open_all_length cfgs bs cs w bs' c w' : open_all (W:=W) cfgs bs cs w = (Ok (bs', c), w') -> length bs' = (length bs + length cfgs)%nat.
Proof.
  revert bs cs w. induction cfgs as [|cfg cfgs IH]; intros bs cs w; cbn [open_all]; [intros [= <- _ _]; cbn; lia|]. intros Hrun.
  apply bind_inv_Ok in Hrun as (r & w1 & _ & Hrun). destruct r as [[b c1]|e]; [|by apply bind_inv_Ok in Hrun as (? & ? & _ & [=])].
  rewrite (IH _ _ _ Hrun), length_app. cbn. lia.
Qed.

Lemma Connect_aside dsn : preserves aside (Connect dsn).
Proof. unfold Connect. asiding. Qed.
End opening.

(** ** What a status of 0 means *)

Section done.
Context {W : Type} `{Shell W}.

Lemma or_exit_Done {A} code (m : M W A) k w w' : or_exit code m k w = (Ok Done, w') -> exists a w1, m w = (Ok a, w1) /\ k a w1 = (Ok Done, w').
Proof. unfold or_exit, bind, try. destruct (m w) as [[a|e] w1]; [|done]. by exists a, w1. Qed.

Lemma finally_Done close k (w w' : W) : finally close k w = (Ok Done, w') -> exists w1, k w = (Ok Done, w1) /\ w' = snd (close w1).
Proof.
  unfold finally, bind, try, ret. destruct (k w) as [[o|e] w1]; [|done]. destruct (close w1) as [r w2] eqn:E. intros [= -> <-]. exists w1. by rewrite E.
Qed.

Lemma lock_Done cfg st mode t k (w w' : W) : with_server_lock cfg st mode t k w = (Ok Done, w') -> exists w1 w2,
  lock_Acquire (serverLockPath st (c_Server cfg)) mode t w = (Ok tt, w1) /\ k w1 = (Ok Done, w2) /\
  w' = snd (lock_Release (serverLockPath st (c_Server cfg)) w2).
Proof.
  unfold with_server_lock. intros Hrun. apply or_exit_Done in Hrun as ([] & w1 & Hl & Hrun). exists w1. change (finally (lock_Release (serverLockPath st (c_Server cfg))) k w1 = (Ok Done, w')) in Hrun.
  by apply finally_Done in Hrun as (w2 & Hk & ->); exists w2.
Qed.
End done.

(** The WAL and the locks of the servers. *)
Definition around (q : string) : Prop := wal_key q \/ lock_key q.

Lemma own_not_around id n : own_id id -> valid_key n = true -> ~ around (path_Join [id; n]).
Proof.
  intros Hid Hn. destruct (own_key id n Hid Hn) as (E & _ & Hw). intros [?|[_ Hl]]; [done|]. rewrite E, no_byte_app in Hl. cbn in Hl. by rewrite andb_false_r in Hl.
Qed.

Lemma complete_around {W : Type} `{BackendLaws W, FilterLibs} id opts sysID es (w w' : W) : own_id id -> stream_ok es -> same_outside around w w' ->
  complete_backup id opts sysID es (view w) -> complete_backup id opts sysID es (view w').
Proof.
  intros Hid [Hes _ _] Hq [[(text & files & Hm & Hp) Hst] (records & Hr & Hs)].
  assert (Hown : forall n, valid_key n = true -> view w' !! path_Join [id; n] = view w !! path_Join [id; n]) by (intros n Hn; by apply Hq, own_not_around).
  split; [split; [exists text, files; by rewrite Hown|]|exists records; by rewrite Hown]. rewrite Forall_forall in *. intros e He.
  eapply stored_entry_outside; [exact Hq|by apply own_not_around, Hes|by apply Hst].
Qed.

Section backup.
Context {W : Type} `{DiskLaws W, !Clock W, !ClockLaws W, !Pg W, !PgLaws W, !BaseBackup W, !BaseBackupLaws W, FilterLibs, !Sessions W, !Catalog W, !Minting W, !Dialing W,
  !Clients W, !WorkerHost W, !AgeKeys, !Transport W, !Pools W, !ClientLaws W, !Shell W, !ShellLaws W}.
Context (Now : W -> time) (tees : string -> tee -> move) (collate : list string -> list string) (sched : list FileEntry -> list FileEntry) (late : string -> bool).
Context (version tempDir : string).

Lemma aside_around (w w' : W) : aside w w' -> same_outside around w w'.
Proof. intros [Hv _]. eapply same_outside_mono; [|exact Hv]. intros q ?. by left. Qed.

Lemma lock_around (w w' : W) : same_outside lock_key w w' -> same_outside around w w'.
Proof. apply same_outside_mono. intros q ?. by right. Qed.

Lemma runBackup_Done cfg rq w w' : no_byte "/" (c_Server cfg) = true -> runBackup Now tees collate sched late version tempDir cfg rq w = (Ok Done, w') ->
  exists st ks chain backends w0 r w1, PrimaryStorage cfg = Some st /\
    parseAgeRecipients age_ParseX25519Recipient (en_Recipients (c_Encryption cfg)) = Ok ks /\
    NewChain {| o_Codec := cm_Codec (c_Compression cfg); o_Level := cm_Level (c_Compression cfg); o_Recipients := ks |} = Ok chain /\
    length backends = length (c_Storages cfg) /\ same_outside around w w0 /\
    Run Now tees collate sched late true (rq_Mode rq) (backup_options version tempDir cfg rq chain) backends (parallel_options cfg rq) (worker_options cfg rq st) w0 = (Ok r, w1) /\
    same_outside around w1 w'.
Proof.
  intros Hs. unfold runBackup. destruct (PrimaryStorage cfg) as [st|]; [|done]. intros Hrun. apply lock_Done in Hrun as (w1 & w2 & Hl & Hrun & ->).
  pose proof (lock_outside st (c_Server cfg) Exclusive (rq_LockTimeout rq) Hs w) as Hlo. rewrite Hl in Hlo. cbn [snd] in Hlo.
  apply or_exit_Done in Hrun as (pool & w3 & Hp & Hrun). apply finally_Done in Hrun as (w4 & Hrun & ->).
  apply or_exit_Done in Hrun as (cluster & w5 & Hc & Hrun). apply finally_Done in Hrun as (w6 & Hrun & ->).
  apply or_exit_Done in Hrun as ([backends cleanup] & w7 & Ho & Hrun). apply finally_Done in Hrun as (w8 & Hrun & ->). unfold run_with in Hrun.
  destruct (parseAgeRecipients _ _) as [ks|] eqn:Hks; [|done]. destruct (NewChain _) as [chain|] eqn:Hch; [|done].
  pose proof (open_all_length _ _ _ _ _ _ _ Ho) as Hlen. destruct backends as [|b backends]; [done|]. apply or_exit_Done in Hrun as (r & w9 & Hr & Hrun). injection Hrun as ->.
  rewrite the_storage in Hr. exists st, ks, chain, (map rb_Backend (b :: backends)), w7, r, w8. split_and!; try done.
  - by rewrite length_map.
  - etrans; [apply lock_around, Hlo|]. apply aside_around. pose proof (Connect_aside (pg_ConnString (c_PG cfg)) w1) as Ha1. rewrite Hp in Ha1.
    pose proof (Connect_aside (pg_ConnString (c_PG cfg)) w3) as Ha2. rewrite Hc in Ha2.
    pose proof (proj1 (openBackends_aside (c_Storages cfg)) w5) as Ha3. rewrite Ho in Ha3. etrans; [exact Ha1|]. etrans; [exact Ha2|exact Ha3].
  - etrans; [|apply lock_around, (unlock_outside st (c_Server cfg) Hs)]. apply aside_around.
    etrans; [exact (proj2 (openBackends_aside (c_Storages cfg)) _ _ _ Ho w8)|]. etrans; [apply pool_close_aside|apply pool_close_aside].
Qed.
End backup.

(** ** The options a configuration gives *)

Lemma NewChain_codec `{FilterLibs} c chain : NewChain c = Ok chain -> codec_Name (ch_codec chain) = o_Codec c /\ ch_recipients chain = o_Recipients c /\ ch_level chain = o_Level c.
Proof.
  unfold NewChain. destruct (_ =? 0)%nat; [done|]. destruct (compression_Get (o_Codec c)) as [codec|] eqn:Ec; [|done]. intros [= <-]. split; [|done]. cbn.
  unfold compression_Get in Ec. repeat match type of Ec with (if String.eqb ?a ?b then _ else _) = _ => destruct (String.eqb_spec a b) as [->|] end; try discriminate Ec; by injection Ec as <-.
Qed.

Lemma codec_plain `{FilterLibs} c chain : NewChain c = Ok chain -> codecFromString (o_Codec c +:+ ":" +:+ FormatD (o_Level c)) = o_Codec c.
Proof. intros [<- _]%NewChain_codec. by destruct (ch_codec chain). Qed.

Section restore_cmd.
Context {W : Type} `{DiskLaws W, !Clock W, !Pg W, FilterLibs, !Minting W, !Dialing W, !Clients W, !WorkerHost W, !AgeKeys, !Pools W, !ClientLaws W, !Shell W}.

Lemma LoadIdentityFile_Ok path (w : W) ids w' : LoadIdentityFile path w = (Ok ids, w') ->
  aside w w' /\ exists text, host_files w !! path = Some text /\ age_ParseIdentities text = Ok ids.
Proof.
  unfold LoadIdentityFile. intros Hrun. apply bind_inv_Ok in Hrun as (text & w1 & Hr%wrapping_inv_Ok & Hrun).
  pose proof (read_aside path w) as Ha. rewrite Hr in Ha. destruct (read_file_spec path w) as (_ & _ & Hok). specialize (Hok _ _ Hr).
  apply bind_inv_Ok in Hrun as (l & w2 & Hp & Hrun). unfold of_result in Hp. destruct (age_ParseIdentities text) as [l'|] eqn:Et; [|done]. injection Hp as <- <-.
  destruct (_ =? 0)%nat; [done|]. injection Hrun as <- <-. split; [done|]. by exists text.
Qed.

Lemma runRestore_Done sched cfg fl (w w' : W) : runRestore sched cfg fl w = (Ok Done, w') -> exists text ids opts w0 r w1,
  host_files w !! rx_identity_file fl = Some text /\ age_ParseIdentities text = Ok ids /\ buildRestoreOptions fl ids = Ok opts /\ aside w w0 /\
  Restore.Run sched opts w0 = (Ok r, w1) /\ aside w1 w'.
Proof.
  unfold runRestore, with_primary, with_opened. destruct (PrimaryStorage cfg) as [st|]; [|done]. intros Hrun. apply or_exit_Done in Hrun as ([b cleanup] & w1 & Ho & Hrun).
  pose proof (proj1 (openBackend_aside st) w) as Ha. rewrite Ho in Ha. pose proof (proj2 (openBackend_aside st) _ _ _ Ho) as Hc.
  apply finally_Done in Hrun as (w2 & Hrun & ->). apply or_exit_Done in Hrun as (ids & w3 & Hids & Hrun). destruct (LoadIdentityFile_Ok _ _ _ _ Hids) as (Ha2 & text & Ht & Hp).
  destruct (buildRestoreOptions fl ids) as [opts|] eqn:Hopts; [|done]. apply or_exit_Done in Hrun as (r & w4 & Hr & Hrun). injection Hrun as ->.
  rewrite the_storage in Hr. exists text, ids, opts, w3, r, w2. cbn [snd] in Ha. split_and!; [|done|done|by etrans|done|apply Hc]. destruct Ha as [_ <-]. exact Ht.
Qed.

Lemma buildRestoreOptions_Ok fl ids opts : buildRestoreOptions fl ids = Ok opts -> ro_Target opts = rx_target fl /\ ro_Identities opts = ids /\
  ro_BackupID opts = rx_backup_id fl /\ (rx_tablespaces fl = [] -> ro_TablespaceRemap opts = ∅) /\
  given (ro_TargetTime opts) + given (ro_TargetXID opts) + given (ro_TargetLSN opts) + (if String.eqb (ro_TargetName opts) "" then 0 else 1) <= 1.
Proof.
  unfold buildRestoreOptions. destruct (tablespace_remap ∅ (rx_tablespaces fl)) as [m|] eqn:Em; [|done]. cbn [and_then].
  destruct (parse_target _ _ (rx_target_time fl)) as [t|]; [|done]. cbn [and_then]. destruct (parse_target _ _ (rx_target_xid fl)) as [x|]; [|done]. cbn [and_then].
  destruct (parse_target _ _ (rx_target_lsn fl)) as [l|]; [|done]. cbn [and_then]. destruct (Z.ltb_spec 1 (given t + given x + given l + if String.eqb (rx_target_name fl) "" then 0 else 1)) as [|Hle]; [done|].
  intros [= <-]. cbn. split_and!; try done. intros E. rewrite E in Em. by injection Em.
Qed.
End restore_cmd.

Lemma span_digits s : sall is_digit s = true -> span is_digit s = (s, "").
Proof. induction s as [|c s IH]; [done|]. cbn [sall span]. intros [-> Hs]%andb_true_iff. by rewrite IH. Qed.

Lemma Sscanf_d_FormatD n : 0 <= n < 2 ^ 63 -> Sscanf_d (FormatD n) = n.
Proof.
  intros Hn. destruct (FormatD_digits n) as (c & d & -> & Hd & _ & Hv); [lia|]. unfold Sscanf_d.
  pose proof Hd as Hd'. cbn [sall] in Hd'. apply andb_true_iff in Hd' as [Hc _]. unfold is_digit in Hc. apply andb_true_iff in Hc as [Hlo%Z.leb_le Hhi%Z.leb_le].
  assert (Hb : is_blank c = false) by (unfold is_blank; repeat (apply orb_false_iff; split); lia).
  assert (Hne : forall x, byte_val x < 48 -> Ascii.eqb c x = false) by (intros x Hx; apply Ascii.eqb_neq; intros ->; lia).
  cbn [skip_blanks]. rewrite Hb. rewrite (Hne "-"%char), (Hne "+"%char) by (vm_compute; reflexivity). rewrite span_digits by done. cbn [fst]. rewrite Hv.
  destruct (Z.ltb_spec n (- 2 ^ 63)); [lia|]. destruct (Z.leb_spec (2 ^ 63) n); [lia|done].
Qed.

Lemma level_plain `{FilterLibs} c chain : NewChain c = Ok chain -> 0 <= o_Level c < 2 ^ 63 -> levelFromString (o_Codec c +:+ ":" +:+ FormatD (o_Level c)) = o_Level c.
Proof.
  intros [<- _]%NewChain_codec Hl. assert (E : forall codec, levelFromString (codec_Name codec +:+ ":" +:+ FormatD (o_Level c)) =
    if String.eqb (FormatD (o_Level c)) "" then 0 else Sscanf_d (FormatD (o_Level c))) by (by intros []).
  rewrite E, Sscanf_d_FormatD by done. destruct (FormatD_digits (o_Level c)) as (x & d & -> & _); [lia|done].
Qed.

Lemma parseRecipients_same `{FilterLibs, !AgeKeys} l ks : parseAgeRecipients age_ParseX25519Recipient l = Ok ks -> parseRecipients l = Ok ks.
Proof.
  revert ks. induction l as [|s l IH]; intros ks; cbn [parseAgeRecipients parseRecipients]; [done|].
  destruct (age_ParseX25519Recipient s) as [k|]; [|done]. destruct (parseAgeRecipients _ l) as [out|]; [|done]. intros [= <-]. by rewrite (IH out eq_refl).
Qed.

(** The chain of a backup, what its sidecar says of it and the chain a worker or a restore makes of that are the same. *)
Lemma backup_options_chain `{FilterLibs, !AgeKeys} version tempDir cfg rq ks chain :
  parseAgeRecipients age_ParseX25519Recipient (en_Recipients (c_Encryption cfg)) = Ok ks ->
  NewChain {| o_Codec := cm_Codec (c_Compression cfg); o_Level := cm_Level (c_Compression cfg); o_Recipients := ks |} = Ok chain ->
  let opts := backup_options version tempDir cfg rq chain in
  codecFromString (bo_Compression opts) = codec_Name (ch_codec (bo_Filter opts)) /\ (0 <= cm_Level (c_Compression cfg) < 2 ^ 63 -> same_chain opts).
Proof.
  intros Hks Hch opts. pose proof (NewChain_codec _ _ Hch) as (Hname & _). split; [exact (eq_trans (codec_plain _ _ Hch) (eq_sym Hname))|].
  intros Hl rcpts chain2 Hr. apply parseRecipients_same in Hks. change (bo_Recipients opts) with (en_Recipients (c_Encryption cfg)) in Hr. rewrite Hks in Hr. injection Hr as <-.
  rewrite (codec_plain _ _ Hch : codecFromString (bo_Compression opts) = _), (level_plain _ _ Hch Hl : levelFromString (bo_Compression opts) = _).
  cbn [o_Codec o_Level]. rewrite Hch. by intros [= <-].
Qed.

(** ** From the cluster to the restored cluster *)

Lemma backup_request_full cfg bf rq : backup_request cfg bf = inl rq -> bf_type bf = "full" -> rq_Type rq = TypeFull /\ rq_Parent rq = "" /\ rq_NoResume rq = bf_no_resume bf.
Proof.
  unfold backup_request. destruct (resolveSSHReach _ _ cfg) as [target extra]. destruct (shellSplit extra) as [args|e]; [|done]. destruct (shellSplit (default "" (bf_remote_command bf))) as [cmd|e]; [|done]. destruct (_ && _); [done|].
  destruct (standalone_source _ _ _); [|done]. intros Hrq Hty. rewrite Hty in Hrq. cbn in Hrq. destruct (negb _); [done|]. by injection Hrq as <-.
Qed.

Section fresh.
Context {W : Type} `{BackendLaws W, !Clock W, !Pg W, FilterLibs}.

(** Without a resumption the backup is a new one. *)
Lemma runSimple_prepares `{!Host W, !Disk W, !BaseBackup W} Now opts (w : W) res w' : runSimple Now opts w = (Ok res, w') ->
  exists cid id plan w1, prepare_backup Now opts (Now w) w = (Ok (cid, id, plan), w1).
Proof.
  unfold runSimple. intros Hrun. apply bind_inv_Ok in Hrun as (t & w1 & Ht & Hrun). injection Ht as <- <-.
  apply bind_inv_Ok in Hrun as ([[cid id] plan] & w2 & Hp & _). by exists cid, id, plan, w2.
Qed.

Lemma prepare_no_resume Now opts startedAt (w : W) cid id plan w' : bo_ResumeDisabled opts = true ->
  prepare_backup Now opts startedAt w = (Ok (cid, id, plan), w') -> plan = None /\ exists v v', pg_identity v = (Ok cid, v').
Proof.
  intros Hr Hrun. unfold prepare_backup in Hrun. apply bind_inv_Ok in Hrun as (bid & w1 & _ & Hrun). apply bind_inv_Ok in Hrun as (u & w2 & _ & Hrun).
  apply bind_inv_Ok in Hrun as (c & w3 & Hid%wrapping_inv_Ok & Hrun). apply bind_inv_Ok in Hrun as (u2 & w4 & _ & Hrun). apply bind_inv_Ok in Hrun as (u3 & w5 & _ & Hrun).
  unfold tryResume, resume_of in Hrun. cbn [ro_ResumeDisabled] in Hrun. rewrite Hr in Hrun. unfold bind, try, ret in Hrun. injection Hrun as <- <- <- <-.
  split; [done|]. by exists w2, w3.
Qed.
End fresh.

Lemma strings_ok `{FilterLibs} version tempDir d cfg rq ks chain : valid_strings (c_Server cfg :: en_Recipients (c_Encryption cfg)) -> rq_Parent rq = "" ->
  NewChain {| o_Codec := cm_Codec (c_Compression cfg); o_Level := cm_Level (c_Compression cfg); o_Recipients := ks |} = Ok chain ->
  options_ok (set_walTimeout d (backup_options version tempDir cfg rq chain)).
Proof.
  intros [Hs Hr]%Forall_cons Hp Hch. unfold options_ok, valid_strings. cbn [bo_Server bo_Compression bo_ParentBackupID bo_Recipients set_walTimeout backup_options app].
  rewrite Hp. apply Forall_cons. split; [done|]. apply Forall_cons. split; [|apply Forall_cons; by split]. pose proof (NewChain_codec _ _ Hch) as [E _]. cbn [o_Codec] in E.
  unfold compression_string. rewrite <- E. apply plain_utf8.
  rewrite !sall_app, FormatD_plain. by destruct (ch_codec chain).
Qed.

Section simple.
Context {W : Type} `{DiskLaws W, !Clock W, !ClockLaws W, !Pg W, !PgLaws W, !BaseBackup W, !BaseBackupLaws W, FilterLibs, !Sessions W, !Catalog W, !Minting W, !Dialing W,
  !WorkerHost W, !AgeKeys, !Transport W}.
Context (Now : W -> time) (tees : string -> tee -> move) (collate : list string -> list string) (sched : list FileEntry -> list FileEntry) (late : string -> bool).

(** What a full run of [Run] in simple mode leaves in the one storage. *)
Lemma simple_run cfg rq chain backends version tempDir rp wk (w0 : W) r w1 :
  rq_Type rq = TypeFull -> rq_NoResume rq = true -> rq_Mode rq = ModeSimple -> (length backends <= 1)%nat ->
  (forall (v : W) cid v', pg_identity v = (Ok cid, v') -> is_u64 (id_SystemIdentifier cid)) ->
  Run Now tees collate sched late true (rq_Mode rq) (backup_options version tempDir cfg rq chain) backends rp wk w0 = (Ok r, w1) ->
  exists id es wp wc, own_id id /\ stream_ok es /\ bb_Start "" (if String.eqb (rq_WALSource rq) WALSourceStream then "fetch" else "") wp = (Ok (es, None), wc) /\
    exists sysID, is_u64 sysID /\
      complete_backup id (set_walTimeout (walTimeout_or_default (bc_ArchiveTimeout (c_Backup cfg))) (backup_options version tempDir cfg rq chain)) sysID es (view w1).
Proof.
  intros Hty Hnr Hmode Hlen Hsys Hr. unfold Run in Hr. rewrite Hmode in Hr. cbn [negb] in Hr. destruct (walSource_error _ _); [done|].
  change (String.eqb (mode_or_default ModeSimple) ModeSimple) with true in Hr. unfold runSimple_all in Hr.
  destruct (Nat.ltb_spec 1 (length backends)) as [|_]; [lia|]. apply bind_inv_Ok in Hr as (res & w2 & Hr & Hret). injection Hret as _ <-.
  cbn [bo_WALTimeout backup_options] in Hr. set (opts := set_walTimeout _ _) in *.
  destruct (runSimple_prepares Now opts w0 res w2 Hr) as (cid & id & plan & wp & Hp).
  destruct (prepare_no_resume Now opts (Now w0) w0 cid id plan wp) as (-> & v & v' & Hcid); [cbn; by rewrite Hnr|done|].
  assert (Hfull : String.eqb (bo_Type opts) TypeIncremental = false) by (cbn; by rewrite Hty).
  destruct (runSimple_spec Now opts w0 cid id wp (Ok res) w2 Hfull Hp Hr) as [Hid [[_ ?]|(es & wc & Hs & Hstream & Hc & _)]]; [done|].
  exists id, es, wp, wc. split_and!; [done|done|exact Hs|]. exists (id_SystemIdentifier cid). split; [by eapply Hsys|done].
Qed.
End simple.


(** ** Statuses and refusals *)

(** A source of WAL that the mode does not have ends the run before anything is touched. *)
Lemma Run_refuses {W : Type} `{Backend W, Host W, Disk W, Clock W, Pg W, BaseBackup W, FilterLibs, Sessions W, Catalog W, Minting W, Dialing W, WorkerHost W, !AgeKeys, Transport W}
    Now tees collate sched late mode opts backends rp wk (w : W) err :
  walSource_error (mode_or_default mode) (bo_WALSource opts) = Some err ->
  Run Now tees collate sched late true mode opts backends rp wk w = (Fail err, w).
Proof. intros He. unfold Run. cbn [negb bo_WALSource set_walTimeout]. by rewrite He. Qed.

(** With several workers [--standalone] makes a request that the run refuses. *)
Lemma standalone_parallel_refused cfg bf : pg_Host (c_PG cfg) = "" -> pg_SSHExtraArgs (c_PG cfg) = "" ->
  bf_ssh_target bf = None -> bf_ssh_extra_args bf = None -> bf_remote_command bf = None -> bf_direct_write bf = None -> bf_confirm_proxy bf = None ->
  bf_workers bf = Some 2 -> bf_standalone bf = true -> bf_wal_source bf = "" -> bf_type bf = "full" -> bf_parent bf = "" ->
  exists rq err, backup_request cfg bf = inl rq /\ walSource_error (mode_or_default (rq_Mode rq)) (rq_WALSource rq) = Some err /\ backup_exit err = 1.
Proof.
  intros Hh Ha E1 E2 E3 E4 E5 E6 E7 E8 E9 E10. unfold backup_request, resolveSSHReach. rewrite Hh, Ha, E1, E2, E3, E4, E5, E6, E7, E8, E9, E10. cbn.
  by eexists _, _.
Qed.

(** A source that does not exist is only refused by the run, with status 1. *)
Lemma unknown_source_refused mode s : s ∉ [""; "archive"; "stream"; "walgrab"] -> exists err, walSource_error mode s = Some err /\ backup_exit err = 1.
Proof.
  intros Hs. unfold walSource_error, WALSourceArchive, WALSourceStream, WALSourceWalgrab.
  repeat match goal with |- context [String.eqb s ?x] => destruct (String.eqb_spec s x) as [->|]; [exfalso; apply Hs; repeat constructor|] end. by eexists.
Qed.

(** What follows the digits of a transaction ID or of the OID of a tablespace is dropped. *)
Lemma trailing_text_accepted : Sscanf_u64 "742x" = Some 742 /\ tablespace_remap ∅ ["16384_old=/ts"] = Ok {[16384 := "/ts"]}.
Proof. split; vm_compute; reflexivity. Qed.

(** An action that does not exist makes options, which the run refuses. *)
Lemma unknown_action_accepted `{FilterLibs} fl ids : rx_tablespaces fl = [] -> rx_target_time fl = "" -> rx_target_xid fl = "" -> rx_target_lsn fl = "" ->
  rx_target_name fl = "" -> rx_target_action fl = "explode" -> exists opts, buildRestoreOptions fl ids = Ok opts /\ isOk (validatePITRExclusive opts) = false.
Proof.
  intros E1 E2 E3 E4 E5 E6. unfold buildRestoreOptions, parse_target. rewrite E1, E2, E3, E4, E5. cbn. eexists. split; [done|].
  unfold validatePITRExclusive. cbn. by rewrite E6.
Qed.

Section reading.
Context {W : Type} `{BackendLaws W, !Host W, !HostLaws W, !Disk W, !Clock W, !ClockLaws W, !Pg W, !PgLaws W, FilterLibs, !Minting W, !Dialing W, !Clients W, !WorkerHost W,
  !AgeKeys, !Pools W, !ClientLaws W, !Shell W, !ShellLaws W}.

Definition keeps_backups {A} (m : M W A) : Prop := preserves (same_outside around) m.

Lemma aside_keeps {A} (m : M W A) : preserves aside m -> keeps_backups m.
Proof. intros Hm w. apply aside_around, Hm. Qed.

Lemma or_exit_keeps {A} code (m : M W A) k : keeps_backups m -> (forall a, keeps_backups (k a)) -> keeps_backups (or_exit code m k).
Proof.
  intros Hm Hk. apply preserves_bind; [tc_solve|by apply preserves_try|]. intros [a|e]; [apply Hk|apply preserves_ret; tc_solve].
Qed.

Lemma with_opened_keeps st k : (forall b, keeps_backups (k b)) -> keeps_backups (with_opened st k).
Proof.
  intros Hk w. unfold with_opened, or_exit, bind, try. pose proof (aside_around _ _ (proj1 (openBackend_aside st) w)) as Ho.
  pose proof (proj2 (openBackend_aside st) w) as Hc. destruct (openBackend st w) as [[[b c]|e] w1]; cbn [snd] in *; [|exact Ho].
  specialize (Hc _ _ eq_refl). cbn [snd] in Hc. unfold finally, bind, try. specialize (Hk b w1). destruct (k b w1) as [[o|e] w2]; cbn [snd] in *; [|by etrans].
  pose proof (aside_around _ _ (Hc w2)) as Hc2. destruct (c w2) as [r w3]. cbn [snd] in *. etrans; [exact Ho|]. by etrans.
Qed.

Lemma locked_keeps cfg st mode t k : no_byte "/" (c_Server cfg) = true -> keeps_backups k -> keeps_backups (with_server_lock cfg st mode t k).
Proof.
  intros Hs Hk. apply or_exit_keeps; [intros w; apply lock_around, (lock_outside st (c_Server cfg) mode t Hs)|]. intros _.
  apply preserves_bind; [tc_solve|done|]. intros o. apply preserves_bind; [tc_solve| |intros; apply preserves_ret; tc_solve].
  apply preserves_try. intros w. apply lock_around, (unlock_outside st (c_Server cfg) Hs).
Qed.

(** [info] leaves every backup alone. *)
Lemma runInfo_keeps print cfg serverFilter t : no_byte "/" (c_Server cfg) = true -> (forall rs ws, preserves aside (print rs ws)) ->
  keeps_backups (runInfo print cfg serverFilter t).
Proof.
  intros Hs Hp. unfold runInfo, with_primary. destruct (PrimaryStorage cfg) as [st|]; [|apply preserves_throw; tc_solve]. apply locked_keeps; [done|].
  apply with_opened_keeps. intros b. rewrite the_storage. apply or_exit_keeps.
  - intros w. destruct (Info.List w) as [r w1] eqn:E. apply List_spec in E as [Hv _]. intros q _. cbn. by rewrite Hv.
  - intros [rs ws]. apply preserves_bind; [tc_solve|by apply preserves_try, aside_keeps|]. intros. apply preserves_ret; tc_solve.
Qed.
End reading.

(** ** A small cluster and its commands *)

#[local] Instance cmd_basebackup : BaseBackup world := { bb_Start _ _ := ret (sample_stream, None); bb_Close := ret tt }.

#[local] Instance cmd_basebackup_laws : BaseBackupLaws world.
Proof.
  split; [intros; apply preserves_ret; tc_solve|apply preserves_ret; tc_solve|].
  intros wal w es err w' [= <- _ _]. apply sample_stream_ok.
Qed.

#[local] Instance cmd_clients : Clients world := {
  awss3_NewFromConfig _ _ := tt : S3Client; AzureService := unit; azblob_NewClientFromConnectionString _ := Ok tt;
  azblob_NewClientWithSharedKeyCredential _ _ := Ok tt; azblob_NewServiceWithNoCredential _ := Ok tt; azblob_NewContainerClient _ _ := tt : AzureClient;
  gcsstorage_NewClient _ := throw (errors_New "no cloud"); ssh_DialTCP _ _ := ret (tt : SSHConn) }.

#[local] Instance cmd_pools : Pools world := {
  Pool := unit; pgxpool_ParseConfig dsn := Ok {| pc_DSN := dsn; pc_RuntimeParams := ∅; pc_TLSConfig := true; pc_ConnectTimeout := 0 |};
  pgxpool_NewWithConfig _ := ret tt; pool_Ping _ := ret tt; pool_Close _ := ret tt }.

#[local] Instance cmd_client_laws : ClientLaws world.
Proof. split; intros; try reflexivity; intros w; by split. Qed.

Definition cmd_flags : Flags := {|
  fl_server := "main"; fl_pg_conn_string := "postgres://"; fl_pg_version := 17; fl_pg_host := ""; fl_storage_type := ""; fl_storage_path := "/srv/pgsafe";
  fl_recipients := ["age1"]; fl_codec := "zstd"; fl_level := 3; fl_log_level := ""; fl_log_format := "" |}.

Definition cmd_backup_flags : BackupFlags := {|
  bf_type := "full"; bf_parent := ""; bf_lock_timeout := 0; bf_ssh_target := None; bf_ssh_extra_args := None; bf_remote_command := None; bf_workers := None;
  bf_direct_write := None; bf_confirm_proxy := None; bf_wal_source := ""; bf_standalone := false; bf_no_resume := true |}.

Definition cmd_restore_flags : RestoreFlags := {|
  rx_target := "/data"; rx_identity_file := "/key"; rx_backup_id := "20260401T100000F"; rx_standby := None; rx_restore_command := "cp /wal/%f %p";
  rx_tablespaces := []; rx_target_time := ""; rx_target_xid := ""; rx_target_lsn := ""; rx_target_name := ""; rx_target_action := "" |}.

Definition no_yaml (text : string) : result Config := Fail (errors_New "yaml").
Definition cmd_config : Config := Eval vm_compute in
  match resolveConfig (age_ParseX25519Recipient (H:=framing_libs)) no_yaml None cmd_flags with inl cfg => cfg | inr _ => sample_config end.
Definition cmd_request : BackupRequest := Eval vm_compute in
  match backup_request cmd_config cmd_backup_flags with inl rq => rq | inr _ => Build_BackupRequest "" "" 0 "" "" [] [] 0 false false "" false false end.

Definition cmd_world : world := set_host {["/key" := "AGE-SECRET-KEY-1"]} backup_world.
Definition cmd_backup : M world outcome :=
  backupCmd (H4:=framing_libs) backup_now (fun _ _ => MCaller true) id id (fun _ => false) "1" "/tmp" no_yaml None cmd_flags cmd_backup_flags.
Definition cmd_after : world := snd (cmd_backup cmd_world).
Definition cmd_restore : M world outcome := restoreCmd (H3:=framing_libs) id cmd_config cmd_restore_flags.
Definition cmd_restored : world := snd (cmd_restore cmd_after).

Lemma cmd_backup_runs : cmd_backup cmd_world = (Ok Done, cmd_after).
Proof. refine (run_eq cmd_backup cmd_world (Ok Done) _). vm_compute. reflexivity. Qed.
Lemma cmd_restore_runs : cmd_restore cmd_after = (Ok Done, cmd_restored).
Proof. refine (run_eq cmd_restore cmd_after (Ok Done) _). vm_compute. reflexivity. Qed.

Lemma cmd_resolves : resolveConfig (age_ParseX25519Recipient (H:=framing_libs)) no_yaml None cmd_flags = inl cmd_config.
Proof. vm_compute. reflexivity. Qed.
Lemma cmd_requested : backup_request cmd_config cmd_backup_flags = inl cmd_request.
Proof. vm_compute. reflexivity. Qed.
Lemma cmd_identity (v : world) cid v' : pg_identity v = (Ok cid, v') -> is_u64 (id_SystemIdentifier cid).
Proof. intros [= <- _]. unfold is_u64. cbn. lia. Qed.
Lemma cmd_key : host_files cmd_after !! "/key" = Some "AGE-SECRET-KEY-1".
Proof. vm_compute. reflexivity. Qed.
Lemma cmd_start m wal (w : world) es err w' : bb_Start m wal w = (Ok (es, err), w') -> es = sample_stream.
Proof. by intros [= <- _ _]. Qed.
Lemma cmd_strings : valid_strings ["main"; "age1"].
Proof. repeat constructor. Qed.

Definition cmd_keys : list string := (map_to_list (view cmd_after)).*1.

Lemma cmd_one_manifest : forallb (fun k => negb (HasSuffix k "/backup_manifest") || String.eqb k "20260401T100000F/backup_manifest") cmd_keys = true.
Proof. vm_compute. reflexivity. Qed.

Lemma cmd_only_backup id : own_id id -> is_Some (view cmd_after !! path_Join [id; "backup_manifest"]) -> id = "20260401T100000F".
Proof.
  intros Hid [text Ht]. destruct (own_key id "backup_manifest" Hid eq_refl) as (E & _). rewrite E in Ht.
  assert (Hin : id +:+ "/backup_manifest" ∈ cmd_keys) by (apply list_elem_of_fmap; exists (id +:+ "/backup_manifest", text); split; [done|by apply elem_of_map_to_list]).
  pose proof cmd_one_manifest as Hall. rewrite forallb_forall in Hall. specialize (Hall _ (proj1 (list_elem_of_In _ _) Hin)).
  rewrite HasSuffix_app in Hall. cbn [negb orb] in Hall. apply String.eqb_eq in Hall. 
  pose proof (f_equal slen Hall) as Hl. rewrite slen_app in Hl. apply (sapp_inj_len id "/backup_manifest" "20260401T100000F" "/backup_manifest"); [|exact Hall].
  change (slen "20260401T100000F") with 16%nat. change (slen "/backup_manifest") with 16%nat in Hl. change (slen "20260401T100000F/backup_manifest") with 32%nat in Hl. lia.
Qed.

