(* ===== verification/Printing.v ===== *)
(** * The listing as it is printed

    [internal/info/format.go]: the table of [pgsafe info], with the [text/tabwriter] it goes through, and its JSON
    for monitoring, which reads back. *)

From S2P Require Import Prelude Lsn Storage Host Time Json JsonSpec Manifest ManifestSpec Creds Info Check Filter Verify.

(** ** [text/tabwriter]

    A writer with no minimal width, a padding of two blanks and no flags. The byte 0xFF, which no
    text has, would start an escape and is left out. *)

Definition is_tab (c : ascii) : bool := Ascii.eqb c "009" || Ascii.eqb c "011".
Definition is_eol (c : ascii) : bool := Ascii.eqb c "010".
Definition is_flush (c : ascii) : bool := Ascii.eqb c "012".

Fixpoint split_at (p : ascii -> bool) (s : string) : list string :=
  match s with
  | "" => [""]
  | String c t =>
      if p c then "" :: split_at p t
      else match split_at p t with [] => [String c ""] | h :: r => String c h :: r end
  end.

(** [utf8.RuneCount]; [skip] bytes of the current rune are still to come. *)
Fixpoint rune_count (skip : nat) (s : string) : nat :=
  match s with
  | "" => 0
  | String c t => match skip with S k => rune_count k t | O => S (rune_count (pred (rune_width s)) t) end
  end.

(** A line is its cells, the last one without a tab after it. *)
Definition has_cell (column : nat) (line : list string) : bool := (column <? length line - 1)%nat.

Definition cell_width (column : nat) (line : list string) : nat := rune_count 0 (nth column line "") + 2.

Definition column_width (column : nat) (lines : list (list string)) : nat :=
  foldr (fun line w => Nat.max (cell_width column line) w) 0%nat lines.

Definition pad (w : nat) (s : string) : string := s +:+ repeat_byte (w - rune_count 0 s) " ".

(** [writeLines], for one line. *)
Fixpoint write_line (widths : list nat) (line : list string) : string :=
  match line, widths with
  | [], _ => ""
  | c :: line, [] => c +:+ write_line [] line
  | c :: line, w :: widths => pad w c +:+ write_line widths line
  end.

(** The blocks of lines that have, or do not have, a cell in a column. *)
Fixpoint runs {A} (p : A -> bool) (l : list A) : list (bool * list A) :=
  match l with
  | [] => []
  | x :: l =>
      match runs p l with
      | (b, r) :: rs => if Bool.eqb b (p x) then (b, x :: r) :: rs else (p x, [x]) :: (b, r) :: rs
      | [] => [(p x, [x])]
      end
  end.

(** [format]: the column that follows those of [widths], and the columns right of it; the fuel is the
    number of columns there may be. *)
Fixpoint format (fuel : nat) (widths : list nat) (lines : list (list string)) : list string :=
  match fuel with
  | O => map (write_line widths) lines
  | S fuel =>
      let column := length widths in
      flat_map (fun '(cell, block) =>
        if (cell : bool) then format fuel (widths ++ [column_width column block]) block else map (write_line widths) block)
        (runs (has_cell column) lines)
  end.

Definition lines_of (s : string) : list (list string) := map (split_at is_tab) (split_at is_eol s).

Definition column_count (lines : list (list string)) : nat := foldr (fun line n => Nat.max (length line) n) 0%nat lines.

(** What is written of a text up to the last [Flush]; a form feed flushes too. *)
Definition tabwriter (s : string) : string :=
  Join (map (fun part => Join (format (column_count (lines_of part)) [] (lines_of part)) nl) (split_at is_flush s)) nl.

(** ** The table *)

Definition tab_text : string := String "009" "".

Definition table_header : list string := ["ID"; "TYPE"; "PARENT"; "SERVER"; "SIZE"; "FILES"; "AGE"; "ANNOTATION"].

(** The cells of a record. *)
Definition record_row (now : time) (r : BackupRecord) : list string :=
  [r_BackupID r; r_Type r; if String.eqb (r_ParentBackupID r) "" then "-" else r_ParentBackupID r; r_Server r;
   humanBytes (r_Bytes r); FormatD (r_Files r); humanAge (Age now r); r_Annotation r].

Definition row_text (cells : list string) : string := Join cells tab_text +:+ nl.

(** [FormatTable]; [now] is what [time.Since] reads. *)
Definition FormatTable (now : time) (records : list BackupRecord) (warnings : list Warning) : string :=
  if (length records =? 0)%nat && (length warnings =? 0)%nat then "(no backups)" +:+ nl
  else
    tabwriter (row_text table_header +:+ Join (map (fun r => row_text (record_row now r)) records) "") +:+
    Join (map (fun wn => Warning_String wn +:+ nl) warnings) "".

(** ** The JSON *)

Definition record_json (r : BackupRecord) : option json :=
  let? st := time_json (r_StartTime r) in
  let? et := time_json (r_StopTime r) in
  Some (Obj ([("backup_id", Str (r_BackupID r)); ("type", Str (r_Type r))] ++
             omitempty (String.eqb (r_ParentBackupID r) "") "parent_backup_id" (Str (r_ParentBackupID r)) ++
             [("server", Str (r_Server r))] ++
             omitempty (String.eqb (r_Compression r) "") "compression" (Str (r_Compression r)) ++
             omitempty (match r_Recipients r with [] => true | _ => false end) "encryption_recipients" (slice_json Str (r_Recipients r)) ++
             omitempty (String.eqb (r_Annotation r) "") "annotation" (Str (r_Annotation r)) ++
             omitempty (String.eqb (r_StartLSN r) "") "start_lsn" (Str (r_StartLSN r)) ++
             omitempty (String.eqb (r_StopLSN r) "") "stop_lsn" (Str (r_StopLSN r)) ++
             omitempty (r_Timeline r =? 0) "timeline" (int_json (r_Timeline r)) ++
             [("start_time", st); ("stop_time", et)] ++
             omitempty (r_Files r =? 0) "files" (int_json (r_Files r)) ++
             omitempty (r_Bytes r =? 0) "bytes" (int_json (r_Bytes r)))).

Definition warning_json (wn : Warning) : json :=
  Obj [("backup_id", Str (wn_BackupID wn)); ("error", Str (err_msg (wn_Err wn)))].

(** [FormatJSON] *)
Definition FormatJSON (records : list BackupRecord) (warnings : list Warning) : result string :=
  match mapM record_json records with
  | Some rs => Ok (MarshalIndent 0 (Obj [("backups", Arr rs); ("warnings", Arr (map warning_json warnings))]) +:+ nl)
  | None => Fail (errors_New "json: error calling MarshalJSON for type time.Time")
  end.

(** ** The result of a verification: [printVerifyTable] *)

Definition mismatch_line (m : Mismatch) : string :=
  "  - " +:+ m_Path m +:+ ": " +:+ m_Reason m +:+ " (expected=" +:+ m_Expected m +:+ " actual=" +:+ m_Actual m +:+ ")" +:+ nl.

Definition manifest_state (r : VerifyResult) : string :=
  if vr_ManifestChecksumOK r then "ok"
  else if negb (String.eqb (vr_ManifestChecksumErr r) "") then "err: " +:+ vr_ManifestChecksumErr r else "BAD".

Definition verify_lines (r : VerifyResult) : string :=
  vr_BackupID r +:+ "  " +:+ (if Verify.AllOK r then "OK" else "FAILED") +:+ "  files=" +:+ FormatD (vr_FilesOK r) +:+ "/" +:+
  FormatD (vr_FilesOK r + vr_FilesMismatched r) +:+ "  manifest=" +:+ manifest_state r +:+ nl +:+ Join (map mismatch_line (vr_Mismatches r)) "".

Definition printVerifyTable (results : list VerifyResult) : string :=
  if (length results =? 0)%nat then "(no backups)" +:+ nl else Join (map verify_lines results) "".

(** ** Aligned columns *)

Definition cell_char (c : ascii) : bool := negb (is_tab c || is_eol c || is_flush c).

Lemma split_at_none p s : sall (fun c => negb (p c)) s = true -> split_at p s = [s].
Proof.
  induction s as [|c s IH]; [done|]. cbn [sall split_at]. intros [Hc Hs]%andb_true_iff. apply negb_true_iff in Hc. rewrite Hc. by rewrite IH.
Qed.

Lemma split_at_app p s c t : sall (fun c => negb (p c)) s = true -> p c = true -> split_at p (s +:+ String c t) = s :: split_at p t.
Proof.
  intros Hs Hc. induction s as [|a s IH]; [cbn; by rewrite Hc|]. cbn [sall] in Hs. apply andb_true_iff in Hs as [Ha Hs]. apply negb_true_iff in Ha.
  change (String a s +:+ String c t) with (String a (s +:+ String c t)). cbn [split_at]. rewrite Ha. by rewrite IH.
Qed.

Lemma split_at_Join p c l : p c = true -> l <> [] -> Forall (fun s => sall (fun c => negb (p c)) s = true) l ->
  split_at p (Join l (String c "")) = l.
Proof.
  intros Hc Hne Hl. induction Hl as [|s l Hs Hl IH]; [done|]. destruct l as [|t l]; [by apply split_at_none|].
  rewrite Join_cons2. change (String c "" +:+ ?x) with (String c x). rewrite split_at_app by done. by rewrite IH.
Qed.

Lemma cells_sub (p q : ascii -> bool) s : (forall c, p c = true -> q c = true) -> sall p s = true -> sall q s = true.
Proof. intros H. by apply sall_impl. Qed.

Lemma runs_cons {A} (p : A -> bool) x l : runs p (x :: l) =
  match runs p l with
  | (b, r) :: rs => if Bool.eqb b (p x) then (b, x :: r) :: rs else (p x, [x]) :: (b, r) :: rs
  | [] => [(p x, [x])]
  end.
Proof. done. Qed.

Lemma runs_all {A} (p : A -> bool) b x l : Forall (fun y => p y = b) (x :: l) -> runs p (x :: l) = [(b, x :: l)].
Proof.
  revert x. induction l as [|y l IH]; intros x [Hx Hl]%Forall_cons; rewrite runs_cons; [by rewrite <- Hx|].
  rewrite (IH y Hl), Hx. by rewrite eqb_reflx.
Qed.

Lemma runs_snoc {A} (p : A -> bool) x l y : Forall (fun z => p z = true) (x :: l) -> p y = false ->
  runs p ((x :: l) ++ [y]) = [(true, x :: l); (false, [y])].
Proof.
  intros Hl Hy. revert x Hl. induction l as [|z l IH]; intros x [Hx Hl]%Forall_cons.
  - cbn. by rewrite Hx, Hy.
  - change ((x :: z :: l) ++ [y]) with (x :: (z :: l) ++ [y]). by rewrite runs_cons, (IH z Hl), Hx.
Qed.

Lemma has_cell_length k n line : length line = S n -> has_cell k line = (k <? n)%nat.
Proof. intros E. unfold has_cell. rewrite E. by replace (S n - 1)%nat with n by lia. Qed.

(** The widths of the columns of a table of [n] terminated columns. *)
Definition column_widths (n : nat) (rows : list (list string)) : list nat := map (fun j => column_width j rows) (seq 0 n).

Lemma format_block k fuel ws r rows : Forall (fun line => length line = S (length ws + k)) (r :: rows) -> (k <= fuel)%nat ->
  format fuel ws (r :: rows) = map (write_line (ws ++ map (fun j => column_width j (r :: rows)) (seq (length ws) k))) (r :: rows).
Proof.
  revert fuel ws. induction k as [|k IH]; intros fuel ws Hl Hf.
  - cbn [seq map]. rewrite app_nil_r. destruct fuel as [|fuel]; [done|]. cbn [format]. rewrite (runs_all _ false); [cbn [flat_map]; by rewrite app_nil_r|].
    eapply Forall_impl; [exact Hl|]. intros line E. rewrite (has_cell_length _ _ _ E). apply Nat.ltb_ge. lia.
  - destruct fuel as [|fuel]; [lia|]. cbn [format]. rewrite (runs_all _ true).
    + cbn [flat_map]. rewrite app_nil_r. rewrite IH; [|rewrite length_app; cbn [length]|lia].
      * rewrite length_app, <- app_assoc. cbn [length seq map app]. by rewrite Nat.add_1_r.
      * eapply Forall_impl; [exact Hl|]. cbn. lia.
    + eapply Forall_impl; [exact Hl|]. intros line E. rewrite (has_cell_length _ _ _ E). apply Nat.ltb_lt. lia.
Qed.

Lemma column_count_ge rows r : r ∈ rows -> (length r <= column_count rows)%nat.
Proof. unfold column_count. induction 1 as [|? ? ? ? IH]; cbn [foldr]; lia. Qed.

Lemma format_table n r rows : Forall (fun line => length line = S (S n)) (r :: rows) ->
  format (column_count ((r :: rows) ++ [[""]])) [] ((r :: rows) ++ [[""]]) = map (write_line (column_widths (S n) (r :: rows))) (r :: rows) ++ [""].
Proof.
  intros Hl. assert (Hc : (S (S n) <= column_count ((r :: rows) ++ [[""]]))%nat).
  { apply Forall_cons in Hl as [<- _]. apply column_count_ge. apply elem_of_app. left. apply elem_of_cons. by left. }
  destruct (column_count _) as [|fuel]; [lia|]. cbn [format length]. rewrite runs_snoc.
  - cbn [flat_map]. rewrite app_nil_r. rewrite (format_block n); [|by cbn [length]|lia]. cbn [length app]. unfold column_widths. done.
  - eapply Forall_impl; [exact Hl|]. intros line E. by rewrite (has_cell_length _ _ _ E).
  - done.
Qed.

(** What keeps the lines of a text apart: it has no tab, newline or form feed of any kind. *)
Definition cell_ok (s : string) : Prop := sall cell_char s = true.

Lemma cell_ok_app a b : cell_ok a -> cell_ok b -> cell_ok (a +:+ b).
Proof. unfold cell_ok. rewrite sall_app. by intros -> ->. Qed.

Lemma plain_cell s : sall plain_char s = true -> cell_ok s.
Proof.
  apply sall_impl. intros c. destruct c as [[] [] [] [] [] [] [] []]; vm_compute; done.
Qed.

Lemma FormatD_cell n : cell_ok (FormatD n).
Proof. apply plain_cell, FormatD_plain. Qed.

Lemma Format1f_cell n d : cell_ok (Format1f n d).
Proof. unfold Format1f. apply cell_ok_app; [apply FormatD_cell|]. apply cell_ok_app; [done|apply FormatD_cell]. Qed.

Lemma humanBytes_cell n : cell_ok (humanBytes n).
Proof. unfold humanBytes. cbv zeta. repeat case_match; try done; apply cell_ok_app; try done; (apply FormatD_cell || apply Format1f_cell). Qed.

Lemma humanAge_cell d : cell_ok (humanAge d).
Proof. unfold humanAge. repeat case_match; try done; (apply cell_ok_app; [apply FormatD_cell|done]). Qed.

(** The fields of a record that are text of others. *)
Definition record_cells_ok (r : BackupRecord) : Prop :=
  Forall cell_ok [r_BackupID r; r_Type r; r_ParentBackupID r; r_Server r; r_Annotation r].

Lemma record_row_ok now r : record_cells_ok r -> Forall cell_ok (record_row now r) /\ length (record_row now r) = 8%nat.
Proof.
  unfold record_cells_ok. rewrite !Forall_cons. intros (Hi & Ht & Hp & Hs & Ha & _). split; [|done]. unfold record_row.
  repeat (apply Forall_cons; split); try done; [by case_match|apply humanBytes_cell|apply FormatD_cell|apply humanAge_cell].
Qed.

Lemma cell_sub (p : ascii -> bool) s : (forall c, p c = true -> cell_char c = false) -> cell_ok s -> sall (fun c => negb (p c)) s = true.
Proof.
  intros H. apply sall_impl. intros c Hc. destruct (p c) eqn:E; [|done]. apply H in E. congruence.
Qed.

Lemma sall_Join p l sep : Forall (fun s => sall p s = true) l -> sall p sep = true -> sall p (Join l sep) = true.
Proof.
  intros Hl Hs. induction Hl as [|s l Hx Hl IH]; [done|]. destruct l as [|t l]; [done|]. by rewrite Join_cons2, !sall_app, Hx, Hs, IH.
Qed.

(** The text of rows, and its lines again. *)
Lemma rows_text_Join rows : Join (map row_text rows) "" = Join (map (fun cells => Join cells tab_text) rows ++ [""]) nl.
Proof.
  induction rows as [|r rows IH]; [done|]. cbn [map app]. rewrite Join_cons, IH. unfold row_text.
  destruct rows as [|r' rows]; cbn [map app]; [cbn [Join]; by rewrite sapp_nil_r|]. by rewrite Join_cons2, sapp_assoc.
Qed.

Lemma lines_of_rows rows : Forall (fun cells => cells <> [] /\ Forall cell_ok cells) rows ->
  lines_of (Join (map row_text rows) "") = rows ++ [[""]].
Proof.
  intros Hr. rewrite rows_text_Join. unfold lines_of. rewrite (split_at_Join is_eol "010"%char); [|done| |].
  - rewrite map_app, map_map. f_equal. rewrite <- (map_id rows) at 2. apply map_ext_in. intros cells Hin.
    rewrite Forall_forall in Hr. destruct (Hr cells) as [Hne Hc]; [by apply list_elem_of_In|].
    apply (split_at_Join is_tab "009"%char); [done..|]. eapply Forall_impl; [exact Hc|]. intros c. apply cell_sub.
    intros x. unfold cell_char. by intros ->.
  - intros E. by apply app_eq_nil in E as [_ ?].
  - apply Forall_app. split; [|by repeat constructor]. apply Forall_map. eapply Forall_impl; [exact Hr|]. intros cells [_ Hc].
    apply sall_Join; [|done]. eapply Forall_impl; [exact Hc|]. intros c. apply cell_sub.
    intros x. unfold cell_char. intros ->. by rewrite orb_true_r.
Qed.

Lemma Join_lines (l : list string) : Join (l ++ [""]) nl = Join (map (fun s => s +:+ nl) l) "".
Proof.
  induction l as [|s l IH]; [done|]. cbn [map app]. rewrite Join_cons, <- IH. destruct l as [|t l]; cbn [app]; [cbn [Join]; by rewrite !sapp_nil_r|].
  by rewrite Join_cons2, sapp_assoc.
Qed.

Lemma tabwriter_rows n r rows : Forall (fun cells => length cells = S (S n) /\ Forall cell_ok cells) (r :: rows) ->
  tabwriter (Join (map row_text (r :: rows)) "") =
  Join (map (fun cells => write_line (column_widths (S n) (r :: rows)) cells +:+ nl) (r :: rows)) "".
Proof.
  intros Hr. unfold tabwriter. rewrite split_at_none.
  - set (text := Join (map row_text (r :: rows)) ""). change (Join (map ?f [text]) nl) with (f text). cbv beta. subst text. rewrite lines_of_rows.
    + rewrite (format_table n) by (eapply Forall_impl; [exact Hr|]; by intros cells [? _]). rewrite Join_lines, map_map. done.
    + eapply Forall_impl; [exact Hr|]. intros cells [E Hc]. split; [by intros ->|done].
  - apply sall_Join; [|done]. apply Forall_map. eapply Forall_impl; [exact Hr|]. intros cells [_ Hc]. unfold row_text. rewrite sall_app.
    rewrite sall_Join; [done| |done]. eapply Forall_impl; [exact Hc|]. intros c. apply cell_sub.
    intros x. unfold cell_char. intros ->. by rewrite !orb_true_r.
Qed.

(** The table the operator sees: a line for the header and one for every record, every column as wide as
    its widest cell and two blanks more, so that it begins at the same place in every line. *)
Definition aligned_table (rows : list (list string)) : string :=
  Join (map (fun cells => write_line (column_widths 7 rows) cells +:+ nl) rows) "".

(** Unless a field of a record has a tab or a newline in it, the table has one line for every record below that of the
    header, aligned in columns, and then one for every warning. *)
Theorem FormatTable_aligned now records warnings : (0 < length records + length warnings)%nat -> Forall record_cells_ok records ->
  FormatTable now records warnings =
  aligned_table (table_header :: map (record_row now) records) +:+ Join (map (fun wn => Warning_String wn +:+ nl) warnings) "".
Proof.
  intros Hn Hr. unfold FormatTable. destruct (_ && _) eqn:E; [apply andb_true_iff in E as [E1%Nat.eqb_eq E2%Nat.eqb_eq]; lia|]. f_equal.
  unfold aligned_table. rewrite <- (tabwriter_rows 6).
  - f_equal. cbn [map]. by rewrite Join_cons, map_map.
  - apply Forall_cons. split; [split; [done|by repeat constructor]|]. apply Forall_map. eapply Forall_impl; [exact Hr|].
    intros r Hok. by apply and_comm, record_row_ok.
Qed.

(** A cell is never cut, and there are two blanks at least after it. *)
Lemma pad_room j rows cells : cells ∈ rows -> (rune_count 0 (nth j cells "") + 2 <= column_width j rows)%nat.
Proof. unfold column_width. induction 1 as [|? ? ? ? IH]; cbn [foldr]; unfold cell_width in *; lia. Qed.

(** ** The JSON reads back *)

Definition zero_record : BackupRecord := Build_BackupRecord "" "" "" "" "" [] "" "" "" 0 zero_time zero_time 0 0.

(** The struct tags of [BackupRecord], and the object around the lists, as a reader of the output has them. *)
Definition record_fields : fields BackupRecord :=
  [field "backup_id" r_BackupID (fun x '(Build_BackupRecord _ b c d e f g h i j k l m n) => Build_BackupRecord x b c d e f g h i j k l m n) dec_string;
   field "type" r_Type (fun x '(Build_BackupRecord a _ c d e f g h i j k l m n) => Build_BackupRecord a x c d e f g h i j k l m n) dec_string;
   field "parent_backup_id" r_ParentBackupID (fun x '(Build_BackupRecord a b _ d e f g h i j k l m n) => Build_BackupRecord a b x d e f g h i j k l m n) dec_string;
   field "server" r_Server (fun x '(Build_BackupRecord a b c _ e f g h i j k l m n) => Build_BackupRecord a b c x e f g h i j k l m n) dec_string;
   field "compression" r_Compression (fun x '(Build_BackupRecord a b c d _ f g h i j k l m n) => Build_BackupRecord a b c d x f g h i j k l m n) dec_string;
   field "encryption_recipients" r_Recipients (fun x '(Build_BackupRecord a b c d e _ g h i j k l m n) => Build_BackupRecord a b c d e x g h i j k l m n) (dec_slice "" dec_string);
   field "annotation" r_Annotation (fun x '(Build_BackupRecord a b c d e f _ h i j k l m n) => Build_BackupRecord a b c d e f x h i j k l m n) dec_string;
   field "start_lsn" r_StartLSN (fun x '(Build_BackupRecord a b c d e f g _ i j k l m n) => Build_BackupRecord a b c d e f g x i j k l m n) dec_string;
   field "stop_lsn" r_StopLSN (fun x '(Build_BackupRecord a b c d e f g h _ j k l m n) => Build_BackupRecord a b c d e f g h x j k l m n) dec_string;
   field "timeline" r_Timeline (fun x '(Build_BackupRecord a b c d e f g h i _ k l m n) => Build_BackupRecord a b c d e f g h i x k l m n) (dec_uint 32);
   field "start_time" r_StartTime (fun x '(Build_BackupRecord a b c d e f g h i j _ l m n) => Build_BackupRecord a b c d e f g h i j x l m n) dec_time;
   field "stop_time" r_StopTime (fun x '(Build_BackupRecord a b c d e f g h i j k _ m n) => Build_BackupRecord a b c d e f g h i j k x m n) dec_time;
   field "files" r_Files (fun x '(Build_BackupRecord a b c d e f g h i j k l _ n) => Build_BackupRecord a b c d e f g h i j k l x n) dec_int64;
   field "bytes" r_Bytes (fun x '(Build_BackupRecord a b c d e f g h i j k l m _) => Build_BackupRecord a b c d e f g h i j k l m x) dec_int64].

Definition warning_fields : fields (string * string) :=
  [field "backup_id" fst (fun x '(_, e) => (x, e)) dec_string; field "error" snd (fun x '(b, _) => (b, x)) dec_string].

Definition listing_fields : fields (list BackupRecord * list (string * string)) :=
  [field "backups" fst (fun x '(_, e) => (x, e)) (dec_slice zero_record (dec_struct false record_fields));
   field "warnings" snd (fun x '(b, _) => (b, x)) (dec_slice ("", "") (dec_struct false warning_fields))].

Ltac run_fields ::= unfold record_fields, warning_fields, listing_fields; run_members; cbn [dec_string dec_bool].

(** Values the Go types hold, with strings that are text. *)
Record record_ok (r : BackupRecord) : Prop := {
  rok_strings : valid_strings ([r_BackupID r; r_Type r; r_ParentBackupID r; r_Server r; r_Compression r; r_Annotation r; r_StartLSN r; r_StopLSN r] ++ r_Recipients r);
  rok_timeline : is_u32 (r_Timeline r);
  rok_start : time_ok (r_StartTime r);
  rok_stop : time_ok (r_StopTime r);
  rok_files : is_i64 (r_Files r);
  rok_bytes : is_i64 (r_Bytes r);
}.

Lemma omitempty_recipients a b c d e f :
  dec_members false record_fields (Build_BackupRecord a b c d e [] "" "" "" 0 zero_time zero_time 0 0)
    (omitempty (match f with [] => true | _ => false end) "encryption_recipients" (slice_json Str f)) =
  Some (Build_BackupRecord a b c d e f "" "" "" 0 zero_time zero_time 0 0).
Proof. destruct f as [|x f]; [done|]. cbn [omitempty]. run_fields. by rewrite dec_strings_json. Qed.

Lemma record_decodes r : record_ok r -> exists j, record_json r = Some j /\ clean j /\ dec_struct false record_fields zero_record j = Some r.
Proof.
  intros [Hs Ht (st & Hst & Hsu & Hsp) (et & Het & Heu & Hep) Hf Hb]. unfold valid_strings in Hs. apply Forall_app in Hs as [Hs Hr].
  unfold record_json, time_json. rewrite Hst, Het. cbn [fmap option_fmap option_map]. eexists. split; [reflexivity|].
  repeat match goal with H : Forall _ (_ :: _) |- _ => apply Forall_cons in H as [? H] end. split; [clean_members; by apply clean_strings|].
  destruct r as [a b c d e f g h i j k l m n]. cbn [r_BackupID r_Type r_ParentBackupID r_Server r_Compression r_Recipients r_Annotation r_StartLSN
    r_StopLSN r_Timeline r_StartTime r_StopTime r_Files r_Bytes] in *. unfold dec_struct, zero_record. cbn [app].
  step_member (Build_BackupRecord a "" "" "" "" [] "" "" "" 0 zero_time zero_time 0 0) idtac.
  step_member (Build_BackupRecord a b "" "" "" [] "" "" "" 0 zero_time zero_time 0 0) idtac.
  step_omitempty (Build_BackupRecord a b c "" "" [] "" "" "" 0 zero_time zero_time 0 0) idtac.
  step_member (Build_BackupRecord a b c d "" [] "" "" "" 0 zero_time zero_time 0 0) idtac.
  step_omitempty (Build_BackupRecord a b c d e [] "" "" "" 0 zero_time zero_time 0 0) idtac.
  apply (dec_members_step _ _ _ _ _ (Build_BackupRecord a b c d e f "" "" "" 0 zero_time zero_time 0 0)); [apply omitempty_recipients|].
  step_omitempty (Build_BackupRecord a b c d e f g "" "" 0 zero_time zero_time 0 0) idtac.
  step_omitempty (Build_BackupRecord a b c d e f g h "" 0 zero_time zero_time 0 0) idtac.
  step_omitempty (Build_BackupRecord a b c d e f g h i 0 zero_time zero_time 0 0) idtac.
  step_omitempty (Build_BackupRecord a b c d e f g h i j zero_time zero_time 0 0) ltac:(rewrite dec_uint_json by done).
  step_member (Build_BackupRecord a b c d e f g h i j k zero_time 0 0) ltac:(cbn [dec_time]; rewrite Hsp).
  step_member (Build_BackupRecord a b c d e f g h i j k l 0 0) ltac:(cbn [dec_time]; rewrite Hep).
  step_omitempty (Build_BackupRecord a b c d e f g h i j k l m 0) ltac:(rewrite dec_int64_json by done).
  rewrite <- (app_nil_r (omitempty _ _ _)).
  by step_omitempty (Build_BackupRecord a b c d e f g h i j k l m n) ltac:(rewrite dec_int64_json by done).
Qed.

Lemma records_decode rs : Forall record_ok rs -> exists js, mapM record_json rs = Some js /\ Forall clean js /\
  mapM (dec_struct false record_fields zero_record) js = Some rs.
Proof.
  induction 1 as [|r rs Hr _ (js & Hj & Hc & Hd)]; [by exists []|]. destruct (record_decodes r Hr) as (j & Ej & Cj & Dj).
  exists (j :: js). cbn [mapM]. rewrite Ej, Dj. cbn [mbind option_bind]. rewrite Hj, Hd. split; [done|]. split; [by constructor|done].
Qed.

(** The JSON of a listing reads back: the records with every field, and the warnings with their texts, as long as
    the strings are UTF-8 and the times have a text of RFC 3339. *)
Theorem FormatJSON_roundtrip records warnings : Forall record_ok records ->
  Forall (fun wn => valid_strings [wn_BackupID wn; err_msg (wn_Err wn)]) warnings ->
  exists text, FormatJSON records warnings = Ok text /\
    Decode (dec_struct false listing_fields) ([], []) text = Ok (records, map (fun wn => (wn_BackupID wn, err_msg (wn_Err wn))) warnings).
Proof.
  intros (js & Hj & Hc & Hd)%records_decode Hw. unfold FormatJSON. rewrite Hj. eexists. split; [reflexivity|].
  unfold Decode. rewrite (parse_denotes (Obj [("backups", Arr js); ("warnings", Arr (map warning_json warnings))])); [| |done].
  - unfold dec_struct at 1. run_fields. change (dec_slice zero_record ?d ?c (Arr js)) with (mapM (d zero_record) js). rewrite Hd. cbv beta iota.
    rewrite (dec_slice_map _ _ _ (fun wn => (wn_BackupID wn, err_msg (wn_Err wn)))); [done|]. intros wn _. unfold warning_json, dec_struct. by run_fields.
  - apply MarshalIndent_denotes, clean_obj. repeat (apply Forall_cons; split; [split; [reflexivity|]|]); [by apply clean_arr| |constructor].
    apply clean_arr, Forall_map. eapply Forall_impl; [exact Hw|]. intros wn Hv. unfold valid_strings in Hv. rewrite !Forall_cons in Hv.
    destruct Hv as (H1 & H2 & _). apply clean_obj. by repeat constructor.
Qed.

(** ** A listing *)

Definition listed (id parent note : string) (bytes : Z) : BackupRecord :=
  {| r_BackupID := id; r_Type := if String.eqb parent "" then "full" else "incremental"; r_ParentBackupID := parent; r_Server := "db";
     r_Compression := "zstd:3"; r_Recipients := ["age1x"]; r_Annotation := note; r_StartLSN := "0/2000028"; r_StopLSN := "0/2000100"; r_Timeline := 1;
     r_StartTime := Date 2026 4 1 10 0 0; r_StopTime := Date 2026 4 1 10 1 0; r_Files := 12; r_Bytes := bytes |}.

Definition listed_records : list BackupRecord :=
  [listed "20260401T100000F" "" "before the upgrade" 1536; listed "20260401T100000F_20260402T100000I" "20260401T100000F" "" 0].
Definition listed_warnings : list Warning := [{| wn_BackupID := "20260403T100000F"; wn_Err := errors_New "unexpected EOF" |}].
Definition listed_now : time := Date 2026 4 1 12 1 0.

(** A backup ID is longer than the heading, a size than the others. *)
Example listed_table : FormatTable listed_now listed_records listed_warnings =
  "ID                                 TYPE         PARENT            SERVER  SIZE     FILES  AGE  ANNOTATION" +:+ nl +:+
  "20260401T100000F                   full         -                 db      1.5 KiB  12     2h   before the upgrade" +:+ nl +:+
  "20260401T100000F_20260402T100000I  incremental  20260401T100000F  db      -        12     2h   " +:+ nl +:+
  "warning: backup 20260403T100000F: unexpected EOF" +:+ nl.
Proof. vm_compute. reflexivity. Qed.

(** A newline in an annotation breaks the line of its backup. *)
Example annotation_breaks_line : FormatTable listed_now [listed "20260401T100000F" "" ("a" +:+ nl +:+ "b") 1536] [] =
  "ID                TYPE  PARENT  SERVER  SIZE     FILES  AGE  ANNOTATION" +:+ nl +:+
  "20260401T100000F  full  -       db      1.5 KiB  12     2h   a" +:+ nl +:+ "b" +:+ nl.
Proof. vm_compute. reflexivity. Qed.

Lemma FormatTable_aligned_witness : Forall record_cells_ok listed_records /\
  FormatTable listed_now listed_records [] = aligned_table (table_header :: map (record_row listed_now) listed_records) +:+ "".
Proof.
  assert (Hr : Forall record_cells_ok listed_records) by (repeat constructor). split; [exact Hr|].
  exact (FormatTable_aligned listed_now listed_records [] ltac:(cbn; lia) Hr).
Defined.

Lemma listed_ok : Forall record_ok listed_records.
Proof.
  repeat (apply Forall_cons; split); [| |constructor].
  all: split; [repeat (apply Forall_cons; split; [reflexivity|]); constructor|cbn; unfold is_u32; lia| | |cbn; unfold is_i64; lia|cbn; unfold is_i64; lia].
  all: eexists; split; [vm_compute; reflexivity|split; reflexivity].
Qed.

Lemma FormatJSON_roundtrip_witness : exists text, FormatJSON listed_records listed_warnings = Ok text /\
  Decode (dec_struct false listing_fields) ([], []) text = Ok (listed_records, [("20260403T100000F", "unexpected EOF")]).
Proof.
  apply (FormatJSON_roundtrip listed_records listed_warnings listed_ok). repeat constructor.
Defined.
