(* ===== verification/Serve.v ===== *)
(** * The worker command

    [newWorkerStdioCmd] of [cmd/pgsafe/worker.go] and [Serve] of [internal/transport/rpc/server.go]: the methods of the worker behind
    the loop of [net/rpc]'s server, over the standard input and output of the process. Which calls return before which
    request is read is a parameter; a call runs its handler when it returns. *)

From S2P Require Import Prelude Storage Host Time Incremental Filter Creds Mint Restore Rpc Worker.

(** ** Messages *)

(** The requests and responses of [rpc.go], of which the bodies on the wire are encodings. *)
Inductive message :=
| MHelloRequest (m : HelloRequest) | MHelloResponse (m : HelloResponse)
| MConfigureRequest (m : ConfigureRequest) | MConfigureResponse (err : string)
| MStreamFileRequest (path : string) | MStreamFileResponse (m : StreamResponse)
| MStreamChunkRequest (path : string) | MStreamChunkResponse (m : StreamResponse)
| MWriteBlobRequest (m : WriteBlobRequest) | MWriteBlobResponse (m : WriteBlobResponse)
| MCommitRequest (tmp final : string) | MCommitResponse
| MDoneRequest | MDoneResponse (m : DoneResponse)
| MRestoreRequest (m : RestoreRequest) | MRestoreResponse (m : RestoreResponse)
| MProbeStorageRequest (m : ProbeStorageRequest) | MProbeStorageResponse (m : ProbeStorageResponse).

(** A request without a body leaves the argument at its zero value. *)
Definition zero_request (method : string) : message :=
  if String.eqb method "WorkerService.Hello" then MHelloRequest {| hq_CallerVersion := ""; hq_ProtocolVersion := "" |}
  else if String.eqb method "WorkerService.Configure" then MConfigureRequest
    {| cq_BackupID := ""; cq_StorageType := ""; cq_StoragePath := ""; cq_PGDataPath := ""; cq_Credentials := ""; cq_EncryptionDataKey := "";
       cq_AgeRecipients := []; cq_CompressionCodec := ""; cq_CompressionLevel := 0; cq_PageChecksumMode := 0; cq_Files := [];
       cq_WorkerWritesDirectly := false; cq_HTTPSProxy := "" |}
  else if String.eqb method "WorkerService.StreamFile" then MStreamFileRequest ""
  else if String.eqb method "WorkerService.StreamChunk" then MStreamChunkRequest ""
  else if String.eqb method "WorkerService.WriteBlob" then MWriteBlobRequest {| wq_RepoPath := ""; wq_Body := ""; wq_Filtered := false |}
  else if String.eqb method "WorkerService.Commit" then MCommitRequest "" ""
  else if String.eqb method "WorkerService.Restore" then MRestoreRequest
    {| Rpc.rr_BackupID := ""; rr_StorageType := ""; rr_Credentials := ""; rr_AgeIdentities := []; rr_TargetPath := ""; rr_Workers := 0;
       rr_StandbyMode := false; rr_RestoreCommand := "" |}
  else if String.eqb method "WorkerService.ProbeStorage" then MProbeStorageRequest {| pq_StorageType := ""; pq_StoragePath := ""; pq_Credentials := "" |}
  else MDoneRequest.

(** Which message it is. *)
Definition message_kind (m : message) : nat :=
  match m with
  | MHelloRequest _ => 0 | MHelloResponse _ => 1 | MConfigureRequest _ => 2 | MConfigureResponse _ => 3 | MStreamFileRequest _ => 4
  | MStreamFileResponse _ => 5 | MStreamChunkRequest _ => 6 | MStreamChunkResponse _ => 7 | MWriteBlobRequest _ => 8
  | MWriteBlobResponse _ => 9 | MCommitRequest _ _ => 10 | MCommitResponse => 11 | MDoneRequest => 12 | MDoneResponse _ => 13
  | MRestoreRequest _ => 14 | MRestoreResponse _ => 15 | MProbeStorageRequest _ => 16 | MProbeStorageResponse _ => 17
  end.

(** The argument of a method: the body is decoded into a zero value of its type. A body of another message, which no
    caller sends, has none of its fields. *)
Definition request_arg (method : string) (body : option message) : message :=
  match body with
  | None => zero_request method
  | Some m => if (message_kind m =? message_kind (zero_request method))%nat then m else zero_request method
  end.

(** Standard input, as all it will have given when it ends, and standard output. *)
Class Stdio (W : Type) := {
  stdin_ReadAll : W -> string;
  stdout_Write : string -> M W unit;
}.

Section serve.
Context {W : Type} `{Dialing W, Minting W, WorkerHost W, Host W, Disk W, FilterLibs, !AgeKeys, Stdio W, !Bodies message}.
Context (Now : W -> time) (sched : list ManifestFile -> list ManifestFile).

(** ** The methods behind their names *)

(** A panic is known by the text of the run time; [net/rpc] does not recover from it, so that it ends the process. *)
Definition unless_panic {A} (text : string) (a : A) : M W A := if Contains text (err_msg nil_panic) then throw nil_panic else ret a.

Definition answers {A} (f : A -> message) (r : result A) (wk : Worker) : M W ((message + string) * Worker) :=
  match r with
  | Ok a => ret (inl (f a), wk)
  | Fail err => unless_panic (err_msg err) (inr (err_msg err), wk)
  end.

(** [service.call]: the method of a request; its argument tells which. *)
Definition service_call (arg : message) (wk : Worker) : M W ((message + string) * Worker) :=
  match arg with
  | MHelloRequest _ => d <- worker_Hello wk ;; ret (inl (MHelloResponse (fst d)), snd d)
  | MConfigureRequest req => d <- Configure req wk ;; unless_panic (fst d) (inl (MConfigureResponse (fst d)), snd d)
  | MStreamFileRequest path => d <- StreamFile Now path wk ;; answers MStreamFileResponse (fst d) (snd d)
  | MStreamChunkRequest path => d <- StreamChunk Now path wk ;; answers MStreamChunkResponse (fst d) (snd d)
  | MWriteBlobRequest req => d <- worker_WriteBlob req wk ;; answers MWriteBlobResponse (fst d) (snd d)
  | MCommitRequest tmp final => d <- worker_Commit tmp final wk ;; answers (fun _ => MCommitResponse) (fst d) (snd d)
  | MRestoreRequest req => d <- worker_Restore sched req wk ;; unless_panic (rp_Error (fst d)) (inl (MRestoreResponse (fst d)), snd d)
  | MProbeStorageRequest req => d <- worker_ProbeStorage req wk ;; unless_panic (pr_Error (fst d)) (inl (MProbeStorageResponse (fst d)), snd d)
  | _ => d <- worker_Done wk ;; ret (inl (MDoneResponse (fst d)), snd d)
  end.

(** ** The loop *)

(** What the codec wrote goes out; an error of the connection is only logged. *)
Definition flush_out (s : server (Body:=message)) : M W server :=
  let c := se_codec s in
  try (stdout_Write (sv_out c)) ;;;
  ret {| se_codec := {| sv_in := sv_in c; sv_out := ""; sv_pending := sv_pending c |}; se_calls := se_calls s |}.

(** The [i]-th call that runs returns. *)
Definition return_call (i : nat) (sw : server * Worker) : M W (server * Worker) :=
  match se_calls (fst sw) !! i with
  | None => ret sw
  | Some k =>
      d <- service_call (request_arg (f_method (c_request k)) (c_arg k)) (snd sw) ;;
      match serve_step (Finish i (fst d)) (fst sw) with
      | None => ret (fst sw, snd d)
      | Some s => s <- flush_out s ;; ret (s, snd d)
      end
  end.

(** The calls that still run when no more requests come are waited for. *)
Definition wait_calls (sw : server * Worker) : M W (server * Worker) :=
  forM (seq 0 (length (se_calls (fst sw)))) sw (fun sw _ => return_call 0 sw).

(** [Server.ServeCodec]; [returns t] are the calls that return before the [t]-th request is read. *)
Fixpoint ServeCodec (returns : nat -> list nat) (fuel t : nat) (sw : server * Worker) : M W (server * Worker) :=
  match fuel with
  | O => ret sw
  | S fuel =>
      sw <- forM (returns t) sw (fun sw i => return_call i sw) ;;
      match serve_step Accept (fst sw) with
      | None => wait_calls sw
      | Some s => s <- flush_out s ;; ServeCodec returns fuel (S t) (s, snd sw)
      end
  end.

Definition new_server (input : string) : server (Body:=message) :=
  {| se_codec := {| sv_in := input; sv_out := ""; sv_pending := zero_frame |}; se_calls := [] |}.

(** [Serve]; registering the methods of the worker never fails. A request has at least a byte. *)
Definition Serve (returns : nat -> list nat) (impl : Worker) : M W (server * Worker) :=
  input <- read stdin_ReadAll ;;
  ServeCodec returns (S (slen input)) 0 (new_server input, impl).

(** [newWorkerStdioCmd] up to the return of [Serve]. *)
Definition workerStdio (returns : nat -> list nat) (version : string) : M W (server * Worker) :=
  pgdata <- read (os_Getenv "PGDATA") ;;
  Serve returns (worker_New version pgdata).
End serve.

(** ** The loop comes to its end *)

Lemma io_ReadFull_shrinks n s a rest : io_ReadFull n s = (Ok a, rest) -> (Z.of_nat (slen rest) = Z.of_nat (slen s) - Z.max 0 n)%Z.
Proof.
  unfold io_ReadFull. destruct (Z.ltb_spec (Z.of_nat (slen s)) n); [done|]. intros [= _ <-]. rewrite slen_drop. lia.
Qed.

Lemma read_byte_shrinks s c rest : read_byte s = (Ok c, rest) -> (slen rest < slen s)%nat.
Proof.
  unfold read_byte. intros Hr. apply bind_inv_Ok in Hr as (b & s1 & Hb & [= _ <-]). apply io_ReadFull_shrinks in Hb. lia.
Qed.

Lemma read_be_shrinks k s v rest : read_be k s = (Ok v, rest) -> (slen rest <= slen s)%nat.
Proof.
  unfold read_be. intros Hr. apply bind_inv_Ok in Hr as (b & s1 & Hb & [= _ <-]). apply io_ReadFull_shrinks in Hb. lia.
Qed.

Lemma readLenPrefixed_shrinks s p rest : readLenPrefixed s = (Ok p, rest) -> (slen rest <= slen s)%nat.
Proof.
  unfold readLenPrefixed. intros Hr. apply bind_inv_Ok in Hr as (n & s1 & Hn & Hr). apply read_be_shrinks in Hn.
  destruct (n =? 0); [by injection Hr as _ <-|]. apply io_ReadFull_shrinks in Hr. lia.
Qed.

(** A frame has a byte at least. *)
Lemma readFrame_shrinks s f rest : readFrame s = (Ok f, rest) -> (slen rest < slen s)%nat.
Proof.
  unfold readFrame. intros Hr. apply bind_inv_Ok in Hr as (disc & s1 & H1 & Hr). apply read_byte_shrinks in H1. case_match; [done|].
  apply bind_inv_Ok in Hr as (sq & s2 & H2 & Hr). apply read_be_shrinks in H2.
  apply bind_inv_Ok in Hr as (kind & s3 & H3 & Hr). apply read_byte_shrinks in H3. case_match; [done|].
  apply bind_inv_Ok in Hr as (m & s4 & H4 & Hr). apply readLenPrefixed_shrinks in H4.
  apply bind_inv_Ok in Hr as (e & s5 & H5 & Hr). apply readLenPrefixed_shrinks in H5.
  apply bind_inv_Ok in Hr as (b & s6 & H6 & [= _ <-]). apply readLenPrefixed_shrinks in H6. lia.
Qed.

Section loop.
Context {Body : Type} `{Bodies Body}.

Lemma sendResponse_in req (reply : Body + string) c : sv_in (sendResponse req reply c) = sv_in c.
Proof.
  unfold sendResponse, WriteResponse, bind, read, update, of_result, ret. destruct (String.eqb _ ""); [|done]. by destruct (encodeBody _ _).
Qed.

Lemma Finish_in (s s' : server (Body:=Body)) i reply : serve_step (Finish i reply) s = Some s' -> sv_in (se_codec s') = sv_in (se_codec s).
Proof. cbn [serve_step]. destruct (se_calls s !! i); [|done]. intros [= <-]. apply sendResponse_in. Qed.

Lemma Finish_calls (s s' : server (Body:=Body)) i reply : serve_step (Finish i reply) s = Some s' -> length (se_calls s) = S (length (se_calls s')).
Proof.
  cbn [serve_step]. destruct (se_calls s !! i) eqn:E; [|done]. intros [= <-]. cbn [se_calls]. pose proof (lookup_lt_Some _ _ _ E).
  rewrite (length_delete _ _ (ex_intro _ _ E)). lia.
Qed.

Lemma header_shrinks c req c' : ReadRequestHeader c = (Ok req, c') -> (slen (sv_in c') < slen (sv_in c))%nat.
Proof.
  unfold ReadRequestHeader. intros Hr. apply bind_inv_Ok in Hr as (f & c1 & Hf & Hr). unfold on_in in Hf.
  destruct (readFrame (sv_in c)) as [r rest] eqn:E. injection Hf as -> <-. apply readFrame_shrinks in E.
  case_match; [done|]. apply bind_inv_Ok in Hr as (? & c2 & [= _ <-] & [= _ <-]). exact E.
Qed.

Lemma Accept_shrinks (s s' : server (Body:=Body)) : serve_step Accept s = Some s' -> (slen (sv_in (se_codec s')) < slen (sv_in (se_codec s)))%nat.
Proof.
  cbn [serve_step]. destruct (ReadRequestHeader (se_codec s)) as [[req|e] c] eqn:E; [|done]. apply header_shrinks in E.
  case_match; [intros [= <-]; cbn [se_codec]; by rewrite sendResponse_in|].
  assert (Hb : snd (ReadRequestBody (Body:=Body) c) = c) by done. destruct (ReadRequestBody c) as [[arg|e] c']; cbn [snd] in Hb; subst c';
    intros [= <-]; cbn [se_codec]; by rewrite ?sendResponse_in.
Qed.

(** Whether a request can be read depends on what standard input still holds. *)
Lemma Accept_None (s s' : server (Body:=Body)) : sv_in (se_codec s') = sv_in (se_codec s) -> serve_step Accept s = None -> serve_step Accept s' = None.
Proof.
  intros Hin. cbn [serve_step]. unfold ReadRequestHeader, bind, on_in. rewrite Hin. destruct (readFrame _) as [[f|e] rest]; [|done].
  destruct (negb (Ascii.eqb (f_kind f) kindRequest)); [done|]. unfold update, ret. case_match; [done|]. by case_match; case_match.
Qed.
End loop.

Section ends.
Context {W : Type} `{Dialing W, Minting W, WorkerHost W, Host W, Disk W, FilterLibs, !AgeKeys, Stdio W, !Bodies message}.
Context (Now : W -> time) (sched : list ManifestFile -> list ManifestFile).

(** All that standard input held was read, and every call has returned. *)
Definition served (s : server (Body:=message)) : Prop := serve_step Accept s = None /\ se_calls s = [].

Lemma flush_out_Ok s (w : W) : exists s' w', flush_out s w = (Ok s', w') /\ sv_in (se_codec s') = sv_in (se_codec s) /\ se_calls s' = se_calls s.
Proof. unfold flush_out, bind, try, ret. destruct (stdout_Write _ w) as [r w']. by eexists _, w'. Qed.

Lemma return_call_frame i sw (w : W) sw' w' : return_call Now sched i sw w = (Ok sw', w') ->
  sv_in (se_codec (fst sw')) = sv_in (se_codec (fst sw)) /\
  ((i < length (se_calls (fst sw)))%nat -> length (se_calls (fst sw)) = S (length (se_calls (fst sw')))).
Proof.
  unfold return_call. destruct (se_calls (fst sw) !! i) as [k|] eqn:Ek; intros Hr.
  2:{ injection Hr as <- _. split; [done|]. apply lookup_ge_None in Ek. lia. }
  apply bind_inv_Ok in Hr as (d & w1 & _ & Hr). destruct (serve_step _ _) as [s|] eqn:Es.
  - destruct (flush_out_Ok s w1) as (s' & w2 & Hf & Hi & Hc). unfold bind in Hr. rewrite Hf in Hr. injection Hr as <- _. cbn [fst].
    rewrite Hi, (Finish_in _ _ _ _ Es), Hc. split; [done|]. intros _. by apply Finish_calls in Es.
  - cbn [serve_step] in Es. by rewrite Ek in Es.
Qed.

Lemma returns_in l sw (w : W) sw' w' : forM l sw (fun sw i => return_call Now sched i sw) w = (Ok sw', w') ->
  sv_in (se_codec (fst sw')) = sv_in (se_codec (fst sw)).
Proof.
  revert sw w. induction l as [|i l IH]; intros sw w; cbn [forM]; [by intros [= <- _]|]. intros Hr.
  apply bind_inv_Ok in Hr as (sw1 & w1 & Hc & Hr). apply return_call_frame in Hc as [Hc _]. rewrite (IH _ _ Hr). exact Hc.
Qed.

Lemma wait_calls_ends sw (w : W) sw' w' : wait_calls Now sched sw w = (Ok sw', w') ->
  sv_in (se_codec (fst sw')) = sv_in (se_codec (fst sw)) /\ se_calls (fst sw') = [].
Proof.
  unfold wait_calls. remember (length (se_calls (fst sw))) as n eqn:En. generalize 0%nat at 1. revert sw w En.
  induction n as [|n IH]; intros sw w En start; cbn [seq forM].
  - intros [= <- _]. split; [done|]. symmetry in En. by apply nil_length_inv in En.
  - intros Hr. apply bind_inv_Ok in Hr as (sw1 & w1 & Hc & Hr). apply return_call_frame in Hc as [Hi Hc]. rewrite <- En in Hc. specialize (Hc ltac:(lia)). injection Hc as Hc.
    apply IH in Hr as [Hi' Hc']; [|lia]. by rewrite Hi'.
Qed.

(** The fuel is never used up. *)
Lemma ServeCodec_ends returns fuel t sw (w : W) sw' w' : (slen (sv_in (se_codec (fst sw))) < fuel)%nat ->
  ServeCodec Now sched returns fuel t sw w = (Ok sw', w') -> served (fst sw').
Proof.
  revert t sw w. induction fuel as [|fuel IH]; intros t sw w Hf; [lia|]. cbn [ServeCodec]. intros Hr.
  apply bind_inv_Ok in Hr as (sw1 & w1 & Hret & Hr). apply returns_in in Hret. destruct (serve_step Accept (fst sw1)) as [s|] eqn:Ea.
  - apply Accept_shrinks in Ea. rewrite Hret in Ea. destruct (flush_out_Ok s w1) as (s' & w2 & Hfl & Hi & _). unfold bind in Hr. rewrite Hfl in Hr.
    eapply IH, Hr. cbn [fst]. rewrite Hi. lia.
  - apply wait_calls_ends in Hr as [Hi Hc]. split; [|done]. by eapply Accept_None.
Qed.

(** [Serve] only returns when standard input has ended, or holds no request any more, and every call that was read has returned. *)
Lemma Serve_ends returns impl (w : W) sw w' : Serve Now sched returns impl w = (Ok sw, w') -> served (fst sw).
Proof. unfold Serve. intros Hr. apply bind_inv_Ok in Hr as (input & w1 & [= <- <-] & Hr). eapply ServeCodec_ends, Hr. cbn. lia. Qed.
End ends.
