(* ===== verification/Main.v ===== *)
(** * The program

    [cmd/pgsafe]: [main.go], the tree of commands of [root.go], and the [RunE] of every command: from
    the flags to the exit status of the process. *)

From S2P Require Import Prelude Storage Host Time Manifest Info Retention Config Lock Archive Prune Cli Filter Bracket Restore Verify Check Backup Multi MultiBackup PageChecksum PgSql Parallel Creds Mint Worker WorkerBackup Open BackupCmd RestoreCmd CmdSpec CliSpec Serve.

(** ** Commands *)

(** The flags of [prune]. *)
Record PruneFlags := {
  pf_keep_fulls : Z; pf_keep_age : Z; pf_keep_daily : Z; pf_keep_weekly : Z; pf_keep_monthly : Z; pf_dry_run : bool; pf_lock_timeout : Z;
}.

(** The policy that [newPruneCmd] makes of them. *)
Definition prune_policy (fl : PruneFlags) : Policy :=
  {| KeepFulls := pf_keep_fulls fl; KeepFullAge := pf_keep_age fl; KeepDaily := pf_keep_daily fl; KeepWeekly := pf_keep_weekly fl;
     KeepMonthly := pf_keep_monthly fl; Retention.Now := zero_time |}.

(** A command that begins with its configuration, with its arguments and flags as [cobra] hands them to its [RunE]. *)
Inductive configured_command :=
| ServerAdd
| ServerList
| ServerUpgrade (lockTimeout : Z)
| ServerDelete (force : bool) (lockTimeout : Z)
| BackupCommand (fl : BackupFlags)
| RestoreCommand (fl : RestoreFlags)
| InfoCommand (serverFilter : string) (lockTimeout : Z)
| VerifyCommand (backupID identityFile : string) (lockTimeout : Z)
| PruneCommand (fl : PruneFlags)
| CheckCommand (asJSON : bool) (lockTimeout : Z)
| AnnotateCommand (backupID note : string) (lockTimeout : Z)
| ArchivePush (segPath : string)
| ArchiveGet (segName destPath : string).

(** The commands; the hidden [worker stdio] does without a configuration. *)
Inductive command := Configured (c : configured_command) | WorkerStdio.

(** Standard output, for what a command prints at its end. *)
Class Output (W : Type) := { print_result : M W unit }.

Section main.
Context {W : Type} `{Host W, Disk W, Clock W, Pg W, BaseBackup W, FilterLibs, Sessions W, Catalog W, Minting W, Dialing W, !Clients W, WorkerHost W, !AgeKeys, Transport W, Pools W, Shell W, Output W, Stdio W, !Rpc.Bodies message}.
Context (Now : W -> time) (tees : string -> tee -> move) (collate : list string -> list string) (sched : list FileEntry -> list FileEntry) (late : string -> bool).
Context (restore_sched : list Restore.ManifestFile -> list Restore.ManifestFile) (verify_sched : list task -> list task) (order : list string -> list string).
Context (range : forall (n : nat) (A : Type), gmap string A -> list (string * A)) (returns : nat -> list nat).
Context (version tempDir : string) (yaml_Decode : string -> result Config).

(** A command that did its work prints what it did; [failed] is its outcome when it cannot. *)
Definition saying (failed : outcome) (m : M W outcome) : M W outcome :=
  o <- m ;;
  match o with
  | Done => r <- try print_result ;; ret (match r with Ok _ => Done | Fail _ => failed end)
  | _ => ret o
  end.

(** The first storage, and the lock of the server around it where the command takes one. *)
Definition on_storage (cfg : Config) (k : rb -> M W outcome) : M W outcome := with_primary cfg (fun st => with_opened st k).
Definition locked (cfg : Config) (mode : Lock.Mode) (lockTimeout : Z) (k : rb -> M W outcome) : M W outcome :=
  with_primary cfg (fun st => with_server_lock cfg st mode lockTimeout (with_opened st k)).

(** [newServerAddCmd] *)
Definition serverAddCmd (cfg : Config) : M W outcome :=
  on_storage cfg (fun b => saying (ExitError 1) (addServer (H:=rb_Backend b) cfg)).

(** [newServerListCmd] *)
Definition serverListCmd (cfg : Config) : M W outcome :=
  on_storage cfg (fun b => or_exit (fun _ => 4) (listServers (H:=rb_Backend b)) (fun _ => saying Other (ret Done))).

(** [newServerUpgradeCmd] *)
Definition serverUpgradeCmd (cfg : Config) (lockTimeout : Z) : M W outcome :=
  locked cfg Lock.Exclusive lockTimeout (fun b => saying Other (upgradeServer (H:=rb_Backend b) cfg)).

(** [newServerDeleteCmd] *)
Definition serverDeleteCmd (cfg : Config) (force : bool) (lockTimeout : Z) : M W outcome :=
  locked cfg Lock.Exclusive lockTimeout (fun b => saying Other (deleteServer (H:=rb_Backend b) (c_Server cfg) force)).

(** [newBackupCmd] *)
Definition backupCommand (cfg : Config) (fl : BackupFlags) : M W outcome :=
  match backup_request cfg fl with
  | inr o => ret o
  | inl rq => saying (ExitError 1) (runBackup Now tees collate sched late version tempDir cfg rq)
  end.

(** [newAnnotateCmd] *)
Definition annotateCmd (cfg : Config) (backupID note : string) (lockTimeout : Z) : M W outcome :=
  locked cfg Lock.Exclusive lockTimeout (fun b => saying Other (annotateSidecar (H:=rb_Backend b) backupID note)).

(** [newPruneCmd] *)
Definition pruneCmd (cfg : Config) (fl : PruneFlags) : M W outcome :=
  locked cfg Lock.Exclusive (pf_lock_timeout fl) (fun b =>
    saying Other (pruneServer (H:=rb_Backend b) range Now (prune_policy fl) (pf_dry_run fl))).

(** [newArchivePushCmd] and [newArchiveGetCmd], which take no lock. *)
Definition archivePushCmd (cfg : Config) (segPath : string) : M W outcome :=
  on_storage cfg (fun b => pushSegment (H:=rb_Backend b) segPath).
Definition archiveGetCmd (cfg : Config) (segName destPath : string) : M W outcome :=
  on_storage cfg (fun b => getSegment (H:=rb_Backend b) segName destPath).

(** The [RunE] of a command, when it has its configuration. *)
Definition run_command (cfg : Config) (c : configured_command) : M W outcome :=
  match c with
  | ServerAdd => serverAddCmd cfg
  | ServerList => serverListCmd cfg
  | ServerUpgrade t => serverUpgradeCmd cfg t
  | ServerDelete force t => serverDeleteCmd cfg force t
  | BackupCommand fl => backupCommand cfg fl
  | RestoreCommand fl => saying (ExitError 1) (restoreCmd restore_sched cfg fl)
  | InfoCommand serverFilter t => runInfo (fun _ _ => print_result) cfg serverFilter t
  | VerifyCommand id identityFile t => runVerify (fun _ => print_result) order verify_sched cfg id identityFile t
  | PruneCommand fl => pruneCmd cfg fl
  | CheckCommand asJSON t => runCheck asJSON (fun _ => print_result) cfg t
  | AnnotateCommand id note t => annotateCmd cfg id note t
  | ArchivePush segPath => archivePushCmd cfg segPath
  | ArchiveGet segName destPath => archiveGetCmd cfg segName destPath
  end.

(** What [resolveConfig] opens. *)
Definition config_file (configPath : string) : M W (option (result string)) :=
  if String.eqb configPath "" then ret None else r <- try (os_ReadFile configPath) ;; ret (Some r).

(** [newWorkerStdioCmd] *)
Definition workerStdioCmd : M W outcome := workerStdio Now restore_sched returns version ;;; ret Done.

(** [RunE] of every other command begins with [resolveConfig]. *)
Definition RunE (configPath : string) (fl : Flags) (c : command) : M W outcome :=
  match c with
  | WorkerStdio => workerStdioCmd
  | Configured c =>
      file <- config_file configPath ;;
      match resolveConfig age_ParseX25519Recipient yaml_Decode file fl with
      | inr o => ret o
      | inl cfg => run_command cfg c
      end
  end.

(** [main]: the status the process exits with, that of a panic included. *)
Definition main (configPath : string) (fl : Flags) (c : command) (w : W) : Z * W :=
  match RunE configPath fl c w with
  | (Ok o, w') => (errExit o, w')
  | (Fail _, w') => (2, w')
  end.
End main.

(** ** The exit status *)

(** The statuses of failures: general, configuration, PostgreSQL, storage, integrity, retention and lock. *)
Definition failures : list Z := [1; 2; 3; 4; 5; 8; 9].

(** Success has status 0, and only success. *)
Definition well_told (o : outcome) : Prop := o = Done \/ errExit o ∈ failures.

(** The command comes to its end, with one of them. *)
Definition exits {W} (m : M W outcome) : Prop := forall w, exists o w', m w = (Ok o, w') /\ well_told o.

(** The step before it comes to its end. *)
Definition total {W A} (m : M W A) : Prop := forall w, exists a w', m w = (Ok a, w').

Section exits.
Context {W : Type}.

Lemma ret_exits o : well_told o -> exits (W:=W) (ret o).
Proof. intros Ho w. by exists o, w. Qed.

Lemma total_ret {A} (a : A) : total (W:=W) (ret a).
Proof. intros w. by exists a, w. Qed.

Lemma total_read {A} (f : W -> A) : total (read f).
Proof. intros w. by exists (f w), w. Qed.

Lemma total_try {A} (m : M W A) : total (try m).
Proof. intros w. unfold try. destruct (m w) as [r w']. by exists r, w'. Qed.

Lemma total_bind {A B} (m : M W A) (k : A -> M W B) : total m -> (forall a, total (k a)) -> total (bind m k).
Proof. intros Hm Hk w. unfold bind. destruct (Hm w) as (a & w' & ->). apply Hk. Qed.

Lemma bind_exits {A} (m : M W A) (k : A -> M W outcome) : total m -> (forall a, exits (k a)) -> exits (bind m k).
Proof. intros Hm Hk w. unfold bind. destruct (Hm w) as (a & w' & ->). apply Hk. Qed.

Lemma or_exit_exits {A} code (m : M W A) k : (forall e, code e ∈ failures) -> (forall a, exits (k a)) -> exits (or_exit code m k).
Proof.
  intros Hc Hk. unfold or_exit. apply bind_exits; [apply total_try|]. intros [a|e]; [apply Hk|]. apply ret_exits. by right; apply Hc.
Qed.

Lemma after_exits {A} (m : M W outcome) (c : M W A) : exits m -> exits (o <- m ;; try c ;;; ret o).
Proof.
  intros Hm w. unfold bind. destruct (Hm w) as (o & w' & -> & Ho). unfold try, ret. destruct (c w') as [r w2]. by exists o, w2.
Qed.

Lemma saying_exits `{!Output W} failed m : well_told failed -> exits m -> exits (saying failed m).
Proof.
  intros Hf Hm w. unfold saying, bind. destruct (Hm w) as (o & w' & -> & Ho). destruct o; [|by exists (ExitError code), w'|by exists Other, w'].
  unfold try, ret. destruct (print_result w') as [[[]|e] w2]; [by exists Done, w2; split; [|left]|by exists failed, w2].
Qed.

Lemma lock_exit_status e : lock_exit e ∈ failures.
Proof. unfold lock_exit. destruct (errors_Is _ _); by apply (bool_decide_unpack _). Qed.

Lemma backup_exit_status e : backup_exit e ∈ failures.
Proof. unfold backup_exit. repeat case_match; by apply (bool_decide_unpack _). Qed.

Lemma with_server_lock_exits `{!Shell W} cfg st mode t m : exits m -> exits (with_server_lock cfg st mode t m).
Proof. intros Hm. unfold with_server_lock. apply or_exit_exits; [apply lock_exit_status|]. intros _. by apply after_exits. Qed.
End exits.

(** One step into a command, whose outcomes are all statuses. *)
Ltac status := first [apply lock_exit_status | apply backup_exit_status | by left | by right; apply (bool_decide_unpack _) | by apply (bool_decide_unpack _) | case_match; status].
Ltac exit_step := match goal with
  | |- exits (ret _) => apply ret_exits
  | |- exits (or_exit _ _ _) => apply or_exit_exits
  | |- exits (with_server_lock _ _ _ _ _) => apply with_server_lock_exits
  | |- exits (saying _ _) => apply saying_exits
  | |- exits (bind (try _) _) => apply bind_exits; [apply total_try|]
  | |- exits (bind (read _) _) => apply bind_exits; [apply total_read|]
  | |- exits (match ?x with _ => _ end) => destruct x
  | |- _ ∈ failures => status
  | |- well_told _ => status
  | |- forall _, _ => intros ?
  | |- exits ?m => progress cbv beta zeta
  end.
Ltac exit_steps := repeat exit_step.

Section bodies.
Context {W : Type} `{Backend W, Host W}.

Lemma addServer_exits cfg : exits (addServer cfg).
Proof. unfold addServer. exit_steps. Qed.

Lemma upgradeServer_exits cfg : exits (upgradeServer cfg).
Proof. unfold upgradeServer. exit_steps. Qed.

Lemma deleteServer_exits server force : exits (deleteServer server force).
Proof. unfold deleteServer. exit_steps. Qed.

Lemma annotateSidecar_exits backupID note : exits (annotateSidecar backupID note).
Proof. unfold annotateSidecar. exit_steps. Qed.

Lemma pruneServer_exits range wall policy dryRun : exits (pruneServer range wall policy dryRun).
Proof. unfold pruneServer. exit_steps. Qed.

Lemma pushSegment_exits segPath : exits (pushSegment segPath).
Proof. unfold pushSegment. exit_steps. Qed.

Lemma getSegment_exits segName destPath : exits (getSegment segName destPath).
Proof. unfold getSegment. exit_steps. Qed.
End bodies.

Section commands.
Context {W : Type} `{Host W, Disk W, Clock W, Pg W, BaseBackup W, FilterLibs, Sessions W, Catalog W, Minting W, Dialing W, !Clients W, WorkerHost W, !AgeKeys, Transport W, Pools W, Shell W, Output W, Stdio W, !Rpc.Bodies message}.
Context (Now : W -> time) (tees : string -> tee -> move) (collate : list string -> list string) (sched : list FileEntry -> list FileEntry) (late : string -> bool).
Context (restore_sched : list Restore.ManifestFile -> list Restore.ManifestFile) (verify_sched : list task -> list task) (order : list string -> list string).
Context (range : forall (n : nat) (A : Type), gmap string A -> list (string * A)) (returns : nat -> list nat).
Context (version tempDir : string) (yaml_Decode : string -> result Config).

Lemma with_opened_exits st (k : rb -> M W outcome) : (forall b, exits (k b)) -> exits (with_opened st k).
Proof. intros Hk. unfold with_opened. apply or_exit_exits; [intros _; status|]. intros [b cleanup]. apply after_exits, Hk. Qed.

Lemma with_primary_exits cfg (k : StorageConfig -> M W outcome) : c_Storages cfg <> [] -> (forall st, exits (k st)) -> exits (with_primary cfg k).
Proof. unfold with_primary, PrimaryStorage. intros Hs Hk. destruct (c_Storages cfg); [done|]. apply Hk. Qed.

Lemma run_with_exits cfg st rq backends : backends <> [] -> exits (run_with Now tees collate sched late version tempDir cfg st rq backends).
Proof. intros Hb. unfold run_with. destruct backends as [|b backends]; [done|]. exit_steps. Qed.

Lemma open_then_exits cfgs (k : list rb * M W unit -> M W outcome) : cfgs <> [] -> (forall backends c, backends <> [] -> exits (k (backends, c))) ->
  exits (or_exit (fun _ => 4) (openBackends cfgs) k).
Proof.
  intros Hc Hk w. unfold or_exit, bind, try. destruct (openBackends cfgs w) as [[[backends c]|e] w1] eqn:Ho; [|exists (ExitError 4), w1; split; [done|status]].
  apply Hk. apply open_all_length in Ho. intros ->. by destruct cfgs.
Qed.

Lemma runBackup_exits cfg rq : c_Storages cfg <> [] -> exits (runBackup Now tees collate sched late version tempDir cfg rq).
Proof.
  intros Hs. unfold runBackup, PrimaryStorage. destruct (c_Storages cfg) as [|st sts] eqn:E; [done|]. cbn [head].
  apply with_server_lock_exits. apply or_exit_exits; [intros; status|]. intros pool. apply after_exits.
  apply or_exit_exits; [intros; status|]. intros cluster. apply after_exits.
  apply open_then_exits; [done|]. intros backends c Hb. apply after_exits. by apply run_with_exits.
Qed.

Lemma backup_request_exits cfg fl o : backup_request cfg fl = inr o -> errExit o = 2.
Proof.
  unfold backup_request. destruct (resolveSSHReach _ _ _). repeat case_match; intros [= <-]; done.
Qed.

Lemma Check_Run_total `{!Backend W} opts : total (Check.Run opts).
Proof.
  unfold Check.Run, probeStorageReachable, probeInfoDecodable, probeChainIntegrity, probeWALExpected, probeArchiveCommand, probeStandbyCoordination, probe.
  repeat (apply total_bind || apply total_ret || apply total_try || case_match || intros ?).
Qed.

Lemma on_storage_exits cfg (k : rb -> M W outcome) : c_Storages cfg <> [] -> (forall b, exits (k b)) -> exits (on_storage cfg k).
Proof. intros Hs Hk. apply with_primary_exits; [done|]. intros st. by apply with_opened_exits. Qed.

Lemma locked_exits cfg mode t (k : rb -> M W outcome) : c_Storages cfg <> [] -> (forall b, exits (k b)) -> exits (locked cfg mode t k).
Proof. intros Hs Hk. apply with_primary_exits; [done|]. intros st. apply with_server_lock_exits. by apply with_opened_exits. Qed.

Lemma restoreCmd_exits cfg fl : c_Storages cfg <> [] -> exits (restoreCmd restore_sched cfg fl).
Proof.
  intros Hs. unfold restoreCmd. destruct (_ || _); [exit_steps|]. unfold runRestore. apply on_storage_exits; [done|]. intros b. exit_steps.
Qed.

Lemma runInfo_exits print cfg f t : c_Storages cfg <> [] -> exits (runInfo print cfg f t).
Proof. intros Hs. apply locked_exits; [done|]. intros b. exit_steps. Qed.

Lemma runVerify_exits print cfg id file t : c_Storages cfg <> [] -> exits (runVerify print order verify_sched cfg id file t).
Proof.
  intros Hs. apply with_primary_exits; [done|]. intros st. apply with_server_lock_exits. apply or_exit_exits; [intros; status|]. intros ids.
  apply with_opened_exits. intros b. exit_steps.
Qed.

Lemma runCheck_exits asJSON print cfg t : c_Storages cfg <> [] -> exits (runCheck asJSON print cfg t).
Proof.
  intros Hs. apply locked_exits; [done|]. intros b. apply bind_exits; [apply Check_Run_total|]. intros report. exit_steps.
Qed.

Lemma run_command_exits cfg c : c_Storages cfg <> [] ->
  exits (run_command Now tees collate sched late restore_sched verify_sched order range version tempDir cfg c).
Proof.
  intros Hs. destruct c; cbn [run_command].
  - apply on_storage_exits; [done|]. intros b. apply saying_exits; [status|]. apply addServer_exits.
  - apply on_storage_exits; [done|]. intros b. exit_steps.
  - apply locked_exits; [done|]. intros b. apply saying_exits; [status|]. apply upgradeServer_exits.
  - apply locked_exits; [done|]. intros b. apply saying_exits; [status|]. apply deleteServer_exits.
  - unfold backupCommand. destruct (backup_request cfg fl) as [rq|o] eqn:E; [apply saying_exits; [status|]; by apply runBackup_exits|].
    apply ret_exits. right. rewrite (backup_request_exits _ _ _ E). status.
  - apply saying_exits; [status|]. by apply restoreCmd_exits.
  - by apply runInfo_exits.
  - by apply runVerify_exits.
  - apply locked_exits; [done|]. intros b. apply saying_exits; [status|]. apply pruneServer_exits.
  - by apply runCheck_exits.
  - apply locked_exits; [done|]. intros b. apply saying_exits; [status|]. apply annotateSidecar_exits.
  - apply on_storage_exits; [done|]. intros b. apply pushSegment_exits.
  - apply on_storage_exits; [done|]. intros b. apply getSegment_exits.
Qed.

Lemma resolveConfig_status file fl o : resolveConfig age_ParseX25519Recipient yaml_Decode file fl = inr o -> errExit o = 2.
Proof.
  unfold resolveConfig, resolveConfigFromFlags. repeat case_match; intros [= <-]; done.
Qed.

(** A command with a configuration comes to its end; none looks for a storage that its configuration does not have. *)
Lemma RunE_exits configPath fl c :
  exits (RunE Now tees collate sched late restore_sched verify_sched order range returns version tempDir yaml_Decode configPath fl (Configured c)).
Proof.
  unfold RunE. apply bind_exits.
  - unfold config_file. case_match; [apply total_ret|]. apply total_bind; [apply total_try|]. intros r. apply total_ret.
  - intros file. destruct (resolveConfig _ _ _ _) as [cfg|o] eqn:E; [|apply ret_exits; right; rewrite (resolveConfig_status _ _ _ E); status].
    apply resolveConfig_valid in E. by apply run_command_exits, (v_storages _ _ E).
Qed.

(** A configuration that is not valid is refused with status 2 before a lock, a storage or the cluster is touched. *)
Lemma main_refuses configPath fl c w file w1 o : config_file configPath w = (Ok file, w1) ->
  resolveConfig age_ParseX25519Recipient yaml_Decode file fl = inr o ->
  main Now tees collate sched late restore_sched verify_sched order range returns version tempDir yaml_Decode configPath fl (Configured c) w = (2, w1).
Proof.
  intros Hf Hr. unfold main, RunE, bind. rewrite Hf, Hr. unfold ret. by rewrite (resolveConfig_status _ _ _ Hr).
Qed.
End commands.
