(* ===== verification/MainSpec.v ===== *)
(** * What status 0 means

    For every command, the operations that make up its work, each of which has to succeed after the ones before it; and
    that the process exits with status 0 exactly when they all did. *)

From S2P Require Import Prelude Lsn Storage Host Time Manifest Info Worlds Retention Config Lock Cli CliSpec Archive Prune Filter Bracket BracketSpec Restore Verify Check Backup BackupSpec Multi MultiBackup PageChecksum PgSql Parallel ParallelSpec Creds Mint Worker WorkerSpec WorkerBackup WorkerRunSpec WorkerOutcome Open BackupCmd RestoreCmd CmdSpec Serve Main.

(** ** Operations that succeed, one after the other *)

Section steps.
Context {W : Type}.

(** [m] succeeds, and [K] holds of its result afterwards. *)
Definition does {A} (m : M W A) (K : A -> W -> Prop) (w : W) : Prop := exists a w', m w = (Ok a, w') /\ K a w'.

(** [m] fails with an error of [P], and [K] holds afterwards. *)
Definition fails {A} (m : M W A) (P : error -> Prop) (K : W -> Prop) (w : W) : Prop := exists err w', m w = (Fail err, w') /\ P err /\ K w'.

(** [K] holds once [m] was run, whatever it returned. *)
Definition let_go {A} (m : M W A) (K : W -> Prop) (w : W) : Prop := K (snd (m w)).

(** A command without an error. *)
Definition ends (m : M W outcome) (Q : W -> Prop) : W -> Prop := does m (fun o w => o = Done /\ Q w).

Lemma does_iff {A} (m : M W A) (K L : A -> W -> Prop) w : (forall a w, K a w <-> L a w) -> does m K w <-> does m L w.
Proof. intros HKL. split; intros (a & w' & Hm & Ha); exists a, w'; split; try done; by apply HKL. Qed.

Lemma ends_ret o Q (w : W) : ends (ret o) Q w <-> o = Done /\ Q w.
Proof. split; [by intros (? & ? & [= <- <-] & ?)|by intros Ho; exists o, w]. Qed.

Lemma ends_bind {A} (m : M W A) k Q (w : W) : ends (bind m k) Q w <-> does m (fun a => ends (k a) Q) w.
Proof.
  split.
  - intros (o & w' & Hr & Ho). apply bind_inv_Ok in Hr as (a & w1 & Hm & Hk). exists a, w1. split; [done|]. by exists o, w'.
  - intros (a & w1 & Hm & o & w' & Hk & Ho). exists o, w'. split; [|done]. unfold bind. by rewrite Hm.
Qed.

Lemma ends_or_exit {A} code (m : M W A) k Q (w : W) : ends (or_exit code m k) Q w <-> does m (fun a => ends (k a) Q) w.
Proof.
  unfold or_exit. rewrite ends_bind. unfold does at 1, try. destruct (m w) as [[a|err] w1] eqn:Em; split.
  - intros (? & ? & [= <- <-] & Hk). by exists a, w1.
  - intros (? & ? & Hm & Hk). rewrite Em in Hm. injection Hm as <- <-. by eexists _, w1.
  - intros (? & ? & [= <- <-] & Hk). apply ends_ret in Hk as [[=] _].
  - intros (? & ? & Hm & _). by rewrite Em in Hm.
Qed.

(** What is let go at the end does not change the outcome. *)
Lemma ends_after {A} (m : M W outcome) (c : M W A) Q (w : W) : ends (o <- m ;; try c ;;; ret o) Q w <-> ends m (let_go c Q) w.
Proof.
  rewrite ends_bind. apply does_iff. intros o w1. unfold ends, does, bind, try, ret, let_go. destruct (c w1) as [r w2]. cbn [snd]. split.
  - by intros (? & ? & [= <- <-] & ?).
  - intros Ho. by exists o, w2.
Qed.

Lemma ends_lock `{!Shell W} cfg st mode t m Q (w : W) :
  ends (with_server_lock cfg st mode t m) Q w <->
  does (lock_Acquire (serverLockPath st (c_Server cfg)) mode t) (fun _ => ends m (let_go (lock_Release (serverLockPath st (c_Server cfg))) Q)) w.
Proof. unfold with_server_lock. rewrite ends_or_exit. apply does_iff. intros _ w1. apply ends_after. Qed.

(** What a command prints at its end comes out. *)
Definition printed `{!Output W} (Q : W -> Prop) : W -> Prop := does print_result (fun _ => Q).

Lemma ends_saying `{!Output W} failed m Q (w : W) : failed <> Done -> ends (saying failed m) Q w <-> ends m (printed Q) w.
Proof.
  intros Hf. unfold saying. rewrite ends_bind. split.
  - intros (o & w1 & Hm & Hk). destruct o; [|by apply ends_ret in Hk as [[=] _]..]. exists Done, w1. split; [done|]. split; [done|].
    apply ends_bind in Hk as (r & w2 & Hp & Hk). apply ends_ret in Hk as [Hr HQ]. unfold try in Hp. destruct (print_result w1) as [[[]|e] w3] eqn:E;
      injection Hp as <- <-; [by exists tt, w3|done].
  - intros (o & w1 & Hm & -> & u & w2 & Hp & HQ). exists Done, w1. split; [done|]. apply ends_bind. eexists _, w2. unfold try. rewrite Hp.
    split; [done|]. by apply ends_ret.
Qed.

Lemma ends_print `{!Output W} failed o Q (w : W) : failed <> Done ->
  ends (r <- try print_result ;; ret (match r with Ok _ => o | Fail _ => failed end)) Q w <-> does print_result (fun _ w => o = Done /\ Q w) w.
Proof.
  intros Hf. rewrite ends_bind. unfold try. split.
  - intros (r & w1 & Hp & Hk). apply ends_ret in Hk as [Hr HQ]. destruct (print_result w) as [[[]|e] w2] eqn:E; injection Hp as <- <-; [by exists tt, w2|done].
  - intros (u & w1 & Hp & Ho & HQ). eexists _, w1. rewrite Hp. split; [done|]. by apply ends_ret.
Qed.
End steps.

(** ** The work of the operations on one storage *)

Section operations.
Context {W : Type} `{Backend W, Host W}.

(** [server add]: no root sidecar was there, and one with the settings is stored. *)
Definition server_added (cfg : Config) (Q : W -> Prop) : W -> Prop :=
  fails (be_Stat sidecarFilename) (fun err => errors_Is err OsErrNotExist = true) (fun w => exists data,
    MarshalSidecar {| sc_Version := SidecarVersion; sc_Server := c_Server cfg; sc_EncryptionRecipients := en_Recipients (c_Encryption cfg);
      sc_Compression := compression_string (c_Compression cfg); sc_StorageLayoutVersion := 1; sc_WALSegments := []; sc_SystemIdentifier := 0;
      sc_Directories := []; sc_Type := ""; sc_ParentBackupID := ""; sc_Annotation := ""; sc_LockHeld := false |} = Ok data /\
    does (be_Put sidecarFilename) (fun wc => does (be_Write wc data) (fun _ => does (be_Close wc) (fun _ => Q))) w).

(** A sidecar is read, changed and put back. *)
Definition sidecar_replaced (key : string) (ours : Sidecar -> Prop) (change : Sidecar -> Sidecar) (Q : W -> Prop) : W -> Prop :=
  does (Cli.readSidecar key) (fun sc w => ours sc /\ exists data, MarshalSidecar (change sc) = Ok data /\ does (atomicReplaceSidecar key data) (fun _ => Q) w).

(** The root sidecar is deleted, or was not there. *)
Definition root_removed (Q : W -> Prop) (w : W) : Prop :=
  does (be_Delete sidecarFilename) (fun _ => Q) w \/ fails (be_Delete sidecarFilename) (fun err => errors_Is err OsErrNotExist = true) Q w.

(** [server delete]: the files of all backups of the server that are listed are deleted, which takes [--force] when
    there are any, and the root sidecar is, unless there is none. *)
Definition server_deleted (server : string) (force : bool) (Q : W -> Prop) : W -> Prop :=
  does Info.List (fun '(records, _) w =>
    let ours := r_BackupID <$> base.filter (fun r => String.eqb (r_Server r) server) records in
    (ours = [] \/ force = true) /\
    does (forM ours 0 delete_backup) (fun _ => root_removed Q) w).

(** [prune]: the plan of the policy for the backups listed now is carried out to the end. *)
Definition backups_pruned range (wall : W -> time) policy dryRun (Q : W -> Prop) : W -> Prop :=
  does Info.List (fun '(records, _) w => exists plan, Evaluate range (wall w) records policy = Ok plan /\
    does (Prune plan dryRun) (fun '(_, err) w => err = None /\ Q w) w).

(** [archive-push] and [archive-get] *)
Definition segment_pushed (segPath : string) (Q : W -> Prop) (w : W) : Prop :=
  exists tli, TimelineFromSegment (path_Base segPath) = Ok tli /\ does (Push tli segPath) (fun _ => Q) w.
Definition segment_got (segName destPath : string) (Q : W -> Prop) (w : W) : Prop :=
  exists tli, TimelineFromSegment segName = Ok tli /\ does (Archive.Get tli segName destPath) (fun _ => Q) w.

Lemma addServer_ends cfg Q w : ends (addServer cfg) Q w <-> server_added cfg Q w.
Proof.
  unfold addServer. rewrite ends_bind. unfold does at 1, try, server_added, fails. destruct (be_Stat sidecarFilename w) as [[fi|err] w1].
  { split; [intros (? & ? & [= <- <-] & Hk); by apply ends_ret in Hk as [[=] _]|naive_solver]. }
  split.
  - intros (? & ? & [= <- <-] & Hk). destruct (errors_Is err OsErrNotExist) eqn:Ee; cbn [negb] in Hk; [|by apply ends_ret in Hk as [[=] _]].
    exists err, w1. do 2 (split; [done|]). apply ends_or_exit in Hk as (data & w2 & Hd & Hk). pose proof (f_equal snd Hd : w1 = w2) as <-. exists data. split; [exact (f_equal fst Hd)|].
    apply ends_or_exit in Hk as (wc & w3 & Hp & Hk). exists wc, w3. split; [done|]. apply ends_bind in Hk as (r & w4 & Hw & Hk).
    unfold try in Hw. destruct (be_Write wc data w3) as [[u|e] w5] eqn:Ew; injection Hw as <- <-.
    + exists u, w5. split; [done|]. apply ends_or_exit in Hk. revert Hk. apply does_iff. intros ? ?. rewrite ends_ret. naive_solver.
    + apply ends_bind in Hk as (? & ? & _ & Hk). by apply ends_ret in Hk as [[=] _].
  - intros (? & ? & [= <- <-] & He & data & Hd & wc & w3 & Hp & u & w4 & Hw & Hc). eexists _, w1. split; [done|]. cbv beta iota. rewrite He. cbn [negb].
    apply ends_or_exit. exists data, w1. split; [unfold of_result; by rewrite Hd|]. apply ends_or_exit. exists wc, w3. split; [done|].
    apply ends_bind. eexists _, w4. unfold try. rewrite Hw. split; [done|]. apply ends_or_exit. revert Hc. apply does_iff. intros ? ?. rewrite ends_ret. naive_solver.
Qed.

(** A pure step that may fail. *)
Lemma ends_result {A} code (r : result A) k Q (w : W) : ends (or_exit code (of_result r) k) Q w <-> exists a, r = Ok a /\ ends (k a) Q w.
Proof.
  rewrite ends_or_exit. unfold does, of_result. split; [intros (a & w' & Hr & Hk)|intros (a & -> & Hk); by exists a, w].
  exists a. split; [exact (f_equal fst Hr)|]. by rewrite (f_equal snd Hr : w = w').
Qed.

Lemma ends_done Q (w : W) : ends (ret Done) Q w <-> Q w.
Proof. rewrite ends_ret. naive_solver. Qed.

Lemma annotateSidecar_ends id note Q w :
  ends (annotateSidecar id note) Q w <-> sidecar_replaced (path_Join [id; "Storage-Metadata.json"]) (fun _ => True) (set_annotation note) Q w.
Proof.
  unfold annotateSidecar, sidecar_replaced. rewrite ends_or_exit. apply does_iff. intros sc w1. rewrite ends_result. split.
  - intros (data & Hd & Hk). split; [done|]. exists data. split; [done|]. apply ends_or_exit in Hk. revert Hk. apply does_iff. intros ? ?. by rewrite ends_done.
  - intros (_ & data & Hd & Hk). exists data. split; [done|]. apply ends_or_exit. revert Hk. apply does_iff. intros ? ?. by rewrite ends_done.
Qed.

Lemma upgradeServer_ends cfg Q w : ends (upgradeServer cfg) Q w <->
  sidecar_replaced sidecarFilename (fun sc => sc_Server sc = c_Server cfg)
    (set_compression (en_Recipients (c_Encryption cfg)) (compression_string (c_Compression cfg))) Q w.
Proof.
  unfold upgradeServer, sidecar_replaced, readRootSidecar. rewrite ends_or_exit. apply does_iff. intros sc w1.
  destruct (String.eqb_spec (sc_Server sc) (c_Server cfg)) as [Hs|Hs]; cbn [negb]; [|rewrite ends_ret; naive_solver].
  rewrite ends_result. split.
  - intros (data & Hd & Hk). split; [done|]. exists data. split; [done|]. apply ends_or_exit in Hk. revert Hk. apply does_iff. intros ? ?. by rewrite ends_done.
  - intros (_ & data & Hd & Hk). exists data. split; [done|]. apply ends_or_exit. revert Hk. apply does_iff. intros ? ?. by rewrite ends_done.
Qed.

Lemma root_removed_ends Q (w : W) :
  ends (r <- try (be_Delete sidecarFilename) ;;
        match r with Ok _ => ret Done | Fail err => if errors_Is err OsErrNotExist then ret Done else ret (ExitError 4) end) Q w <-> root_removed Q w.
Proof.
  rewrite ends_bind. unfold root_removed, fails, try. unfold does at 1 2. destruct (be_Delete sidecarFilename w) as [[u|err] w1]; split.
  - intros (? & ? & [= <- <-] & Hk). cbv beta iota in Hk. left. exists u, w1. by rewrite ends_done in Hk.
  - intros [(? & ? & [= _ <-] & HQ)|(? & ? & [=] & _)]. eexists _, w1. split; [done|]. cbv beta iota. by rewrite ends_done.
  - intros (? & ? & [= <- <-] & Hk). cbv beta iota in Hk. right. exists err, w1. destruct (errors_Is err OsErrNotExist); [by rewrite ends_done in Hk|by apply ends_ret in Hk as [[=] _]].
  - intros [(? & ? & [=] & _)|(? & ? & [= <- <-] & He & HQ)]. eexists _, w1. split; [done|]. cbv beta iota. rewrite He. by rewrite ends_done.
Qed.

Lemma deleteServer_ends server force Q w : ends (deleteServer server force) Q w <-> server_deleted server force Q w.
Proof.
  unfold deleteServer, server_deleted. rewrite ends_or_exit. apply does_iff. intros [recs ws] w1. cbv zeta.
  destruct (r_BackupID <$> _) as [|id ids]; [|destruct force]; cbn [length Nat.ltb Nat.leb negb andb].
  1,2: rewrite ends_or_exit, (does_iff _ _ (fun _ => root_removed Q)) by (intros ? w2; apply root_removed_ends); naive_solver.
  rewrite ends_ret. naive_solver.
Qed.

Lemma pruneServer_ends range wall policy dryRun Q w : ends (pruneServer range wall policy dryRun) Q w <-> backups_pruned range wall policy dryRun Q w.
Proof.
  unfold pruneServer, backups_pruned. rewrite ends_or_exit. apply does_iff. intros [recs ws] w1. rewrite ends_bind.
  assert (Hread : forall K, does (read wall) K w1 <-> K (wall w1) w1) by (intros K; split; [by intros (? & ? & [= <- <-] & ?)|by intros HK; exists (wall w1), w1]).
  rewrite Hread. destruct (Evaluate range (wall w1) recs policy) as [plan|err]; [|rewrite ends_ret; naive_solver].
  rewrite ends_or_exit. assert (Hk : forall a w2, ends ((fun '(_, err) => match err with Some _ => ret (ExitError 4) | None => ret Done end) a) Q w2 <->
    (fun '(_, err) w => err = None /\ Q w) (a : PruneResult * option error) w2) by (intros [? [|]] ?; rewrite ends_ret; naive_solver).
  rewrite (does_iff _ _ _ _ Hk). naive_solver.
Qed.

Lemma pushSegment_ends segPath Q w : ends (pushSegment segPath) Q w <-> segment_pushed segPath Q w.
Proof.
  unfold pushSegment, segment_pushed. destruct (TimelineFromSegment _) as [tli|err]; [|rewrite ends_ret; naive_solver].
  rewrite ends_or_exit, (does_iff _ _ (fun _ => Q)) by (intros; apply ends_done). naive_solver.
Qed.

Lemma getSegment_ends segName destPath Q w : ends (getSegment segName destPath) Q w <-> segment_got segName destPath Q w.
Proof.
  unfold getSegment, segment_got. destruct (TimelineFromSegment _) as [tli|err]; [|rewrite ends_ret; naive_solver].
  rewrite ends_bind. unfold does at 1, try. split.
  - intros (r & w1 & Hr & Hk). apply ends_ret in Hk as [Ho HQ]. exists tli. split; [done|]. destruct (Archive.Get tli segName destPath w) as [[a|e] w2] eqn:E;
      injection Hr as <- <-; [by exists a, w2|done].
  - intros (? & [= <-] & a & w1 & Hg & HQ). eexists _, w1. rewrite Hg. split; [done|]. by apply ends_done.
Qed.
End operations.

(** ** The work of the commands *)

Section work.
Context {W : Type} `{Host W, Disk W, Clock W, Pg W, BaseBackup W, FilterLibs, Sessions W, Catalog W, Minting W, Dialing W, !Clients W, WorkerHost W, !AgeKeys, Transport W, Pools W, Shell W, Output W, Stdio W, !Rpc.Bodies message}.
Context (Now : W -> time) (tees : string -> tee -> move) (collate : list string -> list string) (sched : list FileEntry -> list FileEntry) (late : string -> bool).
Context (restore_sched : list Restore.ManifestFile -> list Restore.ManifestFile) (verify_sched : list task -> list task) (order : list string -> list string).
Context (range : forall (n : nat) (A : Type), gmap string A -> list (string * A)) (returns : nat -> list nat).
Context (version tempDir : string) (yaml_Decode : string -> result Config).

(** The first storage of the configuration, opened, and let go of afterwards; the lock of the server around it. *)
Definition first_storage (cfg : Config) (K : StorageConfig -> W -> Prop) (w : W) : Prop := exists st, PrimaryStorage cfg = Some st /\ K st w.
Definition opened_storage (st : StorageConfig) (K : rb -> (W -> Prop) -> W -> Prop) (Q : W -> Prop) : W -> Prop :=
  does (openBackend st) (fun '(b, cleanup) => K b (let_go cleanup Q)).
Definition under_lock (cfg : Config) (st : StorageConfig) (mode : Lock.Mode) (timeout : Z) (K : (W -> Prop) -> W -> Prop) (Q : W -> Prop) : W -> Prop :=
  does (lock_Acquire (serverLockPath st (c_Server cfg)) mode timeout) (fun _ => K (let_go (lock_Release (serverLockPath st (c_Server cfg))) Q)).
Definition locked_storage (cfg : Config) (mode : Lock.Mode) (timeout : Z) (K : rb -> (W -> Prop) -> W -> Prop) (Q : W -> Prop) : W -> Prop :=
  first_storage cfg (fun st => under_lock cfg st mode timeout (opened_storage st K) Q).

(** [backup]: under the lock and with the cluster and all storages connected, the run of the backup succeeds. *)
Definition backup_made (cfg : Config) (rq : BackupRequest) (Q : W -> Prop) : W -> Prop :=
  first_storage cfg (fun st => under_lock cfg st Lock.Exclusive (rq_LockTimeout rq) (fun Q =>
    does (Connect (pg_ConnString (c_PG cfg))) (fun pool => does (Connect (pg_ConnString (c_PG cfg))) (fun cluster =>
    does (openBackends (c_Storages cfg)) (fun '(backends, cleanup) w =>
      exists backend rest recipients chain, backends = backend :: rest /\
        parseAgeRecipients age_ParseX25519Recipient (en_Recipients (c_Encryption cfg)) = Ok recipients /\
        NewChain {| o_Codec := cm_Codec (c_Compression cfg); o_Level := cm_Level (c_Compression cfg); o_Recipients := recipients |} = Ok chain /\
        does (Run (H:=rb_Backend backend) Now tees collate sched late true (rq_Mode rq) (backup_options version tempDir cfg rq chain) (map rb_Backend backends)
          (parallel_options cfg rq) (worker_options cfg rq st))
          (fun _ => let_go cleanup (let_go (pool_Close cluster) (let_go (pool_Close pool) Q))) w)))) Q).

(** [restore]: with the storage opened and the identities read, the restore succeeds. *)
Definition backup_restored (cfg : Config) (fl : RestoreFlags) (Q : W -> Prop) (w : W) : Prop :=
  rx_target fl <> "" /\ rx_identity_file fl <> "" /\
  first_storage cfg (fun st => opened_storage st (fun b Q => does (LoadIdentityFile (rx_identity_file fl)) (fun identities w =>
    exists opts, buildRestoreOptions fl identities = Ok opts /\ does (Restore.Run (H:=rb_Backend b) restore_sched opts) (fun _ => Q) w)) Q) w.

(** [verify]: every backup asked for was read to the end, and all of it is sound. *)
Definition backups_verified (cfg : Config) (backupID identityFile : string) (timeout : Z) (Q : W -> Prop) : W -> Prop :=
  first_storage cfg (fun st => under_lock cfg st Lock.Shared timeout (fun Q => does (readIdentities identityFile) (fun identities =>
    opened_storage st (fun b Q => does (Verify (H:=rb_Backend b) order verify_sched backupID identities) (fun results =>
      does print_result (fun _ w => forallb Verify.AllOK results = true /\ Q w))) Q)) Q).

(** The work of a command, from the moment its configuration is known. *)
Definition command_work (cfg : Config) (c : configured_command) (Q : W -> Prop) : W -> Prop :=
  match c with
  | ServerAdd => first_storage cfg (fun st => opened_storage st (fun b Q => server_added (H:=rb_Backend b) cfg (printed Q)) Q)
  | ServerList => first_storage cfg (fun st => opened_storage st (fun b Q => does (listServers (H:=rb_Backend b)) (fun _ => printed Q)) Q)
  | ServerUpgrade t => locked_storage cfg Lock.Exclusive t (fun b Q =>
      sidecar_replaced (H:=rb_Backend b) sidecarFilename (fun sc => sc_Server sc = c_Server cfg)
        (set_compression (en_Recipients (c_Encryption cfg)) (compression_string (c_Compression cfg))) (printed Q)) Q
  | ServerDelete force t => locked_storage cfg Lock.Exclusive t (fun b Q => server_deleted (H:=rb_Backend b) (c_Server cfg) force (printed Q)) Q
  | BackupCommand fl => fun w => exists rq, backup_request cfg fl = inl rq /\ backup_made cfg rq (printed Q) w
  | RestoreCommand fl => backup_restored cfg fl (printed Q)
  | InfoCommand filter t => locked_storage cfg Lock.Shared t (fun b Q => does (@Info.List _ (rb_Backend b)) (fun _ => printed Q)) Q
  | VerifyCommand id identityFile t => backups_verified cfg id identityFile t Q
  | PruneCommand fl => locked_storage cfg Lock.Exclusive (pf_lock_timeout fl) (fun b Q =>
      backups_pruned (H:=rb_Backend b) range Now (prune_policy fl) (pf_dry_run fl) (printed Q)) Q
  | CheckCommand asJSON t => locked_storage cfg Lock.Shared t (fun b Q =>
      does (Check.Run (H:=rb_Backend b) {| co_Backend := true; co_Pool := false |}) (fun report =>
      does print_result (fun _ w => Check.AllOK report = true /\ Q w))) Q
  | AnnotateCommand id note t => locked_storage cfg Lock.Exclusive t (fun b Q =>
      sidecar_replaced (H:=rb_Backend b) (path_Join [id; "Storage-Metadata.json"]) (fun _ => True) (set_annotation note) (printed Q)) Q
  | ArchivePush segPath => first_storage cfg (fun st => opened_storage st (fun b Q => segment_pushed (H:=rb_Backend b) segPath Q) Q)
  | ArchiveGet segName destPath => first_storage cfg (fun st => opened_storage st (fun b Q => segment_got (H:=rb_Backend b) segName destPath Q) Q)
  end.

(** The work of an invocation: the configuration it names is read and valid, and the command does its work; the worker
    serves all requests that standard input holds, and answers every call. *)
Definition work_done (configPath : string) (fl : Flags) (c : command) : W -> Prop :=
  match c with
  | Configured c => does (config_file configPath) (fun file w =>
      exists cfg, resolveConfig age_ParseX25519Recipient yaml_Decode file fl = inl cfg /\ command_work cfg c (fun _ => True) w)
  | WorkerStdio => does (workerStdio Now restore_sched returns version) (fun sw _ => served (fst sw))
  end.

(** ** Every command ends when its work is done, and only then *)

Lemma ends_primary cfg k (K : StorageConfig -> W -> Prop) Q w : (forall st w, ends (k st) Q w <-> K st w) ->
  ends (with_primary cfg k) Q w <-> first_storage cfg K w.
Proof.
  intros Hk. unfold with_primary, first_storage. destruct (PrimaryStorage cfg) as [st|]; [rewrite Hk; naive_solver|].
  split; [by intros (? & ? & [=] & _)|naive_solver].
Qed.

Lemma ends_opened st k (K : rb -> (W -> Prop) -> W -> Prop) Q w : (forall b Q w, ends (k b) Q w <-> K b Q w) ->
  ends (with_opened st k) Q w <-> opened_storage st K Q w.
Proof. intros Hk. unfold with_opened, opened_storage. rewrite ends_or_exit. apply does_iff. intros [b c] w1. unfold finally. by rewrite ends_after, Hk. Qed.

Lemma ends_locked cfg mode t k (K : rb -> (W -> Prop) -> W -> Prop) Q w : (forall b Q w, ends (k b) Q w <-> K b Q w) ->
  ends (locked cfg mode t k) Q w <-> locked_storage cfg mode t K Q w.
Proof.
  intros Hk. apply ends_primary. intros st w1. rewrite ends_lock. apply does_iff. intros _ w2. by apply ends_opened.
Qed.

Lemma ends_on_storage cfg k (K : rb -> (W -> Prop) -> W -> Prop) Q w : (forall b Q w, ends (k b) Q w <-> K b Q w) ->
  ends (on_storage cfg k) Q w <-> first_storage cfg (fun st => opened_storage st K Q) w.
Proof. intros Hk. apply ends_primary. intros st w1. by apply ends_opened. Qed.

Lemma run_with_ends cfg st rq backends Q w : ends (run_with Now tees collate sched late version tempDir cfg st rq backends) Q w <->
  exists backend rest recipients chain, backends = backend :: rest /\
    parseAgeRecipients age_ParseX25519Recipient (en_Recipients (c_Encryption cfg)) = Ok recipients /\
    NewChain {| o_Codec := cm_Codec (c_Compression cfg); o_Level := cm_Level (c_Compression cfg); o_Recipients := recipients |} = Ok chain /\
    does (Run (H:=rb_Backend backend) Now tees collate sched late true (rq_Mode rq) (backup_options version tempDir cfg rq chain) (map rb_Backend backends)
      (parallel_options cfg rq) (worker_options cfg rq st)) (fun _ => Q) w.
Proof.
  unfold run_with. destruct (parseAgeRecipients _ _) as [recipients|err]; [|rewrite ends_ret; naive_solver].
  destruct (NewChain _) as [chain|err] eqn:Ec.
  2:{ rewrite ends_ret. split; [by intros [[=] _]|]. intros (? & ? & ? & ? & _ & [= <-] & Ec' & _). by rewrite Ec in Ec'. }
  destruct backends as [|b bs]; [split; [by intros (? & ? & [=] & _)|by intros (? & ? & ? & ? & [=] & _)]|].
  rewrite ends_or_exit, (does_iff _ _ (fun _ => Q)) by (intros; apply ends_done). split.
  - intros Hrun. by exists b, bs, recipients, chain.
  - intros (? & ? & ? & chain' & [= <- <-] & [= <-] & Ec' & Hrun). rewrite Ec in Ec'. by injection Ec' as <-.
Qed.

Lemma runBackup_ends cfg rq Q w : ends (runBackup Now tees collate sched late version tempDir cfg rq) Q w <-> backup_made cfg rq Q w.
Proof.
  apply (ends_primary cfg (fun st => _)). intros st w1. rewrite ends_lock. apply does_iff. intros _ w2.
  rewrite ends_or_exit. apply does_iff. intros pool w3. unfold finally at 1. rewrite ends_after, ends_or_exit. apply does_iff. intros cluster w4.
  unfold finally at 1. rewrite ends_after, ends_or_exit. apply does_iff. intros [backends c] w5. unfold finally. rewrite ends_after. apply run_with_ends.
Qed.

Lemma restoreCmd_ends cfg fl Q w : ends (restoreCmd restore_sched cfg fl) Q w <-> backup_restored cfg fl Q w.
Proof.
  unfold restoreCmd, backup_restored. destruct (String.eqb_spec (rx_target fl) ""); cbn [orb]; [rewrite ends_ret; naive_solver|].
  destruct (String.eqb_spec (rx_identity_file fl) ""); cbn [orb]; [rewrite ends_ret; naive_solver|]. unfold runRestore.
  transitivity (first_storage cfg (fun st => opened_storage st (fun b Q => does (LoadIdentityFile (rx_identity_file fl)) (fun identities w =>
    exists opts, buildRestoreOptions fl identities = Ok opts /\ does (Restore.Run (H:=rb_Backend b) restore_sched opts) (fun _ => Q) w)) Q) w);
    [apply ends_on_storage|naive_solver].
  intros b Q' w1. rewrite ends_or_exit. apply does_iff. intros ids w2. destruct (buildRestoreOptions fl ids) as [opts|err]; [|rewrite ends_ret; naive_solver].
  rewrite ends_or_exit, (does_iff _ _ (fun _ => Q')) by (intros; apply ends_done). naive_solver.
Qed.

Lemma runVerify_ends cfg id file t Q w : ends (runVerify (fun _ => print_result) order verify_sched cfg id file t) Q w <-> backups_verified cfg id file t Q w.
Proof.
  apply (ends_primary cfg (fun st => _)). intros st w1. rewrite ends_lock. apply does_iff. intros _ w2. rewrite ends_or_exit. apply does_iff.
  intros ids w3. apply ends_opened. intros b Q' w4. rewrite ends_or_exit. apply does_iff. intros results w5. rewrite ends_or_exit. apply does_iff.
  intros _ w6. rewrite ends_ret. destruct (forallb _ _); naive_solver.
Qed.

Lemma run_command_ends cfg c Q w :
  ends (run_command Now tees collate sched late restore_sched verify_sched order range version tempDir cfg c) Q w <-> command_work cfg c Q w.
Proof.
  destruct c; cbn [run_command command_work].
  - apply ends_on_storage. intros b Q' w1. rewrite ends_saying by done. apply addServer_ends.
  - apply ends_on_storage. intros b Q' w1. rewrite ends_or_exit. apply does_iff. intros l w2. rewrite ends_saying by done. apply ends_done.
  - apply ends_locked. intros b Q' w1. rewrite ends_saying by done. apply upgradeServer_ends.
  - apply ends_locked. intros b Q' w1. rewrite ends_saying by done. apply deleteServer_ends.
  - unfold backupCommand. destruct (backup_request cfg fl) as [rq|o] eqn:E.
    + rewrite ends_saying, runBackup_ends by done. naive_solver.
    + rewrite ends_ret. apply backup_request_exits in E. split; [by intros [-> _]|by intros (? & [=] & _)].
  - by rewrite ends_saying, restoreCmd_ends.
  - apply ends_locked. intros b Q' w1. rewrite ends_or_exit. apply does_iff. intros [recs ws] w2. rewrite ends_print by done.
    apply does_iff. naive_solver.
  - apply runVerify_ends.
  - apply ends_locked. intros b Q' w1. rewrite ends_saying by done. apply pruneServer_ends.
  - apply ends_locked. intros b Q' w1. rewrite ends_bind. apply does_iff. intros report w2.
    rewrite (ends_print (if asJSON then ExitError 1 else Other)) by by destruct asJSON.
    apply does_iff. intros _ w3. destruct (Check.AllOK report); naive_solver.
  - apply ends_locked. intros b Q' w1. rewrite ends_saying by done. apply annotateSidecar_ends.
  - apply ends_on_storage. intros. apply pushSegment_ends.
  - apply ends_on_storage. intros. apply getSegment_ends.
Qed.

Lemma RunE_ends configPath fl c w :
  ends (RunE Now tees collate sched late restore_sched verify_sched order range returns version tempDir yaml_Decode configPath fl c) (fun _ => True) w <->
  work_done configPath fl c w.
Proof.
  destruct c as [c|]; cbn [RunE work_done].
  - rewrite ends_bind. apply does_iff. intros file w1. destruct (resolveConfig _ _ _ _) as [cfg|o] eqn:E; [rewrite run_command_ends; naive_solver|].
    rewrite ends_ret. apply resolveConfig_status in E. split; [by intros [-> _]|naive_solver].
  - unfold workerStdioCmd. rewrite ends_bind. split.
    + intros (sw & w1 & Hr & _). exists sw, w1. split; [done|]. unfold workerStdio in Hr. apply bind_inv_Ok in Hr as (? & ? & _ & Hr). by eapply Serve_ends.
    + intros (sw & w1 & Hr & _). exists sw, w1. split; [done|]. by apply ends_done.
Qed.
(** What a command returns; only the worker, in a panic, may not. *)
Lemma RunE_told configPath fl c w :
  match RunE Now tees collate sched late restore_sched verify_sched order range returns version tempDir yaml_Decode configPath fl c w with
  | (Ok o, _) => well_told o
  | (Fail _, _) => c = WorkerStdio
  end.
Proof.
  destruct c as [c|].
  - by destruct (RunE_exits Now tees collate sched late restore_sched verify_sched order range returns version tempDir yaml_Decode configPath fl c w) as (o & w' & -> & Ho).
  - destruct (RunE _ _ _ _ _ _ _ _ _ _ _ _ _ configPath fl WorkerStdio w) as [[o|err] w'] eqn:E; [|done].
    cbn [RunE] in E. unfold workerStdioCmd in E. apply bind_inv_Ok in E as (? & ? & _ & [= <- _]). by left.
Qed.
End work.


(** ** A backup on the small cluster *)

#[local] Existing Instances cmd_basebackup cmd_clients cmd_pools.
#[local] Instance cmd_output : Output world := { print_result := ret tt }.
#[local] Instance cmd_stdio : Stdio world := {
  stdin_ReadAll _ := Rpc.frame_bytes {| Rpc.f_disc := Rpc.discJSON; Rpc.f_seq := 1; Rpc.f_kind := Rpc.kindRequest; Rpc.f_method := "WorkerService.Hello";
                                        Rpc.f_errMsg := ""; Rpc.f_body := "" |};
  stdout_Write _ := ret tt }.
#[local] Instance cmd_bodies : Rpc.Bodies message := {
  Rpc.json_Marshal _ := Fail (errors_New "json"); Rpc.gob_Encode _ := Fail (errors_New "gob");
  Rpc.json_Unmarshal _ := Fail (errors_New "json"); Rpc.gob_Decode _ := Fail (errors_New "gob") }.


(** A worker that is asked for its version answers, and ends with its standard input. *)
Example worker_says_hello :
  match workerStdio backup_now id (fun _ => []) "1" cmd_world with
  | (Ok (s, _), _) => served s
  | _ => False
  end.
Proof. vm_compute. split; reflexivity. Qed.
